(* ===== verification/_CoqProject ===== *)
-Q . S2P
Prelude.v
JsNumber.v
JsDate.v
JsString.v
JsParse.v
UrlCodec.v
Format.v
ApiTypes.v
LiveFrames.v
Transport.v
GraphQl.v
Queries.v
LiveStream.v
LogStore.v
LogBridge.v
Search.v
Notifications.v
UnitEvents.v
AppUpdate.v
Freshness.v
LiveConsole.v
HealthView.v
SensorDetail.v
Series.v
WifiSurvey.v
Flights.v
FlightTime.v
FlightFilters.v
TimelineLanes.v
MapGeo.v
ShareCard.v
FlightFiles.v
FlightMotion.v
PathColour.v
Calibration.v
SettingsForms.v
FlightsPage.v
TrackAlerts.v
MapView.v
FlightPage.v
Preferences.v
LogsPage.v
ConsoleSearch.v
Drawer.v
TwoClicks.v
Access.v
Shell.v
SensorsPage.v
UnitPanels.v
AlertsPanel.v
MapStyle.v
ServiceWorker.v
Ui.v
SpectrumPage.v
TracksList.v
AircraftLabels.v
ContactRows.v
SettingsPages.v
CalibrationPage.v
ShareDialog.v
