(* ===== verification/Prelude.v ===== *)
(** * ClassG operator console: verification library

    ClassG watches low-altitude airspace with passive receivers.  Sensors (Rust,
    Python) publish detections, a fusion service (Go) correlates them into
    tracks, an API (Go) stores and streams them, and the operator console under
    [src/services/ui/src] (TypeScript) shows them.  This library models the
    console's own logic, everything between the bytes of a reply and the pixels
    of a component, and proves what an operator relies on.  File names in the
    comments are relative to [src/services/ui/src].

    ** The program's parts and the files that model them

    What the language and the host give:
    - [Prelude] (notations of the source language, [Array.sort], lists, strings),
      [JsNumber] (binary64 numbers), [JsDate] (instants, the ECMAScript date-time
      format, the calendar), [JsString] (string methods, collation as an
      interface), [JsParse] (the language's reading of a number in a text),
      [UrlCodec] ([URLSearchParams], [encodeURIComponent] and the parser of the
      URL standard).

    The data, its way in, and the cache:
    - [ApiTypes]: the data of [lib/api/types.ts] and [lib/api/schema.gen.ts];
      [Format]: [lib/format.ts], [lib/units.ts], texts of the share card.
    - [Transport]: [lib/api/client.ts], [request] and every endpoint, in a monad
      over what [fetch] answers; [GraphQl]: [lib/api/graphql.ts], the one GraphQL
      query and its mapping to the REST shapes; [Queries]: [lib/api/queries.ts],
      every query's key, request, polling and retries, and the page walk.
    - [LiveStream]: the class of [lib/api/live.ts], a reconnecting WebSocket.  It
      hands each parsed frame to its listeners, of which two matter:
      [LiveFrames], [applyFrame] of [app/live-frames.ts], which patches the query
      cache, and [LogBridge], [createFrameLogger] of [features/logs/log-bridge.ts],
      which turns frames into log lines for [LogStore], the store of
      [features/logs/log-store.ts] and its exports.
    - [LiveConsole]: [app/live-provider.tsx], the effect that composes the stream,
      the reducer and the logger, with the state that pages read.

    Who may see it, and the shell around every page:
    - [TwoClicks]: the contract of a control behind a second click, which
      [Access], [SensorsPage] and [AlertsPanel] refine.
    - [Access]: [features/auth/] (the gate, the forms of the first sign-in, the
      accounts page, the account menu) with [routes/__root.tsx] and
      [routes/admin.tsx].
    - [Shell]: [components/layout/side-rail.tsx], [bottom-tabs.tsx] and the shortcut
      of [app-shell.tsx], [features/health/status-button.tsx],
      [features/offline/offline-banner.tsx] and
      [features/monitoring/recording-indicator.tsx].

    What the shell tells the operator:
    - [Search]: [components/layout/search-resolver.ts]; [ConsoleSearch]: the box of
      [global-search.tsx] over it, [command-palette.tsx] and [nav-items.ts].
    - [Notifications]: [features/notifications/], which reads tracks and log
      lines, and the small stores of what was cleared, dismissed or seen;
      [Drawer]: [notifications-drawer.tsx] over them, with the swipe of
      [components/ui/use-swipe-dismiss.ts].
    - [UnitEvents]: [features/deploy/unit-events.ts] and [use-unit-events.ts];
      [AppUpdate]: the watcher of [features/offline/app-update.ts].
    - [Freshness]: [features/offline/freshness.ts] and [hooks.ts], a reading of
      the stream's state, and [tile-cache.ts]; [ServiceWorker]: [sw.ts], the
      precache filter of [vite.config.ts] and [features/offline/register-sw.ts].

    Health:
    - [HealthView]: [features/health/sky-state.ts], [status-summary.ts] and
      [features/monitoring/recording-state.ts], three readings of health.
    - [SensorDetail]: the sensor card, [features/health/sensor-summary.ts],
      [sensor-breakdowns.ts], [sensor-detail-groups.ts], [detail-format.ts] and
      their composition in [components.tsx].
    - [SensorsPage]: the banner over the map of [features/health/components.tsx],
      [routes/sensors.tsx], [features/captures/sensor-captures.tsx] and
      [routes/captures/$captureId.tsx].
    - [Series]: [features/settings/hosts/telemetry-series.ts],
      [features/settings/storage/storage-forecast.ts] and
      [features/spectrum/trace-series.ts]; [WifiSurvey]:
      [features/spectrum/wifi-survey.ts]; [SpectrumPage]: the chart, the occupancy
      and the panel over them, [features/spectrum/*.tsx] and [routes/spectrum.tsx].

    Flights, timeline and map:
    - [Flights], [FlightTime], [FlightFilters]: [features/tracks/] measures,
      order, groups and partition; days, windows and the histogram; facets.
    - [FlightsPage]: [routes/tracks/index.tsx] with [features/tracks/tracks-search.ts],
      the filter bar, the histogram's clicks, the table's rows and
      [features/timeline/flight-lanes.tsx]: the list's state is its address, and
      every control is a change of the address.
    - [TimelineLanes]: [features/timeline/lanes.ts].
    - [TracksList]: the monitored tracks, [features/tracks/tracks-table.tsx], with
      [evidence.tsx] and the instants of [app/use-format.ts]; [AircraftLabels]:
      [aircraft-label.tsx], [use-aircraft-label.ts], [flight-row.ts] and the band of
      time as [features/timeline/event-timeline.tsx] draws it.
    - [ContactRows]: the rows of [features/map/contacts-panel.tsx], the numbers
      over the map of [routes/index.tsx], the cells and groups of
      [features/tracks/flights-table.tsx], [flight-quick-view.tsx] and
      [path-thumbnail.tsx].
    - [MapGeo]: [features/map/geo.ts] and [aircraft.ts].
    - [FlightMotion]: [features/tracks/flight-speed.ts] and [flight-playback.ts];
      [PathColour]: [features/map/path-colour.ts] and [selection.ts].
    - [MapStyle]: [features/map/style.ts] and its use in
      [features/map/live-map.tsx]: which basemap answers, the style built for it
      and the overlays added to it.
    - [MapView]: [features/map/live-map.tsx] (its markers and camera between
      renders), [markers.ts], [contacts-panel.tsx], the page [routes/index.tsx] and
      the units of [app/use-format.ts]; [TrackAlerts]:
      [features/monitoring/track-alerts.tsx].
    - [FlightPage]: [routes/tracks/$trackId.tsx] with
      [features/tracks/flight-scrubber.tsx] (the replay), [profile-lane.tsx],
      [flight-profiles.tsx], [aircraft-flights.tsx] and [features/map/track-map.tsx].
    - [ShareCard]: [features/tracks/share/share-card-model.ts] and
      [path-shape.ts]; [ShareDialog]: the card as [share-card.tsx] draws it, and
      the dialog that lets it leave, [share-track.tsx] and [share-card-export.ts];
      [FlightFiles]: [flight-path.ts], [rssi-samples.ts] and
      [track-export.ts].

    The log, and settings:
    - [LogsPage]: [routes/logs.tsx] and [features/logs/logs-view.tsx], a reading of
      [LogStore]'s entries through the address.
    - [Preferences]: [app/preferences.tsx] and [app/theme.tsx], what this browser
      remembers, and the screen wake lock.
    - [SettingsPages]: [routes/settings.tsx], [features/settings/categories.ts] and
      [controls.tsx], the seven pages of this browser under [routes/settings/] as
      controls over [Preferences], the theme and the log, and [data.tsx] and
      [about.tsx], which are of the receiver.
    - [Calibration]: the editors of [routes/settings/calibration.tsx],
      [lib/detection-classes.ts], [features/captures/capture-limits.ts]. [CalibrationPage]:
      the whole of that page, its cards with their saves and answers, and the fields
      of a group of settings as they are drawn.
    - [SettingsForms]: [features/settings/setting-fields.tsx] and the editors of
      [features/hooks/hooks-panel.tsx] and [features/boundaries/boundaries-panel.tsx];
      [AlertsPanel]: the cards, rows and panels of the latter two over those
      editors.
    - [UnitPanels]: the unit's own panels, [features/deploy/] (deployment, history,
      artefacts, watchdog), [features/settings/storage/storage-panel.tsx],
      [features/settings/hosts/] and the host card of
      [routes/settings/about.tsx].

    - [Ui]: the controls of [components/ui/] that have behaviour (notices,
      explainers, menu keys, the copy button, bars), with [lib/alert-sound.ts],
      [lib/platform.ts] and [lib/use-media-query.ts].

    Objects with methods (the stream, the log store, the update watcher) and
    forms are records threaded through one function per method and handler; the
    browser they drive (sockets, timers, workers) is part of the same state, and
    a [step] function says what page and browser can do next, so that a theorem
    about all runs is an invariant of [step].  Pure modules are pure functions.
    [Transport], [GraphQl] and [LiveConsole] compose the others: an endpoint's
    reply goes through the same normalisation as a frame, and the console's state
    holds a stream, a cache and a log that each handler threads in the code's
    order.

    ** What the theorems show

    - From the wire to the page (C1-C7): a frame leaves every cached list coherent
      (no track twice, only rows the list's own filter admits, at most 500 closed
      ones) and refines the abstract meaning of an update; in every run the
      provider can drive ([LiveStream.drives]) the sockets that can call the stream
      back and its retry are one together, and at most one more for each resume that
      met a socket in its closing handshake; the cache is the fold of the frames that
      arrived on sockets that still had their handlers; a server that comes back is
      reached from there too; a well typed cache lets every frame through and stays
      so; and the published state says what it may of the socket.
    - The log (C8-C10): the store refines a ring buffer; lines are exactly the
      transitions of the frames; the page shows the lines that were asked for.
    - Requests (C11-C14): a track list's URL carries exactly the filters that are
      set, the GraphQL detail is the REST one, its failures are those of a request,
      and the page walk ends with the flight's first ten thousand detections.
    - Health (C15-C16): an empty map reads as evidence exactly when every sensor is
      well, whatever the status of the whole, and the warning that it is not cannot
      be hidden.
    - The worker and guarded actions (C17-C20): the page never reloads unasked; the
      service worker never answers for the sky; the application is shown to those
      the last answer admits, and signing in leads to the page; deletions and
      revocations take two clicks while the preference asks for them.
    - Notifications and preferences (C21-C23): the drawer lists the newest of what
      the switches admit and was not cleared, clears only what was asked, and counts
      as new what is stamped after it was opened; clears and preferences survive a
      reload.
    - The live page (C24-C26): the map shows the latest picture and no marker of
      an earlier one; the list beside it holds every contact once, its tab counting
      them all and its rows three flights of an aircraft; a new track is sounded
      once.
    - A flight and the flights (C27-C31): a replay draws the recorded flight, says
      when nothing was heard and ends, its playhead within the flight as long as the
      flight only grows; the monitored tracks are listed as they were
      asked for; each flight of the merged history that is let through has one row
      under its own aircraft; the controls drive the view through the address, from
      any address, but for two thresholds that are the session's; the histogram counts each flight once.
    - Views and panels (C32-C39): lanes are apart and fewest; a chart shows what was
      read; a sweep is asked for; the pages of settings show what was pressed, and so
      does the next visit; the map is drawn from what answered, a hosted style under
      the overlays and without rings; a trail is the flight as heard; the search
      opens the row it shows, of the best matches, the order of which is stated
      without the code's comparator; no image tells the place
      unless it was asked to, and no words do.
    - Bounds (C40): the reconnection delay.

    Lemmas that end a file without an identifier say more of the same parts.  Some
    show where the code and its comments, or its purpose, part:
    - the stream: a resume while a socket is closing leaks it
      ([LiveStream.resume_while_closing_leaks]), a resume takes the banner down
      ([LiveConsole.resume_takes_banner_down]), the attempt number shown lags
      ([LiveConsole.attempt_sticks]), an effect that ends on a lost session leaves
      it shown as open ([LiveConsole.unmounted_still_shows_open]);
    - events and health: a first deployment goes unlogged
      ([UnitEvents.first_deploy_is_missed]), a disconnected fusion reads as a
      quiet sky ([HealthView.fusion_down_reads_quiet]), an empty distribution is
      nowhere on the card ([SensorDetail.empty_distribution_is_nowhere]), channel
      keys can compare in a circle ([SensorDetail.channel_order_is_circular]);
    - flights: an empty serial gives an empty label ([Flights.blank_serial_label]),
      times compared as strings keep the older report
      ([MapGeo.lexical_order_is_not_time_order]), the detail query leaves out how a
      height was derived ([GraphQl.detail_never_derived]), a weak signal leaves its
      plot ([ShareCard.weak_signal_leaves_the_box]), one position is exported as a
      line ([FlightFiles.line_of_one_position]), thinning can lose the last
      reading ([Series.thinning_can_lose_the_end]), a filter that admits nothing is
      reported as an empty sky
      ([FlightsPage.Examples.filtered_band_says_empty_sky]), a band over part of the
      history does not say so
      ([FlightsPage.Examples.partial_band_is_not_announced]), the box labelled as a
      filter by identity reads every column
      ([TracksList.Examples.the_box_reads_hidden_columns]), a label saved late
      discards the next one's draft
      ([AircraftLabels.Label.a_late_save_discards_the_next_draft]);
    - the live map: a pan does not keep the initial centre away
      ([MapView.Examples.pan_is_overridden]), an operator's marker keeps an old
      name ([MapView.Examples.stale_operator_label]), the tab counts rows that are
      not drawn ([MapView.Examples.tab_counts_what_is_not_drawn]);
    - a flight opened from another's page keeps its replay
      ([FlightPage.Examples.replay_carries_over]); an export of the log is of the
      lines that match ([LogsPage.Examples.export_is_what_matches]), a log that is
      followed is left short of its end by a wider filter
      ([LogsPage.Examples.a_wider_filter_leaves_the_end]);
    - search: a known flight typed in lower case is not recognised
      ([Search.lower_case_id_is_unlisted]), separators alone list every aircraft
      ([Search.separators_match_every_mac]), Enter within the debounce opens a row
      of the earlier text ([ConsoleSearch.Examples.enter_opens_the_earlier_text]),
      a list reopened at once is closed ([ConsoleSearch.Examples.refocus_closes]),
      the palette offers a theme that is already shown
      ([ConsoleSearch.Palette.theme_switch_switches_nothing]);
    - the drawer takes one switch off for all
      ([Drawer.Drawer.one_switch_off_reads_as_all_off]); a dismissed reassurance
      does not return with the quiet sky
      ([SensorsPage.Examples.dismissal_outlives_the_change]);
    - access: the first administrator's first page stays empty
      ([Access.Gate.setup_leaves_an_empty_page]), a refusal reads as silence
      ([Access.Examples.a_refusal_reads_as_silence]), a role change drops a typed
      password ([Access.Examples.role_change_discards_the_password]), a failed
      deletion shows an earlier error
      ([Access.Examples.failed_delete_shows_earlier_error]), the palette is out of
      reach with authentication off ([Access.Admin.auth_off_hides_the_palette]);
    - the shell: the question to stop outlives the recording
      ([Shell.Recording.paused_elsewhere_keeps_the_question]), the tabs light
      nothing on some pages ([Shell.Frame.docs_is_nowhere]); an address of no
      sensor hides the others
      ([SensorsPage.Sensors.unknown_sensor_says_none_reports]), a report that fails
      to load is silent ([SensorsPage.Captures.report_failure_is_silent]);
    - settings: overlapping requests leak a wake lock
      ([Preferences.WakeLock.overlapping_request_leaks]), a weight that is typed is dropped
      ([Calibration.Weights.typing_is_dropped]), text typed during a save is lost
      ([SettingsForms.SettingsGroup.typing_while_saving_is_lost]), a saved value
      hides the unit's own ([SettingsForms.SettingsGroup.saved_value_masks_the_unit]),
      saving a rule drops its filters and rounds its cooldown
      ([SettingsForms.HookRules.saving_forgets_filters],
      [SettingsForms.HookRules.saving_rounds_the_cooldown]), a form says the pilot's
      position stays private while that is not known
      ([AlertsPanel.Rules.unknown_settings_read_as_private]), a save given up closes
      the next editor ([AlertsPanel.Examples.the_second_editor_is_closed]), a test
      that fails leaves the answer of the one before
      ([AlertsPanel.Examples.delivered_is_still_said]), two presses of the switch
      send the same state ([AlertsPanel.Rules.two_switches_send_the_same]);
    - the unit's panels: the forecast is of a truncated history
      ([UnitPanels.Readings.forecast_ignores_truncation]), the reason a disk could
      not be read is looked up under another name
      ([UnitPanels.Readings.storage_never_shows_the_reason]), an agent that died in
      a deployment is deploying for ever
      ([UnitPanels.Deploy.a_dead_deploy_never_warns]), a refused withdrawal is
      silent ([UnitPanels.Deploy.a_refused_withdrawal_is_silent]), a failure reads
      as an empty list ([UnitPanels.failed_history_reads_as_empty],
      [AlertsPanel.Rules.failed_deliveries_read_as_none]), no artefacts and an
      unreadable list look alike
      ([UnitPanels.missing_and_empty_artefacts_look_alike]), a run takes a minute
      and sixty seconds ([UnitPanels.sixty_seconds_are_said]);
    - the map's style: without the archive's decoder the tiles are not tried
      ([MapStyle.no_decoder_no_tiles]), a hosted style is outside coverage
      everywhere ([MapStyle.hosted_styles_are_outside]), a tile that was kept answers
      for the server ([ServiceWorker.Examples.kept_tile_answers_the_probe]);
    - the spectrum: failures read as an absent radio and an empty history
      ([SpectrumPage.failures_read_as_absence]), a radio that is taken is asked for
      ([SpectrumPage.Examples.a_taken_radio_is_asked_for]).

    ** Choices of the model

    - Numbers the contract declares as integers, epoch milliseconds and counts
      are [Z]; any other number is a binary64 value, so NaN, infinities and
      rounding are there.  The NaN of an invalid date is [None].
    - Strings are code units below 256; literals beyond are only concatenated.
    - An absent, undefined or null field is [None]; a throw that matters is an
      outcome of its own.  What is cached is cast to the type a frame expects, not
      checked: a frame that reads a member of data of another shape throws, and
      leaves the cache as far as its loop had come.
    - [Array.sort] is stable by the language, so a consistent comparator fixes
      its result and insertion computes it; where the code's comparator is not
      consistent the sort is a parameter ([HostSort]).
    - Third-party or host code is a class or a parameter with its documented
      laws, each with an instance: the query cache (TanStack Query), the table library
      (TanStack Table), the worker's library (Workbox), what [fetch]
      answers and the reading of a body, [Collation] ([localeCompare]), [Locale]
      ([toLocaleString]), [Zone] (the local calendar), [CardDates] ([Intl] date
      labels), [Trig] ([Math.cos], [Math.hypot]), Web Storage, JSON, the
      sphere's distance, the router's writing and reading of an address, and the
      schema library on one field or message.
    - Fuel: [FlightTime.fill_days] has 121 steps, enough because the loop is
      entered only for at most 120 days; [TimelineLanes.tick_loop] has one step
      more than multiples fit in the window; [FlightMotion.search] and
      [Series.Telemetry.bisect] have as many as there are elements, and a search
      halves its interval; the page walk of [Queries] has the ten pages of the
      code's own bound; [JsNumber.shortest] tries at most 22 decimals, more than
      any number it is used on needs.

    ** What is not modelled

    React rendering and hooks beyond those named, whose decisions are in the
    modules above; the machinery of the query, table and worker libraries; the
    drawing and rasterising of the share card and of the map (canvas and WebGL);
    components that only place others on the page; mocks, fixtures and generated
    files; and the services in Go, Rust and Python, which are other programs in
    other languages.  *)

From Stdlib Require Import ZArith List Bool String Ascii Lia Permutation Sorted.
From Stdlib Require Import Morphisms RelationClasses.
From stdpp Require Import base option list strings gmap.

Open Scope string_scope.
Open Scope list_scope.
Open Scope Z_scope.

(** ** Notations of the source language *)
Declare Scope js_scope.
Delimit Scope js_scope with js.

Notation "a === b" := (String.eqb a b) (at level 70, no associativity) : js_scope.
Notation "a !== b" := (negb (String.eqb a b)) (at level 70, no associativity) : js_scope.
Notation "a <<< b" := (String.ltb a b) (at level 70, no associativity) : js_scope.
Notation "a ?? b" := (match a with Some x => x | None => b end)
  (at level 60, right associativity) : js_scope.
Notation "o '?.' f" := (match o with Some x => f x | None => None end)
  (at level 40, left associativity) : js_scope.
Open Scope js_scope.

(** The hint database of the development. *)
Create HintDb js.
Create Rewrite HintDb js.

(** A code unit, case by case. *)
Ltac each_char c := destruct c as [[] [] [] [] [] [] [] []].

(** [.length] of an array. *)
Definition zlen {A} (l : list A) : Z := Z.of_nat (List.length l).

(** A string tested by [if (s)]: the empty string is falsy. *)
Definition truthy (s : option string) : option string :=
  match s with Some (String _ _ as s') => Some s' | _ => None end.

(** [Array.prototype.sort] with a comparator, given as the test
    "[compare(a, b) <= 0]".  The language requires the sort to be stable, so a
    consistent comparator determines the result, and insertion computes it. *)
Section Sort.
Context {A : Type} (le : A -> A -> bool).

Fixpoint insert_by (x : A) (l : list A) : list A :=
  match l with
  | [] => [x]
  | y :: l' => if le x y then x :: l else y :: insert_by x l'
  end.

Fixpoint sort_by (l : list A) : list A :=
  match l with
  | [] => []
  | x :: l' => insert_by x (sort_by l')
  end.

Lemma insert_by_perm x l : Permutation (x :: l) (insert_by x l).
Proof.
  induction l as [|y l IH]; simpl; [done|].
  destruct (le x y); [done|].
  by rewrite Permutation_swap, IH.
Qed.

Lemma sort_by_perm l : Permutation l (sort_by l).
Proof.
  induction l as [|x l IH]; simpl; [done|].
  rewrite <- insert_by_perm. by constructor.
Qed.

Lemma sort_by_length l : List.length (sort_by l) = List.length l.
Proof. symmetry. apply Permutation_length, sort_by_perm. Qed.

Lemma sort_by_In x l : In x (sort_by l) <-> In x l.
Proof.
  split; apply Permutation_in; [symmetry|]; apply sort_by_perm.
Qed.

(** A comparator that is total and transitive sorts. *)
Hypothesis le_total : forall x y, le x y = true \/ le y x = true.
Hypothesis le_trans : forall x y z, le x y = true -> le y z = true -> le x z = true.

Lemma insert_by_sorted x l :
  StronglySorted (fun a b => le a b = true) l ->
  StronglySorted (fun a b => le a b = true) (insert_by x l).
Proof.
  induction 1 as [|y l Hs IH Hall]; simpl; [repeat constructor|].
  destruct (le x y) eqn:E.
  - repeat constructor; try done.
    eapply List.Forall_impl; [|exact Hall]. eauto.
  - constructor; [done|].
    rewrite <- insert_by_perm. constructor; [|done].
    destruct (le_total x y); congruence.
Qed.

Lemma sort_by_sorted l : StronglySorted (fun a b => le a b = true) (sort_by l).
Proof. induction l; simpl; [constructor | by apply insert_by_sorted]. Qed.

End Sort.

(** [Array.prototype.sort], for comparators that may be inconsistent: the host
    permutes, and sorts when the comparator orders the elements. *)
Class HostSort := { host_sort : forall {A}, (A -> A -> bool) -> list A -> list A }.
Class HostSortLaws (H : HostSort) : Prop := {
  host_sort_perm : forall A (le : A -> A -> bool) l, Permutation l (host_sort le l);
  host_sort_sorted : forall A (le : A -> A -> bool) l,
    (forall x y, In x l -> In y l -> le x y = true \/ le y x = true) ->
    (forall x y z, In x l -> In y l -> In z l -> le x y = true -> le y z = true -> le x z = true) ->
    StronglySorted (fun a b => le a b = true) (host_sort le l)
}.

Lemma filter_all {A} (p : A -> bool) l :
  (forall x, In x l -> p x = true) -> List.filter p l = l.
Proof.
  induction l as [|x l IH]; simpl; intros H; [done|].
  rewrite H by auto. f_equal. auto.
Qed.

Lemma filter_none {A} (p : A -> bool) l :
  (forall x, In x l -> p x = false) -> List.filter p l = [].
Proof.
  induction l as [|x l IH]; simpl; intros H; [done|]. rewrite H by auto. auto.
Qed.

(** Splitting a list by keys, and putting it together again. *)
Lemma keyed_concat {A} (key : A -> string) (keep : string -> bool) (ks : list string) (l : list A) :
  List.NoDup ks ->
  Permutation (List.concat (map (fun k => if keep k then List.filter (fun x => key x === k) l else []) ks))
    (List.filter (fun x => existsb (String.eqb (key x)) ks && keep (key x)) l).
Proof.
  induction 1 as [|k ks Hk Hn IH]; cbn [map List.concat existsb].
  { by rewrite filter_none. }
  rewrite IH. clear IH. induction l as [|x l IH]; cbn [List.filter].
  { destruct (keep k); done. }
  destruct (String.eqb_spec (key x) k) as [->|Hne]; cbn [orb].
  - assert (existsb (String.eqb k) ks = false) as ->.
    { apply not_true_iff_false. intros (y & Hy & ->%String.eqb_eq)%existsb_exists. done. }
    destruct (keep k); cbn [andb app]; [by constructor|done].
  - destruct (existsb (String.eqb (key x)) ks && keep (key x)); [|destruct (keep k); done].
    rewrite <- IH. destruct (keep k); [by rewrite <- Permutation_middle|done].
Qed.

(** Sorting with a comparison that is consistent on the elements sorted. *)
Lemma sort_by_sorted_on {A} (le : A -> A -> bool) (P : A -> Prop) l :
  (forall x y, P x -> P y -> le x y = true \/ le y x = true) ->
  (forall x y z, P x -> P y -> P z -> le x y = true -> le y z = true -> le x z = true) ->
  List.Forall P l -> StronglySorted (fun a b => le a b = true) (sort_by le l).
Proof.
  intros Ht Htr. induction 1 as [|x l Hx Hl IH]; simpl; [constructor|].
  assert (List.Forall P (sort_by le l)) as Hs.
  { rewrite List.Forall_forall in *. intros y Hy. apply sort_by_In in Hy. auto. }
  revert IH Hs. generalize (sort_by le l). clear l Hl. intros l Hsort Hs.
  induction Hsort as [|y l Hsort IH Hall]; simpl; [repeat constructor|].
  inversion Hs as [|? ? Hy Hl]; subst. destruct (le x y) eqn:E.
  - constructor; [by constructor|]. constructor; [done|].
    rewrite List.Forall_forall in *. intros z Hz. eapply (Htr x y z); auto.
  - constructor; [by apply IH|]. rewrite <- insert_by_perm. constructor; [|done].
    destruct (Ht x y); auto; congruence.
Qed.

(** A sort that keeps the laws. *)
Definition insertion : HostSort := {| host_sort := fun A le l => sort_by le l |}.
#[export] Instance insertion_laws : HostSortLaws insertion.
Proof.
  split; [intros; apply sort_by_perm|]. intros A le l Ht Htr.
  apply (sort_by_sorted_on le (fun x => In x l)); try done. by apply List.Forall_forall.
Qed.

(** Stability: elements that tie with each other keep their order. *)
Lemma sort_by_stable {A} (le : A -> A -> bool) (p : A -> bool) l :
  (forall x y, p x = true -> p y = true -> le x y = true) ->
  List.filter p (sort_by le l) = List.filter p l.
Proof.
  intros Hp. induction l as [|x l IH]; simpl; [done|].
  assert (forall k, List.filter p (insert_by le x k) = (if p x then [x] else []) ++ List.filter p k) as Hi.
  { induction k as [|y k IHk]; simpl; [by destruct (p x)|].
    destruct (le x y) eqn:E; simpl; [by destruct (p x)|].
    rewrite IHk. destruct (p x) eqn:Ex; [|done]. destruct (p y) eqn:Ey; [|done].
    rewrite Hp in E; done. }
  rewrite Hi, IH. by destruct (p x).
Qed.

(** Sorting the images is mapping the sorted. *)
Lemma sort_by_map {A B} (le : B -> B -> bool) (le' : A -> A -> bool) (f : A -> B) l :
  (forall x y, le (f x) (f y) = le' x y) -> sort_by le (map f l) = map f (sort_by le' l).
Proof.
  intros H. induction l as [|x l IH]; simpl; [done|]. rewrite IH. generalize (sort_by le' l) as k.
  induction k as [|y k IHk]; simpl; [done|]. rewrite H. destruct (le' x y); simpl; [done|]. by rewrite IHk.
Qed.

Lemma last_map {A B} (f : A -> B) l x : List.last (map f l) (f x) = f (List.last l x).
Proof. induction l as [|y [|z l] IH]; [done..|]. exact IH. Qed.

Lemma last_In {A} (x d : A) l : In (List.last (x :: l) d) (x :: l).
Proof. revert x. induction l as [|y l IH]; intros x; [by left|]. right. apply IH. Qed.

(** The last element of a sorted list is a greatest one. *)
Lemma sorted_last {A} (R : A -> A -> Prop) l d x :
  (forall y, R y y) -> StronglySorted R l -> In x l -> R x (List.last l d).
Proof.
  intros Hr Hs. induction Hs as [|y l Hs IH Hall]; intros Hx; [done|].
  destruct l as [|z l]; [destruct Hx as [<-|[]]; apply Hr|].
  change (List.last (y :: z :: l) d) with (List.last (z :: l) d). destruct Hx as [<-|Hx]; [|auto].
  rewrite List.Forall_forall in Hall. apply Hall, last_In.
Qed.

(** In a sorted list whose [p] elements are strictly above the others, they are last. *)
Lemma sorted_split {A} (le : A -> A -> bool) (p : A -> bool) l :
  StronglySorted (fun a b => le a b = true) l ->
  (forall x y, p x = true -> p y = false -> le x y = false) ->
  l = List.filter (fun x => negb (p x)) l ++ List.filter p l.
Proof.
  intros Hs Hp. induction Hs as [|x l Hs IH Hall]; simpl; [done|].
  destruct (p x) eqn:E; simpl; [|by f_equal].
  rewrite (filter_none (fun x => negb (p x)) l), (filter_all p l); [done|..].
  all: intros y Hy; rewrite List.Forall_forall in Hall; specialize (Hall y Hy);
    destruct (p y) eqn:Ey; try done; rewrite Hp in Hall; done.
Qed.

(** ** Strings *)
Lemma sapp_cons x (a b : string) : String x a +:+ b = String x (a +:+ b).
Proof. done. Qed.

Lemma sapp_nil (b : string) : "" +:+ b = b.
Proof. done. Qed.

Lemma sapp_assoc (a b c : string) : (a +:+ b) +:+ c = a +:+ (b +:+ c).
Proof. induction a as [|x a IH]; [done|]. by rewrite !sapp_cons, IH. Qed.

Lemma sapp_nil_r (a : string) : a +:+ "" = a.
Proof. induction a as [|x a IH]; [done|]. by rewrite sapp_cons, IH. Qed.

Lemma slength_app (a b : string) :
  String.length (a +:+ b) = (String.length a + String.length b)%nat.
Proof. induction a as [|x a IH]; [done|]. rewrite sapp_cons. simpl. by rewrite IH. Qed.

#[export] Hint Rewrite sapp_cons sapp_nil sapp_assoc sapp_nil_r : js.

(** Lexicographic composition of comparisons. *)
Definition lexc (a b : comparison) : comparison := match a with Eq => b | _ => a end.

Lemma scompare_cons x y a b :
  String.compare (String x a) (String y b) = lexc (Ascii.compare x y) (String.compare a b).
Proof. simpl. by destruct (Ascii.compare x y). Qed.

Lemma acompare_refl x : Ascii.compare x x = Eq.
Proof. apply N.compare_refl. Qed.

Lemma scompare_refl a : String.compare a a = Eq.
Proof. induction a as [|x a IH]; simpl; [done|]. by rewrite acompare_refl. Qed.

(** Strings whose heads have the same length compare head first. *)
Lemma scompare_app a b c d :
  String.length a = String.length b ->
  String.compare (a +:+ c) (b +:+ d) = lexc (String.compare a b) (String.compare c d).
Proof.
  revert b. induction a as [|x a IH]; intros [|y b] H; try done.
  rewrite !sapp_cons, !scompare_cons, IH by (simpl in H; lia).
  by destruct (Ascii.compare x y).
Qed.

Lemma scompare_same a c d :
  String.compare (a +:+ c) (a +:+ d) = String.compare c d.
Proof. by rewrite scompare_app, scompare_refl. Qed.

(** [String.prototype.toLowerCase] on code units below 256. *)
Definition lower_ascii (c : ascii) : ascii :=
  let n := N_of_ascii c in
  if ((65 <=? n) && (n <=? 90) || (192 <=? n) && (n <=? 222) && negb (n =? 215))%N
  then ascii_of_N (n + 32) else c.
Fixpoint toLowerCase (s : string) : string :=
  match s with
  | EmptyString => ""
  | String c s' => String (lower_ascii c) (toLowerCase s')
  end.

Lemma toLowerCase_app a b : toLowerCase (a +:+ b) = toLowerCase a +:+ toLowerCase b.
Proof.
  induction a as [|c a IH]; [done|]. rewrite sapp_cons. change (String (lower_ascii c) (toLowerCase (a +:+ b)) = String (lower_ascii c) (toLowerCase a +:+ toLowerCase b)).
  by rewrite IH.
Qed.

(** ** Arrays *)

(** [findIndex]. *)
Fixpoint find_index {A} (p : A -> bool) (l : list A) : option nat :=
  match l with
  | [] => None
  | x :: l' => if p x then Some O else S <$> find_index p l'
  end.

Lemma find_index_Some {A} (p : A -> bool) l i :
  find_index p l = Some i ->
  exists x, l !! i = Some x /\ p x = true /\ forall j y, (j < i)%nat -> l !! j = Some y -> p y = false.
Proof.
  revert i. induction l as [|x l IH]; intros i H; [done|]. simpl in H.
  destruct (p x) eqn:E.
  - injection H as <-. exists x. repeat split; try done. intros; lia.
  - destruct (find_index p l) as [k|]; [|done]. injection H as <-.
    destruct (IH k eq_refl) as (y&Hy&Hp&Hlt). exists y. repeat split; try done.
    intros [|j] z Hj Hz; simpl in Hz; [congruence|]. eapply Hlt; [|done]. lia.
Qed.

Lemma find_index_None {A} (p : A -> bool) l :
  find_index p l = None <-> forall x, In x l -> p x = false.
Proof.
  induction l as [|x l IH]; simpl; [naive_solver|].
  destruct (p x) eqn:E.
  - split; [done|]. intros H. rewrite H in E by auto. done.
  - destruct (find_index p l); simpl.
    + split; [done|]. intros H. assert (Some n = None) by (apply IH; auto). done.
    + split; [|done]. intros _ y [->|Hy]; [done|]. by apply IH.
Qed.

Lemma NoDup_fst_unique {A B} (l : list (A * B)) k a b :
  List.NoDup (map fst l) -> In (k, a) l -> In (k, b) l -> a = b.
Proof.
  induction l as [|[k' c] l IH]; intros Hnd Ha Hb; [done|].
  inversion Hnd as [|? ? Hn Hnd']; subst.
  assert (forall x, In (k', x) l -> False) as Hk.
  { intros x Hx. apply Hn, in_map_iff. by exists (k', x). }
  destruct Ha as [[= -> ->]|Ha], Hb as [[= ->]|Hb]; naive_solver.
Qed.

Lemma map_insert_same {A B} (f : A -> B) (l : list A) i x y :
  l !! i = Some y -> f x = f y -> map f (<[i := x]> l) = map f l.
Proof.
  revert i. induction l as [|z l IH]; intros [|i] Hl Hf; simpl in *; try done.
  - injection Hl as ->. by rewrite Hf.
  - by rewrite (IH i).
Qed.

Lemma NoDup_map_filter {A B} (f : A -> B) p (l : list A) :
  List.NoDup (map f l) -> List.NoDup (map f (List.filter p l)).
Proof.
  induction l as [|x l IH]; intros H; simpl; [constructor|].
  inversion H as [|? ? Hn Hnd]; subst. destruct (p x); [|auto]. simpl. constructor; [|auto].
  rewrite in_map_iff in Hn |- *. intros (y&Hy&Hin). apply filter_In in Hin as [Hin _]. eauto.
Qed.

Lemma Forall_list_filter {A} (P : A -> Prop) p (l : list A) :
  List.Forall P l -> List.Forall P (List.filter p l).
Proof. rewrite !List.Forall_forall. intros H x [Hx _]%filter_In. auto. Qed.

Lemma NoDup_map_inj {A B} (f : A -> B) (l : list A) x y :
  List.NoDup (map f l) -> In x l -> In y l -> f x = f y -> x = y.
Proof.
  induction l as [|z l IH]; intros Hnd Hx Hy Hf; [done|].
  inversion Hnd as [|? ? Hn Hnd']; subst. rewrite in_map_iff in Hn.
  destruct Hx as [->|Hx], Hy as [->|Hy]; try done; [exfalso; eauto..|auto].
Qed.

Lemma In_list_insert {A} (l : list A) i x y :
  In y (<[i := x]> l) -> y = x \/ In y l.
Proof.
  revert i. induction l as [|z l IH]; intros [|i] H; simpl in *; try tauto.
  - destruct H; [left; congruence | tauto].
  - destruct H as [?|H]; [tauto|]. apply IH in H. tauto.
Qed.

Lemma filter_true {A} (l : list A) : List.filter (fun _ => true) l = l.
Proof. induction l; simpl; congruence. Qed.

Lemma NoDup_app_disj {A} (l k : list A) :
  List.NoDup l -> List.NoDup k -> (forall x, In x l -> In x k -> False) ->
  List.NoDup (l ++ k).
Proof.
  intros Hl Hk Hd. apply NoDup_ListNoDup, NoDup_app. rewrite !NoDup_ListNoDup.
  repeat split; try done. intros x. rewrite !list_elem_of_In. eauto.
Qed.

(** ** String order *)
Definition sle (a b : string) : bool := negb (b <<< a).

Lemma sle_leb a b : sle a b = String.leb a b.
Proof.
  unfold sle, String.ltb, String.leb. rewrite (String.compare_antisym b a).
  by destruct (String.compare a b).
Qed.

Lemma sle_total a b : sle a b = true \/ sle b a = true.
Proof. rewrite !sle_leb. apply String.leb_total. Qed.

Lemma sle_trans a b c : sle a b = true -> sle b c = true -> sle a c = true.
Proof.
  rewrite !sle_leb. intros H1 H2.
  assert (strings.String.le a c) as H.
  { transitivity b; unfold strings.String.le; rewrite ?H1, ?H2; done. }
  unfold strings.String.le in H. by destruct (String.leb a c).
Qed.

(** ** Prefixes of lists *)
Lemma In_take {A} n (l : list A) x : In x (take n l) -> In x l.
Proof. intros H. rewrite <- (take_drop n l). apply in_or_app. by left. Qed.

Lemma In_drop {A} n (l : list A) x : In x (drop n l) -> In x l.
Proof. intros H. rewrite <- (take_drop n l). apply in_or_app. by right. Qed.

Lemma sorted_take_drop {A} (le : A -> A -> bool) n (l : list A) x y :
  StronglySorted (fun a b => le a b = true) l ->
  In x (take n l) -> In y (drop n l) -> le x y = true.
Proof.
  revert n. induction l as [|z l IH]; intros [|n] Hs Hx Hy; simpl in *; try done.
  inversion Hs as [|? ? Hs' Hall]; subst. destruct Hx as [->|Hx]; [|by eapply IH].
  rewrite List.Forall_forall in Hall. by eapply Hall, In_drop.
Qed.

Lemma filter_comm {A} (p q : A -> bool) l :
  List.filter p (List.filter q l) = List.filter q (List.filter p l).
Proof.
  induction l as [|x l IH]; simpl; [done|].
  destruct (p x) eqn:Hp, (q x) eqn:Hq; simpl; rewrite ?Hp, ?Hq, IH; done.
Qed.

Lemma Permutation_cons_mid {A} (a b l : list A) x : Permutation (a ++ b) l -> Permutation (a ++ x :: b) (x :: l).
Proof. intros H. rewrite <- Permutation_middle. by constructor. Qed.

Lemma Permutation_filter {A} (p : A -> bool) l l' :
  Permutation l l' -> Permutation (List.filter p l) (List.filter p l').
Proof.
  induction 1; simpl; try done.
  - destruct (p x); [by constructor | done].
  - destruct (p x), (p y); try done. constructor.
  - etrans; done.
Qed.
#[export] Instance filter_Permutation {A} (p : A -> bool) :
  Proper (Permutation ==> Permutation) (List.filter p).
Proof. intros l l'. apply Permutation_filter. Qed.

(** Dropping the elements whose key is among the first [n] keys. *)
Lemma filter_not_take {A} (f : A -> string) n (l : list A) :
  List.NoDup (map f l) ->
  List.filter (fun x => negb (existsb (String.eqb (f x)) (map f (take n l)))) l = drop n l.
Proof.
  intros Hnd. set (p := fun x => negb _).
  transitivity (List.filter p (take n l ++ drop n l)); [by rewrite take_drop|].
  rewrite List.filter_app. unfold p.
  rewrite filter_none, filter_all; [done| |].
  - intros x Hx. apply negb_true_iff, not_true_iff_false.
    rewrite existsb_exists. intros (k&(y&<-&Hy)%in_map_iff&Hk%String.eqb_eq).
    rewrite <- (take_drop n l), map_app in Hnd.
    eapply NoDup_ListNoDup, NoDup_app in Hnd as (_&Hd&_).
    eapply (Hd (f y)); rewrite list_elem_of_In, in_map_iff; eauto.
  - intros x Hx. apply negb_false_iff, existsb_exists. exists (f x).
    split; [by apply in_map | apply String.eqb_refl].
Qed.
