(* ===== verification/JsNumber.v ===== *)
(** * JsNumber: the Number type

    A Number is an IEEE 754 binary64 value, here the Standard Library's
    [spec_float] at precision 53 and maximal exponent 1024, with the
    comparisons, [Math.*] operations and [toFixed] the console uses.
    Integers that the API contract declares as integers (counters, epoch
    milliseconds) are modelled in [Z] in the other files; this file is for the
    values that carry a fraction.  The order lemmas at the end are stated
    through [num_key], a lexicographic key that the IEEE comparison agrees with. *)
From Stdlib Require Import ZArith Bool String Ascii List Lia.
From Stdlib Require Import Floats.SpecFloat.
From stdpp Require Import base option list strings pretty.
From S2P Require Import Prelude.

Definition num := spec_float.

#[export] Instance num_eq_dec : EqDecision num.
Proof. solve_decision. Defined.

Definition nadd : num -> num -> num := SFadd 53 1024.
Definition nsub : num -> num -> num := SFsub 53 1024.
Definition nmul : num -> num -> num := SFmul 53 1024.
Definition ndiv : num -> num -> num := SFdiv 53 1024.
Definition nopp : num -> num := SFopp.
Definition nabs : num -> num := SFabs.

(** [a < b], [a <= b], [a > b], [a >= b], [a === b]: all false on NaN. *)
Definition nlt : num -> num -> bool := SFltb.
Definition nle : num -> num -> bool := SFleb.
Definition ngt (a b : num) : bool := SFltb b a.
Definition nge (a b : num) : bool := SFleb b a.
Definition neq (a b : num) : bool := SFeqb a b.

Definition is_nan (a : num) : bool := match a with S754_nan => true | _ => false end.

(** [Number.isFinite]. *)
Definition is_finite (a : num) : bool :=
  match a with S754_zero _ | S754_finite _ _ _ => true | _ => false end.

(** The Number nearest to an integer, and to a quotient of integers. *)
Definition of_Z (z : Z) : num := binary_normalize 53 1024 z 0 false.
Definition of_ratio (p q : Z) : num := ndiv (of_Z p) (of_Z q).

(** The Number nearest to the decimal [p / 10^k], rounded once. *)
Definition dec (p : Z) (k : nat) : num :=
  match p with
  | Z0 => S754_zero false
  | Zpos m => SFdiv 53 1024 (S754_finite false m 0) (S754_finite false (Z.to_pos (10 ^ Z.of_nat k)) 0)
  | Zneg m => SFdiv 53 1024 (S754_finite true m 0) (S754_finite false (Z.to_pos (10 ^ Z.of_nat k)) 0)
  end.

Definition pos_infinity : num := S754_infinity false.
Definition neg_infinity : num := S754_infinity true.

(** [Math.min] and [Math.max] of two arguments: NaN if either is, and -0 is
    below +0. *)
Definition nmin (a b : num) : num :=
  match a, b with
  | S754_nan, _ | _, S754_nan => S754_nan
  | S754_zero sa, S754_zero sb => S754_zero (orb sa sb)
  | _, _ => if nlt b a then b else a
  end.
Definition nmax (a b : num) : num :=
  match a, b with
  | S754_nan, _ | _, S754_nan => S754_nan
  | S754_zero sa, S754_zero sb => S754_zero (andb sa sb)
  | _, _ => if nlt a b then b else a
  end.

(** The integer part towards minus infinity of [p * 2^e]. *)
Definition floor_scaled (p e : Z) : Z :=
  if 0 <=? e then p * 2 ^ e else p / 2 ^ (- e).

Definition signed (s : bool) (m : positive) : Z := if s then Zneg m else Zpos m.

(** [Math.floor], [Math.round] (ties towards plus infinity) and [Math.ceil] of a
    finite Number as an integer; [None] when there is no integer to give. *)
Definition floor_Z (a : num) : option Z :=
  match a with
  | S754_zero _ => Some 0
  | S754_finite s m e => Some (floor_scaled (signed s m) e)
  | _ => None
  end.
Definition round_Z (a : num) : option Z :=
  match a with
  | S754_zero _ => Some 0
  | S754_finite s m e =>
      Some (if 0 <=? e then signed s m * 2 ^ e
            else (2 * signed s m + 2 ^ (- e)) / (2 * 2 ^ (- e)))
  | _ => None
  end.
Definition ceil_Z (a : num) : option Z :=
  match floor_Z (nopp a) with Some z => Some (- z) | None => None end.

(** [x % y]: exact, with the sign of [x]. *)
Definition nmod (x y : num) : num :=
  match x, y with
  | S754_nan, _ | _, S754_nan | S754_infinity _, _ | _, S754_zero _ => S754_nan
  | _, S754_infinity _ => x
  | S754_zero _, _ => x
  | S754_finite sx mx ex, S754_finite _ my ey =>
      let e := Z.min ex ey in
      let r := (Z.pos mx * 2 ^ (ex - e)) mod (Z.pos my * 2 ^ (ey - e)) in
      binary_normalize 53 1024 (if sx then - r else r) e sx
  end.

(** [x.toFixed(d)] below 10^21: the integer [n] nearest to [|x| * 10^d] (the larger
    of two), written with [d] decimals. *)
Definition scaled_round (m : positive) (e d : Z) : Z :=
  if 0 <=? e then Z.pos m * 2 ^ e * 10 ^ d
  else (2 * (Z.pos m * 10 ^ d) + 2 ^ (- e)) / (2 * 2 ^ (- e)).

Fixpoint zeros (n : nat) : string :=
  match n with O => "" | S n' => "0" +:+ zeros n' end.
Definition padStart (w : nat) (s : string) : string := zeros (w - String.length s) +:+ s.

Definition decimal (n : Z) (d : nat) : string :=
  match d with
  | O => pretty n
  | _ =>
      let s := padStart (S d) (pretty n) in
      let k := (String.length s - d)%nat in
      substring 0 k s +:+ "." +:+ substring k d s
  end.

Definition toFixed (d : nat) (x : num) : string :=
  match x with
  | S754_nan => "NaN"
  | S754_infinity s => if s then "-Infinity" else "Infinity"
  | S754_zero _ => decimal 0 d
  | S754_finite s m e => (if s then "-" else "") +:+ decimal (scaled_round m e (Z.of_nat d)) d
  end.

(** [String(x)] for [10^-6 <= |x| < 2^53], zero and the values that are not
    finite: the fewest decimals that round back to [x]. *)
Fixpoint shortest (fuel : nat) (d : nat) (m : positive) (e : Z) : string :=
  let n := scaled_round m e (Z.of_nat d) in
  match fuel with
  | O => decimal n d
  | S fuel' => if neq (dec n d) (S754_finite false m e) then decimal n d else shortest fuel' (S d) m e
  end.
Definition num_string (x : num) : string :=
  match x with
  | S754_nan => "NaN"
  | S754_infinity s => if s then "-Infinity" else "Infinity"
  | S754_zero _ => "0"
  | S754_finite s m e => (if s then "-" else "") +:+ shortest 22 0 m e
  end.

(** ** The order behind the comparisons *)

Definition num_key (a : num) : option (Z * Z * Z) :=
  match a with
  | S754_nan => None
  | S754_infinity s => Some ((if s then -2 else 2), 0, 0)
  | S754_zero _ => Some (0, 0, 0)
  | S754_finite true m e => Some (-1, - e, Zneg m)
  | S754_finite false m e => Some (1, e, Zpos m)
  end.

Definition lex3 (a b : Z * Z * Z) : comparison :=
  let '(a1, a2, a3) := a in
  let '(b1, b2, b3) := b in
  match (a1 ?= b1)%Z with
  | Eq => match (a2 ?= b2)%Z with Eq => (a3 ?= b3)%Z | c => c end
  | c => c
  end.

Definition key_le (a b : Z * Z * Z) : Prop :=
  let '(a1, a2, a3) := a in
  let '(b1, b2, b3) := b in
  a1 < b1 \/ (a1 = b1 /\ (a2 < b2 \/ (a2 = b2 /\ a3 <= b3))).

Lemma compare_key a b :
  SFcompare a b =
  match num_key a, num_key b with
  | Some ka, Some kb => Some (lex3 ka kb)
  | _, _ => None
  end.
Proof.
  destruct a as [sa|sa| |sa ma ea], b as [sb|sb| |sb mb eb]; simpl; try done;
    try destruct sa; try destruct sb; simpl; try done.
  f_equal. rewrite Z.compare_opp, (Z.compare_antisym ea eb).
  by destruct (ea ?= eb).
Qed.

Lemma lex3_spec a b :
  match lex3 a b with
  | Eq => a = b
  | Lt => key_le a b /\ a <> b
  | Gt => key_le b a /\ a <> b
  end.
Proof.
  destruct a as [[a1 a2] a3], b as [[b1 b2] b3]; unfold lex3, key_le.
  destruct (Z.compare_spec a1 b1); [subst| |];
    [destruct (Z.compare_spec a2 b2); [subst| |];
     [destruct (Z.compare_spec a3 b3); [subst| |]| |]| |];
    try done; split; try lia; intros [= ?]; lia.
Qed.

Lemma nle_key a b :
  nle a b = true <->
  exists ka kb, num_key a = Some ka /\ num_key b = Some kb /\ key_le ka kb.
Proof.
  unfold nle, SFleb. rewrite compare_key.
  destruct (num_key a) as [ka|], (num_key b) as [kb|];
    try (split; [done | intros (?&?&?&?&?); congruence]).
  pose proof (lex3_spec ka kb) as H. destruct (lex3 ka kb).
  - subst. split; [|done]. intros _. exists kb, kb.
    repeat split. destruct kb as [[? ?] ?]; unfold key_le; lia.
  - split; [|done]. intros _. exists ka, kb. tauto.
  - split; [done|]. intros (?&?&[=->]&[=->]&Hle). exfalso. apply H.
    destruct x as [[? ?] ?], x0 as [[? ?] ?]; unfold key_le in *.
    destruct H as [H _]. f_equal; [f_equal|]; lia.
Qed.

Lemma nlt_spec a b :
  nlt a b = true <-> is_nan a = false /\ is_nan b = false /\ nle b a = false.
Proof.
  unfold nlt, nle, SFltb, SFleb. rewrite !compare_key.
  assert (Hn : forall x, is_nan x = false <-> exists k, num_key x = Some k).
  { intros [ | | |[] ? ?]; simpl; split; try done; eauto; by intros [? ?]. }
  rewrite !Hn.
  destruct (num_key a) as [ka|], (num_key b) as [kb|];
    try (split; [done | intros ([? ?]&[? ?]&_); congruence]).
  pose proof (lex3_spec ka kb) as H1. pose proof (lex3_spec kb ka) as H2.
  destruct (lex3 ka kb), (lex3 kb ka); split; intros; try done; eauto;
    try (destruct ka as [[? ?] ?], kb as [[? ?] ?]; unfold key_le in *; exfalso;
         destruct H1, H2; try congruence;
         match goal with H : _ <> _ |- _ => apply H end; f_equal; [f_equal|]; lia);
    try (destruct H as (?&?&?); congruence); try (subst; tauto).
Qed.

(** The comparisons form a total preorder away from NaN. *)
Lemma num_key_is_nan a : is_nan a = false <-> exists k, num_key a = Some k.
Proof. destruct a as [| | |[] ? ?]; simpl; split; try done; eauto; by intros [? ?]. Qed.

Lemma key_le_trans a b c : key_le a b -> key_le b c -> key_le a c.
Proof. destruct a as [[? ?] ?], b as [[? ?] ?], c as [[? ?] ?]; unfold key_le; lia. Qed.

Lemma key_le_total a b : key_le a b \/ key_le b a.
Proof. destruct a as [[? ?] ?], b as [[? ?] ?]; unfold key_le; lia. Qed.

Lemma nle_trans a b c : nle a b = true -> nle b c = true -> nle a c = true.
Proof.
  rewrite !nle_key. intros (ka&kb&Ha&Hb&H1) (kb'&kc&Hb'&Hc&H2).
  exists ka, kc. repeat split; try done. replace kb' with kb in H2 by congruence.
  by eapply key_le_trans.
Qed.

Lemma nle_total a b :
  is_nan a = false -> is_nan b = false -> nle a b = true \/ nle b a = true.
Proof.
  rewrite !num_key_is_nan. intros [ka Ha] [kb Hb]. rewrite !nle_key.
  destruct (key_le_total ka kb); [left; exists ka, kb | right; exists kb, ka]; tauto.
Qed.

Lemma nle_refl a : is_nan a = false -> nle a a = true.
Proof. intros H. by destruct (nle_total a a). Qed.

Lemma nle_not_nan a b : nle a b = true -> is_nan a = false /\ is_nan b = false.
Proof. rewrite nle_key, !num_key_is_nan. intros (?&?&?&?&_). eauto. Qed.

Lemma nlt_nle a b : nlt a b = true -> nle a b = true.
Proof.
  rewrite nlt_spec. intros (Ha&Hb&H). destruct (nle_total a b Ha Hb); congruence.
Qed.

Lemma nlt_false a b :
  is_nan a = false -> is_nan b = false -> nlt a b = false -> nle b a = true.
Proof.
  intros Ha Hb H. destruct (nle b a) eqn:E; [done|].
  assert (nlt a b = true) by (rewrite nlt_spec; tauto). congruence.
Qed.

Lemma is_finite_not_nan a : is_finite a = true -> is_nan a = false.
Proof. by destruct a. Qed.

(** [Math.min] and [Math.max] are bounds. *)
Lemma nmin_cases a b :
  is_nan a = false -> is_nan b = false ->
  nle (nmin a b) a = true /\ nle (nmin a b) b = true /\
  forall c, nle c a = true -> nle c b = true -> nle c (nmin a b) = true.
Proof.
  intros Ha Hb. assert (nmin a b = (if nlt b a then b else a) \/
    exists s t, a = S754_zero s /\ b = S754_zero t /\ nmin a b = S754_zero (orb s t)) as [->|(s & t & -> & -> & ->)].
  { destruct a, b; try done; try (by left). right. eauto. }
  - destruct (nlt b a) eqn:E; split_and!; auto using nle_refl, nlt_nle, nlt_false.
  - destruct s, t; done.
Qed.

Lemma nmax_cases a b :
  is_nan a = false -> is_nan b = false ->
  nle a (nmax a b) = true /\ nle b (nmax a b) = true /\
  forall c, nle a c = true -> nle b c = true -> nle (nmax a b) c = true.
Proof.
  intros Ha Hb. assert (nmax a b = (if nlt a b then b else a) \/
    exists s t, a = S754_zero s /\ b = S754_zero t /\ nmax a b = S754_zero (andb s t)) as [->|(s & t & -> & -> & ->)].
  { destruct a, b; try done; try (by left). right. eauto. }
  - destruct (nlt a b) eqn:E; split_and!; auto using nle_refl, nlt_nle, nlt_false.
  - destruct s, t; done.
Qed.


#[export] Hint Resolve nle_refl nlt_nle is_finite_not_nan : js.

(** ** Rounding does not pass a representable bound

    [scaled m e] is [m * 2^e] at a common scale, so that values with different
    exponents compare as integers. *)
Definition scaled (m e : Z) : Z := m * 2 ^ (e + 4000).

Lemma scaled_shift m e n : -4000 <= e -> 0 <= n -> scaled (m * 2 ^ n) e = scaled m (e + n).
Proof.
  intros He Hn. unfold scaled. replace (e + n + 4000) with (n + (e + 4000)) by lia.
  rewrite (Z.pow_add_r 2 n) by lia. ring.
Qed.

Lemma scaled_le m m' e : -4000 <= e -> m <= m' <-> scaled m e <= scaled m' e.
Proof.
  intros He. unfold scaled. assert (0 < 2 ^ (e + 4000)) by (apply Z.pow_pos_nonneg; lia).
  by apply Z.mul_le_mono_pos_r.
Qed.

Lemma floor_scaled_scaled m e : -4000 <= e -> floor_scaled m e = scaled m e / 2 ^ 4000.
Proof.
  intros He. unfold floor_scaled, scaled. destruct (Z.leb_spec 0 e).
  - rewrite Z.pow_add_r, Z.mul_assoc, Z.div_mul; [done|lia..].
  - assert (2 ^ 4000 = 2 ^ (- e) * 2 ^ (e + 4000)) as ->.
    { rewrite <- Z.pow_add_r by lia. f_equal. lia. }
    rewrite Z.div_mul_cancel_r; lia.
Qed.

Lemma digits2_bounds p :
  2 ^ (Z.pos (digits2_pos p) - 1) <= Z.pos p < 2 ^ Z.pos (digits2_pos p).
Proof.
  induction p as [p IH|p IH|]; cbn [digits2_pos]; [| |done];
    rewrite Pos2Z.inj_succ, Z.pow_succ_r by lia;
    replace (Z.succ _ - 1) with (Z.succ (Z.pos (digits2_pos p) - 1)) by lia;
    rewrite (Z.pow_succ_r 2 (_ - 1)) by lia; lia.
Qed.

Lemma scaled_digits p q e e' :
  -4000 <= e -> -4000 <= e' -> scaled (Z.pos p) e <= scaled (Z.pos q) e' ->
  Z.pos (digits2_pos p) + e <= Z.pos (digits2_pos q) + e'.
Proof.
  intros He He' H. pose proof (digits2_bounds p) as [Hp _]. pose proof (digits2_bounds q) as [_ Hq].
  assert (2 ^ (Z.pos (digits2_pos p) - 1 + (e + 4000)) <
          2 ^ (Z.pos (digits2_pos q) + (e' + 4000))) as Hlt.
  { rewrite (Z.pow_add_r 2 (Z.pos (digits2_pos p) - 1)), (Z.pow_add_r 2 (Z.pos (digits2_pos q))) by lia.
    unfold scaled in H.
    assert (0 < 2 ^ (e + 4000)) by (apply Z.pow_pos_nonneg; lia).
    assert (0 < 2 ^ (e' + 4000)) by (apply Z.pow_pos_nonneg; lia). nia. }
  apply Z.pow_lt_mono_r_iff in Hlt; lia.
Qed.

(** [shr] divides; the round and sticky bits are clear when it divides exactly. *)
Lemma iter_pos_iter {A} (f : A -> A) p x : SpecFloat.iter_pos f p x = Nat.iter (Pos.to_nat p) f x.
Proof.
  revert x. induction p as [p IH|p IH|]; intros x; cbn [SpecFloat.iter_pos]; [| |done];
    rewrite !IH, <- ?Nat.iter_add.
  - rewrite <- Nat.iter_succ_r, Pos2Nat.inj_xI. f_equal. lia.
  - rewrite Pos2Nat.inj_xO. f_equal. lia.
Qed.

Definition exact_bits (r : shr_record) : Prop := shr_r r = false /\ shr_s r = false.

Lemma shr_1_spec r :
  0 <= shr_m r ->
  shr_m (shr_1 r) = shr_m r / 2 /\
  (exact_bits r -> shr_m r mod 2 = 0 -> exact_bits (shr_1 r)).
Proof.
  destruct r as [[|[p|p|]|] b c]; unfold exact_bits; simpl; try lia; intros _.
  - split; [done|]. by intros [-> ->].
  - split; [Z.div_mod_to_equations; lia|]. intros _ H. exfalso. Z.div_mod_to_equations. lia.
  - split; [Z.div_mod_to_equations; lia|]. by intros [-> ->].
  - split; [done|]. intros _ H. done.
Qed.

Lemma shr_iter_spec n r :
  0 <= shr_m r ->
  let r' := Nat.iter n shr_1 r in
  shr_m r' = shr_m r / 2 ^ Z.of_nat n /\
  (exact_bits r -> shr_m r mod 2 ^ Z.of_nat n = 0 -> exact_bits r').
Proof.
  intros H0. induction n as [|n [IHm IHx]]; simpl Nat.iter.
  { rewrite Z.pow_0_r, Z.div_1_r. by split. }
  destruct (shr_1_spec (Nat.iter n shr_1 r)) as [Hm Hx].
  { rewrite IHm. apply Z.div_pos; [done|]. apply Z.pow_pos_nonneg; lia. }
  rewrite Nat2Z.inj_succ, Z.pow_succ_r by lia.
  assert (0 < 2 ^ Z.of_nat n) as Hp by (apply Z.pow_pos_nonneg; lia).
  split.
  - rewrite Hm, IHm, Z.div_div by lia. f_equal. lia.
  - intros He Hmod. rewrite IHm in Hx.
    rewrite (Z.mul_comm 2), Z.rem_mul_r in Hmod by lia.
    pose proof (Z.mod_pos_bound (shr_m r) _ Hp).
    pose proof (Z.mod_pos_bound (shr_m r / 2 ^ Z.of_nat n) 2).
    apply Hx; [apply IHx; [done|]|]; nia.
Qed.

(** [shr_fexp] on an exact mantissa [m >= 0]. *)
Lemma shr_fexp_exact m e :
  0 <= m ->
  let n := fexp 53 1024 (Zdigits2 m + e) - e in
  let k := Z.max 0 n in
  exists r, shr_fexp 53 1024 m e loc_Exact = (r, e + k) /\
    shr_m r = m / 2 ^ k /\ (m mod 2 ^ k = 0 -> exact_bits r).
Proof.
  intros Hm n k. unfold shr_fexp. fold n. unfold shr, k. destruct n as [|p|p] eqn:E.
  - eexists. rewrite Z.add_0_r. split; [done|]. simpl. by rewrite Z.div_1_r.
  - eexists. split; [done|]. rewrite iter_pos_iter.
    pose proof (shr_iter_spec (Pos.to_nat p) (shr_record_of_loc m loc_Exact) Hm) as [H1 H2].
    rewrite positive_nat_Z in H1, H2. split; [done|]. by apply H2.
  - eexists. replace (e + _) with e by lia. split; [done|]. simpl. by rewrite Z.div_1_r.
Qed.

Lemma round_nearest_even_le r q :
  shr_m r <= q -> (shr_m r = q -> exact_bits r) ->
  shr_m r <= round_nearest_even (shr_m r) (loc_of_shr_record r) <= q.
Proof.
  destruct r as [m b c]; unfold exact_bits; cbn [shr_m shr_r shr_s]. intros Hle Hx.
  destruct (decide (m = q)) as [->|Hne]; [destruct Hx as [-> ->]; simpl; lia|].
  destruct b, c; simpl; try destruct (Z.even m); lia.
Qed.

(** Rounding a value at most [K * 2^e], for a representable [K * 2^e]. *)
Definition at_most (r : num) (K e : Z) : Prop :=
  match r with
  | S754_zero _ => True
  | S754_finite false m e' => -4000 <= e' /\ scaled (Z.pos m) e' <= scaled K e
  | _ => False
  end.

Lemma shr_fexp_le m e K eK :
  0 <= m -> -3000 <= e <= 971 -> bounded 53 1024 K eK = true ->
  scaled m e <= scaled (Z.pos K) eK ->
  exists r e', shr_fexp 53 1024 m e loc_Exact = (r, e') /\ e <= e' <= 971 /\
    0 <= shr_m r /\ scaled (shr_m r) e' <= scaled (Z.pos K) eK /\
    0 <= round_nearest_even (shr_m r) (loc_of_shr_record r) /\
    scaled (round_nearest_even (shr_m r) (loc_of_shr_record r)) e' <= scaled (Z.pos K) eK.
Proof.
  intros Hm He [Hc Hb%Z.leb_le]%andb_prop Hle. apply Z.eqb_eq in Hc.
  destruct (shr_fexp_exact m e Hm) as (r&Hr&Hq&Hx). rewrite Hr.
  set (n := fexp 53 1024 (Zdigits2 m + e) - e) in *. set (k := Z.max 0 n) in *.
  exists r, (e + k). assert (-4000 <= eK) as HeK by (unfold fexp, emin in Hc; lia).
  assert (0 <= shr_m r) as H0 by (rewrite Hq; apply Z.div_pos; [done|]; apply Z.pow_pos_nonneg; lia).
  destruct (decide (m = 0)) as [->|Hm0].
  { rewrite Z.div_0_l in Hq by (apply Z.pow_nonzero; lia).
    destruct (round_nearest_even_le r 0) as [? ?]; [lia|intros _; apply Hx, Z.mod_0_l; apply Z.pow_nonzero; lia|].
    replace (round_nearest_even _ _) with 0 by lia. rewrite Hq.
    assert (scaled 0 (e + k) = 0) as -> by done.
    assert (0 <= scaled (Z.pos K) eK) by (unfold scaled; lia).
    unfold k, n, fexp, emin. simpl Zdigits2. repeat split; lia. }
  assert (k = 0 \/ e + k <= eK) as [Hk|Hk].
  { destruct (decide (n <= 0)); [left; lia|]. right. destruct m as [|p|p]; [done| |lia].
    apply scaled_digits in Hle; [|lia..]. unfold k, n, fexp, emin in *. simpl Zdigits2 in *. lia. }
  - rewrite Hk, Z.pow_0_r, Z.div_1_r, Z.mod_1_r in *. rewrite Z.add_0_r, Hq.
    destruct (round_nearest_even_le r m) as [? ?]; [lia|auto|].
    rewrite Hq in *. replace (round_nearest_even _ _) with m by lia. repeat split; lia.
  - set (q := Z.pos K * 2 ^ (eK - (e + k))).
    assert (scaled q (e + k) = scaled (Z.pos K) eK) as Hqs.
    { unfold q. rewrite scaled_shift by lia. f_equal. lia. }
    assert (m <= q * 2 ^ k) as Hmq.
    { apply (scaled_le _ _ e); [lia|]. rewrite scaled_shift by lia. by rewrite Hqs. }
    assert (0 < 2 ^ k) as Hp by (apply Z.pow_pos_nonneg; lia).
    destruct (round_nearest_even_le r q) as [? ?].
    + rewrite Hq. apply Z.div_le_upper_bound; lia.
    + intros Heq. apply Hx. rewrite Hq in Heq. pose proof (Z.div_mod m (2 ^ k)).
      pose proof (Z.mod_pos_bound m _ Hp). nia.
    + repeat split; try lia; rewrite <- Hqs; apply scaled_le; lia.
Qed.

Lemma binary_round_aux_le m e K eK :
  0 <= m -> -3000 <= e <= 971 -> bounded 53 1024 K eK = true ->
  scaled m e <= scaled (Z.pos K) eK ->
  at_most (binary_round_aux 53 1024 false m e loc_Exact) (Z.pos K) eK.
Proof.
  intros Hm He Hb Hle. unfold binary_round_aux.
  destruct (shr_fexp_le m e K eK Hm He Hb Hle) as (r&e1&->&He1&_&_&H0&H1).
  destruct (shr_fexp_le _ e1 K eK H0 ltac:(lia) Hb H1) as (r2&e2&->&He2&H02&H12&_&_).
  destruct (shr_m r2) as [|p|p]; simpl; [done| |lia].
  destruct (Z.leb_spec e2 (1024 - 53)) as [_|]; [|lia]. split; [lia|done].
Qed.

(** A draw of [Math.random()]: a Number from 0 to 1. *)
Definition unit_interval (j : num) : bool :=
  match j with
  | S754_zero _ => true
  | S754_finite false m e => (-1074 <=? e) && (e <=? 0) && (Z.pos m * 2 ^ (e + 1074) <=? 2 ^ 1074)
  | _ => false
  end.

(** [Math.floor(jitter * c)] lies from 0 to [Math.floor(c)]. *)
Lemma floor_jitter_bounds j K eK :
  unit_interval j = true -> bounded 53 1024 K eK = true ->
  exists d, floor_Z (nmul j (S754_finite false K eK)) = Some d /\
    0 <= d <= floor_scaled (Z.pos K) eK.
Proof.
  intros Hj Hb. pose proof Hb as [Hc%Z.eqb_eq Hb2%Z.leb_le]%andb_prop.
  assert (-1074 <= eK) as HeK by (unfold fexp, emin in Hc; lia).
  assert (0 <= floor_scaled (Z.pos K) eK) as Hpos.
  { rewrite floor_scaled_scaled by lia. apply Z.div_pos; [|lia]. unfold scaled. lia. }
  destruct j as [s| | |[] m e]; try discriminate Hj.
  { exists 0. simpl. split; [done|lia]. }
  apply andb_prop in Hj as [[?%Z.leb_le ?%Z.leb_le]%andb_prop Hv%Z.leb_le].
  assert (scaled (Z.pos (m * K)) (e + eK) <= scaled (Z.pos K) eK) as Hle.
  { rewrite Pos2Z.inj_mul, Z.mul_comm. unfold scaled.
    replace (e + eK + 4000) with ((e + 1074) + (eK + 2926)) by lia.
    replace (eK + 4000) with (1074 + (eK + 2926)) by lia.
    rewrite (Z.pow_add_r 2 (e + 1074)), (Z.pow_add_r 2 1074) by lia.
    assert (0 < 2 ^ (eK + 2926)) by (apply Z.pow_pos_nonneg; lia). nia. }
  pose proof (binary_round_aux_le (Z.pos (m * K)) (e + eK) K eK ltac:(lia) ltac:(lia) Hb Hle) as Hr.
  unfold nmul, SFmul. change (xorb false false) with false.
  destruct binary_round_aux as [s| | |[] m' e']; simpl at_most in Hr; try done.
  { exists 0. simpl. split; [done|lia]. }
  destruct Hr as [He' Hr]. eexists. split; [done|]. simpl signed.
  rewrite !floor_scaled_scaled by lia. split; [|by apply Z.div_le_mono].
  apply Z.div_pos; [|lia]. unfold scaled. lia.
Qed.

(** ** The sign of a subtraction is the comparison

    Sort comparators subtract.  On canonical finite values the sign of the
    rounded difference is the order of the operands, so such a comparator is a
    total preorder. *)
Definition valid_finite (x : num) : bool :=
  match x with
  | S754_zero _ => true
  | S754_finite _ m e => bounded 53 1024 m e
  | _ => false
  end.

(** The value at the scale of the smallest exponent. *)
Definition value (x : num) : Z :=
  match x with
  | S754_finite s m e => signed s m * 2 ^ (e + 1074)
  | _ => 0
  end.

Lemma bounded_emin m e : bounded 53 1024 m e = true -> -1074 <= e.
Proof. intros [Hc%Z.eqb_eq _]%andb_prop. unfold fexp, emin in Hc. lia. Qed.

Lemma bounded_digits m e :
  bounded 53 1024 m e = true ->
  Z.pos m < 2 ^ 53 /\ (-1074 < e -> 2 ^ 52 <= Z.pos m).
Proof.
  intros [Hc%Z.eqb_eq _]%andb_prop. unfold fexp, emin in Hc. pose proof (digits2_bounds m) as [H1 H2].
  split.
  - eapply Z.lt_le_trans; [exact H2|]. apply Z.pow_le_mono_r; lia.
  - intros He. eapply Z.le_trans; [|exact H1]. apply Z.pow_le_mono_r; lia.
Qed.

Lemma value_exponent_lt m1 e1 m2 e2 :
  bounded 53 1024 m1 e1 = true -> bounded 53 1024 m2 e2 = true -> e1 < e2 ->
  Z.pos m1 * 2 ^ (e1 + 1074) < Z.pos m2 * 2 ^ (e2 + 1074).
Proof.
  intros H1 H2 He. pose proof (bounded_emin _ _ H1). pose proof (bounded_emin _ _ H2).
  destruct (bounded_digits _ _ H1) as [Hm1 _]. destruct (bounded_digits _ _ H2) as [_ Hm2].
  specialize (Hm2 ltac:(lia)).
  replace (e2 + 1074) with ((e2 - e1 - 1) + 1 + (e1 + 1074)) by lia.
  rewrite !(Z.pow_add_r 2 (e2 - e1 - 1 + 1)), (Z.pow_add_r 2 (e2 - e1 - 1)) by lia.
  assert (1 <= 2 ^ (e2 - e1 - 1)) by (apply (Z.pow_le_mono_r 2 0); lia).
  assert (0 < 2 ^ (e1 + 1074)) by (apply Z.pow_pos_nonneg; lia).
  change (2 ^ 53) with (2 * 2 ^ 52) in Hm1. change (2 ^ 1) with 2.
  assert (Z.pos m1 < Z.pos m2 * (2 ^ (e2 - e1 - 1) * 2)) by nia.
  rewrite Z.mul_assoc. by apply Z.mul_lt_mono_pos_r.
Qed.

Lemma SFcompare_value x y :
  valid_finite x = true -> valid_finite y = true -> SFcompare x y = Some (value x ?= value y).
Proof.
  assert (forall m e, -1074 <= e -> 0 < Z.pos m * 2 ^ (e + 1074)) as Hpos.
  { intros m e He. apply Z.mul_pos_pos; [lia|]. apply Z.pow_pos_nonneg; lia. }
  destruct x as [sx| | |sx mx ex], y as [sy| | |sy my ey]; try done;
    cbn [SFcompare valid_finite value]; intros Hx Hy; f_equal.
  - pose proof (Hpos my ey (bounded_emin _ _ Hy)). destruct sy; cbn [signed]; symmetry;
      [apply Z.compare_gt_iff|apply Z.compare_lt_iff]; lia.
  - pose proof (Hpos mx ex (bounded_emin _ _ Hx)). destruct sx; cbn [signed]; symmetry;
      [apply Z.compare_lt_iff|apply Z.compare_gt_iff]; lia.
  - pose proof (Hpos mx ex (bounded_emin _ _ Hx)) as Px. pose proof (Hpos my ey (bounded_emin _ _ Hy)) as Py.
    pose proof (value_exponent_lt mx ex my ey Hx Hy) as L1. pose proof (value_exponent_lt my ey mx ex Hy Hx) as L2.
    assert (forall a b : positive, Pos.compare_cont Eq a b = (Z.pos a ?= Z.pos b)) as Hcont by done.
    assert (ex = ey -> forall s1 s2 : Z, (s1 * 2 ^ (ex + 1074) ?= s2 * 2 ^ (ey + 1074)) = (s1 ?= s2)) as Hsame.
    { intros <- s1 s2. pose proof (bounded_emin _ _ Hx).
      assert (0 < 2 ^ (ex + 1074)) by (apply Z.pow_pos_nonneg; lia).
      destruct (Z.compare_spec s1 s2) as [->|Hs|Hs];
        [apply Z.compare_refl|apply Z.compare_lt_iff|apply Z.compare_gt_iff]; nia. }
    destruct sx, sy; cbn [signed]; symmetry.
    + destruct (Z.compare_spec ex ey) as [E|E|E].
      * by rewrite Hsame by done.
      * apply Z.compare_gt_iff. specialize (L1 E). lia.
      * apply Z.compare_lt_iff. specialize (L2 E). lia.
    + apply Z.compare_lt_iff. lia.
    + apply Z.compare_gt_iff. lia.
    + destruct (Z.compare_spec ex ey) as [E|E|E].
      * by rewrite Hsame by done.
      * apply Z.compare_lt_iff. auto.
      * apply Z.compare_gt_iff. auto.
Qed.

Lemma nle_value x y :
  valid_finite x = true -> valid_finite y = true -> nle x y = (value x <=? value y).
Proof.
  intros Hx Hy. unfold nle, SFleb. rewrite SFcompare_value by done. unfold Z.leb.
  by destruct (value x ?= value y).
Qed.

(** Rounding a positive value of at least the smallest exponent stays positive. *)
Lemma shr_fexp_pos m e :
  0 < m -> -1074 <= e ->
  exists r e', shr_fexp 53 1024 m e loc_Exact = (r, e') /\ -1074 <= e' /\ 0 < shr_m r /\
    0 < round_nearest_even (shr_m r) (loc_of_shr_record r).
Proof.
  intros Hm He. destruct (shr_fexp_exact m e ltac:(lia)) as (r&Hr&Hq&_). rewrite Hr.
  set (k := Z.max 0 _) in *. exists r, (e + k). split; [done|]. split; [lia|].
  assert (0 < shr_m r) as Hpos.
  { rewrite Hq. destruct m as [|p|p]; try lia. apply Z.div_str_pos. split; [apply Z.pow_pos_nonneg; lia|].
    pose proof (digits2_bounds p) as [H1 _]. simpl Zdigits2 in *.
    destruct (Z.le_gt_cases (Z.pos (digits2_pos p)) 53).
    - replace k with 0 by (unfold k, fexp, emin; lia). simpl. lia.
    - eapply Z.le_trans; [|exact H1]. apply Z.pow_le_mono_r; [lia|]. unfold k, fexp, emin. lia. }
  split; [done|]. destruct r as [q b c]. simpl in *. destruct b, c; simpl; try destruct (Z.even q); lia.
Qed.

Lemma binary_round_aux_sign s m e :
  -1074 <= e ->
  match binary_round_aux 53 1024 s (Z.pos m) e loc_Exact with
  | S754_finite s' _ _ | S754_infinity s' => s' = s
  | _ => False
  end.
Proof.
  intros He. unfold binary_round_aux.
  destruct (shr_fexp_pos (Z.pos m) e ltac:(lia) He) as (r&e1&->&He1&_&H1).
  destruct (shr_fexp_pos _ e1 H1 He1) as (r2&e2&->&_&H2&_).
  destruct (shr_m r2); try lia. by destruct (_ <=? _).
Qed.

Lemma binary_round_sign s m e :
  -1074 <= e ->
  match binary_round 53 1024 s m e with
  | S754_finite s' _ _ | S754_infinity s' => s' = s
  | _ => False
  end.
Proof.
  intros He. unfold binary_round, shl_align.
  destruct (fexp 53 1024 _ - e) as [|p|p] eqn:E; apply binary_round_aux_sign; try done.
  unfold fexp, emin. lia.
Qed.

Lemma of_Z_not_nan z : is_nan (of_Z z) = false.
Proof.
  destruct z as [|p|p]; [done| |]; unfold of_Z, binary_normalize;
    [pose proof (binary_round_sign false p 0) as H | pose proof (binary_round_sign true p 0) as H];
    destruct (binary_round 53 1024 _ p 0); try done; by destruct H.
Qed.

Lemma iter_xO m d : Z.pos (Pos.iter xO m d) = Z.pos m * 2 ^ Z.pos d.
Proof.
  induction d as [|d IH] using Pos.peano_ind; [simpl; lia|].
  rewrite Pos.iter_succ, Pos2Z.inj_succ, Z.pow_succ_r by lia.
  change (Z.pos (Pos.iter xO m d)~0) with (2 * Z.pos (Pos.iter xO m d)). rewrite IH. ring.
Qed.

Lemma shl_align_value s m e ez :
  -1074 <= ez <= e ->
  cond_Zopp s (Z.pos (fst (shl_align m e ez))) * 2 ^ (ez + 1074) = signed s m * 2 ^ (e + 1074).
Proof.
  intros He. unfold shl_align.
  assert (Z.pos (fst (match ez - e with Zneg d => (Pos.iter xO m d, ez) | _ => (m, e) end)) = Z.pos m * 2 ^ (e - ez)) as Hm.
  { destruct (ez - e) as [|p|p] eqn:E; cbn [fst].
    - replace (e - ez) with 0 by lia. lia.
    - lia.
    - replace (e - ez) with (Z.pos p) by lia. apply iter_xO. }
  replace (e + 1074) with ((e - ez) + (ez + 1074)) by lia. rewrite (Z.pow_add_r 2 (e - ez)) by lia.
  unfold cond_Zopp. rewrite Hm. destruct s; unfold signed; [change (Z.neg m) with (- Z.pos m)|]; ring.
Qed.

(** A 64-bit integer is a finite Number. *)
Lemma of_Z_finite z : 0 <= z <= 2 ^ 63 -> is_finite (of_Z z) = true.
Proof.
  destruct z as [|p|p]; [done| |lia]. intros [_ Hp]. unfold of_Z, binary_normalize, binary_round.
  set (ez := fexp 53 1024 (Z.pos (digits2_pos p) + 0)).
  assert (-1074 <= ez) as Hez by (unfold ez, fexp, emin; lia).
  destruct (shl_align p 0 ez) as [mz e'] eqn:E.
  assert (-1074 <= e' <= 0 /\ scaled (Z.pos mz) e' = scaled (Z.pos p) 0) as [He Hv].
  { unfold shl_align in E. destruct (ez - 0) as [|q|q] eqn:Eq; injection E as <- <-; [done|done|].
    split; [lia|]. rewrite iter_xO, scaled_shift by lia. f_equal. lia. }
  pose proof (binary_round_aux_le (Z.pos mz) e' 4503599627370496 11 ltac:(lia) ltac:(lia) eq_refl) as H.
  rewrite Hv in H. specialize (H ltac:(unfold scaled; rewrite Z.add_0_l;
    rewrite (Z.pow_add_r 2 11 4000) by lia; assert (0 < 2 ^ 4000) by (apply Z.pow_pos_nonneg; lia); nia)).
  by destruct (binary_round_aux 53 1024 false (Z.pos mz) e' loc_Exact).
Qed.

(** "[a - b <= 0]", NaN counting as 0, is "[a <= b]". *)
Definition sub_le (a b : num) : bool := negb (ngt (nsub a b) (S754_zero false)).

Lemma binary_normalize_sign z e :
  -1074 <= e ->
  negb (ngt (binary_normalize 53 1024 z e false) (S754_zero false)) = (z <=? 0).
Proof.
  intros He. destruct z as [|p|p]; [done| |]; unfold binary_normalize;
    [pose proof (binary_round_sign false p e He) as H | pose proof (binary_round_sign true p e He) as H];
    destruct (binary_round 53 1024 _ p e) as [s|s| |s m e']; try done; subst; done.
Qed.

Lemma sub_le_value a b :
  valid_finite a = true -> valid_finite b = true -> sub_le a b = (value a <=? value b).
Proof.
  intros Ha Hb. destruct a as [sa| | |sa ma ea], b as [sb| | |sb mb eb]; simpl in Ha, Hb; try done.
  - by destruct sa, sb.
  - unfold sub_le, nsub. simpl. pose proof (bounded_emin _ _ Hb).
    assert (0 < 2 ^ (eb + 1074)) by (apply Z.pow_pos_nonneg; lia).
    destruct sb; simpl; symmetry; [apply Z.leb_gt|apply Z.leb_le]; nia.
  - unfold sub_le, nsub. simpl. pose proof (bounded_emin _ _ Ha).
    assert (0 < 2 ^ (ea + 1074)) by (apply Z.pow_pos_nonneg; lia).
    destruct sa; simpl; symmetry; [apply Z.leb_le|apply Z.leb_gt]; nia.
  - pose proof (bounded_emin _ _ Ha). pose proof (bounded_emin _ _ Hb).
    unfold sub_le, nsub, SFsub. set (ez := Z.min ea eb).
    rewrite binary_normalize_sign by lia. unfold value.
    rewrite <- (shl_align_value sa ma ea ez), <- (shl_align_value sb mb eb ez) by lia.
    set (x := cond_Zopp sa _). set (y := cond_Zopp sb _).
    assert (0 < 2 ^ (ez + 1074)) by (apply Z.pow_pos_nonneg; lia).
    destruct (Z.leb_spec (x - y) 0), (Z.leb_spec (x * 2 ^ (ez + 1074)) (y * 2 ^ (ez + 1074))); try done; nia.
Qed.
