(* ===== verification/JsDate.v ===== *)
(** * JsDate: the Date functions the console uses

    Epoch milliseconds are integers ([Z]); [None] stands for the NaN of an
    invalid date.  [Date_parse] reads the ECMAScript date-time format with an
    explicit offset (every timestamp of the API contract is RFC 3339) and the
    date-only forms; a string outside that format reads as NaN, which is what
    the code's own guards treat it as.  [toISOString] prints it back. *)
From Stdlib Require Import ZArith Bool String Ascii List Lia.
From stdpp Require Import base option list strings.
From S2P Require Import Prelude.

Definition msPerDay : Z := 86400000.

(** ** The proleptic Gregorian calendar *)

(** Days from 1970-01-01 to the first of January of a year. *)
Definition DayFromYear (y : Z) : Z :=
  365 * (y - 1970) + (y - 1969) / 4 - (y - 1901) / 100 + (y - 1601) / 400.

Definition leap (y : Z) : bool :=
  (y mod 4 =? 0) && (negb (y mod 100 =? 0) || (y mod 400 =? 0)).

(** Days of the year before month [m] (0 for January, 12 for the year's end). *)
Definition DaysBeforeMonth (l : bool) (m : Z) : Z :=
  nth (Z.to_nat m)
    (if l then [0; 31; 60; 91; 121; 152; 182; 213; 244; 274; 305; 335; 366]
     else [0; 31; 59; 90; 120; 151; 181; 212; 243; 273; 304; 334; 365]) 0.

(** [MakeDay]: months and days may overflow their fields. *)
Definition MakeDay (year month date : Z) : Z :=
  let ym := year + month / 12 in
  DayFromYear ym + DaysBeforeMonth (leap ym) (month mod 12) + (date - 1).

(** The largest year whose first day is not after [d]. *)
Definition YearFromDay (d : Z) : Z :=
  let y := 1970 + (400 * d) / 146097 in
  if d <? DayFromYear y then y - 1
  else if DayFromYear (y + 1) <=? d then y + 1
  else y.

Fixpoint month_search (l : bool) (n : nat) (r : Z) : Z :=
  match n with
  | O => 0
  | S n' => if DaysBeforeMonth l (Z.of_nat n) <=? r then Z.of_nat n else month_search l n' r
  end.

(** [getUTCFullYear], [getUTCMonth] (0-based) and [getUTCDate] of a day number. *)
Definition CivilFromDay (d : Z) : Z * Z * Z :=
  let y := YearFromDay d in
  let r := d - DayFromYear y in
  let m := month_search (leap y) 11 r in
  (y, m, r - DaysBeforeMonth (leap y) m + 1).

(** [TimeClip]: a Date holds at most 8.64e15 ms either side of the epoch. *)
Definition TimeClip (t : Z) : option Z :=
  if Z.abs t <=? 8640000000000000 then Some t else None.

(** [Date.UTC(year, month, day)]: a year of 0 to 99 means 1900 to 1999. *)
Definition MakeFullYear (y : Z) : Z := if (0 <=? y) && (y <=? 99) then 1900 + y else y.
Definition Date_UTC (year month date : Z) : option Z :=
  TimeClip (MakeDay (MakeFullYear year) month date * msPerDay).

(** ** Printing *)

Definition digit_ascii (d : Z) : ascii := ascii_of_N (48 + Z.to_N d).

(** [String(n).padStart(w, '0')] for [0 <= n < 10^w]. *)
Fixpoint pad (w : nat) (n : Z) : string :=
  match w with
  | O => ""
  | S w' => pad w' (n / 10) +:+ String (digit_ascii (n mod 10)) ""
  end.

Definition year_string (y : Z) : string :=
  if (0 <=? y) && (y <=? 9999) then pad 4 y
  else (if y <? 0 then "-" else "+") +:+ pad 6 (Z.abs y).

Definition toISOString (t : Z) : string :=
  let d := t / msPerDay in
  let r := t mod msPerDay in
  let '(y, m, dd) := CivilFromDay d in
  year_string y +:+ "-" +:+ pad 2 (m + 1) +:+ "-" +:+ pad 2 dd +:+ "T" +:+
  pad 2 (r / 3600000) +:+ ":" +:+ pad 2 (r / 60000 mod 60) +:+ ":" +:+
  pad 2 (r / 1000 mod 60) +:+ "." +:+ pad 3 (r mod 1000) +:+ "Z".

(** ** Parsing *)

Definition digit_val (c : ascii) : option Z :=
  let n := Z.of_N (N_of_ascii c) in
  if (48 <=? n) && (n <=? 57) then Some (n - 48) else None.

(** Exactly [w] digits. *)
Fixpoint read_digits (w : nat) (acc : Z) (s : string) : option (Z * string) :=
  match w with
  | O => Some (acc, s)
  | S w' =>
      match s with
      | String c s' =>
          match digit_val c with
          | Some d => read_digits w' (10 * acc + d) s'
          | None => None
          end
      | EmptyString => None
      end
  end.

Definition read_char (c : ascii) (s : string) : option string :=
  match s with
  | String c' s' => if Ascii.eqb c c' then Some s' else None
  | EmptyString => None
  end.

(** The digits after the decimal point: the first three are milliseconds, the
    rest are read and dropped. *)
Fixpoint read_frac (scale acc : Z) (s : string) : Z * string :=
  match s with
  | String c s' =>
      match digit_val c with
      | Some d => read_frac (scale / 10) (acc + d * scale) s'
      | None => (acc, s)
      end
  | EmptyString => (acc, s)
  end.

(** [Z] or [+HH:mm] or [-HH:mm], to the end of the string; minutes east. *)
Definition read_offset (s : string) : option Z :=
  match s with
  | "Z" => Some 0
  | String c s1 =>
      if Ascii.eqb c "+" || Ascii.eqb c "-" then
        '(h, s2) ← read_digits 2 0 s1;
        s3 ← read_char ":" s2;
        '(m, s4) ← read_digits 2 0 s3;
        if (h <=? 23) && (m <=? 59) && String.eqb s4 ""
        then Some (if Ascii.eqb c "-" then - (60 * h + m) else 60 * h + m)
        else None
      else None
  | _ => None
  end.

Definition read_time (s : string) : option (Z * Z) :=
  '(h, s1) ← read_digits 2 0 s;
  s2 ← read_char ":" s1;
  '(mi, s3) ← read_digits 2 0 s2;
  let '(sec, ms, s4) :=
    match read_char ":" s3 with
    | None => (Some 0, 0, s3)
    | Some s4 =>
        match read_digits 2 0 s4 with
        | None => (None, 0, s4)
        | Some (sec, s5) =>
            match read_char "." s5 with
            | None => (Some sec, 0, s5)
            | Some s6 =>
                let '(ms, s7) := read_frac 100 0 s6 in
                if String.eqb s6 s7 then (None, 0, s7) else (Some sec, ms, s7)
            end
        end
    end in
  sec ← sec;
  off ← read_offset s4;
  if (mi <=? 59) && (sec <=? 59) &&
     ((h <=? 23) || ((h =? 24) && (mi =? 0) && (sec =? 0) && (ms =? 0)))
  then Some (3600000 * h + 60000 * mi + 1000 * sec + ms, off)
  else None.

Definition Date_parse (s : string) : option Z :=
  '(y, s1) ← read_digits 4 0 s;
  s2 ← read_char "-" s1;
  '(mo, s3) ← read_digits 2 0 s2;
  s4 ← read_char "-" s3;
  '(d, s5) ← read_digits 2 0 s4;
  if (1 <=? mo) && (mo <=? 12) && (1 <=? d) && (d <=? 31) then
    let day := MakeDay y (mo - 1) d * msPerDay in
    if String.eqb s5 "" then Some day
    else
      s6 ← read_char "T" s5;
      '(t, off) ← read_time s6;
      Some (day + t - 60000 * off)
  else None.

Example parse_ex1 : Date_parse "2026-09-15T03:48:07.250Z" = Some 1789444087250.
Proof. vm_compute. reflexivity. Qed.
Example parse_ex2 : Date_parse "2024-02-29T23:59:59.123456789+02:00" = Some 1709243999123.
Proof. vm_compute. reflexivity. Qed.
Example iso_ex : toISOString 1789444087250 = "2026-09-15T03:48:07.250Z".
Proof. vm_compute. reflexivity. Qed.

(** ** The calendar is a bijection *)

Ltac div_lia := Z.div_mod_to_equations; lia.

Lemma leap_days y : DayFromYear (y + 1) = DayFromYear y + (if leap y then 366 else 365).
Proof.
  unfold DayFromYear, leap.
  destruct (Z.eqb_spec (y mod 4) 0), (Z.eqb_spec (y mod 100) 0), (Z.eqb_spec (y mod 400) 0);
    simpl; div_lia.
Qed.

Lemma YearFromDay_bounds d :
  DayFromYear (YearFromDay d) <= d < DayFromYear (YearFromDay d + 1).
Proof.
  unfold YearFromDay. set (y := 1970 + 400 * d / 146097).
  destruct (Z.ltb_spec d (DayFromYear y)).
  - split; [|by replace (y - 1 + 1) with y by lia].
    revert H. unfold DayFromYear, y. div_lia.
  - destruct (Z.leb_spec (DayFromYear (y + 1)) d); [|lia].
    split; [lia|]. revert H0. unfold DayFromYear, y. div_lia.
Qed.

Lemma DayFromYear_mono y z : y <= z -> DayFromYear y <= DayFromYear z.
Proof. intros H. unfold DayFromYear. div_lia. Qed.

Lemma YearFromDay_unique y d :
  DayFromYear y <= d < DayFromYear (y + 1) -> YearFromDay d = y.
Proof.
  intros H. pose proof (YearFromDay_bounds d) as H'.
  set (z := YearFromDay d) in *. clearbody z.
  destruct (Z.lt_trichotomy z y) as [?|[?|?]]; [|done|].
  - pose proof (DayFromYear_mono (z + 1) y). lia.
  - pose proof (DayFromYear_mono (y + 1) z). lia.
Qed.

Lemma month_search_bounds (l : bool) r :
  0 <= r < (if l then 366 else 365) ->
  let m := month_search l 11 r in
  0 <= m <= 11 /\ DaysBeforeMonth l m <= r < DaysBeforeMonth l (m + 1).
Proof.
  intros H. destruct l; simpl;
    repeat match goal with
           | |- context [Z.leb ?a r] => destruct (Z.leb_spec a r)
           end; unfold DaysBeforeMonth in *; simpl in *; lia.
Qed.

Lemma month_cases m :
  0 <= m <= 11 ->
  m = 0 \/ m = 1 \/ m = 2 \/ m = 3 \/ m = 4 \/ m = 5 \/
  m = 6 \/ m = 7 \/ m = 8 \/ m = 9 \/ m = 10 \/ m = 11.
Proof. lia. Qed.

Lemma DaysBeforeMonth_mono l a b :
  0 <= a -> a <= b -> b <= 12 -> DaysBeforeMonth l a <= DaysBeforeMonth l b.
Proof.
  intros Ha Hab Hb. replace b with (a + Z.of_nat (Z.to_nat (b - a))) by lia.
  assert (a + Z.of_nat (Z.to_nat (b - a)) <= 12) as Hn by lia. revert Hn.
  induction (Z.to_nat (b - a)) as [|n IH]; intros Hn; [rewrite Z.add_0_r; lia|].
  etrans; [apply IH; lia|].
  replace (a + Z.of_nat (S n)) with (a + Z.of_nat n + 1) by lia.
  assert (0 <= a + Z.of_nat n <= 11) as Hm by lia.
  pose proof (month_cases _ Hm) as Hc. clear -Hc.
  repeat destruct Hc as [->|Hc]; [..|rewrite Hc]; destruct l; vm_compute; discriminate.
Qed.

Lemma month_length l m :
  0 <= m <= 11 -> DaysBeforeMonth l (m + 1) - DaysBeforeMonth l m <= 31.
Proof.
  intros H. pose proof (month_cases m H) as Hc. clear H.
  repeat destruct Hc as [->|Hc]; [..|subst m]; destruct l; vm_compute; discriminate.
Qed.

Lemma month_search_unique l r m :
  0 <= m <= 11 -> DaysBeforeMonth l m <= r < DaysBeforeMonth l (m + 1) ->
  month_search l 11 r = m.
Proof.
  intros Hm Hr.
  assert (0 <= r < (if l then 366 else 365)) as Hr'.
  { pose proof (DaysBeforeMonth_mono l 0 m). pose proof (DaysBeforeMonth_mono l (m + 1) 12).
    replace (DaysBeforeMonth l 0) with 0 in * by (by destruct l).
    replace (DaysBeforeMonth l 12) with (if l then 366 else 365) in * by (by destruct l). lia. }
  pose proof (month_search_bounds l r Hr') as [Hb1 Hb2].
  set (k := month_search l 11 r) in *. clearbody k.
  destruct (Z.lt_trichotomy k m) as [?|[?|?]]; [|done|].
  - pose proof (DaysBeforeMonth_mono l (k + 1) m). lia.
  - pose proof (DaysBeforeMonth_mono l (m + 1) k). lia.
Qed.

Lemma MakeDay_civil y m dd :
  0 <= m <= 11 ->
  MakeDay y m dd = DayFromYear y + DaysBeforeMonth (leap y) m + (dd - 1).
Proof.
  intros. unfold MakeDay. rewrite Z.div_small, Z.mod_small by lia. by rewrite Z.add_0_r.
Qed.

Lemma DaysBeforeMonth_end (l : bool) : DaysBeforeMonth l 12 = if l then 366 else 365.
Proof. by destruct l. Qed.

(** The fields of a day number rebuild it, and are in range. *)
Lemma CivilFromDay_spec d y m dd :
  CivilFromDay d = (y, m, dd) ->
  MakeDay y m dd = d /\ 0 <= m <= 11 /\ 1 <= dd <= 31 /\
  dd <= DaysBeforeMonth (leap y) (m + 1) - DaysBeforeMonth (leap y) m.
Proof.
  unfold CivilFromDay.
  remember (YearFromDay d) as y' eqn:Hy.
  remember (month_search (leap y') 11 (d - DayFromYear y')) as m' eqn:Hm.
  intros [= -> -> <-].
  pose proof (YearFromDay_bounds d) as Hb. rewrite <- Hy, leap_days in Hb.
  destruct (month_search_bounds (leap y) (d - DayFromYear y)) as [Hs1 Hs2];
    [destruct (leap y); lia|].
  rewrite <- Hm in *.
  rewrite MakeDay_civil by done. repeat split; try lia.
  pose proof (month_length (leap y) m Hs1). lia.
Qed.

(** The calendar date of a day number is the date it was built from. *)
Lemma CivilFromDay_MakeDay y m dd :
  0 <= m <= 11 ->
  1 <= dd <= DaysBeforeMonth (leap y) (m + 1) - DaysBeforeMonth (leap y) m ->
  CivilFromDay (MakeDay y m dd) = (y, m, dd).
Proof.
  intros Hm Hd. rewrite MakeDay_civil by done. unfold CivilFromDay.
  rewrite (YearFromDay_unique y).
  - set (r := _ - DayFromYear y). replace (month_search (leap y) 11 r) with m.
    + f_equal. unfold r. lia.
    + symmetry. apply month_search_unique; unfold r; lia.
  - rewrite leap_days. pose proof (DaysBeforeMonth_mono (leap y) 0 m).
    pose proof (DaysBeforeMonth_mono (leap y) (m + 1) 12) as H2.
    rewrite DaysBeforeMonth_end in H2.
    replace (DaysBeforeMonth (leap y) 0) with 0 in * by (by destruct (leap y)). lia.
Qed.

(** ** Printing and parsing agree *)

#[local] Arguments digit_val : simpl never.
#[local] Arguments digit_ascii : simpl never.
#[local] Arguments pad : simpl never.

Lemma digit_val_ascii d : 0 <= d <= 9 -> digit_val (digit_ascii d) = Some d.
Proof.
  intros H. assert (d = 0 \/ d = 1 \/ d = 2 \/ d = 3 \/ d = 4 \/ d = 5 \/ d = 6 \/
    d = 7 \/ d = 8 \/ d = 9) as Hc by lia. clear H.
  repeat destruct Hc as [->|Hc]; [..|subst d]; reflexivity.
Qed.

Lemma read_digits_snoc w acc s :
  read_digits (S w) acc s =
  '(a, s') ← read_digits w acc s; read_digits 1 a s'.
Proof.
  revert acc s. induction w as [|w IH]; intros acc s; [done|].
  destruct s as [|c s]; [done|].
  cbn [read_digits] in IH |- *. destruct (digit_val c); [|done]. apply IH.
Qed.

Lemma pad_S w n : pad (S w) n = pad w (n / 10) +:+ String (digit_ascii (n mod 10)) "".
Proof. done. Qed.

Lemma read_pad w acc n s :
  0 <= n < 10 ^ Z.of_nat w ->
  read_digits w acc (pad w n +:+ s) = Some (acc * 10 ^ Z.of_nat w + n, s).
Proof.
  revert n s. induction w as [|w IH]; intros n s H.
  - cbn in *. do 2 f_equal. lia.
  - rewrite Nat2Z.inj_succ, Z.pow_succ_r in H |- * by lia.
    rewrite read_digits_snoc, pad_S, sapp_assoc, IH by div_lia.
    rewrite sapp_cons, sapp_nil. cbn. rewrite digit_val_ascii by (pose proof (Z.mod_pos_bound n 10); lia).
    do 2 f_equal. pose proof (Z.div_mod n 10). lia.
Qed.

Lemma read_pad0 w n s :
  0 <= n < 10 ^ Z.of_nat w -> read_digits w 0 (pad w n +:+ s) = Some (n, s).
Proof. apply read_pad. Qed.

Lemma pad_length w n : String.length (pad w n) = w.
Proof.
  revert n. induction w as [|w IH]; intros n; [done|].
  rewrite pad_S, slength_app, IH. cbn. lia.
Qed.

(** The milliseconds of a time of day, from its printed fields. *)
Lemma time_fields r :
  0 <= r < msPerDay ->
  3600000 * (r / 3600000) + 60000 * (r / 60000 mod 60) + 1000 * (r / 1000 mod 60)
  + r mod 1000 = r
  /\ 0 <= r / 3600000 <= 23 /\ 0 <= r / 60000 mod 60 <= 59
  /\ 0 <= r / 1000 mod 60 <= 59 /\ 0 <= r mod 1000 <= 999.
Proof. unfold msPerDay. intros H. div_lia. Qed.

Lemma read_frac_cons scale acc d s :
  0 <= d <= 9 ->
  read_frac scale acc (String (digit_ascii d) s) = read_frac (scale / 10) (acc + d * scale) s.
Proof. intros H. cbn [read_frac]. by rewrite digit_val_ascii. Qed.

Lemma read_frac_ms n :
  0 <= n <= 999 -> read_frac 100 0 (pad 3 n +:+ "Z") = (n, "Z").
Proof.
  intros H. rewrite !pad_S, !sapp_assoc.
  change (pad 0 (n / 10 / 10 / 10)) with "". rewrite sapp_nil, !sapp_cons, !sapp_nil.
  rewrite !read_frac_cons by div_lia.
  change (100 / 10 / 10) with 1. change (100 / 10) with 10.
  cbn [read_frac]. change (digit_val "Z") with (@None Z). cbn beta iota.
  f_equal. div_lia.
Qed.

(** Reads back one padded field or separator of a printed timestamp. *)
Ltac read_step :=
  rewrite ?sapp_cons, ?sapp_nil;
  cbn -[pad read_digits read_frac read_time toISOString Z.div Z.modulo MakeDay String.append];
  rewrite ?read_pad0 by (cbn; lia).

Lemma read_time_print r :
  0 <= r < msPerDay ->
  read_time (pad 2 (r / 3600000) +:+ ":" +:+ pad 2 (r / 60000 mod 60) +:+ ":" +:+
             pad 2 (r / 1000 mod 60) +:+ "." +:+ pad 3 (r mod 1000) +:+ "Z")
  = Some (r, 0).
Proof.
  intros H. destruct (time_fields r H) as (Hr&Hh&Hmi&Hs&Hms).
  unfold read_time. do 6 read_step. rewrite read_frac_ms by lia. read_step.
  replace (pad 3 (r mod 1000) +:+ "Z" === "Z") with false.
  2: { symmetry. apply String.eqb_neq. intros Hl. apply (f_equal String.length) in Hl.
       rewrite slength_app, pad_length in Hl. done. }
  cbn -[Z.div Z.modulo Z.mul]. case_match eqn:E; [|lia]. do 2 f_equal. lia.
Qed.

(** The years whose timestamps print with four digits. *)
Definition four_digit_year (t : Z) : Prop := 0 <= YearFromDay (t / msPerDay) <= 9999.

Definition print_day (d : Z) : string :=
  let '(y, m, dd) := CivilFromDay d in
  pad 4 y +:+ "-" +:+ pad 2 (m + 1) +:+ "-" +:+ pad 2 dd.

Definition print_time (r : Z) : string :=
  pad 2 (r / 3600000) +:+ ":" +:+ pad 2 (r / 60000 mod 60) +:+ ":" +:+
  pad 2 (r / 1000 mod 60) +:+ "." +:+ pad 3 (r mod 1000) +:+ "Z".

Lemma toISOString_eq t :
  four_digit_year t ->
  toISOString t = print_day (t / msPerDay) +:+ "T" +:+ print_time (t mod msPerDay).
Proof.
  unfold four_digit_year, toISOString, print_day. intros H.
  destruct (CivilFromDay (t / msPerDay)) as [[y m] dd] eqn:E.
  assert (y = YearFromDay (t / msPerDay)) as -> by (unfold CivilFromDay in E; congruence).
  unfold year_string. replace ((_ <=? _) && (_ <=? _)) with true by lia.
  by rewrite !sapp_assoc.
Qed.

(** [Date.parse(new Date(t).toISOString()) === t]. *)
Lemma Date_parse_toISOString t :
  four_digit_year t -> Date_parse (toISOString t) = Some t.
Proof.
  intros H. rewrite toISOString_eq by done. unfold print_day.
  destruct (CivilFromDay (t / msPerDay)) as [[y m] dd] eqn:E.
  destruct (CivilFromDay_spec _ _ _ _ E) as (Hd&Hm&Hdd&_).
  assert (y = YearFromDay (t / msPerDay)) as Hy by (unfold CivilFromDay in E; congruence).
  unfold four_digit_year in H. rewrite <- Hy in H.
  unfold Date_parse. rewrite !sapp_assoc.
  do 7 read_step. unfold print_time. rewrite read_time_print by (apply Z.mod_pos_bound; done).
  case_match eqn:E1; [|lia]. cbn -[Z.div Z.modulo Z.mul MakeDay].
  replace (m + 1 - 1) with m by lia. rewrite Hd.
  f_equal. pose proof (Z.div_mod t msPerDay). unfold msPerDay in *. lia.
Qed.

(** ** Printed timestamps sort as their instants *)

Lemma digit_compare a b :
  0 <= a <= 9 -> 0 <= b <= 9 ->
  Ascii.compare (digit_ascii a) (digit_ascii b) = (a ?= b)%Z.
Proof.
  intros Ha Hb. unfold Ascii.compare, digit_ascii.
  rewrite !N_ascii_embedding by lia.
  rewrite <- N2Z.inj_compare, !N2Z.inj_add, !Z2N.id by lia.
  destruct (Z.compare_spec a b); [by subst; rewrite Z.compare_refl| |];
    [apply Z.compare_lt_iff | apply Z.compare_gt_iff]; lia.
Qed.

Lemma pad_compare w a b :
  0 <= a < 10 ^ Z.of_nat w -> 0 <= b < 10 ^ Z.of_nat w ->
  String.compare (pad w a) (pad w b) = (a ?= b)%Z.
Proof.
  revert a b. induction w as [|w IH]; intros a b Ha Hb.
  - change (10 ^ Z.of_nat 0) with 1 in *. replace a with 0 by lia. by replace b with 0 by lia.
  - rewrite Nat2Z.inj_succ, Z.pow_succ_r in Ha, Hb by lia.
    rewrite !pad_S, scompare_app by (by rewrite !pad_length).
    rewrite IH, scompare_cons, digit_compare by div_lia. simpl.
    replace (lexc (a mod 10 ?= b mod 10) Eq) with (a mod 10 ?= b mod 10)
      by (by destruct (a mod 10 ?= b mod 10)).
    unfold lexc. destruct (Z.compare_spec (a / 10) (b / 10)).
    + destruct (Z.compare_spec (a mod 10) (b mod 10)); symmetry;
        [apply Z.compare_eq_iff | apply Z.compare_lt_iff | apply Z.compare_gt_iff]; div_lia.
    + symmetry. apply Z.compare_lt_iff. div_lia.
    + symmetry. apply Z.compare_gt_iff. div_lia.
Qed.

(** One padded field of a comparison of two printed timestamps. *)
Ltac field_step :=
  rewrite ?scompare_same;
  rewrite ?(fun w a b c d => scompare_app (pad w a) (pad w b) c d) by (by rewrite !pad_length);
  rewrite ?pad_compare by (cbn; lia).

Ltac lex_cases :=
  unfold lexc; repeat
    match goal with
    | |- context [match (?a ?= ?b)%Z with _ => _ end] =>
        destruct (Z.compare_spec a b); try subst
    end;
  try match goal with
      | |- (?a ?= ?b)%Z = (_ ?= _)%Z => destruct (Z.compare_spec a b); try subst
      end; symmetry;
  first [apply Z.compare_eq_iff | apply Z.compare_lt_iff | apply Z.compare_gt_iff]; try lia.

Lemma print_time_compare a b :
  0 <= a < msPerDay -> 0 <= b < msPerDay ->
  String.compare (print_time a) (print_time b) = (a ?= b)%Z.
Proof.
  intros Ha Hb.
  destruct (time_fields a Ha) as (Ea&A1&A2&A3&A4).
  destruct (time_fields b Hb) as (Eb&B1&B2&B3&B4).
  unfold print_time. do 4 field_step. rewrite scompare_refl.
  set (a1 := a / 3600000) in *. set (a2 := a / 60000 mod 60) in *.
  set (a3 := a / 1000 mod 60) in *. set (a4 := a mod 1000) in *.
  set (b1 := b / 3600000) in *. set (b2 := b / 60000 mod 60) in *.
  set (b3 := b / 1000 mod 60) in *. set (b4 := b mod 1000) in *.
  clearbody a1 a2 a3 a4 b1 b2 b3 b4. lex_cases.
Qed.

(** Calendar dates order as day numbers, most significant field first. *)
Lemma civil_compare d1 d2 y1 m1 e1 y2 m2 e2 :
  CivilFromDay d1 = (y1, m1, e1) -> CivilFromDay d2 = (y2, m2, e2) ->
  lexc (y1 ?= y2)%Z (lexc (m1 ?= m2)%Z (e1 ?= e2)%Z) = (d1 ?= d2)%Z.
Proof.
  intros H1 H2.
  destruct (CivilFromDay_spec _ _ _ _ H1) as (D1&M1&E1&L1).
  destruct (CivilFromDay_spec _ _ _ _ H2) as (D2&M2&E2&L2).
  assert (y1 = YearFromDay d1) as Y1 by (unfold CivilFromDay in H1; congruence).
  assert (y2 = YearFromDay d2) as Y2 by (unfold CivilFromDay in H2; congruence).
  pose proof (YearFromDay_bounds d1) as B1. pose proof (YearFromDay_bounds d2) as B2.
  rewrite <- Y1 in B1. rewrite <- Y2 in B2. rewrite MakeDay_civil in D1, D2 by done.
  clear H1 H2 Y1 Y2. unfold lexc.
  destruct (Z.compare_spec y1 y2) as [->|Hlt|Hlt].
  - destruct (Z.compare_spec m1 m2) as [->|Hlt|Hlt]; [lex_cases| |].
    + pose proof (DaysBeforeMonth_mono (leap y2) (m1 + 1) m2). lex_cases.
    + pose proof (DaysBeforeMonth_mono (leap y2) (m2 + 1) m1). lex_cases.
  - pose proof (DayFromYear_mono (y1 + 1) y2). lex_cases.
  - pose proof (DayFromYear_mono (y2 + 1) y1). lex_cases.
Qed.

Lemma print_day_compare d1 d2 :
  0 <= YearFromDay d1 <= 9999 -> 0 <= YearFromDay d2 <= 9999 ->
  String.compare (print_day d1) (print_day d2) = (d1 ?= d2)%Z.
Proof.
  unfold print_day.
  destruct (CivilFromDay d1) as [[y1 m1] e1] eqn:H1.
  destruct (CivilFromDay d2) as [[y2 m2] e2] eqn:H2.
  assert (y1 = YearFromDay d1) as <- by (unfold CivilFromDay in H1; congruence).
  assert (y2 = YearFromDay d2) as <- by (unfold CivilFromDay in H2; congruence).
  intros Hy1 Hy2.
  destruct (CivilFromDay_spec _ _ _ _ H1) as (_&M1&?&_).
  destruct (CivilFromDay_spec _ _ _ _ H2) as (_&M2&?&_).
  rewrite <- (civil_compare _ _ _ _ _ _ _ _ H1 H2).
  do 2 field_step. rewrite scompare_same, pad_compare by (cbn; lia).
  do 2 f_equal. lex_cases.
Qed.

Lemma print_day_length d1 d2 :
  0 <= YearFromDay d1 <= 9999 -> 0 <= YearFromDay d2 <= 9999 ->
  String.length (print_day d1) = String.length (print_day d2).
Proof.
  intros _ _. unfold print_day.
  destruct (CivilFromDay d1) as [[y1 m1] e1], (CivilFromDay d2) as [[y2 m2] e2].
  by rewrite !slength_app, !pad_length.
Qed.

(** Comparing two printed timestamps as strings compares the instants: the
    reason the console may order the API's timestamps without parsing them. *)
Lemma toISOString_compare a b :
  four_digit_year a -> four_digit_year b ->
  String.compare (toISOString a) (toISOString b) = (a ?= b)%Z.
Proof.
  intros Ha Hb. rewrite !toISOString_eq by done.
  rewrite scompare_app, scompare_same, print_day_compare, print_time_compare
    by first [by apply print_day_length | done | by apply Z.mod_pos_bound].
  pose proof (Z.div_mod a msPerDay). pose proof (Z.div_mod b msPerDay).
  pose proof (Z.mod_pos_bound a msPerDay). pose proof (Z.mod_pos_bound b msPerDay).
  unfold msPerDay in *. lex_cases.
Qed.

Lemma toISOString_inj a b :
  four_digit_year a -> four_digit_year b -> toISOString a = toISOString b -> a = b.
Proof.
  intros Ha Hb H. apply (f_equal Date_parse) in H.
  rewrite !Date_parse_toISOString in H by done. congruence.
Qed.

(** Instants from 0000-01-01 to 9999-12-31 are the four-digit ones, and lie well
    inside the integers a Number holds exactly. *)
Lemma four_digit_year_range t :
  four_digit_year t <-> -62167219200000 <= t <= 253402300799999.
Proof.
  unfold four_digit_year. pose proof (YearFromDay_bounds (t / msPerDay)) as Hb.
  set (y := YearFromDay (t / msPerDay)) in *. clearbody y.
  pose proof (Z.div_mod t msPerDay). pose proof (Z.mod_pos_bound t msPerDay).
  change (DayFromYear 0) with (-719528) in *. unfold msPerDay in *. split; intros H1.
  - pose proof (DayFromYear_mono 0 y). pose proof (DayFromYear_mono (y + 1) 10000).
    change (DayFromYear 0) with (-719528) in *. change (DayFromYear 10000) with 2932897 in *. lia.
  - split.
    + destruct (Z.le_gt_cases 0 y); [done|]. pose proof (DayFromYear_mono (y + 1) 0).
      change (DayFromYear 0) with (-719528) in *. lia.
    + destruct (Z.le_gt_cases y 9999); [done|]. pose proof (DayFromYear_mono 10000 y).
      change (DayFromYear 10000) with 2932897 in *. lia.
Qed.
