(* ===== verification/JsString.v ===== *)
(** * JsString: the String methods the console uses

    Strings are sequences of code units below 256 (Latin-1); literals with
    characters beyond it are only ever concatenated.  The case mappings are the
    simple ones of that range: the three letters whose upper case lies outside
    it are left as they are. *)
From Stdlib Require Import ZArith Bool String Ascii List Lia.
From stdpp Require Import base option list strings.
From S2P Require Import Prelude.

Definition upper_ascii (c : ascii) : ascii :=
  let n := N_of_ascii c in
  if ((97 <=? n) && (n <=? 122) || (224 <=? n) && (n <=? 254) && negb (n =? 247))%N
  then ascii_of_N (n - 32) else c.
Fixpoint toUpperCase (s : string) : string :=
  match s with
  | EmptyString => ""
  | String c s' => String (upper_ascii c) (toUpperCase s')
  end.

(** Rest of [s] after the prefix [p]. *)
Fixpoint startsWith (p s : string) : option string :=
  match p, s with
  | EmptyString, _ => Some s
  | String a p', String b s' => if Ascii.eqb a b then startsWith p' s' else None
  | String _ _, EmptyString => None
  end.

Fixpoint includes (needle s : string) : bool :=
  match startsWith needle s with
  | Some _ => true
  | None => match s with EmptyString => false | String _ s' => includes needle s' end
  end.

Definition slen (s : string) : Z := Z.of_nat (String.length s).

(** [s.slice(from, to)] and [s.slice(from)] for [0 <= from <= to]. *)
Definition slice (from to : nat) (s : string) : string := substring from (to - from) s.
Definition slice_from (from : nat) (s : string) : string :=
  substring from (String.length s - from) s.
(** [s.slice(-n)]. *)
Definition slice_last (n : nat) (s : string) : string :=
  slice_from (String.length s - n) s.

(** White space of [trim] and [\s] below 256. *)
Definition is_space (c : ascii) : bool :=
  let n := N_of_ascii c in
  ((9 <=? n) && (n <=? 13) || (n =? 32) || (n =? 160))%N.

Fixpoint trimStart (s : string) : string :=
  match s with
  | String c s' => if is_space c then trimStart s' else s
  | EmptyString => ""
  end.
Fixpoint all_space (s : string) : bool :=
  match s with EmptyString => true | String c s' => is_space c && all_space s' end.
Fixpoint trimEnd (s : string) : string :=
  match s with
  | EmptyString => ""
  | String c s' => if all_space s then "" else String c (trimEnd s')
  end.
Definition trim (s : string) : string := trimEnd (trimStart s).

Definition is_digit (c : ascii) : bool :=
  let n := N_of_ascii c in ((48 <=? n) && (n <=? 57))%N.
Definition digit (c : ascii) : Z := Z.of_N (N_of_ascii c) - 48.

(** The non-empty pieces of [s.split(/\s+/)]. *)
Fixpoint words_aux (word : string) (s : string) : list string :=
  let flush := match word with EmptyString => [] | _ => [word] end in
  match s with
  | EmptyString => flush
  | String c s' => if is_space c then flush ++ words_aux "" s' else words_aux (word +:+ String c "") s'
  end.
Definition words (s : string) : list string := words_aux "" s.

(** [Array.prototype.join]. *)
Fixpoint join (sep : string) (l : list string) : string :=
  match l with
  | [] => ""
  | [x] => x
  | x :: l' => x +:+ sep +:+ join sep l'
  end.

Definition capitalize (s : string) : string :=
  match s with EmptyString => "" | String c s' => String (upper_ascii c) s' end.

(** [localeCompare] depends on the host's collation; what the code relies on is
    that it is a consistent order in which only equal strings tie. *)
Class Collation := { localeCompare : string -> string -> comparison }.
Class CollationLaws (C : Collation) : Prop := {
  collate_antisym : forall a b : string, localeCompare b a = CompOpp (localeCompare a b);
  collate_trans : forall a b c : string, localeCompare a b <> Gt -> localeCompare b c <> Gt -> localeCompare a c <> Gt;
  collate_eq : forall a b : string, localeCompare a b = Eq -> a = b
}.

Lemma collate_refl {C : Collation} {HC : CollationLaws C} (a : string) : localeCompare a a = Eq.
Proof. pose proof (collate_antisym a a). by destruct (localeCompare a a). Qed.

(** The code unit order is such a collation. *)
Definition code_units : Collation := {| localeCompare := String.compare |}.

#[export] Instance code_units_laws : CollationLaws code_units.
Proof.
  split.
  - intros a b. apply String.compare_antisym.
  - intros a b c H1 H2. pose proof (sle_trans a b c) as H. rewrite !sle_leb in H.
    unfold String.leb in H. cbn [localeCompare code_units] in *.
    destruct (String.compare a b), (String.compare b c), (String.compare a c);
      try done; specialize (H eq_refl eq_refl); done.
  - intros a b H. by apply String.compare_eq_iff.
Qed.

Lemma startsWith_spec p s r : startsWith p s = Some r <-> s = p +:+ r.
Proof.
  revert s. induction p as [|a p IH]; intros s; simpl.
  - rewrite sapp_nil. split; congruence.
  - destruct s as [|b s]; [split; [done|]; by rewrite sapp_cons|].
    rewrite sapp_cons. destruct (Ascii.eqb_spec a b) as [->|Hn].
    + rewrite IH. split; congruence.
    + split; [done|]. congruence.
Qed.

Lemma includes_spec needle s : includes needle s = true <-> exists a b, s = a +:+ needle +:+ b.
Proof.
  induction s as [|c s IH]; simpl.
  - destruct (startsWith needle "") as [r|] eqn:E.
    + apply startsWith_spec in E. split; [|done]. intros _. exists "", r. done.
    + split; [done|]. intros (a&b&H). exfalso.
      destruct a; [|done]. rewrite sapp_nil in H.
      assert (startsWith needle "" = Some b) by (by apply startsWith_spec). congruence.
  - destruct (startsWith needle (String c s)) as [r|] eqn:E.
    + apply startsWith_spec in E. split; [|done]. intros _. exists "", r. done.
    + rewrite IH. split.
      * intros (a&b&->). exists (String c a), b. done.
      * intros ([|x a]&b&H).
        -- rewrite sapp_nil in H. apply startsWith_spec in H. congruence.
        -- rewrite sapp_cons in H. injection H as _ ->. eauto.
Qed.
