(* ===== verification/JsParse.v ===== *)
(** * JsParse: [Number(text)]

    The language's StringToNumber: white space around, decimal literals with a
    fraction and an exponent, [Infinity], and the hexadecimal, octal and binary
    integers; the empty text is zero and anything else is NaN.  What an integer
    prints is read back as that integer. *)
From Stdlib Require Import ZArith NArith Bool String Ascii List Lia Floats.SpecFloat.
From stdpp Require Import base option list strings pretty.
From S2P Require Import Prelude JsNumber JsString.

Fixpoint span_digits (s : string) : string * string :=
  match s with
  | String c s' => if is_digit c then let r := span_digits s' in (String c r.1, r.2) else ("", s)
  | EmptyString => ("", "")
  end.

Fixpoint digits_from (acc : Z) (s : string) : Z :=
  match s with EmptyString => acc | String c s' => digits_from (10 * acc + digit c) s' end.

(** The value of [m * 10 ^ e], rounded once. *)
Definition scientific (m e : Z) : num :=
  if 0 <=? e then of_Z (m * 10 ^ e) else dec m (Z.to_nat (- e)).

Definition exponent_part (s : string) : option Z :=
  match s with
  | EmptyString => Some 0
  | String c s' =>
      if Ascii.eqb c "e" || Ascii.eqb c "E" then
        let '(sign, t) := match startsWith "-" s' with
                          | Some t => (-1, t)
                          | None => (1, startsWith "+" s' ?? s')
                          end in
        match span_digits t with
        | (String _ _ as d, EmptyString) => Some (sign * digits_from 0 d)
        | _ => None
        end
      else None
  end.

Definition unsigned_decimal (s : string) : num :=
  if s === "Infinity" then pos_infinity else
  let '(whole, r) := span_digits s in
  let '(frac, r) := match startsWith "." r with Some t => span_digits t | None => ("", r) end in
  match whole +:+ frac, exponent_part r with
  | EmptyString, _ | _, None => S754_nan
  | d, Some e => scientific (digits_from 0 d) (e - Z.of_nat (String.length frac))
  end.

Definition hex_digit_value (c : ascii) : Z :=
  let n := Z.of_N (N_of_ascii c) in
  if is_digit c then n - 48
  else if (65 <=? n) && (n <=? 70) then n - 55
  else if (97 <=? n) && (n <=? 102) then n - 87
  else 16.
Fixpoint radix_from (radix acc : Z) (s : string) : option Z :=
  match s with
  | EmptyString => Some acc
  | String c s' =>
      if hex_digit_value c <? radix then radix_from radix (radix * acc + hex_digit_value c) s' else None
  end.
Definition radix_literal (s : string) : option (Z * string) :=
  match s with
  | String "0" (String x t) =>
      if Ascii.eqb x "x" || Ascii.eqb x "X" then Some (16, t)
      else if Ascii.eqb x "o" || Ascii.eqb x "O" then Some (8, t)
      else if Ascii.eqb x "b" || Ascii.eqb x "B" then Some (2, t)
      else None
  | _ => None
  end.

Definition Number (text : string) : num :=
  let s := trim text in
  match s with
  | EmptyString => S754_zero false
  | _ =>
      match radix_literal s with
      | Some (radix, EmptyString) => S754_nan
      | Some (radix, t) => match radix_from radix 0 t with Some n => of_Z n | None => S754_nan end
      | None =>
          match startsWith "-" s with
          | Some t => nopp (unsigned_decimal t)
          | None => unsigned_decimal (startsWith "+" s ?? s)
          end
      end
  end.

Example Number_examples :
  map Number [" 2437000000 "; ""; "-0"; "1.5e3"; "0x1F"; ".5"; "12px"; "1e"; "-Infinity"; "."] =
  [of_Z 2437000000; S754_zero false; S754_zero true; of_Z 1500; of_Z 31; dec 5 1; S754_nan; S754_nan; neg_infinity; S754_nan].
Proof. vm_compute. reflexivity. Qed.

(** ** What an integer prints *)

Fixpoint all_digits (s : string) : bool :=
  match s with EmptyString => true | String c s' => is_digit c && all_digits s' end.

Lemma pretty_N_char_digit n :
  (n < 10)%N -> is_digit (pretty_N_char n) = true /\ digit (pretty_N_char n) = Z.of_N n.
Proof.
  intros H. set (ok := fun k => is_digit (pretty_N_char k) && (digit (pretty_N_char k) =? Z.of_N k)).
  assert (forallb ok (map N.of_nat (seq 0 10)) = true) as Hall by reflexivity.
  rewrite forallb_forall in Hall. destruct (andb_prop _ _ (Hall n ltac:(apply in_map_iff; exists (N.to_nat n); rewrite in_seq; lia))) as [H1 H2].
  split; [exact H1|by apply Z.eqb_eq].
Qed.

Lemma pretty_N_go_spec x s :
  all_digits s = true -> all_digits (pretty_N_go x s) = true /\ digits_from 0 (pretty_N_go x s) = digits_from (Z.of_N x) s.
Proof.
  revert s. induction (N.lt_wf_0 x) as [x _ IH]. intros s Hs.
  destruct (decide (x = 0%N)) as [->|Hx]; [by rewrite pretty_N_go_0|].
  rewrite pretty_N_go_step by lia.
  destruct (pretty_N_char_digit (x `mod` 10)) as [Hd Hv]; [by apply N.mod_lt|].
  destruct (IH (x `div` 10)%N ltac:(apply N.div_lt; lia) (String (pretty_N_char (x `mod` 10)) s)) as [H1 H2].
  { cbn. by rewrite Hd. }
  split; [done|]. rewrite H2. cbn [digits_from]. rewrite Hv. f_equal.
  pose proof (N.div_mod x 10 ltac:(done)). lia.
Qed.

Lemma pretty_Z_digits n :
  0 <= n -> all_digits (pretty n) = true /\ pretty n <> "" /\ digits_from 0 (pretty n) = n.
Proof.
  intros Hn. destruct n as [|p|p]; [split_and!; done| |lia].
  change (pretty (Z.pos p)) with (pretty_N_go (N.pos p) "").
  destruct (pretty_N_go_spec (N.pos p) "") as [H1 H2]; [done|].
  split_and!; [done| |done]. intros E. rewrite E in H2. done.
Qed.

Lemma digit_not_space c : is_digit c = true -> is_space c = false.
Proof. destruct c as [[] [] [] [] [] [] [] []]; done. Qed.

Lemma trimEnd_digits s : all_digits s = true -> trimEnd s = s.
Proof.
  induction s as [|c s IH]; [done|]. cbn [all_digits]. intros [Hc Hs]%andb_true_iff.
  cbn [trimEnd all_space]. rewrite (digit_not_space c Hc). cbn [andb]. by rewrite IH.
Qed.

Lemma trim_digits s : all_digits s = true -> trim s = s.
Proof.
  intros H. unfold trim. rewrite trimEnd_digits.
  - destruct s as [|c s]; [done|]. cbn in *. apply andb_true_iff in H as [Hc _]. by rewrite digit_not_space.
  - destruct s as [|c s]; [done|]. cbn in *. destruct (andb_prop _ _ H) as [Hc _]. by rewrite digit_not_space.
Qed.

Lemma span_all_digits s : all_digits s = true -> span_digits s = (s, "").
Proof.
  induction s as [|c s IH]; [done|]. cbn [all_digits span_digits]. intros [Hc Hs]%andb_true_iff.
  by rewrite Hc, IH.
Qed.

(** An integer's decimal text is read as the nearest Number to it. *)
Lemma Number_pretty n : 0 <= n -> Number (pretty n) = of_Z n.
Proof.
  intros Hn. destruct (pretty_Z_digits n Hn) as (Hd & Hne & Hv).
  unfold Number. rewrite trim_digits by done. destruct (pretty n) as [|c s] eqn:E; [done|]. clear E Hne.
  assert (radix_literal (String c s) = None) as ->.
  { cbn in Hd. destruct (andb_prop _ _ Hd) as [_ Hs]. destruct s as [|x s]; [by each_char c|].
    cbn in Hs. destruct (andb_prop _ _ Hs) as [Hx _]. clear - Hx.
    destruct (Ascii.eqb_spec c "0") as [->|Hc]; [by each_char x|]. by each_char c. }
  assert (forall p, is_digit p = false -> startsWith (String p "") (String c s) = None) as Hp.
  { intros p Hp. cbn. destruct (Ascii.eqb_spec p c) as [->|]; [|done].
    cbn in Hd. destruct (andb_prop _ _ Hd). congruence. }
  rewrite (Hp "-"%char eq_refl), (Hp "+"%char eq_refl). unfold unsigned_decimal.
  assert ((String c s === "Infinity") = false) as ->.
  { apply String.eqb_neq. intros [= -> ->]. done. }
  rewrite span_all_digits by done. cbn [startsWith String.length Z.of_nat]. rewrite sapp_nil_r.
  cbn [exponent_part]. rewrite Hv. unfold scientific. cbn. by rewrite Z.mul_1_r.
Qed.
