(* ===== verification/UrlCodec.v ===== *)
(** * UrlCodec: the URL encodings of the host

    [encodeURIComponent] and [URLSearchParams] as the language and the URL
    standard define them, for strings of code units below 256, and the parser
    of the other side: percent-decoding, UTF-8, the splitting of a path at
    slashes and of a query at [&] and [=].  Encoding loses nothing, and what it
    writes holds no character that separates. *)
From Stdlib Require Import ZArith NArith Bool String Ascii List Lia.
From stdpp Require Import base option list strings.
From S2P Require Import Prelude JsString.

(** ** Encoding *)

(** The UTF-8 bytes of a code unit below 256. *)
Definition utf8 (c : ascii) : list N :=
  let n := N_of_ascii c in
  if (n <? 128)%N then [n] else [(192 + n / 64)%N; (128 + n mod 64)%N].

Definition hex_digit (n : N) : ascii := ascii_of_N (if (n <? 10)%N then 48 + n else 55 + n).
Definition pct (b : N) : string := String "%" (String (hex_digit (b / 16)) (String (hex_digit (b mod 16)) "")).
Definition pct_utf8 (c : ascii) : string := String.concat "" (map pct (utf8 c)).

Definition is_alnum (c : ascii) : bool :=
  let n := N_of_ascii c in
  ((48 <=? n) && (n <=? 57) || (65 <=? n) && (n <=? 90) || (97 <=? n) && (n <=? 122))%N.
Definition among (l : string) (c : ascii) : bool := existsb (Ascii.eqb c) (list_ascii_of_string l).

Definition uri_unit (c : ascii) : string :=
  if is_alnum c || among "-_.!~*'()" c then String c "" else pct_utf8 c.
Definition form_unit (c : ascii) : string :=
  if Ascii.eqb c " " then "+"
  else if is_alnum c || among "*-._" c then String c "" else pct_utf8 c.

Fixpoint encode_with (unit : ascii -> string) (s : string) : string :=
  match s with EmptyString => "" | String c s' => unit c +:+ encode_with unit s' end.

Definition encodeURIComponent : string -> string := encode_with uri_unit.
Definition form_encode : string -> string := encode_with form_unit.

(** ** [URLSearchParams]: [set] replaces the first entry of the name and drops
    the others, or appends; [toString] serialises in order. *)
Definition SearchParams := list (string * string).

Fixpoint replace_first (key value : string) (l : SearchParams) : SearchParams :=
  match l with
  | [] => []
  | (k, v) :: l' =>
      if k === key then (key, value) :: List.filter (fun e => e.1 !== key) l'
      else (k, v) :: replace_first key value l'
  end.
Definition params_set (key value : string) (l : SearchParams) : SearchParams :=
  if existsb (fun e => e.1 === key) l then replace_first key value l else l ++ [(key, value)].

Definition params_toString (l : SearchParams) : string :=
  join "&" (map (fun e => form_encode e.1 +:+ "=" +:+ form_encode e.2) l).

(** ** Decoding *)

Definition hex_value (c : ascii) : option N :=
  let n := N_of_ascii c in
  if ((48 <=? n) && (n <=? 57))%N then Some (n - 48)%N
  else if ((65 <=? n) && (n <=? 70))%N then Some (n - 55)%N
  else if ((97 <=? n) && (n <=? 102))%N then Some (n - 87)%N
  else None.

(** Percent-decoding to bytes; a percent sign without two digits stands for
    itself, and in a form a plus sign for a space. *)
Fixpoint pct_bytes (form : bool) (s : string) : list N :=
  match s with
  | EmptyString => []
  | String c s' =>
      let plain := if form && Ascii.eqb c "+" then [32%N] else utf8 c in
      match s' with
      | String h (String l s'') =>
          match Ascii.eqb c "%", hex_value h, hex_value l with
          | true, Some a, Some b => (16 * a + b)%N :: pct_bytes form s''
          | _, _, _ => plain ++ pct_bytes form s'
          end
      | _ => plain ++ pct_bytes form s'
      end
  end.

(** UTF-8 of code points below 256; other byte sequences are not text here. *)
Fixpoint utf8_decode (l : list N) : option string :=
  match l with
  | [] => Some ""
  | b :: l' =>
      if (b <? 128)%N then String (ascii_of_N b) <$> utf8_decode l'
      else match l' with
           | c :: l'' =>
               if ((194 <=? b) && (b <=? 195) && (128 <=? c) && (c <? 192))%N
               then String (ascii_of_N (64 * (b - 192) + (c - 128))) <$> utf8_decode l''
               else None
           | [] => None
           end
  end.

Definition decode (form : bool) (s : string) : option string := utf8_decode (pct_bytes form s).

(** [s.split(c)] for a one-character separator. *)
Fixpoint split_on (sep : ascii) (s : string) : list string :=
  match s with
  | EmptyString => [""]
  | String c s' =>
      if Ascii.eqb c sep then "" :: split_on sep s'
      else match split_on sep s' with
           | [] => [String c ""]
           | x :: l => String c x :: l
           end
  end.

(** The text before the first separator and, if there is one, after it. *)
Fixpoint split_first (sep : ascii) (s : string) : string * option string :=
  match s with
  | EmptyString => ("", None)
  | String c s' =>
      if Ascii.eqb c sep then ("", Some s')
      else let r := split_first sep s' in (String c r.1, r.2)
  end.

Definition parse_pair (piece : string) : option (string * string) :=
  let r := split_first "=" piece in
  match decode true r.1, decode true (r.2 ?? "") with
  | Some k, Some v => Some (k, v)
  | _, _ => None
  end.

(** The URL standard's form parser. *)
Definition form_parse (s : string) : option SearchParams :=
  mapM parse_pair (List.filter (fun p => p !== "") (split_on "&" s)).

(** The path and the query of a URL without a fragment, and the path's
    segments; a segment [.] or [..] is dropped with, for [..], the one before. *)
Definition url_path (url : string) : string := (split_first "?" (split_first "#" url).1).1.
Definition url_query (url : string) : option string := (split_first "?" (split_first "#" url).1).2.

Fixpoint dot_segments (kept : list string) (l : list string) : list string :=
  match l with
  | [] => kept
  | s :: l' =>
      if s === "." then dot_segments kept l'
      else if s === ".." then dot_segments (removelast kept) l'
      else dot_segments (kept ++ [s]) l'
  end.
Definition url_segments (url : string) : list string := dot_segments [] (tl (split_on "/" (url_path url))).

(** ** Encoding loses nothing *)

Definition sall (p : ascii -> bool) (s : string) : bool := forallb p (list_ascii_of_string s).

Lemma sall_app p a b : sall p (a +:+ b) = sall p a && sall p b.
Proof.
  unfold sall. induction a as [|c a IH]; [done|].
  rewrite sapp_cons. cbn. by rewrite IH, andb_assoc.
Qed.

Lemma sall_impl (p q : ascii -> bool) s :
  (forall c, p c = true -> q c = true) -> sall p s = true -> sall q s = true.
Proof. intros H. unfold sall. rewrite !forallb_forall. eauto. Qed.

Lemma utf8_decode_app c l : utf8_decode (utf8 c ++ l) = String c <$> utf8_decode l.
Proof. each_char c; reflexivity. Qed.

Lemma uri_unit_bytes form c s : pct_bytes false (uri_unit c +:+ s) = utf8 c ++ pct_bytes form s \/ form = true.
Proof. destruct form; [by right|left]. each_char c; cbn; try reflexivity; destruct s as [|? [|? ?]]; reflexivity. Qed.

Lemma form_unit_bytes c s : pct_bytes true (form_unit c +:+ s) = utf8 c ++ pct_bytes true s.
Proof. each_char c; cbn; try reflexivity; destruct s as [|? [|? ?]]; reflexivity. Qed.

Lemma decode_with unit form :
  (forall c s, pct_bytes form (unit c +:+ s) = utf8 c ++ pct_bytes form s) ->
  forall s, decode form (encode_with unit s) = Some s.
Proof.
  intros H s. unfold decode. induction s as [|c s IH]; [done|].
  cbn [encode_with]. by rewrite H, utf8_decode_app, IH.
Qed.

Lemma decode_encodeURIComponent s : decode false (encodeURIComponent s) = Some s.
Proof. apply decode_with. intros c r. by destruct (uri_unit_bytes false c r). Qed.

Lemma decode_form_encode s : decode true (form_encode s) = Some s.
Proof. apply decode_with, form_unit_bytes. Qed.

(** ** What is written holds no separator *)

Definition form_safe (c : ascii) : bool := is_alnum c || among "*-._+%" c.
Definition uri_safe (c : ascii) : bool := is_alnum c || among "-_.!~*'()%" c.

Lemma sall_encode_with p unit :
  (forall c, sall p (unit c) = true) -> forall s, sall p (encode_with unit s) = true.
Proof. intros H s. induction s as [|c s IH]; [done|]. cbn [encode_with]. by rewrite sall_app, H, IH. Qed.

Lemma form_encode_safe s : sall form_safe (form_encode s) = true.
Proof. apply sall_encode_with. intros c. each_char c; reflexivity. Qed.

Lemma encodeURIComponent_safe s : sall uri_safe (encodeURIComponent s) = true.
Proof. apply sall_encode_with. intros c. each_char c; reflexivity. Qed.

Definition free_of (sep : ascii) (s : string) : Prop := sall (fun c => negb (Ascii.eqb c sep)) s = true.

Lemma free_of_impl p sep s : p sep = false -> sall p s = true -> free_of sep s.
Proof.
  intros Hp. apply sall_impl. intros c Hc. destruct (Ascii.eqb_spec c sep) as [->|]; [congruence|done].
Qed.

Lemma form_encode_free sep s : form_safe sep = false -> free_of sep (form_encode s).
Proof. intros H. exact (free_of_impl _ _ _ H (form_encode_safe s)). Qed.
Lemma encodeURIComponent_free sep s : uri_safe sep = false -> free_of sep (encodeURIComponent s).
Proof. intros H. exact (free_of_impl _ _ _ H (encodeURIComponent_safe s)). Qed.
#[export] Hint Resolve form_encode_free encodeURIComponent_free : js.

Lemma free_of_app sep a b : free_of sep (a +:+ b) <-> free_of sep a /\ free_of sep b.
Proof. unfold free_of. by rewrite sall_app, andb_true_iff. Qed.

Lemma free_of_cons sep c a : free_of sep (String c a) <-> c <> sep /\ free_of sep a.
Proof.
  unfold free_of, sall. cbn. rewrite andb_true_iff, negb_true_iff.
  destruct (Ascii.eqb_spec c sep); intuition congruence.
Qed.

Lemma split_on_free sep a : free_of sep a -> split_on sep a = [a].
Proof.
  induction a as [|c a IH]; [done|]. rewrite free_of_cons. intros [Hc Ha]. cbn.
  destruct (Ascii.eqb_spec c sep); [done|]. by rewrite IH.
Qed.

Lemma split_on_app sep a b : free_of sep a -> split_on sep (a +:+ String sep b) = a :: split_on sep b.
Proof.
  induction a as [|c a IH].
  - intros _. rewrite sapp_nil. cbn [split_on split_first]. by rewrite Ascii.eqb_refl.
  - rewrite free_of_cons. intros [Hc Ha]. rewrite sapp_cons. cbn.
    destruct (Ascii.eqb_spec c sep); [done|]. by rewrite IH.
Qed.

Lemma split_first_free sep a : free_of sep a -> split_first sep a = (a, None).
Proof.
  induction a as [|c a IH]; [done|]. rewrite free_of_cons. intros [Hc Ha]. cbn.
  destruct (Ascii.eqb_spec c sep); [done|]. by rewrite IH.
Qed.

Lemma split_first_app sep a b : free_of sep a -> split_first sep (a +:+ String sep b) = (a, Some b).
Proof.
  induction a as [|c a IH].
  - intros _. rewrite sapp_nil. cbn [split_on split_first]. by rewrite Ascii.eqb_refl.
  - rewrite free_of_cons. intros [Hc Ha]. rewrite sapp_cons. cbn.
    destruct (Ascii.eqb_spec c sep); [done|]. by rewrite IH.
Qed.

(** [join] then [split] on a separator the pieces do not hold. *)
Lemma split_on_join sep l :
  l <> [] -> List.Forall (free_of sep) l -> split_on sep (join (String sep "") l) = l.
Proof.
  intros Hne H. induction H as [|x l Hx Hl IH]; [done|].
  destruct l as [|y l]; [by apply split_on_free|].
  change (join (String sep "") (x :: y :: l)) with (x +:+ String sep (join (String sep "") (y :: l))).
  by rewrite split_on_app, IH.
Qed.

Lemma free_of_join sep s l :
  free_of sep s -> List.Forall (free_of sep) l -> free_of sep (join s l).
Proof.
  intros Hs H. induction H as [|x [|y l] Hx Hl IH]; [done|done|].
  change (join s (x :: y :: l)) with (x +:+ s +:+ join s (y :: l)).
  rewrite !free_of_app. auto.
Qed.

Lemma params_toString_free sep l :
  form_safe sep = false -> sep <> "&"%char -> sep <> "="%char -> free_of sep (params_toString l).
Proof.
  intros H1 H2 H3. apply free_of_join.
  - apply free_of_cons. split; [congruence|done].
  - apply List.Forall_map, List.Forall_forall. intros e _. rewrite !free_of_app.
    split_and!; auto with js. apply free_of_cons. split; [congruence|done].
Qed.

(** The form parser reads back what [toString] wrote. *)
Lemma form_parse_toString l : form_parse (params_toString l) = Some l.
Proof.
  unfold form_parse, params_toString. destruct l as [|e l]; [done|].
  rewrite split_on_join; [|done|].
  - rewrite filter_all.
    + apply mapM_Some_2. rewrite Forall2_fmap_l. apply Forall_Forall2_diag, Forall_forall.
      intros [k v] _. unfold compose, parse_pair. cbn [fst snd].
      change ("=" +:+ form_encode v) with (String "=" (form_encode v)).
      rewrite split_first_app by (apply form_encode_free; done).
      cbn [fst snd]. by rewrite !decode_form_encode.
    + intros p (e'&<-&_)%in_map_iff. destruct (form_encode e'.1); done.
  - apply List.Forall_map, List.Forall_forall. intros e' _. rewrite !free_of_app.
    split_and!; auto with js. done.
Qed.

(** ** Paths *)

Lemma dot_segments_plain l kept :
  List.Forall (fun s => s <> "." /\ s <> "..") l -> dot_segments kept l = kept ++ l.
Proof.
  intros H. revert kept. induction H as [|s l [H1 H2] Hl IH]; intros kept; cbn; [by rewrite app_nil_r|].
  destruct (String.eqb_spec s "."); [done|]. destruct (String.eqb_spec s ".."); [done|].
  by rewrite IH, <- app_assoc.
Qed.

(** An encoded text is a dot segment only if the text is. *)
Lemma encodeURIComponent_eq s t :
  encodeURIComponent t = t -> encodeURIComponent s = t -> s = t.
Proof.
  intros Ht Hs. assert (decode false (encodeURIComponent s) = decode false (encodeURIComponent t)) as H by congruence.
  rewrite !decode_encodeURIComponent in H. congruence.
Qed.
