(* ===== verification/Format.v ===== *)
(** * Format: what numbers, spans and names look like

    [lib/format.ts], the conversions of [lib/units.ts], and the headline of
    [features/tracks/share/share-card-model.ts].  Numbers are binary64 values
    where the code takes any number; byte counts and counters are integers.
    [Intl] date formatting is the host's and is not modelled. *)
From Stdlib Require Import ZArith Bool String Ascii List Lia Floats.SpecFloat.
From stdpp Require Import base option list strings pretty.
From S2P Require Import Prelude JsNumber JsDate JsString.

Definition EMPTY : string := "—".

(** A no-break space. *)
Definition nbsp : string := String (ascii_of_nat 160) "".

(** [String(x)] for the integer results of [Math.floor] and [Math.round]. *)
Definition int_string (z : option Z) : string := match z with Some z => pretty z | None => "NaN" end.

Definition formatLatLon (lat lon : num) : string := toFixed 6 lat +:+ ", " +:+ toFixed 6 lon.

Definition formatNumber (value : option num) (digits : nat) (unit : string) : string :=
  match value with
  | None => EMPTY
  | Some v =>
      if is_nan v then EMPTY
      else toFixed digits v +:+ (match unit with EmptyString => "" | _ => nbsp +:+ unit end)
  end.
Definition formatMetres (value : option num) : string := formatNumber value 1 "m".
Definition formatSpeed (value : option num) : string := formatNumber value 1 "m/s".
Definition formatRssi (value : option num) : string := formatNumber value 0 "dBm".

Definition formatHeading (value : option num) : string :=
  match value with
  | None => EMPTY
  | Some v => if is_nan v then EMPTY else int_string (round_Z v) +:+ "°"
  end.

Definition formatConfidence (value : num) : string :=
  int_string (round_Z (nmul value (of_Z 100))) +:+ "%".

(** [formatBytes]: two halvings at most after the first. *)
Fixpoint scale_bytes (fuel : nat) (value : num) (unit : nat) : num * nat :=
  match fuel with
  | O => (value, unit)
  | S fuel' =>
      if nge value (of_Z 1024) && (unit <? 2)%nat
      then scale_bytes fuel' (ndiv value (of_Z 1024)) (S unit)
      else (value, unit)
  end.
Definition formatBytes (bytes : num) : string :=
  if nlt bytes (of_Z 1024) then num_string bytes +:+ " B"
  else
    let '(value, unit) := scale_bytes 2 (ndiv bytes (of_Z 1024)) 0 in
    toFixed 1 value +:+ nbsp +:+ List.nth unit ["KiB"; "MiB"; "GiB"] "".

Definition div_floor (x : num) (p : Z) : num := ndiv x (of_Z p).

Definition formatDuration (seconds : num) : string :=
  if negb (is_finite seconds) || nlt seconds (of_Z 0) then EMPTY
  else
    let s := floor_Z (nmod seconds (of_Z 60)) ?? 0 in
    let m := floor_Z (nmod (div_floor seconds 60) (of_Z 60)) ?? 0 in
    let h := floor_Z (nmod (div_floor seconds 3600) (of_Z 24)) ?? 0 in
    let d := floor_Z (div_floor seconds 86400) ?? 0 in
    if 0 <? d then pretty d +:+ "d " +:+ pretty h +:+ "h"
    else if 0 <? h then pretty h +:+ "h " +:+ pretty m +:+ "m"
    else if 0 <? m then pretty m +:+ "m " +:+ pretty s +:+ "s"
    else pretty s +:+ "s".

Definition formatRelative (iso : option string) (now : Z) : string :=
  match truthy iso with
  | None => EMPTY
  | Some iso =>
      match Date_parse iso with
      | None => EMPTY
      | Some then_ =>
          let delta := Z.max 0 (round_Z (ndiv (of_Z (now - then_)) (of_Z 1000)) ?? 0) in
          if delta <? 5 then "just now"
          else if delta <? 60 then pretty delta +:+ "s ago"
          else if delta <? 3600 then pretty (delta / 60) +:+ "m ago"
          else if delta <? 86400 then pretty (delta / 3600) +:+ "h ago"
          else pretty (delta / 86400) +:+ "d ago"
      end
  end.

(** The first ["T"] by a space; the second replacement puts back what it takes. *)
Fixpoint replace_first (c : ascii) (by' : string) (s : string) : string :=
  match s with
  | EmptyString => ""
  | String d s' => if Ascii.eqb d c then by' +:+ s' else String d (replace_first c by' s')
  end.
Definition formatTimestamp (iso : option string) : string :=
  match truthy iso with
  | None => EMPTY
  | Some iso =>
      match Date_parse iso with
      | None => EMPTY
      | Some t => replace_first "Z" "Z" (replace_first "T" " " (toISOString t))
      end
  end.

Record SplitSerial := { sp_manufacturerCode : option string; sp_rest : option string }.
Definition splitSerial (serial : option string) : SplitSerial :=
  match truthy serial with
  | None => {| sp_manufacturerCode := None; sp_rest := serial |}
  | Some s =>
      if slen s <? 5 then {| sp_manufacturerCode := None; sp_rest := Some s |}
      else {| sp_manufacturerCode := Some (slice 0 4 s); sp_rest := Some (slice_from 4 s) |}
  end.

(** ** Go durations *)

(** A decimal number of the pattern [\d+(?:\.\d+)?]: its value as a Number, and the
    rest of the text. *)
Fixpoint take_digits (s : string) : string * string :=
  match s with
  | String c s' =>
      if is_digit c then let '(d, r) := take_digits s' in (String c d, r) else ("", s)
  | EmptyString => ("", "")
  end.
Fixpoint digits_value (acc : Z) (s : string) : Z :=
  match s with
  | String c s' => digits_value (10 * acc + digit c) s'
  | EmptyString => acc
  end.
Definition read_decimal (s : string) : option (num * string) :=
  let '(d, r) := take_digits s in
  match d with
  | EmptyString => None
  | _ =>
      match r with
      | String "." r' =>
          let '(f, r'') := take_digits r' in
          match f with
          | EmptyString => Some (of_Z (digits_value 0 d), r)
          | _ => Some (dec (digits_value 0 (d +:+ f)) (String.length f), r'')
          end
      | _ => Some (of_Z (digits_value 0 d), r)
      end
  end.

(** An optional component with its unit letter: what it reads, and the rest. *)
Definition read_unit (u : ascii) (s : string) : option num * string :=
  match read_decimal s with
  | Some (x, String c r) => if Ascii.eqb c u then (Some x, r) else (None, s)
  | _ => (None, s)
  end.

Definition is_integer (x : num) : bool :=
  match floor_Z x with Some z => neq x (of_Z z) | None => false end.

Definition plural (x : num) (one many : string) : string :=
  int_string (floor_Z x) +:+ " " +:+ (if neq x (of_Z 1) then one else many).

Definition formatGoDuration (raw : option string) : string :=
  match truthy raw with
  | None => EMPTY
  | Some raw =>
      let text := trim raw in
      let '(neg, body) := match startsWith "-" text with Some r => (true, r) | None => (false, text) end in
      let '(h, r1) := read_unit "h" body in
      let '(mi, r2) := read_unit "m" r1 in
      let '(s, r3) := read_unit "s" r2 in
      match r3, h, mi, s with
      | String _ _, _, _, _ => text
      | EmptyString, None, None, None => text
      | EmptyString, _, _, _ =>
          let zero := of_Z 0 in
          let total := nadd (nadd (nmul (h ?? zero) (of_Z 3600)) (nmul (mi ?? zero) (of_Z 60))) (s ?? zero) in
          if negb (is_finite total) || nle total zero then text
          else
            let sign := if neg then "-" else "" in
            let days := ndiv total (of_Z 86400) in
            let asHours := ndiv total (of_Z 3600) in
            let asMinutes := ndiv total (of_Z 60) in
            if nge days (of_Z 1) && is_integer days then sign +:+ plural days "day" "days"
            else if nge asHours (of_Z 1) && is_integer asHours then sign +:+ plural asHours "hour" "hours"
            else if nge asMinutes (of_Z 1) && is_integer asMinutes then sign +:+ plural asMinutes "minute" "minutes"
            else sign +:+ formatDuration total
      end
  end.

(** ** units.ts: conversions *)

Inductive UnitSystem := metric | imperial | aviation.

Definition FEET_PER_METRE : num := dec 3280839895013123 15.
Definition KNOTS_PER_MPS : num := dec 19438444924406046 16.
Definition MPH_PER_MPS : num := dec 22369362920544025 16.
Definition NM_PER_METRE : num := ndiv (of_Z 1) (of_Z 1852).
Definition MILES_PER_METRE : num := ndiv (of_Z 1) (dec 1609344 3).

Record Converted := { cv_value : num; cv_unit : string; cv_digits : nat }.
Definition converted (v : num) (u : string) (d : nat) : Converted :=
  {| cv_value := v; cv_unit := u; cv_digits := d |}.

Definition convertLength (metres : num) (system : UnitSystem) : Converted :=
  match system with
  | metric => converted metres "m" 1
  | _ => converted (nmul metres FEET_PER_METRE) "ft" 0
  end.

Definition convertRange (metres : num) (system : UnitSystem) : Converted :=
  match system with
  | metric =>
      if nge metres (of_Z 1000) then converted (ndiv metres (of_Z 1000)) "km" 2
      else converted metres "m" 0
  | aviation =>
      if nge metres (of_Z 1852) then converted (nmul metres NM_PER_METRE) "NM" 2
      else converted (nmul metres FEET_PER_METRE) "ft" 0
  | imperial =>
      if nge metres (dec 1609344 3) then converted (nmul metres MILES_PER_METRE) "mi" 2
      else converted (nmul metres FEET_PER_METRE) "ft" 0
  end.

Definition convertSpeed (mps : num) (system : UnitSystem) : Converted :=
  match system with
  | metric => converted mps "m/s" 1
  | aviation => converted (nmul mps KNOTS_PER_MPS) "kt" 0
  | imperial => converted (nmul mps MPH_PER_MPS) "mph" 0
  end.

Definition convertAltitudeFeet (feet : num) (system : UnitSystem) : Converted :=
  match system with
  | metric => converted (ndiv feet FEET_PER_METRE) "m" 0
  | _ => converted feet "ft" 0
  end.

Inductive CoordFormat := cf_decimal | cf_dms | cf_ddm.
Inductive Axis := axis_lat | axis_lon.

Record DmsParts := { dms_deg : num; dms_min : num; dms_sec : num }.
(** [Math.floor] as a Number. *)
Definition nfloor (x : num) : num := match floor_Z x with Some z => of_Z z | None => x end.
Definition dmsParts (value : num) : DmsParts :=
  let a := nabs value in
  let deg := nfloor a in
  let minFloat := nmul (nsub a deg) (of_Z 60) in
  let mn := nfloor minFloat in
  {| dms_deg := deg; dms_min := mn; dms_sec := nmul (nsub minFloat mn) (of_Z 60) |}.

Definition quote2 : string := String "034"%char "".

Definition formatCoordinate (value : num) (axis : Axis) (format : CoordFormat) : string :=
  if negb (is_finite value) then EMPTY
  else
    let positive := nge value (of_Z 0) in
    let hemisphere := match axis with
                      | axis_lat => if positive then "N" else "S"
                      | axis_lon => if positive then "E" else "W"
                      end in
    let p := dmsParts value in
    let pad := match axis with axis_lat => 2%nat | axis_lon => 3%nat end in
    let deg := padStart pad (int_string (floor_Z (dms_deg p))) in
    match format with
    | cf_decimal => toFixed 6 value
    | cf_ddm =>
        let minutes := nadd (dms_min p) (ndiv (dms_sec p) (of_Z 60)) in
        deg +:+ "°" +:+ padStart 6 (toFixed 3 minutes) +:+ "' " +:+ hemisphere
    | cf_dms =>
        deg +:+ "°" +:+ padStart 2 (int_string (floor_Z (dms_min p))) +:+ "'" +:+
        padStart 4 (toFixed 1 (dms_sec p)) +:+ quote2 +:+ " " +:+ hemisphere
    end.
Definition formatCoordinatePair (lat lon : num) (format : CoordFormat) : string :=
  formatCoordinate lat axis_lat format +:+ ", " +:+ formatCoordinate lon axis_lon format.

(** ** share-card-model.ts: the headline and its spans *)

Definition titled (value : string) : string :=
  join " " (map (fun w => if slen w <=? 3 then toUpperCase w else capitalize w) (words value)).

Definition formatHeadline (vendor uaType : string) : string :=
  match List.filter (fun v => (v !== "") && (v !== EMPTY)) [vendor; uaType] with
  | [] => "Unidentified aircraft"
  | parts => join " " (map titled parts)
  end.

Definition formatSpan (firstSeen lastSeen : option string) : string :=
  match truthy firstSeen, truthy lastSeen with
  | Some f, Some l =>
      match Date_parse f, Date_parse l with
      | Some f, Some l =>
          let ms := l - f in
          if ms <? 0 then EMPTY
          else
            let seconds := round_Z (ndiv (of_Z ms) (of_Z 1000)) ?? 0 in
            if seconds <? 60 then pretty seconds +:+ "s"
            else
              let minutes := seconds / 60 in
              if minutes <? 60 then pretty minutes +:+ "m " +:+ pretty (seconds mod 60) +:+ "s"
              else pretty (minutes / 60) +:+ "h " +:+ pretty (minutes mod 60) +:+ "m"
      | _, _ => EMPTY
      end
  | _, _ => EMPTY
  end.

Example headline_ex : formatHeadline "dji" "multirotor" = "DJI Multirotor".
Proof. reflexivity. Qed.
Example go_ex : formatGoDuration (Some "2160h0m0s") = "90 days".
Proof. vm_compute. reflexivity. Qed.
Example go_ex2 : formatGoDuration (Some "1h30m") = "90 minutes".
Proof. vm_compute. reflexivity. Qed.
Example dur_ex : formatDuration (of_Z 3725) = "1h 2m".
Proof. vm_compute. reflexivity. Qed.
Example bytes_ex : formatBytes (of_Z 1073741824) = "1.0" +:+ nbsp +:+ "GiB".
Proof. vm_compute. reflexivity. Qed.
Example dec_ex : dec 1 1 = of_ratio 1 10.
Proof. vm_compute. reflexivity. Qed.
Example ddm_ex : formatCoordinate (dec 514775 4) axis_lat cf_ddm = "51°28.650' N".
Proof. vm_compute. reflexivity. Qed.
