(* ===== verification/ApiTypes.v ===== *)
(** * ApiTypes: the data the API sends the console

    The interfaces of [lib/api/types.ts] and the generated [lib/api/schema.gen.ts]
    that the modelled components read.  A TypeScript field that is optional,
    nullable or both is an [option]; string unions are inductive types with their
    wire spelling beside them; a field the schema declares an integer is a [Z],
    any other number a [num].  Each record's fields keep the source's names
    behind a prefix ([tr_], [dt_], [sh_], ...) because Rocq field names are
    global. *)
From Stdlib Require Import ZArith Bool String List.
From stdpp Require Import base option list strings.
From S2P Require Import Prelude JsNumber.

(** ** Schema-less JSON, for the [Record<string, unknown>] fields *)
#[warnings="-register-all"]
Inductive json :=
| JNull
| JBool (b : bool)
| JNum (n : num)
| JStr (s : string)
| JArr (l : list json)
| JObj (fields : list (string * json)).

(** [obj.key] on a parsed object: the value of the key, [None] for undefined. *)
Fixpoint assoc {A} (key : string) (l : list (string * A)) : option A :=
  match l with
  | [] => None
  | (k, v) :: l' => if k === key then Some v else assoc key l'
  end.

(** ** schema.gen.ts *)

Inductive SensorKind := wifi | sdr | ble | net.
Inductive DetectionClass := ClsA | ClsB | ClsC | ClsD | ClsE | ClsF | ClsG | ClsH.
Inductive TrackState := TENTATIVE | CONFIRMED | COASTING | CLOSED.

#[export] Instance SensorKind_eq_dec : EqDecision SensorKind.
Proof. solve_decision. Defined.
#[export] Instance DetectionClass_eq_dec : EqDecision DetectionClass.
Proof. solve_decision. Defined.
#[export] Instance TrackState_eq_dec : EqDecision TrackState.
Proof. solve_decision. Defined.

Definition SensorKind_string (k : SensorKind) : string :=
  match k with wifi => "wifi" | sdr => "sdr" | ble => "ble" | net => "net" end.
Definition DetectionClass_string (c : DetectionClass) : string :=
  match c with
  | ClsA => "A" | ClsB => "B" | ClsC => "C" | ClsD => "D"
  | ClsE => "E" | ClsF => "F" | ClsG => "G" | ClsH => "H"
  end.
Definition TrackState_string (s : TrackState) : string :=
  match s with
  | TENTATIVE => "TENTATIVE" | CONFIRMED => "CONFIRMED"
  | COASTING => "COASTING" | CLOSED => "CLOSED"
  end.

Record Position := {
  ps_lat : num;
  ps_lon : num;
  ps_alt_geodetic_m : option num;
  ps_height_agl_m : option num;
  ps_terrain_elevation_m : option num;
  ps_speed_mps : option num;
  ps_track_deg : option num;
  ps_at : option string
}.

Record TrackIdentity := {
  ti_serial : option string;
  ti_macs : option (list string);
  ti_vendor : option string;
  ti_manufacturer_code : option string;
  ti_model_hint : option string;
  ti_operator_id : option string;
  ti_ua_type : option string
}.

Record Evidence := {
  ev_class : DetectionClass;
  ev_sensor_kind : SensorKind;
  ev_weight : num;
  ev_count : Z;
  ev_last_seen : option string
}.

Record Receiver := {
  rc_sensor_id : string;
  rc_sensor_kind : SensorKind;
  rc_detection_count : Z;
  rc_rssi_dbm : option num;
  rc_last_seen : option string
}.

Record Track := {
  tr_track_id : string;
  tr_state : TrackState;
  tr_first_seen : string;
  tr_last_seen : string;
  tr_detection_count : Z;
  tr_identity : option TrackIdentity;
  tr_confidence : num;
  tr_evidence : option (list Evidence);
  tr_current : option Position;
  tr_history : option (list Position);
  tr_operator : option Position;
  tr_rssi_dbm : option num;
  tr_receivers : option (list Receiver);
  tr_adsb_correlated : option bool
}.

(** A track as it arrives on the wire, before normalisation: the evidence may be
    the schema's array or an object keyed by class, and the correlation flag may
    sit under [suppression]. *)
Inductive RawEvidence :=
| ev_absent
| ev_array (l : list Evidence)
| ev_object (l : list (string * option Evidence))
| ev_scalar.

Record RawTrack := {
  raw_track : Track;
  raw_evidence : RawEvidence;
  raw_suppression : option bool
}.

Record DetectionRf := {
  rf_freq_hz : option num;
  rf_channel : option Z;
  rf_rssi_dbm : option num;
  rf_bandwidth_hz : option num;
  rf_snr_db : option num
}.

Record DetectionIdentity := {
  di_serial : option string;
  di_mac : option string;
  di_id_type : option string;
  di_ua_type : option string;
  di_operator_id : option string;
  di_self_id : option string;
  di_vendor_hint : option string
}.

Record DetectionPosition := {
  dp_lat : num;
  dp_lon : num;
  dp_alt_geodetic_m : option num;
  dp_alt_pressure_m : option num;
  dp_height_agl_m : option num;
  dp_h_accuracy_m : option num;
  dp_v_accuracy_m : option num
}.

Record Kinematics := {
  kn_speed_mps : option num;
  kn_track_deg : option num;
  kn_vertical_speed_mps : option num
}.

Record DetectionOperator := { op_lat : num; op_lon : num; op_alt_m : option num }.

Record SignalFeatures := {
  sf_burst_rate_hz : option num;
  sf_burst_duration_us : option num;
  sf_duty_cycle : option num;
  sf_hop_count : option Z;
  sf_occupied_bw_hz : option num;
  sf_protocol_hint : option string
}.

Record Adsb := {
  ad_icao : string;
  ad_callsign : option string;
  ad_alt_ft : option num;
  ad_ground_speed_kt : option num
}.

Record RawBytes := { rw_bytes : string; rw_parser : string }.

Record Detection := {
  dt_detection_id : string;
  dt_ts : string;
  dt_sensor_id : string;
  dt_sensor_kind : SensorKind;
  dt_detection_class : DetectionClass;
  dt_rf : option DetectionRf;
  dt_identity : option DetectionIdentity;
  dt_position : option DetectionPosition;
  dt_kinematics : option Kinematics;
  dt_operator : option DetectionOperator;
  dt_signal_features : option SignalFeatures;
  dt_adsb : option Adsb;
  dt_raw : option RawBytes
}.

(** ** types.ts: health *)

Inductive SystemStatus := sys_ok | sys_degraded | sys_down.
#[export] Instance SystemStatus_eq_dec : EqDecision SystemStatus.
Proof. solve_decision. Defined.
Definition SystemStatus_string (s : SystemStatus) : string :=
  match s with sys_ok => "ok" | sys_degraded => "degraded" | sys_down => "down" end.

Record SensorCaptureConfig := {
  cc_supported : bool;
  cc_interface : option string;
  cc_channel : option Z;
  cc_duration_s : option num;
  cc_label : option string
}.

Record SensorRuntimeConfig := {
  rt_unit : string;
  rt_stale_after_s : num;
  rt_expected : bool;
  rt_restart_command : string;
  rt_restart_available : bool;
  rt_restart_unavailable_reason : option string;
  rt_capture : SensorCaptureConfig
}.

Record SensorHealth := {
  sh_sensor_id : string;
  sh_sensor_kind : SensorKind;
  sh_healthy : bool;
  sh_last_heartbeat : string;
  sh_seconds_since_heartbeat : num;
  sh_detections_5m : option Z;
  sh_reason : option string;
  sh_detail : option (list (string * json));
  sh_optional : option bool;
  sh_config : option SensorRuntimeConfig
}.

Record Health := {
  hl_status : SystemStatus;
  hl_uptime_s : num;
  hl_version : string;
  hl_sensors : list SensorHealth
}.

(** ** types.ts: telemetry *)

Record TelemetrySensorSample := {
  tss_sensor_id : string;
  tss_sensor_kind : SensorKind;
  tss_healthy : bool;
  tss_metrics : option (list (string * num))
}.

Record TelemetrySample := {
  tm_ts : string;
  tm_cpu_temp_c : option num;
  tm_load1 : option num;
  tm_mem_available_kb : option num;
  tm_disk_free_bytes : option num;
  tm_uptime_s : option num;
  tm_sensors : option (list TelemetrySensorSample)
}.

Record TelemetryResponse := {
  te_samples : list TelemetrySample;
  te_since : string;
  te_until : string;
  te_truncated : bool
}.

(** ** types.ts: the unit *)

Record SystemBuild := {
  bd_version : string;
  bd_go_version : string;
  bd_revision : option string;
  bd_revision_dirty : option bool;
  bd_built_at : option string
}.
Record SystemRuntime := {
  ru_listen : string;
  ru_store : string;
  ru_ui_dir : string;
  ru_capture_dir : string;
  ru_turso_sync_configured : bool;
  ru_containerised : bool
}.
Record SystemHost := {
  ho_uptime_s : option num;
  ho_load1 : option num;
  ho_load5 : option num;
  ho_load15 : option num;
  ho_cpu_count : num;
  ho_cpu_temp_c : option num;
  ho_mem_total_kb : option num;
  ho_mem_available_kb : option num;
  ho_disk_path : string;
  ho_disk_total_bytes : option num;
  ho_disk_free_bytes : option num;
  ho_unavailable : option (list (string * string))
}.
Record SystemInfo := { sy_build : SystemBuild; sy_runtime : SystemRuntime; sy_host : SystemHost }.

(** ** types.ts: tracks and detections *)

Record TracksResponse := {
  trs_tracks : list Track;
  trs_next_cursor : option string;
  trs_total : Z
}.

Record DetectionsResponse := {
  drs_detections : list Detection;
  drs_next_cursor : option string;
  drs_total : Z
}.

Record TracksQuery := {
  tq_state : option (list TrackState);
  tq_since : option string;
  tq_until : option string;
  tq_serial : option string;
  tq_vendor : option string;
  tq_min_confidence : option num;
  tq_limit : option Z;
  tq_cursor : option string
}.

Inductive AircraftFlag := flag_none | flag_known | flag_watch | flag_ignore.

Record AircraftLabel := {
  al_serial : string;
  al_label : string;
  al_flag : AircraftFlag;
  al_updated_at : string
}.

Record DetectionsQuery := {
  dq_class : option (list DetectionClass);
  dq_sensor_id : option string;
  dq_since : option string;
  dq_limit : option Z;
  dq_cursor : option string
}.

(** ** types.ts: captures *)

Inductive CaptureState := cap_running | cap_completed | cap_failed.
#[export] Instance CaptureState_eq_dec : EqDecision CaptureState.
Proof. solve_decision. Defined.
Definition CaptureState_string (s : CaptureState) : string :=
  match s with
  | cap_running => "running" | cap_completed => "completed" | cap_failed => "failed"
  end.

Record CaptureAnalysisSummary := {
  cas_analyzed : bool;
  cas_drone_transmitters : option Z;
  cas_class_a : option Z;
  cas_class_b : option Z
}.

Record Capture := {
  cp_capture_id : string;
  cp_filename : string;
  cp_state : CaptureState;
  cp_started_at : string;
  cp_ended_at : option string;
  cp_iface : string;
  cp_channel : Z;
  cp_duration_s : num;
  cp_size_bytes : Z;
  cp_frame_count : Z;
  cp_label : option string;
  cp_error : option string;
  cp_analysis : option CaptureAnalysisSummary
}.

(** ** types.ts: receiver position *)

Record ReceiverPosition := { rp_lat : num; rp_lon : num }.

(** Checked, not cast: anything but an object with two numeric fields is null. *)
Definition asReceiverPosition (value : json) : option ReceiverPosition :=
  match value with
  | JObj position =>
      match assoc "lat" position, assoc "lon" position with
      | Some (JNum lat), Some (JNum lon) => Some {| rp_lat := lat; rp_lon := lon |}
      | _, _ => None
      end
  | _ => None
  end.

(** ** types.ts: the live stream *)

Inductive StreamTopic :=
  topic_tracks | topic_health | topic_detections | topic_captures | topic_spectrum.

Inductive ClientFrame :=
| SubscribeMessage (topics : list StreamTopic)
| PongMessage.

Record MonitoringState := {
  mn_enabled : bool;
  mn_since : string;
  mn_reason : option string;
  mn_discarded_while_paused : Z
}.

Inductive SweepState := sweep_running | sweep_completed | sweep_failed.
#[export] Instance SweepState_eq_dec : EqDecision SweepState.
Proof. solve_decision. Defined.
Definition SweepState_string (s : SweepState) : string :=
  match s with
  | sweep_running => "running" | sweep_completed => "completed" | sweep_failed => "failed"
  end.

Record SpectrumSweep := {
  sw_sweep_id : string;
  sw_band : string;
  sw_state : SweepState;
  sw_started_at : string;
  sw_ended_at : option string;
  sw_class : option string;
  sw_note : option string;
  sw_start_hz : option num;
  sw_stop_hz : option num;
  sw_steps : option Z;
  sw_noise_floor_dbfs : option num;
  sw_threshold_dbfs : option num;
  sw_peak_dbfs : option num;
  sw_peak_hz : option num;
  sw_short_reads : option Z;
  sw_error : option string
}.

Record SpectrumTrace := {
  st_start_hz : num;
  st_stop_hz : num;
  st_bin_width_hz : num;
  st_dbfs : list (option num);
  st_blind : Z
}.

Record SpectrumBand := {
  sb_name : string; sb_class : string; sb_note : string; sb_start_hz : num; sb_stop_hz : num; sb_steps : Z
}.
Record SpectrumBandsResponse := {
  sbr_bands : list SpectrumBand; sbr_available : bool; sbr_reason : option string; sbr_running_sweep_id : option string
}.
Record SpectrumStepPeak := { sp_center_hz : num; sp_peak_hz : option num; sp_peak_dbfs : option num }.
Record SpectrumSweepDetail := {
  sd_sweep : SpectrumSweep; sd_trace : option SpectrumTrace; sd_step_peaks : option (list SpectrumStepPeak)
}.
Record SpectrumSweepsResponse := { ssr_sweeps : list SpectrumSweep }.

Inductive ServerFrame :=
| track_update (ts : string) (track : RawTrack)
| track_closed (ts : string) (track_id : string)
| detection_frame (ts : string) (detection : Detection)
| health_frame (ts : string) (health : Health)
| capture_status (ts : string) (capture : Capture)
| sweep_status (ts : string) (sweep : SpectrumSweep)
| monitoring_frame (ts : string) (monitoring : MonitoringState)
| ping_frame (ts : option string).

(** ** types.ts: roles *)

Inductive Role := viewer | operator | admin_role.
Definition Role_string (r : Role) : string :=
  match r with viewer => "viewer" | operator => "operator" | admin_role => "admin" end.

(** Indexed by string, so that a role this build has never heard of has no rank. *)
Definition ROLE_RANK (role : string) : option Z :=
  assoc role [("viewer", 1); ("operator", 2); ("admin", 3)].

Definition roleAtLeast (have : option string) (need : string) : bool :=
  match truthy have with
  | None => false
  | Some h =>
      match ROLE_RANK h, ROLE_RANK need with
      | Some a, Some b => b <=? a
      | _, _ => false
      end
  end.

(** ** types.ts: deployment *)

Inductive ArtefactState :=
  art_current | art_behind | art_rebuilt | art_failed | art_absent.
Record DeploymentArtefact := { da_name : string; da_state : ArtefactState }.

Record DeploymentStatus := {
  ds_configured : bool;
  ds_reason : option string;
  ds_commit : option string;
  ds_commit_subject : option string;
  ds_commit_at : option string;
  ds_last_check_at : option string;
  ds_last_result : option string;
  ds_last_reason : option string;
  ds_last_deploy_at : option string;
  ds_last_deploy_commit : option string;
  ds_last_deploy_ok : option bool;
  ds_remote_commit : option string;
  ds_remote_ci : option string;
  ds_timer_enabled : option bool;
  ds_update_available : bool;
  ds_deploy_requested : bool;
  ds_state_age_s : option num;
  ds_artefacts : option (list DeploymentArtefact);
  ds_log : option (list string)
}.

Record DeploymentRun := {
  dr_id : string;
  dr_started_at : string;
  dr_finished_at : string;
  dr_duration_s : num;
  dr_result : string;
  dr_reason : option string;
  dr_commit : option string;
  dr_commit_subject : option string;
  dr_previous_commit : option string;
  dr_artefacts : option (list DeploymentArtefact);
  dr_log : option (list string)
}.
Record DeploymentHistory := {
  dh_configured : bool;
  dh_reason : option string;
  dh_runs : list DeploymentRun
}.

Record WatchdogStatus := {
  wd_configured : bool;
  wd_reason : option string;
  wd_last_check_at : option string;
  wd_actions_taken : Z;
  wd_needs_hands : option string;
  wd_api_healthy : bool;
  wd_wifi_adapter_present : bool;
  wd_wifi_tplink_adapter_present : option bool;
  wd_sdr_present : bool;
  wd_state_age_s : option num;
  wd_log : option (list string)
}.

(** ** Lookups *)

Lemma assoc_Some_In {A} key (rows : list (string * A)) a : assoc key rows = Some a -> In (key, a) rows.
Proof.
  induction rows as [|[k b] rows IH]; cbn; [done|]. destruct (String.eqb_spec k key) as [->|]; [intros [= ->]; by left|].
  right. auto.
Qed.

Lemma assoc_None_keys {A} key (rows : list (string * A)) : assoc key rows = None <-> ~ In key (map fst rows).
Proof.
  induction rows as [|[k b] rows IH]; cbn; [tauto|]. destruct (String.eqb_spec k key) as [->|]; [intuition discriminate|].
  rewrite IH. tauto.
Qed.

Lemma assoc_filtered {A} (f : string -> bool) id (l : list (string * A)) :
  assoc id (List.filter (fun r => f r.1) l) = if f id then assoc id l else None.
Proof.
  induction l as [|[k v] l IH]; cbn; [by destruct (f id)|]. destruct (String.eqb_spec k id) as [->|Hne].
  - destruct (f id) eqn:E; cbn; [by rewrite String.eqb_refl|done].
  - destruct (f k); cbn; [destruct (String.eqb_spec k id); [done|]|]; done.
Qed.
