(* ===== verification/LiveFrames.v ===== *)
(** * LiveFrames: the cache reducer for one server frame

    [app/live-frames.ts] patches the TanStack Query cache from the WebSocket.
    The query client is a third-party object, so the reducer is written against
    the [QueryClient] interface below, whose laws are the client's documented
    behaviour; [ListCache] is an instance, used by the concrete examples.  The
    keys are those of [lib/api/queries.ts]. *)
From Stdlib Require Import ZArith Bool String List Lia Permutation Sorted Btauto.
From stdpp Require Import base option list strings gmap.
From S2P Require Import Prelude JsNumber JsDate ApiTypes.

(** ** Query keys *)

(** One element of a query key array. *)
Inductive segment :=
| seg (s : string)
| seg_num (n : Z)
| seg_tracks (q : TracksQuery)
| seg_detections (q : DetectionsQuery).

Abbreviation QueryKey := (list segment).

#[export] Instance TracksQuery_eq_dec : EqDecision TracksQuery.
Proof. solve_decision. Defined.
#[export] Instance DetectionsQuery_eq_dec : EqDecision DetectionsQuery.
Proof. solve_decision. Defined.
#[export] Instance segment_eq_dec : EqDecision segment.
Proof. solve_decision. Defined.

Module queryKeys.
Definition health : QueryKey := [seg "health"].
Definition system : QueryKey := [seg "system"].
Definition sensors : QueryKey := [seg "sensors"].
Definition monitoring : QueryKey := [seg "monitoring"].
Definition telemetry (window : string) : QueryKey := [seg "telemetry"; seg window].
Definition tracks (q : TracksQuery) : QueryKey := [seg "tracks"; seg "list"; seg_tracks q].
Definition trackHistory (since : option string) : QueryKey := [seg "tracks"; seg "history"; seg (since ?? "all")].
Definition track (trackId : string) : QueryKey := [seg "tracks"; seg "detail"; seg trackId].
Definition trackDetections (trackId : string) : QueryKey := [seg "tracks"; seg "detections"; seg trackId].
Definition trackPath (trackId : string) : QueryKey := [seg "tracks"; seg "path"; seg trackId].
Definition detections (q : DetectionsQuery) : QueryKey := [seg "detections"; seg_detections q].
Definition aircraftLabels : QueryKey := [seg "aircraft"; seg "labels"].
Definition captures : QueryKey := [seg "captures"].
Definition authMe : QueryKey := [seg "auth"; seg "me"].
Definition users : QueryKey := [seg "admin"; seg "users"].
Definition sessions : QueryKey := [seg "admin"; seg "sessions"].
Definition hookRules : QueryKey := [seg "admin"; seg "hooks"].
Definition hookDeliveries : QueryKey := [seg "admin"; seg "hook-deliveries"].
Definition boundaries : QueryKey := [seg "admin"; seg "boundaries"].
Definition deployment : QueryKey := [seg "admin"; seg "deployment"].
Definition deploymentHistory : QueryKey := [seg "admin"; seg "deployment"; seg "history"].
Definition watchdog : QueryKey := [seg "admin"; seg "watchdog"].
Definition spectrumBands : QueryKey := [seg "spectrum"; seg "bands"].
Definition spectrumSweeps : QueryKey := [seg "spectrum"; seg "sweeps"].
Definition spectrumSweep (id : string) (bins : Z) : QueryKey :=
  [seg "spectrum"; seg "sweep"; seg id; seg_num bins].
Definition capture (id : string) : QueryKey := [seg "captures"; seg "detail"; seg id].
Definition captureReport (id : string) : QueryKey := [seg "captures"; seg "report"; seg id].
Definition channelPlan : QueryKey := [seg "config"; seg "channels"].
Definition weights : QueryKey := [seg "config"; seg "weights"].
Definition settings : QueryKey := [seg "config"; seg "settings"].
End queryKeys.

(** A filter's [queryKey] matches the keys it is a prefix of. *)
Fixpoint key_matches (prefix key : QueryKey) : bool :=
  match prefix, key with
  | [], _ => true
  | p :: prefix', k :: key' => bool_decide (p = k) && key_matches prefix' key'
  | _ :: _, [] => false
  end.

(** What the cache holds under the keys above. *)
Inductive CacheData :=
| D_track (t : Track)
| D_tracks (r : TracksResponse)
| D_detections (r : DetectionsResponse)
| D_health (h : Health)
| D_sensors (l : list SensorHealth)
| D_monitoring (m : MonitoringState)
| D_capture (c : Capture)
| D_sweeps (r : SpectrumSweepsResponse)
| D_pages (pages : list TracksResponse)
| D_path (l : list Detection)
| D_closed_copy (d : CacheData)
| D_other (v : json).
(** [D_closed_copy d] is [{ ...d, state: 'CLOSED' }] of a [d] that is no track;
    [D_other] is the answer of an endpoint whose data no frame reads. *)

(** ** The query client, as an interface *)

Class QueryClient (C : Type) := {
  getQueryData : C -> QueryKey -> option CacheData;
  setQueryData : C -> QueryKey -> CacheData -> C;
  getQueriesData : C -> QueryKey -> list (QueryKey * option CacheData);
  invalidateQueries : C -> QueryKey -> C;
  isInvalidated : C -> QueryKey -> bool
}.

Class QueryClientLaws (C : Type) `{QueryClient C} := {
  get_set_eq : forall c k d, getQueryData (setQueryData c k d) k = Some d;
  get_set_ne : forall c k k' d, k <> k' ->
    getQueryData (setQueryData c k d) k' = getQueryData c k';
  queries_lookup : forall c p k d,
    In (k, Some d) (getQueriesData c p) <->
    key_matches p k = true /\ getQueryData c k = Some d;
  queries_nodup : forall c p, List.NoDup (map fst (getQueriesData c p));
  get_invalidate : forall c p k, getQueryData (invalidateQueries c p) k = getQueryData c k;
  invalidated_matching : forall c p k d, key_matches p k = true ->
    getQueryData c k = Some d -> isInvalidated (invalidateQueries c p) k = true;
  invalidated_mono : forall c p k, isInvalidated c k = true ->
    isInvalidated (invalidateQueries c p) k = true
}.

(** ** client.ts: normalisation at the transport boundary *)

Definition normalizeEvidence (value : RawEvidence) : list Evidence :=
  match value with
  | ev_array l => l
  | ev_object l => omap snd l
  | ev_absent | ev_scalar => []
  end.

Definition normalizeTrack (raw : RawTrack) : Track :=
  let t := raw_track raw in
  {| tr_track_id := tr_track_id t;
     tr_state := tr_state t;
     tr_first_seen := tr_first_seen t;
     tr_last_seen := tr_last_seen t;
     tr_detection_count := tr_detection_count t;
     tr_identity := tr_identity t;
     tr_confidence := tr_confidence t;
     tr_evidence := Some (normalizeEvidence (raw_evidence raw));
     tr_current := tr_current t;
     tr_history := Some (tr_history t ?? []);
     tr_operator := tr_operator t;
     tr_rssi_dbm := tr_rssi_dbm t;
     tr_receivers := tr_receivers t;
     tr_adsb_correlated :=
       Some (tr_adsb_correlated t ?? raw_suppression raw ?? false) |}.

(** ** The filter the server applied, mirrored *)

Definition matchesQuery (track : Track) (query : TracksQuery) : bool :=
  match tq_state query with
  | Some ((_ :: _) as states) => bool_decide (tr_state track ∈ states)
  | _ => true
  end &&
  match truthy (tq_since query) with
  | Some since => negb (tr_last_seen track <<< since)
  | None => true
  end &&
  match truthy (tq_until query) with
  | Some until => negb (until <<< tr_last_seen track)
  | None => true
  end &&
  match tq_serial query with
  | Some serial => bool_decide (tr_identity track ?. ti_serial = Some serial)
  | None => true
  end &&
  match tq_vendor query with
  | Some vendor => toLowerCase (tr_identity track ?. ti_vendor ?? "") === toLowerCase vendor
  | None => true
  end &&
  match tq_min_confidence query with
  | Some c => negb (nlt (tr_confidence track) c)
  | None => true
  end.

Definition MAX_CLOSED_PER_LIST : nat := 500.

Definition is_closed (t : Track) : bool := bool_decide (tr_state t = CLOSED).

(** Oldest [last_seen] first: [compare(a, b) <= 0]. *)
Definition seen_le (a b : Track) : bool := negb (tr_last_seen b <<< tr_last_seen a).

Definition evictExcessClosed (tracks : list Track) : list Track :=
  let closed := List.filter is_closed tracks in
  if (List.length closed <=? MAX_CLOSED_PER_LIST)%nat then tracks
  else
    let doomed :=
      map tr_track_id
        (take (List.length closed - MAX_CLOSED_PER_LIST) (sort_by seen_le closed)) in
    List.filter (fun t => negb (existsb (String.eqb (tr_track_id t)) doomed)) tracks.

Definition close_track (t : Track) : Track :=
  {| tr_track_id := tr_track_id t; tr_state := CLOSED;
     tr_first_seen := tr_first_seen t; tr_last_seen := tr_last_seen t;
     tr_detection_count := tr_detection_count t; tr_identity := tr_identity t;
     tr_confidence := tr_confidence t; tr_evidence := tr_evidence t;
     tr_current := tr_current t; tr_history := tr_history t;
     tr_operator := tr_operator t; tr_rssi_dbm := tr_rssi_dbm t;
     tr_receivers := tr_receivers t; tr_adsb_correlated := tr_adsb_correlated t |}.

Definition with_tracks (r : TracksResponse) (l : list Track) (total : Z) : TracksResponse :=
  {| trs_tracks := l; trs_next_cursor := trs_next_cursor r; trs_total := total |}.

Definition has_id (id : string) (t : Track) : bool := tr_track_id t === id.
Definition drop_id (id : string) (l : list Track) : list Track :=
  List.filter (fun t => negb (has_id id t)) l.

(** The filters a list entry's own key carries: [(key[2] ?? {})]. *)
Definition no_filters : TracksQuery :=
  {| tq_state := None; tq_since := None; tq_until := None; tq_serial := None;
     tq_vendor := None; tq_min_confidence := None; tq_limit := None; tq_cursor := None |}.
Definition key_query (key : QueryKey) : TracksQuery :=
  match key with _ :: _ :: seg_tracks q :: _ => q | _ => no_filters end.

(** What the body of a loop, or an updater, does with one entry: it leaves it,
    writes it, or throws.  A cached value is only cast to the type the frame
    expects, so a value of another shape has no such member to read. *)
Inductive effect := leaves | writes (d : CacheData) | throws.

(** [old.tracks] and [{ ...old, tracks, total }]. *)
Fixpoint tracks_of (d : CacheData) : option TracksResponse :=
  match d with D_tracks r => Some r | D_closed_copy d => tracks_of d | _ => None end.
Fixpoint put_tracks (d : CacheData) (r : TracksResponse) : CacheData :=
  match d with D_closed_copy d => D_closed_copy (put_tracks d r) | _ => D_tracks r end.

(** The body of the [track.update] loop. *)
Definition update_entry (track : Track) (key : QueryKey) (old : CacheData) : effect :=
  let matches := matchesQuery track (key_query key) in
  match tracks_of old with
  | None => throws
  | Some r =>
      match find_index (has_id (tr_track_id track)) (trs_tracks r) with
      | None =>
          if matches
          then writes (put_tracks old (with_tracks r
                         (evictExcessClosed (trs_tracks r ++ [track])) (trs_total r + 1)))
          else leaves
      | Some index =>
          if matches
          then writes (put_tracks old (with_tracks r (<[index := track]> (trs_tracks r))
                                         (trs_total r)))
          else writes (put_tracks old (with_tracks r (drop_id (tr_track_id track) (trs_tracks r))
                                         (Z.max 0 (trs_total r - 1))))
      end
  end.

(** The body of the [track.closed] loop. *)
Definition close_entry (track_id : string) (key : QueryKey) (old : CacheData) : effect :=
  match tracks_of old with
  | None => throws
  | Some r =>
      let existing := find_index (has_id track_id) (trs_tracks r) ≫= fun index =>
                        (fun t => (index, t)) <$> trs_tracks r !! index in
      match existing with
      | None => leaves
      | Some (index, existing) =>
          if is_closed existing then leaves
          else
            let closed := close_track existing in
            if matchesQuery closed (key_query key)
            then writes (put_tracks old (with_tracks r (<[index := closed]> (trs_tracks r))
                                           (trs_total r)))
            else writes (put_tracks old (with_tracks r (drop_id track_id (trs_tracks r))
                                           (Z.max 0 (trs_total r - 1))))
      end
  end.

(** [old ? { ...old, state: 'CLOSED' } : old]. *)
Definition close_detail (old : CacheData) : effect :=
  writes match old with D_track t => D_track (close_track t) | _ => D_closed_copy old end.

Definition MAX_DETECTIONS : nat := 200.

(** The [detection] updater: newest first, one entry per aircraft. *)
Definition push_detection (d : Detection) (l : list Detection) : list Detection :=
  let icao := match dt_adsb d with Some a => truthy (Some (ad_icao a)) | None => None end in
  let rest :=
    match icao with
    | Some icao =>
        List.filter
          (fun x => negb (bool_decide ((ad_icao <$> dt_adsb x) = Some icao))) l
    | None => List.filter (fun x => dt_detection_id x !== dt_detection_id d) l
    end in
  take MAX_DETECTIONS (d :: rest).

Fixpoint detections_of (d : CacheData) : option DetectionsResponse :=
  match d with D_detections r => Some r | D_closed_copy d => detections_of d | _ => None end.
Fixpoint put_detections (d : CacheData) (r : DetectionsResponse) : CacheData :=
  match d with D_closed_copy d => D_closed_copy (put_detections d r) | _ => D_detections r end.

Definition detection_entry (d : Detection) (old : CacheData) : effect :=
  match detections_of old with
  | Some r =>
      writes (put_detections old {| drs_detections := push_detection d (drs_detections r);
                                    drs_next_cursor := drs_next_cursor r;
                                    drs_total := drs_total r |})
  | None => throws
  end.

(** [config.get(sensor.sensor_id)]: a Map built from a list keeps the last entry. *)
Definition config_of (old : list SensorHealth) (id : string) : option SensorRuntimeConfig :=
  match List.find (fun s => sh_sensor_id s === id) (rev old) with
  | Some s => sh_config s
  | None => None
  end.

Definition with_config (s : SensorHealth) (c : SensorRuntimeConfig) : SensorHealth :=
  {| sh_sensor_id := sh_sensor_id s; sh_sensor_kind := sh_sensor_kind s;
     sh_healthy := sh_healthy s; sh_last_heartbeat := sh_last_heartbeat s;
     sh_seconds_since_heartbeat := sh_seconds_since_heartbeat s;
     sh_detections_5m := sh_detections_5m s; sh_reason := sh_reason s;
     sh_detail := sh_detail s; sh_optional := sh_optional s; sh_config := Some c |}.

Definition merge_sensors (old new : list SensorHealth) : list SensorHealth :=
  map (fun sensor => match config_of old (sh_sensor_id sensor) with
                     | Some known => with_config sensor known
                     | None => sensor
                     end) new.

Definition has_sweep_id (id : string) (s : SpectrumSweep) : bool := sw_sweep_id s === id.
Definition put_sweep (sweep : SpectrumSweep) (l : list SpectrumSweep) : list SpectrumSweep :=
  match find_index (has_sweep_id (sw_sweep_id sweep)) l with
  | None => sweep :: l
  | Some index => <[index := sweep]> l
  end.

(** The [health] updater: [old.map] is a function of the arrays only, and the
    detections of a path have no [config]. *)
Definition sensors_entry (new : list SensorHealth) (old : CacheData) : effect :=
  match old with
  | D_sensors l => writes (D_sensors (merge_sensors l new))
  | D_path _ => writes (D_sensors new)
  | _ => throws
  end.

Fixpoint sweeps_of (d : CacheData) : option SpectrumSweepsResponse :=
  match d with D_sweeps r => Some r | D_closed_copy d => sweeps_of d | _ => None end.
Fixpoint put_sweeps (d : CacheData) (r : SpectrumSweepsResponse) : CacheData :=
  match d with D_closed_copy d => D_closed_copy (put_sweeps d r) | _ => D_sweeps r end.
Definition sweeps_entry (sweep : SpectrumSweep) (old : CacheData) : effect :=
  match sweeps_of old with
  | Some r => writes (put_sweeps old {| ssr_sweeps := put_sweep sweep (ssr_sweeps r) |})
  | None => throws
  end.

(** ** The reducer *)
Section Reducer.
Context {C : Type} `{QueryClient C}.

(** What running some code leaves: the cache, and whether the code came to its
    end or threw on the way. *)
Definition ran : Type := C * bool.

Definition apply_effect (key : QueryKey) (e : effect) (c : C) : ran :=
  match e with leaves => (c, true) | writes d => (setQueryData c key d, true) | throws => (c, false) end.

(** [for (const [key, old] of queryClient.getQueriesData(...)) ...] with a body
    that writes at most its own key; an exception leaves the loop. *)
Fixpoint for_entries (body : QueryKey -> CacheData -> effect)
    (entries : list (QueryKey * option CacheData)) (c : C) : ran :=
  match entries with
  | [] => (c, true)
  | (_, None) :: rest => for_entries body rest c
  | (key, Some old) :: rest =>
      let r := apply_effect key (body key old) c in
      if snd r then for_entries body rest (fst r) else r
  end.

(** [setQueryData(key, updater)], where the updater is asked for what is cached. *)
Definition update_data (c : C) (key : QueryKey) (f : CacheData -> effect) : ran :=
  match getQueryData c key with Some old => apply_effect key (f old) c | None => (c, true) end.

(** What follows is not reached past an exception. *)
Definition and_then (r : ran) (rest : C -> ran) : ran := if snd r then rest (fst r) else r.

Definition LIST_PREFIX : QueryKey := [seg "tracks"; seg "list"].

Definition run_frame (c : C) (frame : ServerFrame) : ran :=
  match frame with
  | track_update _ raw =>
      let track := normalizeTrack raw in
      let c1 := setQueryData c (queryKeys.track (tr_track_id track)) (D_track track) in
      for_entries (update_entry track) (getQueriesData c1 LIST_PREFIX) c1
  | track_closed _ track_id =>
      and_then (update_data c (queryKeys.track track_id) close_detail)
        (fun c1 => for_entries (close_entry track_id) (getQueriesData c1 LIST_PREFIX) c1)
  | detection_frame _ d =>
      if bool_decide (dt_detection_class d = ClsD)
      then for_entries (fun _ => detection_entry d)
             (getQueriesData c [seg "detections"]) c
      else (c, true)
  | health_frame _ health =>
      let c1 := setQueryData c queryKeys.health (D_health health) in
      update_data c1 queryKeys.sensors (sensors_entry (hl_sensors health))
  | monitoring_frame _ m => (setQueryData c queryKeys.monitoring (D_monitoring m), true)
  | capture_status _ cap =>
      (invalidateQueries
        (setQueryData c (queryKeys.capture (cp_capture_id cap)) (D_capture cap))
        queryKeys.captures, true)
  | sweep_status _ sweep =>
      and_then (update_data c queryKeys.spectrumSweeps (sweeps_entry sweep))
        (fun c1 =>
           (if bool_decide (sw_state sweep = sweep_running) then c1
            else
              invalidateQueries
                (invalidateQueries c1 [seg "spectrum"; seg "sweep"; seg (sw_sweep_id sweep)])
                queryKeys.spectrumBands, true))
  | ping_frame _ => (c, true)
  end.

(** The cache a frame leaves, and whether [applyFrame] returned. *)
Definition applyFrame (c : C) (frame : ServerFrame) : C := fst (run_frame c frame).
Definition applyFrame_returns (c : C) (frame : ServerFrame) : bool := snd (run_frame c frame).

End Reducer.

(** ** The loops act on each entry by itself *)
Section ReducerFacts.
Context {C : Type} `{Q : QueryClient C} {laws : QueryClientLaws C}.

Definition entry_result (body : QueryKey -> CacheData -> effect)
    (k : QueryKey) (old : CacheData) : CacheData :=
  match body k old with writes d => d | _ => old end.

Lemma get_apply_ne key e (c : C) k :
  key <> k -> getQueryData (fst (apply_effect key e c)) k = getQueryData c k.
Proof. intros. destruct e; [done|by apply get_set_ne|done]. Qed.

Lemma get_apply_eq key e (c : C) :
  getQueryData (fst (apply_effect key e c)) key =
  match e with writes d => Some d | _ => getQueryData c key end.
Proof. destruct e; [done|apply get_set_eq|done]. Qed.

Lemma for_entries_other body entries (c : C) k :
  ~ In k (map fst entries) ->
  getQueryData (fst (for_entries body entries c)) k = getQueryData c k.
Proof.
  revert c. induction entries as [|[k' [o|]] es IH]; intros c Hin; simpl in *; [done| |by apply IH; tauto].
  destruct (snd _); [rewrite IH by tauto|]; apply get_apply_ne; tauto.
Qed.

(** Whatever happens in the loop, an entry is as it was or as the body wrote it. *)
Lemma for_entries_cases body entries (c : C) k :
  List.NoDup (map fst entries) ->
  getQueryData (fst (for_entries body entries c)) k = getQueryData c k \/
  exists o d, In (k, Some o) entries /\ body k o = writes d /\
    getQueryData (fst (for_entries body entries c)) k = Some d.
Proof.
  revert c. induction entries as [|[k' o] es IH]; intros c Hnd; [by left|].
  inversion Hnd as [|? ? Hn Hnd']; subst. simpl.
  destruct o as [o|]; [|destruct (IH c Hnd') as [?|(o&d&?&?&?)]; eauto 8].
  destruct (decide (k' = k)) as [->|Hne].
  - assert (forall c', getQueryData (fst (for_entries body es c')) k = getQueryData c' k) as Hk
      by (intros; by apply for_entries_other).
    pose proof (get_apply_eq k (body k o) c) as Hg.
    destruct (body k o) as [|d|] eqn:E; simpl in Hg |- *; [left; by rewrite Hk| |by left].
    right. exists o, d. rewrite Hk. auto.
  - pose proof (get_apply_ne k' (body k' o) c k Hne) as Hg. destruct (snd _).
    + destruct (IH (fst (apply_effect k' (body k' o) c)) Hnd') as [->|(o'&d&?&?&?)]; [by left|]. eauto 8.
    + left. exact Hg.
Qed.

(** A loop over the entries under a prefix leaves every other key alone, and
    what it finds under a key of the prefix is what its body is asked about. *)
Lemma for_prefix_cases body p (c : C) k :
  getQueryData (fst (for_entries body (getQueriesData c p) c)) k = getQueryData c k \/
  exists o d, key_matches p k = true /\ getQueryData c k = Some o /\ body k o = writes d /\
    getQueryData (fst (for_entries body (getQueriesData c p) c)) k = Some d.
Proof.
  destruct (for_entries_cases body _ c k (queries_nodup c p)) as [?|(o&d&Hin&?&?)]; [by left|].
  right. exists o, d. apply queries_lookup in Hin as [? ?]. done.
Qed.

Definition harmless (body : QueryKey -> CacheData -> effect) (p : QueryKey) (c : C) : Prop :=
  forall k old, key_matches p k = true -> getQueryData c k = Some old -> body k old <> throws.

Lemma for_entries_all body entries (c : C) :
  List.NoDup (map fst entries) ->
  (forall k o, In (k, Some o) entries -> body k o <> throws) ->
  snd (for_entries body entries c) = true /\
  forall k o, In (k, Some o) entries -> getQueryData c k = Some o ->
    getQueryData (fst (for_entries body entries c)) k = Some (entry_result body k o).
Proof.
  revert c. induction entries as [|[k' o'] es IH]; intros c Hnd Hb; [done|].
  inversion Hnd as [|? ? Hn Hnd']; subst. simpl.
  destruct o' as [o'|]; [|destruct (IH c Hnd') as [? H]; [intros; apply Hb; by right|]].
  - assert (snd (apply_effect k' (body k' o') c) = true) as ->.
    { specialize (Hb k' o' (or_introl eq_refl)). by destruct (body k' o'). }
    destruct (IH (fst (apply_effect k' (body k' o') c)) Hnd') as [? H]; [intros; apply Hb; by right|].
    split; [done|]. intros k o [[= <- <-]|Hin] Hg.
    + rewrite for_entries_other, get_apply_eq by done. unfold entry_result. by destruct (body k' o').
    + apply H; [done|]. rewrite get_apply_ne; [done|]. intros ->. apply Hn, in_map_iff. by exists (k, Some o).
  - split; [done|]. intros k o [[=]|Hin] Hg. by apply H.
Qed.

(** Where its body never throws, a loop over the entries under a prefix comes to
    its end and maps its body over them. *)
Lemma for_entries_spec body p (c : C) :
  harmless body p c ->
  snd (for_entries body (getQueriesData c p) c) = true /\
  forall k,
    getQueryData (fst (for_entries body (getQueriesData c p) c)) k =
    match getQueryData c k with
    | Some old => Some (if key_matches p k then entry_result body k old else old)
    | None => None
    end.
Proof.
  intros Hb. destruct (for_entries_all body (getQueriesData c p) c) as [Hok Hall].
  { apply queries_nodup. }
  { intros k o [? ?]%queries_lookup. by eapply Hb. }
  split; [done|]. intros k. destruct (for_prefix_cases body p c k) as [Hg|(o&d&Hm&Ho&Hw&->)].
  - rewrite Hg. destruct (getQueryData c k) as [old|] eqn:E; [|done].
    destruct (key_matches p k) eqn:Hm; [|done].
    rewrite <- Hg. apply Hall; [by apply queries_lookup|done].
  - by rewrite Ho, Hm; unfold entry_result; rewrite Hw.
Qed.

Lemma update_data_spec (c : C) k f k' :
  getQueryData (fst (update_data c k f)) k' =
  if decide (k = k')
  then match getQueryData c k' with
       | Some old => Some (match f old with writes d => d | _ => old end)
       | None => None
       end
  else getQueryData c k'.
Proof.
  unfold update_data. case_decide as Hk; [subst|].
  - destruct (getQueryData c k') as [old|] eqn:E; [|done]. rewrite get_apply_eq. by destruct (f old).
  - destruct (getQueryData c k) as [old|]; [|done]. by apply get_apply_ne.
Qed.

(** An updater that throws at nothing it is given returns. *)
Lemma update_data_returns (c : C) k f :
  (forall old, getQueryData c k = Some old -> f old <> throws) -> snd (update_data c k f) = true.
Proof.
  unfold update_data. intros H. destruct (getQueryData c k) as [old|]; [|done].
  specialize (H old eq_refl). by destruct (f old).
Qed.
End ReducerFacts.

(** ** What a cached list may hold *)

Definition lookup_id (id : string) (l : list Track) : option Track :=
  List.find (has_id id) l.

(** A list agrees with its query: one entry per track, and only tracks the query
    admits. *)
Definition coherent (q : TracksQuery) (l : list Track) : Prop :=
  List.NoDup (map tr_track_id l) /\ List.Forall (fun t => matchesQuery t q = true) l.

Lemma coherent_filter q p l : coherent q l -> coherent q (List.filter p l).
Proof. intros [? ?]. split; [by apply NoDup_map_filter | by apply Forall_list_filter]. Qed.

Lemma coherent_insert q l i x y :
  coherent q l -> l !! i = Some y -> tr_track_id x = tr_track_id y ->
  matchesQuery x q = true -> coherent q (<[i := x]> l).
Proof.
  intros [Hnd Hall] Hy Hid Hm. split; [by rewrite (map_insert_same _ _ _ _ y)|].
  rewrite List.Forall_forall in Hall |- *. intros z [->|Hz]%In_list_insert; auto.
Qed.

Lemma coherent_snoc q l x :
  coherent q l -> (forall y, In y l -> has_id (tr_track_id x) y = false) ->
  matchesQuery x q = true -> coherent q (l ++ [x]).
Proof.
  intros [Hnd Hall] Hx Hm. split.
  - rewrite map_app. apply NoDup_app_disj; [done|repeat constructor; auto|].
    intros i Hi [<-|[]]. apply in_map_iff in Hi as (y&Hy&Hin).
    specialize (Hx y Hin). unfold has_id in Hx. rewrite Hy, String.eqb_refl in Hx. done.
  - apply List.Forall_app. split; [done|]. by constructor.
Qed.

Lemma evictExcessClosed_filter l : exists p, evictExcessClosed l = List.filter p l.
Proof.
  unfold evictExcessClosed. case_match; [|eauto].
  exists (fun _ => true). symmetry. apply filter_true.
Qed.

Lemma has_id_true id t : has_id id t = true <-> tr_track_id t = id.
Proof. apply String.eqb_eq. Qed.

Lemma update_entry_coherent track k r d :
  coherent (key_query k) (trs_tracks r) ->
  update_entry track k (D_tracks r) = writes d ->
  exists r', d = D_tracks r' /\ coherent (key_query k) (trs_tracks r').
Proof.
  intros Hc. unfold update_entry. cbn [tracks_of put_tracks].
  destruct (find_index _ _) as [i|] eqn:Hi, (matchesQuery track (key_query k)) eqn:Hm;
    intros [= <-]; eexists; split; try reflexivity; simpl.
  - apply find_index_Some in Hi as (y&Hy&Hid%has_id_true&_). by eapply coherent_insert.
  - by apply coherent_filter.
  - destruct (evictExcessClosed_filter (trs_tracks r ++ [track])) as [p ->].
    apply coherent_filter, coherent_snoc; [done| |done]. by apply find_index_None.
Qed.

Lemma close_entry_coherent id k r d :
  coherent (key_query k) (trs_tracks r) ->
  close_entry id k (D_tracks r) = writes d ->
  exists r', d = D_tracks r' /\ coherent (key_query k) (trs_tracks r').
Proof.
  intros Hc. unfold close_entry. cbn [tracks_of put_tracks].
  destruct (find_index _ _) as [i|] eqn:Hi; cbn; [|done].
  destruct (trs_tracks r !! i) as [t|] eqn:Ht; cbn; [|done]. destruct (is_closed t); [done|].
  destruct (matchesQuery (close_track t) (key_query k)) eqn:Hm;
    intros [= <-]; eexists; split; try reflexivity; simpl.
  - by eapply coherent_insert.
  - by apply coherent_filter.
Qed.

(** A list is only ever written over a list. *)
Lemma put_tracks_list old r r' : put_tracks old r = D_tracks r' -> (forall d, old <> D_closed_copy d) /\ r' = r.
Proof. destruct old; simpl; intros [= <-]; done. Qed.

Lemma update_entry_tracks track k old r :
  update_entry track k old = writes (D_tracks r) -> exists r, old = D_tracks r.
Proof.
  unfold update_entry. destruct (tracks_of old) eqn:E; [|done].
  repeat case_match; intros [= [Hn _]%put_tracks_list];
    (destruct old; try discriminate E; [eauto|by destruct (Hn old)]).
Qed.

Lemma close_entry_tracks id k old r :
  close_entry id k old = writes (D_tracks r) -> exists r, old = D_tracks r.
Proof.
  unfold close_entry. destruct (tracks_of old) eqn:E; [|done]. cbn zeta.
  repeat case_match; try discriminate; intros [= [Hn _]%put_tracks_list];
    (destruct old; try discriminate E; [eauto|by destruct (Hn old)]).
Qed.

Section Coherence.
Context {C : Type} `{Q : QueryClient C} {laws : QueryClientLaws C}.

(** Every list in the cache agrees with the filters in its own key. *)
Definition cache_coherent (c : C) : Prop :=
  forall k r, key_matches LIST_PREFIX k = true ->
    getQueryData c k = Some (D_tracks r) -> coherent (key_query k) (trs_tracks r).

Definition list_key (k : QueryKey) : Prop := key_matches LIST_PREFIX k = true.

Lemma not_list_key k k' : key_matches LIST_PREFIX k = true -> key_matches LIST_PREFIX k' = false -> k' <> k.
Proof. congruence. Qed.

(** One loop body that keeps single entries coherent keeps the cache coherent,
    wherever it stops. *)
Lemma for_entries_coherent body (c : C) :
  (forall k r d, coherent (key_query k) (trs_tracks r) -> body k (D_tracks r) = writes d ->
     exists r', d = D_tracks r' /\ coherent (key_query k) (trs_tracks r')) ->
  (forall k old r, body k old = writes (D_tracks r) -> exists r, old = D_tracks r) ->
  cache_coherent c -> cache_coherent (fst (for_entries body (getQueriesData c LIST_PREFIX) c)).
Proof.
  intros Hb Ho Hc k r Hk.
  destruct (for_prefix_cases body LIST_PREFIX c k) as [->|(o&d&_&E&Hd&->)]; [by apply Hc|].
  intros [= ->]. destruct (Ho _ _ _ Hd) as [r0 ->].
  destruct (Hb _ _ _ (Hc _ _ Hk E) Hd) as (?&[= ->]&?). done.
Qed.

Lemma set_other_coherent c k d :
  key_matches LIST_PREFIX k = false -> cache_coherent c ->
  cache_coherent (setQueryData c k d).
Proof. intros Hk Hc k' r Hk'. rewrite get_set_ne by congruence. by apply Hc. Qed.

Lemma update_other_coherent c k f :
  key_matches LIST_PREFIX k = false -> cache_coherent c ->
  cache_coherent (fst (update_data c k f)).
Proof.
  intros Hk Hc k' r Hk'. rewrite update_data_spec, decide_False by congruence. by apply Hc.
Qed.

Lemma and_then_coherent r rest :
  cache_coherent (fst r) -> (forall c, cache_coherent c -> cache_coherent (fst (rest c))) ->
  cache_coherent (fst (and_then r rest)).
Proof. intros Hr Hrest. unfold and_then. destruct (snd r); auto. Qed.

Lemma invalidate_coherent c p : cache_coherent c -> cache_coherent (invalidateQueries c p).
Proof. intros Hc k r Hk. rewrite get_invalidate. by apply Hc. Qed.

(** The loop over the detections prefix writes no list. *)
Lemma detections_coherent d (c : C) :
  cache_coherent c ->
  cache_coherent (fst (for_entries (fun _ => detection_entry d) (getQueriesData c [seg "detections"]) c)).
Proof.
  intros Hc k r Hk.
  destruct (for_prefix_cases (fun _ => detection_entry d) [seg "detections"] c k) as [->|(o&x&Hm&_)];
    [by apply Hc|].
  destruct k as [|s ?]; [done|]. simpl in Hk, Hm.
  destruct (bool_decide_reflect (seg "tracks" = s)) as [<-|]; done.
Qed.

#[local] Hint Resolve set_other_coherent update_other_coherent invalidate_coherent and_then_coherent
  detections_coherent for_entries_coherent update_entry_coherent close_entry_coherent : js.

(** C1. No frame makes a cached track list disagree with its own query: when every
    list under [['tracks','list']] holds one entry per track id and only tracks
    its filters admit, so does every list after [applyFrame], whatever the frame. *)
Theorem applyFrame_coherent (c : C) frame :
  cache_coherent c -> cache_coherent (applyFrame c frame).
Proof.
  intros Hc. destruct frame; unfold applyFrame; cbn [run_frame fst]; auto 6 with js.
  - apply for_entries_coherent; eauto using update_entry_tracks with js.
  - apply and_then_coherent; [auto with js|]. intros. apply for_entries_coherent; eauto using close_entry_tracks with js.
  - case_bool_decide; auto with js.
  - apply and_then_coherent; [auto with js|]. intros. simpl. case_bool_decide; auto with js.
Qed.
End Coherence.

(** ** Eviction *)

Lemma seen_le_total a b : seen_le a b = true \/ seen_le b a = true.
Proof. apply sle_total. Qed.
Lemma seen_le_trans a b c : seen_le a b = true -> seen_le b c = true -> seen_le a c = true.
Proof. apply sle_trans. Qed.

Lemma is_closed_true t : is_closed t = true <-> tr_state t = CLOSED.
Proof. apply bool_decide_eq_true. Qed.

Definition id_in (ids : list string) (t : Track) : bool :=
  existsb (String.eqb (tr_track_id t)) ids.

Lemma id_in_true ids t : id_in ids t = true <-> In (tr_track_id t) ids.
Proof.
  unfold id_in. rewrite existsb_exists. split.
  - intros (x&Hx&<-%String.eqb_eq). done.
  - intros H. exists (tr_track_id t). by rewrite String.eqb_refl.
Qed.

(** The oldest [last_seen] go first, whatever the list's own order. *)
Definition oldest_closed (l : list Track) : list Track :=
  let closed := List.filter is_closed l in
  take (List.length closed - MAX_CLOSED_PER_LIST) (sort_by seen_le closed).

Lemma evict_eq l :
  evictExcessClosed l =
  List.filter (fun t => negb (id_in (map tr_track_id (oldest_closed l)) t)) l.
Proof.
  unfold evictExcessClosed, oldest_closed. case_match eqn:E; [|done].
  apply Nat.leb_le in E. replace (_ - _)%nat with 0%nat by lia. simpl. symmetry. apply filter_true.
Qed.

Lemma sorted_closed_nodup l :
  List.NoDup (map tr_track_id l) ->
  List.NoDup (map tr_track_id (sort_by seen_le (List.filter is_closed l))).
Proof.
  intros H. eapply Permutation_NoDup; [apply Permutation_map, sort_by_perm|].
  by apply NoDup_map_filter.
Qed.

Lemma evict_closed_perm l :
  List.NoDup (map tr_track_id l) ->
  Permutation (List.filter is_closed (evictExcessClosed l))
    (drop (List.length (List.filter is_closed l) - MAX_CLOSED_PER_LIST)
       (sort_by seen_le (List.filter is_closed l))).
Proof.
  intros Hnd. rewrite evict_eq, filter_comm. unfold oldest_closed.
  set (s := sort_by seen_le _). set (k := (_ - _)%nat).
  rewrite (Permutation_filter _ _ s) by apply sort_by_perm.
  rewrite (filter_ext _ (fun t => negb (existsb (String.eqb (tr_track_id t))
    (map tr_track_id (take k s))))) by done.
  rewrite filter_not_take; [done|]. by apply sorted_closed_nodup.
Qed.

(** Eviction bounds the closed tracks of a list and takes nothing else: it
    leaves at most [MAX_CLOSED_PER_LIST] closed tracks (all of them when there
    are no more than that), keeps every track that is still active, and anything
    it drops is a closed track last seen no later than every closed track kept. *)
Lemma evictExcessClosed_spec (l : list Track) :
  List.NoDup (map tr_track_id l) ->
  List.length (List.filter is_closed (evictExcessClosed l))
    = Nat.min (List.length (List.filter is_closed l)) MAX_CLOSED_PER_LIST
  /\ (forall t, In t l -> tr_state t <> CLOSED -> In t (evictExcessClosed l))
  /\ (forall t, In t l -> ~ In t (evictExcessClosed l) ->
        tr_state t = CLOSED /\
        forall t', In t' (evictExcessClosed l) -> tr_state t' = CLOSED ->
          (tr_last_seen t' <<< tr_last_seen t) = false).
Proof.
  intros Hnd. split; [|split].
  - rewrite (Permutation_length (evict_closed_perm l Hnd)), length_drop, sort_by_length. lia.
  - intros t Hin Hs. rewrite evict_eq. apply filter_In. split; [done|].
    apply negb_true_iff, not_true_iff_false. rewrite id_in_true, in_map_iff.
    intros (u&Hu&Hin'%In_take). apply sort_by_In, filter_In in Hin' as [Hul Huc].
    apply Hs. rewrite <- (NoDup_map_inj _ _ _ _ Hnd Hul Hin Hu). by apply is_closed_true.
  - intros t Hin Hout. rewrite evict_eq, filter_In in Hout.
    assert (id_in (map tr_track_id (oldest_closed l)) t = true) as Hd.
    { destruct (id_in _ t); [done|]. tauto. }
    apply id_in_true, in_map_iff in Hd as (u&Hu&Hold).
    pose proof (In_take _ _ _ Hold) as Hin'. apply sort_by_In, filter_In in Hin' as [Hul Huc].
    assert (u = t) as -> by (by eapply NoDup_map_inj).
    split; [by apply is_closed_true|]. intros t' Ht' Hc'.
    assert (In t' (List.filter is_closed (evictExcessClosed l))) as Hk
      by (apply filter_In; split; [done | by apply is_closed_true]).
    rewrite (evict_closed_perm l Hnd) in Hk.
    apply negb_true_iff. change (seen_le t t' = true).
    eapply sorted_take_drop; [apply sort_by_sorted; eauto using seen_le_total, seen_le_trans| |];
      done.
Qed.

(** ** Refinement: a list is its query's view of the server's tracks *)

Lemma find_app {A} (p : A -> bool) l k :
  List.find p (l ++ k) = match List.find p l with Some x => Some x | None => List.find p k end.
Proof. induction l as [|x l IH]; simpl; [done|]. by destruct (p x). Qed.

Lemma lookup_id_None id l :
  lookup_id id l = None <-> forall t, In t l -> has_id id t = false.
Proof.
  unfold lookup_id. split; [intros H t Ht; by eapply find_none|].
  intros H. destruct (List.find _ l) as [t|] eqn:E; [|done].
  apply find_some in E as [Hin Ht]. rewrite H in Ht; done.
Qed.

Lemma lookup_id_drop id id' l :
  lookup_id id (drop_id id' l) = if String.eqb id id' then None else lookup_id id l.
Proof.
  unfold lookup_id, drop_id. induction l as [|t l IH]; simpl; [by destruct (String.eqb id id')|].
  unfold has_id in *. destruct (String.eqb_spec (tr_track_id t) id') as [<-|Hne]; simpl.
  - rewrite IH, (String.eqb_sym id). by destruct (String.eqb (tr_track_id t) id).
  - rewrite IH. destruct (String.eqb_spec (tr_track_id t) id) as [<-|]; [|done].
    by apply String.eqb_neq in Hne as ->.
Qed.

Lemma lookup_id_insert id l i t t' :
  List.NoDup (map tr_track_id l) -> l !! i = Some t' -> tr_track_id t' = tr_track_id t ->
  lookup_id id (<[i := t]> l) = if has_id id t then Some t else lookup_id id l.
Proof.
  unfold lookup_id. revert i. induction l as [|u l IH]; intros [|i] Hnd Hi Hid; try done.
  - injection Hi as ->. simpl. unfold has_id. rewrite Hid. by destruct (String.eqb _ id).
  - simpl in Hi |- *. inversion Hnd as [|? ? Hn Hnd']; subst.
    rewrite (IH i) by done. destruct (has_id id u) eqn:Hu; [|done].
    destruct (has_id id t) eqn:Ht; [|done]. exfalso.
    apply has_id_true in Hu, Ht. apply Hn, in_map_iff. exists t'.
    split; [congruence|]. by apply list_elem_of_In, list_elem_of_lookup_2 with i.
Qed.

Lemma lookup_id_snoc id l t :
  (forall u, In u l -> has_id (tr_track_id t) u = false) ->
  lookup_id id (l ++ [t]) = if has_id id t then Some t else lookup_id id l.
Proof.
  intros Hl. unfold lookup_id. rewrite find_app. simpl.
  destruct (has_id id t) eqn:Ht; [|by destruct (List.find _ l)].
  destruct (List.find (has_id id) l) as [u|] eqn:E; [|done].
  apply find_some in E as [Hin Hu]. apply has_id_true in Ht, Hu. subst.
  specialize (Hl u Hin). apply not_true_iff_false in Hl. rewrite has_id_true in Hl. congruence.
Qed.

Lemma drop_id_length id l i t :
  List.NoDup (map tr_track_id l) -> l !! i = Some t -> tr_track_id t = id ->
  S (List.length (drop_id id l)) = List.length l.
Proof.
  revert i. induction l as [|u l IH]; intros [|i] Hnd Hi Hid; try done;
    inversion Hnd as [|? ? Hn Hnd']; subst; simpl in Hi; unfold drop_id; simpl.
  - injection Hi as ->. unfold has_id at 1. rewrite String.eqb_refl. simpl.
    f_equal. rewrite filter_all; [done|]. intros u Hu. apply negb_true_iff, String.eqb_neq.
    intros He. apply Hn. rewrite <- He. by apply in_map.
  - unfold has_id at 1. destruct (String.eqb_spec (tr_track_id u) (tr_track_id t)) as [He|].
    + exfalso. apply Hn. rewrite He. apply in_map.
      by apply list_elem_of_In, list_elem_of_lookup_2 with i.
    + simpl. f_equal. by apply (IH i).
Qed.

Section Refinement.
Context {C : Type} `{Q : QueryClient C} {laws : QueryClientLaws C}.

(** What the server would answer for one track id under the filters of [q]. *)
Definition admit_one (q : TracksQuery) (t : Track) : option Track :=
  if matchesQuery t q then Some t else None.

(** The list [l] cached for [q] is the view of the tracks [m] through [q]. *)
Definition views (q : TracksQuery) (l : list Track) (m : gmap string Track) : Prop :=
  coherent q l /\ forall id, lookup_id id l = m !! id ≫= admit_one q.

(** The list as the upsert alone leaves it, before closed tracks are evicted. *)
Definition upserted (q : TracksQuery) (track : Track) (l : list Track) : list Track :=
  match find_index (has_id (tr_track_id track)) l with
  | None => if matchesQuery track q then l ++ [track] else l
  | Some index => if matchesQuery track q then <[index := track]> l else drop_id (tr_track_id track) l
  end.
Definition appended (q : TracksQuery) (track : Track) (l : list Track) : bool :=
  match lookup_id (tr_track_id track) l with None => matchesQuery track q | Some _ => false end.

Lemma lookup_find_index id l :
  lookup_id id l = None <-> find_index (has_id id) l = None.
Proof. rewrite lookup_id_None. symmetry. apply find_index_None. Qed.

Lemma views_upserted q l m track :
  views q l m -> views q (upserted q track l) (<[tr_track_id track := track]> m).
Proof.
  intros [Hc Hl].
  assert (forall id, <[tr_track_id track := track]> m !! id ≫= admit_one q =
    if has_id id track then admit_one q track else lookup_id id l) as Hm.
  { intros id. rewrite Hl. unfold has_id.
    destruct (String.eqb_spec (tr_track_id track) id) as [<-|Hne];
      [by rewrite lookup_insert_eq | by rewrite lookup_insert_ne]. }
  unfold views. setoid_rewrite Hm. unfold admit_one, upserted.
  destruct (find_index _ _) as [i|] eqn:Hi, (matchesQuery track q) eqn:Hmq.
  - apply find_index_Some in Hi as (t&Ht&Hid%has_id_true&_).
    split; [by eapply coherent_insert|]. intros id. destruct Hc. by erewrite lookup_id_insert.
  - split; [by apply coherent_filter|]. intros id. by rewrite lookup_id_drop, String.eqb_sym.
  - rewrite find_index_None in Hi. split; [by apply coherent_snoc|]. intros id. by apply lookup_id_snoc.
  - split; [done|]. intros id. destruct (has_id id track) eqn:Hid; [|done].
    apply has_id_true in Hid as <-. by apply lookup_find_index.
Qed.

Lemma upserted_length q l track :
  coherent q l ->
  Z.of_nat (List.length (upserted q track l)) - Z.of_nat (List.length l) =
  match lookup_id (tr_track_id track) l, matchesQuery track q with
  | None, true => 1
  | Some _, false => -1
  | _, _ => 0
  end.
Proof.
  intros [Hnd _]. unfold upserted. destruct (find_index _ _) as [i|] eqn:Hi.
  - destruct (lookup_id _ l) as [u|] eqn:E; [|apply lookup_find_index in E; congruence].
    apply find_index_Some in Hi as (t&Ht&Hid%has_id_true&_).
    destruct (matchesQuery _ _); [rewrite length_insert; lia|].
    pose proof (drop_id_length _ _ _ _ Hnd Ht Hid). lia.
  - apply lookup_find_index in Hi as ->. destruct (matchesQuery _ _); [rewrite length_app; simpl; lia|lia].
Qed.

(** The body of the loop is the upsert, evicting when it appends. *)
Lemma update_entry_upserts q track r :
  0 <= trs_total r -> coherent q (trs_tracks r) ->
  entry_result (update_entry track) (queryKeys.tracks q) (D_tracks r) =
  D_tracks (with_tracks r
    (let l := upserted q track (trs_tracks r) in
     if appended q track (trs_tracks r) then evictExcessClosed l else l)
    (Z.max 0 (trs_total r + Z.of_nat (List.length (upserted q track (trs_tracks r)))
              - Z.of_nat (List.length (trs_tracks r))))).
Proof.
  intros Ht Hc. pose proof (upserted_length q _ track Hc) as Hlen.
  unfold entry_result, update_entry, appended. cbn [tracks_of put_tracks key_query queryKeys.tracks].
  unfold upserted in *. destruct (find_index _ _) as [i|] eqn:Hi.
  - destruct (lookup_id _ _) eqn:E; [|apply lookup_find_index in E; congruence].
    destruct (matchesQuery track q); do 2 f_equal; lia.
  - rewrite (proj2 (lookup_find_index _ _) Hi) in *.
    destruct (matchesQuery track q); [do 2 f_equal; lia|].
    destruct r. unfold with_tracks. simpl in *. do 2 f_equal. lia.
Qed.

(** The lists of the cache are lists, so nothing throws on them. *)
Definition lists_shaped (c : C) : Prop :=
  forall k old, key_matches LIST_PREFIX k = true -> getQueryData c k = Some old -> exists r, old = D_tracks r.

Lemma update_harmless track c : lists_shaped c -> harmless (update_entry track) LIST_PREFIX c.
Proof.
  intros Hs k old Hk (r&->)%Hs; [|done]. unfold update_entry. simpl. by repeat case_match.
Qed.
Lemma close_harmless id c : lists_shaped c -> harmless (close_entry id) LIST_PREFIX c.
Proof.
  intros Hs k old Hk (r&->)%Hs; [|done]. unfold close_entry. simpl. by repeat case_match.
Qed.

Lemma set_shaped c k d :
  key_matches LIST_PREFIX k = false -> lists_shaped c -> lists_shaped (setQueryData c k d).
Proof. intros Hk Hs k' old Hk'. rewrite get_set_ne by congruence. by apply Hs. Qed.

(** C2. A [track.update] is an upsert into every cached list.  Let every list of
    the cache be a list, and one of them be its query's view of the server's
    tracks [m].  Then [applyFrame] returns, and that list is the view of [m]
    with the (normalised) track stored under its id -- added, replaced or removed
    as the filters say, every other row untouched --, less the closed tracks
    evicted past the cap when a row was added and only then; [total] has moved by
    the rows the upsert added or removed, never below zero. *)
Theorem track_update_refines (c : C) ts raw q r m :
  lists_shaped c ->
  getQueryData c (queryKeys.tracks q) = Some (D_tracks r) ->
  views q (trs_tracks r) m ->
  0 <= trs_total r ->
  let track := normalizeTrack raw in
  applyFrame_returns c (track_update ts raw) = true /\
  exists r' l,
    getQueryData (applyFrame c (track_update ts raw)) (queryKeys.tracks q) = Some (D_tracks r') /\
    views q l (<[tr_track_id track := track]> m) /\
    trs_tracks r' = (if appended q track (trs_tracks r) then evictExcessClosed l else l) /\
    ((List.length (List.filter is_closed l) <= MAX_CLOSED_PER_LIST)%nat -> trs_tracks r' = l) /\
    trs_total r' = Z.max 0 (trs_total r + Z.of_nat (List.length l) - Z.of_nat (List.length (trs_tracks r))).
Proof.
  intros Hs Hr Hv Htot. cbn zeta. unfold applyFrame, applyFrame_returns. cbn [run_frame]. set (track := normalizeTrack raw).
  set (c1 := setQueryData c _ _).
  assert (getQueryData c1 (queryKeys.tracks q) = Some (D_tracks r)) as Hr1 by (by rewrite <- Hr; apply get_set_ne).
  destruct (for_entries_spec (update_entry track) LIST_PREFIX c1) as [-> Hget].
  { by apply update_harmless, set_shaped. }
  split; [done|]. specialize (Hget (queryKeys.tracks q)). rewrite Hr1 in Hget.
  change (key_matches LIST_PREFIX (queryKeys.tracks q)) with true in Hget. cbv iota in Hget.
  rewrite update_entry_upserts in Hget by (done || apply Hv).
  eexists _, (upserted q track (trs_tracks r)). split; [exact Hget|]. split; [by apply views_upserted|].
  split; [done|]. split; [|done]. intros Hcap. simpl. destruct (appended _ _ _); [|done].
  unfold evictExcessClosed. by rewrite (proj2 (Nat.leb_le _ _) Hcap).
Qed.

(** A health frame replaces the health record and re-lists the sensors: the
    cached sensors become exactly the frame's, in the frame's order, with every
    field the frame's own except the runtime config, which is the cached one for
    that sensor id whenever there is one. *)
Lemma health_frame_merges (c : C) ts h old :
  getQueryData c queryKeys.sensors = Some (D_sensors old) ->
  getQueryData (applyFrame c (health_frame ts h)) queryKeys.health = Some (D_health h) /\
  exists l,
    getQueryData (applyFrame c (health_frame ts h)) queryKeys.sensors = Some (D_sensors l) /\
    List.Forall2 (fun s s' =>
      s' = match config_of old (sh_sensor_id s) with Some k => with_config s k | None => s end)
      (hl_sensors h) l /\
    map sh_sensor_id l = map sh_sensor_id (hl_sensors h) /\
    map sh_healthy l = map sh_healthy (hl_sensors h) /\
    (forall s, In s l -> forall k, config_of old (sh_sensor_id s) = Some k -> sh_config s = Some k).
Proof.
  intros Ho. unfold applyFrame. simpl. split.
  - by rewrite update_data_spec, decide_False, get_set_eq by done.
  - rewrite update_data_spec, decide_True, get_set_ne, Ho by done. eexists. split; [done|].
    unfold merge_sensors. rewrite !map_map. repeat split.
    + induction (hl_sensors h); simpl; constructor; done.
    + apply map_ext. intros s. by destruct (config_of old _).
    + apply map_ext. intros s. by destruct (config_of old _).
    + intros s (s0&<-&_)%in_map_iff k. destruct (config_of old (sh_sensor_id s0)) eqn:E;
        simpl; rewrite E; congruence.
Qed.

(** The aircraft a detection is attributed to: its non-empty ICAO address. *)
Definition icao_of (d : Detection) : option string :=
  match dt_adsb d with Some a => truthy (Some (ad_icao a)) | None => None end.

Definition one_per_aircraft (l : list Detection) : Prop := List.NoDup (omap icao_of l).

Lemma icao_of_adsb d s : icao_of d = Some s -> (ad_icao <$> dt_adsb d) = Some s.
Proof.
  unfold icao_of. destruct (dt_adsb d) as [a|]; [|done]. simpl.
  by destruct (ad_icao a).
Qed.

Lemma omap_filter_incl p l x : In x (omap icao_of (List.filter p l)) -> In x (omap icao_of l).
Proof.
  rewrite <- !list_elem_of_In, !list_elem_of_omap. setoid_rewrite list_elem_of_In.
  intros (d&[Hd _]%filter_In&Hx). eauto.
Qed.

Lemma one_per_aircraft_filter p l : one_per_aircraft l -> one_per_aircraft (List.filter p l).
Proof.
  unfold one_per_aircraft. induction l as [|d l IH]; simpl; [done|].
  destruct (icao_of d) as [s|] eqn:E, (p d); simpl; rewrite ?E; intros H;
    try inversion H; subst; auto.
  constructor; [|auto]. intros Hin%omap_filter_incl. done.
Qed.

Lemma one_per_aircraft_take n l : one_per_aircraft l -> one_per_aircraft (take n l).
Proof.
  unfold one_per_aircraft. intros H. rewrite <- (take_drop n l), omap_app in H.
  by apply NoDup_ListNoDup, NoDup_app in H as [?%NoDup_ListNoDup _].
Qed.

Lemma push_detection_spec d l :
  (List.length (push_detection d l) <= MAX_DETECTIONS)%nat /\
  head (push_detection d l) = Some d /\
  (one_per_aircraft l -> one_per_aircraft (push_detection d l)).
Proof.
  unfold push_detection. split; [rewrite length_take; lia|]. split; [reflexivity|].
  intros H. apply one_per_aircraft_take. fold (icao_of d).
  destruct (icao_of d) as [s|] eqn:E.
  - unfold one_per_aircraft. simpl. rewrite E. constructor; [|by apply one_per_aircraft_filter].
    rewrite <- list_elem_of_In, list_elem_of_omap. setoid_rewrite list_elem_of_In.
    intros (x&[_ Hx]%filter_In&Hs). apply icao_of_adsb in Hs.
    by rewrite Hs, bool_decide_true in Hx.
  - unfold one_per_aircraft. simpl. rewrite E. by apply one_per_aircraft_filter.
Qed.

(** Only ADS-B is cached from the stream: a detection of any other class leaves
    the cache as it is, and a class D one goes to the front of every cached
    detection list, all of them being such lists, which never grows past [MAX_DETECTIONS] entries and keeps at
    most one entry per aircraft. *)
Lemma detection_frame_bounded (c : C) ts d :
  (dt_detection_class d <> ClsD -> applyFrame c (detection_frame ts d) = c) /\
  (dt_detection_class d = ClsD ->
   (forall k old, key_matches [seg "detections"] k = true -> getQueryData c k = Some old ->
      exists r, old = D_detections r) ->
   forall q r,
     getQueryData c (queryKeys.detections q) = Some (D_detections r) ->
     exists r',
       getQueryData (applyFrame c (detection_frame ts d)) (queryKeys.detections q)
       = Some (D_detections r') /\
       (List.length (drs_detections r') <= MAX_DETECTIONS)%nat /\
       head (drs_detections r') = Some d /\
       (one_per_aircraft (drs_detections r) -> one_per_aircraft (drs_detections r'))).
Proof.
  unfold applyFrame. simpl. split; intros Hd; [by rewrite bool_decide_false|].
  rewrite bool_decide_true by done. intros Hs q r Hr.
  destruct (for_entries_spec (fun _ => detection_entry d) [seg "detections"] c) as [_ Hget].
  { intros k old Hk (r'&->)%Hs; done. }
  rewrite Hget, Hr. change (key_matches _ (queryKeys.detections q)) with true.
  eexists. split; [done|]. apply push_detection_spec.
Qed.

Lemma put_sweep_find s l :
  List.find (has_sweep_id (sw_sweep_id s)) (put_sweep s l) = Some s.
Proof.
  unfold put_sweep. assert (has_sweep_id (sw_sweep_id s) s = true) as Hs by apply String.eqb_refl.
  destruct (find_index _ l) as [i|] eqn:E; simpl; [|by rewrite Hs].
  revert i E. induction l as [|x l IH]; intros i E; [done|]. simpl in E.
  destruct (has_sweep_id _ x) eqn:Hx.
  - injection E as <-. simpl. by rewrite Hs.
  - destruct (find_index _ l) as [k|]; [|done]. injection E as <-. simpl. rewrite Hx. by apply IH.
Qed.

Lemma put_sweep_other s l s' :
  sw_sweep_id s' <> sw_sweep_id s -> In s' (put_sweep s l) <-> In s' l.
Proof.
  intros Hne. unfold put_sweep. destruct (find_index _ l) as [i|] eqn:E; simpl.
  - apply find_index_Some in E as (x&Hx&Hid%String.eqb_eq&_). split.
    + intros [->|?]%In_list_insert; done.
    + intros Hin. apply list_elem_of_In, list_elem_of_lookup in Hin as [j Hj].
      apply list_elem_of_In, list_elem_of_lookup. exists j.
      rewrite list_lookup_insert_ne; [done|]. intros ->. congruence.
  - split; [|tauto]. intros [->|?]; done.
Qed.

(** A sweep frame carries the record and never the measurement: it writes no
    sweep detail (the data under every ['spectrum','sweep',id,bins] key is what it
    was), the record is the one the cached list shows for its id, the other
    sweeps stay, and once the sweep has stopped running every cached detail of it
    is marked for refetching. *)
Lemma sweep_frame_spares_detail (c : C) ts s :
  (forall id bins,
     getQueryData (applyFrame c (sweep_status ts s)) (queryKeys.spectrumSweep id bins)
     = getQueryData c (queryKeys.spectrumSweep id bins)) /\
  (forall r, getQueryData c queryKeys.spectrumSweeps = Some (D_sweeps r) ->
     exists r',
       getQueryData (applyFrame c (sweep_status ts s)) queryKeys.spectrumSweeps
       = Some (D_sweeps r') /\
       List.find (has_sweep_id (sw_sweep_id s)) (ssr_sweeps r') = Some s /\
       forall s', sw_sweep_id s' <> sw_sweep_id s ->
         In s' (ssr_sweeps r') <-> In s' (ssr_sweeps r)) /\
  (sw_state s <> sweep_running ->
   (forall old, getQueryData c queryKeys.spectrumSweeps = Some old -> exists r, old = D_sweeps r) ->
   forall bins d,
     getQueryData c (queryKeys.spectrumSweep (sw_sweep_id s) bins) = Some d ->
     isInvalidated (applyFrame c (sweep_status ts s))
       (queryKeys.spectrumSweep (sw_sweep_id s) bins) = true).
Proof.
  unfold applyFrame. simpl. set (u := update_data c queryKeys.spectrumSweeps (sweeps_entry s)).
  assert (forall k, getQueryData (fst (and_then u (fun c1 => (if bool_decide (sw_state s = sweep_running) then c1
    else invalidateQueries (invalidateQueries c1 [seg "spectrum"; seg "sweep"; seg (sw_sweep_id s)])
           queryKeys.spectrumBands, true)))) k = getQueryData (fst u) k) as Hk.
  { intros k. unfold and_then. destruct (snd u); [|done]. simpl. case_bool_decide; by rewrite ?get_invalidate. }
  split; [|split].
  - intros id bins. rewrite Hk. unfold u. by rewrite update_data_spec, decide_False.
  - intros r Hr. exists {| ssr_sweeps := put_sweep s (ssr_sweeps r) |}.
    split; [|split; [apply put_sweep_find | apply put_sweep_other]].
    rewrite Hk. unfold u. by rewrite update_data_spec, decide_True, Hr.
  - intros Hs Hsh bins d Hd.
    assert (snd u = true) as Hu by (apply update_data_returns; by intros old (r&->)%Hsh).
    unfold and_then. rewrite Hu, bool_decide_false by done. simpl.
    eapply invalidated_mono, invalidated_matching.
    + simpl. by rewrite !bool_decide_true.
    + unfold u. by rewrite update_data_spec, decide_False, Hd.
Qed.
End Refinement.

(** ** An instance: a cache as a list of entries, newest first *)
Module ListCache.

Record entry := { en_data : CacheData; en_invalidated : bool }.
Definition cache := list (QueryKey * entry).

Fixpoint find_key (k : QueryKey) (c : cache) : option entry :=
  match c with
  | [] => None
  | (k', e) :: c' => if decide (k = k') then Some e else find_key k c'
  end.

(** The live entries: an older write of the same key is shadowed. *)
Fixpoint live (c : cache) : cache :=
  match c with
  | [] => []
  | (k, e) :: c' => (k, e) :: List.filter (fun x => negb (bool_decide (fst x = k))) (live c')
  end.

Definition invalidate (c : cache) (p : QueryKey) : cache :=
  map (fun '(k, e) =>
         (k, if key_matches p k then {| en_data := en_data e; en_invalidated := true |} else e)) c.

#[export] Instance client : QueryClient cache := {|
  getQueryData c k := en_data <$> find_key k c;
  setQueryData c k d := (k, {| en_data := d; en_invalidated := false |}) :: c;
  getQueriesData c p :=
    map (fun '(k, e) => (k, Some (en_data e))) (List.filter (fun x => key_matches p (fst x)) (live c));
  invalidateQueries := invalidate;
  isInvalidated c k := match find_key k c with Some e => en_invalidated e | None => false end
|}.

Lemma In_live c k e : In (k, e) (live c) <-> find_key k c = Some e.
Proof.
  induction c as [|[k' e'] c IH]; simpl; [done|].
  rewrite filter_In, IH. simpl. case_decide as Hk; [subst|].
  - rewrite bool_decide_true by done. simpl. intuition congruence.
  - rewrite bool_decide_false by done. intuition congruence.
Qed.

Lemma live_nodup c : List.NoDup (map fst (live c)).
Proof.
  induction c as [|[k e] c IH]; simpl; constructor.
  - intros (x&<-&[_ Hx]%filter_In)%in_map_iff. by rewrite bool_decide_true in Hx.
  - by apply NoDup_map_filter.
Qed.

Lemma find_invalidate c p k :
  find_key k (invalidate c p) =
  (fun e => if key_matches p k then {| en_data := en_data e; en_invalidated := true |} else e)
  <$> find_key k c.
Proof.
  induction c as [|[k' e'] c IH]; simpl; [done|]. case_decide; [by subst | done].
Qed.

#[export] Instance client_laws : QueryClientLaws cache.
Proof.
  constructor; simpl.
  - intros. by rewrite decide_True.
  - intros c k k' d Hk. by rewrite decide_False.
  - intros c p k d. rewrite in_map_iff. split.
    + intros ([k' e]&[= -> <-]&[Hin Hm]%filter_In). apply In_live in Hin.
      simpl in Hm. by rewrite Hin.
    + intros [Hm Hd]. apply fmap_Some in Hd as (e&He&->). exists (k, e). split; [done|].
      apply filter_In. split; [by apply In_live | done].
  - intros c p. rewrite map_map.
    replace (map _ _) with (map fst (List.filter (fun x => key_matches p (fst x)) (live c))).
    + apply NoDup_map_filter, live_nodup.
    + apply map_ext. by intros [].
  - intros c p k. rewrite find_invalidate. destruct (find_key k c); simpl; [|done].
    by destruct (key_matches p k).
  - intros c p k d Hm Hd. rewrite find_invalidate. destruct (find_key k c); [|done].
    simpl. by rewrite Hm.
  - intros c p k. rewrite find_invalidate. destruct (find_key k c); simpl; [|done].
    by destruct (key_matches p k).
Qed.

End ListCache.

(** ** The time window of a query *)

Lemma slt_compare a b : (a <<< b) = match String.compare a b with Lt => true | _ => false end.
Proof. done. Qed.

Lemma toISOString_lt a b :
  four_digit_year a -> four_digit_year b -> (toISOString a <<< toISOString b) = (a <? b)%Z.
Proof.
  intros Ha Hb. rewrite slt_compare, toISOString_compare by done.
  unfold Z.ltb. by destruct (a ?= b).
Qed.

Lemma toISOString_truthy t : four_digit_year t -> truthy (Some (toISOString t)) = Some (toISOString t).
Proof.
  intros H. assert (String.length (toISOString t) <> 0%nat) as Hl.
  { rewrite toISOString_eq, slength_app by done. unfold print_day.
    destruct (CivilFromDay _) as [[? ?] ?]. rewrite !slength_app, !pad_length. lia. }
  by destruct (toISOString t).
Qed.

Definition with_window (q : TracksQuery) (since until : option string) : TracksQuery :=
  {| tq_state := tq_state q; tq_since := since; tq_until := until; tq_serial := tq_serial q;
     tq_vendor := tq_vendor q; tq_min_confidence := tq_min_confidence q;
     tq_limit := tq_limit q; tq_cursor := tq_cursor q |}.

(** The window filter compares timestamps as strings, and that is comparing
    the instants: for printed timestamps of four-digit years, a track last seen
    at [t] passes [since] = [a], [until] = [b] exactly when [a <= t <= b] and it
    passes the query's other filters. *)
Lemma matchesQuery_window track q a b t :
  four_digit_year a -> four_digit_year b -> four_digit_year t ->
  tr_last_seen track = toISOString t ->
  matchesQuery track (with_window q (Some (toISOString a)) (Some (toISOString b)))
  = (a <=? t) && (t <=? b) && matchesQuery track (with_window q None None).
Proof.
  intros Ha Hb Ht Hs. unfold matchesQuery. cbn [with_window tq_state tq_since tq_until
    tq_serial tq_vendor tq_min_confidence].
  rewrite !toISOString_truthy, Hs, !toISOString_lt, !Z.ltb_antisym, !negb_involutive by done.
  simpl. btauto.
Qed.

(** ** Concrete runs *)
Section Examples.
Import ListCache.

Definition sample_track (id : string) (s : TrackState) (seen : string) : Track :=
  {| tr_track_id := id; tr_state := s; tr_first_seen := seen; tr_last_seen := seen;
     tr_detection_count := 3; tr_identity := None; tr_confidence := of_ratio 4 5;
     tr_evidence := Some []; tr_current := None; tr_history := Some []; tr_operator := None;
     tr_rssi_dbm := None; tr_receivers := None; tr_adsb_correlated := Some false |}.

Definition sample_raw (t : Track) : RawTrack :=
  {| raw_track := t; raw_evidence := ev_absent; raw_suppression := None |}.

Definition drawer_query : TracksQuery :=
  {| tq_state := Some [CONFIRMED; COASTING; CLOSED]; tq_since := None; tq_until := None;
     tq_serial := None; tq_vendor := None; tq_min_confidence := None; tq_limit := None;
     tq_cursor := None |}.

Definition sample_response : TracksResponse :=
  {| trs_tracks := [sample_track "T1" CONFIRMED "2026-09-15T03:48:07.250Z"];
     trs_next_cursor := None; trs_total := 1 |}.

Definition sample_cache : cache :=
  [(queryKeys.tracks drawer_query,
    {| en_data := D_tracks sample_response; en_invalidated := false |})].

Lemma sample_coherent : coherent drawer_query (trs_tracks sample_response).
Proof. split; repeat constructor; simpl; tauto. Qed.

Lemma sample_cache_coherent : cache_coherent sample_cache.
Proof.
  intros k r Hk. simpl. case_decide as Hd; [|done]. intros [= <-]. subst k.
  apply sample_coherent.
Qed.

Definition lapse_frame : ServerFrame :=
  track_update "2026-09-15T03:48:09.000Z"
    (sample_raw (sample_track "T1" TENTATIVE "2026-09-15T03:48:09.000Z")).

Lemma applyFrame_coherent_witness : cache_coherent (applyFrame sample_cache lapse_frame).
Proof. apply (applyFrame_coherent sample_cache lapse_frame), sample_cache_coherent. Defined.

Lemma evictExcessClosed_spec_witness :
  In (sample_track "T1" CONFIRMED "2026-09-15T03:48:07.250Z")
    (evictExcessClosed [sample_track "T1" CONFIRMED "2026-09-15T03:48:07.250Z"]).
Proof.
  destruct (evictExcessClosed_spec [sample_track "T1" CONFIRMED "2026-09-15T03:48:07.250Z"])
    as (_&H&_); [repeat constructor; simpl; tauto|].
  apply H; [by left | done].
Defined.

Definition sample_server : gmap string Track :=
  {[ "T1" := sample_track "T1" CONFIRMED "2026-09-15T03:48:07.250Z" ]}.

Lemma sample_views : views drawer_query (trs_tracks sample_response) sample_server.
Proof.
  split; [apply sample_coherent|]. intros id. unfold sample_server.
  change (lookup_id id _) with (if "T1" === id
    then Some (sample_track "T1" CONFIRMED "2026-09-15T03:48:07.250Z") else None).
  destruct (String.eqb_spec "T1" id) as [<-|Hne].
  - rewrite lookup_singleton_eq. reflexivity.
  - by rewrite lookup_singleton_ne.
Qed.

Lemma sample_shaped : lists_shaped sample_cache.
Proof. intros k old Hk. simpl. case_decide; [|done]. intros [= <-]. eauto. Qed.

Lemma track_update_refines_witness :
  applyFrame_returns sample_cache lapse_frame = true /\
  exists r',
    getQueryData (applyFrame sample_cache lapse_frame) (queryKeys.tracks drawer_query)
    = Some (D_tracks r') /\ trs_tracks r' = [] /\ trs_total r' = 0.
Proof.
  destruct (track_update_refines sample_cache "2026-09-15T03:48:09.000Z"
    (sample_raw (sample_track "T1" TENTATIVE "2026-09-15T03:48:09.000Z"))
    drawer_query sample_response sample_server) as (Hok&r'&l&Hr&_).
  - exact sample_shaped.
  - reflexivity.
  - apply sample_views.
  - simpl. lia.
  - split; [exact Hok|]. exists r'. split; [exact Hr|].
    vm_compute in Hr. injection Hr as <-. split; reflexivity.
Defined.

(** Data of another shape under a list's key is not passed over: the frame's own
    record is written, and then the loop throws. *)
Example another_shape_throws :
  let c := setQueryData sample_cache (queryKeys.tracks no_filters) (D_detections
             {| drs_detections := []; drs_next_cursor := None; drs_total := 0 |}) in
  applyFrame_returns c lapse_frame = false /\
  getQueryData (applyFrame c lapse_frame) (queryKeys.tracks drawer_query) = Some (D_tracks sample_response).
Proof. vm_compute. split; reflexivity. Qed.

Definition sample_sensor (id : string) (h : bool) (cfg : option SensorRuntimeConfig) : SensorHealth :=
  {| sh_sensor_id := id; sh_sensor_kind := wifi; sh_healthy := h;
     sh_last_heartbeat := "2026-09-15T03:48:07.250Z"; sh_seconds_since_heartbeat := of_Z 2;
     sh_detections_5m := Some 0; sh_reason := None; sh_detail := None; sh_optional := None;
     sh_config := cfg |}.

Definition sample_config : SensorRuntimeConfig :=
  {| rt_unit := "classg-sensor-wifi.service"; rt_stale_after_s := of_Z 30; rt_expected := true;
     rt_restart_command := "systemctl restart"; rt_restart_available := true;
     rt_restart_unavailable_reason := None;
     rt_capture := {| cc_supported := true; cc_interface := None; cc_channel := None;
                      cc_duration_s := None; cc_label := None |} |}.

Definition sensors_cache : cache :=
  [(queryKeys.sensors,
    {| en_data := D_sensors [sample_sensor "wifi-0" true (Some sample_config)];
       en_invalidated := false |})].

Definition sample_health (l : list SensorHealth) (s : SystemStatus) : Health :=
  {| hl_status := s; hl_uptime_s := of_Z 60; hl_version := "1.0"; hl_sensors := l |}.

Lemma health_frame_merges_witness :
  getQueryData
    (applyFrame sensors_cache
       (health_frame "" (sample_health [sample_sensor "wifi-0" false None] sys_down)))
    queryKeys.health
  = Some (D_health (sample_health [sample_sensor "wifi-0" false None] sys_down)).
Proof.
  apply (health_frame_merges sensors_cache ""
    (sample_health [sample_sensor "wifi-0" false None] sys_down)
    [sample_sensor "wifi-0" true (Some sample_config)]).
  reflexivity.
Defined.

Definition sample_detection (id : string) (cls : DetectionClass) (icao : option string) : Detection :=
  {| dt_detection_id := id; dt_ts := "2026-09-15T03:48:07.250Z"; dt_sensor_id := "sdr-0";
     dt_sensor_kind := sdr; dt_detection_class := cls; dt_rf := None; dt_identity := None;
     dt_position := None; dt_kinematics := None; dt_operator := None;
     dt_signal_features := None;
     dt_adsb := (fun i => {| ad_icao := i; ad_callsign := None; ad_alt_ft := None;
                             ad_ground_speed_kt := None |}) <$> icao;
     dt_raw := None |}.

Lemma detection_frame_bounded_witness :
  applyFrame sensors_cache (detection_frame "" (sample_detection "D1" ClsA None)) = sensors_cache.
Proof. by apply (detection_frame_bounded sensors_cache "" (sample_detection "D1" ClsA None)). Defined.

Definition sample_sweep (s : SweepState) : SpectrumSweep :=
  {| sw_sweep_id := "S1"; sw_band := "915"; sw_state := s; sw_started_at := "";
     sw_ended_at := None; sw_class := None; sw_note := None; sw_start_hz := None;
     sw_stop_hz := None; sw_steps := None; sw_noise_floor_dbfs := None;
     sw_threshold_dbfs := None; sw_peak_dbfs := None; sw_peak_hz := None;
     sw_short_reads := None; sw_error := None |}.

Lemma sweep_frame_spares_detail_witness :
  getQueryData (applyFrame sensors_cache (sweep_status "" (sample_sweep sweep_completed)))
    (queryKeys.spectrumSweep "S1" 512)
  = getQueryData sensors_cache (queryKeys.spectrumSweep "S1" 512).
Proof. apply (sweep_frame_spares_detail sensors_cache "" (sample_sweep sweep_completed)). Defined.

Lemma matchesQuery_window_witness :
  matchesQuery (sample_track "T1" CONFIRMED "2026-09-15T03:48:07.250Z")
    (with_window no_filters (Some (toISOString 1789444000000)) (Some (toISOString 1789444100000)))
  = true.
Proof.
  rewrite (matchesQuery_window _ no_filters 1789444000000 1789444100000 1789444087250).
  - reflexivity.
  - apply four_digit_year_range. lia.
  - apply four_digit_year_range. lia.
  - apply four_digit_year_range. lia.
  - vm_compute. reflexivity.
Defined.
End Examples.
