(* ===== verification/Transport.v ===== *)
(** * Transport: the fetch wrapper and the endpoints

    [lib/api/client.ts]: [request] turns a reply into a value or a typed error,
    [api] says which request each endpoint sends, and two normalisations meet
    the shapes older builds send.  A program that talks to the API is a
    computation of [Io]: it threads the world [fetch] acts on, and ends with a
    value or a failure.  Reading a JSON body at a contract type, TypeScript's
    unchecked [as T], is the class [Wire]. *)
From Stdlib Require Import ZArith Bool String Ascii List Lia.
From stdpp Require Import base option list strings pretty.
From S2P Require Import Prelude JsNumber JsString UrlCodec ApiTypes LiveFrames.

(** ** Errors and replies *)

Record ApiError := {
  ae_status : Z;
  ae_code : option json;
  ae_message : json;
  ae_field : option json
}.

Definition isPrivilegesRequired (e : ApiError) : bool :=
  match ae_code e with Some (JStr c) => c === "privileges_required" | _ => false end.
Definition isNotFound (e : ApiError) : bool :=
  match ae_code e with Some (JStr c) => c === "not_found" | _ => false end || (ae_status e =? 404).

(** What [fetch] settles with; [rs_json] is [None] when the body is not JSON. *)
Record Response := { rs_status : Z; rs_statusText : string; rs_json : option json }.
Inductive FetchResult := answered (r : Response) | unreachable.

Definition response_ok (r : Response) : bool := (200 <=? rs_status r) && (rs_status r <=? 299).

(** What a caller's promise rejects with: the API's refusal, or an error of the
    host: the network, the JSON parser, a read of undefined. *)
Inductive HostError := NetworkError | JsonSyntaxError | ReadOfUndefined.
Inductive Failure := failed_api (e : ApiError) | failed_host (e : HostError).

(** The error member of an envelope, if the body is one. *)
Definition isApiErrorBody (value : json) : option (list (string * json)) :=
  match value with
  | JObj fields =>
      match assoc "error" fields with
      | Some (JObj err) => match assoc "message" err with Some _ => Some err | None => None end
      | _ => None
      end
  | _ => None
  end.

(** What a refusal throws: the envelope's error, or the status line. *)
Definition refusal (response : Response) : ApiError :=
  match isApiErrorBody (rs_json response ?? JNull) with
  | Some err =>
      {| ae_status := rs_status response; ae_code := assoc "code" err;
         ae_message := assoc "message" err ?? JNull; ae_field := assoc "field" err |}
  | None =>
      {| ae_status := rs_status response; ae_code := Some (JStr "internal");
         ae_message := JStr (pretty (rs_status response) +:+ " " +:+ rs_statusText response); ae_field := None |}
  end.

(** ** Query strings *)

Inductive QueryValue :=
| qv_undefined
| qv_string (s : string)
| qv_number (n : num)
| qv_list (l : list string).

Definition qv_opt (s : option string) : QueryValue := match s with Some s => qv_string s | None => qv_undefined end.
Definition qv_int (n : option Z) : QueryValue := match n with Some n => qv_string (pretty n) | None => qv_undefined end.
Definition qv_num (n : option num) : QueryValue := match n with Some n => qv_number n | None => qv_undefined end.

Definition buildQuery (params : list (string * QueryValue)) : string :=
  let search := fold_left (fun search e =>
    match e.2 with
    | qv_undefined => search
    | qv_list l => match l with [] => search | _ => params_set e.1 (join "," l) search end
    | qv_string s => params_set e.1 s search
    | qv_number n => params_set e.1 (num_string n) search
    end) params [] in
  match params_toString search with
  | EmptyString => ""
  | qs => "?" +:+ qs
  end.

(** ** Requests *)

Record RequestInit := {
  ri_method : option string;
  ri_headers : list (string * string);
  ri_body : option json
}.
Definition no_init : RequestInit := {| ri_method := None; ri_headers := []; ri_body := None |}.

(** What goes out; the body is the value whose JSON text is sent. *)
Record Sent := {
  sn_url : string;
  sn_method : string;
  sn_credentials : string;
  sn_headers : list (string * string);
  sn_body : option json
}.

(** [Headers]: names compare without case. *)
Definition headers_of (l : list (string * string)) : list (string * string) :=
  map (fun e => (toLowerCase e.1, e.2)) l.
Definition headers_has (name : string) (h : list (string * string)) : bool :=
  existsb (fun e => e.1 === toLowerCase name) h.
Definition headers_default (name value : string) (h : list (string * string)) : list (string * string) :=
  if headers_has name h then h else h ++ [(toLowerCase name, value)].

Definition request_headers (init : RequestInit) : list (string * string) :=
  let headers := headers_default "Accept" "application/json" (headers_of (ri_headers init)) in
  match ri_body init with
  | Some _ => headers_default "Content-Type" "application/json" headers
  | None => headers
  end.

Record Request := { rq_path : string; rq_init : RequestInit }.
Definition get (path : string) : Request := {| rq_path := path; rq_init := no_init |}.
Definition call (method path : string) (body : option json) : Request :=
  {| rq_path := path; rq_init := {| ri_method := Some method; ri_headers := []; ri_body := body |} |}.

(** [as T]. *)
Class Wire (T : Type) := as_ : json -> T.
#[export] Instance Wire_json : Wire json := fun v => v.

(** ** Computations that talk to the API *)

Section Io.
Context {World : Type}.

Definition Io (A : Type) : Type := World -> (A + Failure) * World.

#[export] Instance Io_ret : MRet Io := fun A v w => (inl v, w).
#[export] Instance Io_bind : MBind Io := fun A B f m w =>
  match m w with
  | (inl v, w') => f v w'
  | (inr e, w') => (inr e, w')
  end.
Definition throw {A} (e : Failure) : Io A := fun w => (inr e, w).

(** A property read of a value that may be undefined. *)
Definition defined {A} (v : option A) : Io A :=
  match v with Some v => mret v | None => throw (failed_host ReadOfUndefined) end.

Context (fetch : Sent -> World -> FetchResult * World) (API_BASE : string).

Definition sent_for (path : string) (init : RequestInit) : Sent :=
  {| sn_url := API_BASE +:+ path; sn_method := ri_method init ?? "GET"; sn_credentials := "same-origin";
     sn_headers := request_headers init; sn_body := ri_body init |}.

(** [undefined] is [None]. *)
Definition request {T} `{Wire T} (path : string) (init : RequestInit) : Io (option T) := fun w =>
  let '(result, w) := fetch (sent_for path init) w in
  (match result with
   | unreachable => inr (failed_host NetworkError)
   | answered response =>
       if negb (response_ok response) then inr (failed_api (refusal response))
       else if rs_status response =? 204 then inl None
       else match rs_json response with
            | Some v => inl (Some (as_ v))
            | None => inr (failed_host JsonSyntaxError)
            end
   end, w).

Definition send {T} `{Wire T} (r : Request) : Io (option T) := request (rq_path r) (rq_init r).

End Io.

(** The API's base is a build setting with a default. *)
Definition API_BASE (VITE_API_BASE : option string) : string := VITE_API_BASE ?? "/api/v1".

Definition unwrapConfigValue (response : json) : json :=
  match response with
  | JObj fields => assoc "value" fields ?? response
  | _ => response
  end.

(** The track pages as they arrive. *)
Record RawTracksResponse := {
  rt_tracks : list RawTrack;
  rt_next_cursor : option string;
  rt_total : Z
}.

(** ** The endpoints

    Each is the request it sends; those that treat the reply are computations
    beside it. *)
Module Api.

Definition health : Request := get "/health".
Definition system : Request := get "/system".
Definition monitoring : Request := get "/monitoring".
Definition telemetry (window since : option string) : Request :=
  get ("/telemetry" +:+ buildQuery [("window", qv_opt window); ("since", qv_opt since)]).

Definition opt_field (key : string) (v : option string) : list (string * json) :=
  match v with Some s => [(key, JStr s)] | None => [] end.
Definition setMonitoring (enabled : bool) (reason : option string) : Request :=
  call "PUT" "/monitoring" (Some (JObj (("enabled", JBool enabled) :: opt_field "reason" reason))).

Definition sensors_request : Request := get "/sensors".
Definition restartSensor (sensorId : string) : Request :=
  call "POST" ("/sensors/" +:+ encodeURIComponent sensorId +:+ "/restart") None.

Definition tracks_request (query : TracksQuery) : Request :=
  get ("/tracks" +:+ buildQuery
    [("state", qv_list (map TrackState_string (tq_state query ?? [])));
     ("since", qv_opt (tq_since query));
     ("until", qv_opt (tq_until query));
     ("serial", qv_opt (tq_serial query));
     ("vendor", qv_opt (tq_vendor query));
     ("min_confidence", qv_num (tq_min_confidence query));
     ("limit", qv_int (tq_limit query));
     ("cursor", qv_opt (tq_cursor query))]).
Definition track_request (trackId : string) : Request := get ("/tracks/" +:+ encodeURIComponent trackId).
Definition trackDetections (trackId : string) (query : DetectionsQuery) : Request :=
  get ("/tracks/" +:+ encodeURIComponent trackId +:+ "/detections" +:+ buildQuery
    [("since", qv_opt (dq_since query)); ("limit", qv_int (dq_limit query)); ("cursor", qv_opt (dq_cursor query))]).
Definition detections (query : DetectionsQuery) : Request :=
  get ("/detections" +:+ buildQuery
    [("class", qv_list (map DetectionClass_string (dq_class query ?? [])));
     ("sensor_id", qv_opt (dq_sensor_id query));
     ("since", qv_opt (dq_since query));
     ("limit", qv_int (dq_limit query));
     ("cursor", qv_opt (dq_cursor query))]).

Definition aircraftLabels : Request := get "/aircraft/labels".
Definition aircraftLabel (serial : string) : Request :=
  get ("/aircraft/" +:+ encodeURIComponent serial +:+ "/label").
Definition setAircraftLabel (serial : string) (body : json) : Request :=
  call "PUT" ("/aircraft/" +:+ encodeURIComponent serial +:+ "/label") (Some body).

Definition authMe : Request := get "/auth/me".
Definition login (body : json) : Request := call "POST" "/auth/login" (Some body).
Definition logout : Request := call "POST" "/auth/logout" None.
Definition setupFirstAdmin (body : json) : Request := call "POST" "/auth/setup" (Some body).
Definition changePassword (currentPassword newPassword : string) : Request :=
  call "POST" "/auth/password"
    (Some (JObj [("current_password", JStr currentPassword); ("new_password", JStr newPassword)])).
Definition ssoStartUrl (base returnTo : string) : string :=
  base +:+ "/auth/sso/start" +:+ buildQuery [("return", qv_string returnTo)].

Definition hookRules : Request := get "/admin/hooks".
Definition createHookRule (body : json) : Request := call "POST" "/admin/hooks" (Some body).
Definition updateHookRule (ruleId : string) (body : json) : Request :=
  call "PUT" ("/admin/hooks/" +:+ encodeURIComponent ruleId) (Some body).
Definition deleteHookRule (ruleId : string) : Request :=
  call "DELETE" ("/admin/hooks/" +:+ encodeURIComponent ruleId) None.
Definition testHookRule (ruleId : string) : Request :=
  call "POST" ("/admin/hooks/" +:+ encodeURIComponent ruleId +:+ "/test") None.
Definition hookDeliveries : Request := get "/admin/hook-deliveries".

Definition boundaries : Request := get "/admin/boundaries".
Definition createBoundary (body : json) : Request := call "POST" "/admin/boundaries" (Some body).
Definition updateBoundary (boundaryId : string) (body : json) : Request :=
  call "PUT" ("/admin/boundaries/" +:+ encodeURIComponent boundaryId) (Some body).
Definition deleteBoundary (boundaryId : string) : Request :=
  call "DELETE" ("/admin/boundaries/" +:+ encodeURIComponent boundaryId) None.

Definition watchdog : Request := get "/admin/watchdog".
Definition deployment : Request := get "/admin/deployment".
Definition deploymentHistory (limit : option Z) : Request :=
  let query := match limit with None => "" | Some n => "?limit=" +:+ pretty n end in
  get ("/admin/deployment/history" +:+ query).
Definition requestDeploy : Request := call "POST" "/admin/deployment/deploy" None.
Definition cancelDeploy : Request := call "DELETE" "/admin/deployment/deploy" None.

Definition users : Request := get "/admin/users".
Definition createUser (body : json) : Request := call "POST" "/admin/users" (Some body).
Definition updateUser (userId : string) (body : json) : Request :=
  call "PATCH" ("/admin/users/" +:+ encodeURIComponent userId) (Some body).
Definition deleteUser (userId : string) : Request :=
  call "DELETE" ("/admin/users/" +:+ encodeURIComponent userId) None.
Definition sessions : Request := get "/admin/sessions".
Definition revokeSession (sessionId : string) : Request :=
  call "DELETE" ("/admin/sessions/" +:+ encodeURIComponent sessionId) None.

Definition spectrumBands : Request := get "/spectrum/bands".
Definition spectrumSweeps : Request := get "/spectrum/sweeps".
Definition spectrumSweep (sweepId : string) (bins : option Z) : Request :=
  get ("/spectrum/sweeps/" +:+ encodeURIComponent sweepId +:+ buildQuery [("bins", qv_int bins)]).
Definition startSweep (body : json) : Request := call "POST" "/spectrum/sweeps" (Some body).

Definition captures : Request := get "/captures".
Definition capture (captureId : string) : Request := get ("/captures/" +:+ encodeURIComponent captureId).
Definition startCapture (body : json) : Request := call "POST" "/captures" (Some body).
Definition stopCapture (captureId : string) : Request :=
  call "POST" ("/captures/" +:+ encodeURIComponent captureId +:+ "/stop") None.
Definition analyzeCapture (captureId : string) : Request :=
  call "POST" ("/captures/" +:+ encodeURIComponent captureId +:+ "/analyze") None.
Definition captureReport (captureId : string) : Request :=
  get ("/captures/" +:+ encodeURIComponent captureId +:+ "/report").
Definition captureDownloadUrl (base captureId : string) : string :=
  base +:+ "/captures/" +:+ encodeURIComponent captureId +:+ "/download".

Definition channelPlan_request : Request := get "/config/channels".
Definition putChannelPlan (body : json) : Request := call "PUT" "/config/channels" (Some body).
Definition weights_request : Request := get "/config/weights".
Definition settings : Request := get "/config/settings".
Definition putSettings (updates : list (string * string)) : Request :=
  call "PUT" "/config/settings" (Some (JObj (map (fun e => (e.1, JStr e.2)) updates))).
Definition putWeights (body : json) : Request := call "PUT" "/config/weights" (Some body).

Section Replies.
Context {World : Type} (fetch : Sent -> World -> FetchResult * World) (base : string).
Context `{Wire RawTracksResponse, Wire RawTrack}.

(** An array, or an object that has one. *)
Definition sensors : Io (World := World) (option json) :=
  r ← send fetch base sensors_request;
  match r with
  | Some (JArr l) => mret (Some (JArr l))
  | Some (JObj fields) => mret (assoc "sensors" fields)
  | Some JNull | None => throw (failed_host ReadOfUndefined)
  | Some _ => mret None
  end.

Definition tracks (query : TracksQuery) : Io (World := World) TracksResponse :=
  r ← send fetch base (tracks_request query);
  res ← defined r;
  mret {| trs_tracks := map normalizeTrack (rt_tracks res);
          trs_next_cursor := rt_next_cursor res; trs_total := rt_total res |}.

Definition track (trackId : string) : Io (World := World) Track :=
  r ← send fetch base (track_request trackId);
  raw ← defined r;
  mret (normalizeTrack raw).

Definition channelPlan : Io (World := World) (option json) :=
  r ← send fetch base channelPlan_request;
  mret (unwrapConfigValue <$> (r : option json)).
Definition weights : Io (World := World) (option json) :=
  r ← send fetch base weights_request;
  mret (unwrapConfigValue <$> (r : option json)).
End Replies.

End Api.

(** ** Query strings read back *)

Definition sent_value (v : QueryValue) : option string :=
  match v with
  | qv_undefined => None
  | qv_string s => Some s
  | qv_number n => Some (num_string n)
  | qv_list [] => None
  | qv_list l => Some (join "," l)
  end.
Definition sent_params (params : list (string * QueryValue)) : SearchParams :=
  omap (fun e => (fun v => (e.1, v)) <$> sent_value e.2) params.

Lemma params_set_new key value l :
  ~ In key (map fst l) -> params_set key value l = l ++ [(key, value)].
Proof.
  intros H. unfold params_set.
  replace (existsb (fun e => e.1 === key) l) with false; [done|].
  symmetry. apply not_true_iff_false. rewrite existsb_exists. intros (e&He&Hk%String.eqb_eq).
  apply H, in_map_iff. eauto.
Qed.

Lemma buildQuery_params params :
  List.NoDup (map fst params) ->
  buildQuery params =
    match params_toString (sent_params params) with EmptyString => "" | qs => "?" +:+ qs end.
Proof.
  intros Hnd. unfold buildQuery.
  set (step := fun (search : SearchParams) (e : string * QueryValue) => _).
  assert (forall acc, (forall k, In k (map fst acc) -> ~ In k (map fst params)) ->
    fold_left step params acc = acc ++ sent_params params) as ->; [|done|by intros ? []].
  induction params as [|[k v] params IH]; intros acc Hacc; [by rewrite app_nil_r|].
  inversion Hnd as [|? ? Hk Hnd']; subst.
  assert (step acc (k, v) = acc ++ from_option (fun s => [(k, s)]) [] (sent_value v)) as Hs.
  { unfold step. destruct v as [|s|n|[|x l]]; cbn [fst snd sent_value from_option]; rewrite ?app_nil_r; try done;
      (rewrite params_set_new; [done|]; intros Hin; apply (Hacc k Hin); by left). }
  cbn [fold_left]. rewrite Hs, IH; [|done|].
  - rewrite <- app_assoc. f_equal. unfold sent_params at 2. cbn. by destruct (sent_value v).
  - intros k' Hin Hin'. rewrite map_app, in_app_iff in Hin. destruct Hin as [Hin|Hin].
    + apply (Hacc k' Hin). by right.
    + destruct (sent_value v); cbn in Hin; [|done]. destruct Hin as [->|[]]. done.
Qed.

(** A URL's parts: a path without [?] and [#], and a query. *)
Lemma url_parts path params :
  free_of "?" path -> free_of "#" path -> List.NoDup (map fst params) ->
  url_path (path +:+ buildQuery params) = path /\
  form_parse (url_query (path +:+ buildQuery params) ?? "") = Some (sent_params params).
Proof.
  intros Hq Hh Hnd. rewrite buildQuery_params by done.
  pose proof (form_parse_toString (sent_params params)) as Hp.
  pose proof (params_toString_free "#" (sent_params params)) as Hf.
  destruct (params_toString (sent_params params)) as [|c s] eqn:E.
  - rewrite sapp_nil_r. unfold url_path, url_query.
    rewrite (split_first_free "#") by done. cbn [fst]. by rewrite (split_first_free "?").
  - unfold url_path, url_query. change ("?" +:+ String c s) with (String "?" (String c s)).
    rewrite (split_first_free "#").
    + cbn [fst]. by rewrite split_first_app.
    + apply free_of_app. split; [done|]. apply free_of_cons. split; [done|]. by apply Hf.
Qed.

Lemma sent_params_keys params :
  List.NoDup (map fst params) -> List.NoDup (map fst (sent_params params)) /\
  forall key, In key (map fst (sent_params params)) -> In key (map fst params).
Proof.
  intros Hnd. induction params as [|[k v] params IH]; [split; [constructor|done]|].
  inversion Hnd as [|? ? Hk Hnd']; subst. destruct (IH Hnd') as [IH1 IH2].
  unfold sent_params in *. cbn. destruct (sent_value v); cbn.
  - split; [constructor; auto|]. intros key [->|Hin]; auto.
  - split; auto.
Qed.

Lemma assoc_sent params key :
  List.NoDup (map fst params) ->
  assoc key (sent_params params) = match assoc key params with Some v => sent_value v | None => None end.
Proof.
  intros Hnd. induction params as [|[k v] params IH]; [done|].
  inversion Hnd as [|? ? Hk Hnd']; subst. cbn [assoc]. destruct (String.eqb_spec k key) as [->|Hkey].
  - unfold sent_params. cbn. destruct (sent_value v) as [s|]; cbn; [by rewrite String.eqb_refl|].
    fold (sent_params params). rewrite IH by done. clear IH Hnd Hnd'.
    induction params as [|[k' v'] params IH]; [done|]. cbn in *.
    destruct (String.eqb_spec k' key) as [->|]; [tauto|]. apply IH. tauto.
  - rewrite <- IH by done. unfold sent_params. cbn. destruct (sent_value v); cbn; [|done].
    by destruct (String.eqb_spec k key).
Qed.

Lemma sent_qv_opt v : sent_value (qv_opt v) = v.
Proof. by destruct v. Qed.
Lemma sent_qv_int n : sent_value (qv_int n) = pretty <$> n.
Proof. by destruct n. Qed.
Lemma sent_qv_num n : sent_value (qv_num n) = num_string <$> n.
Proof. by destruct n. Qed.

(** A list joined at commas comes apart again if no item holds one. *)
Lemma sent_qv_list l :
  List.Forall (free_of ",") l -> from_option (split_on ",") [] (sent_value (qv_list l)) = l.
Proof.
  intros H. destruct l as [|x l]; [done|]. cbn [sent_value from_option]. by apply (split_on_join "," (x :: l)).
Qed.
#[export] Hint Rewrite sent_qv_opt sent_qv_int sent_qv_num : js.

(** C11. A query reaches the other side as it was asked: parsed by the URL
    standard's rules, the request for a list carries exactly the filters that
    are set, whatever characters their values hold, and the states of a list of
    states come apart again at the commas. *)
Theorem tracks_query_reads_back (query : TracksQuery) :
  let url := rq_path (Api.tracks_request query) in
  url_path url = "/tracks" /\
  exists params, form_parse (url_query url ?? "") = Some params /\
    List.NoDup (map fst params) /\
    (forall key, In key (map fst params) ->
       In key ["state"; "since"; "until"; "serial"; "vendor"; "min_confidence"; "limit"; "cursor"]) /\
    from_option (split_on ",") [] (assoc "state" params) = map TrackState_string (tq_state query ?? []) /\
    assoc "since" params = tq_since query /\
    assoc "until" params = tq_until query /\
    assoc "serial" params = tq_serial query /\
    assoc "vendor" params = tq_vendor query /\
    assoc "min_confidence" params = num_string <$> tq_min_confidence query /\
    assoc "limit" params = pretty <$> tq_limit query /\
    assoc "cursor" params = tq_cursor query.
Proof.
  cbn zeta. unfold Api.tracks_request. cbn [get rq_path].
  match goal with |- context [buildQuery ?l] => set (ps := l) end.
  assert (List.NoDup (map fst ps)) as Hnd by (repeat constructor; simpl; intuition congruence).
  destruct (url_parts "/tracks" ps) as [-> Hp]; [done|done|done|].
  split; [done|]. exists (sent_params ps). rewrite !assoc_sent by done.
  destruct (sent_params_keys ps Hnd) as [Hk1 Hk2]. subst ps. cbn [assoc String.eqb Ascii.eqb Bool.eqb].
  autorewrite with js. split_and!; try done.
  apply sent_qv_list, List.Forall_map, List.Forall_forall. by intros [].
Qed.

(** ** Paths hold their identifiers *)

Definition path_of (segments : list string) : string := String.concat "" (map (fun s => "/" +:+ s) segments).

Definition plain_segment (s : string) : Prop :=
  free_of "/" s /\ free_of "?" s /\ free_of "#" s /\ s <> "." /\ s <> "..".

Lemma path_of_cons s l : path_of (s :: l) = "/" +:+ s +:+ path_of l.
Proof. unfold path_of. cbn [map]. destruct l; [by rewrite sapp_nil_r|]. cbn [map String.concat]. by rewrite sapp_nil, sapp_assoc. Qed.

Lemma path_of_free c l :
  c <> "/"%char -> List.Forall (free_of c) l -> free_of c (path_of l).
Proof.
  intros Hc. induction 1 as [|s l Hs Hl IH]; [done|]. rewrite path_of_cons, !free_of_app.
  split_and!; [apply free_of_cons; split; [congruence|done]|done|done].
Qed.

Lemma split_path segments :
  List.Forall (free_of "/") segments -> segments <> [] -> tl (split_on "/" (path_of segments)) = segments.
Proof.
  intros H Hne. induction H as [|s l Hs Hl IH]; [done|]. clear Hne.
  rewrite path_of_cons.
  change ("/" +:+ s +:+ path_of l) with (String "/" (s +:+ path_of l)). cbn [split_on]. rewrite Ascii.eqb_refl. cbn [tl].
  destruct l as [|s' l]; [rewrite sapp_nil_r; by apply split_on_free|].
  specialize (IH ltac:(done)). rewrite path_of_cons in *.
  change ("/" +:+ s' +:+ path_of l) with (String "/" (s' +:+ path_of l)) in *.
  rewrite split_on_app by done. cbn [split_on] in IH. rewrite Ascii.eqb_refl in IH. cbn [tl] in IH. by rewrite IH.
Qed.

Lemma url_segments_path segments params :
  List.Forall plain_segment segments -> segments <> [] -> List.NoDup (map fst params) ->
  url_segments (path_of segments +:+ buildQuery params) = segments.
Proof.
  intros H Hne Hnd. unfold url_segments.
  destruct (url_parts (path_of segments) params) as [-> _]; [| |done|];
    try (apply path_of_free; [done|]; eapply List.Forall_impl; [|exact H]; by intros s (?&?&?&?&?)).
  rewrite split_path; [|eapply List.Forall_impl; [|exact H]; by intros s (?&?&?&?&?)|done].
  rewrite dot_segments_plain; [done|]. eapply List.Forall_impl; [|exact H]. by intros s (?&?&?&?&?).
Qed.

(** Every endpoint that puts an identifier in its path: the URL, and the
    segments before and after the identifier. *)
Definition by_id (query : DetectionsQuery) (bins : option Z) : list ((string -> string) * list string * list string) :=
  let path (r : Request) := "/api/v1" +:+ rq_path r in
  [(fun id => path (Api.restartSensor id), ["sensors"], ["restart"]);
   (fun id => path (Api.track_request id), ["tracks"], []);
   (fun id => path (Api.trackDetections id query), ["tracks"], ["detections"]);
   (fun id => path (Api.aircraftLabel id), ["aircraft"], ["label"]);
   (fun id => path (Api.setAircraftLabel id JNull), ["aircraft"], ["label"]);
   (fun id => path (Api.updateHookRule id JNull), ["admin"; "hooks"], []);
   (fun id => path (Api.deleteHookRule id), ["admin"; "hooks"], []);
   (fun id => path (Api.testHookRule id), ["admin"; "hooks"], ["test"]);
   (fun id => path (Api.updateBoundary id JNull), ["admin"; "boundaries"], []);
   (fun id => path (Api.deleteBoundary id), ["admin"; "boundaries"], []);
   (fun id => path (Api.updateUser id JNull), ["admin"; "users"], []);
   (fun id => path (Api.deleteUser id), ["admin"; "users"], []);
   (fun id => path (Api.revokeSession id), ["admin"; "sessions"], []);
   (fun id => path (Api.spectrumSweep id bins), ["spectrum"; "sweeps"], []);
   (fun id => path (Api.capture id), ["captures"], []);
   (fun id => path (Api.stopCapture id), ["captures"], ["stop"]);
   (fun id => path (Api.analyzeCapture id), ["captures"], ["analyze"]);
   (fun id => path (Api.captureReport id), ["captures"], ["report"]);
   (Api.captureDownloadUrl (API_BASE None), ["captures"], ["download"])].

Lemma encoded_plain id : id <> "." -> id <> ".." -> plain_segment (encodeURIComponent id).
Proof.
  intros H1 H2. split_and!; auto with js; intros H; [apply H1|apply H2];
    (eapply encodeURIComponent_eq; [|exact H]; reflexivity).
Qed.

(** An identifier never leaves its segment: whatever an id holds, slashes,
    question marks and hashes included, the URL of every endpoint that takes
    one has the segments of that endpoint with the id as one of them, and that
    segment decodes to the id.  The two ids that are themselves dot segments
    are the exception. *)
Lemma ids_stay_in_their_segment (id : string) (query : DetectionsQuery) (bins : option Z) :
  id <> "." -> id <> ".." ->
  decode false (encodeURIComponent id) = Some id /\
  List.Forall (fun e => url_segments (e.1.1 id) = ["api"; "v1"] ++ e.1.2 ++ [encodeURIComponent id] ++ e.2)
    (by_id query bins).
Proof.
  intros H1 H2. split; [apply decode_encodeURIComponent|].
  assert (forall l, forallb (fun s => sall uri_safe s && (s !== ".") && (s !== "..")) l = true ->
    List.Forall plain_segment l) as Hlit.
  { intros l. rewrite forallb_forall, List.Forall_forall. intros H s Hs. apply H in Hs.
    rewrite !andb_true_iff, !negb_true_iff, !String.eqb_neq in Hs. destruct Hs as [[Hs ?] ?].
    split_and!; try done; eapply free_of_impl; try exact Hs; done. }
  assert (forall before after params rest,
    rest = buildQuery params -> List.NoDup (map fst params) ->
    List.Forall plain_segment (before ++ after) ->
    url_segments (path_of (before ++ [encodeURIComponent id] ++ after) +:+ rest) =
      before ++ [encodeURIComponent id] ++ after) as Hurl.
  { intros before after params rest -> Hp [Hb Ha]%List.Forall_app. apply url_segments_path; [|by destruct before|done].
    apply List.Forall_app. split; [done|]. constructor; [by apply encoded_plain|done]. }
  assert (forall before after, List.Forall plain_segment (before ++ after) ->
    url_segments (path_of (before ++ [encodeURIComponent id] ++ after)) = before ++ [encodeURIComponent id] ++ after) as Hpath.
  { intros before after H. rewrite <- (Hurl before after [] "" eq_refl) at 2; [by rewrite sapp_nil_r|constructor|done]. }
  repeat (apply List.Forall_cons; [|]); [..|constructor];
    cbn [fst snd Api.trackDetections Api.spectrumSweep get rq_path]; rewrite app_assoc.
  all: match goal with
    | |- url_segments ?u = ?b ++ _ ++ ?a =>
        lazymatch u with
        | context [buildQuery ?ps] =>
            rewrite <- (Hurl b a ps (buildQuery ps) eq_refl)
              by first [apply Hlit; reflexivity | repeat constructor; simpl; intuition congruence]
        | _ => rewrite <- (Hpath b a) by (apply Hlit; reflexivity)
        end
    end.
  all: f_equal; cbn [app]; rewrite !path_of_cons; change (path_of []) with ""; rewrite ?sapp_nil_r, ?sapp_assoc; reflexivity.
Qed.

Lemma ids_stay_in_their_segment_witness :
  "a/b?c#d ü" <> "." /\ "a/b?c#d ü" <> ".." /\ decode false (encodeURIComponent "a/b?c#d ü") = Some "a/b?c#d ü" /\
  url_segments ("/api/v1" +:+ rq_path (Api.capture "a/b?c#d")) = ["api"; "v1"; "captures"; "a%2Fb%3Fc%23d"].
Proof.
  split_and!; [done|done| |reflexivity].
  apply (ids_stay_in_their_segment "a/b?c#d ü"
    {| dq_class := None; dq_sensor_id := None; dq_since := Some "2026-01-01T00:00:00Z"; dq_limit := Some 500; dq_cursor := None |}
    (Some 640)); done.
Defined.

(** The exception is real: [encodeURIComponent] leaves dots alone, and the URL
    of the track [..] is the root of the API. *)
Lemma dot_dot_leaves_its_segment :
  url_segments ("/api/v1" +:+ rq_path (Api.track_request "..")) = ["api"; "v1"].
Proof. reflexivity. Qed.

(** Two identifiers never share a URL. *)
Lemma encodeURIComponent_inj a b : encodeURIComponent a = encodeURIComponent b -> a = b.
Proof.
  intros H. pose proof (decode_encodeURIComponent a) as Ha. rewrite H, decode_encodeURIComponent in Ha. congruence.
Qed.

(** ** What [request] settles with *)
Section Request.
Context {World T : Type} `{Wire T} (fetch : Sent -> World -> FetchResult * World) (base : string).

(** One request goes out, with the cookie and the defaults of the headers. *)
Lemma request_sends_one (path : string) (init : RequestInit) w :
  snd (request (T := T) fetch base path init w) = snd (fetch (sent_for base path init) w).
Proof. unfold request. by destruct (fetch _ w). Qed.

Lemma request_cases (path : string) (init : RequestInit) w :
  fst (request (T := T) fetch base path init w) =
  match fst (fetch (sent_for base path init) w) with
  | unreachable => inr (failed_host NetworkError)
  | answered r =>
      if response_ok r
      then if rs_status r =? 204 then inl None
           else match rs_json r with Some v => inl (Some (as_ v)) | None => inr (failed_host JsonSyntaxError) end
      else inr (failed_api (refusal r))
  end.
Proof.
  unfold request. destruct (fetch _ w) as [[r|] w']; [|done]. cbn [fst].
  destruct (response_ok r); cbn [negb]; [|done]. by destruct (rs_status r =? 204).
Qed.

(** A refusal is typed exactly when the API answered with a status that is not
    a success, and it carries that status. *)
Lemma request_api_error (path : string) (init : RequestInit) w e :
  fst (request (T := T) fetch base path init w) = inr (failed_api e) ->
  exists r, fst (fetch (sent_for base path init) w) = answered r /\ response_ok r = false /\ ae_status e = rs_status r.
Proof.
  rewrite request_cases. destruct (fst (fetch _ w)) as [r|]; [|done].
  destruct (response_ok r) eqn:Eok.
  - destruct (rs_status r =? 204); [done|]. by destruct (rs_json r).
  - intros [= <-]. exists r. split_and!; [done|done|]. unfold refusal. by destruct (isApiErrorBody _).
Qed.
End Request.

(** The envelope and the older direct shape unwrap to the same value, for a
    value that has no member called [value] of its own. *)
Lemma unwrap_envelope value rest : unwrapConfigValue (JObj (("value", value) :: rest)) = value.
Proof. reflexivity. Qed.
Lemma unwrap_direct fields : assoc "value" fields = None -> unwrapConfigValue (JObj fields) = JObj fields.
Proof. intros H. cbn. by rewrite H. Qed.
