(* ===== verification/GraphQl.v ===== *)
(** * GraphQl: a track and its detections in one round trip

    [lib/api/graphql.ts], the one GraphQL query of the console, with
    [features/tracks/height-provenance.ts], which reads a field the query does
    not ask for.  What the mapping gives is what the REST endpoint would give,
    up to the fields left out, and each failure a caller sees is traced to the
    reply that caused it. *)
From Stdlib Require Import ZArith Bool String Ascii List Lia.
From stdpp Require Import base option list strings pretty.
From S2P Require Import Prelude JsNumber JsString JsParse UrlCodec ApiTypes LiveFrames Transport.

(** ** What the endpoint answers *)

(** [data] may be absent, null or a value. *)
Record GraphQLResponse (T : Type) := {
  gr_data : option (option T);
  gr_errors : option (list string)
}.
Arguments gr_data {T}.
Arguments gr_errors {T}.

Definition TRACK_WITH_DETECTIONS_QUERY : string := "
  query TrackWithDetections($trackId: ID!, $limit: Int) {
    track(track_id: $trackId) {
      schema_version track_id state first_seen last_seen detection_count
      confidence rssi_dbm adsb_correlated
      identity { serial macs vendor manufacturer_code model_hint operator_id ua_type }
      evidence { class sensor_kind weight count last_seen }
      receivers { sensor_id sensor_kind detection_count rssi_dbm last_seen }
      current { lat lon alt_geodetic_m height_agl_m speed_mps track_deg at }
      history { lat lon alt_geodetic_m height_agl_m speed_mps track_deg at }
      operator { lat lon alt_m at }
      detections(limit: $limit) {
        detections {
          schema_version detection_id ts sensor_id sensor_kind detection_class
          rf { freq_hz channel rssi_dbm bandwidth_hz snr_db }
          identity { serial mac id_type ua_type operator_id self_id vendor_hint }
          position { lat lon alt_geodetic_m height_agl_m }
          kinematics { speed_mps track_deg vertical_speed_mps }
          operator { lat lon alt_m }
          signal_features {
            burst_rate_hz burst_duration_us duty_cycle hop_count occupied_bw_hz protocol_hint
          }
          adsb { icao callsign alt_ft ground_speed_kt }
        }
        next_cursor
        total
      }
    }
  }
".

Record GqlPosition := {
  gp_lat : num;
  gp_lon : num;
  gp_alt_geodetic_m : option num;
  gp_height_agl_m : option num;
  gp_speed_mps : option num;
  gp_track_deg : option num;
  gp_at : option string
}.

Record GqlOperatorPosition := {
  go_lat : num;
  go_lon : num;
  go_alt_m : option num;
  go_at : option string
}.

Record GqlReceiver := {
  gv_sensor_id : string;
  gv_sensor_kind : SensorKind;
  gv_detection_count : Z;
  gv_rssi_dbm : option num;
  gv_last_seen : option string
}.

Record GqlRf := {
  gf_freq_hz : option string;
  gf_channel : option Z;
  gf_rssi_dbm : option num;
  gf_bandwidth_hz : option string;
  gf_snr_db : option num
}.

(** A detection's position without its pressure altitude and accuracies. *)
Record GqlDetectionPosition := {
  gdp_lat : num;
  gdp_lon : num;
  gdp_alt_geodetic_m : option num;
  gdp_height_agl_m : option num
}.

Record GqlSignalFeatures := {
  gs_burst_rate_hz : option num;
  gs_burst_duration_us : option num;
  gs_duty_cycle : option num;
  gs_hop_count : option Z;
  gs_occupied_bw_hz : option string;
  gs_protocol_hint : option string
}.

Record GqlDetection := {
  gd_detection_id : string;
  gd_ts : string;
  gd_sensor_id : string;
  gd_sensor_kind : SensorKind;
  gd_detection_class : DetectionClass;
  gd_rf : option GqlRf;
  gd_identity : option DetectionIdentity;
  gd_position : option GqlDetectionPosition;
  gd_kinematics : option Kinematics;
  gd_operator : option GqlOperatorPosition;
  gd_signal_features : option GqlSignalFeatures;
  gd_adsb : option Adsb
}.

Record GqlDetectionPage := {
  gpg_detections : list GqlDetection;
  gpg_next_cursor : option string;
  gpg_total : option Z
}.

Record GqlTrack := {
  gt_track_id : string;
  gt_state : TrackState;
  gt_first_seen : string;
  gt_last_seen : string;
  gt_detection_count : Z;
  gt_confidence : num;
  gt_rssi_dbm : option num;
  gt_adsb_correlated : bool;
  gt_identity : option TrackIdentity;
  gt_evidence : option (list Evidence);
  gt_receivers : option (list GqlReceiver);
  gt_current : option GqlPosition;
  gt_history : option (list GqlPosition);
  gt_operator : option GqlOperatorPosition;
  gt_detections : GqlDetectionPage
}.

(** ** The mapping to the REST shapes *)

Definition parseHz (value : option string) : option num :=
  match value with
  | None => None
  | Some value => let n := Number value in if is_finite n then Some n else None
  end.

Definition mapPosition (p : GqlPosition) : Position :=
  {| ps_lat := gp_lat p;
     ps_lon := gp_lon p;
     ps_alt_geodetic_m := gp_alt_geodetic_m p;
     ps_height_agl_m := gp_height_agl_m p;
     ps_terrain_elevation_m := None;
     ps_speed_mps := gp_speed_mps p;
     ps_track_deg := gp_track_deg p;
     ps_at := gp_at p |}.

Definition mapOperator (o : option GqlOperatorPosition) : option Position :=
  (fun o => {| ps_lat := go_lat o; ps_lon := go_lon o; ps_alt_geodetic_m := None; ps_height_agl_m := None;
               ps_terrain_elevation_m := None; ps_speed_mps := None; ps_track_deg := None; ps_at := go_at o |}) <$> o.

Definition mapDetection (d : GqlDetection) : Detection :=
  {| dt_detection_id := gd_detection_id d;
     dt_ts := gd_ts d;
     dt_sensor_id := gd_sensor_id d;
     dt_sensor_kind := gd_sensor_kind d;
     dt_detection_class := gd_detection_class d;
     dt_rf := (fun rf => {| rf_freq_hz := parseHz (gf_freq_hz rf); rf_channel := gf_channel rf;
                            rf_rssi_dbm := gf_rssi_dbm rf; rf_bandwidth_hz := parseHz (gf_bandwidth_hz rf);
                            rf_snr_db := gf_snr_db rf |}) <$> gd_rf d;
     dt_identity := gd_identity d;
     dt_position := (fun p => {| dp_lat := gdp_lat p; dp_lon := gdp_lon p;
                                 dp_alt_geodetic_m := gdp_alt_geodetic_m p; dp_alt_pressure_m := None;
                                 dp_height_agl_m := gdp_height_agl_m p; dp_h_accuracy_m := None;
                                 dp_v_accuracy_m := None |}) <$> gd_position d;
     dt_kinematics := gd_kinematics d;
     dt_operator := (fun o => {| op_lat := go_lat o; op_lon := go_lon o; op_alt_m := go_alt_m o |}) <$> gd_operator d;
     dt_signal_features :=
       (fun f => {| sf_burst_rate_hz := gs_burst_rate_hz f; sf_burst_duration_us := gs_burst_duration_us f;
                    sf_duty_cycle := gs_duty_cycle f; sf_hop_count := gs_hop_count f;
                    sf_occupied_bw_hz := parseHz (gs_occupied_bw_hz f); sf_protocol_hint := gs_protocol_hint f |})
       <$> gd_signal_features d;
     dt_adsb := gd_adsb d;
     dt_raw := None |}.

Definition mapTrack (t : GqlTrack) : Track :=
  {| tr_track_id := gt_track_id t;
     tr_state := gt_state t;
     tr_first_seen := gt_first_seen t;
     tr_last_seen := gt_last_seen t;
     tr_detection_count := gt_detection_count t;
     tr_identity := gt_identity t;
     tr_confidence := gt_confidence t;
     tr_evidence := Some (gt_evidence t ?? []);
     tr_current := mapPosition <$> gt_current t;
     tr_history := Some (map mapPosition (gt_history t ?? []));
     tr_operator := mapOperator (gt_operator t);
     tr_rssi_dbm := gt_rssi_dbm t;
     tr_receivers := Some (map (fun r =>
       {| rc_sensor_id := gv_sensor_id r; rc_sensor_kind := gv_sensor_kind r;
          rc_detection_count := gv_detection_count r; rc_rssi_dbm := gv_rssi_dbm r;
          rc_last_seen := gv_last_seen r |}) (gt_receivers t ?? []));
     tr_adsb_correlated := Some (gt_adsb_correlated t) |}.

Record TrackAndDetections := { td_track : Track; td_detections : DetectionsResponse }.

Section Requests.
Context {World : Type} (fetch : Sent -> World -> FetchResult * World) (base : string).

Definition graphqlRequest {T} `{Wire (GraphQLResponse T)} (query : string) (variables : list (string * json))
  : Io (World := World) (option T) :=
  r ← send fetch base (call "POST" "/graphql" (Some (JObj [("query", JStr query); ("variables", JObj variables)])));
  result ← defined r;
  match gr_errors result with
  | Some ((_ :: _) as errors) =>
      throw (failed_api {| ae_status := 200; ae_code := Some (JStr "internal");
                           ae_message := JStr (join "; " errors); ae_field := None |})
  | _ =>
      match gr_data result with
      | None =>
          throw (failed_api {| ae_status := 200; ae_code := Some (JStr "internal");
                               ae_message := JStr "GraphQL response carried no data"; ae_field := None |})
      | Some data => mret data
      end
  end.

(** [data] is an object with a [track] that may be null. *)
Definition trackWithDetections `{Wire (GraphQLResponse (option GqlTrack))} (trackId : string) (limit : Z)
  : Io (World := World) TrackAndDetections :=
  data ← graphqlRequest TRACK_WITH_DETECTIONS_QUERY [("trackId", JStr trackId); ("limit", JNum (of_Z limit))];
  track ← defined data;
  match track with
  | None =>
      throw (failed_api {| ae_status := 404; ae_code := Some (JStr "not_found");
                           ae_message := JStr ("no track with id " +:+ trackId); ae_field := None |})
  | Some track =>
      let page := gt_detections track in
      mret {| td_track := mapTrack track;
              td_detections :=
                {| drs_detections := map mapDetection (gpg_detections page);
                   drs_next_cursor := gpg_next_cursor page;
                   drs_total := gpg_total page ?? Z.of_nat (List.length (gpg_detections page)) |} |}
  end.
End Requests.

(** ** height-provenance.ts *)

Inductive HeightSource := derived | broadcast.
Record HeightProvenance := { hp_source : HeightSource; hp_terrainElevationM : option num }.

Definition heightProvenance (position : option Position) : option HeightProvenance :=
  match position ?. ps_height_agl_m with
  | None => None
  | Some _ =>
      match position ?. ps_terrain_elevation_m with
      | None => Some {| hp_source := broadcast; hp_terrainElevationM := None |}
      | Some terrain => Some {| hp_source := derived; hp_terrainElevationM := Some terrain |}
      end
  end.

Definition heightProvenanceHint (provenance : HeightProvenance) (length : option num -> string) : string :=
  match hp_source provenance with
  | derived => "derived — terrain " +:+ length (hp_terrainElevationM provenance)
  | broadcast => "as broadcast"
  end.

(** ** The two answers for one record

    When the endpoint's answer and a REST record carry the same values in the
    fields the query names; a frequency is then the decimal text of an integer
    number of hertz. *)
Record same_position (g : GqlPosition) (p : Position) : Prop := {
  sp_lat : gp_lat g = ps_lat p;
  sp_lon : gp_lon g = ps_lon p;
  sp_alt : gp_alt_geodetic_m g = ps_alt_geodetic_m p;
  sp_height : gp_height_agl_m g = ps_height_agl_m p;
  sp_speed : gp_speed_mps g = ps_speed_mps p;
  sp_track : gp_track_deg g = ps_track_deg p;
  sp_at : gp_at g = ps_at p
}.

(** An operator's altitude has another name over REST, and is left out here. *)
Record same_operator (g : GqlOperatorPosition) (p : Position) : Prop := {
  so_lat : go_lat g = ps_lat p;
  so_lon : go_lon g = ps_lon p;
  so_at : go_at g = ps_at p
}.

Record same_receiver (g : GqlReceiver) (r : Receiver) : Prop := {
  sr_id : gv_sensor_id g = rc_sensor_id r;
  sr_kind : gv_sensor_kind g = rc_sensor_kind r;
  sr_count : gv_detection_count g = rc_detection_count r;
  sr_rssi : gv_rssi_dbm g = rc_rssi_dbm r;
  sr_seen : gv_last_seen g = rc_last_seen r
}.

Record same_track (g : GqlTrack) (raw : RawTrack) : Prop := {
  st_id : gt_track_id g = tr_track_id (raw_track raw);
  st_state : gt_state g = tr_state (raw_track raw);
  st_first : gt_first_seen g = tr_first_seen (raw_track raw);
  st_last : gt_last_seen g = tr_last_seen (raw_track raw);
  st_count : gt_detection_count g = tr_detection_count (raw_track raw);
  st_confidence : gt_confidence g = tr_confidence (raw_track raw);
  st_rssi : gt_rssi_dbm g = tr_rssi_dbm (raw_track raw);
  st_correlated : gt_adsb_correlated g = (tr_adsb_correlated (raw_track raw) ?? raw_suppression raw ?? false);
  st_identity : gt_identity g = tr_identity (raw_track raw);
  st_evidence : gt_evidence g ?? [] = normalizeEvidence (raw_evidence raw);
  st_receivers : List.Forall2 same_receiver (gt_receivers g ?? []) (tr_receivers (raw_track raw) ?? []);
  st_current : option_Forall2 same_position (gt_current g) (tr_current (raw_track raw));
  st_history : List.Forall2 same_position (gt_history g ?? []) (tr_history (raw_track raw) ?? []);
  st_operator : option_Forall2 same_operator (gt_operator g) (tr_operator (raw_track raw))
}.

(** A frequency in hertz: a 64-bit integer that is not negative. *)
Definition hz (v : option Z) : Prop := match v with Some n => 0 <= n < 2 ^ 63 | None => True end.

Lemma parseHz_pretty v : hz v -> parseHz (pretty <$> v) = of_Z <$> v.
Proof.
  destruct v as [n|]; [|done]. intros Hn. cbn. rewrite Number_pretty by (cbn in Hn; lia).
  rewrite of_Z_finite by (cbn in Hn; lia). done.
Qed.

(** A frequency read over REST and its text in the answer. *)
Definition same_hz (text : option string) (v : option num) : Prop :=
  exists n, hz n /\ text = pretty <$> n /\ v = of_Z <$> n.

Lemma same_hz_parses text v : same_hz text v -> parseHz text = v.
Proof. intros (n & Hn & -> & ->). by apply parseHz_pretty. Qed.

Record same_rf (g : GqlRf) (r : DetectionRf) : Prop := {
  sw_freq : same_hz (gf_freq_hz g) (rf_freq_hz r);
  sw_channel : gf_channel g = rf_channel r;
  sw_rssi : gf_rssi_dbm g = rf_rssi_dbm r;
  sw_bandwidth : same_hz (gf_bandwidth_hz g) (rf_bandwidth_hz r);
  sw_snr : gf_snr_db g = rf_snr_db r
}.

Record same_features (g : GqlSignalFeatures) (f : SignalFeatures) : Prop := {
  ss_rate : gs_burst_rate_hz g = sf_burst_rate_hz f;
  ss_duration : gs_burst_duration_us g = sf_burst_duration_us f;
  ss_duty : gs_duty_cycle g = sf_duty_cycle f;
  ss_hops : gs_hop_count g = sf_hop_count f;
  ss_occupied : same_hz (gs_occupied_bw_hz g) (sf_occupied_bw_hz f);
  ss_hint : gs_protocol_hint g = sf_protocol_hint f
}.

Record same_fix (g : GqlDetectionPosition) (p : DetectionPosition) : Prop := {
  sx_lat : gdp_lat g = dp_lat p;
  sx_lon : gdp_lon g = dp_lon p;
  sx_alt : gdp_alt_geodetic_m g = dp_alt_geodetic_m p;
  sx_height : gdp_height_agl_m g = dp_height_agl_m p
}.

Record same_pilot (g : GqlOperatorPosition) (o : DetectionOperator) : Prop := {
  sl_lat : go_lat g = op_lat o;
  sl_lon : go_lon g = op_lon o;
  sl_alt : go_alt_m g = op_alt_m o
}.

Record same_detection (g : GqlDetection) (d : Detection) : Prop := {
  sd_id : gd_detection_id g = dt_detection_id d;
  sd_ts : gd_ts g = dt_ts d;
  sd_sensor : gd_sensor_id g = dt_sensor_id d;
  sd_kind : gd_sensor_kind g = dt_sensor_kind d;
  sd_class : gd_detection_class g = dt_detection_class d;
  sd_rf : option_Forall2 same_rf (gd_rf g) (dt_rf d);
  sd_identity : gd_identity g = dt_identity d;
  sd_position : option_Forall2 same_fix (gd_position g) (dt_position d);
  sd_kinematics : gd_kinematics g = dt_kinematics d;
  sd_operator : option_Forall2 same_pilot (gd_operator g) (dt_operator d);
  sd_features : option_Forall2 same_features (gd_signal_features g) (dt_signal_features d);
  sd_adsb : gd_adsb g = dt_adsb d
}.

(** What is lost on the way: the terrain under a position; all of an operator's
    position but where and when; of a detection the pressure altitude and the
    accuracies of its position, and the raw bytes. *)
Definition without_terrain (p : Position) : Position :=
  {| ps_lat := ps_lat p; ps_lon := ps_lon p; ps_alt_geodetic_m := ps_alt_geodetic_m p;
     ps_height_agl_m := ps_height_agl_m p; ps_terrain_elevation_m := None; ps_speed_mps := ps_speed_mps p;
     ps_track_deg := ps_track_deg p; ps_at := ps_at p |}.
Definition where_and_when (o : Position) : Position :=
  {| ps_lat := ps_lat o; ps_lon := ps_lon o; ps_alt_geodetic_m := None; ps_height_agl_m := None;
     ps_terrain_elevation_m := None; ps_speed_mps := None; ps_track_deg := None; ps_at := ps_at o |}.
Definition without_accuracy (p : DetectionPosition) : DetectionPosition :=
  {| dp_lat := dp_lat p; dp_lon := dp_lon p; dp_alt_geodetic_m := dp_alt_geodetic_m p; dp_alt_pressure_m := None;
     dp_height_agl_m := dp_height_agl_m p; dp_h_accuracy_m := None; dp_v_accuracy_m := None |}.

Lemma option_related {A B C} (R : A -> B -> Prop) (f : A -> C) (g : B -> C) x y :
  (forall a b, R a b -> f a = g b) -> option_Forall2 R x y -> f <$> x = g <$> y.
Proof. intros H [a b Hab|]; [|done]. cbn. by rewrite (H a b). Qed.
Lemma map_related {A B C} (R : A -> B -> Prop) (f : A -> C) (g : B -> C) l k :
  (forall a b, R a b -> f a = g b) -> List.Forall2 R l k -> map f l = map g k.
Proof. intros H. induction 1 as [|a b l k Hab _ IH]; [done|]. cbn. by rewrite (H a b), IH. Qed.

Lemma position_related g p : same_position g p -> mapPosition g = without_terrain p.
Proof. intros []. unfold mapPosition, without_terrain. congruence. Qed.

(** C12. The two transports agree.  Let the endpoint's answer and a REST record
    carry the same values in the fields the query names, frequencies as decimal
    text.  Then the track mapped from the answer has the identity, state, times,
    counts, confidence, signal, evidence, receivers (none and missing alike) and
    ADS-B mark that REST gives after normalisation, the same positions without
    the terrain under them, and the operator's place and time but not the
    altitude, which the query asks for and [mapOperator] drops; and a detection
    mapped from it is the REST one, its frequencies read back, without the
    pressure altitude and accuracies of its position and without the raw bytes. *)
Theorem detail_matches_rest (g : GqlTrack) (raw : RawTrack) (gd : GqlDetection) (d : Detection) :
  same_track g raw -> same_detection gd d ->
  let t := normalizeTrack raw in
  mapTrack g =
    {| tr_track_id := tr_track_id t; tr_state := tr_state t; tr_first_seen := tr_first_seen t;
       tr_last_seen := tr_last_seen t; tr_detection_count := tr_detection_count t; tr_identity := tr_identity t;
       tr_confidence := tr_confidence t; tr_evidence := tr_evidence t;
       tr_current := without_terrain <$> tr_current t;
       tr_history := map without_terrain <$> tr_history t;
       tr_operator := where_and_when <$> tr_operator t;
       tr_rssi_dbm := tr_rssi_dbm t; tr_receivers := Some (tr_receivers t ?? []);
       tr_adsb_correlated := tr_adsb_correlated t |} /\
  mapDetection gd =
    {| dt_detection_id := dt_detection_id d; dt_ts := dt_ts d; dt_sensor_id := dt_sensor_id d;
       dt_sensor_kind := dt_sensor_kind d; dt_detection_class := dt_detection_class d; dt_rf := dt_rf d;
       dt_identity := dt_identity d; dt_position := without_accuracy <$> dt_position d;
       dt_kinematics := dt_kinematics d; dt_operator := dt_operator d;
       dt_signal_features := dt_signal_features d; dt_adsb := dt_adsb d; dt_raw := None |}.
Proof.
  intros [] []. cbv zeta. split.
  - unfold mapTrack, mapOperator. cbn. f_equal; try congruence.
    + by apply (option_related same_position); [apply position_related|].
    + f_equal. by apply (map_related same_position); [apply position_related|].
    + apply (option_related same_operator); [|done]. intros a b []. unfold where_and_when. congruence.
    + f_equal. rewrite <- (map_id (tr_receivers (raw_track raw) ?? [])).
      apply (map_related same_receiver); [|done]. intros a [] []. cbn in *. congruence.
  - unfold mapDetection. f_equal; try done.
    + rewrite <- (option_fmap_id (dt_rf d)). apply (option_related same_rf); [|done].
      intros a [] [H1 H2 H3 H4 H5]. cbn in *. rewrite (same_hz_parses _ _ H1), (same_hz_parses _ _ H4). congruence.
    + apply (option_related same_fix); [|done]. intros a b []. unfold without_accuracy. congruence.
    + rewrite <- (option_fmap_id (dt_operator d)). apply (option_related same_pilot); [|done].
      intros a [] []. cbn in *. congruence.
    + rewrite <- (option_fmap_id (dt_signal_features d)). apply (option_related same_features); [|done].
      intros a [] [H1 H2 H3 H4 H5 H6]. cbn in *. rewrite (same_hz_parses _ _ H5). congruence.
Qed.

(** ** The height's source is lost on the way

    The marker of a derived height, the terrain's elevation, is a field of the
    endpoint's type that the query does not name. *)
Lemma query_omits_terrain : includes "terrain_elevation_m" TRACK_WITH_DETECTIONS_QUERY = false.
Proof. vm_compute. reflexivity. Qed.

(** So on the page that reads the GraphQL answer every height counts as
    broadcast, a derived one too. *)
Lemma detail_never_derived g :
  gp_height_agl_m g <> None ->
  heightProvenance (Some (mapPosition g)) = Some {| hp_source := broadcast; hp_terrainElevationM := None |}.
Proof. unfold heightProvenance. cbn. by destruct (gp_height_agl_m g). Qed.

Example derived_reads_broadcast :
  let p := {| ps_lat := of_Z 52; ps_lon := of_Z 13; ps_alt_geodetic_m := Some (of_Z 160); ps_height_agl_m := Some (of_Z 120);
              ps_terrain_elevation_m := Some (of_Z 40); ps_speed_mps := None; ps_track_deg := None; ps_at := None |} in
  let g := {| gp_lat := of_Z 52; gp_lon := of_Z 13; gp_alt_geodetic_m := Some (of_Z 160); gp_height_agl_m := Some (of_Z 120);
              gp_speed_mps := None; gp_track_deg := None; gp_at := None |} in
  same_position g p /\
  hp_source <$> heightProvenance (Some p) = Some derived /\
  hp_source <$> heightProvenance (Some (mapPosition g)) = Some broadcast.
Proof. split; [by split|]. split; reflexivity. Qed.

(** ** Which failure a caller sees *)
Section Errors.
Context {World : Type} (fetch : Sent -> World -> FetchResult * World) (base : string).
Context `{Wire (GraphQLResponse (option GqlTrack))}.

(** The answer as GraphQL, if the reply is a success with a JSON body. *)
Definition gql_answer (a : FetchResult) : option (GraphQLResponse (option GqlTrack)) :=
  match a with
  | answered r =>
      if response_ok r && negb (rs_status r =? 204) then as_ <$> rs_json r else None
  | unreachable => None
  end.
Definition no_errors (g : GraphQLResponse (option GqlTrack)) : bool :=
  match gr_errors g with Some (_ :: _) => false | _ => true end.

(** The envelope of a refusal says not found. *)
Definition refused_not_found (a : FetchResult) : bool :=
  match a with
  | answered r =>
      negb (response_ok r) &&
      ((rs_status r =? 404) ||
       match isApiErrorBody (rs_json r ?? JNull) with
       | Some err => match assoc "code" err with Some (JStr c) => c === "not_found" | _ => false end
       | None => false
       end)
  | unreachable => false
  end.

Definition detail_request (trackId : string) (limit : Z) : Sent :=
  sent_for base "/graphql"
    {| ri_method := Some "POST"; ri_headers := [];
       ri_body := Some (JObj [("query", JStr TRACK_WITH_DETECTIONS_QUERY);
                              ("variables", JObj [("trackId", JStr trackId); ("limit", JNum (of_Z limit))])]) |}.

Lemma detail_cases (trackId : string) (limit : Z) w :
  trackWithDetections fetch base trackId limit w =
  (match fst (fetch (detail_request trackId limit) w) with
   | unreachable => inr (failed_host NetworkError)
   | answered r =>
       match gql_answer (answered r) with
       | Some g =>
           if no_errors g then
             match gr_data g with
             | Some (Some (Some t)) =>
                 inl {| td_track := mapTrack t;
                        td_detections := {| drs_detections := map mapDetection (gpg_detections (gt_detections t));
                          drs_next_cursor := gpg_next_cursor (gt_detections t);
                          drs_total := gpg_total (gt_detections t) ?? Z.of_nat (List.length (gpg_detections (gt_detections t))) |} |}
             | Some (Some None) =>
                 inr (failed_api {| ae_status := 404; ae_code := Some (JStr "not_found");
                                    ae_message := JStr ("no track with id " +:+ trackId); ae_field := None |})
             | Some None => inr (failed_host ReadOfUndefined)
             | None => inr (failed_api {| ae_status := 200; ae_code := Some (JStr "internal");
                                          ae_message := JStr "GraphQL response carried no data"; ae_field := None |})
             end
           else inr (failed_api {| ae_status := 200; ae_code := Some (JStr "internal");
                                   ae_message := JStr (join "; " (gr_errors g ?? [])); ae_field := None |})
       | None =>
           if response_ok r then inr (failed_host (if rs_status r =? 204 then ReadOfUndefined else JsonSyntaxError))
           else inr (failed_api (refusal r))
       end
   end, snd (fetch (detail_request trackId limit) w)).
Proof.
  unfold trackWithDetections, graphqlRequest, send, request, detail_request, mbind, Io_bind, gql_answer, no_errors.
  cbn [rq_path rq_init call].
  destruct (fetch _ w) as [[r|] w']; [|done]. cbn [fst snd].
  destruct (response_ok r); cbn [negb andb]; [|done].
  destruct (rs_status r =? 204); cbn [negb]; [done|].
  destruct (rs_json r) as [v|]; [|done]. cbn [defined fmap option_fmap option_map mret Io_ret].
  destruct (as_ v) as [data [[|e es]|]]; [| done |]; by destruct data as [[[t|]|]|].
Qed.

Lemma refused_is_not_found r :
  response_ok r = false ->
  refused_not_found (answered r) = isNotFound (refusal r).
Proof.
  intros Hok. unfold refused_not_found, isNotFound, refusal. rewrite Hok. cbn [negb andb].
  destruct (isApiErrorBody _); cbn [ae_code ae_status]; [by rewrite orb_comm|]. by rewrite orb_false_r.
Qed.

Ltac settle :=
  repeat (match goal with
    | |- _ <-> _ => split
    | |- _ -> _ => intro
    | H : exists _, _ |- _ => destruct H
    | H : _ /\ _ |- _ => destruct H
    | H : _ \/ _ |- _ => destruct H
    end); simplify_eq; try congruence; eauto 10.

(** C13. What the detail page can be told, and when.  One round trip goes out,
    and it yields the track exactly when the reply is a success whose JSON has
    no errors and holds the track; the failure counts as not found exactly when
    the API refused with 404 or the code [not_found], or answered a null track;
    and the failure is the host's exactly when the API was not reached or its
    reply is not a GraphQL answer.  Nothing else is thrown. *)
Theorem detail_errors (trackId : string) (limit : Z) (w : World) :
  let '(out, w') := trackWithDetections fetch base trackId limit w in
  let reply := fst (fetch (detail_request trackId limit) w) in
  w' = snd (fetch (detail_request trackId limit) w) /\
  ((exists v, out = inl v) <->
     exists g t, gql_answer reply = Some g /\ no_errors g = true /\ gr_data g = Some (Some (Some t))) /\
  ((exists e, out = inr (failed_api e) /\ isNotFound e = true) <->
     refused_not_found reply = true \/
     exists g, gql_answer reply = Some g /\ no_errors g = true /\ gr_data g = Some (Some None)) /\
  ((exists e, out = inr (failed_host e)) <->
     reply = unreachable \/
     (exists r, reply = answered r /\ response_ok r = true /\ gql_answer reply = None) \/
     exists g, gql_answer reply = Some g /\ no_errors g = true /\ gr_data g = Some None).
Proof.
  rewrite detail_cases. split; [done|]. generalize (fst (fetch (detail_request trackId limit) w)) as reply.
  intros [r|].
  2: { cbn. split_and!; settle. }
  pose proof (refused_is_not_found r) as Href.
  destruct (gql_answer (answered r)) as [g|] eqn:Eg.
  - assert (response_ok r = true) as Hok.
    { cbn in Eg. by destruct (response_ok r). }
    assert (refused_not_found (answered r) = false) as -> by (cbn; by rewrite Hok).
    destruct (no_errors g) eqn:Ene; [destruct (gr_data g) as [[[t|]|]|] eqn:Ed|];
      split_and!; settle.
  - destruct (response_ok r) eqn:Hok.
    + assert (refused_not_found (answered r) = false) as -> by (cbn; by rewrite Hok).
      split_and!; settle.
    + rewrite Href by done. split_and!; settle.
Qed.
End Errors.

(** ** Examples *)

Definition sample_page : GqlDetectionPage := {| gpg_detections := []; gpg_next_cursor := None; gpg_total := Some 0 |}.

(** A track with an operator whose altitude is known, over both transports. *)
Definition rest_track : RawTrack :=
  {| raw_track := {| tr_track_id := "T1"; tr_state := CONFIRMED; tr_first_seen := "2026-09-15T03:48:07.250Z";
       tr_last_seen := "2026-09-15T03:48:07.250Z"; tr_detection_count := 3; tr_identity := None;
       tr_confidence := of_ratio 4 5; tr_evidence := None; tr_current := None; tr_history := None;
       tr_operator := Some {| ps_lat := of_Z 52; ps_lon := of_Z 13; ps_alt_geodetic_m := Some (of_Z 40);
         ps_height_agl_m := None; ps_terrain_elevation_m := None; ps_speed_mps := None; ps_track_deg := None;
         ps_at := None |};
       tr_rssi_dbm := None; tr_receivers := None; tr_adsb_correlated := None |};
     raw_evidence := ev_array []; raw_suppression := Some true |}.
Definition gql_track : GqlTrack :=
  {| gt_track_id := "T1"; gt_state := CONFIRMED; gt_first_seen := "2026-09-15T03:48:07.250Z";
     gt_last_seen := "2026-09-15T03:48:07.250Z"; gt_detection_count := 3; gt_confidence := of_ratio 4 5;
     gt_rssi_dbm := None; gt_adsb_correlated := true; gt_identity := None; gt_evidence := Some []; gt_receivers := Some [];
     gt_current := None; gt_history := Some [];
     gt_operator := Some {| go_lat := of_Z 52; go_lon := of_Z 13; go_alt_m := Some (of_Z 40); go_at := None |};
     gt_detections := sample_page |}.

Definition wifi_detection : Detection :=
  {| dt_detection_id := "d1"; dt_ts := "2026-01-01T00:00:00Z"; dt_sensor_id := "wifi-1"; dt_sensor_kind := wifi;
     dt_detection_class := ClsA;
     dt_rf := Some {| rf_freq_hz := Some (of_Z 5745000000); rf_channel := Some 149; rf_rssi_dbm := Some (of_Z (-61));
                      rf_bandwidth_hz := None; rf_snr_db := None |};
     dt_identity := None; dt_position := None; dt_kinematics := None; dt_operator := None;
     dt_signal_features := None; dt_adsb := None; dt_raw := Some {| rw_bytes := "dd"; rw_parser := "odid" |} |}.
Definition gql_detection : GqlDetection :=
  {| gd_detection_id := "d1"; gd_ts := "2026-01-01T00:00:00Z"; gd_sensor_id := "wifi-1"; gd_sensor_kind := wifi;
     gd_detection_class := ClsA;
     gd_rf := Some {| gf_freq_hz := Some "5745000000"; gf_channel := Some 149; gf_rssi_dbm := Some (of_Z (-61));
                      gf_bandwidth_hz := None; gf_snr_db := None |};
     gd_identity := None; gd_position := None; gd_kinematics := None; gd_operator := None;
     gd_signal_features := None; gd_adsb := None |}.

Lemma same_records : same_track gql_track rest_track /\ same_detection gql_detection wifi_detection.
Proof.
  split; split; try reflexivity; try (by constructor).
  constructor. split; try reflexivity; [exists (Some 5745000000)|exists None]; split; cbn; (lia || done).
Defined.

Lemma detail_matches_rest_witness :
  same_track gql_track rest_track /\ same_detection gql_detection wifi_detection /\
  tr_adsb_correlated (mapTrack gql_track) = Some true /\
  (ps_alt_geodetic_m <$> tr_operator (mapTrack gql_track)) = Some None /\
  dt_rf (mapDetection gql_detection) = dt_rf wifi_detection.
Proof.
  destruct same_records as [H1 H2]. split; [exact H1|]. split; [exact H2|].
  destruct (detail_matches_rest gql_track rest_track gql_detection wifi_detection H1 H2) as [E1 E2].
  split_and!; [by rewrite E1|by rewrite E1|by rewrite E2].
Defined.
