(* ===== verification/Queries.v ===== *)
(** * Queries: what is cached under which key, and how it is fetched

    The query definitions of [lib/api/queries.ts] and the retry policies of
    [main.tsx].  The library runs them; the source fixes their keys, requests,
    lifetimes, polling and retries, and the walk over the pages of a flight. *)
From Stdlib Require Import ZArith Bool String Ascii List Lia.
From stdpp Require Import base option list strings pretty.
From S2P Require Import Prelude JsNumber JsDate JsString UrlCodec ApiTypes LiveFrames Transport GraphQl.

(** ** Query options

    An infinite [staleTime] and a [refetchInterval] of [false] are [None]. *)
Record QueryOptions := {
  qo_queryKey : QueryKey;
  qo_request : Request;
  qo_staleTime : option Z;
  qo_refetchInterval : option Z
}.
Definition query (key : QueryKey) (request : Request) (staleTime refetchInterval : option Z) : QueryOptions :=
  {| qo_queryKey := key; qo_request := request; qo_staleTime := staleTime; qo_refetchInterval := refetchInterval |}.

Definition healthQuery : QueryOptions := query queryKeys.health Api.health (Some 5000) (Some 15000).
Definition systemQuery : QueryOptions := query queryKeys.system Api.system (Some 10000) (Some 30000).
Definition telemetryQuery (window : string) : QueryOptions :=
  query (queryKeys.telemetry window) (Api.telemetry (Some window) None) (Some 30000) (Some 60000).
Definition monitoringQuery : QueryOptions := query queryKeys.monitoring Api.monitoring (Some 10000) (Some 30000).
Definition sensorsQuery : QueryOptions := query queryKeys.sensors Api.sensors_request (Some 10000) (Some 15000).
Definition tracksQuery (q : TracksQuery) : QueryOptions :=
  query (queryKeys.tracks q) (Api.tracks_request q) None None.
Definition aircraftLabelsQuery : QueryOptions :=
  query queryKeys.aircraftLabels Api.aircraftLabels (Some (5 * 60000)) None.

Definition HISTORY_PAGE_SIZE : Z := 100.
Definition historyRequest (since pageParam : option string) : TracksQuery :=
  {| tq_state := Some [CLOSED]; tq_since := since; tq_until := None; tq_serial := None; tq_vendor := None;
     tq_min_confidence := None; tq_limit := Some HISTORY_PAGE_SIZE; tq_cursor := pageParam |}.
Definition closedTracksHistoryQuery (since : option string) : QueryOptions :=
  query (queryKeys.trackHistory since) (Api.tracks_request (historyRequest since None)) (Some 30000) None.
Definition getNextPageParam (last : TracksResponse) : option string := trs_next_cursor last.

Definition no_detections_query : DetectionsQuery :=
  {| dq_class := None; dq_sensor_id := None; dq_since := None; dq_limit := None; dq_cursor := None |}.
Definition page_query (limit : Z) (cursor : option string) : DetectionsQuery :=
  {| dq_class := None; dq_sensor_id := None; dq_since := None; dq_limit := Some limit; dq_cursor := cursor |}.

Definition detail_body (trackId : string) (limit : Z) : json :=
  JObj [("query", JStr TRACK_WITH_DETECTIONS_QUERY);
        ("variables", JObj [("trackId", JStr trackId); ("limit", JNum (of_Z limit))])].
Definition trackQuery (trackId : string) : QueryOptions :=
  query (queryKeys.track trackId) (call "POST" "/graphql" (Some (detail_body trackId 500))) (Some 5000) None.

Definition MAX_LIMIT : Z := 1000.
Definition PATH_MAX_PAGES : nat := 10.
Definition trackPathQuery (trackId : string) : QueryOptions :=
  query (queryKeys.trackPath trackId) (Api.trackDetections trackId (page_query MAX_LIMIT None)) (Some 5000) None.
Definition trackDetectionsQuery (trackId : string) : QueryOptions :=
  query (queryKeys.trackDetections trackId) (Api.trackDetections trackId (page_query 500 None)) (Some 5000) None.

Definition ADSB_WINDOW_MS : Z := 5 * 60000.
Definition adsb_key : DetectionsQuery :=
  {| dq_class := Some [ClsD]; dq_sensor_id := None; dq_since := None; dq_limit := Some 200; dq_cursor := None |}.
(** The request is dated when it is made, [now]; the key is not. *)
Definition adsbDetectionsQuery (now : Z) : QueryOptions :=
  query (queryKeys.detections adsb_key)
    (Api.detections {| dq_class := Some [ClsD]; dq_sensor_id := None; dq_since := Some (toISOString (now - ADSB_WINDOW_MS));
                       dq_limit := Some 200; dq_cursor := None |})
    (Some 10000) (Some 20000).

Definition authMeQuery (status_error : bool) : QueryOptions :=
  query queryKeys.authMe Api.authMe (Some 30000) (if status_error then Some 5000 else None).
Definition hookRulesQuery : QueryOptions := query queryKeys.hookRules Api.hookRules (Some 10000) None.
Definition hookDeliveriesQuery : QueryOptions :=
  query queryKeys.hookDeliveries Api.hookDeliveries (Some 5000) (Some 15000).
Definition boundariesQuery : QueryOptions := query queryKeys.boundaries Api.boundaries (Some 10000) None.
Definition deploymentHistoryQuery : QueryOptions :=
  query queryKeys.deploymentHistory (Api.deploymentHistory None) (Some 30000) (Some 60000).
Definition deploymentQuery (state : option DeploymentStatus) : QueryOptions :=
  query queryKeys.deployment Api.deployment (Some 5000)
    (Some (if bool_decide (state ?. ds_last_result = Some "deploying") then 3000
           else match state with
                | Some s => if ds_deploy_requested s then 10000 else 60000
                | None => 60000
                end)).
Definition watchdogQuery : QueryOptions := query queryKeys.watchdog Api.watchdog (Some 30000) (Some 60000).
Definition usersQuery : QueryOptions := query queryKeys.users Api.users (Some 10000) None.
Definition sessionsQuery : QueryOptions := query queryKeys.sessions Api.sessions (Some 10000) (Some 30000).

Definition spectrumBandsQuery (running_sweep_id : option string) : QueryOptions :=
  query queryKeys.spectrumBands Api.spectrumBands (Some 30000)
    (match truthy running_sweep_id with Some _ => Some 3000 | None => None end).
Definition spectrumSweepsQuery (data : option SpectrumSweepsResponse) : QueryOptions :=
  query queryKeys.spectrumSweeps Api.spectrumSweeps (Some 10000)
    (match data with
     | Some d => if existsb (fun s => bool_decide (sw_state s = sweep_running)) (ssr_sweeps d) then Some 3000 else None
     | None => None
     end).
Definition sweepIsSettled (state : option SweepState) : bool :=
  match state with Some sweep_completed | Some sweep_failed => true | _ => false end.
Definition spectrumSweepQuery (sweepId : string) (bins : Z) (state : option SweepState) : QueryOptions :=
  query (queryKeys.spectrumSweep sweepId bins) (Api.spectrumSweep sweepId (Some bins))
    (if sweepIsSettled state then None else Some 0)
    (if sweepIsSettled state then None else Some 2000).

Definition capturesQuery : QueryOptions := query queryKeys.captures Api.captures (Some 5000) None.
Definition captureQuery (id : string) : QueryOptions := query (queryKeys.capture id) (Api.capture id) (Some 5000) None.
Definition captureReportQuery (id : string) : QueryOptions :=
  query (queryKeys.captureReport id) (Api.captureReport id) None None.
Definition channelPlanQuery : QueryOptions := query queryKeys.channelPlan Api.channelPlan_request (Some 60000) None.
Definition weightsQuery : QueryOptions := query queryKeys.weights Api.weights_request (Some 60000) None.
Definition settingsQuery : QueryOptions := query queryKeys.settings Api.settings (Some 60000) None.

(** ** Retries: [failureCount] is 0 at the first failure *)

(** The client's default. *)
Definition default_retry (failureCount : Z) (error : Failure) : bool :=
  match error with
  | failed_api e => if existsb (Z.eqb (ae_status e)) [400; 401; 403; 404; 409] then false else failureCount <? 1
  | failed_host _ => failureCount <? 1
  end.
Definition authMe_retry (failureCount : Z) (error : Failure) : bool :=
  match error with failed_api _ => false | failed_host _ => failureCount <? 2 end.

(** ** The query functions that do more than one request or effect *)
Section Fetches.
Context {World : Type} (fetch : Sent -> World -> FetchResult * World) (base : string).

(** [trackQuery]: the detections half of the answer seeds their own entry. *)
Definition trackQuery_fn `{Wire (GraphQLResponse (option GqlTrack))} {C} `{QueryClient C} (c : C) (trackId : string)
  : Io (World := World) (Track * C) :=
  both ← trackWithDetections fetch base trackId 500;
  mret (td_track both, setQueryData c (queryKeys.trackDetections trackId) (D_detections (td_detections both))).

(** [trackPathQuery]: at most [pages] pages, up to the first without a cursor. *)
Fixpoint path_pages `{Wire DetectionsResponse} (trackId : string) (pages : nat) (cursor : option string) (all : list Detection)
  : Io (World := World) (list Detection) :=
  match pages with
  | O => mret all
  | S pages' =>
      r ← send fetch base (Api.trackDetections trackId (page_query MAX_LIMIT cursor));
      res ← defined (r : option DetectionsResponse);
      let all' := all ++ drs_detections res in
      match truthy (drs_next_cursor res) with
      | None => mret all'
      | Some cursor => path_pages trackId pages' (Some cursor) all'
      end
  end.
Definition trackPathQuery_fn `{Wire DetectionsResponse} (trackId : string) : Io (World := World) (list Detection) :=
  path_pages trackId PATH_MAX_PAGES None [].
End Fetches.

(** ** Every query, in one type *)

Inductive QueryId :=
| q_health | q_system | q_telemetry (window : string) | q_monitoring | q_sensors
| q_tracks (q : TracksQuery) | q_history (since : option string)
| q_track (id : string) | q_path (id : string) | q_trackDetections (id : string)
| q_adsb | q_labels | q_authMe | q_hookRules | q_hookDeliveries | q_boundaries
| q_deploymentHistory | q_deployment | q_watchdog | q_users | q_sessions
| q_bands | q_sweeps | q_sweep (id : string) (bins : Z)
| q_captures | q_capture (id : string) | q_report (id : string)
| q_channelPlan | q_weights | q_settings.

(** The options before any data has arrived, asked for at [now]. *)
Definition options (now : Z) (q : QueryId) : QueryOptions :=
  match q with
  | q_health => healthQuery
  | q_system => systemQuery
  | q_telemetry window => telemetryQuery window
  | q_monitoring => monitoringQuery
  | q_sensors => sensorsQuery
  | q_tracks q => tracksQuery q
  | q_history since => closedTracksHistoryQuery since
  | q_track id => trackQuery id
  | q_path id => trackPathQuery id
  | q_trackDetections id => trackDetectionsQuery id
  | q_adsb => adsbDetectionsQuery now
  | q_labels => aircraftLabelsQuery
  | q_authMe => authMeQuery false
  | q_hookRules => hookRulesQuery
  | q_hookDeliveries => hookDeliveriesQuery
  | q_boundaries => boundariesQuery
  | q_deploymentHistory => deploymentHistoryQuery
  | q_deployment => deploymentQuery None
  | q_watchdog => watchdogQuery
  | q_users => usersQuery
  | q_sessions => sessionsQuery
  | q_bands => spectrumBandsQuery None
  | q_sweeps => spectrumSweepsQuery None
  | q_sweep id bins => spectrumSweepQuery id bins None
  | q_captures => capturesQuery
  | q_capture id => captureQuery id
  | q_report id => captureReportQuery id
  | q_channelPlan => channelPlanQuery
  | q_weights => weightsQuery
  | q_settings => settingsQuery
  end.

Definition query_key (q : QueryId) : QueryKey := qo_queryKey (options 0 q).

Lemma options_key now q : qo_queryKey (options now q) = query_key q.
Proof. by destruct q. Qed.

(** The window of a history is an instant, never the word of the open one. *)
Definition dated (q : QueryId) : Prop := q <> q_history (Some "all").

(** Which query a key belongs to. *)
Definition query_of_key (k : QueryKey) : option QueryId :=
  match k with
  | [seg a] =>
      assoc a [("health", q_health); ("system", q_system); ("monitoring", q_monitoring); ("sensors", q_sensors);
               ("captures", q_captures)]
  | [seg "detections"; seg_detections _] => Some q_adsb
  | [seg "telemetry"; seg b] => Some (q_telemetry b)
  | [seg a; seg b] =>
      assoc (a +:+ "/" +:+ b)
        [("aircraft/labels", q_labels); ("auth/me", q_authMe); ("admin/hooks", q_hookRules);
         ("admin/hook-deliveries", q_hookDeliveries); ("admin/boundaries", q_boundaries);
         ("admin/deployment", q_deployment); ("admin/watchdog", q_watchdog); ("admin/users", q_users);
         ("admin/sessions", q_sessions); ("spectrum/bands", q_bands); ("spectrum/sweeps", q_sweeps);
         ("config/channels", q_channelPlan); ("config/weights", q_weights); ("config/settings", q_settings)]
  | [seg "tracks"; seg "list"; seg_tracks q] => Some (q_tracks q)
  | [seg a; seg b; seg c] =>
      if a +:+ b === "admindeployment" then Some q_deploymentHistory
      else if a === "captures" then Some (if b === "detail" then q_capture c else q_report c)
      else if b === "history" then Some (q_history (if c === "all" then None else Some c))
      else assoc b [("detail", q_track c); ("path", q_path c); ("detections", q_trackDetections c)]
  | [_; _; seg id; seg_num bins] => Some (q_sweep id bins)
  | _ => None
  end.

Lemma query_of_query_key q : dated q -> query_of_key (query_key q) = Some q.
Proof.
  intros Hd. destruct q as [| | | | | |[since|]| | | | | | | | | | | | | | | | | | | | | | |]; try reflexivity.
  cbn. destruct (String.eqb_spec since "all") as [->|]; [by destruct Hd|done].
Qed.

Lemma query_key_inj a b : dated a -> dated b -> query_key a = query_key b -> a = b.
Proof.
  intros Ha Hb H. assert (Some a = Some b) as [= ->]; [|done].
  by rewrite <- (query_of_query_key a), <- (query_of_query_key b), H.
Qed.

(** No two queries share a cache entry: equal keys come from the same query
    with the same arguments and so from the same request, at whatever instant
    it is made; and invalidating a query's key reaches that query alone, except
    that the list of captures takes their details and reports along, and the
    deployment its history. *)
Lemma one_query_per_key (a b : QueryId) (now : Z) :
  dated a -> dated b ->
  (qo_queryKey (options now a) = qo_queryKey (options now b) -> options now a = options now b /\ a = b) /\
  (key_matches (qo_queryKey (options now a)) (qo_queryKey (options now b)) = true ->
   a = b \/ (a = q_deployment /\ b = q_deploymentHistory) \/
   (a = q_captures /\ exists id, b = q_capture id \/ b = q_report id)).
Proof.
  intros Ha Hb. rewrite !options_key. split.
  - intros H. by rewrite (query_key_inj a b Ha Hb H).
  - intros H. destruct (decide (List.length (query_key a) = List.length (query_key b))) as [El|El].
    + left. apply query_key_inj; try done. revert H El. generalize (query_key a) (query_key b).
      intros k. induction k as [|x k IH]; intros [|y k']; try done. cbn.
      intros [->%bool_decide_eq_true H]%andb_true_iff [= El]. by rewrite (IH k').
    + destruct a, b; cbn in El; try lia; cbn in H; try done; eauto 7.
Qed.

(** ** What each entry holds *)

(** The data a query's function gives, and whose. *)
Definition data_fits (q : QueryId) (d : CacheData) : Prop :=
  match q, d with
  | q_track id, D_track t => tr_track_id t = id
  | q_capture id, D_capture c => cp_capture_id c = id
  | q_tracks _, D_tracks _ | q_history _, D_pages _
  | q_adsb, D_detections _ | q_trackDetections _, D_detections _ | q_path _, D_path _
  | q_health, D_health _ | q_sensors, D_sensors _ | q_monitoring, D_monitoring _ | q_sweeps, D_sweeps _ => True
  | (q_system | q_telemetry _ | q_labels | q_authMe | q_hookRules | q_hookDeliveries | q_boundaries
     | q_deploymentHistory | q_deployment | q_watchdog | q_users | q_sessions | q_bands | q_sweep _ _
     | q_captures | q_report _ | q_channelPlan | q_weights | q_settings), D_other _ => True
  | _, _ => False
  end.

Section Typed.
Context {C : Type} `{Q : QueryClient C} {laws : QueryClientLaws C}.

(** Every entry is a query's, and holds what that query gives. *)
Definition cache_typed (c : C) : Prop :=
  forall k d, getQueryData c k = Some d -> exists q, dated q /\ k = query_key q /\ data_fits q d.

Lemma typed_fits c q d : dated q -> cache_typed c -> getQueryData c (query_key q) = Some d -> data_fits q d.
Proof. intros Hq Hc (q'&Hq'&E&H)%Hc. by rewrite (query_key_inj q q'). Qed.

Lemma set_typed c q d : dated q -> cache_typed c -> data_fits q d -> cache_typed (setQueryData c (query_key q) d).
Proof.
  intros Hq Hc Hd k d'. destruct (decide (query_key q = k)) as [<-|E].
  - rewrite get_set_eq. intros [= <-]. eauto.
  - rewrite get_set_ne by done. by apply Hc.
Qed.

(** Code that leaves the cache typed and comes to its end. *)
Definition runs_typed (r : ran (C := C)) : Prop := cache_typed (fst r) /\ snd r = true.

(** What an entry of [q] may become. *)
Definition keeps (q : QueryId) (e : effect) : Prop :=
  match e with leaves => True | writes d => data_fits q d | throws => False end.

Lemma update_typed c q f :
  dated q -> cache_typed c -> (forall old, data_fits q old -> keeps q (f old)) ->
  runs_typed (update_data c (query_key q) f).
Proof.
  intros Hq Hc Hf. unfold update_data. destruct (getQueryData c (query_key q)) as [old|] eqn:E; [|done].
  specialize (Hf old (typed_fits c q old Hq Hc E)).
  destruct (f old) as [|d|]; [done| |done]. split; [by apply set_typed|done].
Qed.

Lemma for_entries_typed c body p :
  cache_typed c ->
  (forall q old, dated q -> key_matches p (query_key q) = true -> data_fits q old ->
     keeps q (body (query_key q) old)) ->
  runs_typed (for_entries body (getQueriesData c p) c).
Proof.
  intros Hc Hb. destruct (for_entries_spec body p c) as [Hok Hget].
  { intros k old Hm (q&Hq&->&Hd)%Hc. specialize (Hb q old Hq Hm Hd). by destruct (body _ _). }
  split; [|done]. intros k d. rewrite Hget.
  destruct (getQueryData c k) as [old|] eqn:E; [|done]. intros [= <-].
  destruct (Hc k old E) as (q&Hq&->&Hd). exists q. split_and!; [done|done|].
  destruct (key_matches p (query_key q)) eqn:Em; [|done]. specialize (Hb q old Hq Em Hd).
  unfold entry_result. by destruct (body (query_key q) old).
Qed.

Lemma and_then_typed r rest :
  runs_typed r -> (forall c, cache_typed c -> runs_typed (rest c)) -> runs_typed (and_then r rest).
Proof. intros [Hr Hok] H. unfold and_then. rewrite Hok. by apply H. Qed.

Lemma invalidate_typed c p : cache_typed c -> cache_typed (invalidateQueries c p).
Proof. intros Hc k d. rewrite get_invalidate. by apply Hc. Qed.

Lemma under_list q : key_matches LIST_PREFIX (query_key q) = true -> exists f, q = q_tracks f.
Proof. destruct q; cbn; try done; eauto. Qed.
Lemma under_detections q : key_matches [seg "detections"] (query_key q) = true -> q = q_adsb.
Proof. by destruct q. Qed.

Lemma update_entry_keeps track k q r : keeps (q_tracks q) (update_entry track k (D_tracks r)).
Proof. unfold update_entry. cbn. by repeat case_match. Qed.
Lemma close_entry_keeps id k q r : keeps (q_tracks q) (close_entry id k (D_tracks r)).
Proof. unfold close_entry. cbn. by repeat case_match. Qed.

(** C6. Frames keep the cache well typed, and find it so.  Let every entry of
    the cache be a query's and hold data of the shape that query's own request
    gives, a track's or a capture's entry the record of that id.  Then whatever
    the server pushes, [applyFrame] returns, having thrown at no entry it read,
    and leaves the cache so.  In particular the pages of the history and the
    positions of a flight, whose keys begin like the live lists', are never read
    as a list nor given a list's shape. *)
Theorem frames_keep_types (c : C) (frame : ServerFrame) :
  cache_typed c -> applyFrame_returns c frame = true /\ cache_typed (applyFrame c frame).
Proof.
  intros Hc. cut (runs_typed (run_frame c frame)); [by intros [? ?]|].
  destruct frame as [ts raw|ts id|ts x|ts h|ts cap|ts sweep|ts m|ts]; cbn [run_frame].
  - apply for_entries_typed; [by apply (set_typed _ (q_track _))|].
    intros q [] _ (f&->)%under_list Hf; try done. apply update_entry_keeps.
  - apply and_then_typed; [apply (update_typed _ (q_track id)); [done|done|by intros [] Hf]|].
    intros c1 Hc1. apply for_entries_typed; [done|].
    intros q [] _ (f&->)%under_list Hf; try done. apply close_entry_keeps.
  - case_bool_decide; [|done]. apply for_entries_typed; [done|].
    by intros q [] _ ->%under_detections Hf.
  - apply (update_typed _ q_sensors); [done|by apply (set_typed _ q_health)|by intros []].
  - split; [|done]. apply invalidate_typed. by apply (set_typed _ (q_capture _)).
  - apply and_then_typed; [apply (update_typed _ q_sweeps); [done|done|by intros []]|].
    intros c1 Hc1. split; [|done]. cbn. case_bool_decide; [done|]. by repeat apply invalidate_typed.
  - split; [|done]. by apply (set_typed _ q_monitoring).
  - done.
Qed.
End Typed.

(** ** The walk over a flight's pages *)
Section PathWalk.
Context {World : Type} (fetch : Sent -> World -> FetchResult * World) (base : string).
Context `{Wire DetectionsResponse}.

(** A server that pages a list: the page a cursor names starts at [offset] of
    it, holds the next [MAX_LIMIT] detections, and names a next page exactly
    when detections are left. *)
Record pages_of (trackId : string) (all : list Detection) (offset : option string -> nat) : Prop := {
  po_first : offset None = 0%nat;
  po_page : forall cursor w, exists v text page,
    fst (fetch (sent_for base (rq_path (Api.trackDetections trackId (page_query MAX_LIMIT cursor))) no_init) w) =
      answered {| rs_status := 200; rs_statusText := text; rs_json := Some v |} /\
    as_ v = page /\
    drs_detections page = take (Z.to_nat MAX_LIMIT) (drop (offset cursor) all) /\
    if (offset cursor + Z.to_nat MAX_LIMIT <? List.length all)%nat
    then exists next, drs_next_cursor page = Some next /\ next <> "" /\
                      offset (Some next) = (offset cursor + Z.to_nat MAX_LIMIT)%nat
    else drs_next_cursor page = None
}.

Lemma take_drop_more {A} (a b o : nat) (l : list A) :
  take a (drop o l) ++ take b (drop (o + a) l) = take (a + b) (drop o l).
Proof.
  rewrite <- drop_drop. generalize (drop o l). clear l. intros l. revert l.
  induction a as [|a IH]; intros [|x l]; try done; cbn; [by rewrite take_nil|]. by rewrite IH.
Qed.

Lemma path_pages_spec trackId all offset pages cursor acc w :
  pages_of trackId all offset ->
  fst (path_pages fetch base trackId pages cursor acc w) =
  inl (acc ++ take (pages * Z.to_nat MAX_LIMIT) (drop (offset cursor) all)).
Proof.
  intros Hp. revert cursor acc w. induction pages as [|pages IH]; intros cursor acc w.
  { cbn. by rewrite app_nil_r. }
  destruct (po_page _ _ _ Hp cursor w) as (v & text & page & Hf & Hv & Hd & Hn).
  cbn [path_pages]. unfold mbind, Io_bind, send, request. cbn [get rq_init Api.trackDetections].
  cbn [get rq_path Api.trackDetections] in Hf.
  destruct (fetch _ w) as [res w']. cbn [fst] in Hf. subst res. cbn [rs_status rs_json response_ok].
  change (negb (response_ok _)) with false. change (200 =? 204) with false. cbn match. cbn [defined].
  unfold mret, Io_ret. rewrite Hv, Hd.
  destruct (offset cursor + Z.to_nat MAX_LIMIT <? List.length all)%nat eqn:El.
  - destruct Hn as (next & -> & Hne & Ho). destruct next as [|x next]; [done|]. cbn [truthy].
    rewrite IH, Ho. f_equal. rewrite <- app_assoc. f_equal.
    rewrite take_drop_more. f_equal; lia.
  - rewrite Hn. cbn [truthy]. f_equal. f_equal. apply Nat.ltb_ge in El.
    rewrite !take_ge; [done|rewrite length_drop; lia..].
Qed.

(** C14. The path of a flight is the whole flight: against a server that pages
    its detections, the walk returns each of them once and in order, up to ten
    pages of a thousand; a longer flight gives its first ten thousand rather
    than a loop. *)
Theorem path_is_whole_flight (trackId : string) (all : list Detection) (offset : option string -> nat) (w : World) :
  pages_of trackId all offset ->
  fst (trackPathQuery_fn fetch base trackId w) = inl (take (PATH_MAX_PAGES * Z.to_nat MAX_LIMIT) all).
Proof.
  intros Hp. unfold trackPathQuery_fn. rewrite (path_pages_spec _ all offset) by done.
  by rewrite (po_first _ _ _ Hp), drop_0.
Qed.
End PathWalk.

(** A refusal is never asked again; anything else once more, or twice when the
    question is who is logged in. *)
Lemma refusals_are_final e n :
  In (ae_status e) [400; 401; 403; 404; 409] -> default_retry n (failed_api e) = false.
Proof. intros H. cbn. by destruct H as [<-|[<-|[<-|[<-|[<-|[]]]]]]. Qed.

Lemma retries_are_few n e : 0 <= n -> (default_retry n e = true -> n = 0) /\ (authMe_retry n e = true -> n < 2).
Proof.
  intros Hn. split; destruct e; cbn [default_retry authMe_retry]; try case_match; try done; intros Hlt%Z.ltb_lt; lia.
Qed.

(** ** Examples *)

(** A paging server whose cursors are offsets. *)
Module PagingServer.
Section Server.
Variable all : list Detection.
Definition offset (cursor : option string) : nat :=
  match cursor with Some s => Z.to_nat (JsParse.digits_from 0 s) | None => 0%nat end.
Definition page_at (cursor : option string) : DetectionsResponse :=
  let o := offset cursor in
  {| drs_detections := take 1000 (drop o all);
     drs_next_cursor := if (o + 1000 <? List.length all)%nat then Some (pretty (Z.of_nat (o + 1000))) else None;
     drs_total := Z.of_nat (List.length all) |}.
#[local] Instance wire : Wire DetectionsResponse :=
  fun v => page_at (match v with JStr c => Some c | _ => None end).
(** It echoes the cursor it was sent; [Wire] looks the page up. *)
Definition serve (sent : Sent) (w : nat) : FetchResult * nat :=
  (answered {| rs_status := 200; rs_statusText := "OK";
     rs_json := Some match form_parse (url_query (sn_url sent) ?? "") with
                     | Some params => match assoc "cursor" params with Some c => JStr c | None => JNull end
                     | None => JNull
                     end |}, S w).

Lemma serves_pages : pages_of serve "/api/v1" "t1" all offset.
Proof.
  split; [done|]. intros cursor w. unfold serve. cbn [fst sent_for sn_url Api.trackDetections get rq_path].
  set (ps := [("since", _); _; _]).
  assert (List.NoDup (map fst ps)) as Hnd by (repeat constructor; simpl; intuition congruence).
  rewrite <- !sapp_assoc. destruct (url_parts ((("/api/v1" +:+ "/tracks/") +:+ encodeURIComponent "t1") +:+ "/detections") ps) as [_ ->];
    [done|done|done|].
  rewrite assoc_sent by done.
  match goal with |- context [answered {| rs_status := _; rs_statusText := _; rs_json := Some ?v |}] => set (j := v) end.
  assert (as_ j = page_at cursor) as Hj by (by destruct cursor).
  exists j, "OK", (page_at cursor). split_and!; [done|done|done|].
  unfold page_at. cbn [drs_next_cursor]. change (Z.to_nat MAX_LIMIT) with 1000%nat.
  destruct (offset cursor + 1000 <? List.length all)%nat; [|done].
  eexists. split; [done|]. destruct (JsParse.pretty_Z_digits (Z.of_nat (offset cursor + 1000))) as (_ & H1 & H2); [lia|].
  split; [done|]. cbn [offset]. rewrite H2. lia.
Qed.
End Server.
End PagingServer.

Definition heard (n : nat) : list Detection :=
  repeat {| dt_detection_id := "d"; dt_ts := "2026-01-01T00:00:00Z"; dt_sensor_id := "wifi-1"; dt_sensor_kind := wifi;
            dt_detection_class := ClsA; dt_rf := None; dt_identity := None; dt_position := None; dt_kinematics := None;
            dt_operator := None; dt_signal_features := None; dt_adsb := None; dt_raw := None |} n.

Lemma path_is_whole_flight_witness :
  let wire := PagingServer.wire (heard 2500) in
  pages_of (H := wire) PagingServer.serve "/api/v1" "t1" (heard 2500) PagingServer.offset /\
  fst (trackPathQuery_fn (H := wire) PagingServer.serve "/api/v1" "t1" 0%nat) =
    inl (take (PATH_MAX_PAGES * Z.to_nat MAX_LIMIT) (heard 2500)).
Proof.
  pose proof (PagingServer.serves_pages (heard 2500)) as H.
  split; [exact H|]. exact (path_is_whole_flight (H := PagingServer.wire (heard 2500)) _ _ _ _ _ _ H).
Defined.

Section Examples.
Import ListCache.

(** A console with a live list, the page of a flight and the history open. *)
Definition open_pages : cache :=
  setQueryData (setQueryData (setQueryData [] (query_key (q_tracks drawer_query)) (D_tracks sample_response))
    (query_key (q_history None)) (D_pages [sample_response]))
    (query_key (q_path "T1")) (D_path (heard 3)).

Lemma open_pages_typed : cache_typed open_pages.
Proof. repeat (apply set_typed; [done| |done]). by intros k d. Qed.

Lemma frames_keep_types_witness :
  cache_typed open_pages /\ applyFrame_returns open_pages lapse_frame = true /\
  cache_typed (applyFrame open_pages lapse_frame).
Proof. split; [exact open_pages_typed|]. apply frames_keep_types. exact open_pages_typed. Defined.
End Examples.

Lemma one_query_per_key_witness :
  dated (q_history (Some "2026-09-15T03:48:07.250Z")) /\ dated q_deployment /\
  key_matches (query_key q_deployment) (query_key q_deploymentHistory) = true /\
  (qo_queryKey (options 0 (q_history (Some "2026-09-15T03:48:07.250Z"))) = qo_queryKey (options 0 q_deployment) ->
   options 0 (q_history (Some "2026-09-15T03:48:07.250Z")) = options 0 q_deployment /\
   q_history (Some "2026-09-15T03:48:07.250Z") = q_deployment).
Proof.
  split_and!; [done|done|reflexivity|].
  apply (one_query_per_key (q_history (Some "2026-09-15T03:48:07.250Z")) q_deployment 0); done.
Defined.
