(* ===== verification/LiveStream.v ===== *)
(** * LiveStream: the reconnecting WebSocket client

    [lib/api/live.ts].  The class and the browser objects it drives (sockets and
    timers) form one state; every method and handler is a function on it, and
    [step] is the relation a browser can drive: method calls, socket events,
    timers firing.  What the outside decides (whether the socket factory
    throws, the jitter drawn, what a message parses to) comes with the event.
    What the object does to the outside is the log [out].  Listeners are
    identifiers; a listener that calls back into the stream is a later event. *)
From Stdlib Require Import ZArith Bool String Ascii List Lia Floats.SpecFloat.
From stdpp Require Import base option list strings.
From S2P Require Import Prelude JsNumber JsString ApiTypes.

Inductive ConnectionState := connecting | opened | reconnecting | closed.
#[export] Instance ConnectionState_eq_dec : EqDecision ConnectionState.
Proof. solve_decision. Defined.

(** [WebSocket.readyState]. *)
Inductive ReadyState := CONNECTING | OPEN | CLOSING | CLOSED.
#[export] Instance ReadyState_eq_dec : EqDecision ReadyState.
Proof. solve_decision. Defined.

(** A browser socket: its state, and whether its four handlers are set. *)
Record WebSocket := { readyState : ReadyState; handlers : bool }.

Definition DEFAULT_TOPICS : list StreamTopic :=
  [topic_tracks; topic_health; topic_detections; topic_captures; topic_spectrum].

Record LiveStreamOptions := {
  op_url : string;
  op_topics : option (list StreamTopic);
  op_baseDelayMs : option num;
  op_maxDelayMs : option num
}.

(** What the object does to the outside, in order; a state listener is told the
    state and reads the attempt back. *)
Inductive Output :=
| o_construct (id : nat) (url : string)
| o_send (id : nat) (frame : ClientFrame)
| o_close (id : nat)
| o_setTimeout (handle : nat) (delay : option Z)
| o_clearTimeout (handle : nat)
| o_frame (listener : nat) (frame : ServerFrame)
| o_state (listener : nat) (state : ConnectionState) (getAttempt : Z)
| o_connect (listener : nat) (isReconnect : bool).

Record LiveStream := {
  url : string;
  topics : list StreamTopic;
  baseDelayMs : num;
  maxDelayMs : num;
  socket : option nat;
  timer : option nat;
  attempt : Z;
  everConnected : bool;
  stopped : bool;
  state : ConnectionState;
  frameListeners : list nat;
  stateListeners : list nat;
  connectListeners : list nat;
  (** the browser: every socket constructed, the pending timers, the next handle *)
  sockets : list WebSocket;
  timers : list nat;
  next_handle : nat;
  out : list Output
}.

Definition default_base : num := of_Z 500.
Definition default_max : num := of_Z 30000.

Definition constructor (o : LiveStreamOptions) : LiveStream :=
  {| url := op_url o;
     topics := op_topics o ?? DEFAULT_TOPICS;
     baseDelayMs := op_baseDelayMs o ?? default_base;
     maxDelayMs := op_maxDelayMs o ?? default_max;
     socket := None; timer := None; attempt := 0; everConnected := false;
     stopped := false; state := closed;
     frameListeners := []; stateListeners := []; connectListeners := [];
     sockets := []; timers := []; next_handle := O; out := [] |}.

(** Field updates. *)
Section Update.
Context (s : LiveStream).
Definition upd (socket' timer' : option nat) (attempt' : Z) (ever' stopped' : bool)
  (state' : ConnectionState) : LiveStream :=
  {| url := url s; topics := topics s; baseDelayMs := baseDelayMs s; maxDelayMs := maxDelayMs s;
     socket := socket'; timer := timer'; attempt := attempt'; everConnected := ever';
     stopped := stopped'; state := state';
     frameListeners := frameListeners s; stateListeners := stateListeners s;
     connectListeners := connectListeners s;
     sockets := sockets s; timers := timers s; next_handle := next_handle s; out := out s |}.
Definition set_socket x := upd x (timer s) (attempt s) (everConnected s) (stopped s) (state s).
Definition set_timer x := upd (socket s) x (attempt s) (everConnected s) (stopped s) (state s).
Definition set_attempt x := upd (socket s) (timer s) x (everConnected s) (stopped s) (state s).
Definition set_ever x := upd (socket s) (timer s) (attempt s) x (stopped s) (state s).
Definition set_stopped x := upd (socket s) (timer s) (attempt s) (everConnected s) x (state s).
Definition set_state x := upd (socket s) (timer s) (attempt s) (everConnected s) (stopped s) x.
Definition set_listeners (f st c : list nat) : LiveStream :=
  {| url := url s; topics := topics s; baseDelayMs := baseDelayMs s; maxDelayMs := maxDelayMs s;
     socket := socket s; timer := timer s; attempt := attempt s; everConnected := everConnected s;
     stopped := stopped s; state := state s;
     frameListeners := f; stateListeners := st; connectListeners := c;
     sockets := sockets s; timers := timers s; next_handle := next_handle s; out := out s |}.
Definition browser (socks : list WebSocket) (tms : list nat) (n : nat) (o : list Output) : LiveStream :=
  {| url := url s; topics := topics s; baseDelayMs := baseDelayMs s; maxDelayMs := maxDelayMs s;
     socket := socket s; timer := timer s; attempt := attempt s; everConnected := everConnected s;
     stopped := stopped s; state := state s;
     frameListeners := frameListeners s; stateListeners := stateListeners s;
     connectListeners := connectListeners s;
     sockets := socks; timers := tms; next_handle := n; out := out s ++ o |}.
Definition emit (o : list Output) := browser (sockets s) (timers s) (next_handle s) o.
Definition put_socket (i : nat) (w : WebSocket) :=
  browser (<[i := w]> (sockets s)) (timers s) (next_handle s) [].
End Update.

(** [Set.prototype.add] and [delete] on the listener sets. *)
Definition Set_add (l : nat) (set : list nat) : list nat :=
  if existsb (Nat.eqb l) set then set else set ++ [l].
Definition Set_delete (l : nat) (set : list nat) : list nat :=
  List.filter (fun x => negb (Nat.eqb l x)) set.

Definition onFrame (l : nat) (s : LiveStream) :=
  set_listeners s (Set_add l (frameListeners s)) (stateListeners s) (connectListeners s).
Definition offFrame (l : nat) (s : LiveStream) :=
  set_listeners s (Set_delete l (frameListeners s)) (stateListeners s) (connectListeners s).
Definition onStateChange (l : nat) (s : LiveStream) :=
  set_listeners s (frameListeners s) (Set_add l (stateListeners s)) (connectListeners s).
Definition offStateChange (l : nat) (s : LiveStream) :=
  set_listeners s (frameListeners s) (Set_delete l (stateListeners s)) (connectListeners s).
Definition onConnect (l : nat) (s : LiveStream) :=
  set_listeners s (frameListeners s) (stateListeners s) (Set_add l (connectListeners s)).
Definition offConnect (l : nat) (s : LiveStream) :=
  set_listeners s (frameListeners s) (stateListeners s) (Set_delete l (connectListeners s)).

(** ** Private helpers *)

Definition setState (st : ConnectionState) (s : LiveStream) : LiveStream :=
  if bool_decide (state s = st) then s
  else emit (set_state s st) (map (fun l => o_state l st (attempt s)) (stateListeners s)).

Definition clearTimer (s : LiveStream) : LiveStream :=
  match timer s with
  | Some h =>
      set_timer (browser s (sockets s) (List.filter (fun x => negb (Nat.eqb h x)) (timers s))
                   (next_handle s) [o_clearTimeout h]) None
  | None => s
  end.

Definition detach (i : nat) (s : LiveStream) : LiveStream :=
  match sockets s !! i with
  | Some w => put_socket s i {| readyState := readyState w; handlers := false |}
  | None => s
  end.

(** [2 ** n]: exact while it is finite. *)
Definition pow2 (n : Z) : num := if n <? 1024 then of_Z (2 ^ n) else pos_infinity.

(** The ceiling of retry [attempt], and the delay drawn below it. *)
Definition ceiling (s : LiveStream) (n : Z) : num :=
  nmin (nmul (baseDelayMs s) (pow2 (Z.max 0 (n - 1)))) (maxDelayMs s).
Definition delayFor (s : LiveStream) (jitter : num) (n : Z) : option Z :=
  floor_Z (nmul jitter (ceiling s n)).

Definition scheduleReconnect (jitter : num) (s : LiveStream) : LiveStream :=
  if stopped s then s
  else
    let s := set_attempt s (attempt s + 1) in
    let s := setState reconnecting s in
    let s := clearTimer s in
    let h := next_handle s in
    set_timer (browser s (sockets s) (timers s ++ [h]) (S h)
                 [o_setTimeout h (delayFor s jitter (attempt s))]) (Some h).

(** [open]: [ok] says whether the factory returned or threw. *)
Definition open (ok : bool) (jitter : num) (s : LiveStream) : LiveStream :=
  if stopped s then s
  else
    let s := setState (if everConnected s then reconnecting else connecting) s in
    if ok then
      let i := List.length (sockets s) in
      set_socket (browser s (sockets s ++ [{| readyState := CONNECTING; handlers := true |}])
                    (timers s) (next_handle s) [o_construct i (url s)]) (Some i)
    else scheduleReconnect jitter s.

Definition socketReady (s : LiveStream) : option ReadyState :=
  match socket s with
  | Some i => readyState <$> sockets s !! i
  | None => None
  end.

(** ** Public methods *)

Definition connect (ok : bool) (jitter : num) (s : LiveStream) : LiveStream :=
  open ok jitter (set_stopped s false).

(** [socket.close()]: the handshake starts; a closed socket stays closed. *)
Definition socket_close (i : nat) (s : LiveStream) : LiveStream :=
  match sockets s !! i with
  | Some {| readyState := CLOSED |} | None => emit s [o_close i]
  | Some w =>
      emit (put_socket s i {| readyState := CLOSING; handlers := handlers w |}) [o_close i]
  end.

Definition close (s : LiveStream) : LiveStream :=
  let s := clearTimer (set_stopped s true) in
  let s := match socket s with
           | Some i => set_socket (socket_close i (detach i s)) None
           | None => s
           end in
  setState closed s.

Definition resume (ok : bool) (jitter : num) (s : LiveStream) : LiveStream :=
  if stopped s then s
  else match socketReady s with
       | Some OPEN | Some CONNECTING => s
       | _ => open ok jitter (set_attempt (clearTimer s) 0)
       end.

Definition send (frame : ClientFrame) (s : LiveStream) : LiveStream :=
  match socket s, socketReady s with
  | Some i, Some OPEN => emit s [o_send i frame]
  | _, _ => s
  end.

(** ** The handlers [open] installs *)

Definition onopen (s : LiveStream) : LiveStream :=
  let isReconnect := everConnected s in
  let s := set_attempt (set_ever s true) 0 in
  let s := setState opened s in
  let s := send (SubscribeMessage (topics s)) s in
  emit s (map (fun l => o_connect l isReconnect) (connectListeners s)).

(** [event.data]: not a string, or a string with the result of [JSON.parse]. *)
Inductive MessageData := m_binary | m_text (parsed : option ServerFrame).

Definition onmessage (data : MessageData) (s : LiveStream) : LiveStream :=
  match data with
  | m_binary => s
  | m_text None => s
  | m_text (Some (ping_frame _)) => send PongMessage s
  | m_text (Some frame) => emit s (map (fun l => o_frame l frame) (frameListeners s))
  end.

Definition onclose (jitter : num) (s : LiveStream) : LiveStream :=
  scheduleReconnect jitter (set_socket s None).

(** The timer callback. *)
Definition onTimer (ok : bool) (jitter : num) (s : LiveStream) : LiveStream :=
  open ok jitter (set_timer s None).

(** ** What can happen

    A browser opens, feeds and closes only sockets that are in the matching
    state, and fires only pending timers; a handler runs if it is still set. *)
Inductive ListenOp := l_onFrame | l_offFrame | l_onState | l_offState | l_onConnect | l_offConnect.

Definition listen (op : ListenOp) : nat -> LiveStream -> LiveStream :=
  match op with
  | l_onFrame => onFrame | l_offFrame => offFrame
  | l_onState => onStateChange | l_offState => offStateChange
  | l_onConnect => onConnect | l_offConnect => offConnect
  end.

Inductive Event :=
| e_connect (ok : bool) (jitter : num)
| e_close
| e_resume (ok : bool) (jitter : num)
| e_send (frame : ClientFrame)
| e_listen (op : ListenOp) (l : nat)
| e_socket_open (i : nat)
| e_socket_message (i : nat) (data : MessageData)
| e_socket_error (i : nat)
| e_socket_closing (i : nat)
| e_socket_close (i : nat) (jitter : num)
| e_timer (h : nat) (ok : bool) (jitter : num).

Definition put_ready (i : nat) (w : WebSocket) (r : ReadyState) (s : LiveStream) : LiveStream :=
  put_socket s i {| readyState := r; handlers := handlers w |}.

Definition step (e : Event) (s : LiveStream) : option LiveStream :=
  match e with
  | e_connect ok jitter => Some (connect ok jitter s)
  | e_close => Some (close s)
  | e_resume ok jitter => Some (resume ok jitter s)
  | e_send frame => Some (send frame s)
  | e_listen op l => Some (listen op l s)
  | e_socket_open i =>
      match sockets s !! i with
      | Some ({| readyState := CONNECTING |} as w) =>
          let s := put_ready i w OPEN s in
          Some (if handlers w then onopen s else s)
      | _ => None
      end
  | e_socket_message i data =>
      match sockets s !! i with
      | Some ({| readyState := OPEN |} as w) => Some (if handlers w then onmessage data s else s)
      | _ => None
      end
  | e_socket_error i =>
      (* onerror does nothing *)
      match sockets s !! i with
      | Some {| readyState := CLOSED |} | None => None
      | Some _ => Some s
      end
  | e_socket_closing i =>
      match sockets s !! i with
      | Some ({| readyState := (CONNECTING | OPEN) |} as w) => Some (put_ready i w CLOSING s)
      | _ => None
      end
  | e_socket_close i jitter =>
      match sockets s !! i with
      | Some {| readyState := CLOSED |} | None => None
      | Some w =>
          let s := put_ready i w CLOSED s in
          Some (if handlers w then onclose jitter s else s)
      end
  | e_timer h ok jitter =>
      if existsb (Nat.eqb h) (timers s)
      then Some (onTimer ok jitter
                   (browser s (sockets s) (List.filter (fun x => negb (Nat.eqb h x)) (timers s))
                      (next_handle s) []))
      else None
  end.

Inductive reachable (o : LiveStreamOptions) (allowed : LiveStream -> Event -> Prop) : LiveStream -> Prop :=
| reach_new : reachable o allowed (constructor o)
| reach_step s e s' :
    reachable o allowed s -> allowed s e -> step e s = Some s' -> reachable o allowed s'.

(** How [live-provider.tsx] drives the stream: [connect] on mount, after
    construction or a [close]; [close] on the way out; [resume] whenever the page
    is shown again or comes online, whatever the socket is doing. *)
Definition driven (s : LiveStream) (e : Event) : Prop :=
  match e with e_connect _ _ => state s = closed | _ => True end.

(** The page resumes while the current socket is in its closing handshake. *)
Definition meets_closing (s : LiveStream) (e : Event) : bool :=
  match e with e_resume _ _ => bool_decide (socketReady s = Some CLOSING) | _ => false end.

(** The runs of a driven stream, with how often that has happened. *)
Inductive drives (o : LiveStreamOptions) : nat -> LiveStream -> Prop :=
| drives_new : drives o 0 (constructor o)
| drives_step n s e s' :
    drives o n s -> driven s e -> step e s = Some s' ->
    drives o (n + if meets_closing s e then 1 else 0) s'.

(** The runs in which it has not. *)
Definition disciplined (s : LiveStream) (e : Event) : Prop :=
  driven s e /\ meets_closing s e = false.

(** A socket that can still call back into the stream. *)
Definition attached (s : LiveStream) (i : nat) : Prop :=
  exists w, sockets s !! i = Some w /\ handlers w = true /\ readyState w <> CLOSED.

Definition live_socket (w : WebSocket) : bool :=
  handlers w && negb (bool_decide (readyState w = CLOSED)).
Definition attached_count (s : LiveStream) : nat := List.length (List.filter live_socket (sockets s)).

Record timers_ok (s : LiveStream) : Prop := {
  tk_timers : timers s = option_list (timer s);
  tk_handle : forall h, timer s = Some h -> (h < next_handle s)%nat
}.

Record Inv (s : LiveStream) : Prop := {
  inv_timers : timers_ok s;
  inv_socket : forall i, attached s i <-> socket s = Some i;
  inv_one : socket s = None \/ timer s = None;
  inv_closed : state s = closed -> socket s = None /\ timer s = None;
  inv_busy : state s <> closed -> stopped s = false /\ (socket s <> None \/ timer s <> None);
  inv_open : state s = opened -> attempt s = 0 /\ timer s = None /\
    (socketReady s = Some OPEN \/ socketReady s = Some CLOSING);
  inv_ready : socketReady s = Some OPEN -> state s = opened;
  inv_wait : timer s <> None -> state s = reconnecting /\ 1 <= attempt s;
  inv_attempt : 0 <= attempt s
}.

(** Between two sockets: nothing attached. *)
Record Quiet (s : LiveStream) : Prop := {
  quiet_timers : timers_ok s;
  quiet_socket : socket s = None;
  quiet_attached : forall i, ~ attached s i;
  quiet_attempt : 0 <= attempt s
}.

Lemma setState_spec st s :
  exists o, setState st s = emit (set_state s st) o.
Proof.
  unfold setState. case_bool_decide as E; [|eauto].
  exists []. destruct s; simpl in *. unfold emit, browser. simpl. by rewrite app_nil_r, <- E.
Qed.

Lemma clearTimer_spec s :
  timers_ok s -> exists o, clearTimer s = browser (set_timer s None) (sockets s) [] (next_handle s) o.
Proof.
  intros [Ht _]. destruct s as [? ? ? ? ? tm ? ? ? ? ? ? ? ? tms ? ?]; simpl in *. subst tms.
  unfold clearTimer. destruct tm as [h|]; simpl.
  - rewrite Nat.eqb_refl. simpl. eauto.
  - exists []. unfold set_timer, upd, browser. simpl. by rewrite app_nil_r.
Qed.

Lemma attached_sockets s s' i : sockets s' = sockets s -> attached s' i <-> attached s i.
Proof. unfold attached. by intros ->. Qed.

Lemma scheduleReconnect_inv j s : Quiet s -> stopped s = false -> Inv (scheduleReconnect j s).
Proof.
  intros [Ht Hs Ha Hn] Hst. unfold scheduleReconnect. rewrite Hst.
  destruct (setState_spec reconnecting (set_attempt s (attempt s + 1))) as [o ->].
  edestruct (clearTimer_spec (emit (set_state (set_attempt s (attempt s + 1)) reconnecting) o))
    as [o' ->]; [by destruct Ht; split|].
  split; simpl; try done; try lia; rewrite ?Hs; eauto; try congruence.
  - split; simpl; [done|]. intros h [= <-]. lia.
  - intros i. split; [|done]. intros H. by apply Ha in H.
  - unfold socketReady. simpl. by rewrite Hs.
  - intros _. split; [done|lia].
Qed.

Lemma lookup_snoc {A} (l : list A) x i y :
  (l ++ [x]) !! i = Some y <-> l !! i = Some y \/ (i = List.length l /\ x = y).
Proof.
  rewrite lookup_app_Some. split.
  - intros [?|[? H]]; [by left|]. right. apply list_lookup_singleton_Some in H as [? ?].
    split; [lia|done].
  - intros [?|[-> ->]]; [by left|]. right. by rewrite Nat.sub_diag.
Qed.

Lemma open_inv ok j s :
  Quiet s -> timer s = None -> stopped s = false -> Inv (open ok j s).
Proof.
  intros Hq Htm Hst. unfold open. rewrite Hst.
  destruct (setState_spec (if everConnected s then reconnecting else connecting) s) as [o ->].
  destruct ok.
  - destruct Hq as [Ht Hs Ha Hn].
    assert (socketReady (set_socket (browser
       (emit (set_state s (if everConnected s then reconnecting else connecting)) o)
       (sockets s ++ [{| readyState := CONNECTING; handlers := true |}]) (timers s) (next_handle s)
       [o_construct (List.length (sockets s)) (url s)]) (Some (List.length (sockets s))))
       = Some CONNECTING) as Hr.
    { unfold socketReady. simpl. by rewrite list_lookup_middle. }
    split; simpl; rewrite ?Htm, ?Hr; eauto; try done; try (by destruct everConnected).
    + destruct Ht. split; simpl; by rewrite Htm in *.
    + intros i. unfold attached. simpl. setoid_rewrite lookup_snoc. split.
      * intros (w&[H|[-> _]]&Hh&Hc); [|done]. exfalso. eapply (Ha i). by exists w.
      * intros [= <-]. eexists. split; [by right|]. done.
  - apply scheduleReconnect_inv; [|done]. destruct Hq as [[? ?] ? ? ?].
    split; simpl; try done.
Qed.

(** An operation that only logs or changes listeners keeps the invariant. *)
Record same_core (s s' : LiveStream) : Prop := {
  sc_socket : socket s' = socket s;
  sc_timer : timer s' = timer s;
  sc_attempt : attempt s' = attempt s;
  sc_stopped : stopped s' = stopped s;
  sc_state : state s' = state s;
  sc_sockets : sockets s' = sockets s;
  sc_timers : timers s' = timers s;
  sc_next : next_handle s' = next_handle s
}.

Lemma same_core_ready s s' : same_core s s' -> socketReady s' = socketReady s.
Proof. intros []. unfold socketReady. by rewrite sc_socket0, sc_sockets0. Qed.

Lemma same_core_inv s s' : same_core s s' -> Inv s -> Inv s'.
Proof.
  intros Hc [[? ?] ? ? ? ? ? ? ? ?]. pose proof (same_core_ready _ _ Hc) as Hr.
  destruct Hc as [E1 E2 E3 E4 E5 E6 E7 E8].
  split; [split|..]; rewrite ?Hr, ?E1, ?E2, ?E3, ?E4, ?E5, ?E7, ?E8; try done.
  intros i. by rewrite (attached_sockets s).
Qed.

Lemma same_core_refl s : same_core s s.
Proof. done. Qed.

Lemma same_core_emit s o : same_core s (emit s o).
Proof. done. Qed.

Lemma same_core_send f s : same_core s (send f s).
Proof. unfold send. destruct (socket s), (socketReady s) as [[]|]; done. Qed.

Lemma same_core_listen op l s : same_core s (listen op l s).
Proof. by destruct op. Qed.

Lemma same_core_message d s : same_core s (onmessage d s).
Proof.
  destruct d as [|[[]|]]; try done. apply same_core_send.
Qed.

#[local] Hint Resolve same_core_refl same_core_emit same_core_send same_core_listen
  same_core_message : js.

Lemma ready_of s i w : socket s = Some i -> sockets s !! i = Some w -> socketReady s = Some (readyState w).
Proof. intros H1 H2. unfold socketReady. by rewrite H1, H2. Qed.

Lemma lookup_put (s : LiveStream) i w w' k v :
  sockets s !! i = Some w ->
  sockets (put_socket s i w') !! k = Some v <->
  (k = i /\ v = w') \/ (k <> i /\ sockets s !! k = Some v).
Proof.
  intros Hi. simpl. destruct (decide (k = i)) as [->|Hne].
  - rewrite list_lookup_insert_eq by (by eapply lookup_lt_Some). split.
    + intros [= <-]. by left.
    + intros [[_ ->]|[? _]]; done.
  - rewrite list_lookup_insert_ne by done. split; [by right|]. by intros [[? _]|[_ ?]].
Qed.

Lemma attached_put s i w r k :
  sockets s !! i = Some w -> handlers w = true -> readyState w <> CLOSED -> r <> CLOSED ->
  attached (put_ready i w r s) k <-> attached s k.
Proof.
  intros Hi Hh Hw Hr. unfold attached, put_ready. setoid_rewrite (lookup_put s i w); [|done].
  split.
  - intros (v&[[-> ->]|[Hne Hv]]&?&?); [exists w | exists v]; auto.
  - intros (v&Hv&?&?). destruct (decide (k = i)) as [->|]; [|exists v; auto].
    exists {| readyState := r; handlers := handlers w |}. auto.
Qed.

(** A socket whose handlers are gone changes nothing that matters. *)
Lemma detached_put_inv s i w r :
  sockets s !! i = Some w -> handlers w = false -> Inv s -> Inv (put_ready i w r s).
Proof.
  intros Hi Hh HI.
  assert (forall k, attached (put_ready i w r s) k <-> attached s k) as Ha.
  { intros k. unfold attached, put_ready. setoid_rewrite (lookup_put s i w); [|done]. split.
    - intros (v&[[-> ->]|[Hne Hv]]&Hv'&?); [simpl in Hv'; congruence|exists v; auto].
    - intros (v&Hv&?&?). destruct (decide (k = i)) as [->|]; [congruence|exists v; auto]. }
  assert (socketReady (put_ready i w r s) = socketReady s) as Hr.
  { unfold socketReady. simpl. destruct (socket s) as [k|] eqn:E; [|done].
    destruct (decide (k = i)) as [->|]; [|by rewrite list_lookup_insert_ne].
    exfalso. apply (inv_socket _ HI) in E as (v&Hv&?&?). congruence. }
  destruct HI as [[? ?] Hs ? ? ? ? ? ? ?]. split; [by split|..]; try done; rewrite ?Hr; try done.
  intros k. by rewrite Ha.
Qed.

Lemma Inv_attached s i w :
  Inv s -> sockets s !! i = Some w -> handlers w = true -> readyState w <> CLOSED ->
  socket s = Some i /\ timer s = None /\ state s <> closed /\ stopped s = false /\
  socketReady s = Some (readyState w).
Proof.
  intros HI Hi Hh Hw. assert (socket s = Some i) as Hs by (apply (inv_socket _ HI); by exists w).
  assert (state s <> closed) as Hc by (intros [? ?]%(inv_closed _ HI); congruence).
  repeat split; try done.
  - destruct (inv_one _ HI); congruence.
  - by apply (inv_busy _ HI).
  - by eapply ready_of.
Qed.

Lemma socket_open_inv s i w :
  Inv s -> sockets s !! i = Some w -> handlers w = true -> readyState w = CONNECTING ->
  Inv (onopen (put_ready i w OPEN s)).
Proof.
  intros HI Hi Hh Hw. destruct (Inv_attached s i w HI Hi Hh) as (Hs&Ht&Hc&Hst&Hr); [congruence|].
  unfold onopen.
  destruct (setState_spec opened (set_attempt (set_ever (put_ready i w OPEN s) true) 0)) as [o ->].
  eapply same_core_inv; [apply same_core_emit|]. eapply same_core_inv; [apply same_core_send|].
  assert (forall k, attached (put_ready i w OPEN s) k <-> attached s k) as Ha.
  { intros k. apply attached_put; congruence. }
  assert (forall s', socket s' = Some i -> sockets s' = sockets (put_ready i w OPEN s) ->
    socketReady s' = Some OPEN) as Hr'.
  { intros s' E1 E2. unfold socketReady. rewrite E1, E2. simpl.
    rewrite list_lookup_insert_eq; [done|]. by eapply lookup_lt_Some. }
  destruct HI as [[? ?] Hsk ? ? ? ? ? ? ?].
  split; [by split|..]; simpl; rewrite ?Ht; try done; auto; try lia.
  - intros k. rewrite (attached_sockets (put_ready i w OPEN s)), Ha; done.
  - intros _. split; [done|]. left. congruence.
Qed.

Lemma socket_closing_inv s i w :
  Inv s -> sockets s !! i = Some w -> handlers w = true ->
  readyState w = CONNECTING \/ readyState w = OPEN -> Inv (put_ready i w CLOSING s).
Proof.
  intros HI Hi Hh Hw. assert (readyState w <> CLOSED) as Hnc by (destruct Hw; congruence).
  destruct (Inv_attached s i w HI Hi Hh Hnc) as (Hs&Ht&Hc&Hst&Hr).
  assert (socketReady (put_ready i w CLOSING s) = Some CLOSING) as Hr'.
  { unfold socketReady. simpl. rewrite Hs, list_lookup_insert_eq; [done|]. by eapply lookup_lt_Some. }
  destruct HI as [[? ?] Hsk ? ? ? Ho ? ? ?].
  split; [by split|..]; rewrite ?Hr'; try done.
  - intros k. by rewrite attached_put.
  - intros E. destruct (Ho E) as (?&?&_). auto.
Qed.

Lemma Quiet_no_socket s i w :
  Inv s -> sockets s !! i = Some w -> handlers w = true -> readyState w <> CLOSED ->
  Quiet (set_socket (put_ready i w CLOSED s) None) /\ stopped s = false.
Proof.
  intros HI Hi Hh Hw. destruct (Inv_attached s i w HI Hi Hh Hw) as (Hs&Ht&Hc&Hst&Hr).
  split; [|done]. destruct HI as [[? ?] Hsk ? ? ? Ho ? ? ?]. split; try done.
  intros k (v&Hv&Hv1&Hv2). apply (lookup_put s i w) in Hv as [[-> ->]|[Hne Hv]]; try done.
  assert (socket s = Some k) by (apply Hsk; by exists v). congruence.
Qed.

Lemma close_Quiet s :
  Inv s -> exists o s', close s = emit (set_state s' closed) o /\ Quiet s' /\
    timer s' = None /\ stopped s' = true /\ state s' = state s.
Proof.
  intros HI. unfold close.
  destruct (clearTimer_spec (set_stopped s true)) as [o ->]; [by destruct (inv_timers _ HI)|].
  simpl. destruct (socket s) as [i|] eqn:Es.
  - pose proof Es as (w&Hi&Hh&Hw)%(inv_socket _ HI).
    unfold detach. simpl. rewrite Hi. unfold socket_close. simpl.
    rewrite list_lookup_insert_eq by (by eapply lookup_lt_Some).
    match goal with |- context [setState closed ?x] => destruct (setState_spec closed x) as [o' ->] end.
    eexists o', _. split; [done|].
    destruct HI as [[? ?] Hsk ? ? ? Ho ? ? ?].
    assert (forall k v l, <[i := {| readyState := l; handlers := false |}]> (sockets s) !! k = Some v ->
      handlers v = true -> readyState v <> CLOSED -> False) as Hd.
    { intros k v l Hv H1 H2. destruct (decide (k = i)) as [->|Hne].
      - rewrite list_lookup_insert_eq in Hv by (by eapply lookup_lt_Some). by injection Hv as <-.
      - rewrite list_lookup_insert_ne in Hv by done.
        assert (socket s = Some k) by (apply Hsk; by exists v). congruence. }
    destruct w as [[] h]; simpl in *; try done;
      (split; [split; simpl; try done; intros k (v&Hv&H1&H2); simpl in Hv;
               rewrite ?list_insert_insert_eq in Hv; by eapply Hd|done]).
  - match goal with |- context [setState closed ?x] => destruct (setState_spec closed x) as [o' ->] end.
    eexists o', _. split; [done|]. split; [|done].
    destruct HI as [[? ?] Hsk ? ? ? Ho ? ? ?]. split; try done.
    intros k Hk. assert (socket s = Some k) by (by apply Hsk). congruence.
Qed.

Lemma close_inv s : Inv s -> Inv (close s).
Proof.
  intros (o&s'&->&[Ht Hs Ha Hn]&Htm&Hst&_)%close_Quiet.
  split; simpl; rewrite ?Hs, ?Htm; try done; auto.
  - by destruct Ht; split.
  - intros i. split; [|done]. intros H. by apply Ha in H.
  - unfold socketReady. simpl. by rewrite Hs.
Qed.

Lemma Inv_closed_Quiet s : Inv s -> state s = closed -> Quiet s /\ timer s = None.
Proof.
  intros HI Hc. pose proof (inv_closed _ HI Hc) as [Hs Ht]. split; [|done].
  split; [apply HI|done| |apply HI]. intros k Hk%(inv_socket _ HI). congruence.
Qed.

Lemma Inv_no_socket_Quiet s : Inv s -> socket s = None -> Quiet s.
Proof.
  intros HI Hs. split; [apply HI|done| |apply HI]. intros k Hk%(inv_socket _ HI). congruence.
Qed.

Lemma constructor_inv o : Inv (constructor o).
Proof.
  split; simpl; try done; auto.
  intros i. split; [|done]. by intros (w&Hw&_).
Qed.

Lemma onTimer_inv h ok j s :
  Inv s -> In h (timers s) ->
  Inv (onTimer ok j (browser s (sockets s) (List.filter (fun x => negb (Nat.eqb h x)) (timers s))
                       (next_handle s) [])).
Proof.
  intros HI Hin. pose proof (inv_timers _ HI) as [Htm Hh].
  rewrite Htm in Hin |- *. destruct (timer s) as [h'|] eqn:Et; [|done].
  destruct Hin as [->|[]]. simpl. rewrite Nat.eqb_refl. simpl.
  assert (socket s = None) as Hs by (destruct (inv_one _ HI); congruence).
  assert (state s <> closed) as Hc by (intros [? ?]%(inv_closed _ HI); congruence).
  apply open_inv; [|done|apply (inv_busy _ HI Hc)].
  split; try done; [|apply HI].
  intros k Hk%(inv_socket _ HI). congruence.
Qed.

Lemma resume_inv ok j s :
  Inv s -> socketReady s <> Some CLOSING -> Inv (resume ok j s).
Proof.
  intros HI Hd. unfold resume. destruct (stopped s) eqn:Hst; [done|].
  assert (socketReady s = Some CLOSED -> False) as Hcl.
  { unfold socketReady. destruct (socket s) as [i|] eqn:Es; [|done].
    apply (inv_socket _ HI) in Es as (w&->&_&Hw). simpl. congruence. }
  destruct (socketReady s) as [[]|] eqn:Er; try done.
  assert (socket s = None) as Hs.
  { destruct (socket s) as [i|] eqn:Es; [|done]. pose proof Es as (w&Hw&_)%(inv_socket _ HI).
    rewrite (ready_of _ _ _ Es Hw) in Er. done. }
  destruct (clearTimer_spec s (inv_timers _ HI)) as [o ->].
  apply open_inv; try done. apply Inv_no_socket_Quiet in HI as [? ? Ha ?]; [|done].
  split; try done.
Qed.

Lemma step_inv e s s' : Inv s -> disciplined s e -> step e s = Some s' -> Inv s'.
Proof.
  intros HI [Hd Hm] Hstep. destruct e; simpl in Hstep, Hd, Hm.
  - injection Hstep as <-. destruct (Inv_closed_Quiet s HI Hd) as [[Ht ? ? ?] ?].
    apply open_inv; try done. split; try done. by destruct Ht; split.
  - injection Hstep as <-. by apply close_inv.
  - injection Hstep as <-. apply resume_inv; [done|]. by apply bool_decide_eq_false in Hm.
  - injection Hstep as <-. by eapply same_core_inv; [apply same_core_send|].
  - injection Hstep as <-. by eapply same_core_inv; [apply same_core_listen|].
  - destruct (sockets s !! i) as [[[] h]|] eqn:E; try discriminate. injection Hstep as <-.
    simpl. destruct h; [by apply socket_open_inv | by apply detached_put_inv].
  - destruct (sockets s !! i) as [[[] h]|] eqn:E; try discriminate. injection Hstep as <-.
    simpl. destruct h; [|done]. by eapply same_core_inv; [apply same_core_message|].
  - destruct (sockets s !! i) as [[[] h]|] eqn:E; try discriminate; injection Hstep as <-; done.
  - destruct (sockets s !! i) as [[[] h]|] eqn:E; try discriminate; injection Hstep as <-;
      (destruct h; [apply socket_closing_inv; auto | by apply detached_put_inv]).
  - assert (exists w, sockets s !! i = Some w /\ readyState w <> CLOSED /\
      s' = if handlers w then onclose jitter (put_ready i w CLOSED s) else put_ready i w CLOSED s)
      as (w&Hw&Hr&->).
    { destruct (sockets s !! i) as [[[] h]|] eqn:E; try discriminate; injection Hstep as <-; eauto. }
    destruct (handlers w) eqn:Hh; [|by apply detached_put_inv].
    destruct (Quiet_no_socket s i w HI Hw Hh Hr) as [? ?]. by apply scheduleReconnect_inv.
  - destruct (existsb (Nat.eqb h) (timers s)) eqn:E; [|done]. injection Hstep as <-.
    apply onTimer_inv; [done|]. apply existsb_exists in E as (x&?&->%Nat.eqb_eq). done.
Qed.

Lemma reachable_inv o s : reachable o disciplined s -> Inv s.
Proof. induction 1; [apply constructor_inv | by eapply step_inv]. Qed.

Lemma drives_disciplined o n s : drives o n s -> n = 0%nat -> reachable o disciplined s.
Proof.
  induction 1 as [|n s e s' _ IH Hd Hs]; [constructor|]. intros Hn.
  destruct (meets_closing s e) eqn:E; [lia|]. eapply reach_step; [apply IH; lia|by split|done].
Qed.

(** ** Every run

    A resume that meets a closing socket leaves that socket attached beside the
    one it opens.  What then still holds, with [n] such resumes behind. *)
Definition at_work (s : LiveStream) : bool :=
  match socket s, timer s with None, None => false | _, _ => true end.

Record Runs (n : nat) (s : LiveStream) : Prop := {
  run_timers : timers_ok s;
  run_socket : forall i, socket s = Some i -> attached s i;
  run_timer : timer s <> None -> socketReady s = None \/ socketReady s = Some CLOSING;
  run_stop : stopped s = true -> socket s = None /\ timer s = None;
  run_closed : state s = closed -> socket s = None /\ timer s = None;
  run_busy : stopped s = false -> state s <> closed -> socket s <> None \/ timer s <> None;
  run_new : stopped s = false -> state s = closed -> sockets s = [];
  run_ready : socketReady s = Some OPEN -> state s = opened;
  run_attempt : 0 <= attempt s;
  run_count : (attached_count s + List.length (timers s) <= n + if at_work s then 1 else 0)%nat
}.

(** What a stream is when it is about to open a socket or to wait for one. *)
Record Idle (n : nat) (s : LiveStream) : Prop := {
  idle_timers : timers_ok s;
  idle_on : stopped s = false;
  idle_socket : socket s = None \/
    exists i, socket s = Some i /\ attached s i /\ socketReady s = Some CLOSING;
  idle_attempt : 0 <= attempt s;
  idle_count : (attached_count s <= n)%nat
}.

Lemma schedule_runs n j s : Idle n s -> Runs n (scheduleReconnect j s).
Proof.
  intros [Ht Hon Hs Ha Hn]. unfold scheduleReconnect. rewrite Hon.
  destruct (setState_spec reconnecting (set_attempt s (attempt s + 1))) as [o ->].
  edestruct (clearTimer_spec (emit (set_state (set_attempt s (attempt s + 1)) reconnecting) o))
    as [o' ->]; [by destruct Ht; split|].
  split; simpl; try done; try lia.
  - split; simpl; [done|]. intros h [= <-]. lia.
  - intros i Hi. destruct Hs as [?|(k&Hk&Hat&_)]; [congruence|]. assert (k = i) as -> by congruence. exact Hat.
  - intros _. destruct Hs as [Hs|(k&_&_&Hr)]; [left; unfold socketReady; simpl; by rewrite Hs|right; exact Hr].
  - congruence.
  - by right.
  - destruct Hs as [Hs|(k&Hk&_&Hr)]; [unfold socketReady; simpl; by rewrite Hs|].
    change (socketReady s = Some OPEN -> reconnecting = opened). congruence.
  - unfold at_work. simpl. unfold attached_count in *. simpl. destruct (socket s); lia.
Qed.

Lemma open_runs n ok j s : Idle n s -> timer s = None -> Runs n (open ok j s).
Proof.
  intros HI Ht. pose proof HI as [Htm Hon Hs Ha Hn]. unfold open. rewrite Hon.
  destruct (setState_spec (if everConnected s then reconnecting else connecting) s) as [o ->].
  destruct ok.
  - assert (timers s = []) as Htms by (destruct Htm as [-> _]; by rewrite Ht).
    split; simpl; rewrite ?Ht; try done; auto.
    + destruct Htm. split; simpl; by rewrite Ht in *.
    + intros i [= <-]. eexists. split; [apply lookup_snoc; by right|done].
    + congruence.
    + by destruct (everConnected s).
    + by destruct (everConnected s).
    + unfold socketReady. simpl. by rewrite list_lookup_middle.
    + unfold attached_count, at_work in *. simpl. rewrite Htms, List.filter_app, length_app. simpl. lia.
  - apply schedule_runs. split; try done; by destruct Htm.
Qed.

Lemma filter_insert_length {A} (p : A -> bool) (l : list A) i x y :
  l !! i = Some x ->
  (List.length (List.filter p (<[i := y]> l)) + (if p x then 1 else 0) =
   List.length (List.filter p l) + (if p y then 1 else 0))%nat.
Proof.
  revert i. induction l as [|z l IH]; intros [|i] Hi; try done; simpl in Hi |- *.
  - injection Hi as ->. destruct (p x), (p y); simpl; lia.
  - specialize (IH i Hi). destruct (p z); simpl; lia.
Qed.

Lemma attached_put_count s i w r :
  sockets s !! i = Some w ->
  (attached_count (put_ready i w r s) + (if live_socket w then 1 else 0) =
   attached_count s + (if handlers w && negb (bool_decide (r = CLOSED)) then 1 else 0))%nat.
Proof. intros Hi. unfold attached_count. simpl. by rewrite (filter_insert_length live_socket _ _ _ _ Hi). Qed.

Lemma same_core_runs n s s' : same_core s s' -> Runs n s -> Runs n s'.
Proof.
  intros Hc [[? ?] ? ? ? ? ? ? ? ? Hn]. pose proof (same_core_ready _ _ Hc) as Hr.
  unfold attached_count, at_work in Hn. destruct Hc as [E1 E2 E3 E4 E5 E6 E7 E8].
  split; [split|..]; unfold attached_count, at_work; rewrite ?Hr, ?E1, ?E2, ?E3, ?E4, ?E5, ?E6, ?E7, ?E8; try done.
  intros i Hi. rewrite (attached_sockets s) by done. auto.
Qed.

Lemma ready_current n s i w :
  Runs n s -> sockets s !! i = Some w -> handlers w = true -> socket s = Some i ->
  readyState w <> CLOSING -> timer s = None.
Proof.
  intros HR Hi Hh Hs Hc. destruct (timer s) eqn:Et; [|done]. exfalso.
  destruct (run_timer _ _ HR) as [E|E]; [congruence|..]; unfold socketReady in E; rewrite Hs, Hi in E; simpl in E; congruence.
Qed.

(** A socket that moves on without closing, by itself or with the state told. *)
Lemma runs_put n i w r s s' :
  Runs n s -> sockets s !! i = Some w -> handlers w = true ->
  readyState w = CONNECTING \/ readyState w = OPEN -> r = OPEN \/ r = CLOSING ->
  same_core (set_attempt (set_state (put_ready i w r s) (state s')) (attempt s')) s' ->
  0 <= attempt s' ->
  (state s' = opened \/ (state s' = state s /\ r = CLOSING)) -> Runs n s'.
Proof.
  intros HR Hi Hh Hw Hrv [E1 E2 _ E4 _ E6 E7 E8] Ha' Ho.
  simpl in E1, E2, E4, E6, E7, E8.
  assert (forall k, attached s' k <-> attached s k) as Hat.
  { intros k. rewrite (attached_sockets (put_ready i w r s)) by (by rewrite E6).
    apply attached_put; [done|done|by destruct Hw as [-> | ->]|by destruct Hrv as [-> | ->]]. }
  assert (socketReady s' = if decide (socket s = Some i) then Some r else socketReady s) as Hrd.
  { unfold socketReady. rewrite E1, E6. case_decide as Hd.
    - rewrite Hd, list_lookup_insert_eq; [done|]. by eapply lookup_lt_Some.
    - destruct (socket s) as [k|]; [|done]. rewrite list_lookup_insert_ne; [done|]. congruence. }
  assert (stopped s = false -> state s <> closed) as Hnc.
  { intros Hst Hc. rewrite (run_new _ _ HR Hst Hc) in Hi. done. }
  assert (attached_count s' = attached_count s) as Hcn.
  { pose proof (attached_put_count s i w r Hi) as H. unfold attached_count in *. rewrite E6.
    unfold live_socket in H at 2. rewrite Hh in H. simpl in H.
    destruct Hw as [Hw|Hw], Hrv as [Hr|Hr]; rewrite Hw, Hr in *; simpl in H; lia. }
  pose proof (ready_current n s i w HR Hi Hh) as Htm.
  destruct HR as [[? ?] Hsk Ht Hst Hcl Hb Hnew Hr Ha Hn].
  split; [split|..]; unfold at_work in *; rewrite ?E1, ?E2, ?E4, ?E7, ?E8, ?Hcn; try done.
  - intros k Hk. apply Hat. auto.
  - intros Hte. rewrite Hrd. case_decide as Hd; [|auto]. exfalso. apply Hte, Htm; [done|].
    by destruct Hw as [-> | ->].
  - intros Hc. apply Hcl. destruct Ho as [?|[? _]]; congruence.
  - intros Hon _. apply Hb; [done|]. by apply Hnc.
  - intros Hon Hc. exfalso. apply (Hnc Hon). destruct Ho as [?|[? _]]; congruence.
  - rewrite Hrd. case_decide as Hd; intros Hop.
    + destruct Ho as [?|[_ ->]]; [done|discriminate Hop].
    + destruct Ho as [?|[-> _]]; [done|auto].
Qed.

(** A socket whose handlers are gone changes nothing that matters. *)
Lemma runs_put_detached n i w r s :
  Runs n s -> sockets s !! i = Some w -> handlers w = false -> Runs n (put_ready i w r s).
Proof.
  intros HR Hi Hh.
  assert (forall k, attached (put_ready i w r s) k <-> attached s k) as Hat.
  { intros k. unfold attached, put_ready. setoid_rewrite (lookup_put s i w); [|done]. split.
    - intros (v&[[-> ->]|[Hne Hv]]&Hv'&?); [simpl in Hv'; congruence|exists v; auto].
    - intros (v&Hv&?&?). destruct (decide (k = i)) as [->|]; [congruence|exists v; auto]. }
  assert (socketReady (put_ready i w r s) = socketReady s) as Hrd.
  { unfold socketReady. simpl. destruct (socket s) as [k|] eqn:E; [|done].
    destruct (decide (k = i)) as [->|]; [|by rewrite list_lookup_insert_ne].
    exfalso. apply (run_socket _ _ HR) in E as (v&Hv&?&?). congruence. }
  assert (attached_count (put_ready i w r s) = attached_count s) as Hcn.
  { pose proof (attached_put_count s i w r Hi) as H. unfold live_socket in H. rewrite Hh in H. simpl in H.
    unfold attached_count in *. simpl in *. lia. }
  destruct HR as [[? ?] Hsk Ht Hst Hcl Hb Hnew Hr Ha Hn].
  split; [by split|..]; unfold at_work in *; rewrite ?Hrd, ?Hcn; try done.
  - intros k Hk. apply Hat. auto.
  - intros Hon Hc. simpl in Hon, Hc |- *. by rewrite (Hnew Hon Hc) in *.
Qed.

(** An attached socket closes: the stream forgets whichever it held, and retries. *)
Lemma runs_closed n i w j s :
  Runs n s -> sockets s !! i = Some w -> handlers w = true -> readyState w <> CLOSED ->
  Runs n (onclose j (put_ready i w CLOSED s)).
Proof.
  intros HR Hi Hh Hw. unfold onclose. set (x := set_socket (put_ready i w CLOSED s) None).
  pose proof (attached_put_count s i w CLOSED Hi) as Hcn. unfold live_socket in Hcn.
  rewrite Hh, (bool_decide_false _ Hw) in Hcn. simpl in Hcn.
  destruct HR as [[Htm ?] Hsk Ht Hst Hcl Hb Hnew Hr Ha Hn].
  destruct (stopped s) eqn:Hon.
  - unfold scheduleReconnect. change (stopped x) with (stopped s). rewrite Hon.
    destruct (Hst eq_refl) as [Hs Hti]. unfold at_work in Hn. rewrite Hs, Hti in Hn.
    split; try done; unfold at_work; simpl; rewrite ?Hti; try done; auto; try congruence.
    unfold attached_count in *. simpl in *. rewrite Htm, Hti in *. simpl in *. lia.
  - apply schedule_runs. split; try done; [by left|].
    unfold attached_count in *. simpl in *. destruct (at_work s); lia.
Qed.

Lemma runs_close n s : Runs n s -> Runs n (close s).
Proof.
  intros HR. unfold close.
  destruct (clearTimer_spec (set_stopped s true)) as [o ->]; [by destruct (run_timers _ _ HR)|].
  assert (forall x, timers_ok x -> socket x = None -> timer x = None -> stopped x = true -> 0 <= attempt x ->
    (attached_count x <= n)%nat -> Runs n (setState closed x)) as Hend.
  { intros x [Htm Hh] Hs Ht Hst Ha Hn. destruct (setState_spec closed x) as [o' ->].
    split; simpl; unfold at_work; simpl; rewrite ?Hs, ?Ht; try done; try congruence.
    - unfold socketReady. simpl. by rewrite Hs.
    - unfold attached_count in *. simpl. rewrite Htm, Ht. simpl. lia. }
  pose proof (run_socket _ _ HR) as Hsk. pose proof (run_count _ _ HR) as Hn. pose proof (run_attempt _ _ HR) as Ha.
  unfold at_work in Hn. simpl. destruct (socket s) as [i|] eqn:Es.
  - destruct (Hsk i eq_refl) as (w&Hi&Hh&Hw).
    unfold detach. simpl. rewrite Hi. unfold socket_close. simpl.
    rewrite list_lookup_insert_eq by (by eapply lookup_lt_Some).
    assert (forall l', List.length (List.filter live_socket (<[i := {| readyState := l'; handlers := false |}]> (sockets s))) <= n)%nat as Hc.
    { intros l'. pose proof (filter_insert_length live_socket (sockets s) i w {| readyState := l'; handlers := false |} Hi) as H.
      unfold live_socket in H at 2 4. rewrite Hh, (bool_decide_false _ Hw) in H. simpl in H.
      unfold attached_count in Hn. lia. }
    destruct w as [[] h]; simpl in *; try done; apply Hend; try done; simpl; unfold attached_count; simpl;
      rewrite ?list_insert_insert_eq; try apply Hc; done.
  - apply Hend; try done. simpl. unfold attached_count in *. simpl.
    rewrite (tk_timers _ (run_timers _ _ HR)) in Hn. destruct (timer s); simpl in *; lia.
Qed.

Lemma runs_resume n ok j s :
  Runs n s -> Runs (n + if bool_decide (socketReady s = Some CLOSING) then 1 else 0) (resume ok j s).
Proof.
  intros HR. pose proof HR as [Htm Hsk Ht Hst Hcl Hb Hnew Hr Ha Hn].
  unfold resume. destruct (stopped s) eqn:Hon.
  { destruct (Hst eq_refl) as [Hs _]. unfold socketReady. rewrite Hs. simpl. by rewrite Nat.add_0_r. }
  destruct (clearTimer_spec s Htm) as [o Hct].
  assert (forall m, (attached_count s <= m)%nat -> (socketReady s = None \/ socketReady s = Some CLOSING) ->
    Runs m (open ok j (set_attempt (clearTimer s) 0))) as Hopen.
  { intros m Hm Hrd. rewrite Hct. apply open_runs; [|done]. split; simpl; try done.
    destruct (socket s) as [i|] eqn:Es; [|by left]. right. exists i. split; [done|]. split; [by apply Hsk|].
    destruct (Hsk i eq_refl) as (w&Hi&_). destruct Hrd as [Hrd|Hrd]; unfold socketReady in *; simpl; rewrite Es, Hi in *; done. }
  unfold at_work in Hn. rewrite (tk_timers _ Htm) in Hn.
  destruct (socketReady s) as [[]|] eqn:Erd; simpl; rewrite ?Nat.add_0_r; try done.
  - apply Hopen; [destruct (socket s), (timer s); simpl in *; lia|auto].
  - exfalso. unfold socketReady in Erd. destruct (socket s) as [i|] eqn:Es; [|done].
    destruct (Hsk i eq_refl) as (w&Hi&_&Hw). rewrite Hi in Erd. simpl in Erd. congruence.
  - apply Hopen; [|auto]. assert (socket s = None) as Es.
    { destruct (socket s) as [i|] eqn:Es; [|done]. destruct (Hsk i eq_refl) as (w&Hi&_).
      unfold socketReady in Erd. rewrite Es, Hi in Erd. done. }
    rewrite Es in Hn. destruct (timer s); simpl in Hn; lia.
Qed.

Lemma runs_timer n h ok j s :
  Runs n s -> existsb (Nat.eqb h) (timers s) = true ->
  Runs n (onTimer ok j (browser s (sockets s) (List.filter (fun x => negb (Nat.eqb h x)) (timers s))
                          (next_handle s) [])).
Proof.
  intros HR Hin. pose proof HR as [[Htm Hh] Hsk Ht Hst Hcl Hb Hnew Hr Ha Hn].
  rewrite Htm in Hin, Hn |- *. destruct (timer s) as [h'|] eqn:Et; [|done].
  apply existsb_exists in Hin as (k&[->|[]]&->%Nat.eqb_eq). simpl. rewrite Nat.eqb_refl. simpl.
  assert (stopped s = false) as Hon by (destruct (stopped s); [by destruct Hst|done]).
  unfold onTimer. apply open_runs; [|done]. split; simpl; try done.
  - destruct (socket s) as [i|] eqn:Es; [|by left]. right. exists i. split; [done|]. split; [by apply Hsk|].
    destruct (Hsk i eq_refl) as (w&Hi&_). destruct Ht as [E|E]; [done|..]; unfold socketReady in *; simpl; rewrite Es, Hi in *; done.
  - unfold attached_count, at_work in *. simpl in *. destruct (socket s); rewrite ?Et in Hn; simpl in Hn; lia.
Qed.

Lemma runs_step n e s s' :
  Runs n s -> driven s e -> step e s = Some s' -> Runs (n + if meets_closing s e then 1 else 0) s'.
Proof.
  intros HR Hd Hstep.
  destruct e as [ok j| |ok j|f|op l|i|i d|i|i|i j|h ok j]; simpl in Hstep, Hd; cbn [meets_closing];
    try (injection Hstep as <-; by apply runs_resume); rewrite ?Nat.add_0_r.
  - injection Hstep as <-. destruct (run_closed _ _ HR Hd) as [Hs Ht]. pose proof (run_count _ _ HR) as Hn.
    unfold at_work in Hn. rewrite Hs, Ht in Hn.
    apply open_runs; [|done]. split; simpl; try done; [by destruct (run_timers _ _ HR)|by left|apply HR|].
    unfold attached_count in *. simpl. lia.
  - injection Hstep as <-. by apply runs_close.
  - injection Hstep as <-. eapply same_core_runs; [apply same_core_send|done].
  - injection Hstep as <-. eapply same_core_runs; [apply same_core_listen|done].
  - destruct (sockets s !! i) as [[[] h]|] eqn:E; try discriminate. injection Hstep as <-.
    simpl. destruct h; [|by apply runs_put_detached].
    unfold onopen. set (x := put_ready i _ OPEN s).
    destruct (setState_spec opened (set_attempt (set_ever x true) 0)) as [o ->].
    eapply same_core_runs; [apply same_core_emit|]. eapply same_core_runs; [apply same_core_send|].
    by eapply (runs_put n i _ OPEN s); eauto.
  - destruct (sockets s !! i) as [[[] h]|] eqn:E; try discriminate. injection Hstep as <-.
    simpl. destruct h; [|done]. eapply same_core_runs; [apply same_core_message|done].
  - destruct (sockets s !! i) as [[[] h]|] eqn:E; try discriminate; injection Hstep as <-; done.
  - destruct (sockets s !! i) as [[[] h]|] eqn:E; try discriminate; injection Hstep as <-;
      (destruct h; [|by apply runs_put_detached]);
      (eapply (runs_put n i _ CLOSING s); [exact HR|exact E|done|auto|auto|by split|by apply (run_attempt _ _ HR)|by right]).
  - destruct (sockets s !! i) as [w|] eqn:E; [|discriminate].
    destruct (decide (readyState w = CLOSED)) as [Hc|Hc]; [destruct w as [[] ?]; simpl in Hc; discriminate|].
    assert (s' = if handlers w then onclose j (put_ready i w CLOSED s) else put_ready i w CLOSED s) as ->
      by (by destruct w as [[] ?]; simplify_eq).
    destruct (handlers w) eqn:Hh; [by apply runs_closed|by apply runs_put_detached].
  - destruct (existsb (Nat.eqb h) (timers s)) eqn:E; [|done]. injection Hstep as <-.
    by apply runs_timer.
Qed.

Lemma drives_runs o n s : drives o n s -> Runs n s.
Proof.
  induction 1; [|by eapply runs_step]. split; simpl; try done; try lia.
Qed.

(** ** The stream URL *)

(** [s.replace(/\/$/, '')]. *)
Fixpoint dropTrailingSlash (s : string) : string :=
  match s with
  | EmptyString => ""
  | String "/"%char EmptyString => ""
  | String c s' => String c (dropTrailingSlash s')
  end.

Definition matches_any (ps : list string) (s : string) : bool :=
  existsb (fun p => match startsWith p s with Some _ => true | None => false end) ps.

Definition streamUrl (apiBase origin : string) : string :=
  if matches_any ["ws://"; "wss://"] apiBase then dropTrailingSlash apiBase +:+ "/stream"
  else
    let absolute := if matches_any ["http://"; "https://"] apiBase then apiBase
                    else dropTrailingSlash origin +:+ apiBase in
    let ws := match startsWith "http" absolute with
              | Some rest => "ws" +:+ rest
              | None => absolute
              end in
    dropTrailingSlash ws +:+ "/stream".

Lemma dropTrailingSlash_app a c b :
  dropTrailingSlash (a +:+ String c b) = a +:+ dropTrailingSlash (String c b).
Proof.
  induction a as [|x a IH]; [done|]. rewrite !sapp_cons, <- IH.
  destruct (a +:+ String c b) eqn:E; [by destruct a|].
  simpl. destruct x as [[][][][][][][][]]; reflexivity.
Qed.

(** ** Runs *)

Fixpoint run (es : list Event) (s : LiveStream) : option LiveStream :=
  match es with
  | [] => Some s
  | e :: es' => match step e s with Some s' => run es' s' | None => None end
  end.

Fixpoint run_ok (allowed : LiveStream -> Event -> Prop) (es : list Event) (s : LiveStream) : Prop :=
  match es with
  | [] => True
  | e :: es' => allowed s e /\ match step e s with Some s' => run_ok allowed es' s' | None => True end
  end.

Lemma run_reachable o allowed es s s' :
  reachable o allowed s -> run_ok allowed es s -> run es s = Some s' -> reachable o allowed s'.
Proof.
  revert s. induction es as [|e es IH]; simpl; intros s Hr Hok Hrun; [congruence|].
  destruct Hok as [Ha Hok]. destruct (step e s) as [s1|] eqn:E; [|done].
  eapply IH; [|done..]. by eapply reach_step.
Qed.

(** How often a resume meets a closing socket along a run. *)
Fixpoint meetings (es : list Event) (s : LiveStream) : nat :=
  match es with
  | [] => 0
  | e :: es' =>
      (if meets_closing s e then 1 else 0) + match step e s with Some s' => meetings es' s' | None => 0 end
  end%nat.

Lemma run_drives o n es s s' :
  drives o n s -> run_ok driven es s -> run es s = Some s' -> drives o (n + meetings es s) s'.
Proof.
  revert n s. induction es as [|e es IH]; simpl; intros n s Hr Hok Hrun.
  { injection Hrun as <-. by rewrite Nat.add_0_r. }
  destruct Hok as [Ha Hok]. destruct (step e s) as [s1|] eqn:E; [|done].
  rewrite Nat.add_assoc. eapply IH; [|done..]. by eapply drives_step.
Qed.

Definition is_connect (e : Event) : bool := match e with e_connect _ _ => true | _ => false end.

Lemma closed_step e s s' :
  Quiet s -> timer s = None -> stopped s = true -> state s = closed -> is_connect e = false ->
  step e s = Some s' ->
  Quiet s' /\ timer s' = None /\ stopped s' = true /\ state s' = closed /\ out s' = out s.
Proof.
  intros HQ Ht Hst Hc He Hstep. pose proof HQ as [Htm Hs Ha Hn].
  assert (forall i w r, sockets s !! i = Some w -> readyState w <> CLOSED ->
    handlers w = false /\ Quiet (put_ready i w r s) /\ out (put_ready i w r s) = out s) as Hput.
  { intros i w r Hi Hw. assert (handlers w = false) as Hh.
    { destruct (handlers w) eqn:E; [|done]. exfalso. apply (Ha i). by exists w. }
    split; [done|]. split; [|by simpl; rewrite app_nil_r]. destruct Htm as [? ?].
    split; [by split|done| |done].
    intros k (v&Hv&H1&H2). apply (lookup_put s i w) in Hv as [[-> ->]|[Hne Hv]]; try done.
    - simpl in H1. congruence.
    - apply (Ha k). by exists v. }
  destruct e; simpl in Hstep; try discriminate He.
  - injection Hstep as <-. unfold close, clearTimer. simpl. rewrite Ht. simpl. rewrite Hs.
    unfold setState. simpl. rewrite Hc. simpl. split; [|done].
    split; simpl; try done. by destruct Htm; split.
  - injection Hstep as <-. unfold resume. by rewrite Hst.
  - injection Hstep as <-. unfold send. by rewrite Hs.
  - injection Hstep as <-. split; [|by destruct op]. destruct Htm.
    split; [split|..]; destruct op; done.
  - destruct (sockets s !! i) as [[[] h]|] eqn:E; try discriminate. injection Hstep as <-.
    destruct (Hput i _ OPEN E) as (Hh&?&?); [done|]. simpl in Hh. subst h. done.
  - destruct (sockets s !! i) as [[[] h]|] eqn:E; try discriminate. injection Hstep as <-.
    destruct (Hput i _ OPEN E) as (Hh&?&?); [done|]. simpl in Hh. subst h. done.
  - destruct (sockets s !! i) as [[[] h]|] eqn:E; try discriminate; by injection Hstep as <-.
  - destruct (sockets s !! i) as [[[] h]|] eqn:E; try discriminate; injection Hstep as <-;
      (destruct (Hput i _ CLOSING E) as (Hh&?&?); [done|]; done).
  - destruct (sockets s !! i) as [[[] h]|] eqn:E; try discriminate; injection Hstep as <-;
      (destruct (Hput i _ CLOSED E) as (Hh&?&?); [done|]; simpl in Hh; subst h; done).
  - destruct Htm as [Htm _]. rewrite Htm, Ht in Hstep. done.
Qed.

Lemma closed_run es s s' :
  Quiet s -> timer s = None -> stopped s = true -> state s = closed ->
  forallb (fun e => negb (is_connect e)) es = true -> run es s = Some s' ->
  state s' = closed /\ out s' = out s.
Proof.
  revert s. induction es as [|e es IH]; simpl; intros s HQ Ht Hst Hc Hes Hrun.
  { by injection Hrun as <-. }
  apply andb_prop in Hes as [He%negb_true_iff Hes]. destruct (step e s) as [s1|] eqn:E; [|done].
  destruct (closed_step e s s1 HQ Ht Hst Hc He E) as (HQ1&Ht1&Hst1&Hc1&Ho1).
  destruct (IH s1 HQ1 Ht1 Hst1 Hc1 Hes Hrun) as [? ?]. split; [done|congruence].
Qed.

(** The default ceiling is a representable integer for every attempt. *)
Definition ceiling_is (c : num) (z : Z) : bool :=
  match c with
  | S754_finite false K e => bounded 53 1024 K e && (floor_scaled (Z.pos K) e =? z)
  | _ => false
  end.

Lemma default_ceiling k :
  0 <= k -> ceiling_is (nmin (nmul default_base (pow2 k)) default_max) (Z.min (500 * 2 ^ k) 30000) = true.
Proof.
  intros Hk. destruct (Z.ltb_spec k 1024) as [Hlt|Hge].
  - assert (forallb (fun i => let k := Z.of_nat i in
      ceiling_is (nmin (nmul default_base (pow2 k)) default_max) (Z.min (500 * 2 ^ k) 30000))
      (List.seq 0 1024) = true) as H by (vm_compute; reflexivity).
    rewrite forallb_forall in H. specialize (H (Z.to_nat k)). cbv beta zeta in H.
    rewrite Z2Nat.id in H by done. apply H, in_seq. lia.
  - unfold pow2. destruct (Z.ltb_spec k 1024) as [|_]; [lia|].
    assert (2 ^ 6 <= 2 ^ k) by (apply Z.pow_le_mono_r; lia).
    replace (Z.min _ _) with 30000 by lia. vm_compute. reflexivity.
Qed.

(** ** Properties *)

(** C3. However the provider drives the stream and whatever the network does, the
    stream's own socket can call back into it and at most one retry is pending;
    and the sockets that can call back and the pending retry together number at
    most one, plus one for each [resume()] that met the socket in its closing
    handshake, and one less when the stream is idle.  So while no resume has,
    the only such socket is the one in [this.socket] and there is a socket or a
    retry but never both: no frame is delivered twice and no retry is scheduled
    over a live socket.  ([resume_while_closing_leaks] is a run that reaches
    the bound.) *)
Theorem one_live_socket (o : LiveStreamOptions) (n : nat) (s : LiveStream)
  (Hr : drives o n s) :
  (forall i, socket s = Some i -> attached s i) /\
  timers s = option_list (timer s) /\
  (attached_count s + List.length (timers s) <= n + if at_work s then 1 else 0)%nat /\
  (n = 0%nat -> (forall i, attached s i <-> socket s = Some i) /\ (socket s = None \/ timer s = None)).
Proof.
  pose proof (drives_runs o n s Hr) as HR.
  split; [apply (run_socket _ _ HR)|]. split; [apply (run_timers _ _ HR)|]. split; [apply (run_count _ _ HR)|].
  intros Hn. pose proof (reachable_inv o s (drives_disciplined o n s Hr Hn)) as HI.
  split; [apply (inv_socket s HI)|apply (inv_one s HI)].
Qed.


(** After [close()] the stream does nothing, if no resume has met a closing
    socket before: whatever calls and browser events
    follow, up to the next [connect()], it stays closed, constructs no socket,
    schedules no retry and tells its listeners nothing. *)
Lemma close_is_final (o : LiveStreamOptions) (s s' : LiveStream) (es : list Event)
  (Hr : reachable o disciplined s)
  (Hes : forallb (fun e => negb (is_connect e)) es = true)
  (Hrun : run es (close s) = Some s') :
  state s' = closed /\ out s' = out (close s).
Proof.
  destruct (close_Quiet s (reachable_inv o s Hr)) as (ou&s1&Hc&[[? ?] ? ? ?]&Ht&Hst&_).
  eapply closed_run; [| | | |done|done]; rewrite Hc; try done.
Qed.

(** C40. With the default options, retry [n] waits from 0 to
    [min(500 * 2^(n-1), 30000)] milliseconds, for every draw of the jitter: the
    ceiling doubles from half a second and stops at thirty. *)
Theorem delay_bounds (o : LiveStreamOptions) (jitter : num) (n : Z)
  (Hb : op_baseDelayMs o = None) (Hm : op_maxDelayMs o = None)
  (Hj : unit_interval jitter = true) :
  exists d, delayFor (constructor o) jitter n = Some d /\
    0 <= d <= Z.min (500 * 2 ^ Z.max 0 (n - 1)) 30000.
Proof.
  unfold delayFor, ceiling. simpl. rewrite Hb, Hm.
  pose proof (default_ceiling (Z.max 0 (n - 1)) ltac:(lia)) as H.
  destruct (nmin _ _) as [| | |[] K e]; try discriminate H.
  apply andb_prop in H as [Hbd <-%Z.eqb_eq]. by apply floor_jitter_bounds.
Qed.

(** The contract's reconnect rule: when a socket opens, the stream
    subscribes on that very socket first and only then tells its connect
    listeners, who refetch what the gap missed; they are told [isReconnect]
    exactly when a socket had opened before, and the backoff is reset. *)
Lemma open_subscribes_then_refetches (o : LiveStreamOptions) (s s' : LiveStream) (i : nat)
  (Hr : reachable o disciplined s) (Ha : attached s i)
  (Hstep : step (e_socket_open i) s = Some s') :
  exists told, out s' = out s ++ map (fun l => o_state l opened 0) told ++
    o_send i (SubscribeMessage (topics s)) ::
    map (fun l => o_connect l (everConnected s)) (connectListeners s) /\
  everConnected s' = true /\ state s' = opened /\ attempt s' = 0 /\ timer s' = None.
Proof.
  pose proof (reachable_inv o s Hr) as HI. destruct Ha as (w&Hw&Hh&Hc).
  simpl in Hstep. rewrite Hw in Hstep. destruct w as [[] h]; try discriminate Hstep.
  simpl in Hh. subst h. injection Hstep as <-.
  destruct (Inv_attached s i _ HI Hw) as (Hs&Ht&_&_&_); [done..|].
  unfold onopen, setState. simpl. exists (if bool_decide (state s = opened) then [] else stateListeners s).
  case_bool_decide as E.
  - simpl. unfold send, socketReady. simpl. rewrite Hs, list_lookup_insert_eq by (by eapply lookup_lt_Some).
    simpl. rewrite !app_nil_r, <- app_assoc. done.
  - simpl. unfold send, socketReady. simpl. rewrite Hs, list_lookup_insert_eq by (by eapply lookup_lt_Some).
    simpl. rewrite !app_nil_r, <- !app_assoc. done.
Qed.

(** [streamUrl] honours http/ws and https/wss: an absolute API base keeps its
    host and path, a relative one is resolved against the page's origin, and one
    trailing slash is dropped before [/stream]. *)
Lemma streamUrl_spec (rest origin path : string) :
  streamUrl ("http://" +:+ rest) origin = dropTrailingSlash ("ws://" +:+ rest) +:+ "/stream" /\
  streamUrl ("https://" +:+ rest) origin = dropTrailingSlash ("wss://" +:+ rest) +:+ "/stream" /\
  streamUrl ("ws://" +:+ rest) origin = dropTrailingSlash ("ws://" +:+ rest) +:+ "/stream" /\
  streamUrl ("/" +:+ path) ("https://" +:+ rest +:+ "/") =
    dropTrailingSlash ("wss://" +:+ rest +:+ "/" +:+ path) +:+ "/stream" /\
  dropTrailingSlash ("/" +:+ path +:+ "/") = "/" +:+ path.
Proof.
  assert (forall a, dropTrailingSlash (a +:+ "/") = a) as Hd.
  { intros a. rewrite dropTrailingSlash_app. simpl. apply sapp_nil_r. }
  repeat split; try done.
  - unfold streamUrl. rewrite <- (sapp_assoc "https://" rest "/"), Hd, sapp_assoc. done.
  - apply (Hd ("/" +:+ path)).
Qed.

(** ** Examples *)
Section Examples.

Definition default_options : LiveStreamOptions :=
  {| op_url := "ws://test/stream"; op_topics := None; op_baseDelayMs := None; op_maxDelayMs := None |}.
Definition half : num := of_ratio 1 2.

(** Connect, open, lose the socket, retry, open again. *)
Definition reconnect_run : list Event :=
  [e_listen l_onConnect 1; e_listen l_onState 2; e_connect true half; e_socket_open 0;
   e_socket_close 0 half; e_timer 0 true half].

Definition after (es : list Event) : LiveStream :=
  match run es (constructor default_options) with Some s => s | None => constructor default_options end.

Lemma after_reachable es :
  run_ok disciplined es (constructor default_options) ->
  run es (constructor default_options) <> None ->
  reachable default_options disciplined (after es).
Proof.
  intros Hok Hrun. unfold after. destruct (run es _) eqn:E; [|done].
  eapply run_reachable; [apply reach_new|done..].
Defined.

Lemma after_drives es :
  run_ok driven es (constructor default_options) ->
  run es (constructor default_options) <> None ->
  drives default_options (meetings es (constructor default_options)) (after es).
Proof.
  intros Hok Hrun. unfold after. destruct (run es _) eqn:E; [|done].
  apply (run_drives _ 0 _ _ _ (drives_new _) Hok E).
Defined.

(** [resume()] while the current socket is in its closing handshake constructs a
    second socket and leaves the first one's [onclose] set, which then drops the
    second from [this.socket] and schedules a third. *)
Definition resume_while_closing : list Event :=
  [e_connect true half; e_socket_open 0; e_socket_closing 0; e_resume true half;
   e_socket_close 0 half; e_timer 0 true half].

Lemma resume_while_closing_leaks :
  let s := after resume_while_closing in
  meetings resume_while_closing (constructor default_options) = 1%nat /\
  attached s 1 /\ attached s 2 /\ socket s = Some 2%nat /\ attached_count s = 2%nat.
Proof.
  split; [reflexivity|]. split; [|split]; [..|split; reflexivity];
    exists {| readyState := CONNECTING; handlers := true |}; vm_compute; intuition congruence.
Qed.

Lemma one_live_socket_witness :
  (drives default_options 0 (after reconnect_run) /\
   (attached (after reconnect_run) 1 <-> socket (after reconnect_run) = Some 1%nat)) /\
  drives default_options 1 (after resume_while_closing) /\
  (attached_count (after resume_while_closing) + List.length (timers (after resume_while_closing)) <= 2)%nat.
Proof.
  assert (drives default_options 0 (after reconnect_run)) as H.
  { apply (after_drives reconnect_run); [vm_compute; intuition congruence | vm_compute; congruence]. }
  assert (drives default_options 1 (after resume_while_closing)) as H1.
  { apply (after_drives resume_while_closing); [vm_compute; intuition congruence | vm_compute; congruence]. }
  split; [split; [exact H|]; apply (one_live_socket default_options 0 _ H); reflexivity|].
  split; [exact H1|]. apply (one_live_socket default_options 1 _ H1).
Defined.


Lemma close_is_final_witness :
  exists s', run [e_resume true half; e_socket_close 1 half] (close (after reconnect_run)) = Some s' /\
    state s' = closed /\ out s' = out (close (after reconnect_run)).
Proof.
  assert (reachable default_options disciplined (after reconnect_run)) as H.
  { apply after_reachable; [vm_compute; intuition congruence | vm_compute; congruence]. }
  destruct (run [e_resume true half; e_socket_close 1 half] (close (after reconnect_run)))
    as [s'|] eqn:E; [|vm_compute in E; discriminate E].
  exists s'. split; [reflexivity|].
  exact (close_is_final default_options _ s' [e_resume true half; e_socket_close 1 half] H eq_refl E).
Defined.

Lemma delay_bounds_witness :
  unit_interval half = true /\
  exists d, delayFor (constructor default_options) half 4 = Some d /\ 0 <= d <= 4000.
Proof. split; [reflexivity | exact (delay_bounds default_options half 4 eq_refl eq_refl eq_refl)]. Defined.

Example delay_four : delayFor (constructor default_options) half 4 = Some 2000.
Proof. vm_compute. reflexivity. Qed.

Lemma open_subscribes_then_refetches_witness :
  exists s' told, step (e_socket_open 1) (after reconnect_run) = Some s' /\
    out s' = out (after reconnect_run) ++ map (fun l => o_state l opened 0) told ++
      [o_send 1 (SubscribeMessage DEFAULT_TOPICS); o_connect 1 true].
Proof.
  assert (reachable default_options disciplined (after reconnect_run)) as H.
  { apply after_reachable; [vm_compute; intuition congruence | vm_compute; congruence]. }
  assert (attached (after reconnect_run) 1) as Ha.
  { exists {| readyState := CONNECTING; handlers := true |}. vm_compute. intuition congruence. }
  destruct (step (e_socket_open 1) (after reconnect_run)) as [s'|] eqn:E;
    [|vm_compute in E; discriminate E].
  destruct (open_subscribes_then_refetches default_options _ s' 1 H Ha E) as (told&Ho&_).
  exists s', told. split; [reflexivity|exact Ho].
Defined.

End Examples.
