(* ===== verification/LogStore.v ===== *)
(** * LogStore: the session event log

    [features/logs/log-store.ts].  The store is a record threaded through its
    methods; the clock ([Date.now()], [new Date()]) comes with the call, the
    flush timer is a flag and its callback an operation.  A second, smaller
    machine ([gate]) says which lines get past the debug rate limit, and the
    store is proved to be that machine in front of a bounded ring.  The CSV
    export is proved readable by the RFC 4180 reader [csv_read]. *)
From Stdlib Require Import ZArith Bool String Ascii List Lia.
From stdpp Require Import base option list strings pretty.
From S2P Require Import Prelude JsNumber JsDate JsString.

Inductive LogLevel := debug | info | warn | error.
#[export] Instance LogLevel_eq_dec : EqDecision LogLevel.
Proof. solve_decision. Defined.

Definition LOG_LEVELS : list LogLevel := [debug; info; warn; error].
Definition LEVEL_RANK (l : LogLevel) : Z :=
  match l with debug => 0 | info => 1 | warn => 2 | error => 3 end.
Definition LogLevel_string (l : LogLevel) : string :=
  match l with debug => "debug" | info => "info" | warn => "warn" | error => "error" end.

Inductive LogSource :=
  src_stream | src_track | src_detection | src_sensor | src_capture | src_spectrum
| src_deploy | src_api | src_ui.
#[export] Instance LogSource_eq_dec : EqDecision LogSource.
Proof. solve_decision. Defined.
Definition LOG_SOURCES : list LogSource :=
  [src_stream; src_track; src_detection; src_sensor; src_capture; src_spectrum;
   src_deploy; src_api; src_ui].
Definition LogSource_string (s : LogSource) : string :=
  match s with
  | src_stream => "stream" | src_track => "track" | src_detection => "detection"
  | src_sensor => "sensor" | src_capture => "capture" | src_spectrum => "spectrum"
  | src_deploy => "deploy" | src_api => "api" | src_ui => "ui"
  end.

(** A detail value: [string | number | boolean | null | undefined]. *)
Inductive DetailValue :=
| dv_string (s : string) | dv_num (n : num) | dv_int (z : Z) | dv_bool (b : bool)
| dv_null | dv_undefined.

Abbreviation LogDetail := (list (string * DetailValue)).

Record LogEntry := {
  le_id : Z;
  le_at : string;
  le_level : LogLevel;
  le_source : LogSource;
  le_message : string;
  le_detail : option LogDetail;
  le_trackId : option string
}.

Record LogInput := {
  li_at : option string;
  li_level : LogLevel;
  li_source : LogSource;
  li_message : string;
  li_detail : option LogDetail;
  li_trackId : option string
}.

Definition DEFAULT_LIMIT : Z := 1000.
Definition DEBUG_BURST_LIMIT : Z := 12.
Definition DEBUG_BURST_WINDOW_MS : Z := 1000.

Record LogStore := {
  entries : list LogEntry;
  pending : list LogEntry;
  listeners : list nat;
  timer : bool;
  nextId : Z;
  limit : Z;
  dropped : Z;
  debugWindowStart : Z;
  debugWindowCount : Z;
  suppressedDebug : Z;
  notified : list nat  (* the listener calls made so far *)
}.

Definition new_store : LogStore :=
  {| entries := []; pending := []; listeners := []; timer := false; nextId := 1;
     limit := DEFAULT_LIMIT; dropped := 0; debugWindowStart := 0; debugWindowCount := 0;
     suppressedDebug := 0; notified := [] |}.

(** Field updates. *)
Section Update.
Context (s : LogStore).
Definition set_buffers (es ps : list LogEntry) (tm : bool) (next lim drop : Z) (ntf : list nat) : LogStore :=
  {| entries := es; pending := ps; listeners := listeners s; timer := tm; nextId := next;
     limit := lim; dropped := drop; debugWindowStart := debugWindowStart s;
     debugWindowCount := debugWindowCount s; suppressedDebug := suppressedDebug s; notified := ntf |}.
Definition set_debug (start count suppressed : Z) : LogStore :=
  {| entries := entries s; pending := pending s; listeners := listeners s; timer := timer s;
     nextId := nextId s; limit := limit s; dropped := dropped s; debugWindowStart := start;
     debugWindowCount := count; suppressedDebug := suppressed; notified := notified s |}.
Definition set_listeners (l : list nat) : LogStore :=
  {| entries := entries s; pending := pending s; listeners := l; timer := timer s;
     nextId := nextId s; limit := limit s; dropped := dropped s;
     debugWindowStart := debugWindowStart s; debugWindowCount := debugWindowCount s;
     suppressedDebug := suppressedDebug s; notified := notified s |}.
End Update.

Definition emit (s : LogStore) : LogStore :=
  set_buffers s (entries s) (pending s) (timer s) (nextId s) (limit s) (dropped s)
    (notified s ++ listeners s).

Definition subscribe (l : nat) (s : LogStore) : LogStore :=
  set_listeners s (if existsb (Nat.eqb l) (listeners s) then listeners s else listeners s ++ [l]).
Definition unsubscribe (l : nat) (s : LogStore) : LogStore :=
  set_listeners s (List.filter (fun x => negb (Nat.eqb l x)) (listeners s)).

(** [slice(-n)] for [0 < n]. *)
Definition array_last {A} (n : Z) (l : list A) : list A :=
  drop (List.length l - Z.to_nat n) l.


Definition setLimit (n : Z) (s : LogStore) : LogStore :=
  let lim := Z.max 50 (Z.min 10000 n) in
  if lim <? zlen (entries s)
  then emit (set_buffers s (array_last lim (entries s)) (pending s) (timer s) (nextId s) lim
               (dropped s + (zlen (entries s) - lim)) (notified s))
  else set_buffers s (entries s) (pending s) (timer s) (nextId s) lim (dropped s) (notified s).

(** [push], with the clock's reading; [schedule] arms the flush timer. *)
Definition push (now : Z) (i : LogInput) (s : LogStore) : LogStore :=
  let e := {| le_id := nextId s; le_at := li_at i ?? toISOString now; le_level := li_level i;
              le_source := li_source i; le_message := li_message i; le_detail := li_detail i;
              le_trackId := li_trackId i |} in
  set_buffers s (entries s) (pending s ++ [e]) true (nextId s + 1) (limit s) (dropped s) (notified s).

Definition isDebugThrottled (now : Z) (s : LogStore) : LogStore * bool :=
  let s := if DEBUG_BURST_WINDOW_MS <? now - debugWindowStart s
           then set_debug s now 0 (suppressedDebug s) else s in
  let s := set_debug s (debugWindowStart s) (debugWindowCount s + 1) (suppressedDebug s) in
  (s, DEBUG_BURST_LIMIT <? debugWindowCount s).

(** The line that stands for the suppressed ones. *)
Definition gap_input (suppressed : Z) : LogInput :=
  {| li_at := None; li_level := debug; li_source := src_ui;
     li_message := pretty suppressed +:+ " further detection " +:+
       (if suppressed =? 1 then "entry" else "entries") +:+ " not logged (rate limit)";
     li_detail := None; li_trackId := None |}.

Definition is_debug (i : LogInput) : bool := bool_decide (li_level i = debug).

Definition append (now : Z) (i : LogInput) (s : LogStore) : LogStore :=
  let '(s, throttled) := if is_debug i then isDebugThrottled now s else (s, false) in
  if throttled then set_debug s (debugWindowStart s) (debugWindowCount s) (suppressedDebug s + 1)
  else
    let s :=
      if (0 <? suppressedDebug s) && negb (is_debug i)
      then push now (gap_input (suppressedDebug s))
             (set_debug s (debugWindowStart s) (debugWindowCount s) 0)
      else s in
    push now i s.

Definition clear (s : LogStore) : LogStore :=
  emit (set_buffers s [] [] (timer s) (nextId s) (limit s) 0 (notified s)).

Definition flush (s : LogStore) : LogStore :=
  match pending s with
  | [] => s
  | _ :: _ =>
      let merged := entries s ++ pending s in
      if limit s <? zlen merged
      then emit (set_buffers s (array_last (limit s) merged) [] (timer s) (nextId s) (limit s)
                   (dropped s + (zlen merged - limit s)) (notified s))
      else emit (set_buffers s merged [] (timer s) (nextId s) (limit s) (dropped s) (notified s))
  end.

(** The timer callback. *)
Definition onTimer (s : LogStore) : LogStore :=
  flush (set_buffers s (entries s) (pending s) false (nextId s) (limit s) (dropped s) (notified s)).

(** ** The convenience wrappers *)
Module log.
Definition line (level : LogLevel) (source : LogSource) (message : string) (detail : option LogDetail) : LogInput :=
  {| li_at := None; li_level := level; li_source := source; li_message := message;
     li_detail := detail; li_trackId := None |}.
Definition debug := line debug.
Definition info := line info.
Definition warn := line warn.
Definition error := line error.
Definition action (message : string) (detail : option LogDetail) : LogInput :=
  line LogStore.info src_ui message detail.
End log.

(** ** Runs of the store *)
Inductive Op :=
| op_append (now : Z) (i : LogInput)
| op_setLimit (n : Z)
| op_clear
| op_timer
| op_subscribe (l : nat)
| op_unsubscribe (l : nat).

Definition step (o : Op) (s : LogStore) : LogStore :=
  match o with
  | op_append now i => append now i s
  | op_setLimit n => setLimit n s
  | op_clear => clear s
  | op_timer => if timer s then onTimer s else s
  | op_subscribe l => subscribe l s
  | op_unsubscribe l => unsubscribe l s
  end.

Definition run (os : list Op) (s : LogStore) : LogStore := fold_left (fun s o => step o s) os s.

(** ** The gate: what gets past the rate limit *)

(** A line the store keeps: one of the caller's, or a gap of [n]. *)
Inductive Line := line_input (i : LogInput) | line_gap (n : Z).
Definition Line_input (l : Line) : LogInput :=
  match l with line_input i => i | line_gap n => gap_input n end.

Record Gate := { g_start : Z; g_count : Z; g_suppressed : Z }.

Definition gate (now : Z) (i : LogInput) (g : Gate) : Gate * list Line :=
  if is_debug i then
    let fresh := DEBUG_BURST_WINDOW_MS <? now - g_start g in
    let start := if fresh then now else g_start g in
    let count := if fresh then 1 else g_count g + 1 in
    if DEBUG_BURST_LIMIT <? count
    then ({| g_start := start; g_count := count; g_suppressed := g_suppressed g + 1 |}, [])
    else ({| g_start := start; g_count := count; g_suppressed := g_suppressed g |}, [line_input i])
  else if 0 <? g_suppressed g
  then ({| g_start := g_start g; g_count := g_count g; g_suppressed := 0 |},
        [line_gap (g_suppressed g); line_input i])
  else (g, [line_input i]).

(** The lines a run of operations writes since its last [clear], with the clock
    they were written at. *)
Fixpoint written (os : list Op) (g : Gate) (acc : list (Z * Line)) : Gate * list (Z * Line) :=
  match os with
  | [] => (g, acc)
  | op_append now i :: os' =>
      let '(g', ls) := gate now i g in written os' g' (acc ++ map (pair now) ls)
  | op_clear :: os' => written os' g []
  | _ :: os' => written os' g acc
  end.

Definition gate_of (s : LogStore) : Gate :=
  {| g_start := debugWindowStart s; g_count := debugWindowCount s; g_suppressed := suppressedDebug s |}.

(** What an entry was made from, without its id. *)
Definition stamp (l : Z * Line) : LogInput :=
  let i := Line_input (snd l) in
  {| li_at := Some (li_at i ?? toISOString (fst l)); li_level := li_level i;
     li_source := li_source i; li_message := li_message i; li_detail := li_detail i;
     li_trackId := li_trackId i |}.
Definition unstamp (e : LogEntry) : LogInput :=
  {| li_at := Some (le_at e); li_level := le_level e; li_source := le_source e;
     li_message := le_message e; li_detail := le_detail e; li_trackId := le_trackId e |}.

(** The refinement relation: the entries and the lines not yet flushed are the
    lines written since the last [clear] but the oldest [dropped]; the ids are
    consecutive and end just below [nextId]. *)
Record Refines (s : LogStore) (lines : list (Z * Line)) : Prop := {
  rf_dropped : 0 <= dropped s;
  rf_content : map unstamp (entries s ++ pending s) = drop (Z.to_nat (dropped s)) (map stamp lines);
  rf_length : zlen (entries s ++ pending s) + dropped s = zlen lines;
  rf_ids : map le_id (entries s ++ pending s) =
           seqZ (nextId s - zlen (entries s ++ pending s)) (zlen (entries s ++ pending s));
  rf_limit : 50 <= limit s <= 10000 /\ zlen (entries s) <= limit s;
  rf_timer : pending s <> [] -> timer s = true
}.

#[local] Arguments Z.of_nat : simpl never.
#[local] Arguments Z.to_nat : simpl never.

Lemma zlen_app {A} (l k : list A) : zlen (l ++ k) = zlen l + zlen k.
Proof. unfold zlen. rewrite length_app. lia. Qed.

Lemma zlen_nonneg {A} (l : list A) : 0 <= zlen l.
Proof. unfold zlen. lia. Qed.

Lemma zlen_map {A B} (f : A -> B) l : zlen (map f l) = zlen l.
Proof. unfold zlen. by rewrite length_map. Qed.

Lemma append_gate now i s :
  let '(g, ls) := gate now i (gate_of s) in
  append now i s =
  fold_left (fun s l => push now (Line_input l) s) ls
    (set_debug s (g_start g) (g_count g) (g_suppressed g)).
Proof.
  unfold append, gate, isDebugThrottled, gate_of. destruct s as [es ps ls tm nx lm dr ws wc sd nt].
  destruct (is_debug i); cbn -[DEBUG_BURST_LIMIT DEBUG_BURST_WINDOW_MS].
  - destruct (DEBUG_BURST_WINDOW_MS <? now - ws); cbn -[DEBUG_BURST_LIMIT DEBUG_BURST_WINDOW_MS];
      destruct (DEBUG_BURST_LIMIT <? _); cbn; try done; by rewrite andb_false_r.
  - rewrite andb_true_r. by destruct (0 <? sd).
Qed.

Lemma push_refines now l s lines :
  Refines s lines -> Refines (push now (Line_input l) s) (lines ++ [(now, l)]).
Proof.
  intros [Hd Hc Hl Hi Hlim Ht]. split; simpl; rewrite ?app_assoc; try done.
  - rewrite map_app, Hc, map_app. simpl.
    rewrite drop_app_le; [done|]. rewrite length_map. unfold zlen in *. lia.
  - rewrite !zlen_app in *. unfold zlen in *. simpl. lia.
  - rewrite map_app, Hi, (zlen_app (entries s ++ pending s)). simpl. set (n := zlen (entries s ++ pending s)) in *.
    assert (0 <= n) by apply zlen_nonneg. change (zlen [_]) with 1.
    rewrite seqZ_app by lia. f_equal; [f_equal; lia|].
    rewrite seqZ_cons, seqZ_nil by lia. f_equal. lia.
Qed.

(** Discarding the oldest entries. *)
Lemma map_drop {A B} (f : A -> B) n l : map f (drop n l) = drop n (map f l).
Proof. revert n. induction l as [|x l IH]; intros [|n]; simpl; auto. Qed.

Lemma trim_refines s lines k es lim tm ntf :
  Refines s lines -> 0 <= k <= zlen (entries s ++ pending s) ->
  50 <= lim <= 10000 -> forall ps,
  es ++ ps = drop (Z.to_nat k) (entries s ++ pending s) -> zlen es <= lim ->
  (ps <> [] -> tm = true) ->
  Refines (set_buffers s es ps tm (nextId s) lim (dropped s + k) ntf) lines.
Proof.
  intros [Hd Hc Hl Hi Hlim Ht] Hk Hlim' ps Hes Hlen Htm. split; simpl; rewrite ?Hes; try done.
  - lia.
  - rewrite map_drop, Hc, drop_drop. f_equal. lia.
  - unfold zlen in *. rewrite length_drop. lia.
  - rewrite map_drop, Hi. set (n := zlen _) in *.
    assert (zlen (drop (Z.to_nat k) (entries s ++ pending s)) = n - k) as ->.
    { unfold n, zlen in *. rewrite length_drop. lia. }
    replace n with (k + (n - k)) at 2 by lia. rewrite seqZ_app by lia.
    rewrite drop_app_length' by (rewrite length_seqZ; lia). f_equal. lia.
Qed.

Lemma array_last_drop {A} n (l : list A) :
  0 < n <= zlen l -> array_last n l = drop (Z.to_nat (zlen l - n)) l.
Proof. intros H. unfold array_last, zlen in *. f_equal. lia. Qed.

Lemma zlen_array_last {A} n (l : list A) : 0 < n <= zlen l -> zlen (array_last n l) = n.
Proof.
  intros H. rewrite array_last_drop by done. unfold zlen in *. rewrite length_drop. lia.
Qed.

Lemma set_debug_refines a b c s lines : Refines s lines -> Refines (set_debug s a b c) lines.
Proof. by intros []. Qed.

Lemma emit_refines s lines : Refines s lines -> Refines (emit s) lines.
Proof. by intros []. Qed.

Lemma pushes_refines now ls s lines :
  Refines s lines ->
  Refines (fold_left (fun s l => push now (Line_input l) s) ls s) (lines ++ map (pair now) ls).
Proof.
  revert s lines. induction ls as [|l ls IH]; intros s lines H; simpl.
  - by rewrite app_nil_r.
  - rewrite cons_middle, app_assoc. by apply IH, push_refines.
Qed.

Lemma pushes_gate now ls s : gate_of (fold_left (fun s l => push now (Line_input l) s) ls s) = gate_of s.
Proof. revert s. induction ls as [|l ls IH]; intros s; simpl; [done|]. by rewrite IH. Qed.

Lemma flush_refines s lines :
  Refines s lines -> Refines (onTimer s) lines.
Proof.
  intros HR. unfold onTimer, flush. simpl. destruct (pending s) as [|p ps] eqn:Hp.
  { destruct HR as [? ? ? ? ? _]. split; simpl; rewrite <- ?Hp; done. }
  rewrite <- Hp. pose proof (rf_limit _ _ HR) as [Hlim Hlen].
  set (merged := entries s ++ pending s).
  destruct (Z.ltb_spec (limit s) (zlen merged)) as [Hlt|Hge]; apply emit_refines.
  - rewrite array_last_drop by lia.
    refine (trim_refines s lines (zlen merged - limit s) _ (limit s) false (notified s) HR _ _ [] _ _ _);
      rewrite ?app_nil_r; try done; unfold merged in *; [lia|].
    rewrite <- array_last_drop, zlen_array_last by lia. done.
  - replace (dropped s) with (dropped s + 0) by lia.
    refine (trim_refines s lines 0 _ (limit s) false (notified s) HR _ _ [] _ _ _);
      rewrite ?app_nil_r; try lia; try done. split; [done|apply zlen_nonneg].
Qed.

Lemma setLimit_refines n s lines : Refines s lines -> Refines (setLimit n s) lines.
Proof.
  intros HR. unfold setLimit. set (lim := Z.max 50 (Z.min 10000 n)).
  pose proof (zlen_app (entries s) (pending s)) as Ha. pose proof (zlen_nonneg (pending s)). pose proof (zlen_nonneg (entries s)).
  destruct (Z.ltb_spec lim (zlen (entries s))) as [Hlt|Hge].
  - apply emit_refines. rewrite array_last_drop by lia.
    apply trim_refines; try done; try lia.
    + rewrite drop_app_le; [done|]. unfold zlen. lia.
    + rewrite <- array_last_drop, zlen_array_last; lia.
    + apply HR.
  - replace (dropped s) with (dropped s + 0) by lia.
    apply trim_refines; try done; try lia. apply HR.
Qed.

Lemma clear_refines s lines : Refines s lines -> Refines (clear s) [].
Proof.
  intros [? ? ? ? [? ?] ?]. split; simpl; try done. split; [done|]. change (zlen []) with 0. lia.
Qed.

Lemma run_refines os s lines :
  Refines s lines ->
  let '(g, lines') := written os (gate_of s) lines in
  Refines (run os s) lines' /\ gate_of (run os s) = g.
Proof.
  revert s lines. induction os as [|o os IH]; intros s lines HR; [done|].
  destruct o as [now i|n| | |l|l]; simpl written; simpl run.
  - pose proof (append_gate now i s) as Ha. destruct (gate now i (gate_of s)) as [[g1 g2 g3] ls].
    specialize (IH (append now i s) (lines ++ map (pair now) ls)).
    rewrite Ha in IH |- *. rewrite pushes_gate in IH. apply IH.
    by apply pushes_refines, set_debug_refines.
  - pose proof (IH _ _ (setLimit_refines n s lines HR)) as H. revert H. unfold setLimit.
    by destruct (_ <? _).
  - apply (IH _ _ (clear_refines s lines HR)).
  - change (step op_timer s) with (if timer s then onTimer s else s).
    destruct (timer s) eqn:Ht; [|by apply IH].
    pose proof (IH _ _ (flush_refines s lines HR)) as H'. 
    assert (gate_of (onTimer s) = gate_of s) as Hg.
    { unfold onTimer, flush. simpl. destruct (pending s); [done|]. by destruct (_ <? _). }
    by rewrite Hg in H'.
  - apply (IH (subscribe l s)). by destruct HR.
  - apply (IH (unsubscribe l s)). by destruct HR.
Qed.

Lemma new_refines : Refines new_store [].
Proof. split; simpl; done. Qed.

(** ** Counting what the gate lets through *)

Definition is_debug_input (l : Line) : bool :=
  match l with line_input i => is_debug i | line_gap _ => false end.
Definition gap_of (l : Line) : Z := match l with line_gap n => n | line_input _ => 0 end.
Definition zsum (l : list Z) : Z := fold_right Z.add 0 l.

(** The lines a series of appends writes. *)
Fixpoint gate_run (ins : list (Z * LogInput)) (g : Gate) : Gate * list Line :=
  match ins with
  | [] => (g, [])
  | (now, i) :: ins' =>
      let '(g, ls) := gate now i g in
      let '(g, ls') := gate_run ins' g in (g, ls ++ ls')
  end.

Lemma written_gate_run ins g acc :
  let '(g', lines) := written (map (fun p => op_append (fst p) (snd p)) ins) g acc in
  let '(g'', ls) := gate_run ins g in
  g' = g'' /\ map snd lines = map snd acc ++ ls.
Proof.
  revert g acc. induction ins as [|[now i] ins IH]; intros g acc; simpl; [by rewrite app_nil_r|].
  destruct (gate now i g) as [g1 ls1]. specialize (IH g1 (acc ++ map (pair now) ls1)).
  destruct (written _ _ _) as [g' lines], (gate_run ins g1) as [g'' ls].
  destruct IH as [? ->]. split; [done|]. rewrite map_app, map_map, map_id. by rewrite app_assoc.
Qed.

Lemma zlen_cons {A} (x : A) l : zlen (x :: l) = 1 + zlen l.
Proof. unfold zlen. simpl. lia. Qed.

Lemma zsum_app l k : zsum (l ++ k) = zsum l + zsum k.
Proof. induction l as [|x l IH]; simpl; [done|]. unfold zsum in *. lia. Qed.

Lemma gate_run_conserves ins g :
  0 <= g_suppressed g ->
  let '(g', ls) := gate_run ins g in
  0 <= g_suppressed g' /\
  zlen (List.filter is_debug (map snd ins)) + g_suppressed g =
  zlen (List.filter is_debug_input ls) + zsum (map gap_of ls) + g_suppressed g'.
Proof.
  revert g. induction ins as [|[now i] ins IH]; intros g Hg; [simpl; change (zlen []) with 0; lia|].
  cbn [gate_run]. unfold gate. destruct (is_debug i) eqn:Hi.
  - set (fresh := DEBUG_BURST_WINDOW_MS <? _). destruct (DEBUG_BURST_LIMIT <? _).
    + match goal with |- context [gate_run ins ?x] => specialize (IH x) end.
      destruct (gate_run ins _) as [g' ls]. simpl in IH |- *. rewrite Hi, zlen_cons. lia.
    + match goal with |- context [gate_run ins ?x] => specialize (IH x) end.
      destruct (gate_run ins _) as [g' ls]. simpl in IH |- *. rewrite Hi. simpl.
      rewrite !zlen_cons. lia.
  - destruct (Z.ltb_spec 0 (g_suppressed g)).
    + match goal with |- context [gate_run ins ?x] => specialize (IH x) end.
      destruct (gate_run ins _) as [g' ls]. simpl in IH |- *. rewrite Hi. simpl. lia.
    + specialize (IH g Hg). destruct (gate_run ins _) as [g' ls]. simpl in IH |- *.
      rewrite Hi. simpl. lia.
Qed.

Lemma gate_run_keeps ins g :
  List.filter (fun i => negb (is_debug i))
    (map Line_input (List.filter (fun l => match l with line_gap _ => false | _ => true end) (snd (gate_run ins g)))) =
  List.filter (fun i => negb (is_debug i)) (map snd ins).
Proof.
  revert g. induction ins as [|[now i] ins IH]; intros g; [done|].
  cbn [gate_run]. destruct (gate now i g) as [g1 ls1] eqn:Eg. specialize (IH g1).
  destruct (gate_run ins g1) as [g' ls]. simpl in IH |- *. rewrite !List.filter_app, map_app, List.filter_app, IH.
  unfold gate in Eg. destruct (is_debug i) eqn:Hi.
  - destruct (DEBUG_BURST_LIMIT <? _); injection Eg as <- <-; simpl; by rewrite ?Hi.
  - destruct (0 <? g_suppressed g); injection Eg as <- <-; simpl; by rewrite ?Hi.
Qed.

(** Inside one window at most twelve debug lines pass. *)
Lemma gate_run_window ins g t :
  0 <= g_count g -> g_start g <= t ->
  (forall now i, In (now, i) ins -> now - g_start g <= DEBUG_BURST_WINDOW_MS) ->
  zlen (List.filter is_debug_input (snd (gate_run ins g))) <= Z.max 0 (DEBUG_BURST_LIMIT - g_count g).
Proof.
  revert g. induction ins as [|[now i] ins IH]; intros g Hc Ht Hw; [simpl; change (zlen []) with 0; lia|].
  cbn [gate_run]. pose proof (Hw now i (or_introl eq_refl)) as Hnow.
  assert (forall n' i', In (n', i') ins -> n' - g_start g <= DEBUG_BURST_WINDOW_MS) as Hw'.
  { intros n' i' Hin. apply (Hw n' i'). by right. }
  unfold gate. destruct (Z.ltb_spec DEBUG_BURST_WINDOW_MS (now - g_start g)); [lia|].
  destruct (is_debug i) eqn:Hi.
  - destruct (Z.ltb_spec DEBUG_BURST_LIMIT (g_count g + 1)).
    + match goal with |- context [gate_run ins ?x] => specialize (IH x) end.
      destruct (gate_run ins _) as [g' ls]. simpl in IH |- *. specialize (IH ltac:(lia) Ht Hw'). lia.
    + match goal with |- context [gate_run ins ?x] => specialize (IH x) end.
      destruct (gate_run ins _) as [g' ls]. simpl in IH |- *. rewrite Hi, zlen_cons.
      specialize (IH ltac:(lia) Ht Hw'). lia.
  - destruct (0 <? g_suppressed g);
      (match goal with |- context [gate_run ins ?x] => specialize (IH x) end;
       destruct (gate_run ins _) as [g' ls]; simpl in IH |- *; rewrite ?Hi;
       specialize (IH ltac:(simpl; lia) Ht Hw'); lia).
Qed.

(** A monotone clock opens at most one new window in a second. *)
Lemma gate_run_burst ins g t :
  0 <= g_count g ->
  (forall now i, In (now, i) ins -> t <= now <= t + DEBUG_BURST_WINDOW_MS) ->
  zlen (List.filter is_debug_input (snd (gate_run ins g))) <=
    Z.max 0 (DEBUG_BURST_LIMIT - g_count g) + DEBUG_BURST_LIMIT.
Proof.
  revert g. induction ins as [|[now i] ins IH]; intros g Hc Hw.
  { simpl. change (zlen []) with 0. unfold DEBUG_BURST_LIMIT. lia. }
  cbn [gate_run]. pose proof (Hw now i (or_introl eq_refl)) as Hnow.
  assert (forall n' i', In (n', i') ins -> t <= n' <= t + DEBUG_BURST_WINDOW_MS) as Hw'.
  { intros n' i' Hin. apply (Hw n' i'). by right. }
  unfold gate. destruct (is_debug i) eqn:Hi.
  - destruct (Z.ltb_spec DEBUG_BURST_WINDOW_MS (now - g_start g)) as [Hf|Hf].
    + change (DEBUG_BURST_LIMIT <? 1) with false. cbv iota.
      pose proof (gate_run_window ins {| g_start := now; g_count := 1; g_suppressed := g_suppressed g |} now) as Hone.
      destruct (gate_run ins _) as [g' ls]. simpl in Hone |- *. rewrite Hi, zlen_cons.
      unfold DEBUG_BURST_LIMIT in *. specialize (Hone ltac:(lia) ltac:(lia)).
      assert (zlen (List.filter is_debug_input ls) <= Z.max 0 (12 - 1)); [|lia].
      apply Hone. intros n' i' Hin. specialize (Hw' n' i' Hin). lia.
    + destruct (Z.ltb_spec DEBUG_BURST_LIMIT (g_count g + 1));
        (match goal with |- context [gate_run ins ?x] => specialize (IH x) end;
         destruct (gate_run ins _) as [g' ls]; simpl in IH |- *; rewrite ?Hi, ?zlen_cons;
         specialize (IH ltac:(lia) Hw'); unfold DEBUG_BURST_LIMIT in *; lia).
  - destruct (0 <? g_suppressed g);
      (match goal with |- context [gate_run ins ?x] => specialize (IH x) end;
       destruct (gate_run ins _) as [g' ls]; simpl in IH |- *; rewrite ?Hi;
       specialize (IH ltac:(simpl; lia) Hw'); lia).
Qed.

(** ** Export *)

Definition dquote : ascii := "034"%char.
Definition newline : ascii := "010"%char.
Definition comma : ascii := ","%char.

Fixpoint string_exists (p : ascii -> bool) (s : string) : bool :=
  match s with EmptyString => false | String c s' => p c || string_exists p s' end.

(** [text.replaceAll] of one character by a string. *)
Fixpoint replaceAll (c : ascii) (by' : string) (s : string) : string :=
  match s with
  | EmptyString => ""
  | String d s' => (if Ascii.eqb d c then by' else String d "") +:+ replaceAll c by' s'
  end.

Definition quoting (c : ascii) : bool :=
  Ascii.eqb c dquote || Ascii.eqb c comma || Ascii.eqb c newline.

Definition escape (text : string) : string :=
  if string_exists quoting text
  then String dquote (replaceAll dquote (String dquote (String dquote "")) text +:+ String dquote "")
  else text.

(** The exports, over the host's [JSON.stringify]. *)
Section CsvExport.
Context (stringify_detail : LogDetail -> string) (stringify_entry : LogEntry -> string).

Definition toNdjson (es : list LogEntry) : string := join (String newline "") (map stringify_entry es).

Definition csv_header : list string :=
  ["timestamp"; "level"; "source"; "message"; "track_id"; "detail"].

Definition csv_detail (e : LogEntry) : string :=
  match le_detail e with Some d => stringify_detail d | None => "" end.

Definition csv_row (e : LogEntry) : string :=
  join (String comma "")
    [le_at e; LogLevel_string (le_level e); LogSource_string (le_source e); escape (le_message e);
     le_trackId e ?? ""; escape (csv_detail e)].

Definition toCsv (es : list LogEntry) : string :=
  join (String newline "") (join (String comma "") csv_header :: map csv_row es).

(** The cells of a row. *)
Definition csv_cells (e : LogEntry) : list string :=
  [le_at e; LogLevel_string (le_level e); LogSource_string (le_source e); le_message e;
   le_trackId e ?? ""; csv_detail e].
End CsvExport.

(** A reader of RFC 4180 text: quoted cells, a doubled quote for a quote. *)
Inductive csv_state := at_start | in_plain | in_quotes | after_quote.

Fixpoint csv_read (st : csv_state) (field : string) (row : list string) (s : string) : list (list string) :=
  match s with
  | EmptyString => [row ++ [field]]
  | String c s' =>
      match st with
      | in_quotes =>
          if Ascii.eqb c dquote then csv_read after_quote field row s'
          else csv_read in_quotes (field +:+ String c "") row s'
      | _ =>
          if Ascii.eqb c comma then csv_read at_start "" (row ++ [field]) s'
          else if Ascii.eqb c newline then (row ++ [field]) :: csv_read at_start "" [] s'
          else if Ascii.eqb c dquote then
            match st with
            | at_start => csv_read in_quotes field row s'
            | _ => csv_read in_quotes (field +:+ String c "") row s'
            end
          else csv_read in_plain (field +:+ String c "") row s'
      end
  end.

Definition csv_parse (s : string) : list (list string) := csv_read at_start "" [] s.

Definition clean (s : string) : bool := negb (string_exists quoting s).

Lemma clean_cons c s :
  clean (String c s) = true ->
  Ascii.eqb c dquote = false /\ Ascii.eqb c comma = false /\ Ascii.eqb c newline = false /\
  clean s = true.
Proof.
  unfold clean. simpl. unfold quoting. intros H%negb_true_iff.
  repeat (apply orb_false_elim in H as [H ?]). by rewrite H1, H2, H, H0.
Qed.

(** What ends a cell. *)
Definition terminator (s : string) : bool :=
  match s with EmptyString => true | String c _ => Ascii.eqb c comma || Ascii.eqb c newline end.

Lemma csv_terminator st f row rest :
  st <> in_quotes -> terminator rest = true ->
  csv_read st f row rest = csv_read in_plain f row rest.
Proof.
  intros Hst Hr. destruct rest as [|c rest]; [done|]. simpl in *.
  destruct st; try done; destruct (Ascii.eqb c comma); try done; simpl in Hr; by rewrite Hr.
Qed.

Lemma csv_clean st f row t rest :
  st = at_start \/ st = in_plain -> clean t = true -> terminator rest = true ->
  csv_read st f row (t +:+ rest) = csv_read in_plain (f +:+ t) row rest.
Proof.
  revert st f. induction t as [|c t IH]; intros st f Hst Ht Hr.
  { rewrite sapp_nil_r, sapp_nil. apply csv_terminator; [|done]. by destruct Hst as [->| ->]. }
  apply clean_cons in Ht as (H1&H2&H3&Ht). rewrite sapp_cons. simpl. rewrite H1, H2, H3.
  assert (f +:+ String c t = (f +:+ String c "") +:+ t) as -> by (by rewrite sapp_assoc).
  rewrite <- (IH in_plain); [by destruct Hst as [->| ->]|by right|done|done].
Qed.

Lemma csv_quoted f row t rest :
  csv_read in_quotes f row
    (replaceAll dquote (String dquote (String dquote "")) t +:+ String dquote rest) =
  csv_read after_quote (f +:+ t) row rest.
Proof.
  revert f. induction t as [|c t IH]; intros f; simpl; [by rewrite sapp_nil_r|].
  assert (f +:+ String c t = (f +:+ String c "") +:+ t) as -> by (by rewrite sapp_assoc).
  destruct (Ascii.eqb_spec c dquote) as [->|Hc]; rewrite !sapp_cons, sapp_nil; simpl.
  - apply IH.
  - apply Ascii.eqb_neq in Hc. rewrite Hc. apply IH.
Qed.

Lemma csv_escape row t rest :
  terminator rest = true ->
  csv_read at_start "" row (escape t +:+ rest) = csv_read in_plain t row rest.
Proof.
  intros Hr. unfold escape. destruct (string_exists quoting t) eqn:E.
  - rewrite sapp_cons, sapp_assoc. simpl. rewrite sapp_cons, sapp_nil, csv_quoted. simpl.
    by apply csv_terminator.
  - rewrite (csv_clean at_start "" row t rest); [done|by left| |done]. unfold clean. by rewrite E.
Qed.

(** A cell [c] that reads as [t]. *)
Definition reads (c t : string) : Prop :=
  forall row rest, terminator rest = true ->
  csv_read at_start "" row (c +:+ rest) = csv_read in_plain t row rest.

Lemma reads_clean t : clean t = true -> reads t t.
Proof. intros Ht row rest Hr. rewrite (csv_clean at_start); auto. Qed.

Lemma reads_escape t : reads (escape t) t.
Proof. intros row rest. apply csv_escape. Qed.

Lemma csv_read_cells cells ts row rest :
  Forall2 reads cells ts -> ts <> [] -> terminator rest = true ->
  csv_read at_start "" row (join (String comma "") cells +:+ rest) =
  csv_read in_plain (List.last ts "") (row ++ removelast ts) rest.
Proof.
  intros H. revert row. induction H as [|c t cells ts Hc Hcs IH]; intros row Hne Hr; [done|].
  destruct Hcs as [|c' t' cells ts Hc' Hcs].
  - simpl. rewrite app_nil_r. by apply Hc.
  - cbn [join]. rewrite !sapp_assoc, (sapp_cons comma), sapp_nil, Hc by done.
    cbn -[join List.last removelast]. rewrite IH by done.
    change (removelast (t :: t' :: ts)) with (t :: removelast (t' :: ts)).
    change (List.last (t :: t' :: ts) "") with (List.last (t' :: ts) "").
    by rewrite <- app_assoc.
Qed.

Lemma csv_read_rows rows tss :
  Forall2 (fun r ts => ts <> [] /\ exists cells, r = join (String comma "") cells /\ Forall2 reads cells ts)
    rows tss ->
  rows <> [] -> csv_parse (join (String newline "") rows) = tss.
Proof.
  unfold csv_parse.
  induction 1 as [|r ts rows tss (Hne&cells&->&Hcells) Hrows IH]; intros Hr; [done|].
  destruct Hrows as [|r' ts' rows tss Hr' Hrows].
  - cbn [join]. rewrite <- (sapp_nil_r (join _ cells)), (csv_read_cells cells ts) by done. simpl.
    by rewrite <- app_removelast_last.
  - cbn [join]. rewrite sapp_cons, sapp_nil, (csv_read_cells cells ts) by done. simpl csv_read at 1.
    rewrite <- app_removelast_last by done. f_equal. by apply IH.
Qed.

Lemma level_clean l : clean (LogLevel_string l) = true.
Proof. by destruct l. Qed.
Lemma source_clean l : clean (LogSource_string l) = true.
Proof. by destruct l. Qed.

Lemma csv_row_reads sd e :
  clean (le_at e) = true -> clean (le_trackId e ?? "") = true ->
  exists cells, csv_row sd e = join (String comma "") cells /\ Forall2 reads cells (csv_cells sd e).
Proof.
  intros Ha Ht. eexists. split; [reflexivity|].
  repeat constructor; auto using reads_clean, reads_escape, level_clean, source_clean.
Qed.

(** ** Properties *)

(** C8. The store is a rate limiter in front of a bounded ring: after any series
    of appends, limit changes, clears, flushes and subscriptions, the entries
    shown and those waiting to be shown are exactly the lines written since the
    last clear less the oldest [dropped], in order, with consecutive ids; the
    buffer is within its limit; and a waiting line has a flush scheduled. *)
Theorem store_refines_ring (os : list Op) :
  Refines (run os new_store) (snd (written os (gate_of new_store) [])).
Proof.
  pose proof (run_refines os new_store [] new_refines) as H.
  destruct (written os (gate_of new_store) []). apply H.
Qed.

(** No debug line disappears silently: every debug line offered is written,
    or counted in a gap line that says how many were not, or still in the
    counter the next gap line will report; and every other line is written, in
    order. *)
Lemma gate_accounts (ins : list (Z * LogInput)) :
  let '(g, lines) := written (map (fun p => op_append (fst p) (snd p)) ins) (gate_of new_store) [] in
  zlen (List.filter is_debug (map snd ins)) =
    zlen (List.filter is_debug_input (map snd lines)) + zsum (map gap_of (map snd lines)) + g_suppressed g /\
  List.filter (fun i => negb (is_debug i))
    (map Line_input (List.filter (fun l => match l with line_gap _ => false | _ => true end) (map snd lines))) =
  List.filter (fun i => negb (is_debug i)) (map snd ins).
Proof.
  pose proof (written_gate_run ins (gate_of new_store) []) as Hw.
  pose proof (gate_run_conserves ins (gate_of new_store)) as Hc.
  pose proof (gate_run_keeps ins (gate_of new_store)) as Hk.
  destruct (written _ _ _) as [g lines], (gate_run _ _) as [g' ls]. destruct Hw as [-> Hl].
  simpl in Hl. rewrite Hl. destruct Hc as [_ Hc]; [done|]. simpl in Hc, Hk. split; [lia|done].
Qed.

(** A noisy second cannot flush the log: whatever is offered within a span of
    1000 ms, the debug lines written are at most twice the burst limit of 12 (two
    windows can meet in a second), however many arrive. *)
Lemma debug_burst_bounded (before during : list (Z * LogInput)) (t : Z)
  (Hspan : forall now i, In (now, i) during -> t <= now <= t + DEBUG_BURST_WINDOW_MS) :
  let g := fst (gate_run before (gate_of new_store)) in
  let '(_, lines) := written (map (fun p => op_append (fst p) (snd p)) during) g [] in
  zlen (List.filter is_debug_input (map snd lines)) <= 24.
Proof.
  cbv zeta. set (g := fst _).
  assert (0 <= g_count g) as Hg.
  { unfold g. assert (0 <= g_count (gate_of new_store)) as H0 by done. revert H0.
    generalize (gate_of new_store). induction before as [|[n i] ins IH]; intros g0 H0; [done|].
    cbn [gate_run]. destruct (gate n i g0) as [g1 l1] eqn:E. specialize (IH g1).
    destruct (gate_run ins g1). apply IH. unfold gate in E.
    destruct (is_debug i); [destruct (_ <? n - _), (DEBUG_BURST_LIMIT <? _)|destruct (_ <? _)];
      injection E as <- <-; simpl; lia. }
  pose proof (written_gate_run during g []) as Hw. pose proof (gate_run_burst during g t Hg Hspan) as Hb.
  destruct (written _ _ _) as [g1 lines], (gate_run during g) as [g2 ls]. destruct Hw as [_ ->].
  simpl in Hb |- *. unfold DEBUG_BURST_LIMIT in Hb. lia.
Qed.

(** The CSV export reads back: an RFC 4180 reader of [toCsv] gives the header
    and, for every entry, its cells exactly, whatever quotes, commas and line
    breaks its message and details hold, as long as the two cells the code does
    not escape (the timestamp and the track id) hold none. *)
Lemma csv_roundtrip (sd : LogDetail -> string) (es : list LogEntry)
  (Hclean : forall e, In e es -> clean (le_at e) = true /\ clean (le_trackId e ?? "") = true) :
  csv_parse (toCsv sd es) = csv_header :: map (csv_cells sd) es.
Proof.
  unfold toCsv. apply csv_read_rows; [|done]. constructor.
  - split; [done|]. exists csv_header. split; [done|]. repeat constructor; by apply reads_clean.
  - induction es as [|e es IH]; [constructor|]. constructor.
    + split; [done|]. apply csv_row_reads; apply Hclean; by left.
    + apply IH. intros e' He'. apply Hclean. by right.
Qed.

(** ** Examples *)
Section Examples.

Definition some_debug : LogInput := log.debug src_detection "beacon" None.
Definition some_info : LogInput := log.info src_track "opened" None.

Example burst_example :
  zlen (entries (run (List.repeat (op_append 5000 some_debug) 20 ++ [op_append 5100 some_info; op_timer])
    new_store)) = 14.
Proof. vm_compute. reflexivity. Qed.

Lemma debug_burst_bounded_witness :
  zlen (List.filter is_debug_input (map snd (snd (written
    (map (fun p => op_append (fst p) (snd p)) [(5000, some_debug); (5400, some_debug)])
    (gate_of new_store) [])))) <= 24.
Proof.
  refine (debug_burst_bounded [] [(5000, some_debug); (5400, some_debug)] 5000 _).
  unfold DEBUG_BURST_WINDOW_MS. intros now i [[= <- <-]|[[= <- <-]|[]]]; lia.
Defined.

Definition awkward : LogEntry :=
  {| le_id := 7; le_at := "2026-09-15T03:48:07.250Z"; le_level := warn; le_source := src_ui;
     le_message := "said " +:+ String dquote ("no" +:+ String dquote (String newline ", twice"));
     le_detail := None; le_trackId := Some "trk-1" |}.

Lemma csv_roundtrip_witness :
  csv_parse (toCsv (fun _ => "{}") [awkward]) = [csv_header; csv_cells (fun _ => "{}") awkward].
Proof.
  apply (csv_roundtrip (fun _ => "{}") [awkward]).
  intros e [<-|[]]. vm_compute. split; reflexivity.
Defined.

(** The track id is the one free-form cell [toCsv] does not escape. *)
Example track_id_splits_row :
  csv_parse (toCsv (fun _ => "") [{| le_id := 1; le_at := "t"; le_level := info; le_source := src_ui;
    le_message := "m"; le_detail := None; le_trackId := Some "a,b" |}]) =
  [csv_header; ["t"; "info"; "ui"; "m"; "a"; "b"; ""]].
Proof. vm_compute. reflexivity. Qed.

End Examples.
