(* ===== verification/LogBridge.v ===== *)
(** * LogBridge: from stream frames to log lines

    [features/logs/log-bridge.ts].  [createFrameLogger] closes over four mutable
    cells; here they are a record and the returned function is [frameLogger],
    which gives the lines it logged.  It sees frames as they come off the wire:
    [evidence] that is not an array makes [.map] throw, which ends the handler
    where it stands, and the result says so. *)
From Stdlib Require Import ZArith Bool String List Lia Floats.SpecFloat.
From stdpp Require Import base option list strings gmap pretty.
From S2P Require Import Prelude JsNumber ApiTypes LogStore.

(** 0.6 *)
Definition CONFIRM_THRESHOLD : num := of_ratio 6 10.

Record TrackMemo := {
  mm_state : TrackState;
  mm_confirmed : bool;
  mm_hadPosition : bool
}.

Definition trackName (t : Track) : string :=
  (tr_identity t ?. ti_serial) ??
  (match tr_identity t ?. ti_macs with Some (m :: _) => Some m | _ => None end) ??
  tr_track_id t.

(** [evidenceClasses]: [None] when [.map] throws. *)
Definition evidenceClasses (t : RawTrack) : option string :=
  match raw_evidence t with
  | ev_absent => Some "—"
  | ev_array [] => Some "—"
  | ev_array l => Some (String.concat "" (map (fun e => DetectionClass_string (ev_class e)) l))
  | ev_object _ | ev_scalar => None
  end.

Record Logger := {
  lg_tracks : gmap string TrackMemo;
  lg_lastStatus : option SystemStatus;
  lg_sensorHealth : gmap string bool;
  lg_lastRecording : option bool
}.

Definition new_logger : Logger :=
  {| lg_tracks := ∅; lg_lastStatus := None; lg_sensorHealth := ∅; lg_lastRecording := None |}.

Definition set_tracks (m : gmap string TrackMemo) (s : Logger) : Logger :=
  {| lg_tracks := m; lg_lastStatus := lg_lastStatus s; lg_sensorHealth := lg_sensorHealth s;
     lg_lastRecording := lg_lastRecording s |}.

Definition track_line (level : LogLevel) (message : string) (id : string) (detail : option LogDetail) : LogInput :=
  {| li_at := None; li_level := level; li_source := src_track; li_message := message;
     li_detail := detail; li_trackId := Some id |}.

(** A field of a detail object that is spread in only when there is something. *)
Definition opt_field (k : string) (v : option DetailValue) : LogDetail :=
  match v with Some v => [(k, v)] | None => [] end.

Definition onSensor (sensor : SensorHealth) (s : gmap string bool * list LogInput) : gmap string bool * list LogInput :=
  let '(m, lines) := s in
  let id := sh_sensor_id sensor in
  let healthy := sh_healthy sensor in
  let previous := m !! id in
  if bool_decide (previous = Some healthy) then (m, lines)
  else
    let m := <[id := healthy]> m in
    if bool_decide (previous = None) && healthy then (m, lines)
    else (m, lines ++
      [log.line (if healthy then info else error) src_sensor
         (if healthy then "Sensor " +:+ id +:+ " recovered" else "Sensor " +:+ id +:+ " unhealthy")
         (Some ([("kind", dv_string (SensorKind_string (sh_sensor_kind sensor)))] ++
            opt_field "reason" (match truthy (sh_reason sensor) with Some r => Some (dv_string r) | None => None end) ++
            [("last_heartbeat", dv_string (sh_last_heartbeat sensor))]))]).

Definition onHealth (health : Health) (s : Logger) : Logger * list LogInput :=
  let changed := negb (bool_decide (lg_lastStatus s = Some (hl_status health))) in
  let line :=
    match changed, lg_lastStatus s with
    | true, Some previous =>
        [log.line (match hl_status health with sys_ok => info | sys_down => error | sys_degraded => warn end)
           src_sensor
           ("System status " +:+ SystemStatus_string previous +:+ " → " +:+ SystemStatus_string (hl_status health))
           (Some [("sensors", dv_int (zlen (hl_sensors health))); ("version", dv_string (hl_version health))])]
    | _, _ => []
    end in
  let '(m, lines) := fold_left (fun acc sensor => onSensor sensor acc) (hl_sensors health)
                       (lg_sensorHealth s, line) in
  ({| lg_tracks := lg_tracks s; lg_lastStatus := Some (hl_status health); lg_sensorHealth := m;
      lg_lastRecording := lg_lastRecording s |}, lines).

Definition shape_of (t : Track) : TrackMemo :=
  {| mm_state := tr_state t; mm_confirmed := nge (tr_confidence t) CONFIRM_THRESHOLD;
     mm_hadPosition := match tr_current t with Some _ => true | None => false end |}.

(** The [track.update] case; the boolean says that it threw. *)
Definition onTrack (raw : RawTrack) (tracks : gmap string TrackMemo)
  : gmap string TrackMemo * list LogInput * bool :=
  let t := raw_track raw in
  let id := tr_track_id t in
  let confirmed := nge (tr_confidence t) CONFIRM_THRESHOLD in
  let hasPosition := match tr_current t with Some _ => true | None => false end in
  let confidence := ("confidence", dv_string (toFixed 2 (tr_confidence t))) in
  match tracks !! id with
  | None =>
      let tracks := <[id := {| mm_state := tr_state t; mm_confirmed := confirmed;
                               mm_hadPosition := hasPosition |}]> tracks in
      match evidenceClasses raw with
      | None => (tracks, [], true)
      | Some classes =>
          (tracks,
           [track_line info ("Track opened: " +:+ trackName t) id
              (Some [("state", dv_string (TrackState_string (tr_state t))); confidence;
                     ("evidence", dv_string classes);
                     ("position", dv_string (if hasPosition then "reported" else "none"))])], false)
      end
  | Some memo =>
      let l1 :=
        if bool_decide (mm_state memo = tr_state t) then []
        else [track_line (if bool_decide (tr_state t = COASTING) then warn else info)
                ("Track " +:+ trackName t +:+ ": " +:+ TrackState_string (mm_state memo) +:+ " → " +:+
                 TrackState_string (tr_state t)) id (Some [confidence])] in
      let memo := {| mm_state := tr_state t; mm_confirmed := mm_confirmed memo;
                     mm_hadPosition := mm_hadPosition memo |} in
      let flips := negb (Bool.eqb (mm_confirmed memo) confirmed) in
      match flips, evidenceClasses raw with
      | true, None => (<[id := memo]> tracks, l1, true)
      | _, classes =>
          let l2 :=
            if flips then
              [track_line info
                 (if confirmed then "Track " +:+ trackName t +:+ " crossed the confirmation threshold"
                  else "Track " +:+ trackName t +:+ " fell below the confirmation threshold") id
                 (Some [confidence; ("evidence", dv_string (classes ?? ""))])]
            else [] in
          let l3 :=
            if Bool.eqb (mm_hadPosition memo) hasPosition then []
            else [track_line (if hasPosition then info else warn)
                    (if hasPosition then "Track " +:+ trackName t +:+ " started reporting position"
                     else "Track " +:+ trackName t +:+ " stopped reporting position — no longer on the map")
                    id None] in
          (<[id := {| mm_state := tr_state t; mm_confirmed := confirmed; mm_hadPosition := hasPosition |}]> tracks,
           l1 ++ l2 ++ l3, false)
      end
  end.

Definition onDetection (d : Detection) : LogInput :=
  log.line debug src_detection
    ("Class " +:+ DetectionClass_string (dt_detection_class d) +:+ " detection from " +:+ dt_sensor_id d)
    (Some ([("kind", dv_string (SensorKind_string (dt_sensor_kind d)))] ++
       opt_field "rssi_dbm" (match dt_rf d ?. rf_rssi_dbm with Some r => Some (dv_num r) | None => None end) ++
       opt_field "icao" (match truthy (ad_icao <$> dt_adsb d) with Some i => Some (dv_string i) | None => None end))).

Definition onMonitoring (m : MonitoringState) (last : option bool) : option bool * list LogInput :=
  let enabled := mn_enabled m in
  if bool_decide (last = Some enabled) then (last, [])
  else (Some enabled,
    [log.line (if enabled then info else warn) src_ui
       (if enabled then "Recording resumed" else "Recording paused")
       (Some (opt_field "reason" (match truthy (mn_reason m) with Some r => Some (dv_string r) | None => None end) ++
              opt_field "discarded_while_paused"
                (if 0 <? mn_discarded_while_paused m then Some (dv_int (mn_discarded_while_paused m)) else None)))]).

Definition onCapture (c : Capture) : LogInput :=
  log.line (match cp_state c with cap_failed => error | _ => info end) src_capture
    ("Capture " +:+ cp_capture_id c +:+ " " +:+ CaptureState_string (cp_state c))
    (Some [("iface", dv_string (cp_iface c)); ("channel", dv_int (cp_channel c));
           ("frames", dv_int (cp_frame_count c)); ("bytes", dv_int (cp_size_bytes c))]).

Definition onSweep (w : SpectrumSweep) : LogInput :=
  log.line (match sw_state w with sweep_failed => error | _ => info end) src_spectrum
    (match sw_state w with
     | sweep_running => "Sweep of " +:+ sw_band w +:+ " started — ADS-B is blind until it finishes"
     | _ => "Sweep of " +:+ sw_band w +:+ " " +:+ SweepState_string (sw_state w)
     end)
    (Some ([("sweep_id", dv_string (sw_sweep_id w))] ++
       opt_field "noise_floor_dbfs" (match sw_noise_floor_dbfs w with Some x => Some (dv_num x) | None => None end) ++
       opt_field "peak_dbfs" (match sw_peak_dbfs w with Some x => Some (dv_num x) | None => None end) ++
       opt_field "error" (match truthy (sw_error w) with Some e => Some (dv_string e) | None => None end))).

(** The function [createFrameLogger] returns. *)
Definition frameLogger (frame : ServerFrame) (s : Logger) : Logger * list LogInput * bool :=
  match frame with
  | track_update _ raw =>
      let '(m, lines, threw) := onTrack raw (lg_tracks s) in (set_tracks m s, lines, threw)
  | track_closed _ id =>
      (set_tracks (delete id (lg_tracks s)) s,
       [track_line info ("Track closed: " +:+ id) id
          (match lg_tracks s !! id with
           | Some memo => Some [("last_state", dv_string (TrackState_string (mm_state memo)))]
           | None => None
           end)], false)
  | detection_frame _ d => (s, [onDetection d], false)
  | health_frame _ h => (onHealth h s, false)
  | monitoring_frame _ m =>
      let '(last, lines) := onMonitoring m (lg_lastRecording s) in
      ({| lg_tracks := lg_tracks s; lg_lastStatus := lg_lastStatus s;
          lg_sensorHealth := lg_sensorHealth s; lg_lastRecording := last |}, lines, false)
  | capture_status _ c => (s, [onCapture c], false)
  | sweep_status _ w => (s, [onSweep w], false)
  | ping_frame _ => (s, [], false)
  end.

(** ** Connection transitions and the session line *)

Definition logConnection (state : string) (attempt : Z) : list LogInput :=
  if state === "open" then
    [log.info src_stream "Live stream connected" (Some [("note", dv_string "tracks refetched to close the gap")])]
  else if state === "reconnecting" then
    [log.warn src_stream ("Live stream dropped — reconnecting (attempt " +:+ pretty attempt +:+ ")")
       (Some [("note", dv_string "positions on screen may be stale")])]
  else if state === "closed" then [log.error src_stream "Live stream closed" None]
  else [].

Definition logSessionStart (sessionAnnounced : bool) : bool * list LogInput :=
  if sessionAnnounced then (true, [])
  else (true, [log.line info src_ui "Console session started"
                 (Some [("note", dv_string "this log covers this browser session only")])]).

(** ** Runs *)

Fixpoint logs (frames : list ServerFrame) (s : Logger) : Logger * list LogInput :=
  match frames with
  | [] => (s, [])
  | f :: frames' =>
      let '(s, lines, _) := frameLogger f s in
      let '(s, lines') := logs frames' s in (s, lines ++ lines')
  end.

(** A frame the logger handles without throwing. *)
Definition readable (f : ServerFrame) : bool :=
  match f with
  | track_update _ raw => match evidenceClasses raw with Some _ => true | None => false end
  | _ => true
  end.

(** How many of a track's three facts differ. *)
Definition b2z (b : bool) : Z := if b then 1 else 0.
Definition changes (a b : TrackMemo) : Z :=
  b2z (negb (bool_decide (mm_state a = mm_state b))) +
  b2z (negb (Bool.eqb (mm_confirmed a) (mm_confirmed b))) +
  b2z (negb (Bool.eqb (mm_hadPosition a) (mm_hadPosition b))).

(** The lines a track deserves: one when it is first seen, one per fact that
    changes, one when it closes. *)
Fixpoint deserved (id : string) (memo : option TrackMemo) (frames : list ServerFrame) : Z :=
  match frames with
  | [] => 0
  | track_update _ raw :: frames' =>
      if tr_track_id (raw_track raw) === id then
        (match memo with None => 1 | Some m => changes m (shape_of (raw_track raw)) end) +
        deserved id (Some (shape_of (raw_track raw))) frames'
      else deserved id memo frames'
  | track_closed _ id' :: frames' =>
      if id' === id then 1 + deserved id None frames' else deserved id memo frames'
  | _ :: frames' => deserved id memo frames'
  end.

Definition about (id : string) (l : LogInput) : bool := bool_decide (li_trackId l = Some id).

Lemma bool_decide_Some_eq (a b : string) : bool_decide (Some a = Some b) = (a === b).
Proof.
  destruct (String.eqb_spec a b) as [->|H]; [by rewrite bool_decide_true|].
  rewrite bool_decide_false; congruence.
Qed.

(** What one readable update of a track does. *)
Lemma onTrack_spec raw tracks id :
  evidenceClasses raw <> None ->
  let '(tracks', lines, threw) := onTrack raw tracks in
  let id' := tr_track_id (raw_track raw) in
  threw = false /\
  tracks' = <[id' := shape_of (raw_track raw)]> tracks /\
  zlen (List.filter (about id) lines) =
    if id' === id then
      match tracks !! id' with None => 1 | Some m => changes m (shape_of (raw_track raw)) end
    else 0.
Proof.
  intros He. unfold onTrack. destruct (evidenceClasses raw) as [cl|]; [clear He|done].
  set (t := raw_track raw). set (id' := tr_track_id t).
  assert (forall lv msg d, about id (track_line lv msg id' d) = (id' === id)) as Ha.
  { intros. unfold about, track_line. simpl. apply bool_decide_Some_eq. }
  destruct (tracks !! id') as [m|].
  - unfold changes, shape_of. cbn [mm_state mm_confirmed mm_hadPosition].
    destruct (bool_decide (mm_state m = tr_state t)), (Bool.eqb (mm_confirmed m) _),
      (Bool.eqb (mm_hadPosition m) _); cbn [negb app List.filter];
      rewrite ?Ha; split; try done; split; try done; by destruct (id' === id).
  - split; [done|]. split; [done|]. cbn [List.filter]. rewrite Ha. by destruct (id' === id).
Qed.

Lemma onSensor_about id sensor acc :
  List.filter (about id) (snd (onSensor sensor acc)) = List.filter (about id) (snd acc).
Proof.
  destruct acc as [m lines]. unfold onSensor. case_bool_decide; [done|].
  destruct (_ && _); [done|]. simpl. rewrite List.filter_app. simpl. by rewrite app_nil_r.
Qed.

Lemma onHealth_about id h s : List.filter (about id) (snd (onHealth h s)) = [].
Proof.
  unfold onHealth. set (line := match _ with true => _ | false => _ end).
  assert (List.filter (about id) line = []) as H0.
  { unfold line. destruct (negb _), (lg_lastStatus s); done. }
  assert (forall l acc, List.filter (about id) (snd (fold_left (fun acc sensor => onSensor sensor acc) l acc)) =
    List.filter (about id) (snd acc)) as Hf.
  { induction l as [|x l IH]; intros acc; simpl; [done|]. by rewrite IH, onSensor_about. }
  specialize (Hf (hl_sensors h) (lg_sensorHealth s, line)).
  destruct (fold_left _ _ _) as [m lines]. simpl in *. by rewrite Hf, H0.
Qed.

Lemma onHealth_tracks h s : lg_tracks (fst (onHealth h s)) = lg_tracks s.
Proof. unfold onHealth. by destruct (fold_left _ _ _). Qed.

Lemma zlen_app_filter {A} (p : A -> bool) l k :
  zlen (List.filter p (l ++ k)) = zlen (List.filter p l) + zlen (List.filter p k).
Proof. by rewrite List.filter_app, zlen_app. Qed.

Lemma logs_deserved frames s id :
  forallb readable frames = true ->
  zlen (List.filter (about id) (snd (logs frames s))) = deserved id (lg_tracks s !! id) frames.
Proof.
  revert s. induction frames as [|f frames IH]; intros s Hr; [done|].
  cbn [forallb] in Hr. apply andb_prop in Hr as [Hf Hr]. cbn [logs].
  destruct (frameLogger f s) as [[s1 lines] threw] eqn:E.
  specialize (IH s1 Hr). destruct (logs frames s1) as [s2 lines'].
  cbn [snd] in *. rewrite zlen_app_filter, IH. clear IH.
  destruct f as [ts raw|ts id'|ts d|ts h|ts c|ts w|ts m|ts]; cbn [frameLogger] in E; cbn [deserved].
  - pose proof (onTrack_spec raw (lg_tracks s) id) as H.
    destruct (onTrack raw (lg_tracks s)) as [[m l] th]. injection E as <- <- <-.
    destruct H as (_&->&->); [simpl in Hf; by destruct (evidenceClasses raw)|].
    simpl. destruct (String.eqb_spec (tr_track_id (raw_track raw)) id) as [->|Hne].
    + by rewrite lookup_insert_eq.
    + by rewrite lookup_insert_ne.
  - injection E as <- <- <-. simpl. unfold about, track_line. simpl. rewrite bool_decide_Some_eq.
    destruct (String.eqb_spec id' id) as [->|Hne]; simpl.
    + by rewrite lookup_delete_eq.
    + by rewrite lookup_delete_ne.
  - by injection E as <- <- <-.
  - injection E as E <-. pose proof (onHealth_about id h s) as H1. pose proof (onHealth_tracks h s) as H2.
    rewrite E in H1, H2. simpl in *. by rewrite H1, H2.
  - by injection E as <- <- <-.
  - by injection E as <- <- <-.
  - unfold onMonitoring in E. destruct (bool_decide _); by injection E as <- <- <-.
  - by injection E as <- <- <-.
Qed.

(** A second look at the same sensors finds nothing to say. *)
Lemma onSensor_lookup sensor acc :
  fst (onSensor sensor acc) = <[sh_sensor_id sensor := sh_healthy sensor]> (fst acc).
Proof.
  destruct acc as [m lines]. unfold onSensor. case_bool_decide as H.
  - simpl. by rewrite insert_id.
  - by destruct (_ && _).
Qed.

Lemma onSensors_lookup l acc sensor :
  List.NoDup (map sh_sensor_id l) -> In sensor l ->
  fst (fold_left (fun acc sensor => onSensor sensor acc) l acc) !! sh_sensor_id sensor =
  Some (sh_healthy sensor).
Proof.
  revert acc. induction l as [|x l IH]; intros acc Hnd Hin; [done|]. simpl in *.
  inversion Hnd as [|? ? Hn Hnd']; subst.
  assert (forall l acc, ~ In (sh_sensor_id sensor) (map sh_sensor_id l) ->
    fst (fold_left (fun acc sensor => onSensor sensor acc) l acc) !! sh_sensor_id sensor =
    fst acc !! sh_sensor_id sensor) as Hother.
  { clear. induction l as [|y l IH]; intros acc Hn; simpl in *; [done|].
    rewrite IH, onSensor_lookup, lookup_insert_ne by tauto. done. }
  destruct Hin as [->|Hin]; [|by apply IH].
  by rewrite Hother, onSensor_lookup, lookup_insert_eq.
Qed.

Lemma onSensors_seen l m :
  (forall sensor, In sensor l -> m !! sh_sensor_id sensor = Some (sh_healthy sensor)) ->
  fold_left (fun acc sensor => onSensor sensor acc) l (m, []) = (m, []).
Proof.
  induction l as [|x l IH]; intros H; simpl; [done|].
  rewrite (H x) by (by left). rewrite bool_decide_true by done. apply IH. intros y Hy. apply H. by right.
Qed.

Lemma onHealth_repeat h s :
  List.NoDup (map sh_sensor_id (hl_sensors h)) ->
  onHealth h (fst (onHealth h s)) = (fst (onHealth h s), []).
Proof.
  intros Hnd. unfold onHealth at 2 3. set (line := match _ with true => _ | false => _ end).
  pose proof (fun x => onSensors_lookup (hl_sensors h) (lg_sensorHealth s, line) x Hnd) as H.
  destruct (fold_left _ _ _) as [m l]. cbn [fst] in *. unfold onHealth.
  cbn [lg_lastStatus lg_sensorHealth lg_tracks lg_lastRecording].
  rewrite bool_decide_true by done. cbn [negb]. by rewrite onSensors_seen.
Qed.

(** ** Properties *)

(** C9. Transitions, not samples: over any sequence of readable frames, however
    tracks interleave, the lines about a track are one for its first sighting,
    one for each of its three facts (state, confirmation, having a position)
    that differs from the previous update, and one for its closing. *)
Theorem lines_are_transitions (frames : list ServerFrame) (id : string)
  (Hr : forallb readable frames = true) :
  zlen (List.filter (about id) (snd (logs frames new_logger))) = deserved id None frames.
Proof. by rewrite (logs_deserved frames new_logger id Hr). Qed.

(** Frames that repeat a reading. *)
Definition repeatable (f : ServerFrame) : Prop :=
  match f with
  | track_update _ raw => evidenceClasses raw <> None
  | health_frame _ h => List.NoDup (map sh_sensor_id (hl_sensors h))
  | monitoring_frame _ _ | ping_frame _ => True
  | _ => False
  end.

(** A repeated reading is silent: after any track update, health or recording
    frame, in any state, the same frame again logs nothing and changes nothing. *)
Lemma repeat_is_silent (f : ServerFrame) (s : Logger) (Hf : repeatable f) :
  let s' := fst (fst (frameLogger f s)) in
  frameLogger f s' = (s', [], false).
Proof.
  destruct f as [ts raw|ts id'|ts d|ts h|ts c|ts w|ts m|ts]; simpl in Hf |- *; try done.
  - pose proof (onTrack_spec raw (lg_tracks s) "") as H1.
    destruct (onTrack raw (lg_tracks s)) as [[m l] th]. destruct H1 as (_&->&_); [done|]. simpl.
    unfold onTrack. rewrite lookup_insert_eq. unfold shape_of. cbn [mm_state mm_confirmed mm_hadPosition].
    rewrite bool_decide_true, !eqb_reflx by done. cbn [negb]. by rewrite insert_insert_eq.
  - by rewrite onHealth_repeat.
  - unfold onMonitoring. destruct (bool_decide (lg_lastRecording s = Some (mn_enabled m))) eqn:E;
      cbn [fst lg_lastRecording lg_tracks lg_lastStatus lg_sensorHealth]; rewrite ?E; [done|].
    by rewrite bool_decide_true.
Qed.

(** ** Examples *)
Section Examples.

Definition far_track (conf : num) (st : TrackState) : RawTrack :=
  {| raw_track :=
       {| tr_track_id := "t1"; tr_state := st; tr_first_seen := ""; tr_last_seen := "";
          tr_detection_count := 1; tr_identity := None; tr_confidence := conf; tr_evidence := None;
          tr_current := None; tr_history := None; tr_operator := None; tr_rssi_dbm := None;
          tr_receivers := None; tr_adsb_correlated := None |};
     raw_evidence := ev_array []; raw_suppression := None |}.

Definition confirming : list ServerFrame :=
  [track_update "" (far_track (of_ratio 1 2) TENTATIVE); track_update "" (far_track (of_ratio 1 2) TENTATIVE);
   track_update "" (far_track (of_ratio 7 10) CONFIRMED); track_closed "" "t1"].

Lemma lines_are_transitions_witness :
  zlen (List.filter (about "t1") (snd (logs confirming new_logger))) = 4.
Proof. apply (lines_are_transitions confirming "t1"). reflexivity. Defined.

Lemma repeat_is_silent_witness :
  let f := track_update "" (far_track (of_ratio 7 10) CONFIRMED) in
  let s' := fst (fst (frameLogger f new_logger)) in
  frameLogger f s' = (s', [], false).
Proof.
  apply (repeat_is_silent (track_update "" (far_track (of_ratio 7 10) CONFIRMED)) new_logger).
  simpl. discriminate.
Defined.

Example confidence_text : toFixed 2 (of_ratio 7 10) = "0.70".
Proof. vm_compute. reflexivity. Qed.

(** Evidence that is not an array: the memo is written, the line is not, and the
    handler throws. *)
Definition object_evidence : RawTrack :=
  {| raw_track := raw_track (far_track (of_ratio 1 2) TENTATIVE);
     raw_evidence := ev_object []; raw_suppression := None |}.

Lemma unreadable_evidence_loses_opening :
  let '(s, lines, threw) := frameLogger (track_update "" object_evidence) new_logger in
  threw = true /\ lines = [] /\ is_Some (lg_tracks s !! "t1") /\
  snd (fst (frameLogger (track_update "" object_evidence) s)) = [].
Proof. vm_compute. repeat split; eauto. Qed.

End Examples.
