(* ===== verification/Search.v ===== *)
(** * Search: what a string typed into the header's box means

    [components/layout/search-resolver.ts]: the index built from the caches the
    console already has, the candidates a query matches in it, the ranked
    list shown, and what a better match is, said without the comparator. *)
From Stdlib Require Import ZArith Bool String Ascii List Lia Permutation Sorted.
From stdpp Require Import base option list strings.
From S2P Require Import Prelude JsNumber JsString ApiTypes.

Inductive SearchHitKind := hit_track | hit_serial | hit_label | hit_mac | hit_sensor.
#[export] Instance SearchHitKind_eq_dec : EqDecision SearchHitKind.
Proof. solve_decision. Defined.

Inductive SearchTarget :=
| to_track (trackId : string)
| to_flights (q : string)
| to_sensor (sensorId : string).

Record SearchHit := {
  hit_id : string;
  hit_kind : SearchHitKind;
  hit_label_text : string;
  hit_detail : option string;
  hit_target : SearchTarget
}.

Definition SEARCH_KIND_LABEL (k : SearchHitKind) : string :=
  match k with
  | hit_track => "Flight" | hit_serial => "Serial" | hit_label => "Aircraft" | hit_mac => "MAC" | hit_sensor => "Sensor"
  end.

Record SerialEntry := { se_value : string; se_vendor : option string; se_label : option string }.
Record MacEntry := { me_value : string; me_vendor : option string }.
Record SensorEntry := { sn_id : string; sn_kind : option string }.
Record SearchIndex := {
  ix_trackIds : list string;
  ix_serials : list SerialEntry;
  ix_macs : list MacEntry;
  ix_sensors : list SensorEntry
}.

(** [/^[0-9A-HJKMNP-TV-Z]{26}$/i]. *)
Definition is_crockford (c : ascii) : bool :=
  let n := N_of_ascii (upper_ascii c) in
  ((48 <=? n) && (n <=? 57) || (65 <=? n) && (n <=? 72) || (n =? 74) || (n =? 75) || (n =? 77) || (n =? 78)
   || (80 <=? n) && (n <=? 84) || (86 <=? n) && (n <=? 90))%N.
Definition ULID (s : string) : bool :=
  (String.length s =? 26)%nat && forallb is_crockford (list_ascii_of_string s).

Definition rankOf (needle haystack : string) : option Z :=
  let hay := toLowerCase haystack in
  if hay === needle then Some 0
  else match startsWith needle hay with
       | Some _ => Some 1
       | None => if includes needle hay then Some 2 else None
       end.

Definition is_mac_separator (c : ascii) : bool :=
  Ascii.eqb c ":" || Ascii.eqb c "-" || Ascii.eqb c "." || is_space c.
Fixpoint strip_separators (s : string) : string :=
  match s with
  | EmptyString => ""
  | String c s' => if is_mac_separator c then strip_separators s' else String c (strip_separators s')
  end.
Definition normaliseMac (value : string) : string := toLowerCase (strip_separators value).

Definition KIND_ORDER (k : SearchHitKind) : Z :=
  match k with hit_track => 0 | hit_serial => 1 | hit_label => 2 | hit_mac => 3 | hit_sensor => 4 end.

Record Ranked := { rk_rank : Z; rk_hit : SearchHit }.

Definition SEARCH_RESULT_LIMIT : Z := 8.

(** ** The candidates, in the order they are pushed *)

Definition track_hit (trackId : string) (detail : option string) : SearchHit :=
  {| hit_id := "track:" +:+ trackId; hit_kind := hit_track; hit_label_text := trackId; hit_detail := detail;
     hit_target := to_track trackId |}.

Definition ulid_candidate (raw : string) (index : SearchIndex) : list Ranked :=
  if ULID raw
  then [{| rk_rank := 0;
           rk_hit := track_hit raw (if existsb (String.eqb raw) (ix_trackIds index) then None
                                    else Some "not in this session’s list") |}]
  else [].

Definition track_candidate (raw needle trackId : string) : option Ranked :=
  if ULID raw && (toLowerCase trackId === needle) then None
  else (fun rank => {| rk_rank := rank; rk_hit := track_hit trackId None |}) <$> rankOf needle trackId.

Definition serial_candidate (needle : string) (entry : SerialEntry) : option Ranked :=
  let serialRank := rankOf needle (se_value entry) in
  let labelRank := truthy (se_label entry) ≫= rankOf needle in
  let useLabel := match labelRank, serialRank with
                  | None, _ => false
                  | Some _, None => true
                  | Some l, Some s => l <? s
                  end in
  (fun rank =>
     {| rk_rank := rank;
        rk_hit := {| hit_id := "serial:" +:+ se_value entry;
                     hit_kind := if useLabel then hit_label else hit_serial;
                     hit_label_text := if useLabel then se_label entry ?? se_value entry else se_value entry;
                     hit_detail := if useLabel then Some (se_value entry) else se_label entry;
                     hit_target := to_flights (se_value entry) |} |})
  <$> (if useLabel then labelRank else serialRank).

Definition mac_candidate (macNeedle : string) (entry : MacEntry) : option Ranked :=
  (fun rank =>
     {| rk_rank := rank;
        rk_hit := {| hit_id := "mac:" +:+ me_value entry; hit_kind := hit_mac; hit_label_text := me_value entry;
                     hit_detail := me_vendor entry; hit_target := to_flights (me_value entry) |} |})
  <$> rankOf macNeedle (normaliseMac (me_value entry)).

Definition sensor_candidate (needle : string) (sensor : SensorEntry) : option Ranked :=
  (fun rank =>
     {| rk_rank := rank;
        rk_hit := {| hit_id := "sensor:" +:+ sn_id sensor; hit_kind := hit_sensor; hit_label_text := sn_id sensor;
                     hit_detail := sn_kind sensor; hit_target := to_sensor (sn_id sensor) |} |})
  <$> rankOf needle (sn_id sensor).

Definition candidates_of_query (raw : string) (index : SearchIndex) : list Ranked :=
  let needle := toLowerCase raw in
  ulid_candidate raw index ++
  omap (track_candidate raw needle) (ix_trackIds index) ++
  omap (serial_candidate needle) (ix_serials index) ++
  omap (mac_candidate (normaliseMac raw)) (ix_macs index) ++
  omap (sensor_candidate needle) (ix_sensors index).

(** ** The ranked list *)
Section Resolve.
Context {L : Collation}.

(** The comparator answers at most zero. *)
Definition ranked_le (a b : Ranked) : bool :=
  if rk_rank a =? rk_rank b then
    let ka := KIND_ORDER (hit_kind (rk_hit a)) in
    let kb := KIND_ORDER (hit_kind (rk_hit b)) in
    if ka =? kb then
      match localeCompare (hit_label_text (rk_hit a)) (hit_label_text (rk_hit b)) with Gt => false | _ => true end
    else ka <? kb
  else rk_rank a <? rk_rank b.

(** The loop over the sorted candidates: [seen] holds the ids of [hits]. *)
Fixpoint pick (limit : Z) (hits : list SearchHit) (ranked : list Ranked) : list SearchHit :=
  match ranked with
  | [] => hits
  | r :: ranked' =>
      if existsb (fun h => hit_id h === hit_id (rk_hit r)) hits then pick limit hits ranked'
      else
        let hits := hits ++ [rk_hit r] in
        if limit <=? zlen hits then hits else pick limit hits ranked'
  end.

Definition resolveSearch (query : string) (index : SearchIndex) (limit : Z) : list SearchHit :=
  match trim query with
  | EmptyString => []
  | raw => pick limit [] (sort_by ranked_le (candidates_of_query raw index))
  end.
End Resolve.

(** ** The index *)

(** [Map.prototype.set], in insertion order. *)
Fixpoint Map_set {A} (key : string) (v : A) (l : list (string * A)) : list (string * A) :=
  match l with
  | [] => [(key, v)]
  | (k, u) :: l' => if k === key then (key, v) :: l' else (k, u) :: Map_set key v l'
  end.
Definition Map_has {A} (key : string) (l : list (string * A)) : bool :=
  match assoc key l with Some _ => true | None => false end.

Definition add_serial (labelBySerial : list (string * string)) (serials : list (string * SerialEntry)) (t : Track)
  : list (string * SerialEntry) :=
  match truthy (tr_identity t ?. ti_serial) with
  | Some serial =>
      if Map_has serial serials then serials
      else Map_set serial {| se_value := serial; se_vendor := truthy (tr_identity t ?. ti_vendor);
                             se_label := assoc serial labelBySerial |} serials
  | None => serials
  end.

Definition add_mac (vendor : option string) (macs : list (string * MacEntry)) (mac : string) : list (string * MacEntry) :=
  if (mac === "") || Map_has mac macs then macs
  else Map_set mac {| me_value := mac; me_vendor := truthy vendor |} macs.

Definition buildSearchIndex (tracks : list Track) (labels : list AircraftLabel) (sensors : list SensorHealth) : SearchIndex :=
  let labelBySerial := fold_left (fun m l => if al_label l === "" then m else Map_set (al_serial l) (al_label l) m) labels [] in
  let serials := fold_left (add_serial labelBySerial) tracks [] in
  let macs := fold_left (fun macs t => fold_left (add_mac (tr_identity t ?. ti_vendor)) (tr_identity t ?. ti_macs ?? []) macs) tracks [] in
  let serials := fold_left (fun serials e =>
    if Map_has e.1 serials then serials
    else Map_set e.1 {| se_value := e.1; se_vendor := None; se_label := Some e.2 |} serials) labelBySerial serials in
  {| ix_trackIds := map tr_track_id tracks;
     ix_serials := map snd serials;
     ix_macs := map snd macs;
     ix_sensors := map (fun s => {| sn_id := sh_sensor_id s; sn_kind := Some (SensorKind_string (sh_sensor_kind s)) |}) sensors |}.

(** ** Ranking *)
Section Ranking.
Context {L : Collation} {HL : CollationLaws L}.

Lemma collate_le_trans a b c :
  match localeCompare a b with Gt => false | _ => true end = true ->
  match localeCompare b c with Gt => false | _ => true end = true ->
  match localeCompare a c with Gt => false | _ => true end = true.
Proof.
  intros H1 H2. pose proof (collate_trans a b c) as H.
  destruct (localeCompare a b), (localeCompare b c), (localeCompare a c); try done; exfalso; by apply H.
Qed.

Lemma ranked_le_total a b : ranked_le a b = true \/ ranked_le b a = true.
Proof.
  unfold ranked_le. pose proof (collate_antisym (hit_label_text (rk_hit a)) (hit_label_text (rk_hit b))) as Hc.
  repeat match goal with |- context [?x =? ?y] => destruct (Z.eqb_spec x y) end;
    rewrite ?Z.ltb_lt; try lia; try congruence.
  all: rewrite Hc; destruct (localeCompare (hit_label_text (rk_hit a)) (hit_label_text (rk_hit b))); cbn; auto.
Qed.

Lemma ranked_le_trans a b c : ranked_le a b = true -> ranked_le b c = true -> ranked_le a c = true.
Proof.
  unfold ranked_le. pose proof (collate_le_trans (hit_label_text (rk_hit a)) (hit_label_text (rk_hit b)) (hit_label_text (rk_hit c))).
  repeat match goal with |- context [?x =? ?y] => destruct (Z.eqb_spec x y) end; rewrite ?Z.ltb_lt; try lia; auto.
Qed.

Lemma ranked_le_refl a : ranked_le a a = true.
Proof. by destruct (ranked_le_total a a). Qed.

Abbreviation ids l := (map hit_id l).

Lemma has_id_In hits id : existsb (fun h => hit_id h === id) hits = true <-> In id (ids hits).
Proof.
  rewrite existsb_exists, in_map_iff. split; intros (h & H1 & H2); exists h.
  - apply String.eqb_eq in H2. done.
  - by rewrite <- H1, String.eqb_refl.
Qed.

Lemma zlen_snoc {A} (l : list A) x : zlen (l ++ [x]) = zlen l + 1.
Proof. unfold zlen. rewrite List.length_app. cbn. lia. Qed.

Lemma pick_spec limit hits l :
  StronglySorted (fun a b => ranked_le a b = true) l -> List.NoDup (ids hits) ->
  (zlen hits < limit \/ hits = []) ->
  exists rs, pick limit hits l = hits ++ map rk_hit rs /\ incl rs l /\
    List.NoDup (ids (pick limit hits l)) /\ zlen (pick limit hits l) <= Z.max 1 limit /\
    StronglySorted (fun a b => ranked_le a b = true) rs /\
    forall c, In c l ->
      In (hit_id (rk_hit c)) (ids hits) \/
      (exists r, In r rs /\ hit_id (rk_hit r) = hit_id (rk_hit c) /\ ranked_le r c = true) \/
      (limit <= zlen (pick limit hits l) /\ forall r, In r rs -> ranked_le r c = true).
Proof.
  intros Hs. revert hits. induction Hs as [|x l Hs IH Hall]; intros hits Hnd Hlim.
  { exists []. cbn [pick map]. rewrite app_nil_r. split_and!; [done|by intros ?|done| |constructor|done].
    destruct Hlim as [Hlt| ->]; [lia|unfold zlen; cbn [List.length app]; lia]. }
  rewrite List.Forall_forall in Hall. cbn [pick].
  destruct (existsb _ hits) eqn:Ex.
  - apply has_id_In in Ex. destruct (IH hits Hnd Hlim) as (rs & E & Hi & Hn & Hz & Hso & Hc).
    exists rs. split_and!; try done; [by apply incl_tl|]. intros c [<-|Hin]; [by left|auto].
  - assert (List.NoDup (ids (hits ++ [rk_hit x]))) as Hnd'.
    { rewrite map_app. apply NoDup_app_disj; [done|repeat constructor; simpl; tauto|].
      intros i Hi [<-|[]]. apply has_id_In in Hi. congruence. }
    destruct (Z.leb_spec limit (zlen (hits ++ [rk_hit x]))) as [Hle|Hlt].
    + exists [x]. split_and!; try done; [intros c [<-|[]]; by left| |repeat constructor|].
      { rewrite zlen_snoc. destruct Hlim as [Hlt| ->]; [lia|unfold zlen; cbn [List.length app]; lia]. }
      intros c [<-|Hin].
      * right; left. exists x. split_and!; [by left|done|apply ranked_le_refl].
      * right; right. split; [done|]. intros r [<-|[]]. auto.
    + destruct (IH (hits ++ [rk_hit x]) Hnd' (or_introl Hlt)) as (rs & E & Hi & Hn & Hz & Hso & Hc).
      exists (x :: rs). split_and!; try done.
      * rewrite E, <- app_assoc. done.
      * intros r [<-|Hr]; [by left|right; auto].
      * constructor; [done|]. apply List.Forall_forall. auto.
      * intros c [<-|Hin].
        { right; left. exists x. split_and!; [by left|done|apply ranked_le_refl]. }
        destruct (Hc c Hin) as [Hid|[(r & Hr & ? & ?)|[Hf Hr]]].
        { rewrite map_app, in_app_iff in Hid. destruct Hid as [?|[Hid|[]]]; [by left|].
          right; left. exists x. split_and!; [by left|done|auto]. }
        { right; left. exists r. split_and!; [by right|done|done]. }
        { right; right. split; [done|]. intros r [<-|?]; auto. }
Qed.

(** The list shown is the best of what matches: its rows are distinct, at most
    the limit, and in order of rank, kind and name; each is a candidate the
    index gives for the query; and a candidate whose destination is missing, or
    shown by a worse match, does not exist: every candidate is shown by one at
    least as good with its id, or the list is full of candidates at least as
    good as it. *)
Lemma best_matches_shown (query : string) (index : SearchIndex) (limit : Z) :
  exists rs, resolveSearch query index limit = map rk_hit rs /\
    List.NoDup (ids (resolveSearch query index limit)) /\
    zlen (resolveSearch query index limit) <= Z.max 1 limit /\
    StronglySorted (fun a b => ranked_le a b = true) rs /\
    incl rs (candidates_of_query (trim query) index) /\
    (trim query <> "" -> forall c, In c (candidates_of_query (trim query) index) ->
       (exists r, In r rs /\ hit_id (rk_hit r) = hit_id (rk_hit c) /\ ranked_le r c = true) \/
       (limit <= zlen (resolveSearch query index limit) /\ forall r, In r rs -> ranked_le r c = true)).
Proof.
  unfold resolveSearch. destruct (trim query) as [|ch s] eqn:Et.
  { exists []. split_and!; [done|constructor| |constructor|by intros ?|done]. unfold zlen; cbn [List.length]. lia. }
  destruct (pick_spec limit [] (sort_by ranked_le (candidates_of_query (String ch s) index))) as (rs & E & Hi & Hn & Hz & Hs & Hc).
  - apply sort_by_sorted; [apply ranked_le_total|apply ranked_le_trans].
  - constructor.
  - by right.
  - exists rs. split_and!; try done.
    + intros r Hr. by apply Hi, sort_by_In in Hr.
    + intros _ c Hin. destruct (Hc c) as [[]|[?|?]]; [by apply sort_by_In|by left|by right].
Qed.
End Ranking.

(** ** What a better match is, said without the comparator *)

(** How a text is matched by a query: it is the query, or begins with it, or holds
    it further in, letters being compared without their case. *)
Definition matched (needle text : string) (rank : Z) : Prop :=
  rank = 0 /\ toLowerCase text = needle \/
  rank = 1 /\ (exists rest, rest <> "" /\ toLowerCase text = needle +:+ rest) \/
  rank = 2 /\ (exists before rest, toLowerCase text = before +:+ needle +:+ rest) /\
    ~ (exists rest, toLowerCase text = needle +:+ rest).

Lemma rankOf_matched needle text rank : rankOf needle text = Some rank -> matched needle text rank.
Proof.
  unfold rankOf, matched. destruct (String.eqb_spec (toLowerCase text) needle) as [E|Hne]; [intros [= <-]; auto|].
  destruct (startsWith needle (toLowerCase text)) as [rest|] eqn:Es.
  - apply startsWith_spec in Es. intros [= <-]. right. left. split; [done|]. exists rest. split; [|done]. intros ->.
    apply Hne. rewrite Es. clear. induction needle as [|c n IH]; [done|]. by rewrite sapp_cons, IH.
  - destruct (includes needle (toLowerCase text)) eqn:Ei; [|done]. intros [= <-]. right. right. split; [done|]. split.
    + by apply includes_spec.
    + intros (rest & E). apply startsWith_spec in E. congruence.
Qed.

(** The text a row is about and the query it is compared with: a MAC is compared
    without its separators, in either. *)
Definition row_matched (raw : string) (c : Ranked) : Prop :=
  match hit_kind (rk_hit c) with
  | hit_mac => matched (normaliseMac raw) (normaliseMac (hit_label_text (rk_hit c))) (rk_rank c)
  | _ => matched (toLowerCase raw) (hit_label_text (rk_hit c)) (rk_rank c)
  end.

Lemma candidates_matched raw index c : In c (candidates_of_query raw index) -> row_matched raw c.
Proof.
  unfold candidates_of_query, row_matched. rewrite !in_app_iff, <- !list_elem_of_In, !list_elem_of_omap.
  intros [H|[(t & _ & H)|[(e & _ & H)|[(e & _ & H)|(e & _ & H)]]]].
  - unfold ulid_candidate in H. destruct (ULID raw); [|by apply not_elem_of_nil in H].
    apply list_elem_of_singleton in H as ->. cbn. by left.
  - unfold track_candidate in H. destruct (_ && _); [done|]. destruct (rankOf _ t) as [r|] eqn:E; [|done].
    injection H as <-. by apply rankOf_matched.
  - unfold serial_candidate in H. destruct (se_label e) as [l|] eqn:El.
    + destruct (truthy (Some l) ≫= rankOf (toLowerCase raw)) as [lr|] eqn:Elr; [|destruct (rankOf _ (se_value e)) eqn:Es; [injection H as <-; by apply rankOf_matched|done]].
      assert (rankOf (toLowerCase raw) l = Some lr) as Hl by (unfold truthy in Elr; by destruct l).
      destruct (rankOf (toLowerCase raw) (se_value e)) as [sr|] eqn:Es; [|injection H as <-; by apply rankOf_matched].
      destruct (lr <? sr); injection H as <-; by apply rankOf_matched.
    + cbn in H. destruct (rankOf _ (se_value e)) eqn:Es; [injection H as <-; by apply rankOf_matched|done].
  - unfold mac_candidate in H. destruct (rankOf _ _) as [r|] eqn:E; [|done]. injection H as <-. by apply rankOf_matched.
  - unfold sensor_candidate in H. destruct (rankOf _ _) as [r|] eqn:E; [|done]. injection H as <-. by apply rankOf_matched.
Qed.

(** The kinds, the more telling first. *)
Definition KINDS : list SearchHitKind := [hit_track; hit_serial; hit_label; hit_mac; hit_sensor].
Definition kind_before (k k' : SearchHitKind) : Prop := exists i j, (i < j)%nat /\ KINDS !! i = Some k /\ KINDS !! j = Some k'.

(** [a] is at least as good as [b]: matched more closely; or as closely and of an
    earlier kind; or of the same kind too, with a name that does not come later. *)
Inductive better {L : Collation} (a b : Ranked) : Prop :=
| closer_match : rk_rank a < rk_rank b -> better a b
| earlier_kind : rk_rank a = rk_rank b -> kind_before (hit_kind (rk_hit a)) (hit_kind (rk_hit b)) -> better a b
| earlier_name : rk_rank a = rk_rank b -> hit_kind (rk_hit a) = hit_kind (rk_hit b) ->
    localeCompare (hit_label_text (rk_hit a)) (hit_label_text (rk_hit b)) <> Gt -> better a b.

Lemma KIND_ORDER_before k k' : KIND_ORDER k < KIND_ORDER k' -> kind_before k k'.
Proof. intros H. exists (Z.to_nat (KIND_ORDER k)), (Z.to_nat (KIND_ORDER k')). destruct k, k'; cbn in *; split_and!; try done; lia. Qed.
Lemma KIND_ORDER_inj k k' : KIND_ORDER k = KIND_ORDER k' -> k = k'.
Proof. by destruct k, k'. Qed.

(** The comparator sorts the better before the worse. *)
Lemma ranked_le_better {L : Collation} a b : ranked_le a b = true -> better a b.
Proof.
  unfold ranked_le. destruct (Z.eqb_spec (rk_rank a) (rk_rank b)) as [Er|].
  - destruct (Z.eqb_spec (KIND_ORDER (hit_kind (rk_hit a))) (KIND_ORDER (hit_kind (rk_hit b)))) as [Ek|].
    + intros Hn. apply earlier_name; [done|by apply KIND_ORDER_inj|]. by destruct (localeCompare _ _).
    + intros Hk%Z.ltb_lt. apply earlier_kind; [done|by apply KIND_ORDER_before].
  - intros Hr%Z.ltb_lt. by apply closer_match.
Qed.
Lemma better_rank {L : Collation} a b : better a b -> rk_rank a <= rk_rank b.
Proof. intros [H|H _|H _ _]; lia. Qed.

(** ** Maps in insertion order *)
Section MapFacts.
Context {A : Type}.
Implicit Type m : list (string * A).

Lemma assoc_Map_set key v m k : assoc k (Map_set key v m) = if key === k then Some v else assoc k m.
Proof.
  induction m as [|[k' u] m IH]; cbn; [done|]. destruct (String.eqb_spec k' key) as [->|Hne]; cbn.
  - by destruct (String.eqb_spec key k).
  - rewrite IH. destruct (String.eqb_spec k' k) as [->|]; [|done]. by destruct (String.eqb_spec key k).
Qed.

Lemma assoc_None m k : assoc k m = None <-> ~ In k (map fst m).
Proof.
  induction m as [|[k' u] m IH]; cbn; [tauto|]. destruct (String.eqb_spec k' k); [split; [done|tauto]|]. tauto.
Qed.

Lemma Map_has_true m k : Map_has k m = true <-> In k (map fst m).
Proof.
  unfold Map_has. pose proof (assoc_None m k) as H. destruct (assoc k m).
  - split; [|done]. intros _. destruct (in_dec string_dec k (map fst m)) as [|Hn]; [done|]. by apply H in Hn.
  - split; [done|]. intros Hin. exfalso. by apply H.
Qed.

Lemma Map_set_keys key v m : ~ In key (map fst m) -> Map_set key v m = m ++ [(key, v)].
Proof.
  induction m as [|[k' u] m IH]; cbn; [done|]. intros Hn. destruct (String.eqb_spec k' key); [tauto|].
  rewrite IH; tauto.
Qed.

Lemma Map_set_In key v m k : In k (map fst (Map_set key v m)) <-> k = key \/ In k (map fst m).
Proof.
  induction m as [|[k' u] m IH]; cbn; [intuition|]. destruct (String.eqb_spec k' key) as [->|]; cbn; [intuition|].
  rewrite IH. intuition.
Qed.

Lemma Map_set_NoDup key v m : List.NoDup (map fst m) -> List.NoDup (map fst (Map_set key v m)).
Proof.
  induction m as [|[k' u] m IH]; cbn; [intros _; repeat constructor; simpl; tauto|].
  intros [Hn Hd]%NoDup_cons_iff. destruct (String.eqb_spec k' key) as [->|Hne]; cbn; constructor; auto.
  rewrite Map_set_In. intros [?|?]; [congruence|done].
Qed.
End MapFacts.

(** An index under construction: distinct keys, each entry under its own value. *)
Record keyed {A} (value : A -> string) (m : list (string * A)) : Prop := {
  ky_nodup : List.NoDup (map fst m);
  ky_own : forall e, In e m -> value e.2 = e.1
}.

Lemma keyed_nil {A} (value : A -> string) : keyed value [].
Proof. split; [constructor|done]. Qed.

Lemma keyed_values {A} (value : A -> string) m : keyed value m -> map value (map snd m) = map fst m.
Proof. intros [_ H]. rewrite map_map. apply map_ext_in. auto. Qed.

Lemma keyed_add {A} (value : A -> string) m key v :
  value v = key -> keyed value m -> ~ In key (map fst m) -> keyed value (Map_set key v m).
Proof.
  intros Hv [Hn Ho] Hk. split; [by apply Map_set_NoDup|]. rewrite Map_set_keys by done.
  intros e [He|[<-|[]]]%in_app_iff; [auto|done].
Qed.

(** The name an operator gave a serial: the last label that is not empty. *)
Definition labelOf (labels : list AircraftLabel) (serial : string) : option string :=
  fold_left (fun o l => if al_label l === "" then o else if al_serial l === serial then Some (al_label l) else o) labels None.

Definition serialOf (t : Track) : option string := truthy (tr_identity t ?. ti_serial).
Definition macsOf (t : Track) : list string := tr_identity t ?. ti_macs ?? [].

Section Index.
Variables (tracks : list Track) (labels : list AircraftLabel).

Definition labelBySerial : list (string * string) :=
  fold_left (fun m l => if al_label l === "" then m else Map_set (al_serial l) (al_label l) m) labels [].

Lemma labelBySerial_assoc s : assoc s labelBySerial = labelOf labels s.
Proof.
  unfold labelBySerial, labelOf. set (f := fun m l => _). set (g := fun o l => _).
  assert (forall m o, assoc s m = o -> assoc s (fold_left f labels m) = fold_left g labels o) as H; [|by apply H].
  clear tracks. induction labels as [|l ls IH]; intros m o Hm; [done|]. cbn. apply IH. unfold f, g.
  destruct (al_label l === ""); [done|]. rewrite assoc_Map_set, Hm. done.
Qed.

Lemma labelBySerial_nodup : List.NoDup (map fst labelBySerial).
Proof.
  unfold labelBySerial. assert (List.NoDup (map fst (@nil (string * string)))) as H by constructor. revert H.
  generalize (@nil (string * string)) as m. induction labels as [|l ls IH]; intros m Hm; [done|]. cbn. apply IH.
  destruct (al_label l === ""); [done|]. by apply Map_set_NoDup.
Qed.

Definition serials_of_tracks : list (string * SerialEntry) := fold_left (add_serial labelBySerial) tracks [].

(** Serials so far: keyed, named by the labels, and those of the tracks folded. *)
Record serials_ok (P : string -> Prop) (m : list (string * SerialEntry)) : Prop := {
  so_keyed : keyed se_value m;
  so_label : forall e, In e m -> se_label e.2 = labelOf labels e.1;
  so_keys : forall s, In s (map fst m) <-> P s
}.

Lemma serials_add P m s e :
  se_value e = s -> se_label e = labelOf labels s -> ~ In s (map fst m) ->
  serials_ok P m -> serials_ok (fun k => P k \/ k = s) (Map_set s e m).
Proof.
  intros Hv Hl Hn [Hk Hlab Hp]. split; [by apply keyed_add| |].
  - rewrite Map_set_keys by done. intros e' [?|[<-|[]]]%in_app_iff; auto.
  - intros k. rewrite Map_set_In, Hp. tauto.
Qed.

Lemma serials_same P P' m : (forall s, P s <-> P' s) -> serials_ok P m -> serials_ok P' m.
Proof. intros H [H1 H2 H3]. split; try done. intros s. by rewrite H3. Qed.

Lemma serials_of_tracks_ok :
  serials_ok (fun s => exists t, In t tracks /\ serialOf t = Some s) serials_of_tracks.
Proof.
  unfold serials_of_tracks.
  assert (forall done_ m, serials_ok (fun s => exists t, In t done_ /\ serialOf t = Some s) m ->
    serials_ok (fun s => exists t, In t (done_ ++ tracks) /\ serialOf t = Some s) (fold_left (add_serial labelBySerial) tracks m)) as H.
  { induction tracks as [|t ts IH]; intros done_ m Hm; [by rewrite app_nil_r|]. cbn [fold_left].
    replace (done_ ++ t :: ts) with ((done_ ++ [t]) ++ ts) by (by rewrite <- app_assoc). apply IH.
    assert (forall s, (exists t', In t' (done_ ++ [t]) /\ serialOf t' = Some s) <->
      (exists t', In t' done_ /\ serialOf t' = Some s) \/ serialOf t = Some s) as Hsnoc.
    { intros s. setoid_rewrite in_app_iff. split; [intros (t' & [?|[->|[]]] & ?); eauto|].
      intros [(t' & ? & ?)|?]; [exists t'; auto|exists t; simpl; auto]. }
    unfold add_serial. change (truthy (tr_identity t ?. ti_serial)) with (serialOf t) in *.
    destruct (serialOf t) as [s|] eqn:Es.
    - destruct (Map_has s m) eqn:Eh.
      + apply Map_has_true, (so_keys _ _ Hm) in Eh. eapply serials_same; [|exact Hm]. intros k. rewrite Hsnoc.
        split; [by left|]. intros [?|[= <-]]; done.
      + eapply serials_same; [|apply (serials_add (fun k => exists t', In t' done_ /\ serialOf t' = Some k) m s); [done|apply labelBySerial_assoc| |exact Hm]].
        * intros k. cbn beta. rewrite Hsnoc. intuition congruence.
        * rewrite <- Map_has_true. congruence.
    - eapply serials_same; [|exact Hm]. intros k. rewrite Hsnoc. intuition congruence. }
  apply (H [] []). split; [apply keyed_nil|done|]. intros s. split; [done|]. by intros (t & [] & _).
Qed.

Definition all_serials : list (string * SerialEntry) :=
  fold_left (fun serials e =>
    if Map_has e.1 serials then serials
    else Map_set e.1 {| se_value := e.1; se_vendor := None; se_label := Some e.2 |} serials) labelBySerial serials_of_tracks.

Lemma all_serials_ok :
  serials_ok (fun s => (exists t, In t tracks /\ serialOf t = Some s) \/ labelOf labels s <> None) all_serials.
Proof.
  unfold all_serials. set (step := fun serials e => _).
  assert (forall l P m, (forall e, In e l -> labelOf labels e.1 = Some e.2) -> serials_ok P m ->
    serials_ok (fun s => P s \/ In s (map fst l)) (fold_left step l m)) as H.
  { induction l as [|[k v] l IH]; intros P m Hl Hm; [eapply serials_same; [|exact Hm]; cbn; tauto|]. cbn [fold_left].
    destruct (Map_has k m) eqn:Eh.
    - eapply serials_same; [|apply (IH P (step m (k, v))); [intros; apply Hl; by right|]].
      + intros s. cbn. apply Map_has_true, (so_keys _ _ Hm) in Eh. intuition congruence.
      + unfold step. cbn. by rewrite Eh.
    - eapply serials_same; [|apply (IH (fun s => P s \/ s = k) (step m (k, v))); [intros; apply Hl; by right|]].
      + intros s. cbn. intuition congruence.
      + unfold step. cbn. rewrite Eh. apply serials_add; try done; [|rewrite <- Map_has_true; congruence].
        symmetry. exact (Hl (k, v) (or_introl eq_refl)). }
  eapply serials_same; [|apply H; [|apply serials_of_tracks_ok]].
  - intros s. cbn beta. rewrite <- labelBySerial_assoc.
    pose proof (assoc_None labelBySerial s) as Hn. destruct (in_dec string_dec s (map fst labelBySerial)); intuition congruence.
  - intros [k v] Hin. rewrite <- labelBySerial_assoc. cbn.
    pose proof labelBySerial_nodup as Hnd. revert Hin Hnd. generalize labelBySerial as m.
    induction m as [|[k' v'] m IH]; [done|]. cbn. intros Hin [Hn Hd]%NoDup_cons_iff.
    destruct Hin as [[= -> ->]|Hin]; [by rewrite String.eqb_refl|]. destruct (String.eqb_spec k' k) as [->|]; [|by apply IH].
    exfalso. apply Hn, in_map_iff. by exists (k, v).
Qed.
End Index.

Lemma macs_fold tracks :
  let m := fold_left (fun macs t => fold_left (add_mac (tr_identity t ?. ti_vendor)) (macsOf t) macs) tracks [] in
  keyed me_value m /\ forall k, In k (map fst m) <-> k <> "" /\ exists t, In t tracks /\ In k (macsOf t).
Proof.
  assert (forall vendor l m, keyed me_value m ->
    keyed me_value (fold_left (add_mac vendor) l m) /\
    forall k, In k (map fst (fold_left (add_mac vendor) l m)) <-> In k (map fst m) \/ (k <> "" /\ In k l)) as Hin.
  { intros vendor l. induction l as [|x l IH]; intros m Hm; [split; [done|]; cbn; tauto|]. cbn [fold_left]. unfold add_mac at 2 4.
    destruct (String.eqb_spec x "") as [->|Hx]; cbn [orb].
    - destruct (IH m Hm) as [H1 H2]. split; [done|]. intros k. rewrite H2. cbn. intuition congruence.
    - destruct (Map_has x m) eqn:Eh.
      + destruct (IH m Hm) as [H1 H2]. split; [done|]. intros k. rewrite H2. apply Map_has_true in Eh. cbn. intuition congruence.
      + assert (~ In x (map fst m)) as Hn by (rewrite <- Map_has_true; congruence).
        destruct (IH (Map_set x {| me_value := x; me_vendor := truthy vendor |} m)) as [H1 H2]; [by apply keyed_add|].
        split; [done|]. intros k. rewrite H2, Map_set_In. cbn. intuition congruence. }
  cbn zeta.
  assert (forall ts m, keyed me_value m ->
    let m' := fold_left (fun macs t => fold_left (add_mac (tr_identity t ?. ti_vendor)) (macsOf t) macs) ts m in
    keyed me_value m' /\ forall k, In k (map fst m') <-> In k (map fst m) \/ (k <> "" /\ exists t, In t ts /\ In k (macsOf t))) as H.
  { induction ts as [|t ts IH]; intros m Hm; cbn zeta; [split; [done|]; intros k; cbn; split; [tauto|]; intros [?|(_ & ? & [] & _)]; done|].
    cbn [fold_left]. destruct (Hin (tr_identity t ?. ti_vendor) (macsOf t) m Hm) as [H1 H2]. destruct (IH _ H1) as [H3 H4]. split; [done|].
    intros k. rewrite H4, H2. split.
    - intros [[?|[? ?]]|(? & t' & ? & ?)]; [by left|right; split; [done|]; exists t; simpl; auto|right; split; [done|]; exists t'; simpl; auto].
    - intros [?|(Hk & t' & [->|?] & ?)]; [tauto|tauto|right; eauto]. }
  destruct (H tracks [] (keyed_nil _)) as [H1 H2]. split; [done|]. intros k. rewrite H2. cbn. tauto.
Qed.

(** One row per airframe: the index holds each serial heard and each serial
    named once, under the last name given to it, each MAC heard once, and
    nothing else. *)
Lemma index_is_deduplicated (tracks : list Track) (labels : list AircraftLabel) (sensors : list SensorHealth) :
  let index := buildSearchIndex tracks labels sensors in
  List.NoDup (map se_value (ix_serials index)) /\
  List.NoDup (map me_value (ix_macs index)) /\
  (forall s, In s (map se_value (ix_serials index)) <->
     (exists t, In t tracks /\ serialOf t = Some s) \/ labelOf labels s <> None) /\
  (forall m, In m (map me_value (ix_macs index)) <-> m <> "" /\ exists t, In t tracks /\ In m (macsOf t)) /\
  (forall e, In e (ix_serials index) -> se_label e = labelOf labels (se_value e)).
Proof.
  cbn zeta. unfold buildSearchIndex. cbn [ix_serials ix_macs].
  fold (labelBySerial labels). fold (serials_of_tracks tracks labels). fold (all_serials tracks labels).
  destruct (all_serials_ok tracks labels) as [Hk Hl Hs]. destruct (macs_fold tracks) as [Hm1 Hm2]. cbn zeta in Hm1, Hm2.
  unfold macsOf in *. rewrite (keyed_values se_value _ Hk), (keyed_values me_value _ Hm1).
  split_and!; [apply Hk|apply Hm1|exact Hs|exact Hm2|].
  intros e ([k e'] & <- & Hin)%in_map_iff. rewrite (Hl _ Hin). cbn. pose proof (ky_own _ _ Hk _ Hin) as E. cbn in E. by rewrite E.
Qed.

(** ** Examples, and what the resolver does at its edges *)
Definition a_serial (value : string) (label : option string) : SerialEntry :=
  {| se_value := value; se_vendor := None; se_label := label |}.
Definition an_index : SearchIndex := {|
  ix_trackIds := ["01HZX3K9QF7V8W2M4N5P6R7S8T"];
  ix_serials := [a_serial "1581F4AB" (Some "Blue one"); a_serial "99BLUE" None];
  ix_macs := [{| me_value := "a4:2b:b0:11:22:33"; me_vendor := None |}];
  ix_sensors := [{| sn_id := "blue-kit"; sn_kind := Some "wifi" |}]
|}.

(** A label that starts with the query beats a serial that contains it. *)
Lemma best_matches_shown_witness :
  let shown := @resolveSearch code_units " blue " an_index 2 in
  map hit_id shown = ["serial:1581F4AB"; "sensor:blue-kit"] /\ List.NoDup (map hit_id shown).
Proof.
  split; [vm_compute; reflexivity|].
  destruct (@best_matches_shown code_units code_units_laws " blue " an_index 2) as (rs & _ & H & _). exact H.
Defined.

Lemma rankOf_same s : rankOf (toLowerCase s) s = Some 0.
Proof. unfold rankOf. by rewrite String.eqb_refl. Qed.

(** Either spelling of a MAC is an exact match for it. *)
Lemma mac_either_spelling (typed : string) (index : SearchIndex) (entry : MacEntry) :
  In entry (ix_macs index) -> normaliseMac typed = normaliseMac (me_value entry) ->
  exists c, In c (candidates_of_query typed index) /\ rk_rank c = 0 /\ hit_target (rk_hit c) = to_flights (me_value entry).
Proof.
  intros Hin Hn. assert (rankOf (normaliseMac typed) (normaliseMac (me_value entry)) = Some 0 \/
    toLowerCase (normaliseMac (me_value entry)) <> normaliseMac (me_value entry)) as [Hr|Hr].
  { rewrite Hn. unfold rankOf. destruct (String.eqb_spec (toLowerCase (normaliseMac (me_value entry))) (normaliseMac (me_value entry))); auto. }
  2: { exfalso. apply Hr. unfold normaliseMac. generalize (strip_separators (me_value entry)) as s.
       induction s as [|a s IH]; [done|]. cbn. f_equal; [|exact IH]. destruct a as [[] [] [] [] [] [] [] []]; reflexivity. }
  eexists. split.
  - unfold candidates_of_query. rewrite !in_app_iff. right; right; right; left.
    apply list_elem_of_In, list_elem_of_omap. exists entry. split; [by apply list_elem_of_In|].
    unfold mac_candidate. rewrite Hr. reflexivity.
  - split; reflexivity.
Qed.

(** A track id retyped in lower case is offered as typed, as one the session does
    not list, and the session's own is passed over. *)
Lemma lower_case_id_is_unlisted :
  @resolveSearch code_units "01hzx3k9qf7v8w2m4n5p6r7s8t" an_index SEARCH_RESULT_LIMIT =
  [track_hit "01hzx3k9qf7v8w2m4n5p6r7s8t" (Some "not in this session’s list")].
Proof. vm_compute. reflexivity. Qed.

(** A query of separators alone matches every MAC. *)
Lemma separators_match_every_mac (index : SearchIndex) (entry : MacEntry) :
  In entry (ix_macs index) -> exists c, In c (candidates_of_query ":" index) /\ hit_id (rk_hit c) = "mac:" +:+ me_value entry.
Proof.
  intros Hin. assert (exists r, rankOf "" (normaliseMac (me_value entry)) = Some r) as [r Hr].
  { unfold rankOf. destruct (toLowerCase _) as [|]; eexists; reflexivity. }
  eexists. split.
  - unfold candidates_of_query. rewrite !in_app_iff. right; right; right; left.
    apply list_elem_of_In, list_elem_of_omap. exists entry. split; [by apply list_elem_of_In|].
    unfold mac_candidate. change (normaliseMac ":") with "". rewrite Hr. reflexivity.
  - reflexivity.
Qed.
