(* ===== verification/Notifications.v ===== *)
(** * Notifications: the feed, what is cleared, what is new

    [features/notifications/feed.ts], [cleared-store.ts], [dismissal-store.ts]
    and [last-seen.ts].  Storage is a key-value map that may refuse reads and
    writes; [JSON.stringify] of an array of strings and [JSON.parse] are a pair
    of parameters with the round trip between them as the only law.  The order
    of ids is the host's collation, an interface with its laws. *)
From Stdlib Require Import ZArith Bool String Ascii List Lia Permutation Sorted Floats.SpecFloat.
From stdpp Require Import base option list strings pretty.
From S2P Require Import Prelude JsNumber JsDate JsString Format ApiTypes LogStore.

Inductive NotifyCategory :=
  cat_drone | cat_sensor | cat_stream | cat_capture | cat_spectrum | cat_unit | cat_api | cat_action.
#[export] Instance NotifyCategory_eq_dec : EqDecision NotifyCategory.
Proof. solve_decision. Defined.

Definition NOTIFY_CATEGORIES : list NotifyCategory :=
  [cat_drone; cat_sensor; cat_stream; cat_capture; cat_spectrum; cat_unit; cat_api; cat_action].

Definition NOTIFY_CATEGORY_LABEL (c : NotifyCategory) : string :=
  match c with
  | cat_drone => "Drone detections" | cat_sensor => "Sensor health" | cat_stream => "Connection"
  | cat_capture => "Captures" | cat_spectrum => "Band sweeps" | cat_unit => "Unit maintenance"
  | cat_api => "API errors" | cat_action => "Operator actions"
  end.

(** [track] and [detection] are deliberately absent. *)
Definition SOURCE_CATEGORY (s : LogSource) : option NotifyCategory :=
  match s with
  | src_sensor => Some cat_sensor | src_stream => Some cat_stream | src_capture => Some cat_capture
  | src_spectrum => Some cat_spectrum | src_deploy => Some cat_unit | src_api => Some cat_api
  | src_ui => Some cat_action
  | src_track | src_detection => None
  end.

Record Notification := {
  nt_id : string;
  nt_at : string;
  nt_category : NotifyCategory;
  nt_level : LogLevel;
  nt_title : string;
  nt_meta : list string;
  nt_confidence : option num;
  nt_trackId : option string
}.

(** The switches: a category with no key is on. *)
Abbreviation Categories := (option (NotifyCategory -> option bool)).

Record FeedInput := {
  fi_tracks : list Track;
  fi_entries : list LogEntry;
  fi_categories : Categories;
  fi_minLevel : option LogLevel;
  fi_limit : nat
}.

Definition isCategoryEnabled (categories : Categories) (category : NotifyCategory) : bool :=
  match categories with
  | Some f => negb (bool_decide (f category = Some false))
  | None => true
  end.

Definition stateLabel (state : TrackState) : string :=
  match state with CONFIRMED => "in flight" | _ => toLowerCase (TrackState_string state) end.

Definition trackTitle (t : Track) : string :=
  let serial := tr_identity t ?. ti_serial in
  let label := formatHeadline ((tr_identity t ?. ti_vendor) ?? "") ((tr_identity t ?. ti_ua_type) ?? "") in
  let tail := match truthy serial with
              | Some s => Some (if 8 <? slen s then "…" +:+ JsString.slice_last 6 s else s)
              | None => None
              end in
  if label === "Unidentified aircraft"
  then match tail with Some t => "Drone " +:+ t | None => "Unidentified drone" end
  else match tail with Some t => label +:+ " " +:+ t | None => label end.

Definition trackNotification (t : Track) : Notification :=
  {| nt_id := "track:" +:+ tr_track_id t;
     nt_at := tr_first_seen t;
     nt_category := cat_drone;
     nt_level := info;
     nt_title := trackTitle t;
     nt_meta := [(tr_identity t ?. ti_vendor) ?? "unknown vendor"; stateLabel (tr_state t)] ++
       (if 0 <? tr_detection_count t
        then [pretty (tr_detection_count t) +:+ " detection" +:+ (if tr_detection_count t =? 1 then "" else "s")]
        else []);
     nt_confidence := Some (tr_confidence t);
     nt_trackId := Some (tr_track_id t) |}.

(** The feed, over the host's [String(number)] and collation. *)
Section Feed.
Context (number_string : num -> string) {C : Collation}.

Definition detail_string (v : DetailValue) : option string :=
  match v with
  | dv_string s => Some s
  | dv_num n => Some (number_string n)
  | dv_int z => Some (pretty z)
  | dv_bool b => Some (if b then "true" else "false")
  | dv_null | dv_undefined => None
  end.

Definition entryNotification (e : LogEntry) (category : NotifyCategory) : Notification :=
  {| nt_id := "log:" +:+ pretty (le_id e);
     nt_at := le_at e;
     nt_category := category;
     nt_level := le_level e;
     nt_title := le_message e;
     nt_meta := omap (fun '(k, v) => match detail_string v with
                                     | Some s => Some (k +:+ " " +:+ s) | None => None end)
                  (le_detail e ?? []);
     nt_confidence := None;
     nt_trackId := truthy (le_trackId e) |}.

(** What [buildFeed] merges, before sorting. *)
Definition merged (i : FeedInput) : list Notification :=
  let floor := LEVEL_RANK (fi_minLevel i ?? info) in
  (if isCategoryEnabled (fi_categories i) cat_drone then map trackNotification (fi_tracks i) else []) ++
  omap (fun e =>
    match SOURCE_CATEGORY (le_source e) with
    | None => None
    | Some category =>
        if negb (isCategoryEnabled (fi_categories i) category) then None
        else if LEVEL_RANK (le_level e) <? floor then None
        else Some (entryNotification e category)
    end) (fi_entries i).

Definition time_of (n : Notification) : option Z := Date_parse (nt_at n).

(** "[byNewestFirst(a, b) <= 0]"; a NaN result sorts as 0. *)
Definition byNewestFirst (a b : Notification) : bool :=
  match time_of a, time_of b with
  | Some ta, Some tb =>
      if tb - ta =? 0
      then match localeCompare (nt_id a) (nt_id b) with Gt => false | _ => true end
      else tb - ta <=? 0
  | _, _ => true
  end.

Definition buildFeed (i : FeedInput) : list Notification :=
  take (fi_limit i) (sort_by byNewestFirst (merged i)).
End Feed.

Definition countUnread (feed : list Notification) (lastSeenAt : Z) : Z :=
  zlen (List.filter (fun n =>
    (match time_of n with Some t => lastSeenAt <? t | None => false end) &&
    (bool_decide (nt_category n = cat_drone) || (LEVEL_RANK info <? LEVEL_RANK (nt_level n)))) feed).

(** ** Storage *)

(** [sessionStorage] or [localStorage]: absent entries, and a store that throws. *)
Record Storage := { st_items : list (string * string); st_works : bool }.

Definition getItem (k : string) (s : Storage) : option (option string) :=
  if st_works s then Some (assoc k (st_items s)) else None.
Definition setItem (k v : string) (s : Storage) : Storage :=
  if st_works s
  then {| st_items := (k, v) :: List.filter (fun p => fst p !== k) (st_items s); st_works := true |}
  else s.

(** ** dismissal-store.ts *)
Definition dismissal_read (key : string) (s : Storage) : option string :=
  match getItem key s with Some v => v | None => None end.
Definition dismissal_dismiss (key value : string) (s : Storage) : Storage := setItem key value s.

(** ** last-seen.ts, over [String] and [Number] of a timestamp *)
Section LastSeen.
Context (parse_number : string -> option Z).
Definition lastSeen_key : string := "classg.notifications.lastSeenAt".
Definition writeLastSeen (value : Z) (s : Storage) : Storage := setItem lastSeen_key (pretty value) s.
Definition readLastSeen (now : Z) (s : Storage) : Z * Storage :=
  match getItem lastSeen_key s with
  | None => (now, s)
  | Some (Some raw) => (parse_number raw ?? 0, s)
  | Some None => (now, writeLastSeen now s)
  end.
End LastSeen.

(** ** cleared-store.ts *)
Definition STORAGE_KEY : string := "classg.notifications.cleared".
Definition MAX_STORED : nat := 500.

(** A [Set] of strings, in insertion order. *)
Definition mem (id : string) (ids : list string) : bool := existsb (String.eqb id) ids.
Definition add (id : string) (ids : list string) : list string :=
  if mem id ids then ids else ids ++ [id].
Definition of_list (l : list string) : list string := fold_left (fun ids id => add id ids) l [].

Definition trim_ids (ids : list string) : list string :=
  if (List.length ids <=? MAX_STORED)%nat then ids else drop (List.length ids - MAX_STORED) ids.

Record ClearedStore := {
  ids : list string;
  listeners : list nat;
  notified : list nat;
  storage : Storage
}.

Section Cleared.
Context (stringify : list string -> string) (parse : string -> option (list (option string))).

(** [None] inside the parsed array stands for an element that is not a string;
    [parse] gives [None] for text that is not a JSON array. *)
Definition readStored (s : Storage) : list string :=
  match getItem STORAGE_KEY s with
  | Some (Some (String _ _ as raw)) =>
      match parse raw with
      | Some l => of_list (omap id l)
      | None => []
      end
  | _ => []
  end.

Definition persist (l : list string) (s : Storage) : Storage := setItem STORAGE_KEY (stringify l) s.

Definition cleared_new (s : Storage) : ClearedStore :=
  {| ids := readStored s; listeners := []; notified := []; storage := s |}.

Definition has (id : string) (c : ClearedStore) : bool := mem id (ids c).

Definition cleared_subscribe (l : nat) (c : ClearedStore) : ClearedStore :=
  {| ids := ids c; listeners := if existsb (Nat.eqb l) (listeners c) then listeners c else listeners c ++ [l];
     notified := notified c; storage := storage c |}.

Definition commit (next : list string) (c : ClearedStore) : ClearedStore :=
  let ids' := trim_ids next in
  {| ids := ids'; listeners := listeners c; notified := notified c ++ listeners c;
     storage := persist ids' (storage c) |}.

Definition clear (id : string) (c : ClearedStore) : ClearedStore :=
  if mem id (ids c) then c else commit (add id (ids c)) c.

Definition clearMany (l : list string) (c : ClearedStore) : ClearedStore :=
  if forallb (fun id => mem id (ids c)) l then c
  else commit (fold_left (fun ids id => add id ids) l (ids c)) c.
End Cleared.

(** ** Facts *)

Section FeedFacts.
Context (number_string : num -> string) {C : Collation} {HC : CollationLaws C}.

(** Newest first, ids breaking ties, on notifications whose time parses. *)
Definition timed (n : Notification) : Prop := time_of n <> None.

Lemma byNewestFirst_total a b : byNewestFirst a b = true \/ byNewestFirst b a = true.
Proof.
  unfold byNewestFirst. destruct (time_of a) as [ta|], (time_of b) as [tb|]; auto.
  destruct (Z.eqb_spec (tb - ta) 0), (Z.eqb_spec (ta - tb) 0); try lia.
  rewrite (collate_antisym (nt_id a) (nt_id b)). by destruct (localeCompare _ _); auto.
Qed.

Lemma byNewestFirst_trans a b c :
  timed a -> timed b -> timed c ->
  byNewestFirst a b = true -> byNewestFirst b c = true -> byNewestFirst a c = true.
Proof.
  unfold byNewestFirst, timed.
  destruct (time_of a) as [ta|], (time_of b) as [tb|], (time_of c) as [tc|]; try done. intros _ _ _.
  destruct (Z.eqb_spec (tb - ta) 0), (Z.eqb_spec (tc - tb) 0), (Z.eqb_spec (tc - ta) 0);
    try (rewrite ?Z.leb_le; lia).
  intros H1 H2. pose proof (collate_trans (nt_id a) (nt_id b) (nt_id c)) as H.
  destruct (localeCompare (nt_id a) (nt_id b)), (localeCompare (nt_id b) (nt_id c)),
    (localeCompare (nt_id a) (nt_id c)); try done; exfalso; apply H; done.
Qed.
End FeedFacts.

Lemma mem_In id l : mem id l = true <-> In id l.
Proof.
  unfold mem. rewrite existsb_exists. split.
  - intros (x&Hx&->%String.eqb_eq). done.
  - intros H. exists id. split; [done|apply String.eqb_refl].
Qed.

Lemma add_NoDup id l : List.NoDup l -> List.NoDup (add id l).
Proof.
  intros H. unfold add. destruct (mem id l) eqn:E; [done|].
  apply NoDup_app_disj; [done|repeat constructor; auto|].
  intros x Hx [<-|[]]. apply mem_In in Hx. congruence.
Qed.

Lemma adds_NoDup ls l : List.NoDup l -> List.NoDup (fold_left (fun ids id => add id ids) ls l).
Proof. revert l. induction ls as [|x ls IH]; intros l H; simpl; [done|]. by apply IH, add_NoDup. Qed.

Lemma adds_In ls l x : In x (fold_left (fun ids id => add id ids) ls l) <-> In x l \/ In x ls.
Proof.
  revert l. induction ls as [|y ls IH]; intros l; simpl; [tauto|]. rewrite IH. unfold add.
  destruct (mem y l) eqn:E.
  - apply mem_In in E. split; [tauto|]. intros [?|[->|?]]; auto.
  - rewrite in_app_iff. simpl. tauto.
Qed.

Lemma adds_fresh ls l :
  List.NoDup (l ++ ls) -> fold_left (fun ids id => add id ids) ls l = l ++ ls.
Proof.
  revert l. induction ls as [|x ls IH]; intros l H; simpl; [by rewrite app_nil_r|].
  assert (add x l = l ++ [x]) as ->.
  { unfold add. destruct (mem x l) eqn:E; [|done]. apply mem_In in E. exfalso.
    apply NoDup_remove_2 in H. apply H. by apply in_or_app; left. }
  rewrite IH by (by rewrite <- app_assoc). by rewrite <- app_assoc.
Qed.

Lemma trim_ids_In x l : In x (trim_ids l) -> In x l.
Proof. unfold trim_ids. destruct (_ <=? _)%nat; [done|]. apply In_drop. Qed.

Lemma trim_ids_NoDup l : List.NoDup l -> List.NoDup (trim_ids l).
Proof.
  unfold trim_ids. destruct (_ <=? _)%nat; [done|]. intros H.
  rewrite <- (take_drop (List.length l - MAX_STORED) l) in H.
  apply NoDup_ListNoDup in H. apply NoDup_app in H as (_&_&H). by apply NoDup_ListNoDup.
Qed.

Lemma trim_ids_length l : (List.length (trim_ids l) <= MAX_STORED)%nat.
Proof.
  unfold trim_ids. destruct (Nat.leb_spec (List.length l) MAX_STORED); [done|]. rewrite length_drop. lia.
Qed.

Lemma trim_ids_last l x : In x (trim_ids (l ++ [x])).
Proof.
  unfold trim_ids. destruct (_ <=? _)%nat eqn:E; [apply in_or_app; by right; left|].
  apply Nat.leb_gt in E. rewrite length_app in *. simpl in *.
  rewrite drop_app_le by (unfold MAX_STORED in *; lia). apply in_or_app. by right; left.
Qed.

Section ClearedFacts.
Context (stringify : list string -> string) (parse : string -> option (list (option string))).
(** [JSON.parse(JSON.stringify(l))] gives the strings back; its text is never empty. *)
Hypothesis json_roundtrip : forall l, parse (stringify l) = Some (map Some l).
Hypothesis json_nonempty : forall l, stringify l <> "".

Inductive ClearOp := c_clear (id : string) | c_clearMany (l : list string) | c_subscribe (l : nat).
Definition clear_step (o : ClearOp) (c : ClearedStore) : ClearedStore :=
  match o with
  | c_clear id => clear stringify id c
  | c_clearMany l => clearMany stringify l c
  | c_subscribe l => cleared_subscribe l c
  end.

Record ClearedInv (c : ClearedStore) : Prop := {
  ci_nodup : List.NoDup (ids c);
  ci_works : st_works (storage c) = true;
  ci_saved : readStored parse (storage c) = ids c
}.

Lemma omap_id_Some (l : list string) : omap id (map Some l) = l.
Proof. induction l as [|x l IH]; csimpl; [done|]. by f_equal. Qed.

Lemma commit_inv next c :
  List.NoDup next -> st_works (storage c) = true -> ClearedInv (commit stringify next c).
Proof.
  intros Hnd Hw. split; simpl.
  - by apply trim_ids_NoDup.
  - unfold persist, setItem. by rewrite Hw.
  - unfold readStored, persist, setItem, getItem. rewrite Hw. simpl.
    pose proof (json_nonempty (trim_ids next)). pose proof (json_roundtrip (trim_ids next)) as Hr.
    destruct (stringify (trim_ids next)) as [|a s]; [done|]. rewrite Hr, omap_id_Some.
    unfold of_list. rewrite adds_fresh; [done|]. by apply trim_ids_NoDup.
Qed.

Lemma clear_step_inv o c : ClearedInv c -> ClearedInv (clear_step o c).
Proof.
  intros HI. destruct o as [id|l|l]; simpl.
  - unfold clear. destruct (mem id (ids c)); [done|].
    apply commit_inv; [apply add_NoDup|]; apply HI.
  - unfold clearMany. destruct (forallb _ l); [done|].
    apply commit_inv; [apply adds_NoDup|]; apply HI.
  - by destruct HI.
Qed.

Lemma cleared_new_inv s : st_works s = true -> ClearedInv (cleared_new parse s).
Proof.
  intros Hw. split; simpl; try done. unfold readStored, getItem. rewrite Hw.
  destruct (assoc STORAGE_KEY (st_items s)) as [[|a raw]|]; try constructor.
  destruct (parse _); [|constructor]. apply adds_NoDup. constructor.
Qed.

Lemma clear_run_inv ops c :
  ClearedInv c -> ClearedInv (fold_left (fun c o => clear_step o c) ops c).
Proof. revert c. induction ops as [|o ops IH]; intros c HI; simpl; [done|]. by apply IH, clear_step_inv. Qed.

End ClearedFacts.

(** ** Properties *)

(** The feed is the newest [limit] of what the switches admit: nothing is
    invented or repeated, rows are newest first with the id as tiebreak, a row
    left out is never newer than a row shown, and every drone is admitted
    whatever the severity floor, as long as its category is not switched off. *)
Lemma feed_is_newest (number_string : num -> string) (C : Collation) (HC : CollationLaws C) (i : FeedInput)
  (Htimed : List.Forall timed (merged number_string i)) :
  let feed := buildFeed number_string i in
  (exists rest, Permutation (feed ++ rest) (merged number_string i) /\
     (forall a b, In a feed -> In b rest -> byNewestFirst a b = true)) /\
  StronglySorted (fun a b => byNewestFirst a b = true) feed /\
  List.length feed = Nat.min (fi_limit i) (List.length (merged number_string i)) /\
  (isCategoryEnabled (fi_categories i) cat_drone = true ->
     forall t, In t (fi_tracks i) -> In (trackNotification t) (merged number_string i)).
Proof.
  cbv zeta. unfold buildFeed. set (l := merged number_string i) in *.
  assert (StronglySorted (fun a b => byNewestFirst a b = true) (sort_by byNewestFirst l)) as Hs.
  { apply (sort_by_sorted_on byNewestFirst timed); [intros; apply byNewestFirst_total|apply byNewestFirst_trans|done]. }
  split; [|split; [|split]].
  - exists (drop (fi_limit i) (sort_by byNewestFirst l)). rewrite take_drop.
    split; [symmetry; apply sort_by_perm|]. intros a b Ha Hb. by eapply sorted_take_drop.
  - revert Hs. generalize (sort_by byNewestFirst l), (fi_limit i). clear.
    intros l n Hs. revert n. induction Hs as [|x l Hs IH Hall]; intros [|n]; simpl; try constructor; auto.
    rewrite List.Forall_forall in *. intros y Hy. apply Hall. by eapply In_take.
  - rewrite length_take, sort_by_length. done.
  - intros Hd t Ht. unfold l, merged. rewrite Hd. apply in_or_app. left. by apply in_map.
Qed.

(** C22. Clearing a notification sticks and survives a reload: along any series of
    clears on a working store, what a reload would read back is exactly what is
    shown as cleared, without repeats; an id just cleared is cleared; and an
    earlier one is forgotten only when 500 are held and it is among the oldest. *)
Theorem clears_survive_reload (stringify : list string -> string) (parse : string -> option (list (option string)))
  (Hjson : forall l, parse (stringify l) = Some (map Some l)) (Hne : forall l, stringify l <> "")
  (s : Storage) (Hw : st_works s = true) (ops : list ClearOp) (id : string) :
  let c := fold_left (fun c o => clear_step stringify o c) ops (cleared_new parse s) in
  let c' := clear stringify id c in
  readStored parse (storage c') = ids c' /\ List.NoDup (ids c') /\ has id c' = true /\
  (forall x, has x c = true -> has x c' = true \/
     ((500 <= List.length (ids c))%nat /\ In x (take (List.length (ids c) + 1 - 500) (ids c)))).
Proof.
  cbv zeta. set (c := fold_left _ ops _).
  assert (ClearedInv parse c) as HI.
  { unfold c. apply (clear_run_inv stringify parse Hjson Hne), cleared_new_inv, Hw. }
  pose proof (clear_step_inv stringify parse Hjson Hne (c_clear id) c HI) as [Hnd _ Hsv]. simpl in Hnd, Hsv.
  split; [done|]. split; [done|]. unfold has, clear in *. destruct (mem id (ids c)) eqn:E; [auto|].
  simpl. unfold add. rewrite E. split; [apply mem_In, trim_ids_last|].
  intros x Hx. rewrite !mem_In in *. unfold trim_ids. rewrite length_app. simpl.
  destruct (Nat.leb_spec (List.length (ids c) + 1) MAX_STORED) as [Hle|Hlt].
  { left. apply in_or_app. by left. }
  unfold MAX_STORED in *. rewrite drop_app_le by lia.
  rewrite <- (take_drop (List.length (ids c) + 1 - 500) (ids c)), in_app_iff in Hx.
  destruct Hx as [Hx|Hx]; [right; split; [lia|done]|left]. apply in_or_app. by left.
Qed.

(** A first visit has nothing new: with no watermark stored, the bell counts
    from this moment (zero for everything that has already happened), and the
    moment is stored at once, so a later reload counts from it too; and at any
    watermark, an info-level session event is never counted. *)
Lemma first_visit_nothing_new (parse_number : string -> option Z) (now later : Z) (s : Storage)
  (feed : list Notification)
  (Hparse : parse_number (pretty now) = Some now)
  (Hw : st_works s = true) (Hfirst : getItem lastSeen_key s = Some None)
  (Hpast : forall n t, In n feed -> time_of n = Some t -> t <= now) :
  let '(seen, s') := readLastSeen parse_number now s in
  seen = now /\ countUnread feed seen = 0 /\ fst (readLastSeen parse_number later s') = now /\
  (forall n w, nt_category n <> cat_drone -> nt_level n = info -> countUnread [n] w = 0).
Proof.
  unfold readLastSeen at 1. rewrite Hfirst. split; [done|]. split; [|split].
  - unfold countUnread. rewrite filter_none; [done|]. intros n Hn.
    destruct (time_of n) as [t|] eqn:Et; [|done]. specialize (Hpast n t Hn Et).
    destruct (Z.ltb_spec now t); [lia|done].
  - unfold readLastSeen, writeLastSeen, setItem, getItem. rewrite Hw. simpl. by rewrite Hparse.
  - intros n w Hc Hl. unfold countUnread. cbn [List.filter]. rewrite Hl, bool_decide_false by done.
    by destruct (time_of n) as [t|]; [destruct (w <? t)|].
Qed.

(** ** Examples *)
Section Examples.
#[local] Existing Instance code_units.

Definition an_entry (id : Z) (at_ : string) (lv : LogLevel) : LogEntry :=
  {| le_id := id; le_at := at_; le_level := lv; le_source := src_sensor; le_message := "m";
     le_detail := None; le_trackId := None |}.
Definition a_feed : FeedInput :=
  {| fi_tracks := []; fi_entries := [an_entry 1 "2026-09-15T03:48:07.250Z" warn;
       an_entry 2 "2026-09-15T03:48:09.000Z" debug; an_entry 3 "2026-09-15T03:48:08.000Z" error];
     fi_categories := None; fi_minLevel := None; fi_limit := 10 |}.

Lemma feed_is_newest_witness :
  List.Forall timed (merged (fun _ => "") a_feed) /\
  List.length (buildFeed (fun _ => "") a_feed) = Nat.min 10 2.
Proof.
  assert (List.Forall timed (merged (fun _ => "") a_feed)) as H.
  { repeat constructor; vm_compute; discriminate. }
  split; [exact H|].
  apply (feed_is_newest (fun _ => "") code_units code_units_laws a_feed H).
Defined.

(** A JSON of string arrays for the witness: unit-separated, each string ended. *)
Definition unit_sep : ascii := "031"%char.
Definition sep_stringify (l : list string) : string :=
  String "["%char (String.concat "" (map (fun x => String.concat "" (map (fun c => String "a"%char (String c "")) (list_ascii_of_string x)) +:+ String unit_sep "") l)).
Fixpoint sep_parse_go (word : string) (s : string) : list (option string) :=
  match s with
  | String a s' =>
      if Ascii.eqb a unit_sep then Some word :: sep_parse_go "" s'
      else match s' with String c s'' => sep_parse_go (word +:+ String c "") s'' | EmptyString => [] end
  | EmptyString => []
  end.
Definition sep_parse (s : string) : option (list (option string)) :=
  match s with String _ s' => Some (sep_parse_go "" s') | EmptyString => None end.

Lemma concat_cons_nil (x : string) l : String.concat "" (x :: l) = x +:+ String.concat "" l.
Proof. destruct l as [|y l]; simpl; [by rewrite sapp_nil_r|done]. Qed.

Lemma sep_parse_word x word rest :
  sep_parse_go word (String.concat "" (map (fun c => String "a"%char (String c "")) (list_ascii_of_string x)) +:+
    String unit_sep rest) = Some (word +:+ x) :: sep_parse_go "" rest.
Proof.
  revert word. induction x as [|c x IH]; intros word.
  - simpl. by rewrite sapp_nil_r.
  - cbn [list_ascii_of_string map]. rewrite concat_cons_nil, sapp_assoc, !sapp_cons, sapp_nil. simpl.
    rewrite IH, sapp_assoc. done.
Qed.

Lemma sep_roundtrip l : sep_parse (sep_stringify l) = Some (map Some l).
Proof.
  unfold sep_stringify, sep_parse. f_equal. induction l as [|x l IH]; [done|].
  cbn [map]. rewrite concat_cons_nil, sapp_assoc, sapp_cons, sapp_nil, sep_parse_word. by rewrite IH.
Qed.

Definition empty_storage : Storage := {| st_items := []; st_works := true |}.

Lemma clears_survive_reload_witness :
  has "track:a" (clear sep_stringify "track:a" (cleared_new sep_parse empty_storage)) = true.
Proof.
  apply (clears_survive_reload sep_stringify sep_parse sep_roundtrip
    ltac:(intros l; discriminate) empty_storage eq_refl [] "track:a").
Defined.

Definition past_track : Track :=
  {| tr_track_id := "t1"; tr_state := CONFIRMED; tr_first_seen := "2026-09-15T03:48:07Z"; tr_last_seen := "";
     tr_detection_count := 1; tr_identity := None; tr_confidence := of_Z 1; tr_evidence := None;
     tr_current := None; tr_history := None; tr_operator := None; tr_rssi_dbm := None;
     tr_receivers := None; tr_adsb_correlated := None |}.

Lemma first_visit_nothing_new_witness :
  countUnread [trackNotification past_track] 1789444087250 = 0.
Proof.
  destruct (first_visit_nothing_new (fun s => if s === pretty 1789444087250 then Some 1789444087250 else None)
    1789444087250 1789444087999 empty_storage [trackNotification past_track]) as (_&H&_).
  - reflexivity.
  - reflexivity.
  - reflexivity.
  - intros n t [<-|[]] H. vm_compute in H. injection H as <-. lia.
  - exact H.
Defined.

End Examples.
