(* ===== verification/UnitEvents.v ===== *)
(** * UnitEvents: what polling the unit's agents turns into log entries

    [features/deploy/unit-events.ts]: two reducers over a memo of the previous
    reading.  [poll] is the pair of effects of [use-unit-events.ts]. *)
From Stdlib Require Import ZArith Bool String List Lia Sorted.
From stdpp Require Import base option list strings pretty.
From S2P Require Import Prelude JsNumber JsString ApiTypes LogStore.

Record UnitEvent := {
  ue_level : LogLevel;
  ue_message : string;
  ue_detail : option LogDetail
}.

Record UnitMemo := {
  um_deployResult : option string;
  um_deployCommit : option string;
  um_watchdogActions : option Z;
  um_needsHands : option string
}.

Definition empty_memo : UnitMemo :=
  {| um_deployResult := None; um_deployCommit := None; um_watchdogActions := None; um_needsHands := None |}.

Definition opt_string (v : option string) : DetailValue :=
  match v with Some s => dv_string s | None => dv_undefined end.
Definition opt_bool (v : option bool) : DetailValue :=
  match v with Some b => dv_bool b | None => dv_undefined end.

Definition deploymentEvents (previous : UnitMemo) (status : option DeploymentStatus) : list UnitEvent * UnitMemo :=
  match status with
  | Some ({| ds_configured := true |} as status) =>
      let memo := {| um_deployResult := ds_last_result status; um_deployCommit := ds_commit status;
                     um_watchdogActions := um_watchdogActions previous;
                     um_needsHands := um_needsHands previous |} in
      match um_deployResult previous with
      | None => ([], memo)
      | Some before =>
          let result := ds_last_result status in
          if bool_decide (result = Some before) then ([], memo)
          else
            (match result with
             | Some r =>
                 if r === "deploying" then
                   [{| ue_level := info; ue_message := "Deploy started on the unit — services restart as it goes";
                       ue_detail := Some [("from", opt_string (JsString.slice 0 8 <$> um_deployCommit previous))] |}]
                 else if r === "deployed" then
                   [{| ue_level := info; ue_message := "Deployed " +:+ JsString.slice 0 8 (ds_commit status ?? "");
                       ue_detail := Some [("subject", opt_string (ds_commit_subject status));
                                          ("ok", opt_bool (ds_last_deploy_ok status))] |}]
                 else if r === "rebuilt" then
                   [{| ue_level := info; ue_message := "Rebuilt a stale build artefact; the tree was already current";
                       ue_detail := Some [("reason", opt_string (ds_last_reason status))] |}]
                 else if r === "failed" then
                   [{| ue_level := error; ue_message := "Deploy failed on the unit";
                       ue_detail := Some [("reason", opt_string (ds_last_reason status))] |}]
                 else []
             | None => []
             end, memo)
      end
  | _ => ([], previous)
  end.

Definition watchdogEvents (previous : UnitMemo) (status : option WatchdogStatus) : list UnitEvent * UnitMemo :=
  match status with
  | Some ({| wd_configured := true |} as status) =>
      let memo := {| um_deployResult := um_deployResult previous; um_deployCommit := um_deployCommit previous;
                     um_watchdogActions := Some (wd_actions_taken status);
                     um_needsHands := wd_needs_hands status |} in
      match um_watchdogActions previous with
      | None => ([], memo)
      | Some before =>
          let made := wd_actions_taken status - before in
          ((if before <? wd_actions_taken status then
              [{| ue_level := warn;
                  ue_message := "The watchdog repaired something (" +:+ pretty made +:+ " action" +:+
                                (if made =? 1 then "" else "s") +:+ ")";
                  ue_detail := Some [("last_line", opt_string (wd_log status ?. last))] |}]
            else []) ++
           (match truthy (wd_needs_hands status) with
            | Some hands =>
                if bool_decide (um_needsHands previous = Some hands) then []
                else [{| ue_level := error; ue_message := "The watchdog has given up: " +:+ hands; ue_detail := None |}]
            | None => []
            end), memo)
      end
  | _ => ([], previous)
  end.

(** One arrival of either query's data. *)
Inductive Reading := r_deployment (s : option DeploymentStatus) | r_watchdog (s : option WatchdogStatus).

Definition poll (r : Reading) (memo : UnitMemo) : list UnitEvent * UnitMemo :=
  match r with
  | r_deployment s => deploymentEvents memo s
  | r_watchdog s => watchdogEvents memo s
  end.

Fixpoint polls (rs : list Reading) (memo : UnitMemo) : list (list UnitEvent) * UnitMemo :=
  match rs with
  | [] => ([], memo)
  | r :: rs' =>
      let '(es, memo) := poll r memo in
      let '(ess, memo) := polls rs' memo in (es :: ess, memo)
  end.

(** The results worth a line. *)
Definition newsworthy (r : option string) : bool :=
  match r with
  | Some r => existsb (String.eqb r) ["deploying"; "deployed"; "rebuilt"; "failed"]
  | None => false
  end.

(** Which deployment readings are news: those of a configured unit whose result
    differs from the last configured reading's, when there was one. *)
Fixpoint deploy_news (rs : list Reading) (before : option string) : list bool :=
  match rs with
  | [] => []
  | r_deployment (Some ({| ds_configured := true |} as s)) :: rs' =>
      (match before with
       | Some b => newsworthy (ds_last_result s) && negb (bool_decide (ds_last_result s = Some b))
       | None => false
       end) :: deploy_news rs' (ds_last_result s)
  | _ :: rs' => false :: deploy_news rs' before
  end.

Definition is_deployment (r : Reading) : bool := match r with r_deployment _ => true | _ => false end.
Definition one_event (r : Reading) (es : list UnitEvent) : bool :=
  is_deployment r && (List.length es =? 1)%nat.

Lemma deploymentEvents_one memo s :
  let '(es, memo') := deploymentEvents memo s in
  (List.length es =? 1)%nat =
    (match s with
     | Some ({| ds_configured := true |} as s) =>
         match um_deployResult memo with
         | Some b => newsworthy (ds_last_result s) && negb (bool_decide (ds_last_result s = Some b))
         | None => false
         end
     | _ => false
     end) /\
  (List.length es <= 1)%nat /\
  um_deployResult memo' =
    (match s with Some ({| ds_configured := true |} as s) => ds_last_result s | _ => um_deployResult memo end).
Proof.
  unfold deploymentEvents. destruct s as [s|]; [|simpl; auto].
  destruct s as [[] r c cs ca lc res rest ? ? ? ? ? ? ? ? ? ? ?]; cbn [ds_configured ds_last_result];
    [|simpl; auto].
  destruct (um_deployResult memo) as [b|]; [|simpl; auto].
  destruct (bool_decide (res = Some b)) eqn:E; cbn [negb].
  { rewrite andb_false_r. simpl. auto. }
  rewrite andb_true_r. destruct res as [x|]; [|simpl; auto]. unfold newsworthy. cbn [existsb].
  destruct (x === "deploying"), (x === "deployed"), (x === "rebuilt"), (x === "failed"); simpl; auto.
Qed.

Lemma watchdog_keeps_deploy memo s : um_deployResult (snd (watchdogEvents memo s)) = um_deployResult memo.
Proof.
  unfold watchdogEvents. destruct s as [[[] ? ? ? ? ? ? ? ? ? ?]|]; try done.
  by destruct (um_watchdogActions memo).
Qed.

(** The repairs a reading announces. *)
Definition announced (memo : UnitMemo) (s : WatchdogStatus) : Z :=
  match um_watchdogActions memo with
  | Some before => if before <? wd_actions_taken s then wd_actions_taken s - before else 0
  | None => 0
  end.

(** The repairs a series of watchdog readings announces in all. *)
Fixpoint announced_total (ss : list WatchdogStatus) (memo : UnitMemo) : Z :=
  match ss with
  | [] => 0
  | s :: ss' => announced memo s + announced_total ss' (snd (watchdogEvents memo (Some s)))
  end.

Lemma watchdog_event_announces memo s :
  wd_configured s = true ->
  let es := fst (watchdogEvents memo (Some s)) in
  (0 < announced memo s ->
     exists d rest, es = {| ue_level := warn;
       ue_message := "The watchdog repaired something (" +:+ pretty (announced memo s) +:+ " action" +:+
                     (if announced memo s =? 1 then "" else "s") +:+ ")";
       ue_detail := d |} :: rest) /\
  (announced memo s = 0 -> forall e, In e es -> ue_level e = error).
Proof.
  intros Hc. unfold announced, watchdogEvents. destruct s as [[] ? ? a h ? ? ? ? ? lg]; [|done].
  cbn [wd_actions_taken wd_needs_hands wd_log].
  destruct (um_watchdogActions memo) as [b|]; [|split; [lia|simpl; tauto]]. cbn [fst].
  destruct (Z.ltb_spec b a).
  - split; [intros _; eexists _, _; reflexivity|lia].
  - split; [lia|]. intros _ e. cbn [app]. destruct (truthy h); [|done].
    case_bool_decide; [done|]. by intros [<-|[]].
Qed.

Lemma last_cons_default {A} (x : A) l d : List.last (x :: l) d = List.last l x.
Proof.
  revert x d. induction l as [|y l IH]; intros x d; [done|].
  change (List.last (x :: y :: l) d) with (List.last (y :: l) d). by rewrite (IH y d), (IH y x).
Qed.

Lemma announced_total_from ss a memo d :
  um_watchdogActions memo = Some a ->
  List.Forall (fun s => wd_configured s = true) ss ->
  StronglySorted Z.le (a :: map wd_actions_taken ss) -> wd_actions_taken d = a ->
  announced_total ss memo = wd_actions_taken (List.last ss d) - a.
Proof.
  revert a memo d. induction ss as [|s ss IH]; intros a memo d Hm Hc Hs Hd; [simpl; lia|].
  inversion Hc as [|? ? Hcs Hcss]; subst. cbn [map] in Hs.
  inversion Hs as [|? ? Hs' Hall]; subst. inversion Hall as [|? ? Hle _]; subst.
  cbn [announced_total].
  rewrite (IH (wd_actions_taken s) _ s); [| |done|done|done].
  - unfold announced. rewrite Hm.
    rewrite (last_cons_default s ss d).
    destruct (Z.ltb_spec (wd_actions_taken d) (wd_actions_taken s)); lia.
  - unfold watchdogEvents. destruct s as [[] ? ? ? ? ? ? ? ? ? ?]; [|done]. by rewrite Hm.
Qed.

(** ** Properties *)

(** Only transitions are news: whatever order the two agents' readings arrive
    in, and however many come back unconfigured or empty, a deployment reading
    logs a line exactly when its result is one of the four worth telling and
    differs from the previous configured reading's; the first reading never
    does, and no reading logs more than one. *)
Lemma deploy_lines_are_transitions (rs : list Reading) (memo : UnitMemo) :
  List.length (fst (polls rs memo)) = List.length rs /\
  (forall i r es, rs !! i = Some r -> fst (polls rs memo) !! i = Some es ->
     is_deployment r = true -> (List.length es <= 1)%nat) /\
  zip_with one_event rs (fst (polls rs memo)) = deploy_news rs (um_deployResult memo).
Proof.
  revert memo. induction rs as [|r rs IH]; intros memo; [done|]. cbn [polls].
  destruct r as [s|s]; cbn [poll].
  - pose proof (deploymentEvents_one memo s) as H.
    destruct (deploymentEvents memo s) as [es m]. destruct H as (H1&H2&H3).
    specialize (IH m). destruct (polls rs m) as [ess m']. cbn [fst] in *. destruct IH as (Hl&Hle&Hz).
    split; [by simpl; rewrite Hl|]. split.
    + intros [|i] r' es'; simpl; [congruence|]. apply Hle.
    + cbn [zip_with]. rewrite Hz, H3. unfold one_event at 1. cbn [is_deployment andb]. rewrite H1.
      cbn [deploy_news]. by destruct s as [[[]]|].
  - pose proof (watchdog_keeps_deploy memo s) as H.
    destruct (watchdogEvents memo s) as [es m]. simpl in H.
    specialize (IH m). destruct (polls rs m) as [ess m']. cbn [fst] in *. destruct IH as (Hl&Hle&Hz).
    split; [by simpl; rewrite Hl|]. split.
    + intros [|i] r' es'; simpl; [intros [= <-]; done|]. apply Hle.
    + cbn [zip_with]. rewrite Hz, H. by destruct s as [[[]]|].
Qed.

(** The watchdog's repairs add up: over readings whose counter never falls,
    the repairs announced sum to the counter's rise since the first reading,
    which announces nothing; and what a reading announces is what its warning
    line says. *)
Lemma repairs_add_up (first : WatchdogStatus) (rest : list WatchdogStatus)
  (Hc : List.Forall (fun s => wd_configured s = true) (first :: rest))
  (Hup : StronglySorted Z.le (map wd_actions_taken (first :: rest))) :
  announced_total (first :: rest) empty_memo =
    wd_actions_taken (List.last rest first) - wd_actions_taken first /\
  (forall memo s, wd_configured s = true -> 0 < announced memo s ->
     exists d es, fst (watchdogEvents memo (Some s)) = {| ue_level := warn;
       ue_message := "The watchdog repaired something (" +:+ pretty (announced memo s) +:+ " action" +:+
                     (if announced memo s =? 1 then "" else "s") +:+ ")";
       ue_detail := d |} :: es).
Proof.
  inversion Hc as [|? ? Hcf Hcr]; subst. split.
  - cbn [announced_total]. change (announced empty_memo first) with 0.
    rewrite (announced_total_from rest (wd_actions_taken first) _ first); try done.
    unfold watchdogEvents. by destruct first as [[] ? ? ? ? ? ? ? ? ? ?].
  - intros memo s Hs Ha. by apply (watchdog_event_announces memo s Hs).
Qed.

(** ** Examples *)
Section Examples.

Definition watchdog_at (n : Z) : WatchdogStatus :=
  {| wd_configured := true; wd_reason := None; wd_last_check_at := None; wd_actions_taken := n;
     wd_needs_hands := None; wd_api_healthy := true; wd_wifi_adapter_present := true;
     wd_wifi_tplink_adapter_present := None; wd_sdr_present := true; wd_state_age_s := None; wd_log := None |}.

Lemma repairs_add_up_witness :
  announced_total [watchdog_at 3; watchdog_at 3; watchdog_at 7; watchdog_at 8] empty_memo = 5.
Proof.
  refine (proj1 (repairs_add_up (watchdog_at 3) [watchdog_at 3; watchdog_at 7; watchdog_at 8] _ _)).
  - repeat constructor.
  - repeat constructor; simpl; lia.
Defined.

Definition deploy_result (r : option string) : DeploymentStatus :=
  {| ds_configured := true; ds_reason := None; ds_commit := None; ds_commit_subject := None;
     ds_commit_at := None; ds_last_check_at := None; ds_last_result := r; ds_last_reason := None;
     ds_last_deploy_at := None; ds_last_deploy_commit := None; ds_last_deploy_ok := None;
     ds_remote_commit := None; ds_remote_ci := None; ds_timer_enabled := None;
     ds_update_available := false; ds_deploy_requested := false; ds_state_age_s := None;
     ds_artefacts := None; ds_log := None |}.

Example news_ex :
  deploy_news [r_deployment (Some (deploy_result (Some "up-to-date"))); r_watchdog None;
               r_deployment (Some (deploy_result (Some "deploying")))] None = [false; false; true].
Proof. reflexivity. Qed.

(** A unit that has recorded no result yet is taken for one never seen: its first
    deploy starts without a line. *)
Lemma first_deploy_is_missed :
  fst (polls [r_deployment (Some (deploy_result None));
              r_deployment (Some (deploy_result (Some "deploying")))] empty_memo) = [[]; []].
Proof. reflexivity. Qed.

End Examples.
