(* ===== verification/AppUpdate.v ===== *)
(** * AppUpdate: offering a new build, and reloading into it

    [features/offline/app-update.ts].  The watcher and the browser's service
    worker objects form one state, as in [LiveStream]: workers with their
    lifecycle state and whether the watcher's [statechange] listener is on
    them, the registration's [waiting] and [installing] slots, whether a worker
    controls the page.  [step] is what the page and the browser can do. *)
From Stdlib Require Import ZArith Bool String List Lia.
From stdpp Require Import base option list strings.
From S2P Require Import Prelude.

Inductive UpdateStatus := idle | available | applying_.
#[export] Instance UpdateStatus_eq_dec : EqDecision UpdateStatus.
Proof. solve_decision. Defined.

Inductive WorkerState := installing_ | installed | activating | activated | redundant.
#[export] Instance WorkerState_eq_dec : EqDecision WorkerState.
Proof. solve_decision. Defined.

Record WorkerLike := { wk_state : WorkerState; wk_listened : bool }.

Inductive Output :=
| o_reload
| o_skip_waiting (worker : nat)
| o_update
| o_status (listener : nat) (status : UpdateStatus).

Record Watcher := {
  status : UpdateStatus;
  timer : bool;
  started : bool;
  applying : bool;
  watched : option nat;
  listeners : list nat;
  (** the browser *)
  workers : list WorkerLike;
  waiting : option nat;
  installing : option nat;
  controller : bool;
  out : list Output
}.

(** A page that loads: nothing of the watcher, whatever of the browser. *)
Definition constructor (ws : list WorkerState) (wait inst : option nat) (ctrl : bool) : Watcher :=
  {| status := idle; timer := false; started := false; applying := false; watched := None;
     listeners := [];
     workers := map (fun st => {| wk_state := st; wk_listened := false |}) ws;
     waiting := wait; installing := inst; controller := ctrl; out := [] |}.

Section Update.
Context (s : Watcher).
Definition upd (st : UpdateStatus) (tm stt app_ : bool) (wat : option nat) (o : list Output) : Watcher :=
  {| status := st; timer := tm; started := stt; applying := app_; watched := wat;
     listeners := listeners s; workers := workers s; waiting := waiting s;
     installing := installing s; controller := controller s; out := out s ++ o |}.
Definition set_status st o := upd st (timer s) (started s) (applying s) (watched s) o.
Definition set_timer b := upd (status s) b (started s) (applying s) (watched s) [].
Definition set_started b := upd (status s) (timer s) b (applying s) (watched s) [].
Definition set_applying b := upd (status s) (timer s) (started s) b (watched s) [].
Definition set_watched w := upd (status s) (timer s) (started s) (applying s) w [].
Definition emit o := upd (status s) (timer s) (started s) (applying s) (watched s) o.
Definition set_listeners l : Watcher :=
  {| status := status s; timer := timer s; started := started s; applying := applying s;
     watched := watched s; listeners := l; workers := workers s; waiting := waiting s;
     installing := installing s; controller := controller s; out := out s |}.
Definition browser (ws : list WorkerLike) (wait inst : option nat) (ctrl : bool) : Watcher :=
  {| status := status s; timer := timer s; started := started s; applying := applying s;
     watched := watched s; listeners := listeners s; workers := ws; waiting := wait;
     installing := inst; controller := ctrl; out := out s |}.
(** [addEventListener] and [removeEventListener] of the one listener. *)
Definition listen (b : bool) (i : nat) : Watcher :=
  match workers s !! i with
  | Some w => browser (<[i := {| wk_state := wk_state w; wk_listened := b |}]> (workers s))
                (waiting s) (installing s) (controller s)
  | None => s
  end.
End Update.

Definition setStatus (st : UpdateStatus) (s : Watcher) : Watcher :=
  if bool_decide (status s = st) then s
  else set_status s st (map (fun l => o_status l st) (listeners s)).

Definition offerIfSuperseding (s : Watcher) : Watcher :=
  if controller s then setStatus available s else s.

Definition unwatch (s : Watcher) : Watcher :=
  let s := match watched s with Some i => listen s false i | None => s end in
  set_watched s None.

Definition state_of (s : Watcher) (i : nat) : option WorkerState := wk_state <$> workers s !! i.

Definition watchInstalling (s : Watcher) : Watcher :=
  match installing s with
  | None => s
  | Some i =>
      let s := set_watched (unwatch s) (Some i) in
      if bool_decide (state_of s i = Some installed) then offerIfSuperseding s
      else listen s true i
  end.

Definition onUpdateFound : Watcher -> Watcher := watchInstalling.

Definition onInstalledStateChange (s : Watcher) : Watcher :=
  match watched s with
  | None => s
  | Some i =>
      let s := if bool_decide (state_of s i = Some installed) then offerIfSuperseding s else s in
      if bool_decide (state_of s i = Some redundant) then unwatch s else s
  end.

Definition onControllerChange (s : Watcher) : Watcher :=
  if applying s then emit s [o_reload] else s.

Definition start (s : Watcher) : Watcher :=
  if started s then s
  else
    let s := set_started s true in
    let s := match waiting s, installing s with
             | Some _, _ => offerIfSuperseding s
             | None, Some _ => watchInstalling s
             | None, None => s
             end in
    set_timer s true.

Definition stop (s : Watcher) : Watcher :=
  if started s then set_timer (unwatch (set_started s false)) false else s.

Definition checkNow (s : Watcher) : Watcher := emit s [o_update].

Definition applyUpdate (s : Watcher) : Watcher :=
  match waiting s with
  | Some w =>
      if bool_decide (status s = available)
      then emit (setStatus applying_ (set_applying s true)) [o_skip_waiting w]
      else s
  | None => s
  end.

Definition subscribe (l : nat) (s : Watcher) : Watcher :=
  set_listeners s (if existsb (Nat.eqb l) (listeners s) then listeners s else listeners s ++ [l]).

(** What can happen.  The registration and container listeners are on exactly
    while the watcher is started. *)
Inductive Event :=
| e_start | e_stop | e_applyUpdate | e_checkNow | e_poll
| e_subscribe (l : nat)
| e_updatefound                                  (* a new worker starts installing *)
| e_worker (i : nat) (st : WorkerState) (wait inst : option nat)  (* a worker moves on, and the slots with it *)
| e_controllerchange.

#[export] Instance Event_eq_dec : EqDecision Event.
Proof. solve_decision. Defined.

Definition step (e : Event) (s : Watcher) : option Watcher :=
  match e with
  | e_start => Some (start s)
  | e_stop => Some (stop s)
  | e_applyUpdate => Some (applyUpdate s)
  | e_checkNow => Some (checkNow s)
  | e_poll => if timer s then Some (checkNow s) else None
  | e_subscribe l => Some (subscribe l s)
  | e_updatefound =>
      let s := browser s (workers s ++ [{| wk_state := installing_; wk_listened := false |}])
                 (waiting s) (Some (List.length (workers s))) (controller s) in
      Some (if started s then onUpdateFound s else s)
  | e_worker i st wait inst =>
      match workers s !! i with
      | Some w =>
          let s := browser s (<[i := {| wk_state := st; wk_listened := wk_listened w |}]> (workers s))
                     wait inst (controller s) in
          Some (if wk_listened w then onInstalledStateChange s else s)
      | None => None
      end
  | e_controllerchange =>
      let s := browser s (workers s) (waiting s) (installing s) true in
      Some (if started s then onControllerChange s else s)
  end.

Fixpoint run (es : list Event) (s : Watcher) : option Watcher :=
  match es with
  | [] => Some s
  | e :: es' => match step e s with Some s' => run es' s' | None => None end
  end.

(** ** Invariants *)

Definition is_post (o : Output) : bool := match o with o_skip_waiting _ => true | _ => false end.
Definition is_reload (o : Output) : bool := match o with o_reload => true | _ => false end.

(** A reload is in the log only after a hand-over was. *)
Fixpoint reload_after_post (posted : bool) (os : list Output) : bool :=
  match os with
  | [] => true
  | o :: os' => (negb (is_reload o) || posted) && reload_after_post (posted || is_post o) os'
  end.

Lemma reload_after_post_app p l k :
  reload_after_post p (l ++ k) =
  reload_after_post p l && reload_after_post (p || existsb is_post l) k.
Proof.
  revert p. induction l as [|o l IH]; intros p; simpl; [by rewrite orb_false_r|].
  by rewrite IH, <- andb_assoc, orb_assoc.
Qed.

Definition quiet (os : list Output) : Prop :=
  forallb (fun o => negb (is_post o || is_reload o)) os = true.

Lemma quiet_posts os : quiet os -> existsb is_post os = false /\ forall p, reload_after_post p os = true.
Proof.
  unfold quiet. induction os as [|o os IH]; simpl; [auto|].
  intros [Ho%negb_true_iff Hos]%andb_prop. apply orb_false_elim in Ho as [H1 H2].
  destruct (IH Hos) as [E H]. rewrite H1, H2, E. split; [done|]. intros p. simpl. by rewrite orb_false_r.
Qed.

(** What every private helper leaves alone, and what it says. *)
Record tame (s s' : Watcher) : Prop := {
  tm_applying : applying s' = applying s;
  tm_controller : controller s' = controller s;
  tm_out : exists o, out s' = out s ++ o /\ quiet o;
  tm_status : status s' = status s \/ (controller s = true /\ status s' = available)
}.

Lemma tame_refl s : tame s s.
Proof. split; try done; [|by left]. exists []. by rewrite app_nil_r. Qed.

Lemma tame_trans a b c : tame a b -> tame b c -> tame a c.
Proof.
  intros [A1 A2 (o1&A3&Q1) A4] [B1 B2 (o2&B3&Q2) B4]. split; try congruence.
  - exists (o1 ++ o2). rewrite B3, A3, app_assoc. split; [done|]. unfold quiet in *.
    by rewrite forallb_app, Q1, Q2.
  - rewrite A2 in B4. destruct A4 as [A4|A4], B4 as [B4|B4]; try tauto. left; congruence. right.
    split; [tauto|]. destruct A4. congruence.
Qed.

Lemma tame_silent s s' :
  applying s' = applying s -> controller s' = controller s -> out s' = out s -> status s' = status s ->
  tame s s'.
Proof. intros H1 H2 H3 H4. split; try done; [|by left]. exists []. by rewrite app_nil_r. Qed.

Lemma tame_listen s b i : tame s (listen s b i).
Proof. unfold listen. by destruct (workers s !! i); apply tame_silent. Qed.

Lemma tame_upd s x tm stt wat : tame s x -> tame s (upd x (status x) tm stt (applying x) wat []).
Proof.
  intros H. eapply tame_trans; [exact H|]. apply tame_silent; try done. simpl. apply app_nil_r.
Qed.

Lemma tame_unwatch s : tame s (unwatch s).
Proof. unfold unwatch. apply tame_upd. destruct (watched s); [apply tame_listen|apply tame_refl]. Qed.

Lemma quiet_status l st : quiet (map (fun l => o_status l st) l).
Proof. induction l; [done|]. unfold quiet in *. simpl. done. Qed.

Lemma tame_offer s : tame s (offerIfSuperseding s).
Proof.
  unfold offerIfSuperseding, setStatus. destruct (controller s) eqn:E; [|apply tame_refl].
  case_bool_decide; [apply tame_refl|]. split; try done; [|by right].
  eexists. split; [done|]. apply quiet_status.
Qed.

Lemma tame_watchInstalling s : tame s (watchInstalling s).
Proof.
  unfold watchInstalling. destruct (installing s) as [i|]; [|apply tame_refl].
  assert (tame s (set_watched (unwatch s) (Some i))) as H.
  { apply tame_upd, tame_unwatch. }
  case_bool_decide; (eapply tame_trans; [exact H|]); [apply tame_offer|apply tame_listen].
Qed.

Lemma tame_statechange s : tame s (onInstalledStateChange s).
Proof.
  unfold onInstalledStateChange. destruct (watched s) as [i|]; [|apply tame_refl].
  case_bool_decide; case_bool_decide; eauto using tame_refl, tame_offer, tame_unwatch, tame_trans.
Qed.

Lemma tame_start s : tame s (start s).
Proof.
  unfold start. destruct (started s); [apply tame_refl|]. apply tame_upd.
  assert (tame s (set_started s true)) by apply tame_upd, tame_refl.
  destruct (waiting (set_started s true)), (installing (set_started s true)); try done;
    (eapply tame_trans; [eassumption|]); auto using tame_offer, tame_watchInstalling.
Qed.

Lemma tame_stop s : tame s (stop s).
Proof.
  unfold stop. destruct (started s); [|apply tame_refl]. apply tame_upd.
  eapply tame_trans; [|apply tame_unwatch]. apply tame_upd, tame_refl.
Qed.

Record Inv (s : Watcher) : Prop := {
  inv_applying : applying s = existsb is_post (out s);
  inv_reload : reload_after_post false (out s) = true;
  inv_status : controller s = false -> status s = idle /\ applying s = false
}.

Lemma tame_inv s s' : tame s s' -> Inv s -> Inv s'.
Proof.
  intros [H1 H2 (o&Ho&Hq) H4] [I1 I2 I3]. apply quiet_posts in Hq as [Hq1 Hq2]. split.
  - by rewrite H1, Ho, existsb_app, Hq1, orb_false_r.
  - by rewrite Ho, reload_after_post_app, I2, Hq2.
  - rewrite H1, H2. intros Hc. destruct (I3 Hc). destruct H4 as [->|[? _]]; [done|congruence].
Qed.

Lemma tame_if (b : bool) s x y : tame s x -> tame s y -> tame s (if b then x else y).
Proof. by destruct b. Qed.

Lemma step_tame e s s' :
  step e s = Some s' -> e <> e_applyUpdate -> e <> e_controllerchange ->
  tame s s' /\ (status s' = status s \/ status s' = available).
Proof.
  intros H Ha Hc.
  assert (tame s s' -> tame s s' /\ (status s' = status s \/ status s' = available)) as Hok.
  { intros Ht. split; [done|]. destruct (tm_status _ _ Ht) as [?|[_ ?]]; auto. }
  apply Hok. clear Hok. destruct e; simpl in H; try done.
  - injection H as <-. apply tame_start.
  - injection H as <-. apply tame_stop.
  - injection H as <-. split; try done; [|by left]. by exists [o_update].
  - destruct (timer s); [|done]. injection H as <-. split; try done; [|by left]. by exists [o_update].
  - injection H as <-. by apply tame_silent.
  - injection H as <-. apply tame_if; [|by apply tame_silent].
    eapply tame_trans; [|apply tame_watchInstalling]. by apply tame_silent.
  - destruct (workers s !! i) as [w|]; [|done]. injection H as <-. apply tame_if; [|by apply tame_silent].
    eapply tame_trans; [|apply tame_statechange]. by apply tame_silent.
Qed.

Lemma constructor_safe ws wait inst ctrl : Inv (constructor ws wait inst ctrl).
Proof. by split. Qed.

Lemma step_safe e s s' : step e s = Some s' -> Inv s -> Inv s'.
Proof.
  intros H HI. destruct (decide (e = e_applyUpdate)) as [->|Ha]; [|destruct (decide (e = e_controllerchange)) as [->|Hc]].
  - injection H as <-. unfold applyUpdate. destruct (waiting s) as [w|]; [|done].
    case_bool_decide as Hs; [|done]. destruct HI as [I1 I2 I3].
    assert (controller s = true) as Hctl.
    { destruct (controller s); [done|]. destruct (I3 eq_refl). congruence. }
    unfold setStatus. simpl. rewrite bool_decide_false by congruence.
    destruct (quiet_posts _ (quiet_status (listeners s) applying_)) as [Q1 Q2].
    split; simpl; [| |congruence].
    + by rewrite !existsb_app, orb_true_r.
    + rewrite app_nil_r, !reload_after_post_app, I2, Q2. done.
  - injection H as <-. destruct HI as [I1 I2 I3]. unfold onControllerChange. simpl.
    destruct (started s); [|by split]. destruct (applying s) eqn:Ea; [|by split; simpl; rewrite ?Ea].
    split; simpl; [| |done].
    + by rewrite existsb_app, <- I1, Ea.
    + by rewrite reload_after_post_app, I2, <- I1.
  - by eapply tame_inv; [apply (step_tame e)|].
Qed.

Lemma run_inv es s s' : run es s = Some s' -> Inv s -> Inv s'.
Proof.
  revert s. induction es as [|e es IH]; simpl; intros s H HI; [congruence|].
  destruct (step e s) as [s1|] eqn:E; [|done]. eapply IH; [done|]. by eapply step_safe.
Qed.

(** The listeners the watcher has out: at most one worker's, the watched one's,
    and none once it is stopped. *)
Record Listens (s : Watcher) : Prop := {
  ls_one : forall i w, workers s !! i = Some w -> wk_listened w = true -> watched s = Some i;
  ls_stopped : started s = false -> watched s = None /\ timer s = false
}.

Lemma set_status_listens st o s : Listens s -> Listens (set_status s st o).
Proof. by intros [? ?]. Qed.

Lemma offer_listens s : Listens s -> Listens (offerIfSuperseding s).
Proof.
  intros H. unfold offerIfSuperseding, setStatus. destruct (controller s); [|done].
  case_bool_decide; [done|]. by apply set_status_listens.
Qed.

Lemma listen_lookup s b i j w :
  workers (listen s b i) !! j = Some w ->
  (j = i /\ wk_listened w = b) \/ (j <> i /\ workers s !! j = Some w).
Proof.
  unfold listen. destruct (workers s !! i) as [v|] eqn:E; simpl.
  - destruct (decide (j = i)) as [->|Hne].
    + rewrite list_lookup_insert_eq by (by eapply lookup_lt_Some). intros [= <-]. by left.
    + rewrite list_lookup_insert_ne by done. auto.
  - intros H. destruct (decide (j = i)) as [->|]; [congruence|auto].
Qed.

Lemma listen_same s b i :
  watched (listen s b i) = watched s /\ started (listen s b i) = started s /\ timer (listen s b i) = timer s /\
  installing (listen s b i) = installing s.
Proof. unfold listen. by destruct (workers s !! i). Qed.

Lemma unwatch_workers s i w :
  Listens s -> workers (unwatch s) !! i = Some w -> wk_listened w = false.
Proof.
  intros [H1 H2] Hw. unfold unwatch in Hw. simpl in Hw. destruct (wk_listened w) eqn:El; [|done]. exfalso.
  destruct (watched s) as [k|] eqn:E.
  - apply listen_lookup in Hw as [[-> ?]|[Hne Hw]]; [congruence|].
    specialize (H1 i w Hw El). congruence.
  - specialize (H1 i w Hw El). congruence.
Qed.

Lemma unwatch_same s : watched (unwatch s) = None /\ started (unwatch s) = started s /\ timer (unwatch s) = timer s.
Proof.
  unfold unwatch. simpl. destruct (watched s) as [k|]; [|done].
  destruct (listen_same s false k) as (_&->&->&_). done.
Qed.

Lemma unwatch_listens s : Listens s -> Listens (unwatch s).
Proof.
  intros H. destruct (unwatch_same s) as (E1&E2&E3). split.
  - intros i w Hw Hl. rewrite (unwatch_workers s i w H Hw) in Hl. done.
  - rewrite E1, E2, E3. intros Hs. split; [done|]. by apply H.
Qed.

Lemma watchInstalling_listens s : started s = true -> Listens s -> Listens (watchInstalling s).
Proof.
  intros Hst H. unfold watchInstalling. destruct (installing s) as [i|]; [|done].
  destruct (unwatch_same s) as (E1&E2&E3).
  assert (Listens (set_watched (unwatch s) (Some i))) as Hw.
  { split.
    - intros j w Hj Hl. rewrite (unwatch_workers s j w H Hj) in Hl. done.
    - intros Hf. change (started (unwatch s) = false) in Hf. congruence. }
  case_bool_decide; [by apply offer_listens|].
  destruct (listen_same (set_watched (unwatch s) (Some i)) true i) as (F1&F2&F3&_). split.
  - intros j w Hj Hl. rewrite F1. simpl.
    apply listen_lookup in Hj as [[-> _]|[Hne Hj]]; try done.
    simpl in Hj. rewrite (unwatch_workers s j w H Hj) in Hl. done.
  - rewrite F2. intros Hf. change (started (unwatch s) = false) in Hf. congruence.
Qed.

Lemma offer_started s : started (offerIfSuperseding s) = started s.
Proof. unfold offerIfSuperseding, setStatus. destruct (controller s); [|done]. by case_bool_decide. Qed.

Lemma watchInstalling_started s : started (watchInstalling s) = started s.
Proof.
  unfold watchInstalling. destruct (installing s) as [i|]; [|done].
  destruct (unwatch_same s) as (_&E&_).
  assert (started (set_watched (unwatch s) (Some i)) = started s) as E' by exact E.
  case_bool_decide; [by rewrite offer_started|].
  by destruct (listen_same (set_watched (unwatch s) (Some i)) true i) as (_&->&_).
Qed.

Lemma browser_listens s ws wait inst ctrl :
  (forall i w, ws !! i = Some w -> wk_listened w = true -> exists w', workers s !! i = Some w' /\ wk_listened w' = true) ->
  Listens s -> Listens (browser s ws wait inst ctrl).
Proof.
  intros Hws [H1 H2]. split; simpl; [|done]. intros i w Hw Hl.
  destruct (Hws i w Hw Hl) as (w'&?&?). by eapply H1.
Qed.

Lemma worker_lookup s i w st j v :
  workers s !! i = Some w ->
  <[i := {| wk_state := st; wk_listened := wk_listened w |}]> (workers s) !! j = Some v ->
  wk_listened v = true -> exists w', workers s !! j = Some w' /\ wk_listened w' = true.
Proof.
  intros Hi Hj Hl. destruct (decide (j = i)) as [->|Hne].
  - rewrite list_lookup_insert_eq in Hj by (by eapply lookup_lt_Some). injection Hj as <-. eauto.
  - rewrite list_lookup_insert_ne in Hj by done. eauto.
Qed.

Lemma step_listens e s s' : step e s = Some s' -> Listens s -> Listens s'.
Proof.
  intros H HL. destruct e; simpl in H.
  - injection H as <-. unfold start. destruct (started s); [done|].
    assert (Listens (set_started s true)) as HL1 by (destruct HL; by split).
    assert (forall x, started x = true -> Listens x -> Listens (set_timer x true)) as Htm.
    { intros x Hx [? ?]. split; simpl; [done|congruence]. }
    apply Htm.
    + destruct (waiting _); [by rewrite offer_started|].
      destruct (installing _); [by rewrite watchInstalling_started|done].
    + destruct (waiting _); [by apply offer_listens|].
      destruct (installing _); [by apply watchInstalling_listens|done].
  - injection H as <-. unfold stop. destruct (started s) eqn:Es; [|done].
    assert (Listens (unwatch s)) as [U1 U2] by (by apply unwatch_listens).
    destruct (unwatch_same (set_started s false)) as (E1&_). split.
    + intros i w Hw Hl.
      assert (workers (unwatch (set_started s false)) = workers (unwatch s)) as Ewk.
      { unfold unwatch, listen. simpl. destruct (watched s) as [k|]; [|done]. simpl.
        by destruct (workers s !! k). }
      change (workers (unwatch (set_started s false)) !! i = Some w) in Hw. rewrite Ewk in Hw.
      rewrite (unwatch_workers s i w HL Hw) in Hl. done.
    + intros _. split; [exact E1|done].
  - injection H as <-. unfold applyUpdate. destruct (waiting s); [|done]. case_bool_decide; [|done].
    unfold setStatus. case_bool_decide; by destruct HL.
  - injection H as <-. by destruct HL.
  - destruct (timer s); [|done]. injection H as <-. by destruct HL.
  - injection H as <-. by destruct HL.
  - injection H as <-. set (s1 := browser s _ _ _ _).
    assert (Listens s1) as HL1.
    { apply browser_listens; [|done]. intros i w Hw Hl. apply lookup_app_Some in Hw as [Hw|[_ Hw]]; [eauto|].
      apply list_lookup_singleton_Some in Hw as [_ <-]. done. }
    destruct (started s) eqn:Es; [|done]. by apply watchInstalling_listens.
  - destruct (workers s !! i) as [w|] eqn:Ew; [|done]. injection H as <-. set (s1 := browser s _ _ _ _).
    assert (Listens s1) as HL1.
    { apply browser_listens; [|done]. intros j v. by apply worker_lookup. }
    destruct (wk_listened w); [|done]. unfold onInstalledStateChange. destruct (watched s1); [|done].
    case_bool_decide; case_bool_decide; auto using offer_listens, unwatch_listens.
  - injection H as <-. unfold onControllerChange. destruct (started s), (applying s) eqn:Ea; simpl; rewrite ?Ea; by destruct HL.
Qed.

Lemma run_listens es s s' : run es s = Some s' -> Listens s -> Listens s'.
Proof.
  revert s. induction es as [|e es IH]; simpl; intros s H HI; [congruence|].
  destruct (step e s) as [s1|] eqn:E; [|done]. eapply IH; [done|]. by eapply step_listens.
Qed.

Lemma constructor_listens ws wait inst ctrl : Listens (constructor ws wait inst ctrl).
Proof.
  split; simpl; [|done]. intros i w Hw Hl. apply list_lookup_fmap_Some in Hw as (st&->&_). done.
Qed.

(** ** Properties *)

(** C17. The page is never reloaded behind the operator's back: in every run, a
    reload follows a hand-over message that [applyUpdate] sent, and a page that
    no worker controls (a first install) is offered nothing, sends nothing and
    is not reloaded. *)
Theorem reload_only_after_apply (ws : list WorkerState) (wait inst : option nat) (ctrl : bool)
  (es : list Event) (s : Watcher)
  (Hrun : run es (constructor ws wait inst ctrl) = Some s) :
  reload_after_post false (out s) = true /\
  (applying s = true <-> exists w, In (o_skip_waiting w) (out s)) /\
  (controller s = false -> status s = idle /\ existsb is_post (out s) = false).
Proof.
  destruct (run_inv es _ s Hrun (constructor_safe ws wait inst ctrl)) as [I1 I2 I3].
  split; [done|]. split.
  - rewrite I1, existsb_exists. split.
    + intros ([]&Hin&H); try done. eauto.
    + intros (w&Hin). by exists (o_skip_waiting w).
  - intros Hc. destruct (I3 Hc). split; [done|congruence].
Qed.

(** A stopped watcher is deaf and leaks no listener: in every run at most one
    worker carries its listener, the one being watched; and once stopped, no
    browser event (an install, a worker's progress, a change of controller)
    notifies anyone, changes the status or reloads. *)
Lemma stopped_is_deaf (ws : list WorkerState) (wait inst : option nat) (ctrl : bool)
  (es : list Event) (s s' : Watcher) (e : Event)
  (Hrun : run es (constructor ws wait inst ctrl) = Some s)
  (He : match e with e_updatefound | e_worker _ _ _ _ | e_controllerchange | e_poll => True | _ => False end)
  (Hstep : step e s = Some s') :
  (forall i w, workers s !! i = Some w -> wk_listened w = true -> watched s = Some i) /\
  (started s = false -> out s' = out s /\ status s' = status s /\ watched s' = None).
Proof.
  destruct (run_listens es _ s Hrun (constructor_listens ws wait inst ctrl)) as [L1 L2].
  split; [done|]. intros Hs. destruct (L2 Hs) as [Hw Ht]. destruct e; try done; simpl in Hstep.
  - by rewrite Ht in Hstep.
  - injection Hstep as <-. by rewrite Hs.
  - destruct (workers s !! i) as [v|] eqn:Ev; [|done]. injection Hstep as <-.
    destruct (wk_listened v) eqn:El; [|done]. specialize (L1 i v Ev El). congruence.
  - injection Hstep as <-. by rewrite Hs.
Qed.

(** ** Examples *)
Section Examples.

(** A deploy: the page is controlled, a worker installs, the operator accepts. *)
Definition deploy_run : list Event :=
  [e_start; e_subscribe 9; e_updatefound; e_worker 1 installed (Some 1%nat) None; e_applyUpdate;
   e_controllerchange].

Lemma reload_only_after_apply_witness :
  exists s, run deploy_run (constructor [activated] None None true) = Some s /\
    reload_after_post false (out s) = true.
Proof.
  destruct (run deploy_run (constructor [activated] None None true)) as [s|] eqn:E;
    [|vm_compute in E; discriminate E].
  exists s. split; [reflexivity|]. apply (reload_only_after_apply [activated] None None true deploy_run s E).
Defined.

Example deploy_run_out :
  out <$> run deploy_run (constructor [activated] None None true) =
  Some [o_status 9 available; o_status 9 applying_; o_skip_waiting 1; o_reload].
Proof. reflexivity. Qed.

Lemma stopped_is_deaf_witness :
  exists s s', run [e_start; e_updatefound; e_stop] (constructor [activated] None None true) = Some s /\
    step e_controllerchange s = Some s' /\ out s' = out s.
Proof.
  destruct (run [e_start; e_updatefound; e_stop] (constructor [activated] None None true)) as [s|] eqn:E;
    [|vm_compute in E; discriminate E].
  destruct (step e_controllerchange s) as [s'|] eqn:E'; [|vm_compute in E'; discriminate E'].
  exists s, s'. split; [reflexivity|]. split; [exact E'|].
  apply (stopped_is_deaf [activated] None None true [e_start; e_updatefound; e_stop] s s' e_controllerchange E I E').
  vm_compute in E. injection E as <-. reflexivity.
Defined.

End Examples.
