(* ===== verification/Freshness.v ===== *)
(** * Freshness: how old is what is on screen

    [features/offline/freshness.ts], the cache predicate of
    [features/offline/tile-cache.ts] and the inputs [hooks.ts] feeds it.  The
    banner reads the live stream's state and attempt counter, so its steadiness
    is a statement about [LiveStream.step]. *)
From Stdlib Require Import ZArith Bool String List Lia Floats.SpecFloat.
From stdpp Require Import base option list strings.
From S2P Require Import Prelude JsNumber JsString Format ApiTypes LiveStream.

Inductive FreshnessLevel := lvl_live | lvl_reconnecting | lvl_stale | lvl_offline.
#[export] Instance FreshnessLevel_eq_dec : EqDecision FreshnessLevel.
Proof. solve_decision. Defined.

Record Freshness := {
  fr_level : FreshnessLevel;
  fr_ageMs : option Z;
  fr_announce : bool;
  fr_title : string;
  fr_detail : string
}.

Definition STALE_AFTER_MS : Z := 30000.
Definition ATTEMPTS_BEFORE_ANNOUNCING : Z := 2.

Record FreshnessInput := {
  fi_online : bool;
  fi_connection : ConnectionState;
  fi_reconnectAttempt : Z;
  fi_lastUpdateAt : option Z;
  fi_now : Z;
  fi_staleAfterMs : Z
}.

Definition age (ms : Z) : string :=
  formatDuration (of_Z (round_Z (ndiv (of_Z ms) (of_Z 1000)) ?? 0)).

Definition computeFreshness (i : FreshnessInput) : Freshness :=
  let ageMs := match fi_lastUpdateAt i with
               | Some t => Some (Z.max 0 (fi_now i - t))
               | None => None
               end in
  let result level announce title detail :=
    {| fr_level := level; fr_ageMs := ageMs; fr_announce := announce; fr_title := title; fr_detail := detail |} in
  if negb (fi_online i) then
    result lvl_offline true "Offline — this is not the live sky"
      (match ageMs with
       | None => "This device has no network connection and nothing was received before it dropped. The map is empty because no sensor has been heard from, not because nothing is flying."
       | Some a => "This device has no network connection. Everything on screen is frozen as it was " +:+ age a +:+ " ago and will not update until the connection returns."
       end)
  else if bool_decide (fi_connection i = opened) then
    result lvl_live false "Live" "The stream is connected."
  else
    match ageMs with
    | None =>
        if fi_reconnectAttempt i <? ATTEMPTS_BEFORE_ANNOUNCING
        then result lvl_reconnecting false "Connecting" "Waiting for the first frame from the API."
        else result lvl_stale true "No data received — this screen is not a reading"
               "The console is running but has not reached the API. Nothing shown here has been measured this session."
    | Some a =>
        if a <? fi_staleAfterMs i
        then result lvl_reconnecting false "Reconnecting"
               ("The live stream dropped. The newest reading is " +:+ age a +:+ " old.")
        else result lvl_stale true "Live stream down — this screen has stopped updating"
               ("The newest reading is " +:+ age a +:+ " old. Track positions, sensor health and detection counts are all frozen at that moment, whatever the sky has done since.")
    end.

(** [useDataFreshness]: the newest of the last frame and the last health read. *)
Definition freshness_of (connection : ConnectionState) (reconnectAttempt : Z) (online : bool)
    (lastFrameAt : option Z) (dataUpdatedAt now : Z) : Freshness :=
  let newest := Z.max (lastFrameAt ?? 0) dataUpdatedAt in
  computeFreshness
    {| fi_online := online; fi_connection := connection; fi_reconnectAttempt := reconnectAttempt;
       fi_lastUpdateAt := if newest =? 0 then None else Some newest;
       fi_now := now; fi_staleAfterMs := STALE_AFTER_MS |}.

(** ** tile-cache.ts *)
Record Response := { rs_status : Z; rs_headers : string -> option string }.

Definition isCacheableTileResponse (r : Response) : bool :=
  if negb (rs_status r =? 200) then false
  else if bool_decide (rs_headers r "X-ClassG-Basemap" = Some "offline fallback") then false
  else negb (includes "no-store" (rs_headers r "Cache-Control" ?? "")).

(** ** The attempt counter *)

Definition resets_attempt (e : Event) : bool :=
  match e with e_resume _ _ | e_socket_open _ => true | _ => false end.

(** An operation that does not lower the counter or report an open stream. *)
Record climbs (s s' : LiveStream) : Prop := {
  cb_attempt : attempt s <= attempt s';
  cb_state : state s' = opened -> state s = opened
}.

Lemma climbs_refl s : climbs s s.
Proof. by split. Qed.

Lemma climbs_trans a b c : climbs a b -> climbs b c -> climbs a c.
Proof. intros [? H1] [? H2]. split; [lia|auto]. Qed.

Lemma climbs_setState st s : st <> opened -> climbs s (setState st s).
Proof.
  intros Hst. unfold setState. case_bool_decide; [apply climbs_refl|]. by split.
Qed.

Lemma clearTimer_same s : attempt (clearTimer s) = attempt s /\ state (clearTimer s) = state s.
Proof. unfold clearTimer. by destruct (timer s). Qed.

Lemma climbs_scheduleReconnect j s : climbs s (scheduleReconnect j s).
Proof.
  unfold scheduleReconnect. destruct (stopped s); [apply climbs_refl|].
  set (s1 := set_attempt s (attempt s + 1)).
  destruct (setState_spec reconnecting s1) as [o E].
  destruct (clearTimer_same (setState reconnecting s1)) as [E1 E2].
  split; simpl; rewrite ?E1, ?E2, E; simpl; [lia|done].
Qed.

Lemma climbs_open ok j s : climbs s (open ok j s).
Proof.
  unfold open. destruct (stopped s); [apply climbs_refl|].
  assert (climbs s (setState (if everConnected s then reconnecting else connecting) s)) as H.
  { apply climbs_setState. by destruct (everConnected s). }
  destruct ok; (eapply climbs_trans; [exact H|]); [by split|apply climbs_scheduleReconnect].
Qed.

(** The two fields untouched. *)
Ltac same_climbs := solve [split; simpl; [lia|auto]].

Lemma step_climbs e s s' : step e s = Some s' -> resets_attempt e = false -> climbs s s'.
Proof.
  intros H He. destruct e; try discriminate He; simpl in H.
  - injection H as <-. eapply climbs_trans; [|apply climbs_open]. same_climbs.
  - injection H as <-. unfold close.
    destruct (clearTimer_same (set_stopped s true)) as [E1 E2].
    assert (forall x, attempt x = attempt s -> climbs s (setState closed x)) as Hx.
    { intros x Hx. destruct (setState_spec closed x) as [o ->]. split; simpl; [lia|done]. }
    apply Hx. destruct (socket _) as [i|]; [|done]. simpl. unfold socket_close, detach.
    destruct (sockets (clearTimer _) !! i); [|by destruct (sockets (clearTimer _) !! i) as [[[] ?]|]].
    simpl. by destruct (<[_ := _]> _ !! i) as [[[] ?]|].
  - injection H as <-. unfold send. destruct (socket s), (socketReady s) as [[]|]; same_climbs.
  - injection H as <-. destruct op; same_climbs.
  - destruct (sockets s !! i) as [[[] []]|]; try discriminate; injection H as <-; try same_climbs.
    destruct data as [|[[]|]]; try same_climbs.
    unfold onmessage, send. destruct (socket s), (socketReady s) as [[]|]; same_climbs.
  - destruct (sockets s !! i) as [[[] ?]|]; try discriminate; injection H as <-; same_climbs.
  - destruct (sockets s !! i) as [[[] ?]|]; try discriminate; injection H as <-; same_climbs.
  - destruct (sockets s !! i) as [[[] []]|]; try discriminate; injection H as <-; try (same_climbs);
      (eapply climbs_trans; [|apply climbs_scheduleReconnect]; same_climbs).
  - destruct (existsb _ _); [|done]. injection H as <-.
    eapply climbs_trans; [|apply climbs_open]. same_climbs.
Qed.

(** ** Properties *)

(** The console never presents old data as current: it says live only over an
    open stream on a connected device; over a dropped one it stays quiet only
    while the newest reading is younger than the stale limit; everything else
    is announced, and being offline always is. *)
Lemma never_stale_in_silence (i : FreshnessInput) :
  let f := computeFreshness i in
  (fr_level f = lvl_live <-> fi_online i = true /\ fi_connection i = opened) /\
  (fr_announce f = false <->
     fr_level f = lvl_live \/
     (fi_online i = true /\ fi_connection i <> opened /\
      ((exists t, fi_lastUpdateAt i = Some t /\ Z.max 0 (fi_now i - t) < fi_staleAfterMs i) \/
       (fi_lastUpdateAt i = None /\ fi_reconnectAttempt i < ATTEMPTS_BEFORE_ANNOUNCING)))) /\
  (fi_online i = false -> fr_level f = lvl_offline /\ fr_announce f = true).
Proof.
  unfold computeFreshness. destruct (fi_online i); cbn [negb].
  - case_bool_decide as Ho; [simpl; intuition congruence|].
    destruct (fi_lastUpdateAt i) as [t|] eqn:Et.
    + destruct (Z.ltb_spec (Z.max 0 (fi_now i - t)) (fi_staleAfterMs i)); simpl;
        (split; [intuition congruence|split; [|done]]).
      * split; [|done]. intros _. right. split; [done|]. split; [done|]. left. by exists t.
      * split; [done|]. intros [?|(_&_&[(t'&[= <-]&?)|[? _]])]; [done|lia|done].
    + destruct (Z.ltb_spec (fi_reconnectAttempt i) ATTEMPTS_BEFORE_ANNOUNCING); simpl;
        (split; [intuition congruence|split; [|done]]).
      * split; [|done]. intros _. right. split; [done|]. split; [done|]. by right.
      * split; [done|]. intros [?|(_&_&[(t'&?&_)|[_ ?]])]; [done|done|lia].
  - simpl. intuition congruence.
Qed.

(** Of a console that has received nothing: the banner is up exactly from the
    second failed attempt it knows of. *)
Lemma nothing_received connection n now :
  fr_announce (freshness_of connection n true None 0 now) = true <->
  connection <> opened /\ ATTEMPTS_BEFORE_ANNOUNCING <= n.
Proof.
  unfold freshness_of, computeFreshness. cbn. case_bool_decide as Ho; [by subst; intuition|].
  destruct (Z.ltb_spec n ATTEMPTS_BEFORE_ANNOUNCING); cbn;
    (split; [intros Hup|intros [_ Hn]]); first [done|split; [done|lia]|lia].
Qed.

(** ** Examples *)

Example empty_tile : isCacheableTileResponse
  {| rs_status := 200; rs_headers := fun h => if h === "Cache-Control" then Some "no-store" else None |} = false.
Proof. reflexivity. Qed.

