(* ===== verification/LiveConsole.v ===== *)
(** * LiveConsole: the stream bound to the console

    [app/live-provider.tsx]: the effect that owns a [LiveStream], feeds its
    frames to the cache reducer and the session log, refetches on every
    connection and publishes what the pages read.  First the stream by itself:
    once the network is back it is open again after at most two of the events the
    browser owes it, and three more for each socket then in its closing handshake; then the effect, composed of the parts as modelled. *)
From Stdlib Require Import ZArith Bool String Ascii List Lia.
From stdpp Require Import base option list strings gmap.
From S2P Require Import Prelude JsNumber JsString ApiTypes LiveFrames LogStore LogBridge Freshness LiveStream.

(** ** Recovery

    What may happen once the network is back and the page keeps the stream: the
    factory does not throw, a socket that can call back is not lost, and one that
    was already closing closes.  The page may resume whenever it likes. *)
Definition recovered (s : LiveStream) (e : Event) : Prop :=
  match e with
  | e_connect _ _ | e_close => False
  | e_resume ok _ | e_timer _ ok _ => ok = true
  | e_socket_closing i => ~ attached s i
  | e_socket_close i _ => attached s i -> readyState <$> sockets s !! i = Some CLOSING
  | _ => True
  end.

(** A socket that can still call back, as a test. *)
Definition attached_b (s : LiveStream) (i : nat) : bool :=
  match sockets s !! i with Some w => live_socket w | None => false end.

Lemma attached_b_true s i : attached_b s i = true <-> attached s i.
Proof.
  unfold attached_b, attached, live_socket. destruct (sockets s !! i) as [w|]; [|split; [done|by intros (?&?&_)]].
  rewrite andb_true_iff, negb_true_iff, bool_decide_eq_false. split; [intros [? ?]; eauto|].
  by intros (w'&[= ->]&?&?).
Qed.

(** The events the browser owes: a pending timer fires, the current socket
    opens, a socket in its closing handshake finishes it. *)
Definition owed (s : LiveStream) (e : Event) : bool :=
  match e with
  | e_timer h _ _ => existsb (Nat.eqb h) (timers s)
  | e_socket_open i => bool_decide (socket s = Some i)
  | e_socket_close i _ => attached_b s i
  | _ => false
  end.

Fixpoint owed_count (es : list Event) (s : LiveStream) : nat :=
  match es with
  | [] => 0
  | e :: es' =>
      (if owed s e then 1 else 0) +
      match step e s with Some s' => owed_count es' s' | None => 0 end
  end%nat.

(** The sockets in their closing handshake that can still call back: each may
    take the stream's socket from it when it closes. *)
Definition is_closing (w : WebSocket) : bool := handlers w && bool_decide (readyState w = CLOSING).
Definition closing_count (s : LiveStream) : nat := List.length (List.filter is_closing (sockets s)).

(** A bound on how many owed events are left until the stream is open for good. *)
Definition distance (s : LiveStream) : nat :=
  (3 * closing_count s +
   match socketReady s with
   | Some OPEN => 0
   | Some CONNECTING => 1
   | None => 2
   | Some (CLOSING | CLOSED) => match timer s with Some _ => 2 | None => 1 end
   end)%nat.

Lemma open_true j s :
  stopped s = false ->
  socketReady (open true j s) = Some CONNECTING /\ stopped (open true j s) = false /\ state (open true j s) <> closed.
Proof.
  intros Hst. unfold open. rewrite Hst.
  destruct (setState_spec (if everConnected s then reconnecting else connecting) s) as [o ->].
  unfold socketReady. simpl. rewrite list_lookup_middle by done. split_and!; [done|done|by destruct (everConnected s)].
Qed.

Lemma scheduleReconnect_waits j s :
  stopped s = false -> socket s = None ->
  socketReady (scheduleReconnect j s) = None /\ stopped (scheduleReconnect j s) = false /\
  state (scheduleReconnect j s) <> closed.
Proof.
  intros Hst Hs. unfold scheduleReconnect. rewrite Hst.
  destruct (setState_spec reconnecting (set_attempt s (attempt s + 1))) as [o ->].
  set (x := emit _ _). assert (clearTimer x = x \/ exists t o', clearTimer x = set_timer (browser x (sockets x) t (next_handle x) o') None) as [->|(t&o'&->)].
  { unfold clearTimer. destruct (timer x); [right; eauto|by left]. }
  all: unfold socketReady; simpl; by rewrite Hs.
Qed.

(** A stream that was not closed, in any driven run. *)
Record Going (n : nat) (s : LiveStream) : Prop := {
  gg_runs : Runs n s;
  gg_on : stopped s = false;
  gg_busy : state s <> closed
}.

Lemma closing_put s i w r :
  sockets s !! i = Some w ->
  (closing_count (put_ready i w r s) + (if is_closing w then 1 else 0) =
   closing_count s + (if handlers w && bool_decide (r = CLOSING) then 1 else 0))%nat.
Proof. intros Hi. unfold closing_count. simpl. by rewrite (filter_insert_length is_closing _ _ _ _ Hi). Qed.

Lemma open_true_distance j s :
  stopped s = false -> distance (open true j s) = (3 * closing_count s + 1)%nat.
Proof.
  intros Hst. unfold distance. destruct (open_true j s Hst) as (-> & _ & _).
  unfold open. rewrite Hst.
  destruct (setState_spec (if everConnected s then reconnecting else connecting) s) as [o ->].
  unfold closing_count. simpl. rewrite List.filter_app, length_app. simpl. lia.
Qed.

Lemma schedule_sockets j s : sockets (scheduleReconnect j s) = sockets s.
Proof.
  unfold scheduleReconnect. destruct (stopped s); [done|].
  destruct (setState_spec reconnecting (set_attempt s (attempt s + 1))) as [o ->].
  unfold clearTimer. by destruct (timer _).
Qed.

Lemma same_core_distance s s' : same_core s s' -> distance s' = distance s.
Proof.
  intros Hc. unfold distance, closing_count. rewrite (same_core_ready _ _ Hc). by destruct Hc as [_ -> _ _ _ -> _ _].
Qed.

Lemma same_core_going n s s' : same_core s s' -> Going n s -> Going n s'.
Proof. intros Hc [HR H1 H2]. split; [by eapply same_core_runs| |]; destruct Hc; congruence. Qed.

(** What the stream holds after another socket, or its own, has moved on. *)
Lemma ready_put n s i w r :
  Runs n s -> sockets s !! i = Some w -> attached s i ->
  socketReady (put_ready i w r s) = if decide (socket s = Some i) then Some r else socketReady s.
Proof.
  intros HR Hi _. unfold socketReady. simpl. case_decide as Hd.
  - rewrite Hd, list_lookup_insert_eq; [done|]. by eapply lookup_lt_Some.
  - destruct (socket s) as [k|]; [|done]. rewrite list_lookup_insert_ne; [done|]. congruence.
Qed.

Lemma ready_put_detached n s i w r :
  Runs n s -> sockets s !! i = Some w -> handlers w = false ->
  socketReady (put_ready i w r s) = socketReady s /\ closing_count (put_ready i w r s) = closing_count s.
Proof.
  intros HR Hi Hh. split.
  - unfold socketReady. simpl. destruct (socket s) as [k|] eqn:E; [|done].
    destruct (decide (k = i)) as [->|]; [|by rewrite list_lookup_insert_ne].
    exfalso. apply (run_socket _ _ HR) in E as (v&Hv&?&?). congruence.
  - pose proof (closing_put s i w r Hi) as H. unfold is_closing in H. rewrite Hh in H. simpl in H.
    unfold closing_count in *. simpl in *. lia.
Qed.

Definition nearer (s : LiveStream) (e : Event) (s' : LiveStream) : Prop :=
  stopped s' = false /\ state s' <> closed /\ (distance s' <= distance s)%nat /\
  (owed s e = true -> 0 < distance s -> distance s' < distance s)%nat.

Lemma detached_nearer n e s i w r :
  Going n s -> sockets s !! i = Some w -> handlers w = false -> owed s e = false -> nearer s e (put_ready i w r s).
Proof.
  intros [HR Hon Hb] Hi Hh Ho. destruct (ready_put_detached n s i w r HR Hi Hh) as [H1 H2].
  split; [done|]. split; [done|]. rewrite Ho. split; [|done].
  unfold distance, closing_count in *. simpl in *. rewrite H1, H2. lia.
Qed.

Lemma open_nearer n s i :
  Going n s -> sockets s !! i = Some {| readyState := CONNECTING; handlers := true |} ->
  nearer s (e_socket_open i) (onopen (put_ready i {| readyState := CONNECTING; handlers := true |} OPEN s)).
Proof.
  intros [HR Hon Hb] Hi. set (w := {| readyState := CONNECTING; handlers := true |}) in *. set (x := put_ready i w OPEN s).
  assert (attached s i) as Hat by (by exists w).
  assert (exists y, same_core y (onopen x) /\ sockets y = sockets x /\ socket y = socket s /\ timer y = timer s /\
    stopped y = false /\ state y = opened) as (y & Hc & E1 & E2 & E3 & E4 & E5).
  { unfold onopen. destruct (setState_spec opened (set_attempt (set_ever x true) 0)) as [o ->].
    set (y := emit _ o). pose proof (same_core_send (SubscribeMessage (topics y)) y) as Hc.
    exists y. split; [|done]. destruct Hc; by split. }
  split; [destruct Hc; congruence|]. split; [destruct Hc; congruence|]. rewrite (same_core_distance _ _ Hc).
  pose proof (closing_put s i w OPEN Hi) as Hcc. fold x in Hcc.
  change (is_closing w) with false in Hcc. rewrite andb_false_r, !Nat.add_0_r in Hcc.
  assert (distance y = 3 * closing_count x + match socketReady x with
    Some OPEN => 0 | Some CONNECTING => 1 | None => 2 | Some (CLOSING | CLOSED) => match timer s with Some _ => 2 | None => 1 end end)%nat as ->.
  { unfold distance, closing_count, socketReady. rewrite E1, E2, E3. done. }
  unfold x at 2 4. rewrite (ready_put n) by done. unfold distance.
  rewrite Hcc. case_decide as Hd.
  - assert (socketReady s = Some CONNECTING) as -> by (unfold socketReady; by rewrite Hd, Hi). split; [lia|]. intros _. lia.
  - split; [lia|]. cbn [owed]. by rewrite bool_decide_false.
Qed.

Lemma close_nearer n j s i w :
  Going n s -> sockets s !! i = Some w -> handlers w = true -> readyState w = CLOSING ->
  nearer s (e_socket_close i j) (onclose j (put_ready i w CLOSED s)).
Proof.
  intros [HR Hon Hb] Hi Hh Hw. unfold onclose. set (x := set_socket (put_ready i w CLOSED s) None).
  destruct (scheduleReconnect_waits j x Hon eq_refl) as (H1 & H2 & H3).
  split; [done|]. split; [done|]. 
  assert (distance (scheduleReconnect j x) = 3 * closing_count (put_ready i w CLOSED s) + 2)%nat as ->.
  { unfold distance, closing_count. by rewrite H1, schedule_sockets. }
  assert (closing_count (put_ready i w CLOSED s) + 1 = closing_count s)%nat as Hcc.
  { pose proof (closing_put s i w CLOSED Hi) as Hcc. unfold is_closing in Hcc. rewrite Hh, (bool_decide_true _ Hw) in Hcc.
    change (true && true) with true in Hcc. change (true && bool_decide (CLOSED = CLOSING)) with false in Hcc.
    cbv iota in Hcc. lia. }
  assert (3 * closing_count s <= distance s)%nat by (unfold distance; apply Nat.le_add_r).
  split; [lia|]. intros _ _. lia.
Qed.

Lemma resume_nearer n j s : Going n s -> nearer s (e_resume true j) (resume true j s).
Proof.
  intros [HR Hon Hb]. unfold resume. rewrite Hon.
  assert (nearer s (e_resume true j) s) as Hs by (split_and!; done).
  set (x := set_attempt (clearTimer s) 0). assert (stopped x = false) as Hx by (unfold x, clearTimer; by destruct (timer s)).
  assert (closing_count x = closing_count s) as Hcc by (unfold x, clearTimer; by destruct (timer s)).
  assert (socketReady s <> Some OPEN -> socketReady s <> Some CONNECTING -> nearer s (e_resume true j) (open true j x)) as Hopen.
  { intros H1 H2. destruct (open_true j x Hx) as (_ & ? & ?). split; [done|]. split; [done|].
    rewrite (open_true_distance j x Hx), Hcc. split; [|done]. unfold distance.
    destruct (socketReady s) as [[]|]; try done; destruct (timer s); lia. }
  destruct (socketReady s) as [[]|] eqn:Er; try exact Hs; apply Hopen; congruence.
Qed.

Lemma timer_nearer n h j s s' :
  Going n s -> step (e_timer h true j) s = Some s' -> nearer s (e_timer h true j) s'.
Proof.
  intros [HR Hon Hb]. cbn [step]. destruct (existsb (Nat.eqb h) (timers s)) eqn:E; [|done]. intros [= <-]. unfold onTimer.
  match goal with |- nearer _ _ (open true j ?x) => destruct (open_true j x Hon) as (_ & H2 & H3) end.
  split; [done|]. split; [done|]. rewrite open_true_distance by done.
  assert (timer s <> None) as Ht by (intros Ht; rewrite (tk_timers _ (run_timers _ _ HR)), Ht in E; done).
  unfold distance. change (closing_count (set_timer _ None)) with (closing_count s).
  destruct (run_timer _ _ HR Ht) as [-> | ->]; destruct (timer s); try done; split; lia.
Qed.

(** One event after recovery: the stream goes on, never further from open, and
    an owed event brings it nearer. *)
Lemma step_nearer n e s s' :
  Going n s -> recovered s e -> step e s = Some s' ->
  Going (n + if meets_closing s e then 1 else 0) s' /\ nearer s e s'.
Proof.
  intros HG Hr Hstep. pose proof HG as [HR Hon Hb].
  cut (nearer s e s').
  { intros Hn. split; [|done]. split; [|apply Hn..]. eapply runs_step; [done| |done]. by destruct e. }
  assert (same_core s s' -> owed s e = false -> nearer s e s') as Hsame.
  { intros Hc Ho. unfold nearer. rewrite Ho, (same_core_distance _ _ Hc). destruct Hc. split_and!; congruence || lia || done. }
  destruct e as [ok j| |ok j|f|op l|i|i d|i|i|i j|h ok j]; simpl in Hr; try done.
  - subst ok. injection Hstep as <-. by eapply resume_nearer.
  - injection Hstep as <-. apply Hsame; [apply same_core_send|done].
  - injection Hstep as <-. apply Hsame; [apply same_core_listen|done].
  - cbn in Hstep. destruct (sockets s !! i) as [[[] []]|] eqn:E; try discriminate; injection Hstep as <-;
      [by eapply open_nearer|].
    eapply detached_nearer; [done..|]. cbn. apply bool_decide_eq_false. intros Hs.
    apply (run_socket _ _ HR) in Hs as (w&Hw&Hh&_). rewrite E in Hw. by simplify_eq.
  - cbn in Hstep. destruct (sockets s !! i) as [[[] []]|] eqn:E; try discriminate; injection Hstep as <-;
      apply Hsame; try done. apply same_core_message.
  - cbn in Hstep. destruct (sockets s !! i) as [[[] ?]|] eqn:E; try discriminate; injection Hstep as <-; by apply Hsame.
  - cbn in Hstep. destruct (sockets s !! i) as [[r []]|] eqn:E; [| |done].
    + exfalso. destruct r; try discriminate; apply Hr; eexists; by rewrite E.
    + destruct r; try discriminate; injection Hstep as <-; by eapply detached_nearer.
  - cbn in Hstep. destruct (sockets s !! i) as [[r []]|] eqn:E; [| |done].
    + assert (r <> CLOSED) as Hnc by (by intros ->).
      assert (r = CLOSING) as ->.
      { assert (attached s i) as Hat by (by eexists). apply Hr in Hat. cbn in Hat. by simplify_eq. }
      injection Hstep as <-. by eapply close_nearer.
    + assert (s' = put_ready i {| readyState := r; handlers := false |} CLOSED s) as -> by (by destruct r; simplify_eq).
      eapply detached_nearer; [done..|]. cbn. unfold attached_b. by rewrite E.
  - subst ok. by eapply timer_nearer.
Qed.

(** A stream that is not open waits for something the browser owes it. *)
Lemma going_waits n s :
  Going n s -> socketReady s <> Some OPEN -> exists e s', owed s e = true /\ recovered s e /\ step e s = Some s'.
Proof.
  intros [HR Hon Hb] Hno. destruct (socket s) as [i|] eqn:Es.
  - pose proof Es as (w&Hw&Hh&Hc)%(run_socket _ _ HR).
    pose proof (ready_of _ _ _ Es Hw) as Hr. destruct w as [r h]; cbn in *. subst h. destruct r; try done.
    + exists (e_socket_open i). eexists. cbn. rewrite Hw. split_and!; [by rewrite bool_decide_true|done|done].
    + exists (e_socket_close i (of_Z 0)). eexists. cbn. unfold attached_b. rewrite Hw. split_and!; [done|done|done].
  - destruct (run_busy _ _ HR Hon Hb) as [?|Ht]; [congruence|]. destruct (timer s) as [h|] eqn:Et; [|done].
    exists (e_timer h true (of_Z 0)). eexists. cbn.
    rewrite (tk_timers _ (run_timers _ _ HR)), Et. cbn. rewrite Nat.eqb_refl. done.
Qed.

Lemma distance_zero s : distance s = 0%nat -> socketReady s = Some OPEN.
Proof. unfold distance. destruct (socketReady s) as [[]|], (timer s); simpl; try lia; done. Qed.

Lemma run_nearer es n s s' :
  Going n s -> run_ok recovered es s -> run es s = Some s' ->
  (exists m, Going m s') /\ (distance s' + owed_count es s <= distance s \/ distance s' = 0)%nat.
Proof.
  revert n s. induction es as [|e es IH]; cbn [run run_ok owed_count]; intros n s HK Hok Hrun.
  - simplify_eq. split; [eauto|]. left. lia.
  - destruct Hok as [Hr Hok]. destruct (step e s) as [s1|] eqn:E; [|done].
    destruct (step_nearer n e s s1 HK Hr E) as (HK1 & _ & _ & Hle & Hlt). destruct (IH _ s1 HK1 Hok Hrun) as [HK' Hd].
    split; [done|]. destruct (owed s e); [|lia]. destruct (decide (distance s = 0%nat)) as [Hz|]; [|lia].
    right. lia.
Qed.

(** C5. The console always comes back.  From any state a driven stream can be in,
    resumes in the middle of a closing handshake included, short of having been
    closed: once the network is back it is open after at most two of the events
    the browser owes it (the retry timer fires, the new socket opens), and three
    more for each socket then in its closing handshake (each may still take the
    stream's socket with it), whatever frames, messages and resumes come in
    between, and it stays open; and until it is, one of those events is always
    due, so it never waits for nothing. *)
Theorem reconnects_after_recovery (o : LiveStreamOptions) (n : nat) (s s' : LiveStream) (es : list Event)
  (Hr : drives o n s) (Hon : stopped s = false) (Hbusy : state s <> closed)
  (Hok : run_ok recovered es s) (Hrun : run es s = Some s') :
  ((socketReady s' = Some OPEN /\ state s' = opened) \/
   exists e s'', owed s' e = true /\ recovered s' e /\ step e s' = Some s'') /\
  ((2 + 3 * closing_count s <= owed_count es s)%nat -> socketReady s' = Some OPEN /\ state s' = opened).
Proof.
  assert (Going n s) as HG by (split; [by eapply drives_runs|done|done]).
  destruct (run_nearer es n s s' HG Hok Hrun) as [[m HG'] Hd].
  assert (socketReady s' = Some OPEN -> socketReady s' = Some OPEN /\ state s' = opened) as Ho.
  { intros H. split; [done|]. by apply (run_ready _ _ (gg_runs _ _ HG')). }
  split.
  - destruct (decide (socketReady s' = Some OPEN)) as [|Hno]; [left; auto|right]. by eapply going_waits.
  - intros H3. apply Ho, distance_zero.
    assert (distance s <= 2 + 3 * closing_count s)%nat; [|lia].
    unfold distance. destruct (socketReady s) as [[]|], (timer s); lia.
Qed.

(** A stream that is kept: on, and at work; no resume has met a closing socket. *)
Record Kept (s : LiveStream) : Prop := {
  kp_inv : Inv s;
  kp_on : stopped s = false;
  kp_busy : state s <> closed
}.

Lemma core_kept s s' : same_core s s' -> Kept s -> Kept s'.
Proof. intros Hc [HI H1 H2]. split; [by eapply same_core_inv| |]; destruct Hc; congruence. Qed.

(** ** The provider's effect *)

Definition connection_string (st : ConnectionState) : string :=
  match st with connecting => "connecting" | opened => "open" | reconnecting => "reconnecting" | closed => "closed" end.

Section Provider.
Context {C : Type} `{Q : QueryClient C}.

(** What the provider holds: its stream while the effect runs, the cache, the
    frame logger and the lines written, and the state the pages read. *)
Record Console := {
  cn_stream : LiveStream;
  cn_mounted : bool;
  cn_cache : C;
  cn_logger : Logger;
  cn_lines : list LogInput;
  cn_announced : bool;
  cn_connection : ConnectionState;
  cn_lastFrameAt : option Z;
  cn_reconnectAttempt : Z
}.

Definition with_stream (s : LiveStream) (cn : Console) : Console :=
  {| cn_stream := s; cn_mounted := cn_mounted cn; cn_cache := cn_cache cn; cn_logger := cn_logger cn;
     cn_lines := cn_lines cn; cn_announced := cn_announced cn; cn_connection := cn_connection cn;
     cn_lastFrameAt := cn_lastFrameAt cn; cn_reconnectAttempt := cn_reconnectAttempt cn |}.

(** The three listeners. *)
Definition on_state (st : ConnectionState) (attempt : Z) (cn : Console) : Console :=
  {| cn_stream := cn_stream cn; cn_mounted := cn_mounted cn; cn_cache := cn_cache cn; cn_logger := cn_logger cn;
     cn_lines := cn_lines cn ++ logConnection (connection_string st) attempt; cn_announced := cn_announced cn;
     cn_connection := st; cn_lastFrameAt := cn_lastFrameAt cn; cn_reconnectAttempt := attempt |}.

Definition refetch (c : C) : C :=
  invalidateQueries (invalidateQueries (invalidateQueries c [seg "tracks"]) [seg "detections"]) queryKeys.health.
Definition on_connect (cn : Console) : Console :=
  {| cn_stream := cn_stream cn; cn_mounted := cn_mounted cn; cn_cache := refetch (cn_cache cn);
     cn_logger := cn_logger cn; cn_lines := cn_lines cn; cn_announced := cn_announced cn;
     cn_connection := cn_connection cn; cn_lastFrameAt := cn_lastFrameAt cn;
     cn_reconnectAttempt := cn_reconnectAttempt cn |}.

(** The reducer may throw; the line after it is then not reached. *)
Definition on_frame (now : Z) (frame : ServerFrame) (cn : Console) : Console :=
  let '(logger, lines) :=
    if applyFrame_returns (cn_cache cn) frame
    then let '(logger, lines, _) := frameLogger frame (cn_logger cn) in (logger, lines)
    else (cn_logger cn, []) in
  {| cn_stream := cn_stream cn; cn_mounted := cn_mounted cn; cn_cache := applyFrame (cn_cache cn) frame;
     cn_logger := logger; cn_lines := cn_lines cn ++ lines; cn_announced := cn_announced cn;
     cn_connection := cn_connection cn; cn_lastFrameAt := Some now;
     cn_reconnectAttempt := cn_reconnectAttempt cn |}.

Definition hear (now : Z) (cn : Console) (o : Output) : Console :=
  match o with
  | o_state _ st attempt => on_state st attempt cn
  | o_connect _ _ => on_connect cn
  | o_frame _ frame => on_frame now frame cn
  | _ => cn
  end.

(** The stream moves to [s], and what it said on the way is heard. *)
Definition advance (now : Z) (s : LiveStream) (cn : Console) : Console :=
  fold_left (hear now) (drop (List.length (out (cn_stream cn))) (out s)) (with_stream s cn).

Definition subscribed (url : string) : LiveStream :=
  onFrame 0 (onConnect 0 (onStateChange 0
    (constructor {| op_url := url; op_topics := None; op_baseDelayMs := None; op_maxDelayMs := None |}))).

(** The effect runs: a new stream, its listeners, the session's first line, [connect]. *)
Definition mount (url : string) (ok : bool) (jitter : num) (now : Z) (cn : Console) : Console :=
  let s := subscribed url in
  let '(announced, lines) := logSessionStart (cn_announced cn) in
  advance now (connect ok jitter s)
    {| cn_stream := s; cn_mounted := true; cn_cache := cn_cache cn; cn_logger := new_logger;
       cn_lines := cn_lines cn ++ lines; cn_announced := announced; cn_connection := cn_connection cn;
       cn_lastFrameAt := cn_lastFrameAt cn; cn_reconnectAttempt := cn_reconnectAttempt cn |}.

(** [resume]: the page became visible, came online or was shown again. *)
Definition resumed (visible ok : bool) (jitter : num) (now : Z) (cn : Console) : Console :=
  if visible then advance now (resume ok jitter (cn_stream cn)) cn else cn.

(** The cleanup: the listeners go before the stream is closed. *)
Definition unmount (now : Z) (cn : Console) : Console :=
  let s := close (offFrame 0 (offConnect 0 (offStateChange 0 (cn_stream cn)))) in
  let cn := advance now s cn in
  {| cn_stream := cn_stream cn; cn_mounted := false; cn_cache := cn_cache cn; cn_logger := cn_logger cn;
     cn_lines := cn_lines cn; cn_announced := cn_announced cn; cn_connection := cn_connection cn;
     cn_lastFrameAt := cn_lastFrameAt cn; cn_reconnectAttempt := cn_reconnectAttempt cn |}.

(** ** What can happen to the console *)

Inductive Happening :=
| h_mount (url : string) (ok : bool) (jitter : num)
| h_unmount
| h_resume (visible ok : bool) (jitter : num)
| h_socket_open (i : nat)
| h_socket_message (i : nat) (data : MessageData)
| h_socket_error (i : nat)
| h_socket_closing (i : nat)
| h_socket_close (i : nat) (jitter : num)
| h_timer (h : nat) (ok : bool) (jitter : num).

Definition browser_event (h : Happening) : option Event :=
  match h with
  | h_socket_open i => Some (e_socket_open i)
  | h_socket_message i d => Some (e_socket_message i d)
  | h_socket_error i => Some (e_socket_error i)
  | h_socket_closing i => Some (e_socket_closing i)
  | h_socket_close i j => Some (e_socket_close i j)
  | h_timer h ok j => Some (e_timer h ok j)
  | _ => None
  end.

(** The effect runs and is cleaned up in turn; its stream's sockets and timers
    live on after it. *)
Definition happen (now : Z) (h : Happening) (cn : Console) : option Console :=
  match h with
  | h_mount url ok jitter => if cn_mounted cn then None else Some (mount url ok jitter now cn)
  | h_unmount => if cn_mounted cn then Some (unmount now cn) else None
  | h_resume visible ok jitter =>
      if cn_mounted cn then Some (resumed visible ok jitter now cn) else None
  | _ =>
      match browser_event h with
      | Some e => (fun s => advance now s cn) <$> step e (cn_stream cn)
      | None => None
      end
  end.

(** The console as the page loads it. *)
Definition loaded (c : C) : Console :=
  {| cn_stream := constructor {| op_url := ""; op_topics := None; op_baseDelayMs := None; op_maxDelayMs := None |};
     cn_mounted := false; cn_cache := c; cn_logger := new_logger; cn_lines := []; cn_announced := false;
     cn_connection := closed; cn_lastFrameAt := None; cn_reconnectAttempt := 0 |}.

(** The page is shown again while the stream's socket is in its closing
    handshake; a life is calm while it never is. *)
Definition meets (h : Happening) (cn : Console) : bool :=
  match h with
  | h_resume visible _ _ => visible && bool_decide (socketReady (cn_stream cn) = Some CLOSING)
  | _ => false
  end.
Inductive calm (c : C) : Console -> Prop :=
| calm_loaded : calm c (loaded c)
| calm_happen now h cn cn' : calm c cn -> meets h cn = false -> happen now h cn = Some cn' -> calm c cn'.

End Provider.
Arguments Console : clear implicits.

(** ** What the stream says *)

Definition relevant (o : Output) : bool :=
  match o with o_state _ _ _ | o_connect _ _ | o_frame _ _ => true | _ => false end.

(** From [s] to [s'] the listeners stay and hear [acts]. *)
Record Said (s s' : LiveStream) (acts : list Output) : Prop := {
  sd_out : exists o, out s' = out s ++ o /\ List.filter relevant o = acts;
  sd_frames : frameListeners s' = frameListeners s;
  sd_states : stateListeners s' = stateListeners s;
  sd_connects : connectListeners s' = connectListeners s
}.

Lemma said_trans s1 s2 s3 a b : Said s1 s2 a -> Said s2 s3 b -> Said s1 s3 (a ++ b).
Proof.
  intros [(o1&E1&<-) F1 G1 H1] [(o2&E2&<-) F2 G2 H2]. split; try congruence.
  exists (o1 ++ o2). by rewrite E2, E1, app_assoc, List.filter_app.
Qed.

Lemma said_emit s o : Said s (emit s o) (List.filter relevant o).
Proof. split; try done. by exists o. Qed.

(** A change of fields that says nothing. *)
Lemma said_quiet s s' :
  out s' = out s -> frameListeners s' = frameListeners s -> stateListeners s' = stateListeners s ->
  connectListeners s' = connectListeners s -> Said s s' [].
Proof. intros E Hf Hs Hc. split; try done. exists []. by rewrite app_nil_r. Qed.

Lemma said_browser s a b n o : List.filter relevant o = [] -> Said s (browser s a b n o) [].
Proof. intros H. split; try done. by exists o. Qed.

Definition says_state (st : ConnectionState) (s : LiveStream) : list Output :=
  if bool_decide (state s = st) then [] else map (fun l => o_state l st (attempt s)) (stateListeners s).

Lemma relevant_states st a l : List.filter relevant (map (fun i => o_state i st a) l) = map (fun i => o_state i st a) l.
Proof. apply filter_all. by intros x (i&<-&_)%in_map_iff. Qed.

Lemma said_setState st s : Said s (setState st s) (says_state st s) /\ state (setState st s) = st /\
  attempt (setState st s) = attempt s /\ everConnected (setState st s) = everConnected s /\ stopped (setState st s) = stopped s.
Proof.
  unfold setState, says_state. case_bool_decide as E; [split; [by apply said_quiet|done]|].
  split; [|done]. eapply (said_trans s (set_state s st) _ []); [by apply said_quiet|].
  pose proof (said_emit (set_state s st) (map (fun l => o_state l st (attempt s)) (stateListeners s))) as H.
  by rewrite relevant_states in H.
Qed.

Lemma said_clearTimer s : Said s (clearTimer s) [].
Proof.
  unfold clearTimer. destruct (timer s) as [h|]; [|by apply said_quiet].
  split; try done. by exists [o_clearTimeout h].
Qed.

Definition says_schedule (s : LiveStream) : list Output := says_state reconnecting (set_attempt s (attempt s + 1)).

Lemma said_schedule j s : stopped s = false -> Said s (scheduleReconnect j s) (says_schedule s).
Proof.
  intros Hst. unfold scheduleReconnect, says_schedule. rewrite Hst.
  set (x := set_attempt s (attempt s + 1)). destruct (said_setState reconnecting x) as (H & _).
  rewrite <- (app_nil_l (says_state _ _)), <- (app_nil_r ([] ++ _)).
  eapply said_trans; [eapply said_trans; [by apply (said_quiet s x)|exact H]|].
  eapply (said_trans _ _ _ [] []); [apply said_clearTimer|]. split; try done. by eexists [_].
Qed.

Definition says_open (ok : bool) (s : LiveStream) : list Output :=
  let st := if everConnected s then reconnecting else connecting in
  says_state st s ++ (if ok then [] else says_schedule (set_state s st)).

Lemma said_open ok j s : stopped s = false -> Said s (open ok j s) (says_open ok s).
Proof.
  intros Hst. unfold open, says_open. rewrite Hst.
  destruct (said_setState (if everConnected s then reconnecting else connecting) s) as (H & Hs' & Ha' & _ & Hst').
  eapply said_trans; [exact H|]. destruct ok.
  - split; try done. by eexists [_].
  - replace (says_schedule (set_state s _)) with (says_schedule (setState (if everConnected s then reconnecting else connecting) s)).
    + apply said_schedule. congruence.
    + unfold says_schedule, says_state. cbn. by rewrite Hs', Ha', (sd_states _ _ _ H).
Qed.

Lemma said_send f s : Said s (send f s) [].
Proof. unfold send. destruct (socket s), (socketReady s) as [[]|]; try (by apply said_quiet). split; try done. by eexists [_]. Qed.

Lemma said_onopen s :
  Said s (onopen s) (says_state opened (set_attempt s 0) ++ map (fun l => o_connect l (everConnected s)) (connectListeners s)).
Proof.
  unfold onopen. set (x := set_attempt (set_ever s true) 0).
  destruct (said_setState opened x) as (H & _). set (y := setState opened x) in *.
  pose proof (said_send (SubscribeMessage (topics y)) y) as H2. set (z := send _ y) in *.
  rewrite <- (app_nil_l (says_state _ _)).
  eapply said_trans; [eapply said_trans; [by apply (said_quiet s x)|exact H]|].
  eapply (said_trans _ _ _ []); [exact H2|]. pose proof (said_emit z (map (fun l => o_connect l (everConnected s)) (connectListeners z))) as H3.
  rewrite (sd_connects _ _ _ H2), (sd_connects _ _ _ H) in *. rewrite filter_all in H3; [exact H3|].
  by intros o (l&<-&_)%in_map_iff.
Qed.

Definition says_message (d : MessageData) (s : LiveStream) : list Output :=
  match d with
  | m_text (Some (ping_frame _)) | m_binary | m_text None => []
  | m_text (Some f) => map (fun l => o_frame l f) (frameListeners s)
  end.
Lemma said_onmessage d s : Said s (onmessage d s) (says_message d s).
Proof.
  destruct d as [|[f|]]; [by apply said_quiet| |by apply said_quiet].
  assert (Said s (emit s (map (fun l => o_frame l f) (frameListeners s))) (map (fun l => o_frame l f) (frameListeners s))) as H.
  { pose proof (said_emit s (map (fun l => o_frame l f) (frameListeners s))) as H.
    rewrite filter_all in H; [exact H|]. by intros o (l&<-&_)%in_map_iff. }
  destruct f; try exact H. apply said_send.
Qed.

(** What a browser's event makes the stream say. *)
Definition says (e : Event) (s : LiveStream) : list Output :=
  match e with
  | e_socket_open i =>
      if attached_b s i
      then says_state opened (set_attempt s 0) ++ map (fun l => o_connect l (everConnected s)) (connectListeners s) else []
  | e_socket_message i d => if attached_b s i then says_message d s else []
  | e_socket_close i _ => if attached_b s i then says_schedule s else []
  | e_timer _ ok _ => says_open ok s
  | e_resume ok _ =>
      match socketReady s with
      | Some (OPEN | CONNECTING) => []
      | _ => says_open ok (set_attempt s 0)
      end
  | _ => []
  end.

Definition from_browser (e : Event) : bool :=
  match e with e_connect _ _ | e_close | e_send _ | e_listen _ _ => false | _ => true end.

Lemma said_put s i w r : Said s (put_ready i w r s) [].
Proof. by apply said_browser. Qed.

Lemma said_after_put s i w r s' acts : Said (put_ready i w r s) s' acts -> Said s s' acts.
Proof. intros H. rewrite <- (app_nil_l acts). eapply said_trans; [apply said_put|exact H]. Qed.

(** The browser's events neither stop a stream nor start one. *)
Lemma schedule_stopped j s : stopped (scheduleReconnect j s) = stopped s.
Proof.
  unfold scheduleReconnect. destruct (stopped s) eqn:Hst; [done|].
  destruct (setState_spec reconnecting (set_attempt s (attempt s + 1))) as [o ->].
  unfold clearTimer. by destruct (timer _).
Qed.

Lemma open_stopped ok j s : stopped (open ok j s) = stopped s.
Proof.
  unfold open. destruct (stopped s) eqn:Hst; [done|].
  destruct (setState_spec (if everConnected s then reconnecting else connecting) s) as [o ->].
  destruct ok; [done|]. by rewrite schedule_stopped.
Qed.

Lemma step_stopped e s s' : from_browser e = true -> step e s = Some s' -> stopped s' = stopped s.
Proof.
  intros He Hstep. destruct e as [| |ok j| | |i|i d|i|i|i j|h ok j]; try done; cbn in Hstep.
  - injection Hstep as <-. unfold resume. destruct (stopped s) eqn:Hst; [done|].
    destruct (socketReady s) as [[]|]; try done; rewrite open_stopped; unfold clearTimer; by destruct (timer s).
  - destruct (sockets s !! i) as [[[] []]|]; try discriminate; injection Hstep as <-; [|done].
    unfold onopen. destruct (setState_spec opened (set_attempt (set_ever (put_ready i {| readyState := CONNECTING; handlers := true |} OPEN s) true) 0)) as [o ->].
    by match goal with |- stopped (emit (send ?f ?y) _) = _ => pose proof (sc_stopped _ _ (same_core_send f y)) end.
  - destruct (sockets s !! i) as [[[] []]|]; try discriminate; injection Hstep as <-; [|done].
    apply (sc_stopped _ _ (same_core_message d s)).
  - destruct (sockets s !! i) as [[[] ?]|]; try discriminate; by injection Hstep as <-.
  - destruct (sockets s !! i) as [[[] ?]|]; try discriminate; by injection Hstep as <-.
  - destruct (sockets s !! i) as [[[] []]|]; try discriminate; injection Hstep as <-; try done;
      unfold onclose; by rewrite schedule_stopped.
  - destruct (existsb _ _); [|done]. injection Hstep as <-. unfold onTimer. by rewrite open_stopped.
Qed.

Lemma said_step e s s' :
  stopped s = false -> from_browser e = true -> step e s = Some s' -> Said s s' (says e s).
Proof.
  intros Hst He Hstep. destruct e as [| |ok j| | |i|i d|i|i|i j|h ok j]; try done; cbn in Hstep |- *.
  - injection Hstep as <-. unfold resume. rewrite Hst.
    destruct (socketReady s) as [[]|]; try (by apply said_quiet);
      (rewrite <- (app_nil_l (says_open _ _)); eapply said_trans; [apply said_clearTimer|];
       rewrite <- (app_nil_l (says_open _ _)); eapply said_trans; [by apply (said_quiet _ (set_attempt (clearTimer s) 0))|];
       match goal with |- Said _ (open ok j ?x) _ =>
         replace (says_open ok (set_attempt s 0)) with (says_open ok x) by (unfold clearTimer; by destruct (timer s)) end;
       apply said_open; unfold clearTimer; by destruct (timer s)).
  - unfold attached_b. destruct (sockets s !! i) as [[[] []]|]; try discriminate; injection Hstep as <-; cbn;
      [|apply said_put].
    pose proof (said_onopen (put_ready i {| readyState := CONNECTING; handlers := true |} OPEN s)) as H.
    apply said_after_put in H. exact H.
  - unfold attached_b. destruct (sockets s !! i) as [[[] []]|]; try discriminate; injection Hstep as <-; cbn;
      [apply said_onmessage|by apply said_quiet].
  - destruct (sockets s !! i) as [[[] ?]|]; try discriminate; injection Hstep as <-; by apply said_quiet.
  - destruct (sockets s !! i) as [[[] ?]|]; try discriminate; injection Hstep as <-; apply said_put.
  - assert (forall w, Said s (onclose j (put_ready i w CLOSED s)) (says_schedule s)) as H.
    { intros w. pose proof (said_schedule j (set_socket (put_ready i w CLOSED s) None) Hst) as H.
      eapply (said_trans s (set_socket (put_ready i w CLOSED s) None) _ []) in H; [exact H|].
      split; try done. by exists []. }
    unfold attached_b. destruct (sockets s !! i) as [[[] []]|]; try discriminate; injection Hstep as <-; cbn;
      try apply said_put; apply H.
  - destruct (existsb _ _); [|done]. injection Hstep as <-. unfold onTimer.
    set (x := set_timer _ None). pose proof (said_open ok j x Hst) as H.
    eapply (said_trans s x _ []) in H; [exact H|]. split; try done. by exists [].
Qed.

(** ** What the provider shows *)

(** The last state told, and the attempt read with it. *)
Definition told (acts : list Output) (shown : ConnectionState * Z) : ConnectionState * Z :=
  fold_left (fun p o => match o with o_state _ st a => (st, a) | _ => p end) acts shown.

(** A stream whose state listener is the provider's, and the attempt [a] shown:
    the stream's own until a socket has opened, at most one from then on. *)
Record Shows (s : LiveStream) (a : Z) : Prop := {
  sh_kept : Kept s;
  sh_listens : stateListeners s = [0%nat] /\ connectListeners s = [0%nat] /\ frameListeners s = [0%nat];
  sh_never : everConnected s = false -> a = attempt s /\ state s <> opened /\ (socket s <> None -> state s = connecting);
  sh_ever : everConnected s = true -> 0 <= a <= 1 /\ state s <> connecting
}.

Lemma schedule_fields j s :
  stopped s = false ->
  state (scheduleReconnect j s) = reconnecting /\ attempt (scheduleReconnect j s) = attempt s + 1 /\
  everConnected (scheduleReconnect j s) = everConnected s /\ socket (scheduleReconnect j s) = socket s /\
  stopped (scheduleReconnect j s) = false.
Proof.
  intros Hst. unfold scheduleReconnect. rewrite Hst.
  destruct (setState_spec reconnecting (set_attempt s (attempt s + 1))) as [o ->].
  set (x := emit _ _). unfold clearTimer. by destruct (timer x).
Qed.

Lemma open_fields ok j s :
  stopped s = false ->
  state (open ok j s) = (if ok then if everConnected s then reconnecting else connecting else reconnecting) /\
  attempt (open ok j s) = (if ok then attempt s else attempt s + 1) /\
  everConnected (open ok j s) = everConnected s /\
  (ok = false -> socket (open ok j s) = socket s) /\ stopped (open ok j s) = false.
Proof.
  intros Hst. unfold open. rewrite Hst.
  destruct (setState_spec (if everConnected s then reconnecting else connecting) s) as [o ->].
  destruct ok; [done|].
  match goal with |- context [scheduleReconnect j ?x] => destruct (schedule_fields j x) as (-> & -> & -> & -> & ->); [done|] end.
  done.
Qed.

Lemma onopen_fields s :
  state (onopen s) = opened /\ attempt (onopen s) = 0 /\ everConnected (onopen s) = true /\ socket (onopen s) = socket s.
Proof.
  unfold onopen. destruct (setState_spec opened (set_attempt (set_ever s true) 0)) as [o ->].
  set (x := emit _ o). pose proof (same_core_send (SubscribeMessage (topics x)) x) as [E1 _ E3 _ E5 _ _ _].
  assert (everConnected (send (SubscribeMessage (topics x)) x) = everConnected x) as E6.
  { unfold send. by destruct (socket x), (socketReady x) as [[]|]. }
  set (y := send _ x) in *. cbn. by rewrite E1, E3, E5, E6.
Qed.

Definition told_state (st : ConnectionState) (cur : ConnectionState) (att a : Z) : Z := if bool_decide (cur = st) then a else att.

Lemma told_says st s a :
  stateListeners s = [0%nat] -> told (says_state st s) (state s, a) = (st, told_state st (state s) (attempt s) a).
Proof. intros Hl. unfold says_state, told_state. rewrite Hl. by case_bool_decide as E; [rewrite E|]. Qed.

Lemma told_app acts acts' p : told (acts ++ acts') p = told acts' (told acts p).
Proof. apply fold_left_app. Qed.

Lemma told_schedule s a :
  stateListeners s = [0%nat] ->
  told (says_schedule s) (state s, a) = (reconnecting, told_state reconnecting (state s) (attempt s + 1) a).
Proof. intros Hl. unfold says_schedule. by apply (told_says reconnecting (set_attempt s (attempt s + 1))). Qed.

Lemma told_open ok s a :
  stateListeners s = [0%nat] ->
  let st := if everConnected s then reconnecting else connecting in
  let a1 := told_state st (state s) (attempt s) a in
  told (says_open ok s) (state s, a) =
  if ok then (st, a1) else (reconnecting, told_state reconnecting st (attempt s + 1) a1).
Proof.
  intros Hl. cbn zeta. unfold says_open. rewrite told_app, told_says by done.
  destruct ok; [done|]. by apply (told_schedule (set_state s _)).
Qed.

Lemma told_others acts p : forallb (fun o => match o with o_state _ _ _ => false | _ => true end) acts = true -> told acts p = p.
Proof. revert p. induction acts as [|[] acts IH]; intros p; cbn; try done; by apply IH. Qed.

(** The provider's pair follows the stream through every browser event. *)
Lemma shows_open ok j s a :
  stopped s = false -> stateListeners s = [0%nat] -> connectListeners s = [0%nat] -> frameListeners s = [0%nat] ->
  Inv (open ok j s) ->
  (everConnected s = false -> a = attempt s \/ state s = reconnecting) ->
  (everConnected s = true -> 0 <= a <= 1 /\ state s = reconnecting) ->
  socket s = None ->
  let r := told (says_open ok s) (state s, a) in r.1 = state (open ok j s) /\ Shows (open ok j s) r.2.
Proof.
  intros Hon Hl1 Hl2 Hl3 HI' Hn He Hs.
  destruct (open_fields ok j s Hon) as (E1 & E2 & E3 & E4 & E5).
  assert (Kept (open ok j s)) as HK' by (split; [done|done|]; rewrite E1; by destruct ok, (everConnected s)). pose proof (said_open ok j s Hon) as [_ F1 F2 F3].
  cbn zeta. rewrite told_open by done. unfold told_state in *.
  assert (forall st att, Shows (open ok j s) att -> st = state (open ok j s) ->
    (st, att).1 = state (open ok j s) /\ Shows (open ok j s) (st, att).2) as Hsplit by done.
  destruct (everConnected s) eqn:Ee.
  - destruct (He eq_refl) as [Ha Hst]. rewrite Hst in *. destruct ok; cbn in *; (split; [by rewrite E1|]);
      (split; [done|by rewrite F1, F2, F3|by rewrite E3|]); rewrite E1; done.
  - destruct ok; cbn in *; (split; [by rewrite E1|]);
      (split; [done|by rewrite F1, F2, F3| |by rewrite E3]); rewrite E1, E2; intros _.
    + split_and!; [|done|done]. case_bool_decide as Eb; [|done]. destruct (Hn eq_refl); [done|congruence].
    + split_and!; [done|done|]. rewrite E4, Hs by done. done.
Qed.

Lemma same_core_shows s s' a :
  same_core s s' -> everConnected s' = everConnected s -> Said s s' [] -> Shows s a -> Shows s' a.
Proof.
  intros Hc Ee [_ F1 F2 F3] [HK HL Hn He]. split.
  - by apply (core_kept s s' Hc).
  - by rewrite F1, F2, F3.
  - destruct Hc as [E1 _ E3 _ E5 _ _ _]. by rewrite Ee, E1, E3, E5.
  - destruct Hc as [E1 _ E3 _ E5 _ _ _]. by rewrite Ee, E5.
Qed.

(** Losing a detached socket changes nothing that is shown. *)
Lemma put_shows s i w r a : sockets s !! i = Some w -> handlers w = false -> Shows s a -> Shows (put_ready i w r s) a.
Proof. intros Hi Hh [[HI H1 H2] HL Hn He]. split; try done. split; [by apply detached_put_inv|done|done]. Qed.

Lemma shows_lost j s i w a :
  Shows s a -> sockets s !! i = Some w -> handlers w = true -> readyState w <> CLOSED ->
  let s' := onclose j (put_ready i w CLOSED s) in
  let r := told (says_schedule s) (state s, a) in r.1 = state s' /\ Shows s' r.2.
Proof.
  intros [[HI Hon Hb] (Hl1 & Hl2 & Hl3) Hn He] Hi Hh Hw. cbn zeta.
  destruct (Inv_attached s i w HI Hi Hh Hw) as (Hs & Ht & _ & _ & _).
  rewrite told_schedule by done. cbn [fst snd]. unfold onclose.
  set (x := set_socket (put_ready i w CLOSED s) None).
  destruct (schedule_fields j x Hon) as (E1 & E2 & E3 & E4 & _). pose proof (said_schedule j x Hon) as [_ F1 F2 F3].
  split; [by rewrite E1|]. destruct (Quiet_no_socket s i w HI Hi Hh Hw) as [HQ _].
  destruct (scheduleReconnect_waits j x Hon eq_refl) as (_ & G1 & G2).
  split; [split; [by apply scheduleReconnect_inv|done|done]|by rewrite F1, F2, F3| |]; rewrite E1, E3; cbn.
  - intros Ee. rewrite E2, E4. unfold told_state. destruct (Hn Ee) as (-> & _ & Hc). rewrite (Hc ltac:(congruence)). done.
  - intros Ee. destruct (He Ee) as [Ha Hst]. split; [|done]. unfold told_state. case_bool_decide as Er; [done|].
    destruct (state s) eqn:Es; try done. destruct (inv_open _ HI Es) as (-> & _). lia.
Qed.

Lemma shows_step e s s' a :
  Shows s a -> from_browser e = true -> disciplined s e -> step e s = Some s' ->
  let r := told (says e s) (state s, a) in r.1 = state s' /\ Shows s' r.2.
Proof.
  intros HS He Hd Hstep. pose proof HS as [HK (Hl1 & Hl2 & Hl3) Hn Hev]. pose proof HK as [HI Hon Hb].
  pose proof (step_inv e s s' HI Hd Hstep) as HI'.
  destruct e as [| |ok j| | |i|i d|i|i|i j|h ok j]; try done; cbn [step says] in Hstep |- *; cbn zeta.
  - (* resume *)
    injection Hstep as <-. unfold resume in *. rewrite Hon in *.
    destruct Hd as [_ Hd]. cbn in Hd. apply bool_decide_eq_false in Hd.
    assert (socketReady s = Some CLOSED -> False) as Hcl.
    { unfold socketReady. destruct (socket s) as [i|] eqn:Es; [|done].
      apply (inv_socket _ HI) in Es as (w&->&_&Hw). simpl. congruence. }
    destruct (socketReady s) as [[]|] eqn:Er; try done.
    assert (socket s = None) as Hs.
    { destruct (socket s) as [i|] eqn:Es; [|done]. pose proof Es as (w&Hw&_)%(inv_socket _ HI).
      rewrite (ready_of _ _ _ Es Hw) in Er. done. }
    assert (state s = reconnecting) as Hst.
    { destruct (inv_busy _ HI Hb) as [_ [?|Ht]]; [done|]. by apply (inv_wait _ HI). }
    destruct (clearTimer_spec s (inv_timers _ HI)) as [o Hc]. rewrite Hc in *.
    eapply (shows_open ok j (set_attempt (browser (set_timer s None) (sockets s) [] (next_handle s) o) 0) a);
      try done; [by right|]. intros Ee. split; [|done]. by apply Hev.
  - (* open *)
    unfold attached_b, live_socket. destruct (sockets s !! i) as [[[] []]|] eqn:E; try discriminate; injection Hstep as <-; cbn [handlers readyState negb andb];
      [|split; [done|by eapply put_shows]].
    change (negb (bool_decide (CONNECTING = CLOSED))) with true. cbn [andb].
    set (x := put_ready i {| readyState := CONNECTING; handlers := true |} OPEN s) in *.
    destruct (onopen_fields x) as (E1 & E2 & E3 & E4). pose proof (said_onopen x) as [_ F1 F2 F3].
    destruct (Inv_attached s i _ HI E) as (Hs & _ & _ & _ & Hrd); [done|done|].
    rewrite told_app, (told_says opened (set_attempt s 0)) by done.
    rewrite told_others by (rewrite Hl2; done). cbn [fst snd]. split; [done|].
    split; [split; [done| |by rewrite E1]|by rewrite F1, F2, F3|congruence|].
    + destruct HK as [_ Hon' _]. unfold onopen. destruct (setState_spec opened (set_attempt (set_ever x true) 0)) as [o ->].
      match goal with |- stopped (emit (send ?f ?y) _) = _ => pose proof (sc_stopped _ _ (same_core_send f y)) as Es; cbn in Es end.
      cbn. by rewrite Es.
    + intros _. split; [|by rewrite E1]. unfold told_state. case_bool_decide as Eo; [|done].
      change (state (set_attempt s 0)) with (state s) in Eo.
      destruct (inv_open _ HI Eo) as (_ & _ & [?|?]); cbn in Hrd; congruence.
  - (* message *)
    unfold attached_b, live_socket. destruct (sockets s !! i) as [[[] []]|] eqn:E; try discriminate; injection Hstep as <-; cbn [handlers readyState negb andb];
      [|done].
    change (negb (bool_decide (OPEN = CLOSED))) with true. cbn [andb].
    assert (forallb (fun o => match o with o_state _ _ _ => false | _ => true end) (says_message d s) = true) as Ho.
    { destruct d as [|[[]|]]; cbn; rewrite ?Hl3; done. }
    rewrite told_others by done. pose proof (same_core_message d s) as Hc. split; [by destruct Hc|].
    pose proof (said_onmessage d s) as [_ F1 F2 F3]. assert (everConnected (onmessage d s) = everConnected s) as Ee.
    { destruct d as [|[[]|]]; try done. unfold onmessage, send. by destruct (socket s), (socketReady s) as [[]|]. }
    split; [by apply (core_kept s)|by rewrite F1, F2, F3| |]; destruct Hc as [C1 _ C3 _ C5 _ _ _];
      rewrite Ee, C5, ?C1, ?C3; done.
  - destruct (sockets s !! i) as [[[] ?]|]; try discriminate; injection Hstep as <-; done.
  - (* closing *)
    destruct (sockets s !! i) as [[[] []]|] eqn:E; try discriminate; injection Hstep as <-; (split; [done|]);
      try (by eapply put_shows); (split; [by split|done|done|done]).
  - (* lost *)
    unfold attached_b, live_socket. destruct (sockets s !! i) as [[r []]|] eqn:E; [| |discriminate];
      (destruct (decide (r = CLOSED)) as [->|Hr]; [discriminate|]); cbn [handlers readyState];
      rewrite ?(bool_decide_false (r = CLOSED)) by done; cbn [negb andb].
    + replace s' with (onclose j (put_ready i {| readyState := r; handlers := true |} CLOSED s)) by (by destruct r; simplify_eq).
      by apply shows_lost.
    + replace s' with (put_ready i {| readyState := r; handlers := false |} CLOSED s) by (by destruct r; simplify_eq).
      split; [done|]. by eapply put_shows.
  - (* timer *)
    destruct (existsb (Nat.eqb h) (timers s)) eqn:Eh; [|done]. injection Hstep as <-. unfold onTimer in *.
    assert (timer s <> None) as Ht by (intros Ht; rewrite (tk_timers _ (inv_timers _ HI)), Ht in Eh; done).
    destruct (inv_wait _ HI Ht) as [Hst _]. destruct (inv_one _ HI) as [Hs|]; [|done].
    eapply (shows_open ok j (set_timer (browser s _ _ _ _) None) a); try done; [by right|].
    intros Ee. split; [|done]. by apply Hev.
Qed.

(** ** The composed console *)
Section Composed.
Context {C : Type} `{Q : QueryClient C}.
Implicit Types (cn : Console C) (c : C).

(** What reaches the cache: a frame, or the refetch of a new connection. *)
Inductive Delivery := dl_frame (frame : ServerFrame) | dl_refetch.
Definition deliver (c : C) (d : Delivery) : C :=
  match d with dl_frame f => applyFrame c f | dl_refetch => refetch c end.

Definition delivered (acts : list Output) : list Delivery :=
  omap (fun o => match o with o_frame _ f => Some (dl_frame f) | o_connect _ _ => Some dl_refetch | _ => None end) acts.

(** Seen from the browser: a message with a frame on a socket of the mounted
    console that still has its handlers delivers it, the opening of such a socket
    delivers a refetch, and nothing else reaches the cache. *)
Definition deliveries (h : Happening) (cn : Console C) : list Delivery :=
  match h with
  | h_socket_message i (m_text (Some f)) =>
      if cn_mounted cn && attached_b (cn_stream cn) i
      then match f with ping_frame _ => [] | _ => [dl_frame f] end else []
  | h_socket_open i => if cn_mounted cn && attached_b (cn_stream cn) i then [dl_refetch] else []
  | _ => []
  end.

Lemma hear_filter now acts cn : fold_left (hear now) (List.filter relevant acts) cn = fold_left (hear now) acts cn.
Proof. revert cn. induction acts as [|[] acts IH]; intros cn; cbn; auto. Qed.

Lemma advance_said now s acts cn :
  Said (cn_stream cn) s acts -> advance now s cn = fold_left (hear now) acts (with_stream s cn).
Proof. intros [(o & Eo & <-) _ _ _]. unfold advance. by rewrite Eo, drop_app_length, hear_filter. Qed.

Lemma hear_all now acts cn :
  let cn' := fold_left (hear now) acts cn in
  cn_stream cn' = cn_stream cn /\ cn_mounted cn' = cn_mounted cn /\
  (cn_connection cn', cn_reconnectAttempt cn') = told acts (cn_connection cn, cn_reconnectAttempt cn) /\
  cn_cache cn' = fold_left deliver (delivered acts) (cn_cache cn).
Proof.
  cbn zeta. revert cn. induction acts as [|o acts IH]; intros cn; [done|]. cbn [fold_left].
  destruct (IH (hear now cn o)) as (-> & -> & -> & ->).
  destruct o; cbn [hear on_state on_connect]; try done.
  unfold on_frame. destruct (applyFrame_returns (cn_cache cn) frame); [|done].
  by destruct (frameLogger frame (cn_logger cn)) as [[? ?] ?].
Qed.

(** What any life keeps: while mounted the stream is on and has the provider's
    listeners; after that it is stopped and has none. *)
Record Wired (cn : Console C) : Prop := {
  wi_on : cn_mounted cn = true ->
    stopped (cn_stream cn) = false /\ stateListeners (cn_stream cn) = [0%nat] /\
    connectListeners (cn_stream cn) = [0%nat] /\ frameListeners (cn_stream cn) = [0%nat];
  wi_off : cn_mounted cn = false ->
    (stopped (cn_stream cn) = true /\ stateListeners (cn_stream cn) = [] /\
     connectListeners (cn_stream cn) = [] /\ frameListeners (cn_stream cn) = []) \/
    (sockets (cn_stream cn) = [] /\ timers (cn_stream cn) = [])
}.

(** A stream that is stopped and has no listener says nothing. *)
Lemma said_deaf e s s' :
  stopped s = true -> stateListeners s = [] -> connectListeners s = [] -> frameListeners s = [] ->
  from_browser e = true -> (forall ok j, e <> e_resume ok j) -> step e s = Some s' ->
  Said s s' [] /\ stopped s' = true.
Proof.
  intros Hst Hl1 Hl2 Hl3 He Hres Hstep. split; [|by rewrite (step_stopped e s s' He Hstep)].
  assert (forall j x, stopped x = true -> scheduleReconnect j x = x) as Hsch.
  { intros j x Hx. unfold scheduleReconnect. by rewrite Hx. }
  destruct e as [| |ok j| | |i|i d|i|i|i j|h ok j]; try done; cbn in Hstep.
  - by destruct (Hres ok j).
  - destruct (sockets s !! i) as [[[] []]|]; try discriminate; injection Hstep as <-; [|apply said_put].
    pose proof (said_onopen (put_ready i {| readyState := CONNECTING; handlers := true |} OPEN s)) as H.
    apply said_after_put in H. unfold says_state in H. simpl in H. rewrite Hl1, Hl2 in H. by case_bool_decide.
  - destruct (sockets s !! i) as [[[] []]|]; try discriminate; injection Hstep as <-; [|by apply said_quiet].
    pose proof (said_onmessage d s) as H. destruct d as [|[[]|]]; cbn [says_message] in H; rewrite ?Hl3 in H; exact H.
  - destruct (sockets s !! i) as [[[] ?]|]; try discriminate; injection Hstep as <-; by apply said_quiet.
  - destruct (sockets s !! i) as [[[] ?]|]; try discriminate; injection Hstep as <-; apply said_put.
  - destruct (sockets s !! i) as [[[] []]|]; try discriminate; injection Hstep as <-; try apply said_put;
      unfold onclose; rewrite Hsch by done; 
      (split; try done; by exists []).
  - destruct (existsb _ _); [|done]. injection Hstep as <-. unfold onTimer, open. cbn. rewrite Hst.
    split; try done. exists []. done.
Qed.

(** A stream nobody listens to, with nothing running. *)
Record Off (s : LiveStream) : Prop := {
  of_quiet : Quiet s;
  of_timer : timer s = None;
  of_state : state s = closed;
  of_deaf : stopped s = true \/ (sockets s = [] /\ timers s = [])
}.

Record ConsoleOk (cn : Console C) : Prop := {
  co_on : cn_mounted cn = true -> cn_connection cn = state (cn_stream cn) /\ Shows (cn_stream cn) (cn_reconnectAttempt cn);
  co_off : cn_mounted cn = false -> Off (cn_stream cn)
}.

Lemma off_step e s s' :
  Off s -> from_browser e = true -> (forall ok j, e <> e_resume ok j) -> step e s = Some s' -> Off s' /\ out s' = out s.
Proof.
  intros [HQ Ht Hc [Hs|[Hs1 Hs2]]] He Hres Hstep.
  - destruct (closed_step e s s' HQ Ht Hs Hc ltac:(by destruct e) Hstep) as (? & ? & ? & ? & ?).
    split; [|done]. split; try done. by left.
  - exfalso. destruct e; try done; cbn in Hstep; rewrite ?Hs1, ?Hs2 in Hstep; try done. by eapply Hres.
Qed.

Lemma no_delivery_schedule s : delivered (says_schedule s) = [].
Proof. unfold says_schedule, says_state. case_bool_decide; [done|]. cbn. by induction (stateListeners s). Qed.
Lemma no_delivery_state st s : delivered (says_state st s) = [].
Proof. unfold says_state. case_bool_decide; [done|]. by induction (stateListeners s). Qed.
Lemma delivered_app a b : delivered (a ++ b) = delivered a ++ delivered b.
Proof. apply omap_app. Qed.

Lemma delivered_says e s :
  connectListeners s = [0%nat] -> frameListeners s = [0%nat] ->
  delivered (says e s) =
  match e with
  | e_socket_message i (m_text (Some f)) =>
      if attached_b s i then match f with ping_frame _ => [] | _ => [dl_frame f] end else []
  | e_socket_open i => if attached_b s i then [dl_refetch] else []
  | _ => []
  end.
Proof.
  intros Hc Hf. destruct e as [| |ok j| | |i|i d|i|i|i j|h ok j]; try done; cbn [says].
  - destruct (socketReady s) as [[]|]; try done; unfold says_open; rewrite delivered_app, no_delivery_state;
      destruct ok; rewrite ?no_delivery_schedule; done.
  - destruct (attached_b s i); [|done]. by rewrite delivered_app, no_delivery_state, Hc.
  - destruct d as [|[[]|]]; destruct (attached_b s i); try done; cbn; by rewrite Hf.
  - destruct (attached_b s i); [|done]. apply no_delivery_schedule.
  - unfold says_open. rewrite delivered_app, no_delivery_state. destruct ok; [done|]. by rewrite no_delivery_schedule.
Qed.

(** A stream event heard by the mounted console. *)
Lemma advance_ok now e s' cn :
  ConsoleOk cn -> cn_mounted cn = true -> from_browser e = true -> disciplined (cn_stream cn) e ->
  step e (cn_stream cn) = Some s' ->
  ConsoleOk (advance now s' cn) /\ cn_mounted (advance now s' cn) = true /\
  cn_cache (advance now s' cn) = fold_left deliver (delivered (says e (cn_stream cn))) (cn_cache cn).
Proof.
  intros HC Hm He Hd Hstep. destruct (co_on _ HC Hm) as [Hconn HS].
  pose proof (kp_on _ (sh_kept _ _ HS)) as Hon.
  rewrite (advance_said now s' _ cn (said_step _ _ _ Hon He Hstep)).
  destruct (hear_all now (says e (cn_stream cn)) (with_stream s' cn)) as (E1 & E2 & E3 & E4).
  set (cn' := fold_left _ _ _) in *. cbn [with_stream cn_stream cn_mounted cn_connection cn_reconnectAttempt cn_cache] in E1, E2, E3, E4.
  split; [|split; [congruence|done]].
  destruct (shows_step e _ s' _ HS He Hd Hstep) as [H1 H2]. rewrite Hconn in E3. rewrite <- E3 in H1, H2. cbn in H1, H2.
  split; [by rewrite E1|congruence].
Qed.

Lemma off_advance now s cn : out s = out (cn_stream cn) -> advance now s cn = with_stream s cn.
Proof. intros E. unfold advance. by rewrite E, drop_all. Qed.

Lemma said_close s : stateListeners s = [] -> Said s (LiveStream.close s) [].
Proof.
  intros Hs1. unfold LiveStream.close. set (x := clearTimer (set_stopped s true)).
  assert (Said s x []) as Hx by (eapply (said_trans _ (set_stopped s true) _ [] []); [by apply said_quiet|apply said_clearTimer]).
  assert (forall y, Said s y [] -> Said s (setState closed y) []) as Hclose.
  { intros y Hy. destruct (said_setState closed y) as [H _]. unfold says_state in H.
    rewrite (sd_states _ _ _ Hy), Hs1 in H. eapply (said_trans _ _ _ []); [exact Hy|]. by case_bool_decide. }
  apply Hclose. destruct (socket x) as [i|]; [|exact Hx].
  eapply (said_trans _ x _ [] []); [exact Hx|].
  eapply (said_trans _ (detach i x) _ [] []).
  { unfold detach. destruct (sockets x !! i); [by apply said_browser|by apply said_quiet]. }
  eapply (said_trans _ (socket_close i (detach i x)) _ [] []); [|by apply said_quiet].
  unfold socket_close. destruct (sockets (detach i x) !! i) as [[[] ?]|]; split; try done;
    (exists [o_close i]; cbn; by rewrite ?app_nil_r).
Qed.

Lemma close_stopped s : stopped (LiveStream.close s) = true.
Proof.
  unfold LiveStream.close. assert (stopped (clearTimer (set_stopped s true)) = true) as Hx
    by (unfold clearTimer; by destruct (timer _)). set (x := clearTimer _) in *.
  assert (forall y, stopped y = true -> stopped (setState closed y) = true) as Hset.
  { intros y Hy. by destruct (setState_spec closed y) as [o ->]. }
  apply Hset. destruct (socket x) as [i|]; [|done]. unfold detach.
  destruct (sockets x !! i); unfold socket_close; by destruct (sockets _ !! i) as [[[] ?]|].
Qed.

Lemma unmount_stream now cn :
  stateListeners (cn_stream cn) = [0%nat] ->
  unmount now cn =
  let s := LiveStream.close (offFrame 0 (offConnect 0 (offStateChange 0 (cn_stream cn)))) in
  {| cn_stream := s; cn_mounted := false; cn_cache := cn_cache cn; cn_logger := cn_logger cn;
     cn_lines := cn_lines cn; cn_announced := cn_announced cn; cn_connection := cn_connection cn;
     cn_lastFrameAt := cn_lastFrameAt cn; cn_reconnectAttempt := cn_reconnectAttempt cn |}.
Proof.
  intros Hl. unfold unmount. cbn zeta.
  set (s := offFrame 0 (offConnect 0 (offStateChange 0 (cn_stream cn)))).
  assert (stateListeners s = []) as Hs1 by (unfold s; cbn; by rewrite Hl).
  destruct (said_close s Hs1) as [(o & Eo & Hr) _ _ _]. unfold advance. change (out (cn_stream cn)) with (out s).
  by rewrite Eo, drop_app_length, <- hear_filter, Hr.
Qed.

(** The mounted console hears what the stream says, whatever it says. *)
Lemma advance_wired now e s' cn :
  Wired cn -> cn_mounted cn = true -> from_browser e = true -> step e (cn_stream cn) = Some s' ->
  Wired (advance now s' cn) /\
  cn_cache (advance now s' cn) = fold_left deliver (delivered (says e (cn_stream cn))) (cn_cache cn).
Proof.
  intros HW Hm He Hstep. destruct (wi_on _ HW Hm) as (Hon & H1 & H2 & H3).
  pose proof (said_step _ _ _ Hon He Hstep) as HS. rewrite (advance_said now s' _ cn HS).
  destruct (hear_all now (says e (cn_stream cn)) (with_stream s' cn)) as (E1 & E2 & _ & E4).
  split; [|exact E4]. destruct HS as [_ F1 F2 F3].
  split; rewrite E1, E2; cbn; [|congruence]. intros _. rewrite F1, F2, F3, (step_stopped e _ _ He Hstep). done.
Qed.

Lemma silent_wired now s' cn :
  Wired cn -> cn_mounted cn = false -> (exists e, from_browser e = true /\ (forall ok j, e <> e_resume ok j) /\ step e (cn_stream cn) = Some s') ->
  Wired (advance now s' cn) /\ cn_cache (advance now s' cn) = cn_cache cn.
Proof.
  intros HW Hm (e & He & Hres & Hstep). destruct (wi_off _ HW Hm) as [(Hst & H1 & H2 & H3)|[Hs1 Hs2]].
  - destruct (said_deaf e _ s' Hst H1 H2 H3 He Hres Hstep) as [HS Hst'].
    rewrite (advance_said now s' [] cn HS). split; [|done]. destruct HS as [_ F1 F2 F3].
    split; cbn; [congruence|]. intros _. left. by rewrite F1, F2, F3.
  - exfalso. destruct e; try done; cbn in Hstep; rewrite ?Hs1, ?Hs2 in Hstep; try done. by eapply Hres.
Qed.

Lemma unmount_ok now cn :
  ConsoleOk cn -> cn_mounted cn = true -> ConsoleOk (unmount now cn) /\ cn_cache (unmount now cn) = cn_cache cn /\
  cn_connection (unmount now cn) = cn_connection cn.
Proof.
  intros HC Hm. destruct (co_on _ HC Hm) as [Hconn [[HI _ _] (Hl1 & Hl2 & Hl3) _ _]].
  set (s := offFrame 0 (offConnect 0 (offStateChange 0 (cn_stream cn)))).
  assert (same_core (cn_stream cn) s) as Hsc by done.
  assert (Off (LiveStream.close s)) as Hoff.
  { destruct (close_Quiet s (same_core_inv _ _ Hsc HI)) as (o & s1 & -> & [[? ?] ? ? ?] & Ht & Hst & _).
    split; try done. by left. }
  rewrite unmount_stream by done. by split.
Qed.

Lemma mount_ok url ok jitter now cn :
  ConsoleOk (mount url ok jitter now cn) /\ cn_mounted (mount url ok jitter now cn) = true /\
  cn_cache (mount url ok jitter now cn) = cn_cache cn.
Proof.
  unfold mount. destruct (logSessionStart (cn_announced cn)) as [announced lines].
  set (s := subscribed url). set (cn0 := {| cn_stream := s |}).
  set (x := set_stopped s false).
  assert (Inv (open ok jitter x)) as HI.
  { apply open_inv; [|done|done]. split; try done. intros i (w & Hw & _). done. }
  pose proof (said_open ok jitter x eq_refl) as HS.
  assert (Said s (connect ok jitter s) (says_open ok x)) as HS'.
  { eapply (said_trans s x _ []); [by apply said_quiet|exact HS]. }
  rewrite (advance_said now (connect ok jitter s) (says_open ok x) cn0) by exact HS'.
  destruct (hear_all now (says_open ok x) (with_stream (connect ok jitter s) cn0)) as (E1 & E2 & E3 & E4).
  set (cn' := fold_left _ _ _) in *. clearbody cn'. split; [|split; [done|]].
  - split; [|by rewrite E2]. intros _. rewrite E1. change (cn_stream (with_stream (connect ok jitter s) cn0)) with (open ok jitter x).
    destruct (open_fields ok jitter x eq_refl) as (F1 & F2 & F3 & F4 & F5). destruct HS as [_ G1 G2 G3].
    assert (cn_connection cn' = state (open ok jitter x) /\ cn_reconnectAttempt cn' = attempt (open ok jitter x)) as [-> ->].
    { rewrite F1, F2. destruct ok; cbn in E3; by injection E3 as -> ->. }
    split; [done|]. split; [split; [done|done|]| |intros _; split; [done|]|]; rewrite ?F1, ?F3, ?G1, ?G2, ?G3; try done.
    + by destruct ok.
    + split; [by destruct ok|]. destruct ok; [done|]. by rewrite F4.
  - rewrite E4. unfold says_open. rewrite delivered_app, no_delivery_state. destruct ok; [done|]. by rewrite no_delivery_schedule.
Qed.

(** One happening: what reached the cache. *)
Lemma happen_wired now h cn cn' :
  Wired cn -> happen now h cn = Some cn' ->
  Wired cn' /\ cn_cache cn' = fold_left deliver (deliveries h cn) (cn_cache cn).
Proof.
  intros HW Hh.
  assert (forall e, browser_event h = Some e -> (fun s => advance now s cn) <$> step e (cn_stream cn) = Some cn' ->
    Wired cn' /\ cn_cache cn' = fold_left deliver (deliveries h cn) (cn_cache cn)) as Hev.
  { intros e He Hs. destruct (step e (cn_stream cn)) as [s'|] eqn:Es; [|done]. injection Hs as <-.
    assert (from_browser e = true /\ forall ok j, e <> e_resume ok j) as [Hb Hres] by (by destruct h; cbn in He; simplify_eq).
    destruct (cn_mounted cn) eqn:Hm.
    - destruct (advance_wired now e s' cn HW Hm Hb Es) as (H1 & ->). split; [done|].
      destruct (wi_on _ HW Hm) as (_ & _ & Hc & Hf). rewrite delivered_says by done.
      destruct h; cbn in He |- *; simplify_eq; try done; by rewrite Hm.
    - destruct (silent_wired now s' cn HW Hm) as [H1 ->]; [eauto|]. split; [done|].
      destruct h; cbn; rewrite ?Hm; try done. destruct data as [|[]]; done. }
  destruct h; cbn [happen] in Hh; try (eapply Hev; [reflexivity|exact Hh]); clear Hev.
  - destruct (cn_mounted cn); [done|]. injection Hh as <-.
    destruct (mount_ok url ok jitter now cn) as ([Hon _] & Hm & Hc). split; [|done].
    split; [|congruence]. intros _. destruct (Hon Hm) as [_ HS]. destruct (sh_listens _ _ HS) as (? & ? & ?).
    split; [exact (kp_on _ (sh_kept _ _ HS))|done].
  - destruct (cn_mounted cn) eqn:Hm; [|done]. injection Hh as <-.
    destruct (wi_on _ HW Hm) as (_ & Hl1 & Hl2 & Hl3). rewrite unmount_stream by done. cbn zeta. split; [|done].
    split; cbn; [done|]. intros _. left. split; [apply close_stopped|].
    set (s := offFrame 0 _). destruct (said_close s) as [_ F1 F2 F3]; [unfold s; cbn; by rewrite Hl1|].
    rewrite F1, F2, F3. unfold s. cbn. by rewrite Hl1, Hl2, Hl3.
  - destruct (cn_mounted cn) eqn:Hm; [|done]. injection Hh as <-. unfold resumed. destruct visible; [|done].
    destruct (advance_wired now (e_resume ok jitter) (resume ok jitter (cn_stream cn)) cn HW Hm) as (H1 & ->); [done|done|].
    split; [done|]. destruct (wi_on _ HW Hm) as (_ & _ & Hc & Hf). by rewrite delivered_says.
Qed.

(** In a calm life, what the provider shows. *)
Lemma happen_ok now h cn cn' :
  ConsoleOk cn -> meets h cn = false -> happen now h cn = Some cn' -> ConsoleOk cn'.
Proof.
  intros HC Hmeet Hh.
  assert (forall e, browser_event h = Some e -> (fun s => advance now s cn) <$> step e (cn_stream cn) = Some cn' ->
    ConsoleOk cn') as Hev.
  { intros e He Hs. destruct (step e (cn_stream cn)) as [s'|] eqn:Es; [|done]. injection Hs as <-.
    assert (from_browser e = true /\ disciplined (cn_stream cn) e /\ forall ok j, e <> e_resume ok j) as (Hb & Hd & Hres)
      by (destruct h; cbn in He; simplify_eq; done).
    destruct (cn_mounted cn) eqn:Hm.
    - by destruct (advance_ok now e s' cn HC Hm Hb Hd Es) as (H1 & _).
    - destruct (off_step e _ s' (co_off _ HC Hm) Hb Hres Es) as [Ho Eo].
      rewrite off_advance by done. split; cbn; [congruence|done]. }
  destruct h; cbn [happen] in Hh; try (eapply Hev; [reflexivity|exact Hh]); clear Hev.
  - destruct (cn_mounted cn); [done|]. injection Hh as <-. by destruct (mount_ok url ok jitter now cn).
  - destruct (cn_mounted cn) eqn:Hm; [|done]. injection Hh as <-. by destruct (unmount_ok now cn HC Hm).
  - destruct (cn_mounted cn) eqn:Hm; [|done]. injection Hh as <-. unfold resumed. destruct visible; [|done].
    destruct (advance_ok now (e_resume ok jitter) (resume ok jitter (cn_stream cn)) cn HC Hm) as (H1 & _); done.
Qed.

Lemma loaded_ok c : ConsoleOk (loaded c).
Proof.
  split; [done|]. intros _. split; try done; [|by right].
  split; try done. intros i (w & Hw & _). done.
Qed.

Lemma calm_ok c cn : calm c cn -> ConsoleOk cn.
Proof. induction 1 as [|now h cn cn' _ IH Hm Hh]; [apply loaded_ok|]. by eapply happen_ok. Qed.

Lemma loaded_wired c : Wired (loaded c).
Proof. split; [done|]. intros _. by right. Qed.

Fixpoint history (hs : list (Z * Happening)) (cn : Console C) : option (Console C * list Delivery) :=
  match hs with
  | [] => Some (cn, [])
  | (now, h) :: hs' =>
      match happen now h cn with
      | Some cn' => (fun r => (r.1, deliveries h cn ++ r.2)) <$> history hs' cn'
      | None => None
      end
  end.

(** C4. The cache is what the stream delivered, and nothing else: over any life of
    the console, pages mounting and leaving, coming back whenever they like,
    sockets dying and reopening, the cache is the one it started with after
    exactly the frames that arrived, while the console was mounted, on the
    sockets that still had their handlers, each once and in order, with a refetch
    of tracks, detections and health at each opening.  So whatever the reducer
    and a refetch preserve of the cache holds for good. *)
Theorem cache_is_what_arrived (c : C) (hs : list (Z * Happening)) (cn : Console C) (ds : list Delivery) :
  history hs (loaded c) = Some (cn, ds) ->
  cn_cache cn = fold_left deliver ds c /\
  (forall P : C -> Prop, P c -> (forall c f, P c -> P (applyFrame c f)) -> (forall c k, P c -> P (invalidateQueries c k)) ->
     P (cn_cache cn)).
Proof.
  intros Hh. assert (cn_cache cn = fold_left deliver ds c) as E.
  { change c with (cn_cache (loaded c)). pose proof (loaded_wired c) as HC. revert Hh HC. generalize (loaded c) as cn0. revert ds.
    induction hs as [|[now h] hs IH]; cbn; intros ds cn0 Hh HC; [by simplify_eq|].
    destruct (happen now h cn0) as [cn1|] eqn:E1; [|done].
    destruct (history hs cn1) as [[cn2 ds2]|] eqn:E2; [|done]. cbn in Hh. injection Hh as -> <-.
    destruct (happen_wired now h cn0 cn1 HC E1) as [HC1 Ec]. rewrite fold_left_app, <- Ec. by apply IH. }
  split; [done|]. rewrite E. intros P HP Hf Hi. clear - HP Hf Hi. revert c HP.
  induction ds as [|d ds IH]; intros c HP; [done|]. cbn. apply IH. destruct d; [by apply Hf|]. by repeat apply Hi.
Qed.

(** What the pages read is the stream's, in a calm life: while mounted the connection shown is
    the stream's state, and until a socket has opened the attempt shown is the
    one pending.  After that it is not: the stream keeps its state at
    'reconnecting' through every retry and listeners hear only changes, so the
    attempt shown never passes one, however many have failed. *)
Lemma attempt_shown (c : C) (cn : Console C) :
  calm c cn -> cn_mounted cn = true ->
  cn_connection cn = state (cn_stream cn) /\
  (everConnected (cn_stream cn) = false -> cn_reconnectAttempt cn = attempt (cn_stream cn)) /\
  (everConnected (cn_stream cn) = true -> 0 <= cn_reconnectAttempt cn <= 1).
Proof.
  intros HL Hm. destruct (co_on _ (calm_ok _ _ HL) Hm) as [Hc HS]. split; [done|].
  split; [intros E; by apply (sh_never _ _ HS)|intros E; by apply (sh_ever _ _ HS)].
Qed.

Definition shown_freshness (cn : Console C) (now : Z) : Freshness :=
  freshness_of (cn_connection cn) (cn_reconnectAttempt cn) true (cn_lastFrameAt cn) 0 now.

Lemma ever_kept e s s' :
  step e s = Some s' -> from_browser e = true -> (forall i, e <> e_socket_open i) -> (forall ok j, e <> e_resume ok j) ->
  stopped s = false -> everConnected s' = everConnected s.
Proof.
  intros Hstep He Ho Hr Hst. destruct e as [| |ok j| | |i|i d|i|i|i j|h ok j]; try done; cbn in Hstep.
  - by destruct (Hr ok j).
  - by destruct (Ho i).
  - destruct (sockets s !! i) as [[[] []]|]; try discriminate; injection Hstep as <-; try done.
    destruct d as [|[[]|]]; try done. unfold onmessage, send. by destruct (socket s), (socketReady s) as [[]|].
  - destruct (sockets s !! i) as [[[] ?]|]; try discriminate; by injection Hstep as <-.
  - destruct (sockets s !! i) as [[[] ?]|]; try discriminate; by injection Hstep as <-.
  - destruct (sockets s !! i) as [[[] []]|]; try discriminate; injection Hstep as <-; try done;
      unfold onclose; by match goal with |- everConnected (scheduleReconnect j ?x) = _ => destruct (schedule_fields j x Hst) as (_ & _ & -> & _) end.
  - destruct (existsb _ _); [|done]. injection Hstep as <-. unfold onTimer.
    by match goal with |- everConnected (open ok j ?x) = _ => destruct (open_fields ok j x Hst) as (_ & _ & -> & _) end.
Qed.

(** The banner does not strobe: once a console that has received nothing says
    so, no step of the retry cycle (timers, sockets dying, the factory
    failing, messages that are not frames) takes the banner down, short of a
    socket opening or the page coming back. *)
Lemma banner_is_steady (c : C) (cn cn' : Console C) (now : Z) (h : Happening) (t t' : Z)
  (Hlives : calm c cn) (Hh : happen now h cn = Some cn')
  (Hcycle : match h with h_socket_message _ _ | h_socket_error _ | h_socket_closing _ | h_socket_close _ _ | h_timer _ _ _ => True | _ => False end)
  (Hnothing : cn_lastFrameAt cn = None /\ cn_lastFrameAt cn' = None)
  (Hup : fr_announce (shown_freshness cn t) = true) :
  fr_announce (shown_freshness cn' t') = true.
Proof.
  pose proof (calm_ok _ _ Hlives) as HC.
  unfold shown_freshness in *. destruct Hnothing as [E E']. rewrite E in Hup. rewrite E'.
  apply nothing_received in Hup as [Hno Hn]. apply nothing_received.
  destruct (browser_event h) as [e|] eqn:He; [|by destruct h].
  assert (happen now h cn = ((fun s => advance now s cn) <$> step e (cn_stream cn))) as Hstep
    by (by destruct h; cbn in He |- *; simplify_eq).
  rewrite Hstep in Hh. destruct (step e (cn_stream cn)) as [s'|] eqn:Es; [|done]. injection Hh as <-.
  assert (from_browser e = true /\ (forall i, e <> e_socket_open i) /\ (forall ok j, e <> e_resume ok j) /\ resets_attempt e = false)
    as (Hb & Hopen & Hres & Hcl) by (destruct h; cbn in He; simplify_eq; done).
  destruct (cn_mounted cn) eqn:Hm.
  - destruct (co_on _ HC Hm) as [Hc HS]. destruct HS as [HK _ Hnev Hev].
    destruct (everConnected (cn_stream cn)) eqn:Ee; [destruct (Hev eq_refl) as [? _]; unfold ATTEMPTS_BEFORE_ANNOUNCING in Hn; lia|].
    destruct (Hnev eq_refl) as [Ha _]. destruct (step_climbs _ _ _ Es Hcl) as [Hle Hst].
    destruct (advance_ok now e s' cn HC Hm Hb ltac:(by destruct e) Es) as (HC'' & Hm' & _).
    destruct (co_on _ HC'' Hm') as [Hc' HS']. destruct HS' as [_ _ Hnev' _].
    assert (cn_stream (advance now s' cn) = s') as Est.
    { unfold advance. by destruct (hear_all now (drop (List.length (out (cn_stream cn))) (out s')) (with_stream s' cn)) as (-> & _). }
    rewrite Est in Hnev', Hc'. rewrite (ever_kept e (cn_stream cn) s' Es Hb Hopen Hres (kp_on _ HK)) in Hnev'.
    destruct (Hnev' Ee) as [Ha' _]. rewrite Hc', Ha'. split; [|lia]. rewrite Hc in Hno. auto.
  - destruct (off_step e _ s' (co_off _ HC Hm) Hb Hres Es) as [_ Eo]. by rewrite off_advance.
Qed.

(** After a connection the banner never comes: with nothing received and the
    attempt shown stuck at one, a console whose API is gone says it is
    connecting, for ever. *)
Lemma banner_never_comes (c : C) (cn : Console C) (now : Z) :
  calm c cn -> cn_mounted cn = true -> everConnected (cn_stream cn) = true -> cn_lastFrameAt cn = None ->
  fr_announce (shown_freshness cn now) = false.
Proof.
  intros HL Hm He Hf. destruct (co_on _ (calm_ok _ _ HL) Hm) as [_ HS]. destruct (sh_ever _ _ HS He) as [Ha _].
  apply not_true_iff_false. unfold shown_freshness. rewrite Hf. intros [_ Hn]%nothing_received.
  unfold ATTEMPTS_BEFORE_ANNOUNCING in Hn. lia.
Qed.
End Composed.

(** ** Concrete lives *)
Section Examples.
Import ListCache.

(** No resume meets a closing socket along the way. *)
Fixpoint calm_run {C} `{QueryClient C} (hs : list (Z * Happening)) (cn : Console C) : bool :=
  match hs with
  | [] => true
  | (now, h) :: hs' =>
      negb (meets h cn) && match happen now h cn with Some cn' => calm_run hs' cn' | None => true end
  end.

Lemma history_calm {C} `{QueryClient C} (c : C) hs cn cn' ds :
  calm c cn -> calm_run hs cn = true -> history hs cn = Some (cn', ds) -> calm c cn'.
Proof.
  revert cn ds. induction hs as [|[now h] hs IH]; cbn; intros cn ds HL Hm Hh; [by simplify_eq|].
  apply andb_prop in Hm as [Hm%negb_true_iff Hrest]. destruct (happen now h cn) as [cn1|] eqn:E; [|done].
  destruct (history hs cn1) as [[cn2 ds2]|] eqn:E2; [|done]. cbn in Hh. injection Hh as -> _.
  eapply IH; [|exact Hrest|exact E2]. by eapply calm_happen.
Defined.

Definition live_after (hs : list (Z * Happening)) : Console cache :=
  match history hs (loaded sample_cache) with Some (cn, _) => cn | None => loaded sample_cache end.

Lemma live_after_calm hs :
  history hs (loaded sample_cache) <> None -> calm_run hs (loaded sample_cache) = true -> calm sample_cache (live_after hs).
Proof.
  unfold live_after. destruct (history hs (loaded sample_cache)) as [[cn ds]|] eqn:E; [|done]. intros _ Hm.
  eapply history_calm; [apply calm_loaded|exact Hm|exact E].
Defined.

(** Mount, connect, hear a frame, lose the socket. *)
Definition dropped_life : list (Z * Happening) :=
  [(0, h_mount "ws://test/stream" true half); (10, h_socket_open 0);
   (20, h_socket_message 0 (m_text (Some lapse_frame))); (30, h_socket_close 0 half)].
(** And fail to come back three times. *)
Definition failing_life : list (Z * Happening) :=
  dropped_life ++ [(40, h_timer 0 false half); (50, h_timer 1 false half); (60, h_timer 2 false half)].

(** From the state [resume_while_closing] leads to, once the orphan's socket has
    started to close. *)
Lemma reconnects_after_recovery_witness :
  let s := after (resume_while_closing ++ [e_socket_closing 1]) in
  let es := [e_socket_open 2; e_socket_close 1 half; e_timer 1 true half; e_socket_open 3] in
  drives default_options 1 s /\ closing_count s = 1%nat /\ run_ok recovered es s /\
  exists s', run es s = Some s' /\
    ((socketReady s' = Some OPEN /\ state s' = opened) \/
     exists e s'', owed s' e = true /\ recovered s' e /\ step e s' = Some s'').
Proof.
  cbn zeta. set (s := after _). set (es := [_; _; _; _]).
  assert (drives default_options 1 s) as Hr.
  { apply (after_drives (resume_while_closing ++ [e_socket_closing 1]));
      [vm_compute; intuition congruence | vm_compute; congruence]. }
  assert (run_ok recovered es s) as Hok by (vm_compute; intuition congruence).
  split_and!; [exact Hr|reflexivity|exact Hok|].
  destruct (run es s) as [s'|] eqn:E; [|vm_compute in E; discriminate E].
  exists s'. split; [reflexivity|].
  refine (proj1 (reconnects_after_recovery default_options 1 s s' es Hr _ _ Hok E)); vm_compute; congruence.
Defined.

Lemma cache_is_what_arrived_witness :
  exists cn ds, history failing_life (loaded sample_cache) = Some (cn, ds) /\
    ds = [dl_refetch; dl_frame lapse_frame] /\ cn_cache cn = fold_left deliver ds sample_cache.
Proof.
  destruct (history failing_life (loaded sample_cache)) as [[cn ds]|] eqn:E; [|vm_compute in E; discriminate E].
  exists cn, ds. split; [reflexivity|]. split; [vm_compute in E; injection E as _ <-; reflexivity|].
  exact (proj1 (cache_is_what_arrived sample_cache failing_life cn ds E)).
Defined.

(** Four failures later the console still shows the first attempt. *)
Lemma attempt_sticks :
  attempt (cn_stream (live_after failing_life)) = 4 /\ cn_reconnectAttempt (live_after failing_life) = 1.
Proof. vm_compute. split; reflexivity. Qed.

Lemma attempt_shown_witness :
  calm sample_cache (live_after failing_life) /\ cn_mounted (live_after failing_life) = true /\
  0 <= cn_reconnectAttempt (live_after failing_life) <= 1.
Proof.
  assert (calm sample_cache (live_after failing_life)) as HL by (apply live_after_calm; vm_compute; congruence).
  assert (cn_mounted (live_after failing_life) = true) as Hm by (vm_compute; reflexivity).
  split_and!; [exact HL|exact Hm| |]; (apply (attempt_shown sample_cache _ HL Hm); vm_compute; reflexivity).
Defined.

(** A console that never connects. *)
Definition refused_life : list (Z * Happening) :=
  [(0, h_mount "ws://test/stream" true half); (10, h_socket_close 0 half); (20, h_timer 0 true half); (30, h_socket_close 1 half)].

Lemma banner_is_steady_witness :
  exists cn', happen 40 (h_timer 1 true half) (live_after refused_life) = Some cn' /\
    fr_announce (shown_freshness cn' 41) = true.
Proof.
  destruct (happen 40 (h_timer 1 true half) (live_after refused_life)) as [cn'|] eqn:E; [|vm_compute in E; discriminate E].
  exists cn'. split; [reflexivity|].
  refine (banner_is_steady sample_cache (live_after refused_life) cn' 40 (h_timer 1 true half) 39 41 _ E I _ _).
  - apply live_after_calm; vm_compute; congruence.
  - split; [vm_compute; reflexivity|]. vm_compute in E. injection E as <-. reflexivity.
  - vm_compute. reflexivity.
Defined.

(** The counter does not only go up: a page coming back to the foreground calls
    [resume()], which sets it to zero and takes the banner down although nothing
    has been received. *)
Lemma resume_takes_banner_down :
  fr_announce (shown_freshness (live_after refused_life) 39) = true /\
  fr_announce (shown_freshness (live_after (refused_life ++ [(40, h_resume true true half)])) 41) = false.
Proof. vm_compute. split; reflexivity. Qed.

(** The cleanup takes the state listener away before it closes the stream, so
    the connection shown stays what it was. *)
Lemma unmounted_still_shows_open :
  let cn := live_after [(0, h_mount "ws://test/stream" true half); (10, h_socket_open 0); (20, h_unmount)] in
  state (cn_stream cn) = closed /\ cn_connection cn = opened.
Proof. vm_compute. split; reflexivity. Qed.
End Examples.
