(* ===== verification/HealthView.v ===== *)
(** * HealthView: what health lets the operator conclude

    [features/health/sky-state.ts], [features/health/status-summary.ts] and
    [features/monitoring/recording-state.ts]: three pure readings of the same
    health report, and how far they agree. *)
From Stdlib Require Import ZArith Bool String List Lia.
From stdpp Require Import base option list strings pretty.
From S2P Require Import Prelude JsNumber JsString ApiTypes LiveStream LogStore.

(** ** sky-state.ts *)

Inductive SkyStateKind := sky_active | sky_active_degraded | sky_quiet | sky_degraded | sky_blind | sky_unknown.
#[export] Instance SkyStateKind_eq_dec : EqDecision SkyStateKind.
Proof. solve_decision. Defined.

Inductive Tone := tone_ok | tone_warn | tone_down | tone_muted.
#[export] Instance Tone_eq_dec : EqDecision Tone.
Proof. solve_decision. Defined.

Record SkyState := {
  sk_kind : SkyStateKind;
  sk_absenceIsEvidence : bool;
  sk_title : string;
  sk_detail : string;
  sk_tone : Tone;
  sk_unhealthy : list SensorHealth;
  sk_healthy : list SensorHealth;
  sk_trackCount : Z
}.

Definition describeSensors (sensors : list SensorHealth) : string :=
  let names := map (fun s => sh_sensor_id s +:+ " (" +:+ (sh_reason s ?? "no heartbeat") +:+ ")") sensors in
  match names with
  | [] => ""
  | [n] => n
  | _ => join ", " (removelast names) +:+ " and " +:+ List.last names ""
  end.

Definition isManned (s : SensorHealth) : bool :=
  bool_decide (sh_sensor_kind s = sdr) || bool_decide (sh_sensor_kind s = net).

(** The 5-minute detections of the sensors [pick] selects. *)
Definition count (pick : SensorHealth -> bool) (sensors : list SensorHealth) : Z :=
  fold_left (fun sum s => sum + (sh_detections_5m s ?? 0)) (List.filter pick sensors) 0.

Definition quiet_detail (sensors : list SensorHealth) (healthy : Z) : string :=
  let manned := count isManned sensors in
  let drone := count (fun s => negb (isManned s)) sensors in
  let reporting := "All " +:+ pretty healthy +:+ " sensors are reporting." in
  if (0 <? drone) && (0 <? manned) then
    reporting +:+ " " +:+ pretty drone +:+ " detections in the last 5 minutes did not correlate into a track; the " +:+
    pretty manned +:+ " ADS-B reports are manned aircraft."
  else if 0 <? drone then
    reporting +:+ " " +:+ pretty drone +:+ " detections in the last 5 minutes did not correlate into a track."
  else if 0 <? manned then
    reporting +:+ " " +:+ pretty manned +:+
    " ADS-B reports from manned aircraft in the last 5 minutes and nothing from a drone — the empty map means an empty sky."
  else
    "All " +:+ pretty healthy +:+
    " sensors are reporting and have seen nothing for 5 minutes. The empty map means an empty sky.".

Definition computeSkyState (health : option Health) (trackCount : Z) : SkyState :=
  match health with
  | None =>
      {| sk_kind := sky_unknown; sk_absenceIsEvidence := false; sk_title := "Sensor status unknown";
         sk_detail := "The API has not reported health yet. Do not read anything into what is or is not on the map.";
         sk_tone := tone_muted; sk_unhealthy := []; sk_healthy := []; sk_trackCount := trackCount |}
  | Some health =>
      let sensors := hl_sensors health in
      let healthy := List.filter sh_healthy sensors in
      let unhealthy := List.filter (fun s => negb (sh_healthy s)) sensors in
      let result kind evidence title detail tone :=
        {| sk_kind := kind; sk_absenceIsEvidence := evidence; sk_title := title; sk_detail := detail;
           sk_tone := tone; sk_unhealthy := unhealthy; sk_healthy := healthy; sk_trackCount := trackCount |} in
      if zlen healthy =? 0 then
        result sky_blind false "No sensor coverage"
          (if zlen sensors =? 0
           then "No sensors are registered. Nothing on this screen is evidence of anything."
           else "Every sensor is unhealthy: " +:+ describeSensors unhealthy +:+
                ". Nothing on this screen is evidence of anything.") tone_down
      else if 0 <? zlen unhealthy then
        result (if 0 <? trackCount then sky_active_degraded else sky_degraded) false "Coverage degraded"
          (if 0 <? trackCount
           then describeSensors unhealthy +:+ " is not reporting, so this picture is incomplete."
           else describeSensors unhealthy +:+
                " is not reporting. An empty map is not evidence of an empty sky.") tone_warn
      else if 0 <? trackCount then
        result sky_active true
          (if trackCount =? 1 then "1 active track" else pretty trackCount +:+ " active tracks")
          "All sensors are reporting." tone_ok
      else result sky_quiet true "Quiet sky" (quiet_detail sensors (zlen healthy)) tone_ok
  end.

(** ** status-summary.ts *)

Inductive StatusTone := st_ok | st_warn | st_down | st_unknown.
#[export] Instance StatusTone_eq_dec : EqDecision StatusTone.
Proof. solve_decision. Defined.

Record StatusSummary := { ss_tone : StatusTone; ss_label : string; ss_detail : string }.

Record StatusInputs := {
  si_health : option Health;
  si_monitoring : option MonitoringState;
  si_connection : ConnectionState;
  si_healthError : bool
}.

Definition summary (tone : StatusTone) (label detail : string) : StatusSummary :=
  {| ss_tone := tone; ss_label := label; ss_detail := detail |}.

Definition summariseStatus (i : StatusInputs) : StatusSummary :=
  if si_healthError i then
    summary st_down "No API" "The console cannot reach the API. Nothing on screen is current."
  else match si_health i with
  | None => summary st_unknown "Checking" "Waiting for the first health report. Do not read anything into the screen yet."
  | Some health =>
      let sensors := hl_sensors health in
      let unhealthy := List.filter (fun s => negb (sh_healthy s)) sensors in
      let paused := match si_monitoring i with Some m => negb (mn_enabled m) | None => false end in
      if bool_decide (hl_status health = sys_down) then
        summary st_down "No coverage"
          (if zlen sensors =? 0 then "No sensors are registered. Nothing on screen is evidence of anything."
           else "Every sensor is unhealthy (" +:+ pretty (zlen unhealthy) +:+ " of " +:+ pretty (zlen sensors) +:+
                "). Nothing on screen is evidence of anything.")
      else if paused then
        let discarded := match si_monitoring i with Some m => mn_discarded_while_paused m | None => 0 end in
        summary st_warn "Paused"
          (if 0 <? discarded then "Recording is paused; " +:+ pretty discarded +:+ " detections discarded so far."
           else "Recording is paused. Detections are being discarded rather than stored.")
      else if bool_decide (hl_status health = sys_degraded) || (0 <? zlen unhealthy) then
        summary st_warn (if zlen unhealthy =? 1 then "1 sensor down" else pretty (zlen unhealthy) +:+ " sensors down")
          (pretty (zlen unhealthy) +:+ " of " +:+ pretty (zlen sensors) +:+
           " sensors are unhealthy. Part of the sky is unwatched.")
      else if negb (bool_decide (si_connection i = opened)) then
        summary st_warn "Stale"
          (if bool_decide (si_connection i = closed)
           then "The live stream is disconnected. The detector is fine; this screen may be minutes old."
           else "The live stream is reconnecting. This screen may be a little behind.")
      else
        summary st_ok "Healthy"
          ("Recording, " +:+ pretty (zlen sensors) +:+ " sensor" +:+ (if zlen sensors =? 1 then "" else "s") +:+
           " healthy, live stream connected.")
  end.

(** ** recording-state.ts *)

Inductive RecordingState := rec_recording | rec_no_coverage | rec_degraded | rec_paused.
#[export] Instance RecordingState_eq_dec : EqDecision RecordingState.
Proof. solve_decision. Defined.

Definition recordingState (monitoring : option MonitoringState) (health : option Health) : option RecordingState :=
  match monitoring with
  | None => None
  | Some m =>
      if negb (mn_enabled m) then Some rec_paused
      else match health with
           | None => Some rec_recording
           | Some h =>
               let sensors := hl_sensors h in
               if zlen sensors =? 0 then Some rec_no_coverage
               else
                 let healthy := zlen (List.filter sh_healthy sensors) in
                 if healthy =? 0 then Some rec_no_coverage
                 else if healthy <? zlen sensors then Some rec_degraded
                 else Some rec_recording
           end
  end.

Definition RECORDING_LABEL (r : RecordingState) : string :=
  match r with rec_paused => "Paused" | _ => "Recording" end.
Definition RECORDING_TONE (r : RecordingState) : Tone :=
  match r with rec_recording => tone_ok | rec_no_coverage | rec_degraded => tone_muted | rec_paused => tone_warn end.

(** ** Facts *)

Lemma zlen_zero {A} (l : list A) : zlen l = 0 <-> l = [].
Proof. unfold zlen. destruct l; simpl; split; intros; try done; lia. Qed.

Lemma filter_nil_forall {A} (p : A -> bool) l : List.filter p l = [] <-> forall x, In x l -> p x = false.
Proof.
  induction l as [|x l IH]; simpl; [naive_solver|]. destruct (p x) eqn:E.
  - split; [done|]. intros H. specialize (H x (or_introl eq_refl)). congruence.
  - rewrite IH. split; intros H; [intros y [<-|Hy]; auto|auto].
Qed.

Lemma filter_split_length {A} (p : A -> bool) l :
  zlen (List.filter p l) + zlen (List.filter (fun x => negb (p x)) l) = zlen l.
Proof.
  induction l as [|x l IH]; [done|]. simpl. destruct (p x); simpl; rewrite !zlen_cons; lia.
Qed.

(** The report the API's status line stands for: down without a healthy sensor. *)
Definition consistent (h : Health) : Prop :=
  hl_status h = sys_down <-> List.filter sh_healthy (hl_sensors h) = [].

(** Absence is evidence only with every sensor healthy. *)
Lemma evidence_needs_coverage (health : option Health) (n : Z) :
  sk_absenceIsEvidence (computeSkyState health n) = true ->
  exists h, health = Some h /\ hl_sensors h <> [] /\ forall x, In x (hl_sensors h) -> sh_healthy x = true.
Proof.
  unfold computeSkyState. destruct health as [h|]; [|done]. exists h. split; [done|].
  pose proof (filter_split_length sh_healthy (hl_sensors h)) as Hlen.
  pose proof (zlen_nonneg (List.filter (fun x => negb (sh_healthy x)) (hl_sensors h))) as Hnn.
  destruct (Z.eqb_spec (zlen (List.filter sh_healthy (hl_sensors h))) 0) as [E0|E0]; [done|].
  destruct (Z.ltb_spec 0 (zlen (List.filter (fun x => negb (sh_healthy x)) (hl_sensors h)))) as [E1|E1]; [by destruct (0 <? n)|].
  split.
  - intros Hn. by rewrite Hn in E0.
  - assert (zlen (List.filter (fun x => negb (sh_healthy x)) (hl_sensors h)) = 0) as Hz by lia.
    rewrite zlen_zero, filter_nil_forall in Hz. intros x Hx. specialize (Hz x Hx). by destruct (sh_healthy x).
Qed.

(** ** Properties *)

Definition with_status (st : SystemStatus) (h : Health) : Health :=
  {| hl_status := st; hl_uptime_s := hl_uptime_s h; hl_version := hl_version h; hl_sensors := hl_sensors h |}.

Lemma sky_reading (health : option Health) (n : Z) :
  let s := computeSkyState health n in
  (sk_absenceIsEvidence s = true <->
     exists h, health = Some h /\ hl_sensors h <> [] /\ forall x, In x (hl_sensors h) -> sh_healthy x = true) /\
  (sk_kind s = sky_quiet <-> sk_absenceIsEvidence s = true /\ n <= 0) /\
  (sk_absenceIsEvidence s = false ->
     sk_kind s <> sky_quiet /\ sk_kind s <> sky_active /\ sk_tone s <> tone_ok /\ sk_title s <> "Quiet sky").
Proof.
  unfold computeSkyState. destruct health as [h|].
  2: { simpl. split; [|split; [split; [done|by intros [? _]]|done]]. split; [done|]. by intros (?&?&_). }
  pose proof (filter_split_length sh_healthy (hl_sensors h)) as Hlen.
  pose proof (zlen_nonneg (List.filter (fun x => negb (sh_healthy x)) (hl_sensors h))) as Hnn.
  assert (zlen (List.filter (fun x => negb (sh_healthy x)) (hl_sensors h)) = 0 <->
    forall x, In x (hl_sensors h) -> sh_healthy x = true) as Hall.
  { rewrite zlen_zero, filter_nil_forall. split; intros H x Hx; specialize (H x Hx); by destruct (sh_healthy x). }
  assert (zlen (hl_sensors h) = 0 <-> hl_sensors h = []) as Hne by apply zlen_zero.
  destruct (Z.eqb_spec (zlen (List.filter sh_healthy (hl_sensors h))) 0) as [E0|E0].
  { simpl. split; [|split; [split; [done|by intros [? _]]|done]]. split; [done|].
    intros (h'&[= <-]&Hn&Hh). apply Hall in Hh. destruct Hn. apply Hne. lia. }
  destruct (Z.ltb_spec 0 (zlen (List.filter (fun x => negb (sh_healthy x)) (hl_sensors h)))) as [E1|E1].
  { destruct (0 <? n); simpl; (split; [|split; [split; [done|by intros [? _]]|done]]); (split; [done|]);
      intros (h'&[= <-]&Hn&Hh); apply Hall in Hh; lia. }
  assert (exists h', Some h = Some h' /\ hl_sensors h' <> [] /\ forall x, In x (hl_sensors h') -> sh_healthy x = true) as Hex.
  { exists h. split; [done|]. split; [|apply Hall; lia]. intros Hn. apply Hne in Hn. 
    pose proof (zlen_nonneg (List.filter sh_healthy (hl_sensors h))). lia. }
  destruct (Z.ltb_spec 0 n); simpl; (split; [tauto|]); (split; [|done]); (split; [try done|]); intuition lia.
Qed.

(** C15. What the sky banner makes of an empty map depends on the sensors alone.
    It calls absence evidence if and only if health is known, at least one sensor
    is registered and every sensor reports itself healthy; with that, no tracks
    reads as a quiet sky, and without it an empty map never looks the same as a
    quiet one (kind, tone and title all differ from the quiet ones).  It does not
    look at the status of the whole, so it says the same of a unit whose sensors
    are well and whose fusion link is not ([Examples.fusion_down_reads_quiet]). *)
Theorem verdict_follows_the_sensors (health : option Health) (n : Z) :
  let s := computeSkyState health n in
  (sk_absenceIsEvidence s = true <->
     exists h, health = Some h /\ hl_sensors h <> [] /\ forall x, In x (hl_sensors h) -> sh_healthy x = true) /\
  (sk_kind s = sky_quiet <-> sk_absenceIsEvidence s = true /\ n <= 0) /\
  (sk_absenceIsEvidence s = false ->
     sk_kind s <> sky_quiet /\ sk_kind s <> sky_active /\ sk_tone s <> tone_ok /\ sk_title s <> "Quiet sky") /\
  (forall st, computeSkyState (with_status st <$> health) n = s).
Proof.
  cbv zeta. pose proof (sky_reading health n) as (? & ? & ?). split_and!; [done..|]. by destruct health.
Qed.

(** The header's one verdict agrees with the sky banner and the recording
    chip: for a report whose status says down exactly when no sensor is healthy,
    "Healthy" is shown only when absence is evidence, the stream is open and the
    switch is not off, and then the chip is green if it shows at all; the red
    verdict of a reachable API shows exactly when the sky is blind; and a paused
    recorder is never reported as healthy. *)
Lemma header_agrees (i : StatusInputs) (h : Health) (n : Z)
  (Hh : si_health i = Some h) (Hok : consistent h) :
  let v := summariseStatus i in
  (ss_tone v = st_ok ->
     sk_absenceIsEvidence (computeSkyState (Some h) n) = true /\ si_connection i = opened /\ si_healthError i = false /\
     (forall r, recordingState (si_monitoring i) (Some h) = Some r -> r = rec_recording /\ RECORDING_TONE r = tone_ok)) /\
  (si_healthError i = false ->
     (ss_tone v = st_down <-> sk_kind (computeSkyState (Some h) n) = sky_blind)) /\
  (forall m, si_monitoring i = Some m -> mn_enabled m = false -> ss_tone v <> st_ok).
Proof.
  unfold summariseStatus, consistent in *. rewrite Hh.
  pose proof (filter_split_length sh_healthy (hl_sensors h)) as Hlen.
  pose proof (zlen_nonneg (List.filter (fun x => negb (sh_healthy x)) (hl_sensors h))) as Hnn.
  rewrite <- zlen_zero in Hok.
  assert (sk_kind (computeSkyState (Some h) n) = sky_blind <-> zlen (List.filter sh_healthy (hl_sensors h)) = 0) as Hblind.
  { unfold computeSkyState. destruct (Z.eqb_spec (zlen (List.filter sh_healthy (hl_sensors h))) 0); [done|].
    destruct (0 <? zlen _), (0 <? n); simpl; split; try done; lia. }
  destruct (si_healthError i); [done|].
  case_bool_decide as Hd.
  { simpl. split; [done|]. split; [|done]. intros _. rewrite Hblind. tauto. }
  assert (zlen (List.filter sh_healthy (hl_sensors h)) <> 0) as Hnz by tauto.
  destruct (si_monitoring i) as [m|] eqn:Em; [destruct (mn_enabled m) eqn:Een|]; cbn [negb].
  2: { simpl. split; [done|]. split; [|done]. intros _. rewrite Hblind. split; [done|tauto]. }
  all: destruct (bool_decide (hl_status h = sys_degraded) ||
      (0 <? zlen (List.filter (fun s => negb (sh_healthy s)) (hl_sensors h)))) eqn:Eb;
    [simpl; split; [done|]; split; [intros _; rewrite Hblind; split; [done|tauto]|done]|];
    apply orb_false_elim in Eb as [_ Eu%Z.ltb_ge];
    (case_bool_decide as Ec; cbn [negb];
     [|simpl; split; [done|]; split; [intros _; rewrite Hblind; split; [done|tauto]|done]]);
    simpl; (split; [|split; [intros _; rewrite Hblind; split; [done|tauto]|congruence]]);
    intros _; (split; [|split; [done|split; [done|]]]).
  1,3: unfold computeSkyState;
    destruct (Z.eqb_spec (zlen (List.filter sh_healthy (hl_sensors h))) 0); [done|];
    destruct (Z.ltb_spec 0 (zlen (List.filter (fun x => negb (sh_healthy x)) (hl_sensors h)))); [lia|];
    by destruct (0 <? n).
  - intros r. unfold recordingState. rewrite Een. cbn [negb].
    destruct (Z.eqb_spec (zlen (hl_sensors h)) 0); [lia|].
    destruct (Z.eqb_spec (zlen (List.filter sh_healthy (hl_sensors h))) 0); [done|].
    destruct (Z.ltb_spec (zlen (List.filter sh_healthy (hl_sensors h))) (zlen (hl_sensors h))); [lia|].
    by intros [= <-].
  - done.
Qed.

(** ** Examples *)
Section Examples.

Definition sensor_at (id : string) (kind : SensorKind) (healthy : bool) (d : Z) : SensorHealth :=
  {| sh_sensor_id := id; sh_sensor_kind := kind; sh_healthy := healthy; sh_last_heartbeat := "";
     sh_seconds_since_heartbeat := of_Z 1; sh_detections_5m := Some d; sh_reason := None; sh_detail := None;
     sh_optional := None; sh_config := None |}.

Definition all_well : Health :=
  {| hl_status := sys_ok; hl_uptime_s := of_Z 60; hl_version := "1";
     hl_sensors := [sensor_at "wifi0" wifi true 0; sensor_at "sdr0" sdr true 470] |}.

Lemma header_agrees_witness :
  let i := {| si_health := Some all_well; si_monitoring := None; si_connection := opened; si_healthError := false |} in
  ss_tone (summariseStatus i) = st_ok /\ sk_absenceIsEvidence (computeSkyState (Some all_well) 0) = true.
Proof.
  split; [reflexivity|].
  apply (header_agrees {| si_health := Some all_well; si_monitoring := None; si_connection := opened;
                          si_healthError := false |} all_well 0 eq_refl).
  - split; discriminate.
  - reflexivity.
Defined.

Example airliners : sk_detail (computeSkyState (Some all_well) 0) =
  "All 2 sensors are reporting. 470 ADS-B reports from manned aircraft in the last 5 minutes and nothing from a drone — the empty map means an empty sky.".
Proof. reflexivity. Qed.

(** Without the report's own consistency the header and the banner part: a unit
    that lists no sensor and still says "ok" is "Healthy" above a blind sky. *)
Definition no_sensors : Health :=
  {| hl_status := sys_ok; hl_uptime_s := of_Z 60; hl_version := "1"; hl_sensors := [] |}.
Lemma header_trusts_status :
  ss_label (summariseStatus {| si_health := Some no_sensors; si_monitoring := None; si_connection := opened;
                               si_healthError := false |}) = "Healthy" /\
  sk_kind (computeSkyState (Some no_sensors) 0) = sky_blind.
Proof. split; reflexivity. Qed.

(** The API caps the status at degraded when fusion is disconnected, because
    nothing is producing tracks; the banner does not read the status. *)
Definition fusion_down : Health :=
  {| hl_status := sys_degraded; hl_uptime_s := of_Z 60; hl_version := "1"; hl_sensors := hl_sensors all_well |}.
Lemma fusion_down_reads_quiet :
  sk_absenceIsEvidence (computeSkyState (Some fusion_down) 0) = true /\
  sk_title (computeSkyState (Some fusion_down) 0) = "Quiet sky" /\
  ss_label (summariseStatus {| si_health := Some fusion_down; si_monitoring := None; si_connection := opened;
                               si_healthError := false |}) = "0 sensors down".
Proof. repeat split. Qed.

End Examples.
