(* ===== verification/SensorDetail.v ===== *)
(** * Sensor detail: what a sensor says about itself

    A sensor's [detail] map has no schema.  [features/health/sensor-summary.ts]
    picks the readings of its summary strip, [sensor-breakdowns.ts] the
    distributions drawn as bars, [sensor-detail-groups.ts] names and groups what
    is left, [detail-format.ts] prints one value, and the card of
    [features/health/components.tsx] puts the four together.  The locale's number
    formatting, its collation and the host's sort are parameters. *)
From Stdlib Require Import ZArith Bool String Ascii List Lia Permutation Sorted.
From stdpp Require Import base option list strings pretty.
From S2P Require Import Prelude JsNumber JsString JsParse Format ApiTypes.

(** [Number.prototype.toLocaleString], of the host's locale. *)
Class Locale := { toLocaleString : num -> string }.

Definition detail_map : Type := list (string * json).

(** [typeof value === 'number'], and with [Number.isFinite]. *)
Definition as_number (v : option json) : option num := match v with Some (JNum n) => Some n | _ => None end.
Definition as_finite (v : option json) : option num :=
  match as_number v with Some n => if is_finite n then Some n else None | None => None end.

(** ** The summary strip *)
Module Summary.

Inductive StatTone := tone_default | tone_ok | tone_warn | tone_down | tone_muted.
Inductive SummaryKind := count | fraction | millis | seconds.

Record SummaryMetric := {
  sm_id : string;
  sm_label : string;
  sm_kind : SummaryKind;
  sm_value : num;
  sm_hint : option string;
  sm_tone : option StatTone
}.

Record SensorSummary := { su_metrics : list SummaryMetric; su_consumed : list string }.

(** [Set.prototype.add]. *)
Definition set_add (key : string) (s : list string) : list string :=
  if existsb (String.eqb key) s then s else s ++ [key].

Fixpoint reader (detail : detail_map) (consumed : list string) (keys : list string) : option num * list string :=
  match keys with
  | [] => (None, consumed)
  | key :: keys' =>
      match as_finite (assoc key detail) with
      | Some value => (Some value, set_add key consumed)
      | None => reader detail consumed keys'
      end
  end.

Definition push (m : SummaryMetric) (s : SensorSummary) : SensorSummary :=
  {| su_metrics := su_metrics s ++ [m]; su_consumed := su_consumed s |}.

(** [const v = read(...keys); if (v !== undefined) metrics.push(...)]. *)
Definition tile (detail : detail_map) (keys : list string) (mk : num -> SummaryMetric) (s : SensorSummary)
  : option num * SensorSummary :=
  let '(value, consumed) := reader detail (su_consumed s) keys in
  let s := {| su_metrics := su_metrics s; su_consumed := consumed |} in
  (value, match value with Some v => push (mk v) s | None => s end).

Definition metric (id label : string) (kind : SummaryKind) (value : num) (hint : option string) (tone : option StatTone) : SummaryMetric :=
  {| sm_id := id; sm_label := label; sm_kind := kind; sm_value := value; sm_hint := hint; sm_tone := tone |}.

Definition LISTENING_FLOOR : num := dec 75 2.
Definition zero : num := of_Z 0.

Definition heartbeat (sensor : SensorHealth) : SummaryMetric :=
  metric "heartbeat" "Last heartbeat" seconds (sh_seconds_since_heartbeat sensor) None
    (Some (if sh_healthy sensor then tone_default else tone_down)).

Section Kinds.
Context {Loc : Locale}.

Definition wifiMetrics (sensor : SensorHealth) (detail : detail_map) (s : SensorSummary) : SensorSummary :=
  let '(_, s) := tile detail ["beacons"; "frames"] (fun heard =>
    metric "heard" "Heard" count heard
      (Some (match as_number (assoc "beacons" detail) with Some _ => "beacons" | None => "frames" end)) None) s in
  let '(_, s) := tile detail ["detections"] (fun detections =>
    metric "detections" "Drone detections" count detections (Some "since this sensor started")
      (Some (if ngt detections zero then tone_ok else tone_default))) s in
  let s := match sh_detections_5m sensor with
           | Some n =>
               push (metric "detections-5m" "Last 5 minutes" count (of_Z n)
                 (if (n =? 0) && sh_healthy sensor then Some "quiet, not deaf" else None)
                 (Some (if n =? 0 then tone_muted else tone_default))) s
           | None => s
           end in
  let '(_, s) := tile detail ["listening_fraction"] (fun listening =>
    metric "listening" "Listening share" fraction listening (Some "of the time, not retuning")
      (Some (if nlt listening LISTENING_FLOOR then tone_warn else tone_default))) s in
  let '(_, s) := tile detail ["hop_overhead_ms"] (fun lost =>
    metric "hop-overhead" "Lost to hopping" millis lost
      ((fun hops => toLocaleString hops +:+ " hops") <$> as_number (assoc "hops" detail)) None) s in
  push (heartbeat sensor) s.

Definition sdrMetrics (sensor : SensorHealth) (detail : detail_map) (s : SensorSummary) : SensorSummary :=
  let '(messages, s) := tile detail ["messages_read"; "frames"] (fun messages =>
    metric "read" "Messages read" count messages None None) s in
  let '(_, s) := tile detail ["parsed"] (fun parsed =>
    metric "parsed" "Parsed" count parsed
      (match messages with
       | Some messages =>
           if ngt messages zero then Some (toFixed 0 (nmul (ndiv parsed messages) (of_Z 100)) +:+ "% of what it read")
           else None
       | None => None
       end) None) s in
  let '(_, s) := tile detail ["icaos"] (fun icaos =>
    metric "icaos" "Aircraft heard" count icaos (Some "manned traffic, context only") None) s in
  let '(_, s) := tile detail ["parse_errors"] (fun errors =>
    metric "parse-errors" "Parse errors" count errors None
      (Some (if ngt errors zero then tone_warn else tone_default))) s in
  let '(_, s) := tile detail ["uptime_s"] (fun uptime =>
    metric "uptime" "Sensor uptime" seconds uptime None None) s in
  push (heartbeat sensor) s.

Definition otherMetrics (sensor : SensorHealth) (detail : detail_map) (s : SensorSummary) : SensorSummary :=
  let '(_, s) := tile detail ["detections"] (fun detections =>
    metric "detections" "Detections" count detections None
      (Some (if ngt detections zero then tone_ok else tone_default))) s in
  let '(_, s) := tile detail ["uptime_s"] (fun uptime =>
    metric "uptime" "Sensor uptime" seconds uptime None None) s in
  push (heartbeat sensor) s.

Definition summariseSensor (sensor : SensorHealth) : SensorSummary :=
  let detail := sh_detail sensor ?? [] in
  let s := {| su_metrics := []; su_consumed := [] |} in
  match sh_sensor_kind sensor with
  | wifi => wifiMetrics sensor detail s
  | sdr => sdrMetrics sensor detail s
  | _ => otherMetrics sensor detail s
  end.
End Kinds.

(** The readings some strip asks for. *)
Definition READS : list string :=
  ["beacons"; "frames"; "detections"; "listening_fraction"; "hop_overhead_ms";
   "messages_read"; "parsed"; "icaos"; "parse_errors"; "uptime_s"].

(** A strip so far: what it consumed are distinct finite readings of the map,
    and each is the value of one of its tiles. *)
Record strip_ok (detail : detail_map) (s : SensorSummary) : Prop := {
  st_nodup : List.NoDup (su_consumed s);
  st_reads : incl (su_consumed s) READS;
  st_shown : forall k, In k (su_consumed s) ->
    exists v, assoc k detail = Some (JNum v) /\ is_finite v = true /\ In v (map sm_value (su_metrics s))
}.

Lemma set_add_In key s k : In k (set_add key s) <-> k = key \/ In k s.
Proof.
  unfold set_add. destruct (existsb _ s) eqn:E.
  - apply existsb_exists in E as (x & Hx & ->%String.eqb_eq). split; [by right|]. by intros [->|?].
  - rewrite in_app_iff. cbn. intuition.
Qed.

Lemma set_add_NoDup key s : List.NoDup s -> List.NoDup (set_add key s).
Proof.
  unfold set_add. destruct (existsb _ s) eqn:E; [done|]. intros H. apply NoDup_app_disj; [done|repeat constructor; simpl; tauto|].
  intros x Hx [<-|[]]. assert (existsb (String.eqb key) s = true); [|congruence].
  apply existsb_exists. exists key. split; [done|]. apply String.eqb_refl.
Qed.

Lemma as_finite_Some v n : as_finite v = Some n -> v = Some (JNum n) /\ is_finite n = true.
Proof. unfold as_finite, as_number. destruct v as [[| |m| | |]|]; try done. destruct (is_finite m) eqn:E; [|done]. by intros [= <-]. Qed.

Lemma reader_spec detail c keys :
  reader detail c keys = (None, c) \/
  exists key v, In key keys /\ as_finite (assoc key detail) = Some v /\ reader detail c keys = (Some v, set_add key c).
Proof.
  induction keys as [|k ks IH]; cbn; [by left|]. destruct (as_finite (assoc k detail)) as [v|] eqn:E.
  - right. exists k, v. auto.
  - destruct IH as [->|(key & v & ? & ? & ->)]; [by left|right; exists key, v; auto].
Qed.

Lemma push_ok detail m s : strip_ok detail s -> strip_ok detail (push m s).
Proof.
  intros [H1 H2 H3]. split; try done. intros k Hk. destruct (H3 k Hk) as (v & ? & ? & ?). exists v. split_and!; try done.
  cbn. rewrite map_app, in_app_iff. by left.
Qed.

Lemma tile_ok detail keys mk s :
  incl keys READS -> (forall v, sm_value (mk v) = v) -> strip_ok detail s -> strip_ok detail (tile detail keys mk s).2.
Proof.
  intros Hk Hmk [H1 H2 H3]. unfold tile. destruct (reader_spec detail (su_consumed s) keys) as [->|(key & v & Hin & E & ->)]; [by split|].
  apply as_finite_Some in E as [E Ef]. split; cbn [snd push su_consumed su_metrics].
  - by apply set_add_NoDup.
  - intros k [->|?]%set_add_In; auto.
  - intros k [->|Hc]%set_add_In; rewrite map_app; setoid_rewrite in_app_iff.
    + exists v. split_and!; try done. right; left. apply Hmk.
    + destruct (H3 k Hc) as (u & ? & ? & ?). exists u. auto.
Qed.

Lemma summary_ok {Loc : Locale} sensor : strip_ok (sh_detail sensor ?? []) (summariseSensor sensor).
Proof.
  unfold summariseSensor. set (detail := sh_detail sensor ?? []).
  assert (strip_ok detail {| su_metrics := []; su_consumed := [] |}) as H by (split; [constructor|by intros ?|done]).
  revert H. generalize {| su_metrics := []; su_consumed := [] |} as s. intros s H.
  assert (forall keys mk s o s', tile detail keys mk s = (o, s') -> incl keys READS -> (forall v, sm_value (mk v) = v) ->
    strip_ok detail s -> strip_ok detail s') as Ht.
  { intros keys mk s0 o s' E. pose proof (tile_ok detail keys mk s0) as T. by rewrite E in T. }
  destruct (sh_sensor_kind sensor); unfold wifiMetrics, sdrMetrics, otherMetrics;
    repeat match goal with
    | |- context [tile ?d ?ks ?mk ?s] =>
        let E := fresh "E" in let s' := fresh "s" in
        destruct (tile d ks mk s) as [? s'] eqn:E;
        assert (strip_ok detail s') by (eapply Ht; [exact E|intros ?; cbn; intuition|done|];
          repeat match goal with |- context [match ?x with Some _ => _ | None => _ end] => destruct x end; auto using push_ok);
        clear E
    end; by apply push_ok.
Qed.
End Summary.

(** ** One value, printed *)
Module DetailFormat.
Section Format.
Context {Loc : Locale}.

Definition MAX_ENTRIES : nat := 6.

Definition formatNumber (n : num) : string :=
  if is_integer n then toLocaleString n else num_string (Number (toFixed 3 n)).

(** The fields that are numbers. *)
Definition numeric_entries (fields : detail_map) : list (string * num) :=
  omap (fun e => (fun n => (e.1, n)) <$> as_number (Some e.2)) fields.

Definition value_desc (a b : string * num) : bool := sub_le b.2 a.2.

Definition percent (v : num) : string := toFixed 1 (nmul v (of_Z 100)) +:+ "%".

(** A map of numbers: the largest, and how many more. *)
Definition ranking (numeric : list (string * num)) : string :=
  let asShare := forallb (fun e => nge e.2 (of_Z 0) && nle e.2 (of_Z 1)) numeric in
  let ranked := sort_by value_desc numeric in
  let shown := map (fun e => e.1 +:+ ": " +:+ (if asShare then percent e.2 else formatNumber e.2)) (take MAX_ENTRIES ranked) in
  let rest := zlen ranked - zlen shown in
  if 0 <? rest then join ", " shown +:+ ", +" +:+ pretty rest +:+ " more" else join ", " shown.

Fixpoint formatDetailValue (value : json) : string :=
  match value with
  | JNull => EMPTY
  | JNum n => formatNumber n
  | JBool b => if b then "true" else "false"
  | JStr s => s
  | JArr l => match l with [] => EMPTY | _ => join ", " (map formatDetailValue l) end
  | JObj [] => "none"
  | JObj entries =>
      let numeric := numeric_entries entries in
      if zlen numeric =? zlen entries then ranking numeric
      else join ", " (map (fun e => e.1 +:+ ": " +:+ formatDetailValue e.2) entries)
  end.
End Format.

#[local] Instance plain_locale : Locale := {| toLocaleString := num_string |}.

Example dwell_share :
  formatDetailValue (JObj [("6", JNum (dec 576 3)); ("1", JNum (dec 281 3)); ("11", JNum (dec 143 3))]) =
  "6: 57.6%, 1: 28.1%, 11: 14.3%".
Proof. vm_compute. reflexivity. Qed.

Example long_float : formatDetailValue (JNum (dec 8618144163771155 16)) = "0.862".
Proof. vm_compute. reflexivity. Qed.
End DetailFormat.

(** ** The distributions *)
Module Breakdowns.

Record KeyValueEntry := {
  kv_id : string;
  kv_label : string;
  kv_value : string;
  kv_fraction : num;
  kv_bar : option string
}.
Record Breakdown := { bd_key : string; bd_title : string; bd_description : string; bd_entries : list KeyValueEntry }.
Record Known := { kn_title : string; kn_description : string; kn_share : bool; kn_bar : option string }.

Definition KNOWN : list (string * Known) := [
  ("dwell_share",
   {| kn_title := "Dwell share by channel"; kn_description := "Where the receiver spent its listening time.";
      kn_share := true; kn_bar := Some "bg-primary" |});
  ("beacons_per_channel",
   {| kn_title := "Beacons by channel"; kn_description := "Ambient Wi-Fi. Mostly other people, and not a detection.";
      kn_share := false; kn_bar := Some "bg-muted-foreground" |});
  ("drone_hits_per_channel",
   {| kn_title := "Drone hits by channel"; kn_description := "Where the detections actually were.";
      kn_share := false; kn_bar := Some "bg-track" |})
].
Definition BREAKDOWN_KEYS : list string := map fst KNOWN.

Section Entries.
Context {Loc : Locale} {Sort : HostSort} {L : Collation}.

(** The comparator answers at most zero. *)
Definition byChannel (a b : string) : bool :=
  let na := Number a in
  let nb := Number b in
  if is_finite na && is_finite nb then sub_le na nb
  else match localeCompare a b with Gt => false | _ => true end.

(** The fields whose values are finite numbers. *)
Definition finite_entries (fields : detail_map) : list (string * num) :=
  omap (fun e => (fun n => (e.1, n)) <$> as_finite (Some e.2)) fields.

Definition entry_of (known : Known) (e : string * num) : KeyValueEntry :=
  {| kv_id := e.1;
     kv_label := "ch " +:+ e.1;
     kv_value := if kn_share known then toFixed 1 (nmul e.2 (of_Z 100)) +:+ "%" else toLocaleString e.2;
     kv_fraction := nmax (of_Z 0) e.2;
     kv_bar := kn_bar known |}.

Definition entriesOf (value : json) (known : Known) : list KeyValueEntry :=
  match value with
  | JObj fields =>
      match finite_entries fields with
      | [] => []
      | numeric => map (entry_of known) (host_sort (fun a b => byChannel a.1 b.1) numeric)
      end
  | _ => []
  end.

Definition breakdown_of (detail : detail_map) (k : string * Known) : option Breakdown :=
  let '(key, known) := k in
  match assoc key detail with
  | None => None
  | Some value =>
      match entriesOf value known with
      | [] => None
      | entries => Some {| bd_key := key; bd_title := kn_title known; bd_description := kn_description known; bd_entries := entries |}
      end
  end.

Definition sensorBreakdowns (detail : detail_map) : list Breakdown := omap (breakdown_of detail) KNOWN.

(** A distribution with something in it. *)
Definition readable (v : json) : bool :=
  match v with JObj fields => match finite_entries fields with [] => false | _ => true end | _ => false end.

Context {HS : HostSortLaws Sort}.

Lemma entriesOf_nil v known : entriesOf v known = [] <-> readable v = false.
Proof.
  unfold entriesOf, readable. destruct v as [| | | | |fields]; try done. destruct (finite_entries fields) as [|e l]; [done|].
  split; [|done]. intros H%map_eq_nil.
  pose proof (host_sort_perm _ (fun a b => byChannel a.1 b.1) (e :: l)) as Hp. rewrite H in Hp. symmetry in Hp. by apply Permutation_nil in Hp.
Qed.

Lemma breakdown_of_Some detail k :
  (exists v, assoc k.1 detail = Some v /\ readable v = true) <-> exists b, breakdown_of detail k = Some b /\ bd_key b = k.1.
Proof.
  destruct k as [key known]. cbn. destruct (assoc key detail) as [v|]; [|split; [by intros (? & ? & _)|by intros (? & ? & _)]].
  pose proof (entriesOf_nil v known) as H. destruct (entriesOf v known) as [|e es].
  - split; [|by intros (? & ? & _)]. intros (? & [= <-] & Hr). destruct H as [H _]. specialize (H eq_refl). congruence.
  - split; [intros _; by eexists|]. intros _. exists v. split; [done|]. destruct (readable v); [done|]. exfalso. by destruct H as [_ H%(fun f => f eq_refl)].
Qed.

Lemma breakdown_key detail k b : breakdown_of detail k = Some b -> bd_key b = k.1.
Proof.
  destruct k as [key known]. unfold breakdown_of. destruct (assoc key detail) as [v|]; [|done].
  by destruct (entriesOf v known); intros [= <-].
Qed.

Lemma sensorBreakdowns_keys detail k :
  In k (map bd_key (sensorBreakdowns detail)) <->
  In k BREAKDOWN_KEYS /\ exists v, assoc k detail = Some v /\ readable v = true.
Proof.
  unfold sensorBreakdowns, BREAKDOWN_KEYS. generalize KNOWN as l. induction l as [|x l IH]; [cbn; tauto|].
  cbn [omap list_omap map In fst]. pose proof (breakdown_of_Some detail x) as H. pose proof (breakdown_key detail x) as Hk.
  destruct (breakdown_of detail x) as [b|]; cbn [map In]; rewrite IH.
  - specialize (Hk b eq_refl). rewrite Hk. split; [intros [<-|?]; [|tauto]|intros [[->|?] ?]; auto].
    split; [by left|]. apply H. by exists b.
  - split; [tauto|]. intros [[<-|?] Hv]; [|tauto]. exfalso. apply H in Hv as (? & ? & _). done.
Qed.

Lemma sensorBreakdowns_nodup detail : List.NoDup (map bd_key (sensorBreakdowns detail)).
Proof.
  unfold sensorBreakdowns. assert (List.NoDup (map fst KNOWN)) as H.
  { repeat constructor; cbn; intuition discriminate. }
  revert H. generalize KNOWN as l. induction l as [|x l IH]; [constructor|]. intros [Hn Hd]%NoDup_cons_iff.
  cbn [omap list_omap]. pose proof (breakdown_key detail x) as Hk. destruct (breakdown_of detail x) as [b|]; [|by apply IH].
  cbn [map]. constructor; [|by apply IH]. rewrite (Hk b eq_refl). intros Hin. apply Hn.
  apply in_map_iff in Hin as (b' & E & Hb). apply list_elem_of_In, list_elem_of_omap in Hb as (y & Hy & Hb').
  apply breakdown_key in Hb'. rewrite <- E, Hb'. by apply in_map, list_elem_of_In.
Qed.
End Entries.
End Breakdowns.

(** ** The counters, named and grouped *)
Module Groups.

Inductive DetailSection := Radio | Traffic | Errors | Survey | Other.
#[export] Instance DetailSection_eq_dec : EqDecision DetailSection.
Proof. solve_decision. Defined.

Inductive DetailKind := kind_seconds | kind_millis | kind_fraction | kind_prose | kind_raw.

Record KnownDetail := { kd_label : string; kd_section : DetailSection; kd_kind : option DetailKind }.
Definition plain (label : string) (section : DetailSection) : KnownDetail :=
  {| kd_label := label; kd_section := section; kd_kind := None |}.
Definition measured (label : string) (section : DetailSection) (kind : DetailKind) : KnownDetail :=
  {| kd_label := label; kd_section := section; kd_kind := Some kind |}.

Definition KNOWN : list (string * KnownDetail) := [
  ("iface", plain "Interface" Radio);
  ("channel", plain "Current channel" Radio);
  ("connected", plain "Feed connected" Radio);
  ("source", plain "Feed source" Radio);
  ("subscribers", plain "Feed subscribers" Radio);
  ("reconnects", plain "Reconnects" Radio);
  ("uptime_s", measured "Sensor uptime" Radio kind_seconds);
  ("plan", plain "Channel plan" Radio);
  ("plan_fallback", plain "Widened to full plan" Radio);
  ("companion_iface", plain "Companion receiver" Radio);
  ("companion_present", plain "Companion present" Radio);
  ("plan_widened_for_peer", plain "Widened while peer busy" Radio);
  ("plan_swaps", plain "Plan swaps" Radio);
  ("peers_active", plain "Peer receiver busy" Radio);
  ("peer_tracks_seen", plain "Peer tracks seen" Radio);
  ("seconds_since_message", measured "Since last message" Radio kind_seconds);
  ("frames", plain "Frames heard" Traffic);
  ("beacons", plain "Beacons heard" Traffic);
  ("beacons_per_channel", plain "Beacons by channel" Traffic);
  ("messages_read", plain "Messages read" Traffic);
  ("parsed", plain "Messages parsed" Traffic);
  ("icaos", plain "Aircraft heard" Traffic);
  ("detections", plain "Drone detections" Traffic);
  ("drone_hits_per_channel", plain "Drone hits by channel" Traffic);
  ("class_a", plain "Class A (Remote ID)" Traffic);
  ("class_b", plain "Class B (DJI DroneID)" Traffic);
  ("class_c", plain "Class C (fingerprint)" Traffic);
  ("hops", plain "Channel hops" Traffic);
  ("scan_dwells", plain "Scan dwells" Traffic);
  ("dwell_share", plain "Dwell share by channel" Traffic);
  ("listening_fraction", measured "Time spent listening" Traffic kind_fraction);
  ("hop_overhead_ms", measured "Time lost to hopping" Traffic kind_millis);
  ("hop_latency_ms", measured "Cost per hop" Traffic kind_millis);
  ("hop_latency_measured", plain "Hop cost measured" Traffic);
  ("escalations", plain "Escalations" Traffic);
  ("currently_escalated", plain "Escalated right now" Traffic);
  ("channel_errors", plain "Channel errors" Errors);
  ("parse_errors", plain "Parse errors" Errors);
  ("read_errors", plain "Read errors" Errors);
  ("unparsed", plain "Unparsed messages" Errors);
  ("survey_available", plain "Survey available" Survey);
  ("survey_seen", plain "Survey entries" Survey);
  ("survey_reason", measured "Survey note" Survey kind_prose)
].
Definition KNOWN_ORDER : list string := map fst KNOWN.
Definition SECTION_ORDER : list DetailSection := [Radio; Traffic; Errors; Survey; Other].

Record DetailRow := { dr_key : string; dr_label : string; dr_value : json; dr_kind : DetailKind }.
Record DetailGroup := { dg_section : DetailSection; dg_rows : list DetailRow }.

(** [key.replaceAll('_', ' ')]. *)
Fixpoint spaced (key : string) : string :=
  match key with
  | EmptyString => ""
  | String c key' => String (if Ascii.eqb c "_" then " " else c)%char (spaced key')
  end.

Definition section_of (key : string) : DetailSection := (kd_section <$> assoc key KNOWN) ?? Other.

Definition row_of (e : string * json) : DetailRow :=
  let known := assoc e.1 KNOWN in
  {| dr_key := e.1;
     dr_label := (kd_label <$> known) ?? spaced e.1;
     dr_value := e.2;
     dr_kind := (known ≫= kd_kind) ?? kind_raw |}.

(** The map under construction, in insertion order. *)
Fixpoint add_row (section : DetailSection) (row : DetailRow) (m : list (DetailSection * list DetailRow)) :=
  match m with
  | [] => [(section, [row])]
  | (s, rows) :: m' => if decide (s = section) then (s, rows ++ [row]) :: m' else (s, rows) :: add_row section row m'
  end.
Fixpoint rows_of (section : DetailSection) (m : list (DetailSection * list DetailRow)) : option (list DetailRow) :=
  match m with
  | [] => None
  | (s, rows) :: m' => if decide (s = section) then Some rows else rows_of section m'
  end.

Section Group.
Context {L : Collation}.

(** The comparator answers at most zero. *)
Definition row_le (a b : DetailRow) : bool :=
  match find_index (String.eqb (dr_key a)) KNOWN_ORDER, find_index (String.eqb (dr_key b)) KNOWN_ORDER with
  | None, None => match localeCompare (dr_key a) (dr_key b) with Gt => false | _ => true end
  | None, _ => false
  | _, None => true
  | Some ai, Some bi => (ai <=? bi)%nat
  end.

Definition groupSensorDetail (detail : detail_map) (omit : list string) : list DetailGroup :=
  let bySection := fold_left (fun m e =>
    if existsb (String.eqb e.1) omit then m else add_row (section_of e.1) (row_of e) m) detail [] in
  omap (fun section => (fun rows => {| dg_section := section; dg_rows := sort_by row_le rows |}) <$> rows_of section bySection)
    SECTION_ORDER.

(** ** What the groups hold *)
Definition kept (detail : detail_map) (omit : list string) : detail_map :=
  List.filter (fun e => negb (existsb (String.eqb e.1) omit)) detail.
Definition of_section (section : DetailSection) (l : detail_map) : detail_map :=
  List.filter (fun e => bool_decide (section_of e.1 = section)) l.

Lemma kept_cons e l omit :
  kept (e :: l) omit = if negb (existsb (String.eqb e.1) omit) then e :: kept l omit else kept l omit.
Proof. done. Qed.

Lemma of_section_cons s e l :
  of_section s (e :: l) = if bool_decide (section_of e.1 = s) then e :: of_section s l else of_section s l.
Proof. done. Qed.

Lemma rows_of_add_row s s' row m :
  rows_of s (add_row s' row m) = if decide (s' = s) then Some ((rows_of s m ?? []) ++ [row]) else rows_of s m.
Proof.
  induction m as [|[k rows] m IH]; cbn; [done|]. destruct (decide (k = s')) as [->|Hk]; cbn.
  - by destruct (decide (s' = s)).
  - rewrite IH. destruct (decide (k = s)) as [->|]; [|done]. by destruct (decide (s' = s)); [congruence|].
Qed.

Lemma rows_of_fold section detail omit :
  rows_of section (fold_left (fun m e =>
    if existsb (String.eqb e.1) omit then m else add_row (section_of e.1) (row_of e) m) detail []) =
  match map row_of (of_section section (kept detail omit)) with [] => None | rows => Some rows end.
Proof.
  set (step := fun m e => _).
  assert (forall m, rows_of section (fold_left step detail m) =
    match rows_of section m, map row_of (of_section section (kept detail omit)) with
    | None, [] => None
    | o, rows => Some ((o ?? []) ++ rows)
    end) as H; [|rewrite (H []); cbn; by destruct (map row_of _)].
  induction detail as [|e l IH]; intros m; [cbn; destruct (rows_of section m) as [rows|]; [by rewrite app_nil_r|done]|].
  cbn [fold_left]. rewrite IH, kept_cons. unfold step. destruct (existsb _ omit); cbn [negb]; [done|].
  rewrite rows_of_add_row, of_section_cons. destruct (decide (section_of e.1 = section)) as [Hs|Hs].
  - rewrite bool_decide_true by done. cbn [map]. rewrite <- app_assoc. cbn [app]. by destruct (rows_of section m).
  - by rewrite bool_decide_false by done.
Qed.

Lemma sections_cover (l : detail_map) : Permutation (flat_map (fun s => of_section s l) SECTION_ORDER) l.
Proof.
  unfold SECTION_ORDER. cbn [flat_map]. rewrite app_nil_r. induction l as [|e l IH]; [done|].
  rewrite !of_section_cons. destruct (section_of e.1);
    repeat first [rewrite bool_decide_true by done | rewrite bool_decide_false by done]; cbn [app];
    rewrite ?app_assoc; apply Permutation_cons_mid || constructor; by rewrite <- ?app_assoc.
Qed.

Context {HL : CollationLaws L}.

Lemma row_le_total a b : row_le a b = true \/ row_le b a = true.
Proof.
  unfold row_le. destruct (find_index _ _) as [i|], (find_index (String.eqb (dr_key b)) _) as [j|]; auto.
  - rewrite !Nat.leb_le. lia.
  - rewrite (collate_antisym (dr_key a) (dr_key b)). destruct (localeCompare (dr_key a) (dr_key b)); cbn; auto.
Qed.

Lemma row_le_trans a b c : row_le a b = true -> row_le b c = true -> row_le a c = true.
Proof.
  unfold row_le. destruct (find_index _ _) as [i|], (find_index (String.eqb (dr_key b)) _) as [j|],
    (find_index (String.eqb (dr_key c)) _) as [k|]; try done.
  - rewrite !Nat.leb_le. lia.
  - intros H1 H2. pose proof (collate_trans (dr_key a) (dr_key b) (dr_key c)) as H.
    destruct (localeCompare (dr_key a) (dr_key b)), (localeCompare (dr_key b) (dr_key c)), (localeCompare (dr_key a) (dr_key c));
      try done; exfalso; by apply H.
Qed.

(** Each section that has a row, in order, with its rows and no others, sorted. *)
Lemma groupSensorDetail_spec detail omit :
  Permutation (flat_map dg_rows (groupSensorDetail detail omit)) (map row_of (kept detail omit)) /\
  sublist (map dg_section (groupSensorDetail detail omit)) SECTION_ORDER /\
  forall g, In g (groupSensorDetail detail omit) ->
    dg_rows g <> [] /\ StronglySorted (fun a b => row_le a b = true) (dg_rows g) /\
    forall r, In r (dg_rows g) -> section_of (dr_key r) = dg_section g.
Proof.
  unfold groupSensorDetail. cbn zeta. set (m := fold_left _ detail []).
  set (group := fun section => _).
  assert (forall s, group s = match of_section s (kept detail omit) with
    | [] => None
    | l => Some {| dg_section := s; dg_rows := sort_by row_le (map row_of l) |}
    end) as Hg.
  { intros s. unfold group, m. rewrite rows_of_fold. by destruct (of_section s _). }
  clearbody group. clear m. split_and!.
  - apply Permutation_trans with (map row_of (flat_map (fun s => of_section s (kept detail omit)) SECTION_ORDER));
      [|by apply Permutation_map, sections_cover]. generalize SECTION_ORDER as l.
    induction l as [|s l IH]; [done|]. cbn [omap list_omap flat_map]. rewrite Hg, map_app.
    destruct (of_section s _) as [|e es] eqn:E; [done|]. cbn [flat_map dg_rows]. rewrite IH. apply Permutation_app_tail.
    symmetry. apply sort_by_perm.
  - generalize SECTION_ORDER as l. induction l as [|s l IH]; [constructor|]. cbn [omap list_omap]. rewrite Hg.
    destruct (of_section s _); cbn; by constructor.
  - intros g Hin. apply list_elem_of_In, list_elem_of_omap in Hin as (s & _ & Eg). rewrite Hg in Eg.
    destruct (of_section s (kept detail omit)) as [|e es] eqn:E; [done|]. rewrite <- E in Eg.
    assert (of_section s (kept detail omit) <> []) as Hne by congruence. clear E. injection Eg as <-. cbn [dg_rows dg_section]. split_and!.
    + intros H. apply Hne. pose proof (sort_by_length row_le (map row_of (of_section s (kept detail omit)))) as Hl. rewrite H, List.length_map in Hl.
      by destruct (of_section s (kept detail omit)).
    + apply sort_by_sorted; [apply row_le_total|apply row_le_trans].
    + intros r. rewrite sort_by_In, in_map_iff. intros (e' & <- & [_ H]%List.filter_In). by apply bool_decide_eq_true in H.
Qed.
End Group.
End Groups.

(** ** The card *)
Section Card.
Context {Loc : Locale} {Sort : HostSort} {L : Collation}.

Definition card_breakdowns (sensor : SensorHealth) : list Breakdowns.Breakdown :=
  Breakdowns.sensorBreakdowns (sh_detail sensor ?? []).
Definition card_groups (sensor : SensorHealth) : list Groups.DetailGroup :=
  Groups.groupSensorDetail (sh_detail sensor ?? [])
    (Summary.su_consumed (Summary.summariseSensor sensor) ++ Breakdowns.BREAKDOWN_KEYS ++ ["survey_reason"]).

(** [formatSummaryValue] and [formatDetailRow]. *)
Definition formatSummaryValue (m : Summary.SummaryMetric) : string :=
  match Summary.sm_kind m with
  | Summary.seconds => formatDuration (Summary.sm_value m)
  | Summary.millis => formatDuration (ndiv (Summary.sm_value m) (of_Z 1000))
  | Summary.fraction => toFixed 0 (nmul (Summary.sm_value m) (of_Z 100)) +:+ "%"
  | Summary.count => toLocaleString (Summary.sm_value m)
  end.
Definition formatDetailRow (row : Groups.DetailRow) : string :=
  match Groups.dr_kind row, Groups.dr_value row with
  | Groups.kind_seconds, JNum v => formatDuration v
  | Groups.kind_millis, JNum v => formatDuration (ndiv v (of_Z 1000))
  | Groups.kind_fraction, JNum v => toFixed 1 (nmul v (of_Z 100)) +:+ "%"
  | Groups.kind_prose, JStr v => v
  | _, v => DetailFormat.formatDetailValue v
  end.

(** The keys whose readings are on the card, in the order of its parts. *)
Definition card_keys (sensor : SensorHealth) : list string :=
  Summary.su_consumed (Summary.summariseSensor sensor) ++
  map Breakdowns.bd_key (card_breakdowns sensor) ++
  map Groups.dr_key (flat_map Groups.dg_rows (card_groups sensor)).
End Card.

Lemma assoc_NoDup {A} (l : list (string * A)) k v : List.NoDup (map fst l) -> In (k, v) l <-> assoc k l = Some v.
Proof.
  induction l as [|[k' u] l IH]; [done|]. cbn. intros [Hn Hd]%NoDup_cons_iff. destruct (String.eqb_spec k' k) as [->|Hne].
  - split; [|intros [= ->]; by left]. intros [[= ->]|Hin]; [done|]. exfalso. apply Hn, in_map_iff. by exists (k, v).
  - rewrite <- IH by done. split; [intros [[= ? _]|?]; done|by right].
Qed.

Lemma existsb_In k l : existsb (String.eqb k) l = true <-> In k l.
Proof.
  rewrite existsb_exists. split; [by intros (x & ? & ->%String.eqb_eq)|]. intros H. exists k. by rewrite String.eqb_refl.
Qed.

Lemma assoc_keys {A} (l : list (string * A)) k : List.NoDup (map fst l) -> In k (map fst l) <-> exists v, assoc k l = Some v.
Proof.
  intros Hd. rewrite in_map_iff. split.
  - intros ([k' v] & <- & H). exists v. by apply assoc_NoDup.
  - intros [v H]. exists (k, v). split; [done|]. by apply assoc_NoDup.
Qed.

Lemma kept_In detail omit e : In e (Groups.kept detail omit) <-> In e detail /\ ~ In e.1 omit.
Proof.
  unfold Groups.kept. rewrite List.filter_In, <- (existsb_In e.1 omit). destruct (existsb _ omit); cbn; intuition congruence.
Qed.

Lemma kept_keys detail omit k :
  In k (map fst (Groups.kept detail omit)) <-> In k (map fst detail) /\ ~ In k omit.
Proof.
  rewrite !in_map_iff. setoid_rewrite kept_In. split.
  - intros (e & <- & ? & ?). eauto.
  - intros [(e & <- & ?) ?]. eauto.
Qed.

Lemma strip_is_not_bars k :
  In k Summary.READS -> ~ (In k Breakdowns.BREAKDOWN_KEYS \/ k = "survey_reason").
Proof. intros H1 H2. cbn in H1, H2. intuition congruence. Qed.

(** Every reading is on a sensor's card once.  For a detail map with distinct
    keys, no key is shown twice between the strip, the bars and the counters,
    and no key is shown that the sensor did not send.  A key of the strip is a
    finite reading and the value of a tile; a key of the bars is a distribution
    with an entry; a row of the counters has the sensor's own value.  What is
    left out is exactly the survey note and the distributions with nothing to
    draw. *)
Lemma readings_shown_once {Loc : Locale} {Sort : HostSort} {HS : HostSortLaws Sort} {L : Collation} {HL : CollationLaws L}
    (sensor : SensorHealth) :
  let detail := sh_detail sensor ?? [] in
  let strip := Summary.summariseSensor sensor in
  List.NoDup (map fst detail) ->
  List.NoDup (card_keys sensor) /\
  (forall k, In k (Summary.su_consumed strip) ->
     exists v, assoc k detail = Some (JNum v) /\ is_finite v = true /\ In v (map Summary.sm_value (Summary.su_metrics strip))) /\
  (forall k, In k (map Breakdowns.bd_key (card_breakdowns sensor)) ->
     exists v, assoc k detail = Some v /\ Breakdowns.readable v = true) /\
  (forall r, In r (flat_map Groups.dg_rows (card_groups sensor)) -> assoc (Groups.dr_key r) detail = Some (Groups.dr_value r)) /\
  (forall k v, assoc k detail = Some v ->
     In k (card_keys sensor) <->
     ~ (k = "survey_reason" \/ In k Breakdowns.BREAKDOWN_KEYS /\ Breakdowns.readable v = false)).
Proof.
  cbn zeta. intros Hd. destruct (Summary.summary_ok sensor) as [Hn Hr Hs].
  destruct (Groups.groupSensorDetail_spec (sh_detail sensor ?? [])
    (Summary.su_consumed (Summary.summariseSensor sensor) ++ Breakdowns.BREAKDOWN_KEYS ++ ["survey_reason"])) as (Hp & _ & _).
  fold (card_groups sensor) in Hp.
  pose proof (Breakdowns.sensorBreakdowns_keys (sh_detail sensor ?? [])) as Hb. fold (card_breakdowns sensor) in Hb.
  pose proof (Breakdowns.sensorBreakdowns_nodup (sh_detail sensor ?? [])) as Hbn. fold (card_breakdowns sensor) in Hbn.
  unfold card_keys. set (detail := sh_detail sensor ?? []) in *.
  set (consumed := Summary.su_consumed _) in *. set (omit := consumed ++ _ ++ _) in *.
  set (bars := map Breakdowns.bd_key _) in *. set (rows := flat_map _ _) in *.
  assert (forall k, In k omit <-> In k consumed \/ In k Breakdowns.BREAKDOWN_KEYS \/ k = "survey_reason") as Ho.
  { intros k. unfold omit. rewrite !in_app_iff. cbn [In]. intuition. }
  assert (Permutation (map Groups.dr_key rows) (map fst (Groups.kept detail omit))) as Hpk.
  { rewrite (Permutation_map Groups.dr_key Hp), map_map. done. }
  assert (forall k, In k (map Groups.dr_key rows) <-> In k (map fst detail) /\ ~ In k omit) as Hk.
  { intros k. rewrite Hpk. apply kept_keys. }
  clearbody rows bars. split_and!; [|done|by intros k [_ H]%Hb| |].
  - apply NoDup_app_disj; [done|apply NoDup_app_disj; [done| |]|].
    + rewrite Hpk. by apply NoDup_map_filter.
    + intros k [Hbk _]%Hb [_ Hno]%Hk. apply Hno, Ho. auto.
    + intros k Hc [[Hbk _]%Hb|[_ Hno]%Hk]%in_app_iff; [|apply Hno, Ho; auto].
      apply (strip_is_not_bars k); [by apply Hr|auto].
  - intros r Hrow. rewrite Hp in Hrow. apply in_map_iff in Hrow as ([k v] & <- & [Hin _]%kept_In). by apply assoc_NoDup.
  - intros k v Hv. rewrite !in_app_iff, Hk, Ho, (assoc_keys detail k Hd), Hb. split.
    + intros [Hc|[[Hbk (u & Hu & Hru)]|[_ Hno]]] Hout.
      * apply (strip_is_not_bars k); [by apply Hr|]. tauto.
      * change (assoc k detail = Some u) in Hu. destruct Hout as [->|[_ Hf]]; [by repeat (destruct Hbk as [Hbk|Hbk]; try discriminate Hbk)|congruence].
      * tauto.
    + intros Hno. destruct (in_dec string_dec k consumed) as [?|Hc]; [by left|].
      destruct (in_dec string_dec k Breakdowns.BREAKDOWN_KEYS) as [Hbk|Hbk].
      * right; left. split; [done|]. exists v. split; [done|]. destruct (Breakdowns.readable v); [done|]. exfalso. auto.
      * right; right. split; [by exists v|]. tauto.
Qed.

(** ** Channels in order *)
Definition channels : list Z := map Z.of_nat (seq 0 256).

Lemma channels_compare :
  forallb (fun a => forallb (fun b => Bool.eqb (sub_le (of_Z a) (of_Z b)) (a <=? b)) channels) channels = true.
Proof. vm_compute. reflexivity. Qed.

Lemma channel_In n : 0 <= n < 256 -> In n channels.
Proof. intros H. apply in_map_iff. exists (Z.to_nat n). rewrite in_seq. lia. Qed.

Lemma byChannel_numbers {L : Collation} a b :
  0 <= a < 256 -> 0 <= b < 256 -> Breakdowns.byChannel (pretty a) (pretty b) = (a <=? b).
Proof.
  intros Ha Hb. unfold Breakdowns.byChannel. rewrite !Number_pretty, !of_Z_finite by lia. cbn [andb].
  pose proof channels_compare as H. rewrite forallb_forall in H. specialize (H a (channel_In a Ha)).
  rewrite forallb_forall in H. specialize (H b (channel_In b Hb)). by apply Bool.eqb_prop in H.
Qed.

Lemma StronglySorted_map {A B} (R : B -> B -> Prop) (f : A -> B) l :
  StronglySorted (fun a b => R (f a) (f b)) l <-> StronglySorted R (map f l).
Proof.
  induction l as [|x l IH]; cbn; [split; constructor|].
  split; intros [Hs Hf]%StronglySorted_inv; (constructor; [by apply IH|]); rewrite List.Forall_forall in *.
  - intros y (z & <- & Hz)%in_map_iff. auto.
  - intros y Hy. by apply Hf, in_map.
Qed.

(** Bars whose keys are channel numbers stand in the order of the numbers. *)
Lemma bars_in_channel_order {Loc : Locale} {Sort : HostSort} {HS : HostSortLaws Sort} {L : Collation} fields known ns :
  map fst (Breakdowns.finite_entries fields) = map pretty ns -> List.Forall (fun n => 0 <= n < 256) ns ->
  exists ms, Permutation ns ms /\ StronglySorted (fun a b => a <= b) ms /\
    map Breakdowns.kv_id (Breakdowns.entriesOf (JObj fields) known) = map pretty ms.
Proof.
  intros Hk Hn. rewrite List.Forall_forall in Hn. set (le := fun a b : string * num => Breakdowns.byChannel a.1 b.1).
  set (E := Breakdowns.finite_entries fields) in *.
  assert (forall x, In x E -> exists n, x.1 = pretty n /\ 0 <= n < 256) as Hx.
  { intros x Hin. apply (in_map fst) in Hin. rewrite Hk in Hin. apply in_map_iff in Hin as (n & <- & ?). eauto. }
  assert (StronglySorted (fun a b => le a b = true) (host_sort le E)) as Hs.
  { apply host_sort_sorted; unfold le.
    - intros x y (n & -> & ?)%Hx (m & -> & ?)%Hx. rewrite !byChannel_numbers, !Z.leb_le by done. lia.
    - intros x y z (n & -> & ?)%Hx (m & -> & ?)%Hx (k & -> & ?)%Hx. rewrite !byChannel_numbers, !Z.leb_le by done. lia. }
  pose proof (Permutation_map fst (host_sort_perm _ le E)) as Hp. rewrite Hk in Hp. symmetry in Hp.
  apply Permutation_map_inv in Hp as (ms & Hms & Hp). exists ms. split_and!; [done| |].
  - apply (StronglySorted_map (fun a b => Breakdowns.byChannel a b = true) fst) in Hs.
    rewrite Hms in Hs. apply StronglySorted_map in Hs.
    assert (forall m, In m ms -> 0 <= m < 256) as Hm by (intros m ?; apply Hn; by rewrite Hp).
    clear - Hs Hm. induction Hs as [|m ms Hs IH Hf]; constructor; [apply IH; intros; apply Hm; by right|].
    rewrite List.Forall_forall in *. intros k Hin. specialize (Hf k Hin).
    rewrite byChannel_numbers, Z.leb_le in Hf; [done|apply Hm; by left|apply Hm; by right].
  - unfold Breakdowns.entriesOf. fold E. destruct E as [|e es] eqn:He.
    + cbn. rewrite <- Hms. symmetry. destruct (host_sort le []) eqn:Eh; [done|].
      pose proof (host_sort_perm _ le []) as Hp'. rewrite Eh in Hp'. by apply Permutation_nil in Hp'.
    + rewrite map_map. cbn [Breakdowns.entry_of Breakdowns.kv_id]. exact Hms.
Qed.

(** ** Examples, and what is left out *)
#[local] Instance plain_locale : Locale := {| toLocaleString := num_string |}.
#[local] Existing Instance insertion.
#[local] Existing Instance code_units.
#[local] Existing Instance code_units_laws.

Definition a_sensor (detail : detail_map) : SensorHealth := {|
  sh_sensor_id := "wifi-0"; sh_sensor_kind := wifi; sh_healthy := true; sh_last_heartbeat := "2026-07-26T03:00:00Z";
  sh_seconds_since_heartbeat := of_Z 3; sh_detections_5m := Some 0; sh_reason := None; sh_detail := Some detail;
  sh_optional := None; sh_config := None
|}.
Definition a_detail : detail_map := [
  ("beacons", JNum (of_Z 8100)); ("detections", JStr "many"); ("zz_new", JBool true);
  ("dwell_share", JObj [("11", JNum (dec 143 3)); ("6", JNum (dec 576 3)); ("note", JStr "x")]);
  ("beacons_per_channel", JObj []); ("survey_reason", JStr "none"); ("hops", JNum (of_Z 12)); ("channel", JNum (of_Z 6))
].

Lemma readings_shown_once_witness :
  List.NoDup (map fst a_detail) /\
  card_keys (a_sensor a_detail) = ["beacons"; "dwell_share"; "channel"; "detections"; "hops"; "zz_new"] /\
  List.NoDup (card_keys (a_sensor a_detail)).
Proof.
  assert (List.NoDup (map fst a_detail)) as H by (repeat constructor; cbn; intuition discriminate).
  split; [exact H|]. split; [vm_compute; reflexivity|].
  exact (proj1 (readings_shown_once (a_sensor a_detail) H)).
Defined.

(** A distribution the sensor reports but that has nothing to draw is nowhere on
    the card: the bars skip it, and the counters leave out every bar's key. *)
Lemma empty_distribution_is_nowhere :
  ~ In "beacons_per_channel" (card_keys (a_sensor [("beacons_per_channel", JNum (of_Z 40))])) /\
  ~ In "beacons_per_channel" (card_keys (a_sensor a_detail)).
Proof. split; vm_compute; intuition discriminate. Qed.

(** With one key that is not a number the channel comparator is no order. *)
Lemma channel_order_is_circular :
  Breakdowns.byChannel "9" "10" = true /\ Breakdowns.byChannel "10" "9" = false /\
  Breakdowns.byChannel "10" "1x" = true /\ Breakdowns.byChannel "1x" "9" = true /\ Breakdowns.byChannel "9" "1x" = false.
Proof. vm_compute. done. Qed.
