(* ===== verification/Series.v ===== *)
(** * Series: histories drawn as lines

    [features/settings/hosts/telemetry-series.ts] cuts a figure's history into
    the segments its chart draws, thins them and finds the sample under the
    pointer; [features/spectrum/trace-series.ts] does the same for a sweep;
    [features/settings/storage/storage-forecast.ts] fits the free space's trend.
    A reading that was not taken is [None], an instant that does not parse is
    NaN. *)
From Stdlib Require Import ZArith Bool String Ascii List Lia Permutation Sorted SpecFloat.
From stdpp Require Import base option list strings.
From S2P Require Import Prelude JsNumber JsDate ApiTypes.

(** ** Runs of readings

    The loop both charts share: a reading that is missing ends the run, and so
    does one that may not be joined to the last. *)
Section Runs.
Context {P : Type} (link : P -> P -> bool).

Definition flush (st : list (list P) * list P) : list (list P) :=
  match st.2 with [] => st.1 | current => st.1 ++ [current] end.

Definition run_step (st : list (list P) * list P) (reading : option P) : list (list P) * list P :=
  match reading with
  | None => (flush st, [])
  | Some p =>
      match last st.2 with
      | Some l => if link l p then (st.1, st.2 ++ [p]) else (st.1 ++ [st.2], [p])
      | None => (st.1, st.2 ++ [p])
      end
  end.

Definition runs (readings : list (option P)) : list (list P) := flush (fold_left run_step readings ([], [])).

(** A run that cannot be extended: consecutive readings, each joined to the next,
    between readings that are missing or not to be joined. *)
Record maximal_run (readings : list (option P)) (seg : list P) (pre post : list (option P)) : Prop := {
  mr_at : readings = pre ++ map Some seg ++ post;
  mr_some : seg <> [];
  mr_linked : Sorted (fun a b => link a b = true) seg;
  mr_left : forall p a, last pre = Some (Some p) -> head seg = Some a -> link p a = false;
  mr_right : forall p a, head post = Some (Some p) -> last seg = Some a -> link a p = false
}.

Lemma Sorted_snoc R (l : list P) x : Sorted R l -> (forall y, last l = Some y -> R y x) -> Sorted R (l ++ [x]).
Proof.
  induction 1 as [|a l Hs IH Hd]; intros Hx; cbn; [repeat constructor|]. constructor.
  - apply IH. intros y Hy. apply Hx. destruct l; [done|]. exact Hy.
  - inversion Hd; subst; cbn; constructor; [by apply Hx|done].
Qed.

(** A run that the readings so far have ended stays maximal as more arrive. *)
Definition ended (done_ : list (option P)) (seg : list P) : Prop :=
  exists pre post, maximal_run done_ seg pre post /\ post <> [].

Lemma ended_snoc done_ r seg : ended done_ seg -> ended (done_ ++ [r]) seg.
Proof.
  intros (pre & post & [-> H1 H2 H3 H4] & Hp). exists pre, (post ++ [r]). split; [|by destruct post].
  split; try done; [by rewrite <- !app_assoc|]. intros p a. destruct post; [done|]. exact (H4 p a).
Qed.

(** The loop after the readings [done_]: closed runs, and the one still open. *)
Record loop_ok (done_ : list (option P)) (st : list (list P) * list P) : Prop := {
  lp_all : concat st.1 ++ st.2 = omap id done_;
  lp_closed : forall seg, In seg st.1 -> ended done_ seg;
  lp_open : st.2 <> [] -> exists pre, maximal_run done_ st.2 pre [];
  lp_none : st.2 = [] -> forall p, last done_ <> Some (Some p)
}.

Lemma maximal_close done_ cur pre r :
  maximal_run done_ cur pre [] -> (forall p a, r = Some p -> last cur = Some a -> link a p = false) ->
  ended (done_ ++ [r]) cur.
Proof.
  intros [-> H1 H2 H3 _] Hr. exists pre, [r]. split; [|done]. split; try done; [by rewrite app_nil_r, <- app_assoc|].
  intros p a [= ->]. by apply Hr.
Qed.

Lemma omap_snoc (l : list (option P)) r : omap id (l ++ [r]) = omap id l ++ match r with Some p => [p] | None => [] end.
Proof. induction l as [|x l IH]; cbn; [by destruct r|]. destruct x; cbn; by rewrite IH. Qed.

Lemma flush_all st : concat (flush st) = concat st.1 ++ st.2.
Proof. unfold flush. destruct st as [segs [|p cur]]; cbn; [by rewrite app_nil_r|]. rewrite concat_app. cbn. by rewrite app_nil_r. Qed.

Lemma reading_step_ok done_ st r : loop_ok done_ st -> loop_ok (done_ ++ [r]) (run_step st r).
Proof.
  intros [Ha Hc Ho Hn]. destruct st as [segs cur]. cbn [fst snd] in *. unfold run_step. cbn [fst snd].
  destruct r as [p|].
  - assert (maximal_run (done_ ++ [Some p]) [p] done_ [] \/ exists l, last cur = Some l /\ link l p = true) as Hp.
    { destruct (last cur) as [l|] eqn:El; [destruct (link l p) eqn:Ek; [right; eauto|]|]; left; split; try done; try (by repeat constructor).
      - intros q a Hq [= <-]. destruct (Ho ltac:(by destruct cur)) as (pre & [-> _ _ _ _]). rewrite app_nil_r, last_app, fmap_last, El in Hq.
        by injection Hq as <-.
      - intros q a Hq _. destruct cur as [|c cur]; [by apply Hn in Hq|]. by rewrite last_cons in El; destruct (last cur). }
    destruct (last cur) as [l|] eqn:El.
    + destruct (Ho ltac:(by destruct cur)) as (pre & Hm). destruct (link l p) eqn:Ek.
      * split; cbn [fst snd]; [by rewrite omap_snoc, <- Ha, <- app_assoc|intros seg ?; by apply ended_snoc, Hc| |by destruct cur].
        intros _. exists pre. destruct Hm as [-> H1 H2 H3 H4]. split; try done; [by rewrite !app_nil_r, map_app, <- app_assoc| | |].
        { by destruct cur. }
        { apply Sorted_snoc; [done|]. intros y Hy. rewrite El in Hy. by injection Hy as <-. }
        { intros q a Hq Hd. apply H3; [done|]. by destruct cur. }
      * split; cbn [fst snd]; [|intros seg [?|[<-|[]]]%in_app_iff|intros _|done].
        { rewrite omap_snoc, <- Ha, concat_app. cbn. by rewrite app_nil_r. }
        { by apply ended_snoc, Hc. }
        { apply (maximal_close _ _ pre); [done|]. intros q a [= <-] Hl. rewrite El in Hl. by injection Hl as <-. }
        { destruct Hp as [Hp|(l' & E & Hl)]; [by eexists|]. injection E as <-. congruence. }
    + assert (cur = []) as -> by (destruct cur as [|c cur]; [done|]; rewrite last_cons in El; by destruct (last cur)).
      destruct Hp as [Hp|(? & ? & _)]; [|done]. split; cbn [fst snd app] in *; [by rewrite omap_snoc, <- Ha, app_nil_r|intros seg ?; by apply ended_snoc, Hc|intros _; by eexists|done].
  - split; cbn [fst snd]; [by rewrite app_nil_r, flush_all, omap_snoc, app_nil_r| |done|intros _ p; by rewrite last_snoc].
    unfold flush. cbn [fst snd]. destruct cur as [|c cur]; intros seg; [intros ?; by apply ended_snoc, Hc|].
    intros [?|[<-|[]]]%in_app_iff; [by apply ended_snoc, Hc|]. destruct (Ho ltac:(done)) as (pre & Hm). by apply (maximal_close _ _ pre).
Qed.

(** The runs are the readings that were taken, in order, cut into maximal runs. *)
Lemma runs_spec readings :
  concat (runs readings) = omap id readings /\
  forall seg, In seg (runs readings) -> exists pre post, maximal_run readings seg pre post.
Proof.
  assert (loop_ok readings (fold_left run_step readings ([], []))) as [Ha Hc Ho _].
  { assert (forall l done_ st, loop_ok done_ st -> loop_ok (done_ ++ l) (fold_left run_step l st)) as H.
    { induction l as [|r l IH]; intros done_ st Hst; [by rewrite app_nil_r|]. cbn [fold_left].
      replace (done_ ++ r :: l) with ((done_ ++ [r]) ++ l) by (by rewrite <- app_assoc). by apply IH, reading_step_ok. }
    apply (H readings [] ([], [])). by split. }
  unfold runs. split; [by rewrite flush_all|]. unfold flush. destruct (fold_left _ _ _) as [segs cur]. cbn [fst snd] in *.
  assert (forall seg, In seg segs -> exists pre post, maximal_run readings seg pre post) as Hs.
  { intros seg (pre & post & ? & _)%Hc. eauto. }
  destruct cur as [|c cur]; [done|]. intros seg [?|[<-|[]]]%in_app_iff; [auto|]. destruct (Ho ltac:(done)) as (pre & ?). eauto.
Qed.
End Runs.

(** ** A host's telemetry *)
Module Telemetry.

Record TelemetryPoint := { tp_t : option Z; tp_v : num }.

Definition NOMINAL_CADENCE_MS : num := of_Z 60000.

(** The spacings of consecutive rows that are positive. *)
Fixpoint spacings (samples : list TelemetrySample) : list num :=
  match samples with
  | prev :: (curr :: _) as rest =>
      match Date_parse (tm_ts curr), Date_parse (tm_ts prev) with
      | Some c, Some p => if 0 <? c - p then of_Z (c - p) :: spacings rest else spacings rest
      | _, _ => spacings rest
      end
  | _ => []
  end.

Definition sampleCadenceMs (samples : list TelemetrySample) : num :=
  match spacings samples with
  | [] => NOMINAL_CADENCE_MS
  | deltas => sort_by sub_le deltas !! (List.length deltas / 2)%nat ?? NOMINAL_CADENCE_MS
  end.

(** [pick(sample)] as a point, unless the reading is null or not finite. *)
Definition reading (pick : TelemetrySample -> option num) (sample : TelemetrySample) : option TelemetryPoint :=
  match pick sample with
  | Some value => if is_finite value then Some {| tp_t := Date_parse (tm_ts sample); tp_v := value |} else None
  | None => None
  end.

(** Not [t - last.t > gapThreshold]. *)
Definition within (gapThreshold : num) (last p : TelemetryPoint) : bool :=
  match tp_t p, tp_t last with Some t, Some l => negb (ngt (of_Z (t - l)) gapThreshold) | _, _ => true end.

Definition splitSegments (samples : list TelemetrySample) (pick : TelemetrySample -> option num) : list (list TelemetryPoint) :=
  let gapThreshold := nmul (sampleCadenceMs samples) (dec 25 1) in
  runs (within gapThreshold) (map (reading pick) samples).

(** The least and greatest of the values, as the loops keep them. *)
Definition widen {A} (v : A -> num) (e : num * num) (p : A) : num * num :=
  (if nlt (v p) e.1 then v p else e.1, if ngt (v p) e.2 then v p else e.2).
Definition extent {A} (v : A -> num) (segments : list (list A)) : option (num * num) :=
  let e := fold_left (widen v) (concat segments) (pos_infinity, neg_infinity) in
  if nle e.1 e.2 then Some e else None.
Definition seriesExtent : list (list TelemetryPoint) -> option (num * num) := extent tp_v.

(** Bucket [b] of [n] points, [start] to [end]. *)
Definition bucket (n bucketCount b : Z) : Z * Z :=
  let bucketSize := ndiv (of_Z n) (of_Z bucketCount) in
  let start := floor_Z (nmul (of_Z b) bucketSize) ?? 0 in
  (start, Z.min n (Z.max (start + 1) (floor_Z (nmul (of_Z (b + 1)) bucketSize) ?? 0))).

(** The first least and first greatest of a bucket, with their places. *)
Definition lo_hi (points : list TelemetryPoint) (lh : option ((nat * TelemetryPoint) * (nat * TelemetryPoint))) (i : nat) :=
  match points !! i, lh with
  | None, _ => lh
  | Some p, None => Some ((i, p), (i, p))
  | Some p, Some (lo, hi) =>
      Some (if nlt (tp_v p) (tp_v lo.2) then (i, p) else lo, if ngt (tp_v p) (tp_v hi.2) then (i, p) else hi)
  end.

Definition thin_bucket (points : list TelemetryPoint) (bucketCount b : Z) : list TelemetryPoint :=
  let '(start, end_) := bucket (zlen points) bucketCount b in
  match fold_left (lo_hi points) (seq (Z.to_nat start) (Z.to_nat (end_ - start))) None with
  | None => []
  | Some (lo, hi) =>
      if (lo.1 =? hi.1)%nat then [lo.2]
      else if match tp_t lo.2, tp_t hi.2 with Some l, Some h => l <=? h | _, _ => false end then [lo.2; hi.2]
      else [hi.2; lo.2]
  end.

Definition downsampleSegment (points : list TelemetryPoint) (maxPoints : Z) : list TelemetryPoint :=
  if (zlen points <=? maxPoints) || (maxPoints <? 4) then points
  else
    let bucketCount := maxPoints / 2 in
    flat_map (fun b => thin_bucket points bucketCount (Z.of_nat b)) (seq 0 (Z.to_nat bucketCount)).

(** The loop of the search, its rows between [lo] and [hi]. *)
Fixpoint bisect (fuel : nat) (samples : list TelemetrySample) (t : num) (lo hi : nat) : nat * nat :=
  match fuel with
  | O => (lo, hi)
  | S fuel' =>
      if (1 <? hi - lo)%nat then
        let mid := ((lo + hi) / 2)%nat in
        match samples !! mid with
        | None => (lo, hi)
        | Some midSample =>
            if match Date_parse (tm_ts midSample) with Some ms => nle (of_Z ms) t | None => false end
            then bisect fuel' samples t mid hi
            else bisect fuel' samples t lo mid
        end
      else (lo, hi)
  end.

(** [Math.abs(Date.parse(ts) - t)]. *)
Definition distance (sample : TelemetrySample) (t : num) : num :=
  match Date_parse (tm_ts sample) with Some ms => nabs (nsub (of_Z ms) t) | None => S754_nan end.

Definition nearestSampleIndex (samples : list TelemetrySample) (t : num) : option nat :=
  match samples with
  | [] => None
  | _ =>
      let '(lo, hi) := bisect (List.length samples) samples t 0 (List.length samples - 1) in
      match samples !! lo, samples !! hi with
      | None, _ => Some hi
      | _, None => Some lo
      | Some loSample, Some hiSample => Some (if nle (distance loSample t) (distance hiSample t) then lo else hi)
      end
  end.

(** *** The extent is the least and the greatest value *)
Lemma widen_spec {A} (v : A -> num) l e :
  is_nan e.1 = false -> is_nan e.2 = false -> (forall p, In p l -> is_nan (v p) = false) ->
  let e' := fold_left (widen v) l e in
  is_nan e'.1 = false /\ is_nan e'.2 = false /\
  nle e'.1 e.1 = true /\ nle e.2 e'.2 = true /\
  (forall p, In p l -> nle e'.1 (v p) = true /\ nle (v p) e'.2 = true) /\
  (e'.1 = e.1 \/ In e'.1 (map v l)) /\ (e'.2 = e.2 \/ In e'.2 (map v l)).
Proof.
  revert e. induction l as [|p l IH]; intros e H1 H2 Hl; cbn zeta; cbn [fold_left].
  { split_and!; auto using nle_refl; done. }
  assert (is_nan (v p) = false) as Hp by (apply Hl; by left).
  assert (forall a b, is_nan a = false -> is_nan b = false -> nlt a b = false -> nle b a = true) as Hlt.
  { intros a b Ha Hb Hn. by apply nlt_false. }
  assert (is_nan (widen v e p).1 = false /\ is_nan (widen v e p).2 = false /\
    nle (widen v e p).1 e.1 = true /\ nle e.2 (widen v e p).2 = true /\
    nle (widen v e p).1 (v p) = true /\ nle (v p) (widen v e p).2 = true) as (W1 & W2 & W3 & W4 & W5 & W6).
  { unfold widen. cbn [fst snd]. change (ngt (v p) e.2) with (nlt e.2 (v p)).
    destruct (nlt (v p) e.1) eqn:E1, (nlt e.2 (v p)) eqn:E2; split_and!; auto using nle_refl, nlt_nle. }
  destruct (IH (widen v e p) W1 W2 (fun q Hq => Hl q (or_intror Hq))) as (I1 & I2 & I3 & I4 & I5 & I6 & I7). cbn zeta in *.
  split_and!; try done.
  - by eapply nle_trans.
  - by eapply nle_trans.
  - intros q [<-|Hq]; [|auto]. split; by eapply nle_trans.
  - cbn [map In]. destruct I6 as [->|?]; [|auto]. unfold widen. cbn [fst]. destruct (nlt _ _); auto.
  - cbn [map In]. destruct I7 as [->|?]; [|auto]. unfold widen. cbn [snd]. destruct (ngt _ _); auto.
Qed.

Lemma extent_spec {A} (v : A -> num) segments :
  (forall p, In p (concat segments) -> is_finite (v p) = true) ->
  match extent v segments with
  | None => concat segments = []
  | Some (lo, hi) =>
      In lo (map v (concat segments)) /\ In hi (map v (concat segments)) /\
      forall p, In p (concat segments) -> nle lo (v p) = true /\ nle (v p) hi = true
  end.
Proof.
  unfold extent. generalize (concat segments) as l. intros l Hf.
  destruct (widen_spec v l (pos_infinity, neg_infinity) eq_refl eq_refl) as (N1 & N2 & _ & _ & Ha & Hlo & Hhi).
  { intros p Hp. by apply is_finite_not_nan, Hf. }
  cbn zeta in *. set (e := fold_left _ _ _) in *. cbn [fst snd] in *. destruct l as [|p l].
  { destruct e as [lo hi]. destruct Hlo as [Hlo|[]], Hhi as [Hhi|[]]. cbn in Hlo, Hhi. by subst lo hi. }
  destruct (Ha p (or_introl eq_refl)) as [H1 H2]. rewrite (nle_trans _ _ _ H1 H2).
  specialize (Hf p (or_introl eq_refl)). destruct e as [lo hi]. cbn [fst snd] in *. split_and!; [| |exact Ha].
  - destruct Hlo as [->|?]; [|done]. by destruct (v p) as [[]|[]| |[]].
  - destruct Hhi as [->|?]; [|done]. by destruct (v p) as [[]|[]| |[]].
Qed.

(** *** Thinning invents nothing *)
Lemma lo_hi_In points places lh :
  (forall l h, lh = Some (l, h) -> points !! l.1 = Some l.2 /\ points !! h.1 = Some h.2) ->
  forall l h, fold_left (lo_hi points) places lh = Some (l, h) -> points !! l.1 = Some l.2 /\ points !! h.1 = Some h.2.
Proof.
  revert lh. induction places as [|i places IH]; intros lh Hlh; [exact Hlh|]. cbn [fold_left]. apply IH.
  unfold lo_hi. destruct (points !! i) as [p|] eqn:E; [|exact Hlh]. destruct lh as [[lo hi]|].
  - destruct (Hlh _ _ eq_refl). intros l h [= <- <-]. by destruct (nlt _ _), (ngt _ _).
  - by intros l h [= <- <-].
Qed.

Lemma downsample_invents_nothing points maxPoints p : In p (downsampleSegment points maxPoints) -> In p points.
Proof.
  unfold downsampleSegment. destruct (_ || _); [done|]. intros (b & _ & Hin)%in_flat_map. revert Hin.
  unfold thin_bucket. destruct (bucket _ _ _) as [start end_]. destruct (fold_left _ _ None) as [[lo hi]|] eqn:E; [|done].
  apply lo_hi_In in E as [Hl Hh]; [|done]. apply list_elem_of_lookup_2, list_elem_of_In in Hl, Hh.
  destruct (_ =? _)%nat; [by intros [<-|[]]|]. destruct (match tp_t lo.2 with Some _ => _ | None => _ end); by intros [<-|[<-|[]]].
Qed.

(** *** The pointer's neighbours *)
Definition at_ms (samples : list TelemetrySample) (i : nat) : option Z := samples !! i ≫= fun s => Date_parse (tm_ts s).
Definition at_or_before (samples : list TelemetrySample) (t : num) (i : nat) : Prop :=
  exists ms, at_ms samples i = Some ms /\ nle (of_Z ms) t = true.

Lemma bisect_spec fuel samples t lo hi :
  (hi - lo <= fuel)%nat -> (lo <= hi < List.length samples)%nat ->
  (lo <> 0%nat -> at_or_before samples t lo) -> (hi <> List.length samples - 1 -> ~ at_or_before samples t hi)%nat ->
  let '(l, h) := bisect fuel samples t lo hi in
  (l <= h < List.length samples)%nat /\ (h - l <= 1)%nat /\
  (l <> 0%nat -> at_or_before samples t l) /\ (h <> List.length samples - 1 -> ~ at_or_before samples t h)%nat.
Proof.
  revert lo hi. induction fuel as [|fuel IH]; intros lo hi Hf Hr Hl Hh; cbn [bisect]; [split_and!; try done; lia|].
  destruct (Nat.ltb_spec 1 (hi - lo)); [|split_and!; try done; lia].
  pose proof (Nat.div_mod_eq (lo + hi) 2). pose proof (Nat.mod_upper_bound (lo + hi) 2 ltac:(done)).
  set (mid := ((lo + hi) / 2)%nat) in *. destruct (lookup_lt_is_Some_2 samples mid) as [s Es]; [lia|]. rewrite Es.
  destruct (match Date_parse (tm_ts s) with Some ms => nle (of_Z ms) t | None => false end) eqn:E.
  - apply IH; [lia|lia| |done]. intros _. unfold at_or_before, at_ms. rewrite Es. destruct (Date_parse (tm_ts s)) as [ms|] eqn:Ed; [|done]. exists ms. split; [exact Ed|exact E].
  - apply IH; [lia|lia|done|]. intros _ (ms & Ems & Hle). unfold at_ms in Ems. rewrite Es in Ems. change (Date_parse (tm_ts s) = Some ms) in Ems. rewrite Ems in E. congruence.
Qed.

(** The row under the pointer is one of two neighbours around its instant, the
    one at the smaller distance; the rows at either end are the only ones that
    need not be around it. *)
Lemma nearest_is_a_neighbour samples t i :
  nearestSampleIndex samples t = Some i ->
  exists l h sl sh, (l <= h < List.length samples)%nat /\ (h - l <= 1)%nat /\
    samples !! l = Some sl /\ samples !! h = Some sh /\
    (l <> 0%nat -> at_or_before samples t l) /\ (h <> List.length samples - 1 -> ~ at_or_before samples t h)%nat /\
    i = if nle (distance sl t) (distance sh t) then l else h.
Proof.
  unfold nearestSampleIndex. destruct samples as [|s0 rest] eqn:Es; [done|]. rewrite <- Es.
  assert (0 < List.length samples)%nat as Hlen by (rewrite Es; cbn; lia).
  pose proof (bisect_spec (List.length samples) samples t 0 (List.length samples - 1)) as H.
  destruct (bisect _ _ _ _ _) as [l h]. destruct H as (Hr & Hd & Hl & Hh); [lia|lia|done|done|].
  destruct (lookup_lt_is_Some_2 samples l) as [sl El]; [lia|]. destruct (lookup_lt_is_Some_2 samples h) as [sh Eh]; [lia|].
  rewrite El, Eh. intros [= <-]. by exists l, h, sl, sh.
Qed.
End Telemetry.

(** ** A sweep's trace *)
Module Trace.

Record TracePoint := { tc_hz : num; tc_db : num }.

Definition half : num := dec 5 1.
Definition cellHz (trace : SpectrumTrace) (index : Z) : num :=
  nadd (st_start_hz trace) (nmul (nadd (of_Z index) half) (st_bin_width_hz trace)).

(** The cells of the trace, each a point unless it was not measured. *)
Fixpoint cells (trace : SpectrumTrace) (index : Z) (dbfs : list (option num)) : list (option TracePoint) :=
  match dbfs with
  | [] => []
  | db :: dbfs' =>
      match db with
      | Some db => if is_finite db then Some {| tc_hz := cellHz trace index; tc_db := db |} else None
      | None => None
      end :: cells trace (index + 1) dbfs'
  end.

Definition traceSegments (trace : option SpectrumTrace) : list (list TracePoint) :=
  match trace with
  | None => []
  | Some trace =>
      match st_dbfs trace with
      | [] => []
      | dbfs => runs (fun _ _ => true) (cells trace 0 dbfs)
      end
  end.

Definition traceExtent : list (list TracePoint) -> option (num * num) := Telemetry.extent tc_db.

Definition include_line (e : num * num) (line : option num) : num * num :=
  match line with
  | Some l => if is_finite l then (nmin e.1 l, nmax e.2 l) else e
  | None => e
  end.

Definition plotRange (e : option (num * num)) (floorDb thresholdDb : option num) : num * num :=
  let e := match e with Some e => e | None => (of_Z (-100), of_Z 0) end in
  let '(lo, hi) := fold_left include_line [floorDb; thresholdDb] e in
  let '(lo, hi) :=
    if nlt (nsub hi lo) (of_Z 6)
    then let mid := ndiv (nadd hi lo) (of_Z 2) in (nsub mid (of_Z 3), nadd mid (of_Z 3))
    else (lo, hi) in
  let pad := nmul (nsub hi lo) (dec 8 2) in
  (nsub lo pad, nadd hi pad).

Definition nearestCell (trace : option SpectrumTrace) (hz : num) : option num :=
  match trace with
  | None => None
  | Some trace =>
      match st_dbfs trace with
      | [] => None
      | dbfs =>
          let x := nsub (ndiv (nsub hz (st_start_hz trace)) (st_bin_width_hz trace)) half in
          match round_Z x with
          | Some index => if (index <? 0) || (zlen dbfs <=? index) then None else Some (of_Z index)
          | None => if is_nan x then Some x else None
          end
      end
  end.

Definition hzAtFraction (trace : SpectrumTrace) (fraction : num) : num :=
  nadd (st_start_hz trace) (nmul fraction (nsub (st_stop_hz trace) (st_start_hz trace))).

Definition fractionAtHz (trace : SpectrumTrace) (hz : num) : num :=
  let span := nsub (st_stop_hz trace) (st_start_hz trace) in
  if nle span (of_Z 0) then of_Z 0
  else nmin (of_Z 1) (nmax (of_Z 0) (ndiv (nsub hz (st_start_hz trace)) span)).

Definition formatMHz (hz : num) (digits : nat) : string := toFixed digits (ndiv hz (of_Z 1000000)) +:+ " MHz".
Definition formatDbfs (db : num) : string := toFixed 1 db +:+ " dBFS".

Definition blindPercent (trace : option SpectrumTrace) : num :=
  match trace with
  | None => of_Z 0
  | Some trace =>
      match st_dbfs trace with
      | [] => of_Z 0
      | dbfs => nmul (ndiv (of_Z (st_blind trace)) (of_Z (zlen dbfs))) (of_Z 100)
      end
  end.

Lemma cells_lookup trace k dbfs i p :
  cells trace k dbfs !! i = Some (Some p) ->
  exists db, dbfs !! i = Some (Some db) /\ is_finite db = true /\ p = {| tc_hz := cellHz trace (k + Z.of_nat i); tc_db := db |}.
Proof.
  revert k i. induction dbfs as [|db dbfs IH]; intros k [|i]; try done; cbn [cells lookup list_lookup].
  - destruct db as [db|]; [|done]. destruct (is_finite db) eqn:E; [|done]. intros [= <-]. exists db. rewrite Z.add_0_r. done.
  - intros (db' & E & Ef & ->)%IH. exists db'. split_and!; [done|done|]. do 2 f_equal. lia.
Qed.

Lemma cells_length trace k dbfs : List.length (cells trace k dbfs) = List.length dbfs.
Proof. revert k. induction dbfs as [|db dbfs IH]; intros k; cbn; [done|]. by rewrite IH. Qed.
End Trace.

(** ** The free space's trend *)
Module Forecast.

Inductive ForecastVerdict :=
| filling (bytesPerDay daysRemaining : num)
| stable (bytesPerDay : num)
| unknown (reason : string).

(** A reading, its instant NaN when the date did not parse. *)
Record FreeSpacePoint := { fp_ts : option Z; fp_free : option num }.

Definition MIN_SPAN_MS : Z := 60 * 60 * 1000.
Definition MIN_POINTS : Z := 8.
Definition NOISE_FLOOR_FRACTION : num := dec 1 3.

Definition usable_point (p : FreeSpacePoint) : option (Z * num) :=
  match fp_free p, fp_ts p with Some free, Some ts => Some (ts, free) | _, _ => None end.
Definition ts_le (a b : Z * num) : bool := a.1 - b.1 <=? 0.
Definition usable (points : list FreeSpacePoint) : list (Z * num) := sort_by ts_le (omap usable_point points).

Record Sums := { s_x : num; s_y : num; s_xy : num; s_xx : num }.
Definition add_point (first_ts : Z) (s : Sums) (p : Z * num) : Sums :=
  let x := of_Z (p.1 - first_ts) in
  {| s_x := nadd (s_x s) x; s_y := nadd (s_y s) p.2; s_xy := nadd (s_xy s) (nmul x p.2); s_xx := nadd (s_xx s) (nmul x x) |}.
Definition no_sums : Sums := {| s_x := of_Z 0; s_y := of_Z 0; s_xy := of_Z 0; s_xx := of_Z 0 |}.

(** The denominator of the fit, and its slope a day. *)
Definition denominator (n : Z) (s : Sums) : num := nsub (nmul (of_Z n) (s_xx s)) (nmul (s_x s) (s_x s)).
Definition slope_per_day (n : Z) (s : Sums) : num :=
  nmul (ndiv (nsub (nmul (of_Z n) (s_xy s)) (nmul (s_x s) (s_y s))) (denominator n s)) (of_Z 86400000).

Definition forecastDiskFull (points : list FreeSpacePoint) : ForecastVerdict :=
  let usable := usable points in
  if zlen usable <? MIN_POINTS then unknown "not enough recorded history yet"
  else
    match head usable, last usable with
    | Some first, Some last =>
        if last.1 - first.1 <? MIN_SPAN_MS then unknown "the recorded window is shorter than an hour"
        else
          let sums := fold_left (add_point first.1) usable no_sums in
          if neq (denominator (zlen usable) sums) (of_Z 0) then unknown "every reading landed at the same moment"
          else
            let bytesPerDay := slope_per_day (zlen usable) sums in
            let freeNow := last.2 in
            if nle freeNow (of_Z 0) then filling bytesPerDay (of_Z 0)
            else if nlt (nabs bytesPerDay) (nmul freeNow NOISE_FLOOR_FRACTION) then stable bytesPerDay
            else if nge bytesPerDay (of_Z 0) then stable bytesPerDay
            else filling bytesPerDay (ndiv freeNow (nopp bytesPerDay))
    | _, _ => unknown "not enough recorded history yet"
    end.

Definition usedFraction (totalBytes freeBytes : option num) : option num :=
  match totalBytes, freeBytes with
  | Some total, Some free =>
      if negb (is_finite total) || nle total (of_Z 0) then None
      else if negb (is_finite free) || nlt free (of_Z 0) then None
      else Some (nmin (of_Z 1) (nmax (of_Z 0) (nsub (of_Z 1) (ndiv free total))))
  | _, _ => None
  end.

(** A reading that was not taken changes no verdict. *)
Lemma unread_points_are_ignored points :
  forecastDiskFull points = forecastDiskFull (List.filter (fun p => match usable_point p with Some _ => true | None => false end) points).
Proof.
  unfold forecastDiskFull. assert (usable points = usable (List.filter (fun p => match usable_point p with Some _ => true | None => false end) points)) as ->; [|done].
  unfold usable. f_equal. induction points as [|p points IH]; [done|]. cbn. destruct (usable_point p) eqn:E; [|done].
  cbn. by rewrite E, IH.
Qed.

(** A date is given only from eight readings over an hour or more. *)
Lemma a_date_is_earned points perDay days :
  forecastDiskFull points = filling perDay days ->
  MIN_POINTS <= zlen (usable points) /\
  exists first last_, head (usable points) = Some first /\ last (usable points) = Some last_ /\
    MIN_SPAN_MS <= last_.1 - first.1 /\
    (nle last_.2 (of_Z 0) = true /\ days = of_Z 0 \/
     nge perDay (of_Z 0) = false /\ nlt (nabs perDay) (nmul last_.2 NOISE_FLOOR_FRACTION) = false /\ days = ndiv last_.2 (nopp perDay)).
Proof.
  unfold forecastDiskFull. destruct (Z.ltb_spec (zlen (usable points)) MIN_POINTS) as [|Hn]; [done|].
  destruct (head (usable points)) as [first|]; [|done]. destruct (last (usable points)) as [last_|]; [|done].
  destruct (Z.ltb_spec (last_.1 - first.1) MIN_SPAN_MS) as [|Hs]; [done|].
  destruct (neq _ _); [done|]. intros H. split; [done|]. exists first, last_. split_and!; [done|done|done|].
  destruct (nle last_.2 (of_Z 0)) eqn:E1; [injection H as <- <-; by left|].
  destruct (nlt _ _) eqn:E2; [done|]. destruct (nge _ _) eqn:E3; [done|]. injection H as <- <-. by right.
Qed.
End Forecast.

(** ** What the charts draw *)
Definition gapThreshold (samples : list TelemetrySample) : num := nmul (Telemetry.sampleCadenceMs samples) (dec 25 1).

(** A chart draws what was measured and joins nothing else.  The segments of a
    figure's history hold the value of every row whose reading was taken, at the
    row's instant, once and in order.  A segment is a run of consecutive rows with
    no reading missing between them and no jump past two and a half cadences, and
    it is as long as it can be: a row next to it has no reading, or lies across
    such a jump.  The same holds of a sweep's cells, which only a missing cell
    parts. *)
Lemma charts_join_only_what_was_measured (samples : list TelemetrySample) (pick : TelemetrySample -> option num)
    (trace : SpectrumTrace) :
  (concat (Telemetry.splitSegments samples pick) = omap (Telemetry.reading pick) samples /\
   forall seg, In seg (Telemetry.splitSegments samples pick) ->
     exists pre post, maximal_run (Telemetry.within (gapThreshold samples)) (map (Telemetry.reading pick) samples) seg pre post) /\
  (concat (Trace.traceSegments (Some trace)) = omap id (Trace.cells trace 0 (st_dbfs trace)) /\
   forall seg, In seg (Trace.traceSegments (Some trace)) ->
     exists pre post, maximal_run (fun _ _ => true) (Trace.cells trace 0 (st_dbfs trace)) seg pre post).
Proof.
  split.
  - destruct (runs_spec (Telemetry.within (gapThreshold samples)) (map (Telemetry.reading pick) samples)) as [H1 H2].
    split; [|exact H2]. unfold Telemetry.splitSegments. fold (gapThreshold samples). rewrite H1. clear.
    induction samples as [|s l IH]; [done|]. cbn. by destruct (Telemetry.reading pick s); cbn; rewrite IH.
  - unfold Trace.traceSegments. destruct (st_dbfs trace) as [|db dbfs] eqn:E; [done|]. rewrite <- E. apply runs_spec.
Qed.

(** ** Examples *)
Definition a_row (ts : string) (temp : option num) : TelemetrySample := {|
  tm_ts := ts; tm_cpu_temp_c := temp; tm_load1 := None; tm_mem_available_kb := None; tm_disk_free_bytes := None;
  tm_uptime_s := None; tm_sensors := None
|}.
Definition a_history : list TelemetrySample := [
  a_row "2026-09-15T03:00:00Z" (Some (of_Z 50)); a_row "2026-09-15T03:01:00Z" (Some (of_Z 51));
  a_row "2026-09-15T03:02:00Z" None; a_row "2026-09-15T03:03:00Z" (Some (of_Z 52));
  a_row "2026-09-15T04:00:00Z" (Some (of_Z 0)); a_row "2026-09-15T04:01:00Z" (Some (of_Z 53))
].
Example cut_at_null_and_outage :
  map (map Telemetry.tp_v) (Telemetry.splitSegments a_history tm_cpu_temp_c) =
  [[of_Z 50; of_Z 51]; [of_Z 52]; [of_Z 0; of_Z 53]] /\
  Telemetry.seriesExtent (Telemetry.splitSegments a_history tm_cpu_temp_c) = Some (of_Z 0, of_Z 53).
Proof. vm_compute. done. Qed.

(** The last bucket's end is a product that rounds below the count, so the last
    reading of 128 is left out when 98 points are asked for. *)
Definition ramp : list Telemetry.TelemetryPoint :=
  map (fun i => {| Telemetry.tp_t := Some (Z.of_nat i); Telemetry.tp_v := of_Z (Z.of_nat i) |}) (seq 0 128).
Lemma thinning_can_lose_the_end :
  Telemetry.bucket 128 49 48 = (125, 127) /\
  last (map Telemetry.tp_v ramp) = Some (of_Z 127) /\
  last (map Telemetry.tp_v (Telemetry.downsampleSegment ramp 98)) = Some (of_Z 126).
Proof. vm_compute. done. Qed.
