(* ===== verification/WifiSurvey.v ===== *)
(** * Wi-Fi survey: channel occupancy out of a free-form detail

    [features/spectrum/wifi-survey.ts]: what a Wi-Fi sensor's heartbeat says about
    its channels, or why it says nothing, and its grouping by band. *)
From Stdlib Require Import ZArith Bool String Ascii List Lia Permutation Sorted SpecFloat.
From stdpp Require Import base option list strings.
From S2P Require Import Prelude JsNumber ApiTypes SensorDetail.

Inductive BandKey := band_24 | band_5 | band_6.
#[export] Instance BandKey_eq_dec : EqDecision BandKey.
Proof. solve_decision. Defined.

Record ChannelOccupancy := {
  co_freqMHz : num;
  co_channel : option num;
  co_band : BandKey;
  co_activeMs : num;
  co_busyFraction : num;
  co_noiseDbm : option num;
  co_rxMs : num;
  co_txMs : num;
  co_inUse : bool
}.

Inductive SurveyState :=
| no_sensor
| survey_unknown (sensorId : string)
| unsupported (sensorId reason : string)
| warming (sensorId : string)
| ready (sensorId : string) (channels : list ChannelOccupancy).

Definition bandFor (freqMHz : num) : BandKey :=
  if nlt freqMHz (of_Z 3000) then band_24 else if nlt freqMHz (of_Z 5925) then band_5 else band_6.

Definition band_of (band : option json) (freqMHz : num) : BandKey :=
  match band with
  | Some (JStr b) => if b === "2.4" then band_24 else if b === "5" then band_5 else if b === "6" then band_6 else bandFor freqMHz
  | _ => bandFor freqMHz
  end.

Definition readChannel (raw : json) : option ChannelOccupancy :=
  match raw with
  | JObj entry =>
      match as_finite (assoc "freq_mhz" entry), as_finite (assoc "active_ms" entry), as_finite (assoc "busy_fraction" entry) with
      | Some freqMHz, Some activeMs, Some busyFraction =>
          Some {|
            co_freqMHz := freqMHz;
            co_channel := as_finite (assoc "channel" entry);
            co_band := band_of (assoc "band" entry) freqMHz;
            co_activeMs := activeMs;
            co_busyFraction := nmin (nmax busyFraction (of_Z 0)) (of_Z 1);
            co_noiseDbm := as_finite (assoc "noise_dbm" entry);
            co_rxMs := as_finite (assoc "rx_ms" entry) ?? of_Z 0;
            co_txMs := as_finite (assoc "tx_ms" entry) ?? of_Z 0;
            co_inUse := match assoc "in_use" entry with Some (JBool true) => true | _ => false end
          |}
      | _, _, _ => None
      end
  | _ => None
  end.

Definition freq_le (a b : ChannelOccupancy) : bool := sub_le (co_freqMHz a) (co_freqMHz b).

Definition is_wifi (s : SensorHealth) : bool := match sh_sensor_kind s with wifi => true | _ => false end.

(** The sensor asked for, or the first. *)
Definition surveyed (sensors : list SensorHealth) (want : option string) : option SensorHealth :=
  let wifi := List.filter is_wifi sensors in
  match truthy want with
  | Some id => List.find (fun s => sh_sensor_id s === id) wifi
  | None => head wifi
  end.

Definition reason_of (detail : detail_map) : string :=
  match assoc "survey_reason" detail with Some (JStr r) => r | _ => "" end.

Definition survey_of (sensorId : string) (detail : detail_map) : SurveyState :=
  let available := assoc "survey_available" detail in
  let reason := reason_of detail in
  if match available with Some (JBool false) => true | _ => false end || (reason !== "")
  then unsupported sensorId (if reason !== "" then reason else "the driver reported no survey for this interface")
  else
    match assoc "survey" detail with
    | Some (JArr raw) =>
        match sort_by freq_le (omap readChannel raw) with
        | [] => warming sensorId
        | channels => ready sensorId channels
        end
    | _ => match available with Some (JBool true) => warming sensorId | _ => survey_unknown sensorId end
    end.

Definition surveyState (sensors : option (list SensorHealth)) (want : option string) : SurveyState :=
  match surveyed (sensors ?? []) want with
  | None => no_sensor
  | Some sensor => survey_of (sh_sensor_id sensor) (sh_detail sensor ?? [])
  end.

Record OccupancyBand := { ob_band : BandKey; ob_label : string; ob_channels : list ChannelOccupancy }.

Definition BAND_LABELS (b : BandKey) : string :=
  match b with band_24 => "2.4 GHz" | band_5 => "5 GHz" | band_6 => "6 GHz" end.

Definition groupByBand (channels : list ChannelOccupancy) : list OccupancyBand :=
  List.filter (fun group => match ob_channels group with [] => false | _ => true end)
    (map (fun band => {|
       ob_band := band; ob_label := BAND_LABELS band;
       ob_channels := List.filter (fun c => bool_decide (co_band c = band)) channels |}) [band_24; band_5; band_6]).

Definition busier (best : option ChannelOccupancy) (c : ChannelOccupancy) : option ChannelOccupancy :=
  match best with
  | None => Some c
  | Some b => if ngt (co_busyFraction c) (co_busyFraction b) then Some c else best
  end.
Definition busiest (channels : list ChannelOccupancy) : option ChannelOccupancy := fold_left busier channels None.

Definition transmitting (channels : list ChannelOccupancy) : list ChannelOccupancy :=
  List.filter (fun c => ngt (co_txMs c) (of_Z 0)) channels.

Definition formatChannel (c : ChannelOccupancy) : string :=
  match co_channel c with
  | None => num_string (co_freqMHz c) +:+ " MHz"
  | Some channel => "ch " +:+ num_string channel
  end.

(** ** What a ready survey holds *)

Lemma clamped x : is_finite x = true ->
  nle (of_Z 0) (nmin (nmax x (of_Z 0)) (of_Z 1)) = true /\ nle (nmin (nmax x (of_Z 0)) (of_Z 1)) (of_Z 1) = true.
Proof.
  intros Hf. apply is_finite_not_nan in Hf.
  destruct (nmax_cases x (of_Z 0) Hf eq_refl) as (_ & H & _). destruct (nle_not_nan _ _ H) as [_ Hn].
  destruct (nmin_cases (nmax x (of_Z 0)) (of_Z 1) Hn eq_refl) as (_ & H1 & H2). split; [by apply H2|exact H1].
Qed.

Lemma readChannel_busy raw c :
  readChannel raw = Some c -> nle (of_Z 0) (co_busyFraction c) = true /\ nle (co_busyFraction c) (of_Z 1) = true.
Proof.
  unfold readChannel. destruct raw as [| | | | |entry]; try done.
  destruct (as_finite (assoc "freq_mhz" entry)) as [f|]; [|done]. destruct (as_finite (assoc "active_ms" entry)) as [a|]; [|done].
  destruct (as_finite (assoc "busy_fraction" entry)) as [b|] eqn:E; [|done]. intros [= <-].
  apply clamped. by apply Summary.as_finite_Some in E as [_ ?].
Qed.

(** The bands, in order, hold each channel once. *)
Lemma groupByBand_partition channels : Permutation (flat_map ob_channels (groupByBand channels)) channels.
Proof.
  set (in_band band := List.filter (fun c => bool_decide (co_band c = band)) channels).
  assert (flat_map ob_channels (groupByBand channels) = in_band band_24 ++ in_band band_5 ++ in_band band_6) as ->.
  { unfold groupByBand. cbn [map List.filter ob_channels]. fold (in_band band_24) (in_band band_5) (in_band band_6).
    destruct (in_band band_24), (in_band band_5), (in_band band_6); cbn; by rewrite ?app_nil_r. }
  subst in_band. cbn beta. induction channels as [|c l IH]; [done|]. cbn [List.filter].
  destruct (co_band c); repeat first [rewrite bool_decide_true by done | rewrite bool_decide_false by done];
    cbn [app].
  - by constructor.
  - by apply Permutation_cons_mid.
  - rewrite app_assoc. apply Permutation_cons_mid. by rewrite <- app_assoc.
Qed.

(** What a survey in each state says about the detail it was read from. *)
Definition read_from (id : string) (detail : detail_map) (state : SurveyState) : Prop :=
  match state with
  | no_sensor => False
  | unsupported id' reason =>
      id' = id /\ reason <> "" /\
      (assoc "survey_available" detail = Some (JBool false) \/ assoc "survey_reason" detail = Some (JStr reason))
  | survey_unknown id' => id' = id /\ forall raw, assoc "survey" detail <> Some (JArr raw)
  | warming id' => id' = id /\ forall raw, assoc "survey" detail = Some (JArr raw) -> omap readChannel raw = []
  | ready id' channels =>
      id' = id /\ channels <> [] /\
      exists raw, assoc "survey" detail = Some (JArr raw) /\ Permutation channels (omap readChannel raw)
  end.

Lemma survey_of_spec id detail : read_from id detail (survey_of id detail).
Proof.
  unfold survey_of. cbn zeta.
  assert (reason_of detail <> "" -> assoc "survey_reason" detail = Some (JStr (reason_of detail))) as Hr.
  { unfold reason_of. by destruct (assoc "survey_reason" detail) as [[]|]. }
  destruct (String.eqb_spec (reason_of detail) "") as [E|Hne]; cbn [negb]; [|rewrite orb_true_r; split_and!; auto].
  rewrite orb_false_r. destruct (match assoc "survey_available" detail with Some (JBool false) => true | _ => false end) eqn:Ea.
  { split_and!; [done|done|left]. by destruct (assoc "survey_available" detail) as [[|[]| | | |]|]. }
  destruct (assoc "survey" detail) as [[| | | |raw|]|] eqn:Es;
    try (destruct (assoc "survey_available" detail) as [[|[]| | | |]|]; cbn; rewrite Es; by split; [|intros ? ?]).
  pose proof (sort_by_perm freq_le (omap readChannel raw)) as Hp.
  destruct (sort_by freq_le (omap readChannel raw)) as [|c cs].
  - split; [done|]. intros raw' E'. rewrite Es in E'. injection E' as <-. by apply Permutation_nil.
  - split_and!; [done|done|]. exists raw. by rewrite Hp.
Qed.

(** A survey is drawn only from what was measured: the channels of a ready
    survey are the entries of the sensor's window that carry a frequency, a time
    and a busy share, each once and nothing else, with the share held within 0
    and 1, and the bands divide them; every other state is one the sensor
    itself gave, a reason, a promise or nothing. *)
Lemma survey_is_what_was_measured (sensors : list SensorHealth) (want : option string) :
  match surveyed sensors want with
  | None => surveyState (Some sensors) want = no_sensor
  | Some s => read_from (sh_sensor_id s) (sh_detail s ?? []) (surveyState (Some sensors) want)
  end /\
  match surveyState (Some sensors) want with
  | ready _ channels =>
      (forall c, In c channels -> nle (of_Z 0) (co_busyFraction c) = true /\ nle (co_busyFraction c) (of_Z 1) = true) /\
      Permutation (flat_map ob_channels (groupByBand channels)) channels
  | _ => True
  end.
Proof.
  unfold surveyState. cbn zeta. destruct (surveyed sensors want) as [s|]; [|done].
  pose proof (survey_of_spec (sh_sensor_id s) (sh_detail s ?? [])) as H. split; [exact H|].
  destruct (survey_of _ _) as [| | | |id channels]; try done. destruct H as (_ & _ & raw & _ & Hp).
  split; [|apply groupByBand_partition]. intros c Hc. rewrite Hp in Hc.
  apply list_elem_of_In, list_elem_of_omap in Hc as (e & _ & He). by eapply readChannel_busy.
Qed.
