(* ===== verification/Flights.v ===== *)
(** * Flights: measures, order and grouping of the flights list

    [features/tracks/flight-metrics.ts], [flight-groups.ts], [partition.ts] and
    [tier.ts].  Distances on the sphere use the host's trigonometry, so the
    distance is a parameter; collation is the interface of [JsString]. *)
From Stdlib Require Import ZArith Bool String Ascii List Lia Permutation Sorted Floats.SpecFloat.
From stdpp Require Import base option list strings.
From S2P Require Import Prelude JsNumber JsDate JsString ApiTypes LogStore.

(** ** tier.ts and partition.ts *)

Definition CORROBORATING_ONLY (c : DetectionClass) : bool :=
  match c with ClsC | ClsD | ClsH => true | _ => false end.

Definition isIdentified (t : Track) : bool :=
  match tr_evidence t ?? [] with
  | [] => true
  | evidence => existsb (fun e => negb (CORROBORATING_ONLY (ev_class e))) evidence
  end.

Record Partition := { pt_active : list Track; pt_unidentified : list Track; pt_closed : list Track }.

Definition partitionTracks (tracks : list Track) : Partition :=
  fold_left (fun p t =>
    if bool_decide (tr_state t = ApiTypes.CLOSED)
    then {| pt_active := pt_active p; pt_unidentified := pt_unidentified p; pt_closed := pt_closed p ++ [t] |}
    else if isIdentified t
    then {| pt_active := pt_active p ++ [t]; pt_unidentified := pt_unidentified p; pt_closed := pt_closed p |}
    else {| pt_active := pt_active p; pt_unidentified := pt_unidentified p ++ [t]; pt_closed := pt_closed p |})
    tracks {| pt_active := []; pt_unidentified := []; pt_closed := [] |}.

(** ** flight-metrics.ts *)

Definition primaryMac (t : Track) : option string :=
  match tr_identity t ?. ti_macs with Some (m :: _) => Some m | _ => None end.

Definition aircraftKey (t : Track) : string :=
  match truthy (tr_identity t ?. ti_serial) with
  | Some serial => "serial:" +:+ serial
  | None =>
      match truthy (primaryMac t) with
      | Some mac => "mac:" +:+ mac
      | None => "track:" +:+ tr_track_id t
      end
  end.

Definition aircraftLabel (t : Track) : string :=
  (tr_identity t ?. ti_serial) ?? primaryMac t ?? tr_track_id t.

Definition flightStartMs (t : Track) : option Z := Date_parse (tr_first_seen t).
Definition flightEndMs (t : Track) : option Z := Date_parse (tr_last_seen t).

Definition flightDurationS (t : Track) : option num :=
  match flightStartMs t, flightEndMs t with
  | Some start, Some end_ => if end_ <? start then None else Some (ndiv (of_Z (end_ - start)) (of_Z 1000))
  | _, _ => None
  end.

Definition flightPositions (t : Track) : list Position :=
  match tr_history t ?? [] with
  | [] => match tr_current t with Some p => [p] | None => [] end
  | history => history
  end.

(** The running maximum of the loops. *)
Definition keep_max (max : option num) (x : num) : option num :=
  match max with
  | None => Some x
  | Some m => if ngt x m then Some x else max
  end.

Definition maxOf (f : Position -> option num) (t : Track) : option num :=
  fold_left (fun max p =>
    match f p with
    | Some x => if is_finite x then keep_max max x else max
    | None => max
    end) (flightPositions t) None.

Definition maxHeightAglM : Track -> option num := maxOf ps_height_agl_m.
Definition maxSpeedMps : Track -> option num := maxOf ps_speed_mps.

Definition hasOperatorFix (t : Track) : bool := match tr_operator t with Some _ => true | None => false end.

Section Metrics.
Context (distanceMetres : num * num -> num * num -> num) {C : Collation}.

Definition maxRangeM (t : Track) (receiver : option ReceiverPosition) : option num :=
  match receiver with
  | None => None
  | Some r =>
      fold_left (fun max p => keep_max max (distanceMetres (rp_lat r, rp_lon r) (ps_lat p, ps_lon p)))
        (flightPositions t) None
  end.

(** "[compare(a, b) <= 0]" of [orderFlights]. *)
Definition order_le (a b : Track) : bool :=
  let tie := match localeCompare (tr_track_id a) (tr_track_id b) with Gt => false | _ => true end in
  match flightStartMs a, flightStartMs b with
  | Some x, Some y => if x =? y then tie else x <=? y
  | None, Some _ => false
  | Some _, None => true
  | None, None => tie
  end.
Definition orderFlights (tracks : list Track) : list Track := sort_by order_le tracks.

Record FlightNeighbours := {
  fn_number : option nat;
  fn_total : nat;
  fn_previous : option Track;
  fn_next : option Track
}.

Definition is_track (id : string) (t : Track) : bool := tr_track_id t === id.

Definition flightNeighbours (ordered : list Track) (trackId : string) : FlightNeighbours :=
  match find_index (is_track trackId) ordered with
  | None => {| fn_number := None; fn_total := List.length ordered; fn_previous := None; fn_next := None |}
  | Some i =>
      {| fn_number := Some (S i); fn_total := List.length ordered;
         fn_previous := match i with O => None | S j => ordered !! j end;
         fn_next := ordered !! S i |}
  end.

Definition flightsAround (ordered : list Track) (trackId : string) (max : nat) : list Track * nat :=
  if (List.length ordered <=? max)%nat then (ordered, O)
  else
    let centre := match find_index (is_track trackId) ordered with Some i => i | None => O end in
    let from := Nat.min (centre - max / 2) (List.length ordered - max) in
    (take max (drop from ordered), from).

Definition flightRangeMs (tracks : list Track) : option (Z * Z) :=
  fold_left (fun r t =>
    match flightStartMs t with
    | None => r
    | Some ms => match r with
                 | None => Some (ms, ms)
                 | Some (a, b) => Some (Z.min a ms, Z.max b ms)
                 end
    end) tracks None.

(** *** Sorting the table *)

Definition FLIGHT_SORT_VALUES : list string :=
  ["start-asc"; "start-desc"; "duration-asc"; "duration-desc"; "range-asc"; "range-desc";
   "agl-asc"; "agl-desc"; "detections-asc"; "detections-desc"; "rssi-asc"; "rssi-desc"].
Definition DEFAULT_FLIGHT_SORT : string := "start-desc".

(** [s.slice(0, s.lastIndexOf('-'))]; without a dash, [slice(0, -1)]. *)
Fixpoint lastIndexOf (c : ascii) (s : string) : option nat :=
  match s with
  | EmptyString => None
  | String d s' =>
      match lastIndexOf c s' with
      | Some i => Some (S i)
      | None => if Ascii.eqb d c then Some O else None
      end
  end.
Definition endsWith (suffix s : string) : bool :=
  (String.length suffix <=? String.length s)%nat && (JsString.slice_last (String.length suffix) s === suffix).

Definition parseFlightSort (sort : string) : string * bool :=
  (match lastIndexOf "-" sort with
   | Some cut => JsString.slice 0 cut sort
   | None => JsString.slice 0 (String.length sort - 1) sort
   end, endsWith "-desc" sort).

Definition sortValue (t : Track) (column : string) (receiver : option ReceiverPosition) : option num :=
  if column === "start" then of_Z <$> flightStartMs t
  else if column === "duration" then flightDurationS t
  else if column === "range" then maxRangeM t receiver
  else if column === "agl" then maxHeightAglM t
  else if column === "detections" then Some (of_Z (tr_detection_count t))
  else if column === "rssi" then tr_rssi_dbm t
  else None.

(** "[compare(a, b) <= 0]" of [sortFlights], on the precomputed values. *)
Definition value_le (desc : bool) (a b : Track * option num) : bool :=
  match snd a, snd b with
  | None, None => true
  | None, _ => false
  | _, None => true
  | Some x, Some y => if desc then sub_le y x else sub_le x y
  end.

Definition sortFlights (tracks : list Track) (sort : string) (receiver : option ReceiverPosition) : list Track :=
  let '(column, desc) := parseFlightSort sort in
  let keyed := map (fun t => (t, sortValue t column receiver)) tracks in
  map fst (sort_by (value_le desc) keyed).
End Metrics.

(** ** flight-groups.ts *)

Record AircraftGroup := {
  gr_key : string;
  gr_label : string;
  gr_serial : option string;
  gr_mac : option string;
  gr_vendor : option string;
  gr_uaType : option string;
  gr_flights : list Track;
  gr_firstSeenMs : option Z;
  gr_lastSeenMs : option Z
}.

Definition firstString (values : list (option string)) : option string :=
  match omap truthy values with v :: _ => Some v | [] => None end.

Definition new_group (t : Track) : AircraftGroup :=
  {| gr_key := aircraftKey t; gr_label := aircraftLabel t;
     gr_serial := tr_identity t ?. ti_serial; gr_mac := primaryMac t;
     gr_vendor := tr_identity t ?. ti_vendor; gr_uaType := tr_identity t ?. ti_ua_type;
     gr_flights := [t]; gr_firstSeenMs := flightStartMs t; gr_lastSeenMs := flightEndMs t |}.

Definition extend_group (t : Track) (g : AircraftGroup) : AircraftGroup :=
  {| gr_key := gr_key g; gr_label := gr_label g;
     gr_serial := firstString [gr_serial g; tr_identity t ?. ti_serial];
     gr_mac := firstString [gr_mac g; primaryMac t];
     gr_vendor := firstString [gr_vendor g; tr_identity t ?. ti_vendor];
     gr_uaType := firstString [gr_uaType g; tr_identity t ?. ti_ua_type];
     gr_flights := gr_flights g ++ [t];
     gr_firstSeenMs :=
       match flightStartMs t, gr_firstSeenMs g with
       | Some s, None => Some s
       | Some s, Some f => if s <? f then Some s else Some f
       | None, f => f
       end;
     gr_lastSeenMs :=
       match flightEndMs t, gr_lastSeenMs g with
       | Some e, None => Some e
       | Some e, Some l => if l <? e then Some e else Some l
       | None, l => l
       end |}.

(** [groups.get(key)], then a new entry or an update in place. *)
Fixpoint add_flight (t : Track) (groups : list AircraftGroup) : list AircraftGroup :=
  match groups with
  | [] => [new_group t]
  | g :: groups' =>
      if gr_key g === aircraftKey t then extend_group t g :: groups' else g :: add_flight t groups'
  end.

Definition newest_le (a b : AircraftGroup) : bool :=
  (gr_lastSeenMs b ?? 0) - (gr_lastSeenMs a ?? 0) <=? 0.

Definition groupByAircraft (tracks : list Track) : list AircraftGroup :=
  sort_by newest_le (fold_left (fun gs t => add_flight t gs) tracks []).

(** ** Facts *)

(** What a group holds after a list of flights. *)
Record group_of (tracks : list Track) (g : AircraftGroup) : Prop := {
  go_flights : gr_flights g = List.filter (fun t => aircraftKey t === gr_key g) tracks;
  go_some : gr_flights g <> [];
  go_last : forall t e, In t (gr_flights g) -> flightEndMs t = Some e ->
            exists l, gr_lastSeenMs g = Some l /\ e <= l;
  go_first : forall t s, In t (gr_flights g) -> flightStartMs t = Some s ->
             exists f, gr_firstSeenMs g = Some f /\ f <= s
}.

Record Grouped (tracks : list Track) (gs : list AircraftGroup) : Prop := {
  gd_keys : List.NoDup (map gr_key gs);
  gd_groups : List.Forall (group_of tracks) gs;
  gd_all : forall t, In t tracks -> In (aircraftKey t) (map gr_key gs)
}.

Lemma add_flight_keys t gs :
  map gr_key (add_flight t gs) =
  if existsb (fun g => gr_key g === aircraftKey t) gs then map gr_key gs else map gr_key gs ++ [aircraftKey t].
Proof.
  induction gs as [|g gs IH]; [done|]. simpl. destruct (gr_key g === aircraftKey t) eqn:E; [done|].
  simpl. rewrite IH. by destruct (existsb _ gs).
Qed.

Lemma group_of_other tracks t g :
  gr_key g <> aircraftKey t -> group_of tracks g -> group_of (tracks ++ [t]) g.
Proof.
  intros Hk [H1 H2 H3 H4]. split; try done. rewrite List.filter_app, H1. cbn [List.filter].
  destruct (String.eqb_spec (aircraftKey t) (gr_key g)); [congruence|]. by rewrite app_nil_r.
Qed.

Lemma group_of_extend tracks t g :
  gr_key g = aircraftKey t -> group_of tracks g -> group_of (tracks ++ [t]) (extend_group t g).
Proof.
  intros Hk [H1 H2 H3 H4]. split; cbn [gr_flights gr_key gr_lastSeenMs gr_firstSeenMs extend_group].
  - rewrite List.filter_app, H1. cbn [List.filter]. by rewrite Hk, String.eqb_refl.
  - by destruct (gr_flights g).
  - intros t' e [Hin|[<-|[]]]%in_app_or He.
    + destruct (H3 t' e Hin He) as (l&->&Hl). destruct (flightEndMs t) as [e'|]; [|eauto].
      destruct (Z.ltb_spec l e'); eexists; (split; [done|lia]).
    + rewrite He. destruct (gr_lastSeenMs g) as [l|]; [|eauto using Z.le_refl].
      destruct (Z.ltb_spec l e); eexists; (split; [done|lia]).
  - intros t' s [Hin|[<-|[]]]%in_app_or Hs.
    + destruct (H4 t' s Hin Hs) as (f&->&Hf). destruct (flightStartMs t) as [s'|]; [|eauto].
      destruct (Z.ltb_spec s' f); eexists; (split; [done|lia]).
    + rewrite Hs. destruct (gr_firstSeenMs g) as [f|]; [|eauto using Z.le_refl].
      destruct (Z.ltb_spec s f); eexists; (split; [done|lia]).
Qed.

Lemma group_of_new tracks t :
  (forall t', In t' tracks -> aircraftKey t' <> aircraftKey t) -> group_of (tracks ++ [t]) (new_group t).
Proof.
  intros Hn. split; cbn [gr_flights gr_key gr_lastSeenMs gr_firstSeenMs new_group]; try done.
  - rewrite List.filter_app, filter_none; [cbn [List.filter]; by rewrite String.eqb_refl|].
    intros t' Ht'. apply String.eqb_neq. auto.
  - intros t' e [<-|[]] ->. eauto using Z.le_refl.
  - intros t' e [<-|[]] ->. eauto using Z.le_refl.
Qed.

Lemma add_flight_groups tracks t gs :
  List.NoDup (map gr_key gs) -> List.Forall (group_of tracks) gs ->
  (forall t', In t' tracks -> aircraftKey t' = aircraftKey t -> In (aircraftKey t) (map gr_key gs)) ->
  List.Forall (group_of (tracks ++ [t])) (add_flight t gs).
Proof.
  induction gs as [|g gs IH]; intros Hnd Hf Hall.
  { simpl. constructor; [|constructor]. apply group_of_new. intros t' Ht' Hk. by apply (Hall t'). }
  inversion Hnd as [|? ? Hn Hnd']; subst. inversion Hf as [|? ? Hg Hf']; subst. simpl.
  destruct (String.eqb_spec (gr_key g) (aircraftKey t)) as [E|E].
  - constructor; [by apply group_of_extend|]. rewrite List.Forall_forall in *. intros g' Hg'.
    apply group_of_other; [|auto]. rewrite <- E. intros Hk. apply Hn. rewrite <- Hk. by apply in_map.
  - constructor; [by apply group_of_other|]. apply IH; try done. intros t' Ht' Hk.
    destruct (Hall t' Ht' Hk) as [?|?]; done.
Qed.

Lemma grouped_fold tracks done_ gs :
  Grouped done_ gs -> Grouped (done_ ++ tracks) (fold_left (fun gs t => add_flight t gs) tracks gs).
Proof.
  revert done_ gs. induction tracks as [|t tracks IH]; intros done_ gs HG; simpl; [by rewrite app_nil_r|].
  rewrite cons_middle, app_assoc. apply IH. destruct HG as [H1 H2 H3].
  assert (existsb (fun g => gr_key g === aircraftKey t) gs = true <-> In (aircraftKey t) (map gr_key gs)) as He.
  { rewrite existsb_exists, in_map_iff. split.
    - intros (g&Hg&E%String.eqb_eq). eauto.
    - intros (g&E&Hg). exists g. split; [done|]. by apply String.eqb_eq. }
  split.
  - rewrite add_flight_keys. destruct (existsb _ gs) eqn:E; [done|].
    apply NoDup_app_disj; [done|repeat constructor; auto|]. intros k Hk [<-|[]]. apply He in Hk. congruence.
  - apply add_flight_groups; try done. intros t' Ht' <-. auto.
  - intros t' [Ht'|[<-|[]]]%in_app_or; rewrite add_flight_keys; destruct (existsb _ gs) eqn:E.
    + auto.
    + apply in_or_app. left. auto.
    + by apply He.
    + apply in_or_app. by right; left.
Qed.

(** Comparators by value. *)
Definition measured (kv : Track * option num) : bool := match snd kv with Some _ => true | None => false end.
Definition valid_value (kv : Track * option num) : Prop :=
  match snd kv with Some v => valid_finite v = true | None => True end.

Lemma value_le_total desc a b : valid_value a -> valid_value b ->
  value_le desc a b = true \/ value_le desc b a = true.
Proof.
  unfold value_le, valid_value. destruct (snd a) as [x|], (snd b) as [y|]; auto. intros Hx Hy.
  destruct desc; rewrite !sub_le_value by done; rewrite !Z.leb_le; lia.
Qed.

Lemma value_le_trans desc a b c : valid_value a -> valid_value b -> valid_value c ->
  value_le desc a b = true -> value_le desc b c = true -> value_le desc a c = true.
Proof.
  unfold value_le, valid_value. destruct (snd a) as [x|], (snd b) as [y|], (snd c) as [z|]; try done.
  intros Hx Hy Hz. destruct desc; rewrite !sub_le_value by done; rewrite !Z.leb_le; lia.
Qed.

(** The keyed list of [sortFlights]: measured rows in order, then the others as
    they came. *)
Lemma sorted_keyed desc keyed :
  List.Forall valid_value keyed ->
  exists ms, sort_by (value_le desc) keyed = ms ++ List.filter (fun kv => negb (measured kv)) keyed /\
    Permutation ms (List.filter measured keyed) /\
    StronglySorted (fun a b => value_le desc a b = true) ms.
Proof.
  intros Hv. set (s := sort_by (value_le desc) keyed).
  assert (StronglySorted (fun a b => value_le desc a b = true) s) as Hs.
  { apply (sort_by_sorted_on _ valid_value); auto using value_le_total. intros x y z H1 H2 H3.
    by apply (value_le_trans desc x y z). }
  assert (s = List.filter (fun kv => negb (negb (measured kv))) s ++ List.filter (fun kv => negb (measured kv)) s) as Hsplit.
  { apply (sorted_split (value_le desc) (fun kv => negb (measured kv)) s Hs).
    intros a b Ha Hb. unfold measured, value_le in *. by destruct (snd a), (snd b). }
  exists (List.filter (fun kv => negb (negb (measured kv))) s). split; [|split].
  - rewrite Hsplit at 1. f_equal. unfold s. apply sort_by_stable.
    intros a b Ha Hb. unfold measured, value_le in *. by destruct (snd a), (snd b).
  - rewrite (List.filter_ext _ measured) by (intros; apply negb_involutive).
    apply Permutation_filter. symmetry. apply sort_by_perm.
  - rewrite Hsplit in Hs. revert Hs. generalize (List.filter (fun kv => negb (negb (measured kv))) s). clear.
    intros l. induction l as [|x l IH]; simpl; intros Hs; [constructor|].
    inversion Hs as [|? ? Hs' Hall]; subst. constructor; [auto|].
    rewrite List.Forall_forall in *. intros y Hy. apply Hall. apply in_or_app. by left.
Qed.

(** ** Properties *)

(** Sorting the flights table loses no row and never passes "not measured" off
    as a measurement: whatever the column and direction, the measured rows come
    first, in order of their value (ascending or descending), and the rows with
    no value follow in the order they had. *)
Lemma unmeasured_sink (distance : num * num -> num * num -> num) (tracks : list Track) (sort : string)
  (receiver : option ReceiverPosition)
  (Hv : forall t v, In t tracks ->
        sortValue distance t (fst (parseFlightSort sort)) receiver = Some v -> valid_finite v = true) :
  let value t := sortValue distance t (fst (parseFlightSort sort)) receiver in
  let le := value_le (snd (parseFlightSort sort)) in
  exists ms, sortFlights distance tracks sort receiver =
      ms ++ List.filter (fun t => negb (match value t with Some _ => true | None => false end)) tracks /\
    Permutation ms (List.filter (fun t => match value t with Some _ => true | None => false end) tracks) /\
    StronglySorted (fun a b => le (a, value a) (b, value b) = true) ms.
Proof.
  cbv zeta. unfold sortFlights. destruct (parseFlightSort sort) as [column desc]. cbn [fst snd] in *.
  set (value := fun t => sortValue distance t column receiver) in *.
  destruct (sorted_keyed desc (map (fun t => (t, value t)) tracks)) as (ms&E&Hp&Hs).
  { apply List.Forall_forall. intros kv (t&<-&Ht)%in_map_iff. unfold valid_value. simpl.
    destruct (value t) as [v|] eqn:Ev; [|done]. eapply Hv; [exact Ht|]. exact Ev. }
  assert (forall p : Track * option num -> bool,
    List.filter p (map (fun t => (t, value t)) tracks) =
    map (fun t => (t, value t)) (List.filter (fun t => p (t, value t)) tracks)) as Hfm.
  { intros p. clear. induction tracks as [|t l IH]; simpl; [done|]. rewrite IH. by destruct (p (t, value t)). }
  rewrite Hfm in E, Hp. exists (map fst ms).
  assert (ms = map (fun t => (t, value t)) (map fst ms)) as Hms.
  { rewrite map_map. rewrite <- (map_id ms) at 1. apply map_ext_in. intros [t v] Hin.
    eapply Permutation_in in Hin; [|exact Hp]. apply in_map_iff in Hin as (t'&[= <- <-]&_). done. }
  split; [|split].
  - transitivity (map fst (sort_by (value_le desc) (map (fun t => (t, value t)) tracks))); [done|].
    rewrite E, map_app. f_equal. rewrite map_map. simpl. apply map_id.
  - apply (Permutation_map fst) in Hp. rewrite map_map in Hp. simpl in Hp. by rewrite map_id in Hp.
  - rewrite Hms in Hs. revert Hs. generalize (map fst ms). clear.
    induction l as [|t l IH]; simpl; intros Hs; [constructor|]. inversion Hs as [|? ? Hs' Hall]; subst.
    constructor; [auto|]. rewrite List.Forall_forall in *. intros y Hy. apply (Hall (y, value y)).
    by apply (in_map (fun t => (t, value t))).
Qed.

(** From a flight one can always walk to the one next to it and back: in a list
    with one entry per track, the next flight's previous is this one and the
    previous one's next is this one, their numbers are consecutive, and the
    strip around a flight always contains it, is a window of the list, and is
    as full as the list allows. *)
Lemma flights_are_linked (ordered : list Track) (t : Track) (max : nat)
  (Hnd : List.NoDup (map tr_track_id ordered)) (Ht : In t ordered) (Hmax : (0 < max)%nat) :
  let n := flightNeighbours ordered (tr_track_id t) in
  (forall u, fn_next n = Some u ->
     fn_previous (flightNeighbours ordered (tr_track_id u)) = Some t /\
     fn_number (flightNeighbours ordered (tr_track_id u)) = S <$> fn_number n) /\
  (forall u, fn_previous n = Some u -> fn_next (flightNeighbours ordered (tr_track_id u)) = Some t) /\
  (let '(items, from) := flightsAround ordered (tr_track_id t) max in
   In t items /\ items = take max (drop from ordered) /\ List.length items = Nat.min max (List.length ordered)).
Proof.
  assert (forall i u, ordered !! i = Some u -> find_index (is_track (tr_track_id u)) ordered = Some i) as Hfind.
  { intros i u Hu. destruct (find_index (is_track (tr_track_id u)) ordered) as [j|] eqn:Ej.
    - apply find_index_Some in Ej as (x&Hx&E%String.eqb_eq&_). f_equal.
      assert (map tr_track_id ordered !! i = Some (tr_track_id u)) as Hi by (rewrite list_lookup_fmap, Hu; done).
      assert (map tr_track_id ordered !! j = Some (tr_track_id u)) as Hj by (rewrite list_lookup_fmap, Hx; simpl; congruence).
      apply NoDup_ListNoDup in Hnd. eapply NoDup_lookup; eauto.
    - exfalso. rewrite find_index_None in Ej. apply list_elem_of_lookup_2, list_elem_of_In in Hu.
      specialize (Ej u Hu). unfold is_track in Ej. by rewrite String.eqb_refl in Ej. }
  apply list_elem_of_In, list_elem_of_lookup in Ht as [i Hi].
  pose proof (Hfind i t Hi) as Hfi. cbv zeta.
  assert (flightNeighbours ordered (tr_track_id t) =
    {| fn_number := Some (S i); fn_total := List.length ordered;
       fn_previous := match i with O => None | S j => ordered !! j end; fn_next := ordered !! S i |}) as ->
    by (unfold flightNeighbours; by rewrite Hfi).
  cbn [fn_next fn_previous fn_number].
  split; [|split].
  - intros u Hu. unfold flightNeighbours. by rewrite (Hfind _ _ Hu).
  - destruct i as [|j]; [done|]. intros u Hu. unfold flightNeighbours. by rewrite (Hfind _ _ Hu).
  - unfold flightsAround. pose proof (lookup_lt_Some _ _ _ Hi) as Hlt.
    destruct (Nat.leb_spec (List.length ordered) max) as [Hle|Hgt].
    + split; [eapply list_elem_of_In, list_elem_of_lookup_2, Hi|].
      split; [by rewrite drop_0, take_ge|lia].
    + rewrite Hfi. set (from := Nat.min _ _).
      assert (from <= i /\ i < from + max /\ from + max <= List.length ordered)%nat as Hw.
      { pose proof (Nat.div_lt max 2). unfold from. lia. }
      split; [|split; [done|]].
      * apply list_elem_of_In, (list_elem_of_lookup_2 _ (i - from)).
        rewrite lookup_take_lt by lia. rewrite lookup_drop. by replace (from + (i - from))%nat with i by lia.
      * rewrite length_take, length_drop. lia.
Qed.

(** Grouping states no identity nothing established and loses no flight: the
    groups have distinct keys, each holds exactly the flights with its key (a
    serial, else a MAC, else the track's own id), in the order they had, with
    first and last seen bounding them all; every flight has its group; and
    groups come most recently seen first. *)
Lemma groups_partition (tracks : list Track) :
  let gs := groupByAircraft tracks in
  Grouped tracks gs /\
  StronglySorted (fun a b => (gr_lastSeenMs b ?? 0) <= (gr_lastSeenMs a ?? 0)) gs.
Proof.
  cbv zeta. unfold groupByAircraft.
  assert (Grouped tracks (fold_left (fun gs t => add_flight t gs) tracks [])) as [H1 H2 H3].
  { apply (grouped_fold tracks [] []). split; [constructor|constructor|done]. }
  set (gs := fold_left _ tracks []) in *. pose proof (sort_by_perm newest_le gs) as Hp. split.
  - split.
    + by rewrite <- Hp.
    + by rewrite <- Hp.
    + intros t Ht. rewrite <- Hp. auto.
  - assert (StronglySorted (fun a b => newest_le a b = true) (sort_by newest_le gs)) as Hs.
    { apply sort_by_sorted; unfold newest_le.
      - intros a b. rewrite !Z.leb_le. lia.
      - intros a b c. rewrite !Z.leb_le. lia. }
    revert Hs. generalize (sort_by newest_le gs). clear. induction 1 as [|g l Hs IH Hall]; constructor; [done|].
    rewrite List.Forall_forall in *. intros g' Hg'. specialize (Hall g' Hg'). unfold newest_le in Hall.
    rewrite Z.leb_le in Hall. lia.
Qed.

(** ** Examples *)
Section Examples.

Definition flight (id first last : string) (rssi : option num) : Track :=
  {| tr_track_id := id; tr_state := CONFIRMED; tr_first_seen := first; tr_last_seen := last;
     tr_detection_count := 1; tr_identity := None; tr_confidence := of_Z 1; tr_evidence := None;
     tr_current := None; tr_history := None; tr_operator := None; tr_rssi_dbm := rssi;
     tr_receivers := None; tr_adsb_correlated := None |}.
Definition three_flights : list Track :=
  [flight "a" "2026-09-15T03:00:00Z" "2026-09-15T03:10:00Z" None;
   flight "b" "2026-09-15T04:00:00Z" "2026-09-15T04:10:00Z" (Some (of_Z (-60)));
   flight "c" "2026-09-15T05:00:00Z" "2026-09-15T05:10:00Z" (Some (of_Z (-80)))].

Lemma unmeasured_sink_witness :
  exists ms, sortFlights (fun _ _ => of_Z 0) three_flights "rssi-asc" None =
    ms ++ [flight "a" "2026-09-15T03:00:00Z" "2026-09-15T03:10:00Z" None].
Proof.
  destruct (unmeasured_sink (fun _ _ => of_Z 0) three_flights "rssi-asc" None) as (ms&E&_).
  - intros t v [<-|[<-|[<-|[]]]] H; vm_compute in H; try discriminate H; injection H as <-; reflexivity.
  - exists ms. exact E.
Defined.

Example rssi_order : map tr_track_id (sortFlights (fun _ _ => of_Z 0) three_flights "rssi-asc" None) = ["c"; "b"; "a"].
Proof. vm_compute. reflexivity. Qed.

Lemma flights_are_linked_witness :
  fn_previous (flightNeighbours three_flights "b") = Some (flight "a" "2026-09-15T03:00:00Z" "2026-09-15T03:10:00Z" None).
Proof.
  destruct (flights_are_linked three_flights (flight "a" "2026-09-15T03:00:00Z" "2026-09-15T03:10:00Z" None) 2)
    as (H&_).
  - repeat constructor; simpl; intuition congruence.
  - by left.
  - lia.
  - apply (H (flight "b" "2026-09-15T04:00:00Z" "2026-09-15T04:10:00Z" (Some (of_Z (-60))))). reflexivity.
Defined.

(** A track whose serial is the empty string is grouped by its MAC, but labelled
    with the empty string. *)
Definition blank_serial : Track :=
  {| tr_track_id := "t"; tr_state := CONFIRMED; tr_first_seen := ""; tr_last_seen := "";
     tr_detection_count := 1;
     tr_identity := Some {| ti_serial := Some ""; ti_macs := Some ["60:60:1f:aa:bb:cc"]; ti_vendor := None;
       ti_manufacturer_code := None; ti_model_hint := None; ti_operator_id := None; ti_ua_type := None |};
     tr_confidence := of_Z 1; tr_evidence := None; tr_current := None; tr_history := None;
     tr_operator := None; tr_rssi_dbm := None; tr_receivers := None; tr_adsb_correlated := None |}.
Lemma blank_serial_label :
  aircraftKey blank_serial = "mac:60:60:1f:aa:bb:cc" /\ aircraftLabel blank_serial = "".
Proof. split; reflexivity. Qed.

End Examples.
