(* ===== verification/FlightTime.v ===== *)
(** * FlightTime: days, windows and the histogram of the flights list

    [features/tracks/flight-time.ts].  A day is a calendar day of UTC or of the
    host's zone; the host's zone is the interface [Zone], the UTC arithmetic is
    [JsDate]'s.  The histogram's loop over days runs on fuel: it is entered only
    when the days between first and last are at most [MAX_CONTIGUOUS_DAYS], so
    that many steps are enough, and the histogram theorem proves it. *)
From Stdlib Require Import ZArith Bool String Ascii List Lia Permutation Sorted Floats.SpecFloat.
From stdpp Require Import base option list strings pretty list_numbers.
From S2P Require Import Prelude JsNumber JsDate JsString ApiTypes LogStore Flights.

(** The host's local calendar: the fields of an instant, and [new Date(y, m, d)]. *)
Class Zone := {
  local_parts : Z -> Z * Z * Z;
  local_date : Z -> Z -> Z -> option Z
}.

Inductive WindowChip := chip_today | chip_24h | chip_7d | chip_30d | chip_all.
Definition WINDOW_CHIPS : list WindowChip := [chip_today; chip_24h; chip_7d; chip_30d; chip_all].
Definition WINDOW_CHIP_LABELS (c : WindowChip) : string :=
  match c with
  | chip_today => "Today" | chip_24h => "24 h" | chip_7d => "7 d" | chip_30d => "30 d" | chip_all => "All"
  end.

Definition DAY_MS : Z := 86400000.
Definition MAX_CONTIGUOUS_DAYS : Z := 120.

Record DayRange := { dr_startMs : Z; dr_endMs : option Z }.

Record DayBucket := { db_key : string; db_startMs : Z; db_count : Z }.
Record DayHistogram := { dh_buckets : list DayBucket; dh_contiguous : bool }.

Section Days.
Context {zone : Zone}.

Definition dayParts (ms : Z) (utc : bool) : Z * Z * Z :=
  if utc then CivilFromDay (ms / msPerDay) else local_parts ms.

Definition date_ms (utc : bool) (y m d : Z) : option Z :=
  if utc then Date_UTC y m d else local_date y m d.

Definition startOfDayMs (ms : Z) (utc : bool) (offsetDays : Z) : option Z :=
  let '(y, m, d) := dayParts ms utc in date_ms utc y m (d + offsetDays).

(** [String(year).padStart(4, '0')]. *)
Definition year4 (y : Z) : string := if (0 <=? y) && (y <=? 9999) then pad 4 y else padStart 4 (pretty y).

Definition dayKey (ms : Z) (utc : bool) : string :=
  let '(y, m, d) := dayParts ms utc in
  year4 y +:+ "-" +:+ pad 2 (m + 1) +:+ "-" +:+ pad 2 d.

(** [/^(\d{4})-(\d{2})-(\d{2})$/]. *)
Definition read_key (key : string) : option (Z * Z * Z) :=
  '(y, s1) ← read_digits 4 0 key;
  s2 ← read_char "-" s1;
  '(m, s3) ← read_digits 2 0 s2;
  s4 ← read_char "-" s3;
  '(d, s5) ← read_digits 2 0 s4;
  if s5 === "" then Some (y, m, d) else None.

Definition dayRangeMs (key : string) (utc : bool) : option DayRange :=
  match read_key key with
  | None => None
  | Some (y, m, d) =>
      match date_ms utc y (m - 1) d with
      | None => None
      | Some start => Some {| dr_startMs := start; dr_endMs := date_ms utc y (m - 1) (d + 1) |}
      end
  end.

(** [new Date(ms).toISOString()]: [None] when it throws. *)
Definition date_iso (ms : option Z) : option string := toISOString <$> (ms ≫= TimeClip).

(** The outer [None] is the throw, the inner one [undefined]. *)
Definition windowSince (chip : WindowChip) (now : Z) (utc : bool) : option (option string) :=
  match chip with
  | chip_today => Some <$> date_iso (startOfDayMs now utc 0)
  | chip_24h => Some <$> date_iso (Some (now - DAY_MS))
  | chip_7d => Some <$> date_iso (Some (now - 7 * DAY_MS))
  | chip_30d => Some <$> date_iso (Some (now - 30 * DAY_MS))
  | chip_all => Some None
  end.

(** The span of the loaded flights: earliest start, latest end. *)
Definition loaded_span (tracks : list Track) : option Z * option Z :=
  fold_left (fun '(s, e) t =>
    (match flightStartMs t, s with Some x, Some y => Some (Z.min y x) | Some x, None => Some x | None, _ => s end,
     match flightEndMs t, e with Some x, Some y => Some (Z.max y x) | Some x, None => Some x | None, _ => e end))
    tracks (None, None).

Definition flightWindowMs (tracks : list Track) (chip : WindowChip) (day : option string) (nowMs : Z) (utc : bool)
  : option (num * option num) :=
  let rest :=
    let since := windowSince chip nowMs utc in
    match since with
    | None => None
    | Some s =>
        let from_loaded :=
          match loaded_span tracks with
          | (Some s, Some e) =>
              if e <=? s then (of_Z (nowMs - DAY_MS), Some (of_Z nowMs))
              else
                let p := nmin (of_Z DAY_MS) (nmax (of_Z 60000) (ndiv (of_Z (e - s)) (of_Z 20))) in
                (of_Z s, Some (nadd (of_Z e) p))
          | _ => (of_Z (nowMs - DAY_MS), Some (of_Z nowMs))
          end in
        match s ≫= Date_parse with
        | Some startMs => if startMs <? nowMs then Some (of_Z startMs, Some (of_Z nowMs)) else Some from_loaded
        | None => Some from_loaded
        end
    end in
  match day ≫= (fun d => dayRangeMs d utc) with
  | Some r => Some (of_Z (dr_startMs r), of_Z <$> dr_endMs r)
  | None => rest
  end.

(** *** The histogram *)

(** [counts]: a Map in insertion order, from key to start and count. *)
Definition count_flight (utc : bool) (counts : list DayBucket) (t : Track) : list DayBucket :=
  match flightStartMs t with
  | None => counts
  | Some startMs =>
      let key := dayKey startMs utc in
      if existsb (fun b => db_key b === key) counts
      then map (fun b => if db_key b === key
                         then {| db_key := db_key b; db_startMs := db_startMs b; db_count := db_count b + 1 |}
                         else b) counts
      else counts ++ [{| db_key := key; db_startMs := startOfDayMs startMs utc 0 ?? 0; db_count := 1 |}]
  end.

Definition count_of (counts : list DayBucket) (key : string) : Z :=
  match List.find (fun b => db_key b === key) counts with Some b => db_count b | None => 0 end.

Fixpoint fill_days (fuel : nat) (utc : bool) (counts : list DayBucket) (cursor last : Z) : list DayBucket :=
  match fuel with
  | O => []
  | S fuel' =>
      if cursor <=? last then
        {| db_key := dayKey cursor utc; db_startMs := cursor; db_count := count_of counts (dayKey cursor utc) |} ::
        match startOfDayMs cursor utc 1 with
        | Some next => fill_days fuel' utc counts next last
        | None => []
        end
      else []
  end.

(** [Math.round(p / q)] of integers, [0 <= p < 2^53], with [q] a second or a day
    in milliseconds: the quotient is never within a rounding error of a half
    without being one, so the exact half-up rounding is the one computed. *)
Definition round_div (p q : Z) : Z := (2 * p + q) / (2 * q).

Definition bucket_le (a b : DayBucket) : bool := db_startMs a - db_startMs b <=? 0.

Definition bucketFlightsByDay (tracks : list Track) (utc : bool) : DayHistogram :=
  let counts := fold_left (count_flight utc) tracks [] in
  let present := sort_by bucket_le counts in
  match present with
  | [] => {| dh_buckets := []; dh_contiguous := true |}
  | first :: _ =>
      let last := List.last present first in
      let spanDays := round_div (db_startMs last - db_startMs first) DAY_MS + 1 in
      if MAX_CONTIGUOUS_DAYS <? spanDays then {| dh_buckets := present; dh_contiguous := false |}
      else {| dh_buckets := fill_days (S (Z.to_nat MAX_CONTIGUOUS_DAYS)) utc counts (db_startMs first) (db_startMs last);
              dh_contiguous := true |}
  end.
End Days.

(** ** UTC days *)

(** The instants of the years 100 to 9999, whose keys print and read back (the
    constructor of dates takes a year below 100 for one of the 1900s). *)
Definition ordinary (ms : Z) : Prop := 100 <= YearFromDay (ms / msPerDay) <= 9999.
Definition day_of (ms : Z) : Z := ms / msPerDay.

Lemma ordinary_range ms : ordinary ms <-> DayFromYear 100 <= day_of ms < DayFromYear 10000.
Proof.
  unfold ordinary, day_of. set (d := ms / msPerDay). pose proof (YearFromDay_bounds d) as Hb.
  set (y := YearFromDay d) in *. clearbody y. split; intros H.
  - pose proof (DayFromYear_mono 100 y). pose proof (DayFromYear_mono (y + 1) 10000). lia.
  - split.
    + destruct (Z.le_gt_cases 100 y); [done|]. pose proof (DayFromYear_mono (y + 1) 100). lia.
    + destruct (Z.le_gt_cases y 9999); [done|]. pose proof (DayFromYear_mono 10000 y). lia.
Qed.

Section UTC.
Context {zone : Zone}.

Lemma dayKey_print ms : ordinary ms -> dayKey ms true = print_day (day_of ms).
Proof.
  unfold ordinary, dayKey, dayParts, print_day, day_of. intros H.
  destruct (CivilFromDay (ms / msPerDay)) as [[y m] d] eqn:E.
  assert (y = YearFromDay (ms / msPerDay)) as -> by (unfold CivilFromDay in E; congruence).
  unfold year4. replace ((0 <=? _) && (_ <=? 9999)) with true; [done|].
  symmetry. apply andb_true_intro. rewrite !Z.leb_le. lia.
Qed.

Lemma Date_UTC_day d y m dd k :
  DayFromYear 100 <= d < DayFromYear 10000 -> CivilFromDay d = (y, m, dd) -> 0 <= k <= 1 ->
  Date_UTC y m (dd + k) = Some ((d + k) * msPerDay).
Proof.
  intros Hd E Hk. destruct (CivilFromDay_spec d y m dd E) as (HM&Hm&_).
  assert (ordinary (d * msPerDay)) as Ho.
  { apply ordinary_range. unfold day_of. by rewrite Z.div_mul. }
  unfold ordinary in Ho. rewrite Z.div_mul in Ho by done.
  assert (y = YearFromDay d) as Hy by (unfold CivilFromDay in E; congruence).
  unfold Date_UTC, MakeFullYear.
  destruct ((0 <=? y) && (y <=? 99)) eqn:Ey; [apply andb_prop in Ey as [? ?%Z.leb_le]; lia|].
  assert (MakeDay y m (dd + k) = d + k) as -> by (rewrite <- HM, !MakeDay_civil by done; lia).
  change (DayFromYear 100) with (-683003) in Hd. change (DayFromYear 10000) with 2932897 in Hd.
  unfold TimeClip, msPerDay. destruct (Z.leb_spec (Z.abs ((d + k) * 86400000)) 8640000000000000); [done|lia].
Qed.

Lemma startOfDay_utc ms k :
  ordinary ms -> 0 <= k <= 1 -> startOfDayMs ms true k = Some ((day_of ms + k) * msPerDay).
Proof.
  intros Ho%ordinary_range Hk. unfold startOfDayMs, dayParts.
  destruct (CivilFromDay (ms / msPerDay)) as [[y m] d] eqn:E. by apply Date_UTC_day.
Qed.

Lemma read_key_print d y m dd :
  0 <= YearFromDay d <= 9999 -> CivilFromDay d = (y, m, dd) ->
  read_key (print_day d) = Some (y, m + 1, dd).
Proof.
  intros Hy E. destruct (CivilFromDay_spec d y m dd E) as (_&Hm&Hd&_).
  assert (y = YearFromDay d) as Ey by (unfold CivilFromDay in E; congruence).
  unfold print_day, read_key. rewrite E, read_pad0 by (cbn; lia). cbn [mbind option_bind].
  rewrite sapp_cons, sapp_nil. cbn [read_char Ascii.eqb Bool.eqb mbind option_bind].
  rewrite read_pad0 by (cbn; lia). cbn [mbind option_bind].
  rewrite sapp_cons, sapp_nil. cbn [read_char Ascii.eqb Bool.eqb mbind option_bind].
  rewrite <- (sapp_nil_r (pad 2 dd)), read_pad0 by (cbn; lia). done.
Qed.

Lemma dayRange_print d :
  DayFromYear 100 <= d < DayFromYear 10000 ->
  dayRangeMs (print_day d) true =
  Some {| dr_startMs := d * msPerDay; dr_endMs := Some ((d + 1) * msPerDay) |}.
Proof.
  intros Hd. destruct (CivilFromDay d) as [[y m] dd] eqn:E.
  assert (ordinary (d * msPerDay)) as Ho.
  { apply ordinary_range. unfold day_of. by rewrite Z.div_mul. }
  unfold ordinary in Ho. rewrite Z.div_mul in Ho by done.
  unfold dayRangeMs. rewrite (read_key_print d y m dd) by (done || lia). unfold date_ms.
  replace (m + 1 - 1) with m by lia.
  rewrite <- (Z.add_0_r dd) at 1. rewrite (Date_UTC_day d y m dd 0), (Date_UTC_day d y m dd 1) by (done || lia).
  by rewrite Z.add_0_r.
Qed.

Lemma print_day_inj a b :
  DayFromYear 100 <= a < DayFromYear 10000 -> DayFromYear 100 <= b < DayFromYear 10000 ->
  print_day a = print_day b -> a = b.
Proof.
  intros Ha Hb H. apply (f_equal (fun k => dayRangeMs k true)) in H.
  rewrite !dayRange_print in H by done. injection H as H. unfold msPerDay in H. lia.
Qed.
End UTC.

(** ** The histogram *)

Definition flies_on (d : Z) (t : Track) : bool :=
  match flightStartMs t with Some ms => day_of ms =? d | None => false end.
Definition flights_on (d : Z) (tracks : list Track) : Z := zlen (List.filter (flies_on d) tracks).
Definition dated (t : Track) : bool := match flightStartMs t with Some _ => true | None => false end.
Definition ordinary_start (t : Track) : Prop := forall ms, flightStartMs t = Some ms -> ordinary ms.
Definition day_bucket (tracks : list Track) (d : Z) : DayBucket :=
  {| db_key := print_day d; db_startMs := d * msPerDay; db_count := flights_on d tracks |}.

(** The days of the flights, in the order they are first met. *)
Definition see_day (days : list Z) (t : Track) : list Z :=
  match flightStartMs t with
  | None => days
  | Some ms => if existsb (Z.eqb (day_of ms)) days then days else days ++ [day_of ms]
  end.
Definition seen_days (tracks : list Track) : list Z := fold_left see_day tracks [].

Lemma existsb_Z k l : existsb (Z.eqb k) l = true <-> In k l.
Proof.
  rewrite existsb_exists. split; [intros (x&Hx&->%Z.eqb_eq); done | intros H; exists k; by rewrite Z.eqb_refl].
Qed.

Lemma flights_on_snoc d tracks t :
  flights_on d (tracks ++ [t]) = flights_on d tracks + (if flies_on d t then 1 else 0).
Proof. unfold flights_on. rewrite List.filter_app, zlen_app. simpl. by destruct (flies_on d t). Qed.

Lemma seen_days_snoc tracks t : seen_days (tracks ++ [t]) = see_day (seen_days tracks) t.
Proof. unfold seen_days. by rewrite fold_left_app. Qed.

Lemma seen_days_NoDup tracks : List.NoDup (seen_days tracks).
Proof.
  induction tracks as [|t tracks IH] using rev_ind; [constructor|].
  rewrite seen_days_snoc. unfold see_day. destruct (flightStartMs t) as [ms|]; [|done].
  destruct (existsb _ _) eqn:E; [done|].
  eapply Permutation_NoDup; [apply Permutation_cons_append|]. constructor; [|done].
  intros H%existsb_Z. congruence.
Qed.

Lemma see_day_spec days t d : In d (see_day days t) <-> In d days \/ flies_on d t = true.
Proof.
  unfold see_day, flies_on. destruct (flightStartMs t) as [ms|]; [|intuition congruence].
  rewrite Z.eqb_eq. destruct (existsb _ _) eqn:E.
  - apply existsb_Z in E. intuition congruence.
  - rewrite in_app_iff. simpl. intuition congruence.
Qed.

Lemma seen_days_spec tracks d :
  In d (seen_days tracks) <-> exists t, In t tracks /\ flies_on d t = true.
Proof.
  induction tracks as [|t tracks IH] using rev_ind; [split; [intros [] | intros (?&[]&_)]|].
  rewrite seen_days_snoc, see_day_spec, IH. setoid_rewrite in_app_iff. split.
  - intros [(u&Hu&Hd)|Hd]; [by exists u; auto | exists t; simpl; auto].
  - intros (u&[Hu|[<-|[]]]&Hd); [left; by exists u | by right].
Qed.

Lemma flights_on_pos d tracks : In d (seen_days tracks) <-> 0 < flights_on d tracks.
Proof.
  rewrite seen_days_spec. unfold flights_on. setoid_rewrite <- filter_In.
  destruct (List.filter _ _) as [|u l]; simpl.
  - split; [intros (?&[]) | done].
  - rewrite zlen_cons. pose proof (zlen_nonneg l). split; [lia | eauto].
Qed.

(** Days that cover the flights count each of them once. *)
Lemma days_sum days tracks :
  List.NoDup days -> (forall d, In d (seen_days tracks) -> In d days) ->
  zsum (map (fun d => flights_on d tracks) days) = zlen (List.filter dated tracks).
Proof.
  intros Hnd. induction tracks as [|t tracks IH] using rev_ind; intros Hcov.
  { clear. induction days as [|d days IH]; [done|]. exact IH. }
  rewrite List.filter_app, zlen_app, <- IH; clear IH.
  2: { intros d (u&Hu&Hd)%seen_days_spec. apply Hcov, seen_days_spec. exists u. rewrite in_app_iff. auto. }
  assert (zsum (map (fun d => if flies_on d t then 1 else 0) days) = zlen (List.filter dated [t])) as <-.
  { unfold dated. simpl. destruct (flightStartMs t) as [ms|] eqn:E.
    - assert (In (day_of ms) days) as Hin.
      { apply Hcov, seen_days_spec. exists t. rewrite in_app_iff. unfold flies_on. rewrite E, Z.eqb_refl. simpl. auto. }
      change (zlen [t]) with 1. clear Hcov.
      assert (forall l, ~ In (day_of ms) l -> zsum (map (fun d => if flies_on d t then 1 else 0) l) = 0) as H0.
      { induction l as [|x l IHl]; intros Hn; [done|]. cbn [map]. change (zsum (?a :: ?l)) with (a + zsum l).
        rewrite IHl by (simpl in Hn; tauto). unfold flies_on. rewrite E.
        destruct (Z.eqb_spec (day_of ms) x); [subst; simpl in Hn; tauto | done]. }
      induction Hnd as [|x l Hx Hnd IHl]; [done|]. cbn [map]. change (zsum (?a :: ?l)) with (a + zsum l).
      unfold flies_on at 1. rewrite E. destruct (Z.eqb_spec (day_of ms) x) as [<-|Hne].
      + by rewrite H0.
      + rewrite IHl; [done|]. destruct Hin; congruence.
    - clear Hcov Hnd. induction days as [|x l IHl]; [done|]. cbn [map]. change (zsum (?a :: ?l)) with (a + zsum l).
      unfold flies_on at 1. by rewrite E, IHl. }
  clear Hcov Hnd. induction days as [|x l IHl]; [done|]. cbn [map].
  change (zsum (?a :: ?l)) with (a + zsum l). rewrite IHl, flights_on_snoc. lia.
Qed.

Section Histogram.
Context {zone : Zone}.

Lemma day_bucket_snoc tracks t d :
  flies_on d t = false -> day_bucket (tracks ++ [t]) d = day_bucket tracks d.
Proof. intros H. unfold day_bucket. rewrite flights_on_snoc, H. f_equal. lia. Qed.

Lemma ordinary_days tracks :
  List.Forall ordinary_start tracks -> forall d, In d (seen_days tracks) -> DayFromYear 100 <= d < DayFromYear 10000.
Proof.
  intros Ho d (t&Ht&Hd)%seen_days_spec. rewrite List.Forall_forall in Ho. specialize (Ho t Ht).
  unfold flies_on in Hd. destruct (flightStartMs t) as [ms|] eqn:E; [|done].
  apply Z.eqb_eq in Hd as <-. by apply ordinary_range, Ho.
Qed.

Lemma print_day_eqb a b :
  DayFromYear 100 <= a < DayFromYear 10000 -> DayFromYear 100 <= b < DayFromYear 10000 ->
  (print_day a === print_day b) = (a =? b).
Proof.
  intros Ha Hb. apply eq_true_iff_eq. rewrite String.eqb_eq, Z.eqb_eq.
  split; [by apply print_day_inj | by intros ->].
Qed.

Lemma counts_spec tracks :
  List.Forall ordinary_start tracks ->
  fold_left (count_flight true) tracks [] = map (day_bucket tracks) (seen_days tracks).
Proof.
  induction tracks as [|t tracks IH] using rev_ind; intros Ho; [done|].
  apply List.Forall_app in Ho as [Ho Ht]. pose proof (ordinary_days _ Ho) as Hr.
  rewrite fold_left_app, seen_days_snoc, IH by done. cbn [fold_left]. unfold count_flight, see_day.
  inversion Ht as [|? ? Ht' _]; subst. unfold ordinary_start in Ht'.
  destruct (flightStartMs t) as [ms|] eqn:E.
  2: { apply map_ext. intros d. rewrite day_bucket_snoc; [done|]. unfold flies_on. by rewrite E. }
  specialize (Ht' ms eq_refl). rewrite dayKey_print by done. pose proof (proj1 (ordinary_range ms) Ht') as Hms.
  assert (forall d, flies_on d t = (day_of ms =? d)) as Hf by (intros d; unfold flies_on; by rewrite E).
  assert (existsb (fun b => db_key b === print_day (day_of ms)) (map (day_bucket tracks) (seen_days tracks)) =
    existsb (Z.eqb (day_of ms)) (seen_days tracks)) as ->.
  { clear IH. induction (seen_days tracks) as [|d l IHl]; [done|]. cbn [map existsb db_key day_bucket].
    rewrite print_day_eqb, Z.eqb_sym, IHl; simpl in *; auto. }
  destruct (existsb _ _) eqn:Ex.
  - rewrite map_map. apply map_ext_in. intros d Hd. cbn [db_key db_startMs db_count day_bucket].
    rewrite print_day_eqb, Z.eqb_sym by auto. destruct (Z.eqb_spec (day_of ms) d) as [<-|Hne].
    + unfold day_bucket. by rewrite flights_on_snoc, Hf, Z.eqb_refl.
    + rewrite day_bucket_snoc; [done|]. rewrite Hf. by apply Z.eqb_neq.
  - assert (~ In (day_of ms) (seen_days tracks)) as Hn by (intros H%existsb_Z; congruence).
    rewrite map_app. f_equal.
    + apply map_ext_in. intros d Hd. rewrite day_bucket_snoc; [done|]. rewrite Hf. apply Z.eqb_neq. congruence.
    + cbn [map]. f_equal. unfold day_bucket. rewrite startOfDay_utc, flights_on_snoc, Hf, Z.eqb_refl by (done || lia).
      rewrite flights_on_pos in Hn. unfold flights_on in *. pose proof (zlen_nonneg (List.filter (flies_on (day_of ms)) tracks)).
      rewrite Z.add_0_r. f_equal. lia.
Qed.

Lemma count_of_spec tracks d :
  List.Forall ordinary_start tracks -> DayFromYear 100 <= d < DayFromYear 10000 ->
  count_of (map (day_bucket tracks) (seen_days tracks)) (print_day d) = flights_on d tracks.
Proof.
  intros Ho Hd. pose proof (ordinary_days _ Ho) as Hr. unfold count_of.
  assert (0 <= flights_on d tracks) as H0 by apply zlen_nonneg.
  assert (0 < flights_on d tracks -> In d (seen_days tracks)) as Hin by apply flights_on_pos.
  revert Hr Hin. induction (seen_days tracks) as [|k l IH]; intros Hr Hin; [simpl in *; lia|].
  cbn [map List.find db_key day_bucket]. rewrite print_day_eqb by (simpl in Hr; auto).
  destruct (Z.eqb_spec k d) as [->|Hne]; [done|]. apply IH; [simpl in Hr; auto|].
  intros Hp. destruct (Hin Hp); [congruence | done].
Qed.

Lemma fill_days_spec tracks n a b fuel :
  List.Forall ordinary_start tracks -> DayFromYear 100 <= a -> b < DayFromYear 10000 ->
  b - a + 1 = Z.of_nat n -> (n < fuel)%nat ->
  fill_days fuel true (map (day_bucket tracks) (seen_days tracks)) (a * msPerDay) (b * msPerDay) =
  map (day_bucket tracks) (seqZ a (Z.of_nat n)).
Proof.
  intros Ho. revert a fuel. induction n as [|n IH]; intros a fuel Ha Hb Hn Hf;
    (destruct fuel as [|fuel]; [lia|]); cbn [fill_days].
  - destruct (Z.leb_spec (a * msPerDay) (b * msPerDay)); [unfold msPerDay in *; lia | done].
  - destruct (Z.leb_spec (a * msPerDay) (b * msPerDay)); [|unfold msPerDay in *; lia].
    assert (ordinary (a * msPerDay) /\ day_of (a * msPerDay) = a) as [Hoa Hda].
    { rewrite ordinary_range. unfold day_of. rewrite Z.div_mul by done. lia. }
    rewrite dayKey_print, startOfDay_utc, Hda, count_of_spec by (done || lia).
    rewrite Nat2Z.inj_succ, seqZ_cons, Z.pred_succ, <- Z.add_1_r by lia. cbn [map]. f_equal.
    apply IH; lia.
Qed.

(** The days of the flights in calendar order. *)
Definition sorted_days (tracks : list Track) : list Z := sort_by Z.leb (seen_days tracks).

Lemma sorted_days_In d tracks : In d (sorted_days tracks) <-> In d (seen_days tracks).
Proof. apply sort_by_In. Qed.

Lemma sorted_days_lt tracks : StronglySorted Z.lt (sorted_days tracks).
Proof.
  assert (List.NoDup (sorted_days tracks)) as Hnd.
  { eapply Permutation_NoDup; [apply sort_by_perm | apply seen_days_NoDup]. }
  assert (StronglySorted (fun a b => (a <=? b) = true) (sorted_days tracks)) as Hs.
  { apply sort_by_sorted; intros *; rewrite !Z.leb_le; lia. }
  induction Hs as [|x l Hs IH Hall]; [constructor|]. inversion Hnd as [|? ? Hx Hl]; subst.
  constructor; [auto|]. rewrite List.Forall_forall in *. intros y Hy. specialize (Hall y Hy).
  apply Z.leb_le in Hall. assert (x <> y) by congruence. lia.
Qed.

Lemma present_spec tracks :
  sort_by bucket_le (map (day_bucket tracks) (seen_days tracks)) = map (day_bucket tracks) (sorted_days tracks).
Proof.
  apply sort_by_map. intros a b. unfold bucket_le. cbn [db_startMs day_bucket].
  apply eq_true_iff_eq. rewrite !Z.leb_le. unfold msPerDay. lia.
Qed.

Lemma seqZ_lt a n : StronglySorted Z.lt (seqZ a (Z.of_nat n)).
Proof.
  revert a. induction n as [|n IH]; intros a; [constructor|].
  rewrite Nat2Z.inj_succ, seqZ_cons, Z.pred_succ by lia. constructor; [apply IH|].
  rewrite List.Forall_forall. intros y Hy%list_elem_of_In%elem_of_seqZ. lia.
Qed.

Lemma sorted_lt_NoDup l : StronglySorted Z.lt l -> List.NoDup l.
Proof.
  induction 1 as [|x l Hs IH Hall]; constructor; [|done]. rewrite List.Forall_forall in Hall.
  intros Hx. specialize (Hall x Hx). lia.
Qed.

(** The contract of the histogram, as the days it shows. *)
Record histogram_of (tracks : list Track) (h : DayHistogram) (days : list Z) : Prop := {
  ho_buckets : dh_buckets h = map (day_bucket tracks) days;
  ho_ordered : StronglySorted Z.lt days;
  ho_covers : forall t, In t tracks -> forall ms, flightStartMs t = Some ms -> In (day_of ms) days;
  ho_axis :
    if dh_contiguous h
    then exists a n, days = seqZ a n /\ n <= MAX_CONTIGUOUS_DAYS /\
      (0 < n -> 0 < flights_on a tracks /\ 0 < flights_on (a + n - 1) tracks)
    else (forall d, In d days -> 0 < flights_on d tracks) /\
      exists a b, In a days /\ In b days /\ MAX_CONTIGUOUS_DAYS < b - a + 1
}.

Lemma histogram_ok tracks :
  List.Forall ordinary_start tracks -> exists days, histogram_of tracks (bucketFlightsByDay tracks true) days.
Proof.
  intros Ho. pose proof (ordinary_days _ Ho) as Hr. pose proof (sorted_days_lt tracks) as Hs.
  assert (forall t, In t tracks -> forall ms, flightStartMs t = Some ms -> In (day_of ms) (sorted_days tracks)) as Hcov.
  { intros t Ht ms E. apply sorted_days_In, seen_days_spec. exists t. unfold flies_on. by rewrite E, Z.eqb_refl. }
  pose proof (fun d => sorted_days_In d tracks) as Hin.
  unfold bucketFlightsByDay. rewrite counts_spec, present_spec by done.
  destruct (sorted_days tracks) as [|a l] eqn:El; cbn [map].
  { exists []. split; [done | constructor | done |]. exists 0, 0. rewrite seqZ_nil by lia. unfold MAX_CONTIGUOUS_DAYS.
    split_and!; [done | lia | lia]. }
  change (day_bucket tracks a :: map (day_bucket tracks) l) with (map (day_bucket tracks) (a :: l)).
  rewrite last_map. set (b := List.last (a :: l) a). cbn [db_startMs day_bucket].
  assert (In b (a :: l)) as Hb by apply last_In.
  assert (forall d, In d (a :: l) -> a <= d <= b) as Hab.
  { intros d Hd. split.
    - inversion Hs as [|? ? _ Hall]; subst. rewrite List.Forall_forall in Hall.
      destruct Hd as [<-|Hd]; [lia | apply Hall in Hd; lia].
    - apply (sorted_last Z.le); [lia | | done]. clear -Hs.
      induction Hs as [|x k Hs IH Hall]; constructor; [done|]. eapply List.Forall_impl; [|exact Hall]. simpl. lia. }
  assert (In a (seen_days tracks)) as Ha by (apply Hin; by left). apply Hin in Hb as Hb'.
  pose proof (Hr a Ha) as Hra. pose proof (Hr b Hb') as Hrb. pose proof (Hab b Hb) as Hle.
  assert (round_div (b * msPerDay - a * msPerDay) DAY_MS = b - a) as ->.
  { unfold round_div, msPerDay, DAY_MS. symmetry. apply (Z.div_unique _ _ _ 86400000); lia. }
  destruct (Z.ltb_spec MAX_CONTIGUOUS_DAYS (b - a + 1)) as [Hl|Hl].
  - exists (a :: l). split; [done..|]. cbn [dh_contiguous]. split; [|exists a, b; simpl; auto].
    intros d Hd. by apply flights_on_pos, Hin.
  - set (n := Z.to_nat (b - a + 1)). assert (b - a + 1 = Z.of_nat n) as Hn by lia.
    exists (seqZ a (Z.of_nat n)). split.
    + apply fill_days_spec; [done | lia | lia | lia |]. unfold n, MAX_CONTIGUOUS_DAYS in *. lia.
    + apply seqZ_lt.
    + intros t Ht ms E. apply list_elem_of_In, elem_of_seqZ. specialize (Hab _ (Hcov t Ht ms E)). lia.
    + exists a, (Z.of_nat n). split_and!; [done | lia|]. intros _.
      replace (a + Z.of_nat n - 1) with b by lia. by rewrite <- !flights_on_pos.
Qed.

(** C31. The histogram of the flights, over UTC days and whatever their order:
    its buckets are distinct days in calendar order, each bucket counts the
    flights that started that day and no other, and together they count every
    flight with a start exactly once; the axis is either all the days from the
    first flight's to the last's, at most 120 of them, or, beyond that, exactly
    the days that have flights. *)
Theorem histogram_counts_each_flight_once tracks (Hord : List.Forall ordinary_start tracks) :
  let h := bucketFlightsByDay tracks true in
  zsum (map db_count (dh_buckets h)) = zlen (List.filter dated tracks) /\
  exists days, histogram_of tracks h days.
Proof.
  intros h. destruct (histogram_ok tracks Hord) as (days&Hh). split; [|by exists days].
  destruct Hh as [Hb Hs Hc _]. unfold h. rewrite Hb, map_map.
  apply days_sum; [by apply sorted_lt_NoDup|]. intros d (t&Ht&Hd)%seen_days_spec. unfold flies_on in Hd.
  destruct (flightStartMs t) as [ms|] eqn:E; [|done]. apply Z.eqb_eq in Hd as <-. eauto.
Qed.

(** A UTC day key is the name of its day: it reads back as the range of
    that day, the instant lies in it, and another instant has the same key
    exactly when it lies in the range too.  So a bar, which filters by key, and
    a day in the address, which filters by range, are the same filter. *)
Lemma day_key_names_its_day ms ms' (Ho : ordinary ms) (Ho' : ordinary ms') :
  exists s, dayRangeMs (dayKey ms true) true = Some {| dr_startMs := s; dr_endMs := Some (s + DAY_MS) |} /\
    startOfDayMs ms true 0 = Some s /\ s <= ms < s + DAY_MS /\
    (dayKey ms' true = dayKey ms true <-> s <= ms' < s + DAY_MS).
Proof.
  exists (day_of ms * msPerDay). rewrite startOfDay_utc, !dayKey_print by (done || lia).
  apply ordinary_range in Ho as Hr, Ho' as Hr'. rewrite dayRange_print by done.
  assert (forall x, let q := day_of x * msPerDay in q <= x < q + DAY_MS) as Hx.
  { intros x. unfold day_of, DAY_MS, msPerDay. pose proof (Z.div_mod x 86400000). pose proof (Z.mod_pos_bound x 86400000). lia. }
  split_and!; [|by rewrite Z.add_0_r | apply Hx.. |].
  - do 2 f_equal. f_equal. unfold msPerDay, DAY_MS. lia.
  - rewrite <- String.eqb_eq, print_day_eqb, Z.eqb_eq by done. pose proof (Hx ms'). pose proof (Hx ms).
    unfold DAY_MS, msPerDay in *. lia.
Qed.
End Histogram.

(** A host whose clock is set to UTC. *)
Definition utc_host : Zone :=
  {| local_parts ms := CivilFromDay (ms / msPerDay); local_date := Date_UTC |}.

Definition a_week : list Track :=
  [flight "c" "2026-09-17T00:00:00Z" "2026-09-17T00:10:00Z" None;
   flight "a" "2026-09-15T03:00:00Z" "2026-09-15T03:10:00Z" None;
   flight "x" "not a date" "" None;
   flight "b" "2026-09-15T23:59:59Z" "2026-09-16T00:10:00Z" None].

Lemma a_week_ordinary : List.Forall ordinary_start a_week.
Proof.
  repeat (apply List.Forall_cons || apply List.Forall_nil); intros ms H; vm_compute in H;
    (discriminate H || (injection H as <-; vm_compute; split; discriminate)).
Qed.

Lemma histogram_counts_each_flight_once_witness :
  zsum (map db_count (dh_buckets (@bucketFlightsByDay utc_host a_week true))) = 3.
Proof.
  destruct (@histogram_counts_each_flight_once utc_host a_week a_week_ordinary) as (H&_).
  rewrite H. vm_compute. reflexivity.
Defined.

Example week_bars : map (fun b => (db_key b, db_count b)) (dh_buckets (@bucketFlightsByDay utc_host a_week true)) =
  [("2026-09-15", 2); ("2026-09-16", 0); ("2026-09-17", 1)].
Proof. vm_compute. reflexivity. Qed.

Lemma day_key_names_its_day_witness : exists s,
  @dayRangeMs utc_host "2024-02-29" true = Some {| dr_startMs := s; dr_endMs := Some (s + DAY_MS) |}.
Proof.
  destruct (@day_key_names_its_day utc_host 1709164800000 0) as (s&H&_).
  - vm_compute. split; discriminate.
  - vm_compute. split; discriminate.
  - exists s. exact H.
Defined.
