(* ===== verification/FlightFilters.v ===== *)
(** * FlightFilters: the facets of the flights list

    [features/tracks/flight-filters.ts]: which flights pass the filters, and the
    options each facet offers with the count each would give. *)
From Stdlib Require Import ZArith Bool String Ascii List Lia Permutation Sorted Floats.SpecFloat.
From stdpp Require Import base option list strings pretty.
From S2P Require Import Prelude JsNumber JsDate JsString ApiTypes LogStore Flights FlightTime.

Inductive YesNo := yes | no.
#[export] Instance YesNo_eq_dec : EqDecision YesNo.
Proof. solve_decision. Defined.

Definition searchableIdentity (t : Track) : string :=
  let identity {A} (f : TrackIdentity -> option A) := tr_identity t ?. f in
  join " " (omap truthy
    ([identity ti_serial; identity ti_manufacturer_code; identity ti_vendor; identity ti_model_hint;
      identity ti_operator_id; Some (tr_track_id t)] ++ map Some (identity ti_macs ?? []))).

Record FlightFilters := {
  ff_q : option string;
  ff_day : option string;
  ff_vendor : option string;
  ff_evidence : option DetectionClass;
  ff_operator : option YesNo;
  ff_minDurationS : option num;
  ff_minDetections : option num
}.

Inductive FlightFacet :=
| facet_q | facet_day | facet_vendor | facet_evidence | facet_operator | facet_minDurationS | facet_minDetections.
#[export] Instance FlightFacet_eq_dec : EqDecision FlightFacet.
Proof. solve_decision. Defined.

Definition DURATION_THRESHOLDS_S : list num := map of_Z [60; 300; 900].
Definition DETECTION_THRESHOLDS : list num := map of_Z [10; 100; 1000].

Section Filters.
Context {zone : Zone}.

Definition matchesFacet (t : Track) (facet : FlightFacet) (filters : FlightFilters) (utc : bool) : bool :=
  match facet with
  | facet_q =>
      match truthy ((fun s => toLowerCase (trim s)) <$> ff_q filters) with
      | None => true
      | Some q => includes q (toLowerCase (searchableIdentity t))
      end
  | facet_day =>
      match truthy (ff_day filters) ?. (fun d => dayRangeMs d utc) with
      | None => true
      | Some range =>
          match Date_parse (tr_first_seen t), dr_endMs range with
          | Some startMs, Some endMs => (dr_startMs range <=? startMs) && (startMs <? endMs)
          | _, _ => false
          end
      end
  | facet_vendor =>
      match truthy (ff_vendor filters) with
      | None => true
      | Some v => bool_decide (tr_identity t ?. ti_vendor = Some v)
      end
  | facet_evidence =>
      match ff_evidence filters with
      | None => true
      | Some c => existsb (fun item => bool_decide (ev_class item = c)) (tr_evidence t ?? [])
      end
  | facet_operator =>
      match ff_operator filters with
      | None => true
      | Some o => Bool.eqb (hasOperatorFix t) (bool_decide (o = yes))
      end
  | facet_minDurationS =>
      match ff_minDurationS filters with
      | None => true
      | Some min => match flightDurationS t with Some seconds => nge seconds min | None => false end
      end
  | facet_minDetections =>
      match ff_minDetections filters with
      | None => true
      | Some min => nge (of_Z (tr_detection_count t)) min
      end
  end.

Definition ALL_FACETS : list FlightFacet := 
  [facet_q; facet_day; facet_vendor; facet_evidence; facet_operator; facet_minDurationS; facet_minDetections].

Definition filterFlights (tracks : list Track) (filters : FlightFilters) (utc : bool) (except : option FlightFacet)
  : list Track :=
  List.filter (fun t => forallb (fun facet =>
    bool_decide (Some facet = except) || matchesFacet t facet filters utc) ALL_FACETS) tracks.

Record FacetOption (T : Type) := { fo_value : T; fo_label : string; fo_count : Z }.
Arguments fo_value {T}.
Arguments fo_label {T}.
Arguments fo_count {T}.

Record FlightFacets := {
  fs_vendor : list (FacetOption string);
  fs_evidence : list (FacetOption DetectionClass);
  fs_operator : list (FacetOption YesNo);
  fs_duration : list (FacetOption num);
  fs_detections : list (FacetOption num)
}.

Definition durationLabel (seconds : num) : string :=
  if nge seconds (of_Z 3600) then "≥ " +:+ num_string (ndiv seconds (of_Z 3600)) +:+ " h"
  else if nge seconds (of_Z 60) then "≥ " +:+ num_string (ndiv seconds (of_Z 60)) +:+ " min"
  else "≥ " +:+ num_string seconds +:+ " s".

(** The counting Maps, in insertion order: [counts.set(k, (counts.get(k) ?? 0) + 1)]. *)
Section Tally.
Context {K : Type} `{EqDecision K}.

Definition map_has (k : K) (counts : list (K * Z)) : bool := existsb (fun e => bool_decide (e.1 = k)) counts.

Definition bump (counts : list (K * Z)) (k : K) : list (K * Z) :=
  if map_has k counts
  then map (fun e => if bool_decide (e.1 = k) then (e.1, e.2 + 1) else e) counts
  else counts ++ [(k, 1)].

Definition add_if_absent (selected : option K) (counts : list (K * Z)) : list (K * Z) :=
  match selected with
  | Some k => if map_has k counts then counts else counts ++ [(k, 0)]
  | None => counts
  end.

(** [new Set(values)], in insertion order. *)
Definition to_set (values : list K) : list K :=
  fold_left (fun s v => if existsb (fun u => bool_decide (u = v)) s then s else s ++ [v]) values [].
End Tally.

Context {C : Collation}.

Definition vendor_le (a b : string * Z) : bool :=
  if b.2 - a.2 =? 0 then match localeCompare a.1 b.1 with Gt => false | _ => true end else b.2 - a.2 <=? 0.
Definition evidence_le (a b : DetectionClass * Z) : bool :=
  match localeCompare (DetectionClass_string a.1) (DetectionClass_string b.1) with Gt => false | _ => true end.

Definition is_some_num (selected : option num) (v : num) : bool :=
  match selected with Some s => neq s v | None => false end.

Definition flightFacets (tracks : list Track) (filters : FlightFilters) (utc : bool) : FlightFacets :=
  let forVendor := filterFlights tracks filters utc (Some facet_vendor) in
  let forEvidence := filterFlights tracks filters utc (Some facet_evidence) in
  let forOperator := filterFlights tracks filters utc (Some facet_operator) in
  let forDuration := filterFlights tracks filters utc (Some facet_minDurationS) in
  let forDetections := filterFlights tracks filters utc (Some facet_minDetections) in
  let vendorCounts := fold_left (fun counts t =>
    match truthy (tr_identity t ?. ti_vendor) with Some v => bump counts v | None => counts end) forVendor [] in
  let vendorCounts := add_if_absent (truthy (ff_vendor filters)) vendorCounts in
  let evidenceCounts := fold_left (fun counts t =>
    fold_left bump (to_set (map ev_class (tr_evidence t ?? []))) counts) forEvidence [] in
  let evidenceCounts := add_if_absent (ff_evidence filters) evidenceCounts in
  let located := zlen (List.filter hasOperatorFix forOperator) in
  {| fs_vendor := map (fun e => {| fo_value := e.1; fo_label := e.1; fo_count := e.2 |})
       (sort_by vendor_le vendorCounts);
     fs_evidence := map (fun e =>
       {| fo_value := e.1; fo_label := "Class " +:+ DetectionClass_string e.1; fo_count := e.2 |})
       (sort_by evidence_le evidenceCounts);
     fs_operator := List.filter (fun o => (0 <? fo_count o) || bool_decide (ff_operator filters = Some (fo_value o)))
       [{| fo_value := yes; fo_label := "Located"; fo_count := located |};
        {| fo_value := no; fo_label := "Not located"; fo_count := zlen forOperator - located |}];
     fs_duration := List.filter (fun o => (0 <? fo_count o) || is_some_num (ff_minDurationS filters) (fo_value o))
       (map (fun seconds =>
         {| fo_value := seconds; fo_label := durationLabel seconds;
            fo_count := zlen (List.filter (fun t => nge (flightDurationS t ?? of_Z (-1)) seconds) forDuration) |})
         DURATION_THRESHOLDS_S);
     fs_detections := List.filter (fun o => (0 <? fo_count o) || is_some_num (ff_minDetections filters) (fo_value o))
       (map (fun min =>
         {| fo_value := min; fo_label := "≥ " +:+ num_string min;
            fo_count := zlen (List.filter (fun t => nge (of_Z (tr_detection_count t)) min) forDetections) |})
         DETECTION_THRESHOLDS) |}.
End Filters.
Arguments fo_value {T}.
Arguments fo_label {T}.
Arguments fo_count {T}.

(** ** Counting *)

Section TallyLemmas.
Context {K : Type} `{EqDecision K}.

Definition occ (k : K) (l : list K) : Z := zlen (List.filter (fun x => bool_decide (x = k)) l).

(** The Map counts the list [l]. *)
Record Tallied (counts : list (K * Z)) (l : list K) : Prop := {
  ta_keys : List.NoDup (map fst counts);
  ta_counts : forall e, In e counts -> e.2 = occ e.1 l;
  ta_all : forall k, In k (map fst counts) <-> 0 < occ k l
}.

Lemma occ_snoc k l x : occ k (l ++ [x]) = occ k l + (if bool_decide (x = k) then 1 else 0).
Proof. unfold occ. rewrite List.filter_app, zlen_app. simpl. by destruct (bool_decide (x = k)). Qed.

Lemma occ_nonneg k l : 0 <= occ k l.
Proof. apply zlen_nonneg. Qed.

Lemma map_has_spec k (counts : list (K * Z)) : map_has k counts = true <-> In k (map fst counts).
Proof.
  unfold map_has. rewrite existsb_exists, in_map_iff. split.
  - intros (e&He&Hk%bool_decide_eq_true). by exists e.
  - intros (e&He&Hk). exists e. by rewrite bool_decide_eq_true.
Qed.

Lemma bump_tallied counts l k : Tallied counts l -> Tallied (bump counts k) (l ++ [k]).
Proof.
  intros [Hn Hc Ha]. pose proof (occ_nonneg k l) as H0. unfold bump. destruct (map_has k counts) eqn:E.
  - apply map_has_spec in E.
    assert (map fst (map (fun e : K * Z => if bool_decide (e.1 = k) then (e.1, e.2 + 1) else e) counts) =
      map fst counts) as Em.
    { rewrite map_map. apply map_ext. intros e. by destruct (bool_decide _). }
    split; rewrite ?Em; [done | |].
    + intros e' (e&<-&He)%in_map_iff. specialize (Hc e He). case_bool_decide as Hk; simpl;
        rewrite occ_snoc; case_bool_decide; try congruence; lia.
    + intros j. rewrite occ_snoc, Ha. case_bool_decide as Hj; [subst|].
      * apply Ha in E. lia.
      * rewrite Z.add_0_r. done.
  - assert (~ In k (map fst counts)) as Hk by (intros H%map_has_spec; congruence).
    split; rewrite ?map_app.
    + eapply Permutation_NoDup; [apply Permutation_cons_append|]. by constructor.
    + intros e [He|[<-|[]]]%in_app_iff; simpl; rewrite occ_snoc.
      * rewrite <- (Hc e He). case_bool_decide as Hj; [|lia]. destruct Hk. rewrite Hj. by apply in_map.
      * rewrite Ha in Hk. rewrite bool_decide_true by done. lia.
    + intros j. rewrite in_app_iff, Ha, occ_snoc. simpl. pose proof (occ_nonneg j l).
      case_bool_decide as Hj; [subst; split; [lia | auto]|]. rewrite Z.add_0_r. intuition.
Qed.

Lemma fold_bump_tallied ks counts l : Tallied counts l -> Tallied (fold_left bump ks counts) (l ++ ks).
Proof.
  revert counts l. induction ks as [|k ks IH]; intros counts l H; simpl; [by rewrite app_nil_r|].
  rewrite (cons_middle k l ks), app_assoc. by apply IH, bump_tallied.
Qed.

Definition memb (k : K) (l : list K) : bool := existsb (fun u => bool_decide (u = k)) l.

Lemma memb_spec k l : memb k l = true <-> In k l.
Proof.
  unfold memb. rewrite existsb_exists. split.
  - intros (u&Hu&<-%bool_decide_eq_true). done.
  - intros H. exists k. by rewrite bool_decide_eq_true.
Qed.

Lemma memb_false k l : memb k l = false <-> ~ In k l.
Proof. by rewrite <- memb_spec, not_true_iff_false. Qed.

Lemma occ_flat_map {A} (keys : A -> list K) k l :
  (forall t, List.NoDup (keys t)) ->
  occ k (flat_map keys l) = zlen (List.filter (fun t => memb k (keys t)) l).
Proof.
  intros Hn. induction l as [|t l IH]; [done|]. cbn [flat_map List.filter].
  unfold occ in *. rewrite List.filter_app, zlen_app, IH.
  assert (zlen (List.filter (fun x => bool_decide (x = k)) (keys t)) = if memb k (keys t) then 1 else 0) as ->.
  { clear IH. specialize (Hn t). induction Hn as [|x ks Hx Hn IHn]; [done|]. cbn [List.filter].
    unfold memb in *. cbn [existsb]. case_bool_decide as Hk; [subst|done].
    apply memb_false in Hx. unfold memb in Hx. rewrite Hx in IHn. by rewrite zlen_cons, IHn. }
  destruct (memb k (keys t)); rewrite ?zlen_cons; lia.
Qed.

Lemma to_set_spec (values : list K) :
  List.NoDup (to_set values) /\ forall v, In v (to_set values) <-> In v values.
Proof.
  induction values as [|x values [IHn IH]] using rev_ind; [split; [constructor | done]|].
  unfold to_set in *. rewrite fold_left_app. cbn [fold_left]. set (s := fold_left _ values []) in *.
  destruct (existsb _ s) eqn:E.
  - apply existsb_exists in E as (u&Hu&->%bool_decide_eq_true). split; [done|]. intros v.
    rewrite in_app_iff, IH. apply IH in Hu. simpl. intuition congruence.
  - assert (~ In x s) as Hx.
    { intros H. rewrite <- not_true_iff_false in E. apply E, existsb_exists. exists x. by rewrite bool_decide_eq_true. }
    split; [eapply Permutation_NoDup; [apply Permutation_cons_append | by constructor]|].
    intros v. by rewrite !in_app_iff, IH.
Qed.

(** A tally of keys, each flight's once, with the selection kept. *)
Lemma facet_counts {A} (keys : A -> list K) (l : list A) selected :
  (forall t, List.NoDup (keys t)) ->
  let n k := zlen (List.filter (fun t => memb k (keys t)) l) in
  let counts := add_if_absent selected (fold_left (fun counts t => fold_left bump (keys t) counts) l []) in
  List.NoDup (map fst counts) /\ (forall e, In e counts -> e.2 = n e.1) /\
  forall k, In k (map fst counts) <-> 0 < n k \/ selected = Some k.
Proof.
  intros Hn n counts. set (base := fold_left _ l []) in *.
  assert (Tallied base (flat_map keys l)) as [Hk Hc Ha].
  { replace base with (fold_left bump (flat_map keys l) []).
    - apply (fold_bump_tallied _ [] []). split; [constructor | done | done].
    - unfold base. generalize (@nil (K * Z)). induction l as [|t l IH]; intros c; [done|]. simpl.
      by rewrite fold_left_app, IH. }
  assert (forall k, occ k (flat_map keys l) = n k) as En by (intros k; by apply occ_flat_map).
  setoid_rewrite En in Hc. setoid_rewrite En in Ha. unfold counts, add_if_absent.
  destruct selected as [k|]; [destruct (map_has k base) eqn:E|].
  - apply map_has_spec in E. split_and!; [done..|]. intros j. rewrite Ha. apply Ha in E. intuition congruence.
  - assert (~ In k (map fst base)) as Hx by (intros H%map_has_spec; congruence). rewrite map_app. split_and!.
    + eapply Permutation_NoDup; [apply Permutation_cons_append|]. by constructor.
    + intros e [He|[<-|[]]]%in_app_iff; [auto|]. simpl. rewrite Ha in Hx.
      assert (0 <= n k) by apply zlen_nonneg. lia.
    + intros j. rewrite in_app_iff, Ha. simpl. intuition congruence.
  - split_and!; [done..|]. intros j. rewrite Ha. intuition congruence.
Qed.
End TallyLemmas.

(** ** What the counts mean *)

(** The filters with one facet set. *)
Definition set_vendor v f := {| ff_q := ff_q f; ff_day := ff_day f; ff_vendor := Some v; ff_evidence := ff_evidence f;
  ff_operator := ff_operator f; ff_minDurationS := ff_minDurationS f; ff_minDetections := ff_minDetections f |}.
Definition set_evidence v f := {| ff_q := ff_q f; ff_day := ff_day f; ff_vendor := ff_vendor f; ff_evidence := Some v;
  ff_operator := ff_operator f; ff_minDurationS := ff_minDurationS f; ff_minDetections := ff_minDetections f |}.
Definition set_operator v f := {| ff_q := ff_q f; ff_day := ff_day f; ff_vendor := ff_vendor f; ff_evidence := ff_evidence f;
  ff_operator := Some v; ff_minDurationS := ff_minDurationS f; ff_minDetections := ff_minDetections f |}.
Definition set_duration v f := {| ff_q := ff_q f; ff_day := ff_day f; ff_vendor := ff_vendor f; ff_evidence := ff_evidence f;
  ff_operator := ff_operator f; ff_minDurationS := Some v; ff_minDetections := ff_minDetections f |}.
Definition set_detections v f := {| ff_q := ff_q f; ff_day := ff_day f; ff_vendor := ff_vendor f; ff_evidence := ff_evidence f;
  ff_operator := ff_operator f; ff_minDurationS := ff_minDurationS f; ff_minDetections := Some v |}.

Section FacetTheorems.
Context {zone : Zone} {C : Collation}.

Lemma all_facets g : In g ALL_FACETS.
Proof. destruct g; simpl; tauto. Qed.

Lemma filter_filter_and {A} (p p' : A -> bool) l :
  List.filter p (List.filter p' l) = List.filter (fun x => p' x && p x) l.
Proof.
  induction l as [|x l IH]; [done|]. simpl. destruct (p' x); simpl; [destruct (p x); by rewrite IH | done].
Qed.

(** Setting a facet is filtering by it the rows that pass the others. *)
Lemma filter_facet tracks f f' utc facet :
  (forall t g, g <> facet -> matchesFacet t g f' utc = matchesFacet t g f utc) ->
  filterFlights tracks f' utc None =
  List.filter (fun t => matchesFacet t facet f' utc) (filterFlights tracks f utc (Some facet)).
Proof.
  intros H. unfold filterFlights. rewrite filter_filter_and. apply List.filter_ext. intros t.
  apply eq_true_iff_eq. rewrite andb_true_iff, !forallb_forall.
  setoid_rewrite orb_true_iff. setoid_rewrite bool_decide_eq_true. split.
  - intros Ha. split.
    + intros g Hg. destruct (decide (g = facet)) as [->|Hne]; [by left|].
      right. rewrite <- H by done. destruct (Ha g Hg) as [|]; done.
    + destruct (Ha facet (all_facets facet)) as [|]; done.
  - intros [Ha Hf] g Hg. right. destruct (decide (g = facet)) as [->|Hne]; [done|].
    rewrite H by done. destruct (Ha g Hg) as [E|]; congruence.
Qed.

(** An offer: distinct options, among the candidates exactly those that would
    give a row or are selected, each with the number of rows it would give. *)
Record offers {T : Type} (options : list (FacetOption T)) (rows : T -> list Track)
    (candidate : T -> Prop) (selected : T -> bool) : Prop := {
  of_distinct : List.NoDup (map fo_value options);
  of_counts : forall o, In o options -> fo_count o = zlen (rows (fo_value o));
  of_shown : forall v, In v (map fo_value options) <-> candidate v /\ (0 < zlen (rows v) \/ selected v = true)
}.

(** Offers made by filtering a list of candidates. *)
Lemma offers_filter {T} (options : list (FacetOption T)) rows selected :
  List.NoDup (map fo_value options) ->
  (forall o, In o options -> fo_count o = zlen (rows (fo_value o))) ->
  offers (List.filter (fun o => (0 <? fo_count o) || selected (fo_value o)) options) rows
    (fun v => In v (map fo_value options)) selected.
Proof.
  intros Hn Hc. split.
  - clear Hc. induction options as [|o l IH]; [constructor|]. inversion Hn as [|? ? Hx Hl]; subst. simpl.
    destruct (_ || _); [|auto]. constructor; [|auto]. intros (o'&E&Ho')%in_map_iff.
    apply filter_In in Ho' as [Ho' _]. apply Hx. rewrite <- E. by apply in_map.
  - intros o [Ho _]%filter_In. auto.
  - intros v. rewrite !in_map_iff. split.
    + intros (o&<-&[Ho Hs]%filter_In). apply orb_true_iff in Hs. rewrite Z.ltb_lt, Hc in Hs by done.
      split; [by exists o | done].
    + intros [(o&<-&Ho) Hs]. exists o. split; [done|]. apply filter_In. split; [done|].
      apply orb_true_iff. by rewrite Z.ltb_lt, Hc.
Qed.

Lemma offers_candidates {T} (options : list (FacetOption T)) rows candidate candidate' selected :
  offers options rows candidate selected -> (forall v, candidate v <-> candidate' v) ->
  offers options rows candidate' selected.
Proof. intros [H1 H2 H3] H. split; [done..|]. intros v. by rewrite H3, H. Qed.

(** Offers made from a counting Map. *)
Lemma offers_tally {K} `{EqDecision K} (label : K -> string) (le : K * Z -> K * Z -> bool) counts rows candidate selected :
  List.NoDup (map fst counts) ->
  (forall e, In e counts -> e.2 = zlen (rows e.1)) ->
  (forall k, In k (map fst counts) <-> candidate k /\ (0 < zlen (rows k) \/ selected k = true)) ->
  offers (map (fun e => {| fo_value := e.1; fo_label := label e.1; fo_count := e.2 |}) (sort_by le counts))
    rows candidate selected.
Proof.
  intros Hn Hc Hs. split.
  - rewrite map_map. simpl. eapply Permutation_NoDup; [|exact Hn]. apply Permutation_map, sort_by_perm.
  - intros o (e&<-&He%sort_by_In)%in_map_iff. simpl. auto.
  - intros v. rewrite map_map, <- Hs. simpl. split; intros (e&<-&He)%in_map_iff; apply in_map; by apply sort_by_In in He || apply sort_by_In.
Qed.

Lemma truthy_some s v : truthy s = Some v <-> s = Some v /\ v <> "".
Proof.
  destruct s as [[|c s]|]; simpl; (split; [intros H | intros [H Hv]]); try discriminate H; injection H as <-; done.
Qed.

Definition vendor_keys (t : Track) : list string :=
  match truthy (tr_identity t ?. ti_vendor) with Some v => [v] | None => [] end.
Definition evidence_keys (t : Track) : list DetectionClass := to_set (map ev_class (tr_evidence t ?? [])).

Lemma vendor_keys_match t v f utc :
  v <> "" -> memb v (vendor_keys t) = matchesFacet t facet_vendor (set_vendor v f) utc.
Proof.
  intros Hv. cbn [matchesFacet set_vendor ff_vendor]. replace (truthy (Some v)) with (Some v) by (destruct v; done).
  apply eq_true_iff_eq. rewrite memb_spec, bool_decide_eq_true. unfold vendor_keys.
  destruct (truthy _) as [w|] eqn:E.
  - apply truthy_some in E as [-> Hw]. simpl. split; [intros [->|[]]; done | intros [= ->]; by left].
  - split; [done|]. intros E'. rewrite E' in E. destruct v; done.
Qed.

Lemma evidence_keys_match t c f utc :
  memb c (evidence_keys t) = matchesFacet t facet_evidence (set_evidence c f) utc.
Proof.
  apply eq_true_iff_eq. rewrite memb_spec. unfold evidence_keys.
  destruct (to_set_spec (map ev_class (tr_evidence t ?? []))) as [_ ->]. cbn [matchesFacet set_evidence ff_evidence].
  rewrite in_map_iff, existsb_exists. setoid_rewrite bool_decide_eq_true.
  split; intros (x&H1&H2); by exists x.
Qed.

Lemma zlen_filter_split {A} (p : A -> bool) l :
  zlen (List.filter p l) + zlen (List.filter (fun x => negb (p x)) l) = zlen l.
Proof. induction l as [|x l IH]; [done|]. simpl. destruct (p x); simpl; rewrite !zlen_cons; lia. Qed.

Lemma filterFlights_vendor tracks filters utc v :
  v <> "" -> zlen (filterFlights tracks (set_vendor v filters) utc None) =
  zlen (List.filter (fun t => memb v (vendor_keys t)) (filterFlights tracks filters utc (Some facet_vendor))).
Proof.
  intros Hv. rewrite (filter_facet _ filters _ utc facet_vendor) by (intros t []; done). f_equal.
  apply List.filter_ext. intros t. symmetry. by apply vendor_keys_match.
Qed.

Lemma filterFlights_evidence tracks filters utc c :
  zlen (filterFlights tracks (set_evidence c filters) utc None) =
  zlen (List.filter (fun t => memb c (evidence_keys t)) (filterFlights tracks filters utc (Some facet_evidence))).
Proof.
  rewrite (filter_facet _ filters _ utc facet_evidence) by (intros t []; done). f_equal.
  apply List.filter_ext. intros t. symmetry. apply evidence_keys_match.
Qed.

Lemma vendor_offers tracks filters utc :
  offers (fs_vendor (flightFacets tracks filters utc))
    (fun v => filterFlights tracks (set_vendor v filters) utc None) (fun v => v <> "")
    (fun v => bool_decide (ff_vendor filters = Some v)).
Proof.
  set (l := filterFlights tracks filters utc (Some facet_vendor)).
  assert (forall t, List.NoDup (vendor_keys t)) as Hn.
  { intros t. unfold vendor_keys. destruct (truthy _); repeat constructor; simpl; tauto. }
  destruct (facet_counts vendor_keys l (truthy (ff_vendor filters)) Hn) as (Hk&Hc&Hs).
  assert (forall v, In v (map fst (add_if_absent (truthy (ff_vendor filters))
    (fold_left (fun counts t => fold_left bump (vendor_keys t) counts) l []))) -> v <> "") as Hne.
  { intros v Hv. apply (proj1 (Hs v)) in Hv as [Hv|Hv]; [|apply truthy_some in Hv; tauto]. intros ->.
    rewrite (filter_none _ l) in Hv; [done|]. intros t _. apply memb_false. unfold vendor_keys.
    destruct (truthy (tr_identity t ?. ti_vendor)) as [w|] eqn:E; [|simpl; tauto]. apply truthy_some in E as [_ Hw]. simpl. intuition congruence. }
  unfold flightFacets. cbn [fs_vendor]. fold l.
  replace (fold_left _ l []) with (fold_left (fun counts t => fold_left bump (vendor_keys t) counts) l []).
  2: { clear. generalize (@nil (string * Z)). induction l as [|t l IH]; intros m; [done|]. cbn [fold_left]. rewrite IH.
       f_equal. unfold vendor_keys. by destruct (truthy (tr_identity t ?. ti_vendor)). }
  apply (offers_tally (fun v => v)); [done | |].
  - intros e He. rewrite filterFlights_vendor, Hc; [done | done |]. apply Hne. by apply in_map.
  - intros v. rewrite Hs, bool_decide_eq_true. destruct (decide (v = "")) as [->|Hv].
    + split; [|tauto]. intros H. exfalso. by apply (Hne ""); [apply Hs|].
    + rewrite filterFlights_vendor by done. rewrite truthy_some. fold l. tauto.
Qed.

Lemma evidence_offers tracks filters utc :
  offers (fs_evidence (flightFacets tracks filters utc))
    (fun c => filterFlights tracks (set_evidence c filters) utc None) (fun _ => True)
    (fun c => bool_decide (ff_evidence filters = Some c)).
Proof.
  destruct (facet_counts evidence_keys (filterFlights tracks filters utc (Some facet_evidence)) (ff_evidence filters)
    (fun t => proj1 (to_set_spec _))) as (Hk&Hc&Hs).
  apply (offers_tally (fun c => "Class " +:+ DetectionClass_string c)); [done | |].
  - intros e He. by rewrite filterFlights_evidence, Hc.
  - intros c. rewrite Hs, bool_decide_eq_true, filterFlights_evidence. tauto.
Qed.

Lemma operator_offers tracks filters utc :
  offers (fs_operator (flightFacets tracks filters utc))
    (fun o => filterFlights tracks (set_operator o filters) utc None) (fun _ => True)
    (fun o => bool_decide (ff_operator filters = Some o)).
Proof.
  set (l := filterFlights tracks filters utc (Some facet_operator)).
  assert (forall o, filterFlights tracks (set_operator o filters) utc None =
    List.filter (fun t => Bool.eqb (hasOperatorFix t) (bool_decide (o = yes))) l) as Hr.
  { intros o. rewrite (filter_facet _ filters _ utc facet_operator) by (intros t []; done). done. }
  unfold flightFacets. cbn [fs_operator]. fold l.
  set (selected := fun o : YesNo => bool_decide (ff_operator filters = Some o)).
  eapply offers_candidates; [apply (offers_filter _ _ selected)|].
  3: intros v; destruct v; simpl; tauto.
  - simpl. repeat constructor; simpl; intuition congruence.
  - intros o [<-|[<-|[]]]; simpl; rewrite Hr.
    + f_equal. apply List.filter_ext. intros t. by destruct (hasOperatorFix t).
    + rewrite <- (zlen_filter_split hasOperatorFix l).
      replace (List.filter (fun t => Bool.eqb (hasOperatorFix t) (bool_decide (no = yes))) l)
        with (List.filter (fun t => negb (hasOperatorFix t)) l); [lia|].
      apply List.filter_ext. intros t. by destruct (hasOperatorFix t).
Qed.

Lemma duration_offers tracks filters utc :
  offers (fs_duration (flightFacets tracks filters utc))
    (fun s => filterFlights tracks (set_duration s filters) utc None) (fun s => In s DURATION_THRESHOLDS_S)
    (is_some_num (ff_minDurationS filters)).
Proof.
  unfold flightFacets. cbn [fs_duration].
  eapply offers_candidates; [apply offers_filter | intros v; rewrite map_map; cbn [fo_value]; by rewrite map_id].
  - rewrite map_map. vm_compute. repeat constructor; simpl; intuition congruence.
  - intros o (s&<-&Hs)%in_map_iff. cbn [fo_value fo_count].
    rewrite (filter_facet _ filters _ utc facet_minDurationS) by (intros t []; done). f_equal.
    apply List.filter_ext. intros t. cbn [matchesFacet set_duration ff_minDurationS].
    destruct (flightDurationS t); [done|]. destruct Hs as [<-|[<-|[<-|[]]]]; vm_compute; done.
Qed.

Lemma detections_offers tracks filters utc :
  offers (fs_detections (flightFacets tracks filters utc))
    (fun n => filterFlights tracks (set_detections n filters) utc None) (fun n => In n DETECTION_THRESHOLDS)
    (is_some_num (ff_minDetections filters)).
Proof.
  unfold flightFacets. cbn [fs_detections].
  eapply offers_candidates; [apply offers_filter | intros v; rewrite map_map; cbn [fo_value]; by rewrite map_id].
  - rewrite map_map. vm_compute. repeat constructor; simpl; intuition congruence.
  - intros o (n&<-&_)%in_map_iff. cbn [fo_value fo_count].
    by rewrite (filter_facet _ filters _ utc facet_minDetections) by (intros t []; done).
Qed.

(** A filter option tells the truth about its click: in every facet the
    options are distinct, the count beside an option is the number of rows the
    list will show with that option chosen and the other facets as they are, and
    an option is offered exactly when that number is positive or it is the one
    selected. *)
Lemma counts_are_what_a_click_gives tracks filters utc :
  let facets := flightFacets tracks filters utc in
  let rows f := filterFlights tracks f utc None in
  offers (fs_vendor facets) (fun v => rows (set_vendor v filters)) (fun v => v <> "")
    (fun v => bool_decide (ff_vendor filters = Some v)) /\
  offers (fs_evidence facets) (fun c => rows (set_evidence c filters)) (fun _ => True)
    (fun c => bool_decide (ff_evidence filters = Some c)) /\
  offers (fs_operator facets) (fun o => rows (set_operator o filters)) (fun _ => True)
    (fun o => bool_decide (ff_operator filters = Some o)) /\
  offers (fs_duration facets) (fun s => rows (set_duration s filters)) (fun s => In s DURATION_THRESHOLDS_S)
    (is_some_num (ff_minDurationS filters)) /\
  offers (fs_detections facets) (fun n => rows (set_detections n filters)) (fun n => In n DETECTION_THRESHOLDS)
    (is_some_num (ff_minDetections filters)).
Proof.
  split_and!; [apply vendor_offers | apply evidence_offers | apply operator_offers | apply duration_offers |
    apply detections_offers].
Qed.
End FacetTheorems.

Example duration_labels : map durationLabel DURATION_THRESHOLDS_S = ["≥ 1 min"; "≥ 5 min"; "≥ 15 min"].
Proof. vm_compute. reflexivity. Qed.
