(* ===== verification/TimelineLanes.v ===== *)
(** * TimelineLanes: the event timeline

    [features/timeline/lanes.ts]: packing flights into lanes, the ticks of the
    axis, and the scale.  Instants and windows are whole milliseconds.  Quotients
    of milliseconds below 2^53 are never within a rounding error of an integer
    without being one, so the ceiling and the comparison of the ticks are exact. *)
From Stdlib Require Import ZArith Bool String Ascii List Lia Permutation Sorted Floats.SpecFloat.
From stdpp Require Import base option list strings.
From S2P Require Import Prelude JsNumber JsDate JsString ApiTypes LogStore Flights.

Record TimelineWindow := { tw_startMs : Z; tw_endMs : Z }.

Record TimelineEvent := {
  te_track : Track;
  te_fromMs : Z;
  te_toMs : Z;
  te_clippedStart : bool;
  te_clippedEnd : bool;
  te_lane : nat
}.

Definition MIN_EVENT_MS : Z := 60000.

(** A track with its parsed ends. *)
Record Interval := { iv_track : Track; iv_first : Z; iv_last : Z }.

Definition interval_of (t : Track) : option Interval :=
  match Date_parse (tr_first_seen t), Date_parse (tr_last_seen t) with
  | Some first, Some last => Some {| iv_track := t; iv_first := first; iv_last := last |}
  | _, _ => None
  end.

Definition in_window (w : TimelineWindow) (i : Interval) : bool :=
  (tw_startMs w <=? iv_last i) && (iv_first i <? tw_endMs w).

Definition interval_le (a b : Interval) : bool :=
  if iv_first a - iv_first b =? 0 then iv_last a - iv_last b <=? 0 else iv_first a - iv_first b <=? 0.

Definition ordered (tracks : list Track) (w : TimelineWindow) : list Interval :=
  sort_by interval_le (List.filter (in_window w) (omap interval_of tracks)).

(** One turn of the loop: the lane ends and the events so far. *)
Definition place (w : TimelineWindow) (gapMs : Z) (st : list Z * list TimelineEvent) (i : Interval)
  : list Z * list TimelineEvent :=
  let '(laneEnds, events) := st in
  let fromMs := Z.max (iv_first i) (tw_startMs w) in
  let toMs := Z.min (Z.max (iv_last i) (fromMs + MIN_EVENT_MS)) (tw_endMs w) in
  let '(lane, laneEnds) :=
    match find_index (fun end_ => end_ + gapMs <=? fromMs) laneEnds with
    | None => (List.length laneEnds, laneEnds ++ [toMs])
    | Some lane => (lane, <[lane := toMs]> laneEnds)
    end in
  (laneEnds, events ++ [{| te_track := iv_track i; te_fromMs := fromMs; te_toMs := toMs;
    te_clippedStart := iv_first i <? tw_startMs w; te_clippedEnd := tw_endMs w <? iv_last i; te_lane := lane |}]).

Definition packLanes (tracks : list Track) (w : TimelineWindow) (gapMs : Z) : list TimelineEvent :=
  snd (fold_left (place w gapMs) (ordered tracks w) ([], [])).

Definition laneCount (events : list TimelineEvent) : nat :=
  fold_left (fun max e => Nat.max max (S (te_lane e))) events O.

(** ** The axis *)

Definition MINUTE : Z := 60000.
Definition COARSEST : Z := 7 * 24 * 60 * MINUTE.
Definition candidates : list Z :=
  [MINUTE; 5 * MINUTE; 15 * MINUTE; 30 * MINUTE; 60 * MINUTE; 3 * 60 * MINUTE; 6 * 60 * MINUTE;
   12 * 60 * MINUTE; 24 * 60 * MINUTE; COARSEST].

(** [Math.ceil(p / q)]. *)
Definition ceil_div (p q : Z) : Z := - ((- p) / q).

Fixpoint tick_loop (fuel : nat) (t end_ step : Z) : list Z :=
  match fuel with
  | O => []
  | S fuel' => if t <? end_ then t :: tick_loop fuel' (t + step) end_ step else []
  end.

Definition tick_step (span target : Z) : Z := List.find (fun c => span <=? target * c) candidates ?? COARSEST.

(** The loop runs at most [span / step + 1] times. *)
Definition ticks (w : TimelineWindow) (target : Z) : list Z :=
  let span := tw_endMs w - tw_startMs w in
  if span <=? 0 then []
  else
    let step := tick_step span target in
    tick_loop (S (Z.to_nat (span / step + 1))) (ceil_div (tw_startMs w) step * step) (tw_endMs w) step.

Definition fractionAt (w : TimelineWindow) (ms : num) : num :=
  let span := tw_endMs w - tw_startMs w in
  if span <=? 0 then of_Z 0
  else nmin (of_Z 1) (nmax (of_Z 0) (ndiv (nsub ms (of_Z (tw_startMs w))) (of_Z span))).

Definition timeAt (w : TimelineWindow) (fraction : num) : num :=
  let span := tw_endMs w - tw_startMs w in
  nadd (of_Z (tw_startMs w)) (nmul (nmin (of_Z 1) (nmax (of_Z 0) fraction)) (of_Z span)).

(** ** Packing *)

(** Events of a lane are [gapMs] apart, in order. *)
Definition apart (gapMs : Z) (e e' : TimelineEvent) : Prop :=
  te_lane e = te_lane e' -> te_toMs e + gapMs <= te_fromMs e'.
(** The bar of [e] and its gap cover the instant [t]. *)
Definition covers (gapMs t : Z) (e : TimelineEvent) : Prop := te_fromMs e <= t < te_toMs e + gapMs.
Definition inside (w : TimelineWindow) (e : TimelineEvent) : Prop :=
  tw_startMs w <= te_fromMs e /\ te_fromMs e < te_toMs e <= tw_endMs w.

(** What the loop maintains: the lane ends are those of the lanes' newest
    events, and some instant is covered by an event of every lane. *)
Record Packing (w : TimelineWindow) (gapMs : Z) (laneEnds : list Z) (events : list TimelineEvent) : Prop := {
  pk_inside : List.Forall (inside w) events;
  pk_apart : ForallOrdPairs (apart gapMs) events;
  pk_lane : forall e, In e events -> exists end_, laneEnds !! te_lane e = Some end_ /\ te_toMs e <= end_;
  pk_end : forall lane end_, laneEnds !! lane = Some end_ ->
    exists e, In e events /\ te_lane e = lane /\ te_toMs e = end_;
  pk_needed : exists t es, incl es events /\ List.Forall (covers gapMs t) es /\
    map te_lane es = seq 0 (List.length laneEnds)
}.

Lemma ForallOrdPairs_snoc {A} (R : A -> A -> Prop) l x :
  ForallOrdPairs R l -> List.Forall (fun y => R y x) l -> ForallOrdPairs R (l ++ [x]).
Proof.
  induction 1 as [|y l Hy Hl IH]; intros Hx; simpl; [repeat constructor|].
  inversion Hx; subst. constructor; [|auto]. apply List.Forall_app. auto.
Qed.

(** The event a turn of the loop adds, the lane aside. *)
Definition from_of (w : TimelineWindow) (i : Interval) : Z := Z.max (iv_first i) (tw_startMs w).
Definition event_of (w : TimelineWindow) (i : Interval) (lane : nat) : TimelineEvent :=
  {| te_track := iv_track i; te_fromMs := from_of w i;
     te_toMs := Z.min (Z.max (iv_last i) (from_of w i + MIN_EVENT_MS)) (tw_endMs w);
     te_clippedStart := iv_first i <? tw_startMs w; te_clippedEnd := tw_endMs w <? iv_last i; te_lane := lane |}.

Lemma event_inside w i lane :
  tw_startMs w < tw_endMs w -> in_window w i = true -> inside w (event_of w i lane).
Proof.
  unfold in_window, inside, event_of, from_of, MIN_EVENT_MS. simpl. intros Hw [_ ?%Z.ltb_lt]%andb_prop. lia.
Qed.

Section Place.
Context (w : TimelineWindow) (gapMs : Z) (Hw : tw_startMs w < tw_endMs w) (Hg : 0 <= gapMs).

(** An event joins a lane that is free. *)
Lemma join_lane laneEnds events i lane end_ :
  Packing w gapMs laneEnds events -> in_window w i = true ->
  laneEnds !! lane = Some end_ -> end_ + gapMs <= from_of w i ->
  let e := event_of w i lane in Packing w gapMs (<[lane := te_toMs e]> laneEnds) (events ++ [e]).
Proof.
  intros [Hi Ha Hl He Hn] Hin Hlane Hend e. pose proof (event_inside w i lane Hw Hin) as Hine. fold e in Hine.
  assert (lane < List.length laneEnds)%nat as Hlt by (apply lookup_lt_Some in Hlane; done).
  split.
  - apply List.Forall_app. auto.
  - apply ForallOrdPairs_snoc; [done|]. rewrite List.Forall_forall. intros e' He' E.
    destruct (Hl e' He') as (end'&E'&Hle). change (te_lane e) with lane in E. rewrite E, Hlane in E'.
    injection E' as <-. change (te_fromMs e) with (from_of w i). lia.
  - intros e' [He'|[<-|[]]]%in_app_iff.
    + destruct (Hl e' He') as (end'&E'&Hle). destruct (decide (te_lane e' = lane)) as [E|E].
      * rewrite E in *. rewrite list_lookup_insert_eq by done. exists (te_toMs e). split; [done|].
        rewrite Hlane in E'. injection E' as <-. destruct Hine. change (te_fromMs e) with (from_of w i) in *. lia.
      * rewrite list_lookup_insert_ne by done. eauto.
    + exists (te_toMs e). change (te_lane e) with lane. by rewrite list_lookup_insert_eq.
  - intros l x. destruct (decide (l = lane)) as [->|Hne].
    + rewrite list_lookup_insert_eq by done. intros [= <-]. exists e. rewrite in_app_iff. simpl. auto.
    + rewrite list_lookup_insert_ne by done. intros (e'&He'&E)%He. exists e'. rewrite in_app_iff. auto.
  - destruct Hn as (t&es&Hes&Hc&E). exists t, es. rewrite length_insert. split; [by apply incl_appl | done].
Qed.

(** An event opens a lane when all are occupied. *)
Lemma open_lane laneEnds events i :
  Packing w gapMs laneEnds events -> in_window w i = true ->
  List.Forall (fun e => te_fromMs e <= from_of w i) events ->
  (forall end_, In end_ laneEnds -> from_of w i < end_ + gapMs) ->
  let e := event_of w i (List.length laneEnds) in Packing w gapMs (laneEnds ++ [te_toMs e]) (events ++ [e]).
Proof.
  intros [Hi Ha Hl He Hn] Hin Hord Hocc e.
  pose proof (event_inside w i (List.length laneEnds) Hw Hin) as Hine. fold e in Hine. split.
  - apply List.Forall_app. auto.
  - apply ForallOrdPairs_snoc; [done|]. rewrite List.Forall_forall. intros e' He' E.
    destruct (Hl e' He') as (end'&E'%lookup_lt_Some&_). change (te_lane e) with (List.length laneEnds) in E.
    lia.
  - intros e' [He'|[<-|[]]]%in_app_iff.
    + destruct (Hl e' He') as (end'&E'&Hle). exists end'. split; [by apply lookup_app_l_Some | done].
    + exists (te_toMs e). split; [|lia]. change (te_lane e) with (List.length laneEnds). by rewrite list_lookup_middle.
  - intros l x [H|[H1 H2]]%lookup_app_Some.
    + destruct (He _ _ H) as (e'&He'&E). exists e'. rewrite in_app_iff. auto.
    + apply list_lookup_singleton_Some in H2 as [E <-]. exists e. rewrite in_app_iff. simpl. split_and!; [auto | | done].
      lia.
  - exists (from_of w i).
    assert (forall n, (n <= List.length laneEnds)%nat -> exists es, incl es events /\
      List.Forall (covers gapMs (from_of w i)) es /\ map te_lane es = seq 0 n) as Hall.
    { induction n as [|n IH]; intros Hle; [exists []; split_and!; [intros y [] | constructor | done]|]. destruct IH as (es&Hes&Hc&E); [lia|].
      destruct (lookup_lt_is_Some_2 laneEnds n) as [x Hx]; [lia|].
      destruct (He n x Hx) as (e'&He'&Ee&Et). exists (es ++ [e']). split_and!.
      - apply incl_app; [done|]. intros y [<-|[]]. done.
      - apply List.Forall_app. split; [done|]. constructor; [|done]. split.
        + rewrite List.Forall_forall in Hord. auto.
        + rewrite Et. apply Hocc. apply list_elem_of_In, list_elem_of_lookup. eauto.
      - by rewrite map_app, E, seq_S, <- Ee. }
    destruct (Hall (List.length laneEnds)) as (es&Hes&Hc&E); [done|]. exists (es ++ [e]). split_and!.
    + apply incl_app; [by apply incl_appl | apply incl_appr, incl_refl].
    + apply List.Forall_app. split; [done|]. constructor; [|done]. unfold covers.
      destruct Hine. change (te_fromMs e) with (from_of w i) in *. lia.
    + by rewrite map_app, E, length_app, seq_app.
Qed.

Lemma from_of_mono i j : iv_first i <= iv_first j -> from_of w i <= from_of w j.
Proof. unfold from_of. lia. Qed.

Lemma place_spec laneEnds events i :
  Packing w gapMs laneEnds events -> in_window w i = true ->
  List.Forall (fun e => te_fromMs e <= from_of w i) events ->
  exists laneEnds' lane, place w gapMs (laneEnds, events) i = (laneEnds', events ++ [event_of w i lane]) /\
    Packing w gapMs laneEnds' (events ++ [event_of w i lane]).
Proof.
  intros Hp Hin Hord. unfold place. change (Z.max (iv_first i) (tw_startMs w)) with (from_of w i).
  destruct (find_index _ laneEnds) as [lane|] eqn:E; eexists _, _; (split; [reflexivity|]).
  - apply find_index_Some in E as (x&Hx&Hf%Z.leb_le&_). by eapply join_lane.
  - apply open_lane; [done..|]. intros x Hx. rewrite find_index_None in E. specialize (E x Hx). simpl in E. lia.
Qed.

Lemma place_all ivs laneEnds events :
  Packing w gapMs laneEnds events -> List.Forall (fun i => in_window w i = true) ivs ->
  StronglySorted (fun i j => iv_first i <= iv_first j) ivs ->
  List.Forall (fun i => List.Forall (fun e => te_fromMs e <= from_of w i) events) ivs ->
  exists laneEnds' new, fold_left (place w gapMs) ivs (laneEnds, events) = (laneEnds', events ++ new) /\
    map te_track new = map iv_track ivs /\ Packing w gapMs laneEnds' (events ++ new).
Proof.
  revert laneEnds events. induction ivs as [|i ivs IH]; intros laneEnds events Hp Hin Hs Ho.
  { exists laneEnds, []. by rewrite app_nil_r. }
  inversion Hin; inversion Hs as [|? ? Hs' Hi]; inversion Ho; subst.
  destruct (place_spec laneEnds events i) as (ends&lane&E&Hp'); [done..|].
  cbn [fold_left]. rewrite E. destruct (IH ends (events ++ [event_of w i lane])) as (ends'&new&E'&Em&Hp''); [done..| |].
  - rewrite List.Forall_forall in *. intros j Hj. apply List.Forall_app. split; [auto|]. constructor; [|done].
    apply from_of_mono. auto.
  - exists ends', (event_of w i lane :: new). rewrite E', <- app_assoc. split; [done|].
    simpl. rewrite Em. rewrite <- app_assoc in Hp''. done.
Qed.
End Place.

Lemma interval_le_total i j : interval_le i j = true \/ interval_le j i = true.
Proof.
  unfold interval_le. destruct (Z.eqb_spec (iv_first i - iv_first j) 0), (Z.eqb_spec (iv_first j - iv_first i) 0);
    rewrite ?Z.leb_le; lia.
Qed.

Lemma interval_le_iff i j :
  interval_le i j = true <-> iv_first i < iv_first j \/ iv_first i = iv_first j /\ iv_last i <= iv_last j.
Proof.
  unfold interval_le. destruct (Z.eqb_spec (iv_first i - iv_first j) 0); rewrite Z.leb_le; lia.
Qed.

Lemma ordered_sorted tracks w : StronglySorted (fun i j => iv_first i <= iv_first j) (ordered tracks w).
Proof.
  assert (StronglySorted (fun i j => interval_le i j = true) (ordered tracks w)) as Hs.
  { apply sort_by_sorted; [apply interval_le_total|]. intros i j k. rewrite !interval_le_iff. lia. }
  induction Hs as [|i l Hs IH Hall]; constructor; [done|]. eapply List.Forall_impl; [|exact Hall].
  intros j H%interval_le_iff. lia.
Qed.

Lemma packLanes_spec tracks w gapMs :
  tw_startMs w < tw_endMs w -> 0 <= gapMs ->
  exists laneEnds, map te_track (packLanes tracks w gapMs) = map iv_track (ordered tracks w) /\
    Packing w gapMs laneEnds (packLanes tracks w gapMs).
Proof.
  intros Hw Hg. destruct (place_all w gapMs Hw Hg (ordered tracks w) [] []) as (ends&new&E&Em&Hp).
  - split; [constructor | constructor | done | done |]. exists 0, []. split_and!; [intros y [] | constructor | done].
  - rewrite List.Forall_forall. intros i Hi%sort_by_In%filter_In. tauto.
  - apply ordered_sorted.
  - rewrite List.Forall_forall. done.
  - exists ends. unfold packLanes. by rewrite E.
Qed.

Lemma laneCount_ge events n : fold_left (fun max e => Nat.max max (S (te_lane e))) events n =
  Nat.max n (laneCount events).
Proof.
  unfold laneCount. revert n. induction events as [|e events IH]; intros n; simpl; [lia|].
  rewrite IH, (IH (S (te_lane e))). lia.
Qed.

Lemma laneCount_spec w gapMs laneEnds events :
  Packing w gapMs laneEnds events -> laneCount events = List.length laneEnds.
Proof.
  intros [_ _ Hl He _].
  assert (forall n, (forall e, In e events -> S (te_lane e) <= n)%nat -> (laneCount events <= n)%nat) as Hup.
  { clear. induction events as [|e events IH]; intros n H; [unfold laneCount; simpl; lia|].
    unfold laneCount. simpl. rewrite laneCount_ge. pose proof (H e (or_introl eq_refl)).
    assert (laneCount events <= n)%nat by (apply IH; intros; apply H; by right). lia. }
  assert (forall e, In e events -> S (te_lane e) <= laneCount events)%nat as Hlow.
  { clear. induction events as [|e events IH]; intros e' He'; [done|]. unfold laneCount. simpl. rewrite laneCount_ge.
    destruct He' as [->|He']; [lia|]. specialize (IH e' He'). lia. }
  apply Nat.le_antisymm.
  - apply Hup. intros e (x&Hx%lookup_lt_Some&_)%Hl. lia.
  - destruct (List.length laneEnds) as [|n] eqn:E; [lia|].
    destruct (lookup_lt_is_Some_2 laneEnds n) as [x Hx]; [lia|].
    destruct (He n x Hx) as (e&Hin&<-&_). auto.
Qed.

(** Whether a flight's time touches the window. *)
Definition touches (w : TimelineWindow) (t : Track) : bool :=
  match interval_of t with Some i => in_window w i | None => false end.

Lemma ordered_tracks tracks w : Permutation (map iv_track (ordered tracks w)) (List.filter (touches w) tracks).
Proof.
  unfold ordered. rewrite <- sort_by_perm.
  enough (map iv_track (List.filter (in_window w) (omap interval_of tracks)) = List.filter (touches w) tracks)
    as -> by done.
  induction tracks as [|t tracks IH]; [done|].
  cbn [omap list_omap List.filter]. unfold touches at 1. destruct (interval_of t) as [i|] eqn:E; [|exact IH].
  cbn [List.filter]. destruct (in_window w i); [|exact IH]. cbn [map]. rewrite IH. f_equal.
  unfold interval_of in E. destruct (Date_parse (tr_first_seen t)), (Date_parse (tr_last_seen t)); try discriminate E; by injection E as <-.
Qed.

(** Two bars a lane may hold. *)
Definition separate (gapMs : Z) (e e' : TimelineEvent) : Prop :=
  te_toMs e + gapMs <= te_fromMs e' \/ te_toMs e' + gapMs <= te_fromMs e.

(** C32. The timeline shows every flight that touches its window, each bar
    inside the window and not empty; in a lane the bars are in order and never
    closer than the gap; and no assignment of lanes that keeps bars so apart
    uses fewer: whatever lanes [g] gives, as many bars as [packLanes] uses lanes
    are in different ones. *)
Theorem lanes_are_apart_and_fewest tracks w gapMs (Hw : tw_startMs w < tw_endMs w) (Hg : 0 <= gapMs) :
  let events := packLanes tracks w gapMs in
  Permutation (map te_track events) (List.filter (touches w) tracks) /\
  List.Forall (inside w) events /\
  ForallOrdPairs (apart gapMs) events /\
  forall g : TimelineEvent -> nat,
    (forall e e', In e events -> In e' events -> te_lane e <> te_lane e' -> g e = g e' -> separate gapMs e e') ->
    exists es, incl es events /\ List.length es = laneCount events /\ List.NoDup (map g es).
Proof.
  intros events. destruct (packLanes_spec tracks w gapMs Hw Hg) as (ends&Em&Hp). fold events in Em, Hp.
  rewrite Em, (laneCount_spec _ _ _ _ Hp). destruct Hp as [Hi Ha _ _ (t&es&Hes&Hc&El)].
  split_and!; [apply ordered_tracks | done | done |]. intros g Hgs. exists es.
  split_and!; [done | by rewrite <- (length_map te_lane), El, length_seq |].
  assert (List.NoDup (map te_lane es)) as Hnd by (rewrite El; apply seq_NoDup). clear El.
  induction es as [|e es IH]; [constructor|]. simpl in *. inversion Hnd as [|? ? Hn Hnd']; inversion Hc as [|? ? Hce Hc']; subst.
  apply incl_cons_inv in Hes as [He Hes]. constructor; [|auto].
  intros (e'&Eg&He')%in_map_iff. assert (te_lane e <> te_lane e') as Hne by (intros E; apply Hn; rewrite E; by apply in_map).
  rewrite List.Forall_forall in Hc'. specialize (Hc' e' He').
  destruct (Hgs e e') as [H|H]; [auto.. | |]; unfold covers in *; lia.
Qed.

Definition three_hours : TimelineWindow := {| tw_startMs := 1789430400000; tw_endMs := 1789441200000 |}.
Definition overlapping : list Track :=
  [flight "b" "2026-09-15T00:05:00Z" "2026-09-15T00:20:00Z" None;
   flight "a" "2026-09-14T23:00:00Z" "2026-09-15T00:10:00Z" None;
   flight "c" "2026-09-15T00:11:00Z" "2026-09-15T00:11:00Z" None].

Lemma lanes_are_apart_and_fewest_witness :
  List.Forall (inside three_hours) (packLanes overlapping three_hours MIN_EVENT_MS).
Proof.
  destruct (lanes_are_apart_and_fewest overlapping three_hours MIN_EVENT_MS) as (_&H&_);
    [reflexivity | discriminate | exact H].
Defined.

Example two_lanes : map (fun e => (tr_track_id (te_track e), te_lane e)) (packLanes overlapping three_hours MIN_EVENT_MS) =
  [("a", 0%nat); ("b", 1%nat); ("c", 0%nat)].
Proof. vm_compute. reflexivity. Qed.

(** ** Ticks *)

Lemma ceil_div_spec p q : 0 < q -> p <= ceil_div p q * q < p + q.
Proof.
  intros Hq. unfold ceil_div. pose proof (Z.div_mod (- p) q). pose proof (Z.mod_pos_bound (- p) q Hq). nia.
Qed.

Lemma tick_loop_In fuel t end_ step x :
  0 < step -> end_ - t <= Z.of_nat fuel * step ->
  In x (tick_loop fuel t end_ step) <-> t <= x < end_ /\ (step | x - t).
Proof.
  intros Hs. revert t. induction fuel as [|fuel IH]; intros t Hf; cbn [tick_loop].
  - split; [done | lia].
  - destruct (Z.ltb_spec t end_) as [Hlt|Hge]; [|split; [done | lia]]. simpl. rewrite IH by lia. split.
    + intros [<-|[Hx [k Hk]]]; [split; [lia|]; exists 0; lia|]. split; [lia|]. exists (k + 1). lia.
    + intros [Hx [k Hk]]. destruct (Z.eq_dec k 0) as [->|Hk0]; [left; lia|]. right.
      assert (0 < k) by nia. split; [nia|]. exists (k - 1). lia.
Qed.

Lemma tick_loop_shape fuel t end_ step :
  0 < step -> StronglySorted Z.lt (tick_loop fuel t end_ step) /\
  (zlen (tick_loop fuel t end_ step) = 0 \/ (zlen (tick_loop fuel t end_ step) - 1) * step < end_ - t).
Proof.
  intros Hs. revert t. induction fuel as [|fuel IH]; intros t; cbn [tick_loop]; [split; [constructor | by left]|].
  destruct (Z.ltb_spec t end_); [|split; [constructor | by left]]. destruct (IH (t + step)) as [Hsort Hlen].
  split.
  - constructor; [done|]. rewrite List.Forall_forall. intros x Hx.
    assert (forall fuel t, In x (tick_loop fuel t end_ step) -> t <= x) as Hge.
    { clear -Hs. induction fuel as [|fuel IH]; intros t; cbn [tick_loop]; [done|].
      destruct (t <? end_); [|done]. intros [<-|Hx%IH]; lia. }
    apply Hge in Hx. lia.
  - right. rewrite zlen_cons. destruct Hlen as [->|Hlen]; lia.
Qed.

Lemma tick_step_spec span target :
  0 < tick_step span target /\ (tick_step span target = COARSEST \/ span <= target * tick_step span target).
Proof.
  unfold tick_step. destruct (List.find _ candidates) as [c|] eqn:E; [|split; [done | by left]].
  apply find_some in E as [Hc Hs%Z.leb_le]. split; [|by right].
  assert (List.Forall (fun c => 0 < c) candidates) as Hall by (repeat constructor).
  rewrite List.Forall_forall in Hall. auto.
Qed.

(** The ticks are exactly the multiples of the step that lie in the
    window, in order: they fall on wall-clock boundaries, none is missing, and
    there are never more than asked for unless the coarsest step is in use.  The
    loop ends. *)
Lemma ticks_are_the_multiples w target :
  let step := tick_step (tw_endMs w - tw_startMs w) target in
  let ts := ticks w target in
  (forall x, In x ts <-> tw_startMs w <= x < tw_endMs w /\ (step | x)) /\
  StronglySorted Z.lt ts /\
  (step = COARSEST \/ zlen ts <= Z.max 0 target).
Proof.
  intros step ts. destruct (tick_step_spec (tw_endMs w - tw_startMs w) target) as [Hs Hn]. fold step in Hs, Hn.
  unfold ts, ticks. fold step. destruct (Z.leb_spec (tw_endMs w - tw_startMs w) 0) as [Hspan|Hspan].
  { split_and!; [intros x; simpl; lia | constructor | right; unfold zlen; simpl; lia]. }
  set (t0 := ceil_div (tw_startMs w) step * step).
  assert (tw_startMs w <= t0 < tw_startMs w + step) as Ht0 by by apply ceil_div_spec.
  set (span := tw_endMs w - tw_startMs w) in *. set (fuel := S _).
  assert (tw_endMs w - t0 <= Z.of_nat fuel * step) as Hfuel.
  { unfold fuel. rewrite Nat2Z.inj_succ, Z2Nat.id by (pose proof (Z.div_pos span step); lia).
    pose proof (Z.div_mod span step). pose proof (Z.mod_pos_bound span step Hs). nia. }
  destruct (tick_loop_shape fuel t0 (tw_endMs w) step Hs) as [Hsort Hlen].
  split_and!; [|done|].
  - intros x. rewrite tick_loop_In by done. split.
    + intros [Hx Hd]. split; [lia|]. replace x with ((x - t0) + t0) by lia. apply Z.divide_add_r; [done|].
      by apply Z.divide_factor_r.
    + intros [Hx [k ->]]. split; [|exists (k - ceil_div (tw_startMs w) step); unfold t0; lia].
      split; [|lia]. unfold t0 in *. destruct (Z.le_gt_cases (ceil_div (tw_startMs w) step) k); nia.
  - destruct Hn as [Hn|Hn]; [by left | right]. destruct Hlen as [Hl|Hl]; [lia|]. nia.
Qed.
