(* ===== verification/MapGeo.v ===== *)
(** * MapGeo: trails, bounds and manned traffic on the map

    [features/map/geo.ts] and [features/map/aircraft.ts].  Great-circle distance
    and bearing are trigonometry of the host and left out.  The positions of a
    history are the distinct objects of a parsed reply, so the set of positions
    where reception resumes, which the code keeps by object, is a set of
    indices here. *)
From Stdlib Require Import ZArith Bool String Ascii List Lia Permutation Sorted Floats.SpecFloat.
From stdpp Require Import base option list strings pretty.
From S2P Require Import Prelude JsNumber JsDate JsString ApiTypes LogStore FlightTime.

(** ** geo.ts *)

Definition hasPosition (t : Track) : bool := match tr_current t with Some _ => true | None => false end.

Definition TRAIL_GAP_MS : Z := 30000.

Record TrailGap := { tg_from : Position; tg_to : Position; tg_seconds : Z }.

(** The gap between two consecutive positions, if there is one. *)
Definition gap_between (from to : Position) : option TrailGap :=
  match truthy (ps_at from), truthy (ps_at to) with
  | Some a, Some b =>
      match Date_parse b, Date_parse a with
      | Some tb, Some ta =>
          let elapsed := tb - ta in
          if TRAIL_GAP_MS <? elapsed
          then Some {| tg_from := from; tg_to := to; tg_seconds := round_div elapsed 1000 |} else None
      | _, _ => None
      end
  | _, _ => None
  end.

(** The loop, with the index of each gap's [to]. *)
Fixpoint gaps_from (from : option Position) (i : nat) (history : list Position) : list (nat * TrailGap) :=
  match history with
  | [] => []
  | to :: history' =>
      match from ≫= (fun from => gap_between from to) with
      | Some g => [(i, g)]
      | None => []
      end ++ gaps_from (Some to) (S i) history'
  end.

Definition trailGaps (history : list Position) : list TrailGap := map snd (gaps_from None 0 history).

(** GeoJSON, as far as these builders use it. *)
Definition GeoPosition : Type := num * num.
Inductive Properties :=
| heard_trail (track_id : string) (confidence : num) (state : TrackState) (stale : bool)
| gap_leg (track_id : string) (gap_s : Z)
| operator_link (track_id : string).
Inductive Geometry :=
| MultiLineString (coordinates : list (list GeoPosition))
| LineString (coordinates : list GeoPosition).
Record Feature := { ft_id : string; ft_properties : Properties; ft_geometry : Geometry }.

Definition lonLat (p : Position) : GeoPosition := (ps_lon p, ps_lat p).

(** [segments], ending with the current [leg]. *)
Definition extend_leg (resumesAt : list nat) (st : list (list GeoPosition) * list GeoPosition) (ip : nat * Position)
  : list (list GeoPosition) * list GeoPosition :=
  let '(segments, leg) := st in
  let '(segments, leg) :=
    if existsb (Nat.eqb (fst ip)) resumesAt then (segments ++ [leg], []) else (segments, leg) in
  (segments, leg ++ [lonLat (snd ip)]).

Definition trail_segments (history : list Position) : list (list GeoPosition) :=
  let resumesAt := map fst (gaps_from None 0 history) in
  let '(segments, leg) := fold_left (extend_leg resumesAt) (imap pair history) ([], []) in
  segments ++ [leg].

Definition gap_feature (t : Track) (i : nat) (g : TrailGap) : Feature :=
  {| ft_id := tr_track_id t +:+ "-gap-" +:+ pretty (Z.of_nat i);
     ft_properties := gap_leg (tr_track_id t) (tg_seconds g);
     ft_geometry := LineString [lonLat (tg_from g); lonLat (tg_to g)] |}.

Definition trail_features (t : Track) : list Feature :=
  let history := tr_history t ?? [] in
  if (List.length history <? 2)%nat then []
  else
    let heard := List.filter (fun s => (2 <=? List.length s)%nat) (trail_segments history) in
    (if (0 <? List.length heard)%nat
     then [{| ft_id := tr_track_id t;
              ft_properties := heard_trail (tr_track_id t) (tr_confidence t) (tr_state t)
                (bool_decide (tr_state t = COASTING));
              ft_geometry := MultiLineString heard |}]
     else []) ++ imap (gap_feature t) (trailGaps history).

Definition trailsGeoJson (tracks : list Track) : list Feature := flat_map trail_features tracks.

Definition operatorLinksGeoJson (tracks : list Track) : list Feature :=
  flat_map (fun t =>
    match tr_operator t, tr_current t with
    | Some o, Some c => [{| ft_id := tr_track_id t +:+ "-operator-link"; ft_properties := operator_link (tr_track_id t);
                            ft_geometry := LineString [lonLat c; lonLat o] |}]
    | _, _ => []
    end) tracks.

Record Bounds := { bd_west : num; bd_south : num; bd_east : num; bd_north : num }.

(** Points are (lat, lon). *)
Definition boundsOf (points : list (num * num)) : option Bounds :=
  match points with
  | [] => None
  | _ => Some (fold_left (fun b p =>
      {| bd_west := nmin (bd_west b) (snd p); bd_east := nmax (bd_east b) (snd p);
         bd_south := nmin (bd_south b) (fst p); bd_north := nmax (bd_north b) (fst p) |}) points
      {| bd_west := of_Z 180; bd_east := of_Z (-180); bd_south := of_Z 90; bd_north := of_Z (-90) |})
  end.

Definition latLon (p : Position) : num * num := (ps_lat p, ps_lon p).

Definition plottablePoints (tracks : list Track) : list (num * num) :=
  flat_map (fun t =>
    map latLon (tr_history t ?? []) ++ map latLon (option_list (tr_current t)) ++
    map latLon (option_list (tr_operator t))) tracks.

(** ** aircraft.ts *)

Section Aircraft.
(** The comparator never answers 0, so on equal times it contradicts itself and
    the language leaves the sort to the host. *)
Context (sort : (Detection -> Detection -> bool) -> list Detection -> list Detection).

Definition icao_of (d : Detection) : option string := truthy (ad_icao <$> dt_adsb d).

(** [newestByIcao.set(icao, detection)]: in place, or at the end. *)
Fixpoint set_newest (icao : string) (d : Detection) (m : list (string * Detection)) : list (string * Detection) :=
  match m with
  | [] => [(icao, d)]
  | (k, e) :: m' => if k === icao then (k, d) :: m' else (k, e) :: set_newest icao d m'
  end.

Definition too_old (maxAgeMs : option Z) (now : Z) (d : Detection) : bool :=
  match maxAgeMs with
  | None => false
  | Some maxAge => match Date_parse (dt_ts d) with Some at_ => maxAge <? now - at_ | None => false end
  end.

Definition collapse (maxAgeMs : option Z) (now : Z) (st : list (string * Detection) * list Detection) (d : Detection)
  : list (string * Detection) * list Detection :=
  let '(newestByIcao, unattributed) := st in
  if too_old maxAgeMs now d then st
  else
    match icao_of d with
    | None => (newestByIcao, unattributed ++ [d])
    | Some icao =>
        match assoc icao newestByIcao with
        | Some seen => if dt_ts seen <<< dt_ts d then (set_newest icao d newestByIcao, unattributed) else st
        | None => (set_newest icao d newestByIcao, unattributed)
        end
    end.

(** "[compare(a, b) <= 0]". *)
Definition newest_first_le (a b : Detection) : bool := negb (dt_ts a <<< dt_ts b).

Definition aircraftFromDetections (detections : list Detection) (maxAgeMs : option Z) (now : Z) : list Detection :=
  let '(newestByIcao, unattributed) := fold_left (collapse maxAgeMs now) detections ([], []) in
  sort newest_first_le (map snd newestByIcao ++ unattributed).
End Aircraft.

(** ** Trails *)

(** No two consecutive positions of a leg have a gap between them. *)
Definition unbroken (leg : list Position) : Prop :=
  forall a p p' b, leg = a ++ p :: p' :: b -> gap_between p p' = None.

(** A flight heard in [legs], with [gaps] between each leg and the next. *)
Inductive Heard : list (list Position) -> list TrailGap -> Prop :=
| heard_one leg : unbroken leg -> Heard [leg] []
| heard_gap leg p p' rest legs g gaps :
    unbroken (leg ++ [p]) -> gap_between p p' = Some g -> Heard ((p' :: rest) :: legs) gaps ->
    Heard ((leg ++ [p]) :: (p' :: rest) :: legs) (g :: gaps).

Lemma unbroken_single p : unbroken [p].
Proof. intros a x y b E. destruct a as [|? [|? ?]]; discriminate E. Qed.

Lemma unbroken_cons p p' leg : gap_between p p' = None -> unbroken (p' :: leg) -> unbroken (p :: p' :: leg).
Proof. intros H Hu [|z a] x y b E; [by injection E as <- <- _|]. injection E as _ E. by apply (Hu a x y b). Qed.

Lemma Heard_cons p p' leg legs gaps :
  gap_between p p' = None -> Heard ((p' :: leg) :: legs) gaps -> Heard ((p :: p' :: leg) :: legs) gaps.
Proof.
  intros H Hh. inversion Hh as [? Hu|leg0 q q' rest legs' g gaps' Hu Hg Hr E]; subst.
  - constructor. by apply unbroken_cons.
  - change (p :: leg0 ++ [q]) with ((p :: leg0) ++ [q]). constructor; [|done..]. simpl.
    rewrite E in *. by apply unbroken_cons.
Qed.

(** The legs after a position: the rest of its own, and the others. *)
Fixpoint legs_after (from : Position) (history : list Position) : list Position * list (list Position) :=
  match history with
  | [] => ([], [])
  | p :: history' =>
      let '(leg, legs) := legs_after p history' in
      match gap_between from p with
      | Some _ => ([], (p :: leg) :: legs)
      | None => (p :: leg, legs)
      end
  end.

Definition legs_of (history : list Position) : list (list Position) :=
  match history with
  | [] => [[]]
  | p :: history' => let '(leg, legs) := legs_after p history' in (p :: leg) :: legs
  end.

Lemma legs_concat p history :
  fst (legs_after p history) ++ concat (snd (legs_after p history)) = history.
Proof.
  revert p. induction history as [|q h IH]; intros p; [done|]. simpl. specialize (IH q).
  destruct (legs_after q h) as [leg legs], (gap_between p q); simpl in *; by rewrite IH.
Qed.

Lemma legs_heard p history i :
  Heard ((p :: fst (legs_after p history)) :: snd (legs_after p history)) (map snd (gaps_from (Some p) i history)).
Proof.
  revert p i. induction history as [|q h IH]; intros p i; simpl; [constructor; apply unbroken_single|].
  specialize (IH q (S i)). destruct (legs_after q h) as [leg legs]. rewrite map_app.
  destruct (gap_between p q) as [g|] eqn:E; simpl in *.
  - apply (heard_gap [] p q); [apply unbroken_single | done..].
  - by apply Heard_cons.
Qed.

Lemma gaps_index from i history j : In j (map fst (gaps_from from i history)) -> (i <= j)%nat.
Proof.
  revert from i. induction history as [|p h IH]; intros from i; simpl; [done|].
  rewrite map_app, in_app_iff. intros [H|H%IH]; [|lia].
  destruct (from ≫= _) as [g|]; simpl in H; [destruct H as [<-|[]]; lia | done].
Qed.

(** The loop builds the legs. *)
Lemma extend_legs R from i history segments leg :
  (forall j, (i <= j)%nat -> In j R <-> In j (map fst (gaps_from (Some from) i history))) ->
  let '(segments', leg') := fold_left (extend_leg R) (imap (fun k p => ((i + k)%nat, p)) history) (segments, leg) in
  segments' ++ [leg'] =
  segments ++ (leg ++ map lonLat (fst (legs_after from history))) :: map (map lonLat) (snd (legs_after from history)).
Proof.
  revert from i segments leg. induction history as [|p h IH]; intros from i segments leg HR.
  { simpl. by rewrite app_nil_r. }
  cbn [imap fold_left]. rewrite Nat.add_0_r.
  assert (imap ((fun k p => ((i + k)%nat, p)) ∘ S) h = imap (fun k (p : Position) => ((S i + k)%nat, p)) h) as ->.
  { apply imap_ext. intros k x _. simpl. f_equal. lia. }
  assert (existsb (Nat.eqb i) R = match gap_between from p with Some _ => true | None => false end) as Hi.
  { apply eq_true_iff_eq. rewrite existsb_exists. setoid_rewrite Nat.eqb_eq.
    assert ((exists x, In x R /\ i = x) <-> In i R) as -> by (split; [intros (x&Hx&->); done | intros H; by exists i]).
    rewrite HR by done. simpl. rewrite map_app, in_app_iff. destruct (gap_between from p); simpl; [tauto|].
    split; [intros [[]|H%gaps_index]; lia | done]. }
  assert (forall j, (S i <= j)%nat -> In j R <-> In j (map fst (gaps_from (Some p) (S i) h))) as HR'.
  { intros j Hj. rewrite HR by lia. simpl. rewrite map_app, in_app_iff.
    destruct (gap_between from p); simpl; [|tauto]. split; [intros [[<-|[]]|H]; [lia | done] | tauto]. }
  unfold extend_leg at 2. cbn [fst snd]. rewrite Hi. cbn [legs_after].
  destruct (gap_between from p); specialize (IH p (S i)); destruct (legs_after p h) as [l ls].
  - specialize (IH (segments ++ [leg]) ([] ++ [lonLat p]) HR'). destruct (fold_left _ _ _) as [s' l']. rewrite IH. simpl.
    by rewrite <- app_assoc, app_nil_r.
  - specialize (IH segments (leg ++ [lonLat p]) HR'). destruct (fold_left _ _ _) as [s' l']. rewrite IH. simpl.
    by rewrite <- app_assoc.
Qed.

Lemma segments_are_legs history : trail_segments history = map (map lonLat) (legs_of history).
Proof.
  destruct history as [|p h]; [done|]. unfold trail_segments. cbn [gaps_from mbind option_bind app imap fold_left].
  assert (imap (pair ∘ S) h = imap (fun k (p : Position) => ((1 + k)%nat, p)) h) as -> by by apply imap_ext.
  set (R := map fst (gaps_from (Some p) 1 h)).
  assert (existsb (Nat.eqb 0) R = false) as H0.
  { apply not_true_iff_false. intros (x&Hx&<-%Nat.eqb_eq)%existsb_exists. apply gaps_index in Hx. lia. }
  unfold extend_leg at 2. cbn [fst snd]. rewrite H0.
  pose proof (extend_legs R p 1 h [] ([] ++ [lonLat p])) as H. destruct (fold_left _ _ _) as [s l]. rewrite H by done.
  simpl. by destruct (legs_after p h).
Qed.

(** C37. The trail on the map is the flight as it was heard: its segments are
    the legs of the history, every recorded position in exactly one of them and
    in order; within a leg no two consecutive positions are more than the gap
    apart; and the gaps, drawn dashed, are exactly the joints between one leg and
    the next. *)
Theorem trail_is_what_was_heard history :
  exists legs, trail_segments history = map (map lonLat) legs /\ concat legs = history /\
    Heard legs (trailGaps history).
Proof.
  exists (legs_of history). split; [apply segments_are_legs|].
  destruct history as [|p h]; simpl.
  - split; [done|]. constructor. intros [|? [|? ?]] x y b E; discriminate E.
  - pose proof (legs_concat p h) as Hc. pose proof (legs_heard p h 1) as Hh.
    unfold trailGaps. cbn [gaps_from mbind option_bind app]. destruct (legs_after p h) as [leg legs].
    simpl in *. by rewrite Hc.
Qed.

(** ** Manned traffic *)

Definition fresh (maxAgeMs : option Z) (now : Z) (ds : list Detection) : list Detection :=
  List.filter (fun d => negb (too_old maxAgeMs now d)) ds.
Definition anonymous (d : Detection) : bool := match icao_of d with None => true | Some _ => false end.
(** [d] is a newest report of the aircraft [icao] among [ds]. *)
Definition newest_of (ds : list Detection) (icao : string) (d : Detection) : Prop :=
  In d ds /\ icao_of d = Some icao /\
  forall d', In d' ds -> icao_of d' = Some icao -> (dt_ts d <<< dt_ts d') = false.

Lemma set_newest_keys icao d m :
  map fst (set_newest icao d m) = map fst m ++ (if existsb (String.eqb icao) (map fst m) then [] else [icao]).
Proof.
  induction m as [|[k e] m IH]; [done|]. simpl. rewrite (String.eqb_sym icao k).
  destruct (String.eqb_spec k icao) as [->|Hne]; simpl; [by rewrite app_nil_r | by rewrite IH].
Qed.

Lemma existsb_str k l : existsb (String.eqb k) l = true <-> In k l.
Proof.
  rewrite existsb_exists. split; [intros (x&Hx&->%String.eqb_eq); done | intros H; exists k; by rewrite String.eqb_refl].
Qed.

Lemma set_newest_NoDup icao d m : List.NoDup (map fst m) -> List.NoDup (map fst (set_newest icao d m)).
Proof.
  intros Hn. rewrite set_newest_keys. destruct (existsb _ _) eqn:E; [by rewrite app_nil_r|].
  eapply Permutation_NoDup; [apply Permutation_cons_append|]. constructor; [|done].
  intros H%existsb_str. congruence.
Qed.

Lemma set_newest_In icao d m k e :
  List.NoDup (map fst m) ->
  In (k, e) (set_newest icao d m) <-> (k = icao /\ e = d) \/ (k <> icao /\ In (k, e) m).
Proof.
  induction m as [|[k' e'] m IH]; intros Hn; simpl.
  - split; [intros [[= <- <-]|[]]; auto | intros [[-> ->]|[_ []]]; auto].
  - inversion Hn as [|? ? Hx Hn']; subst. destruct (String.eqb_spec k' icao) as [->|Hne]; simpl.
    + split.
      * intros [[= <- <-]|H]; [auto|]. right. split; [|auto]. intros ->. apply Hx. apply (in_map fst) in H. done.
      * intros [[-> ->]|[Hk [[= <- <-]|H]]]; [auto | done | auto].
    + rewrite IH by done. split.
      * intros [[= <- <-]|[H|[H1 H2]]]; auto.
      * intros [H|[Hk [H|H]]]; auto.
Qed.

Lemma assoc_spec {A} key (m : list (string * A)) :
  match assoc key m with Some v => In (key, v) m | None => ~ In key (map fst m) end.
Proof.
  induction m as [|[k v] m IH]; simpl; [tauto|]. destruct (String.eqb_spec k key) as [->|Hne]; [by left|].
  destruct (assoc key m); [by right|]. intros [?|?]; [congruence | tauto].
Qed.

(** The Map holds a newest report of every aircraft heard. *)
Record Collapsed (ds : list Detection) (m : list (string * Detection)) : Prop := {
  cl_keys : List.NoDup (map fst m);
  cl_newest : forall k e, In (k, e) m -> newest_of ds k e;
  cl_all : forall d k, In d ds -> icao_of d = Some k -> In k (map fst m)
}.

Lemma newest_skip ds d k e :
  newest_of ds k e -> (icao_of d = Some k -> (dt_ts e <<< dt_ts d) = false) -> newest_of (ds ++ [d]) k e.
Proof.
  intros (He&Hk&Hn) Hd. split_and!; [rewrite in_app_iff; auto | done|].
  intros d' [Hd'|[<-|[]]]%in_app_iff; auto.
Qed.

Lemma not_older_refl s : (s <<< s) = false.
Proof. pose proof (sle_total s s) as H. unfold sle in H. destruct (s <<< s); [by destruct H | done]. Qed.

Lemma newest_take ds d k e :
  (e = d \/ newest_of ds k e /\ (dt_ts e <<< dt_ts d) = true) ->
  (e = d -> forall d', In d' ds -> icao_of d' <> Some k) -> icao_of d = Some k -> newest_of (ds ++ [d]) k d.
Proof.
  intros He Hno Hk. split_and!; [rewrite in_app_iff; simpl; auto | done|].
  intros d' [Hd'|[<-|[]]]%in_app_iff Hk'; [|apply not_older_refl].
  destruct He as [->|[(_&_&Hn) Hlt]]; [by destruct (Hno eq_refl d')|]. specialize (Hn d' Hd' Hk').
  apply not_true_iff_false. intros Hlt'. pose proof (sle_trans (dt_ts d') (dt_ts e) (dt_ts d)) as Ht.
  unfold sle in Ht. rewrite Hn in Ht. destruct (dt_ts d <<< dt_ts e) eqn:E.
  - pose proof (sle_total (dt_ts e) (dt_ts d)) as Hs. unfold sle in Hs. rewrite E, Hlt in Hs. by destruct Hs.
  - specialize (Ht eq_refl eq_refl). by rewrite Hlt' in Ht.
Qed.

(** A report that is no news leaves the Map right; a newer one takes its place. *)
Lemma collapsed_skip old m d :
  Collapsed old m -> (forall k, icao_of d = Some k -> exists e, In (k, e) m /\ (dt_ts e <<< dt_ts d) = false) ->
  Collapsed (old ++ [d]) m.
Proof.
  intros [Hk Hn Ha] Hd. split; [done | |].
  - intros k e He. apply newest_skip; [auto|]. intros Hi. destruct (Hd k Hi) as (e'&He'&Ht).
    by rewrite (NoDup_fst_unique m k e e').
  - intros d' k [Hd'|[<-|[]]]%in_app_iff Hi; [eauto|]. destruct (Hd k Hi) as (e&He&_).
    by apply (in_map fst) in He.
Qed.

Lemma collapsed_set old m d icao :
  Collapsed old m -> icao_of d = Some icao ->
  match assoc icao m with Some seen => (dt_ts seen <<< dt_ts d) = true | None => True end ->
  Collapsed (old ++ [d]) (set_newest icao d m).
Proof.
  intros [Hk Hn Ha] Hi Hs. pose proof (assoc_spec icao m) as Has. split; [by apply set_newest_NoDup | |].
  - intros k e [[-> ->]|[Hne He]]%set_newest_In; [| |done].
    + destruct (assoc icao m) as [seen|].
      * apply (newest_take _ _ _ seen); [auto | | done]. intros ->. by rewrite not_older_refl in Hs.
      * apply (newest_take _ _ _ d); [auto | | done]. intros _ d' Hd' Hi'. apply Has. eauto.
    + apply newest_skip; [auto | congruence].
  - intros d' k Hd' Hi'. rewrite set_newest_keys, in_app_iff.
    apply in_app_iff in Hd' as [Hd'|[<-|[]]]; [left; eauto|].
    assert (k = icao) as -> by congruence. destruct (existsb _ _) eqn:E; [left; by apply existsb_str | right; by left].
Qed.

Lemma fresh_snoc maxAgeMs now ds d :
  fresh maxAgeMs now (ds ++ [d]) = fresh maxAgeMs now ds ++ if too_old maxAgeMs now d then [] else [d].
Proof. unfold fresh. rewrite List.filter_app. simpl. by destruct (too_old maxAgeMs now d). Qed.

Lemma collapse_spec maxAgeMs now ds :
  let '(m, un) := fold_left (collapse maxAgeMs now) ds ([], []) in
  Collapsed (fresh maxAgeMs now ds) m /\ un = List.filter anonymous (fresh maxAgeMs now ds).
Proof.
  induction ds as [|d ds IH] using rev_ind; [split; [split; [constructor | done | done] | done]|].
  rewrite fold_left_app, fresh_snoc. destruct (fold_left _ ds _) as [m un]. destruct IH as [Hc ->].
  set (old := fresh maxAgeMs now ds) in *. cbn [fold_left]. unfold collapse.
  destruct (too_old maxAgeMs now d); [by rewrite app_nil_r|].
  assert (List.filter anonymous (old ++ [d]) = List.filter anonymous old ++ match icao_of d with Some _ => [] | None => [d] end) as ->.
  { rewrite List.filter_app. simpl. unfold anonymous at 2. by destruct (icao_of d). }
  destruct (icao_of d) as [icao|] eqn:Ei; rewrite ?app_nil_r.
  2: { split; [|done]. apply collapsed_skip; [done | congruence]. }
  pose proof (assoc_spec icao m) as Has. pose proof (collapsed_set old m d icao Hc Ei) as Hset.
  destruct (assoc icao m) as [seen|]; [|auto]. destruct (dt_ts seen <<< dt_ts d) eqn:Et; [auto|].
  split; [|done]. apply collapsed_skip; [done|]. intros k Hk. assert (k = icao) as -> by congruence. by exists seen.
Qed.

(** The contacts list has one entry per aircraft: whatever the reports and
    their order, no two entries bear the same ICAO address, each entry is a
    newest report of its aircraft, every aircraft with a report that is not too
    old has one, every such report without an address is kept as an entry of its
    own, nothing else is listed, and the list is newest first.  The host's sort is
    asked only to permute, and to order by a total preorder. *)
Lemma one_entry_per_aircraft
    (sort : (Detection -> Detection -> bool) -> list Detection -> list Detection)
    (Hperm : forall le l, Permutation l (sort le l))
    (Hsort : forall le l, (forall x y, le x y = true \/ le y x = true) ->
      (forall x y z, le x y = true -> le y z = true -> le x z = true) ->
      StronglySorted (fun a b => le a b = true) (sort le l)) ds maxAgeMs now :
  let out := aircraftFromDetections sort ds maxAgeMs now in
  let heard := fresh maxAgeMs now ds in
  StronglySorted (fun a b => newest_first_le a b = true) out /\
  List.NoDup (omap icao_of out) /\
  (forall d icao, In d out -> icao_of d = Some icao -> newest_of heard icao d) /\
  (forall d icao, In d heard -> icao_of d = Some icao -> In icao (omap icao_of out)) /\
  Permutation (List.filter anonymous out) (List.filter anonymous heard).
Proof.
  intros out heard. unfold out, aircraftFromDetections. pose proof (collapse_spec maxAgeMs now ds) as H.
  fold heard in H. destruct (fold_left _ ds _) as [m un]. destruct H as [[Hk Hn Ha] ->].
  set (all := map snd m ++ List.filter anonymous heard). pose proof (Hperm newest_first_le all) as Hp.
  assert (forall k e, In (k, e) m -> icao_of e = Some k) as Hki by (intros k e He; by apply Hn).
  assert (omap icao_of all = map fst m) as Ho.
  { unfold all. rewrite omap_app. rewrite <- (app_nil_r (map fst m)). f_equal.
    - clear -Hki. induction m as [|[k e] m IH]; [done|]. simpl. rewrite (Hki k e) by (by left).
      f_equal. apply IH. intros. apply Hki. by right.
    - clear. induction heard as [|d l IH]; [done|]. simpl. unfold anonymous at 1.
      destruct (icao_of d) eqn:E; simpl; [done | by rewrite E]. }
  assert (Permutation (map fst m) (omap icao_of (sort newest_first_le all))) as Hpo by by rewrite <- Ho, <- Hp.
  split_and!.
  - apply Hsort; unfold newest_first_le; intros x y; [apply sle_total|]. intros z H1 H2. by apply (sle_trans _ (dt_ts y)).
  - by rewrite <- Hpo.
  - intros d icao Hd Hi. rewrite <- Hp in Hd. apply in_app_iff in Hd as [Hd|Hd].
    + apply in_map_iff in Hd as ([k e]&<-&He). assert (k = icao) as <- by (specialize (Hki k e He); simpl in *; congruence).
      by apply Hn.
    + apply filter_In in Hd as [_ Hd]. unfold anonymous in Hd. by rewrite Hi in Hd.
  - intros d icao Hd Hi. rewrite <- Hpo. eauto.
  - rewrite <- Hp. unfold all. rewrite List.filter_app, (filter_none anonymous (map snd m)).
    + simpl. rewrite filter_all; [done|]. intros x Hx%filter_In. tauto.
    + intros x ([k e]&<-&He)%in_map_iff. unfold anonymous. simpl. by rewrite (Hki k e He).
Qed.

Definition report (id ts icao : string) : Detection :=
  {| dt_detection_id := id; dt_ts := ts; dt_sensor_id := "sdr-0"; dt_sensor_kind := sdr; dt_detection_class := ClsG;
     dt_rf := None; dt_identity := None; dt_position := None; dt_kinematics := None; dt_operator := None;
     dt_signal_features := None;
     dt_adsb := Some {| ad_icao := icao; ad_callsign := None; ad_alt_ft := None; ad_ground_speed_kt := None |};
     dt_raw := None |}.
Definition reports : list Detection :=
  [report "1" "2026-09-15T03:00:00Z" "a1"; report "2" "2026-09-15T03:00:01Z" "b2";
   report "3" "2026-09-15T03:00:02Z" "a1"; report "4" "2026-09-15T03:00:01.5Z" ""].

Lemma one_entry_per_aircraft_witness :
  List.NoDup (omap icao_of (aircraftFromDetections (fun le => sort_by le) reports None 0)).
Proof.
  destruct (one_entry_per_aircraft (fun le => sort_by le) (fun le l => sort_by_perm le l)
    (fun le l Ht Htr => sort_by_sorted le Ht Htr l) reports None 0) as (_&H&_).
  exact H.
Defined.

Example three_contacts :
  map dt_detection_id (aircraftFromDetections (fun le => sort_by le) reports None 0) = ["3"; "2"; "4"].
Proof. vm_compute. reflexivity. Qed.

(** The times are compared as strings, and a reply writes a whole second without
    decimals: the older of two reports of one aircraft is then kept. *)
Lemma lexical_order_is_not_time_order :
  let older := report "old" "2026-09-15T03:00:01Z" "a1" in
  let newer := report "new" "2026-09-15T03:00:01.5Z" "a1" in
  Date_parse (dt_ts older) = Some 1789441201000 /\ Date_parse (dt_ts newer) = Some 1789441201500 /\
  aircraftFromDetections (fun le => sort_by le) [newer; older] None 0 = [older] /\
  aircraftFromDetections (fun le => sort_by le) [older; newer] None 0 = [older].
Proof. vm_compute. auto. Qed.
