(* ===== verification/ShareCard.v ===== *)
(** * Share card: the summary that leaves the console

    [features/tracks/share/share-card-model.ts] shapes a track into the card
    someone may send on, and [features/tracks/path-shape.ts] a history into a
    row's thumbnail.  The host's trigonometry and its date labels are parameters;
    the texts the card shares with other parts are in [Format]. *)
From Stdlib Require Import ZArith Bool String Ascii List Lia Permutation Sorted SpecFloat.
From stdpp Require Import base option list strings pretty.
From S2P Require Import Prelude JsNumber JsDate JsString ApiTypes Format.

(** [Math.cos], [Math.hypot] and [Math.PI]. *)
Class Trig := { cos : num -> num; hypot : num -> num -> num }.
Definition PI : num := dec 3141592653589793 15.

Class CardDates := { day_label : Z -> string; clock_label : Z -> string }.

Record LatLon := { ll_lat : num; ll_lon : num }.

(** [Math.min(...values)] and [Math.max(...values)]. *)
Definition min_of (values : list num) : num := fold_left nmin values pos_infinity.
Definition max_of (values : list num) : num := fold_left nmax values neg_infinity.
Definition nceil (x : num) : num := match ceil_Z x with Some z => of_Z z | None => x end.

(** A date's milliseconds as the number the code computes with. *)
Definition ms_of (ts : string) : num := match Date_parse ts with Some ms => of_Z ms | None => S754_nan end.

Record RssiSample := { rs_ts : string; rs_rssi : num }.

(** ** The card's drawing *)
Definition MAX_PATH_POINTS : Z := 120.
Definition MIN_MOVEMENT_M : num := of_Z 25.

Record CardPathPoint := { cp_x : num; cp_y : num }.
Record CardPath := { cd_points : list CardPathPoint; cd_spanMetres : option num; cd_stationary : bool }.
Record CardSignal := { cs_points : list CardPathPoint; cs_minRssi : num; cs_maxRssi : num; cs_peakRssi : num }.

(** The places thinning picks of [n], [limit] of them. *)
Definition thinned_index (n limit i : Z) : Z :=
  let step := ndiv (of_Z (n - 1)) (of_Z (limit - 1)) in
  round_Z (nmul (of_Z i) step) ?? 0.
Definition downsample {A} (items : list A) (limit : Z) : list A :=
  if zlen items <=? limit then items
  else omap (fun i => items !! Z.to_nat (thinned_index (zlen items) limit (Z.of_nat i))) (seq 0 (Z.to_nat limit)).

Definition buildSignal (samples : list RssiSample) : option CardSignal :=
  if zlen samples <? 2 then None
  else
    let values := map rs_rssi samples in
    let rawMin := min_of values in
    let rawMax := max_of values in
    let five := of_Z 5 in
    let minRssi := nmax (of_Z (-110)) (nmul (nfloor (ndiv (nsub rawMin (of_Z 3)) five)) five) in
    let maxRssi := nmin (of_Z 0) (nmul (nceil (ndiv (nadd rawMax (of_Z 3)) five)) five) in
    let range := nmax (of_Z 1) (nsub maxRssi minRssi) in
    let times := map (fun s => ms_of (rs_ts s)) samples in
    let minTime := min_of times in
    let span := nmax (of_Z 1) (nsub (max_of times) minTime) in
    Some {|
      cs_points := map (fun s => {|
        cp_x := ndiv (nsub (ms_of (rs_ts s)) minTime) span;
        cp_y := nsub (of_Z 1) (ndiv (nsub (rs_rssi s) minRssi) range) |}) (downsample samples MAX_PATH_POINTS);
      cs_minRssi := minRssi; cs_maxRssi := maxRssi; cs_peakRssi := rawMax
    |}.

Section Drawing.
Context {T : Trig}.

Definition metresBetween (a b : LatLon) : num :=
  let R := of_Z 6371000 in
  let rad := ndiv PI (of_Z 180) in
  let lat := nmul (ndiv (nadd (ll_lat a) (ll_lat b)) (of_Z 2)) rad in
  let dLat := nmul (nsub (ll_lat b) (ll_lat a)) rad in
  let dLon := nmul (nsub (ll_lon b) (ll_lon a)) rad in
  let x := nmul dLon (cos lat) in
  nmul (hypot x dLat) R.

Definition finite_place (p : Position) : bool := is_finite (ps_lat p) && is_finite (ps_lon p).

Definition buildPath (history : list Position) : option CardPath :=
  let points := List.filter finite_place history in
  if zlen points <? 2 then None
  else
    let sampled := downsample points MAX_PATH_POINTS in
    let lats := map ps_lat sampled in
    let lons := map ps_lon sampled in
    let minLat := min_of lats in
    let maxLat := max_of lats in
    let minLon := min_of lons in
    let maxLon := max_of lons in
    let latSpan := nsub maxLat minLat in
    let lonSpan := nsub maxLon minLon in
    let zero := of_Z 0 in
    if neq latSpan zero && neq lonSpan zero then
      let half := dec 5 1 in
      Some {| cd_points := [{| cp_x := half; cp_y := half |}]; cd_spanMetres := Some zero; cd_stationary := true |}
    else
      let spanMetres := metresBetween {| ll_lat := minLat; ll_lon := minLon |} {| ll_lat := maxLat; ll_lon := maxLon |} in
      let scale := nmax latSpan lonSpan in
      let xOffset := ndiv (nsub scale lonSpan) (of_Z 2) in
      let yOffset := ndiv (nsub scale latSpan) (of_Z 2) in
      Some {|
        cd_points := map (fun p => {|
          cp_x := ndiv (nadd (nsub (ps_lon p) minLon) xOffset) scale;
          cp_y := nsub (of_Z 1) (ndiv (nadd (nsub (ps_lat p) minLat) yOffset) scale) |}) sampled;
        cd_spanMetres := Some spanMetres; cd_stationary := false
      |}.
End Drawing.

(** ** The card *)
Record ShareCardModel := {
  sc_title : string;
  sc_trackId : string;
  sc_state : TrackState;
  sc_vendor : string;
  sc_uaType : string;
  sc_modelHint : string;
  sc_confidence : num;
  sc_confidenceLabel : string;
  sc_detectionCount : Z;
  sc_firstSeen : string;
  sc_lastSeen : string;
  sc_durationLabel : string;
  sc_evidenceClasses : list string;
  sc_sensorKinds : list string;
  sc_coordinates : option string;
  sc_altitudeM : option num;
  sc_heightAglM : option num;
  sc_path : option CardPath;
  sc_signal : option CardSignal;
  sc_peakRssiLabel : string;
  sc_headline : string;
  sc_seenLabel : string;
  sc_movementLabel : string;
  sc_redacted : bool
}.

(** [[...new Set(values)].sort()]. *)
Definition add_new (s : list string) (x : string) : list string := if existsb (String.eqb x) s then s else s ++ [x].
Definition sorted_set (values : list string) : list string := sort_by sle (fold_left add_new values []).

Section Card.
Context {T : Trig} {D : CardDates}.

Definition formatSeen (firstSeen lastSeen : string) : string :=
  match Date_parse firstSeen, Date_parse lastSeen with
  | Some start, Some end_ => day_label start +:+ ", " +:+ clock_label start +:+ "–" +:+ clock_label end_ +:+ " UTC"
  | _, _ => EMPTY
  end.

(** Only a genuine flight is drawn. *)
Definition drawn_path (rawPath : option CardPath) : option CardPath :=
  match rawPath with
  | Some p => if negb (cd_stationary p) && nge (cd_spanMetres p ?? of_Z 0) MIN_MOVEMENT_M then Some p else None
  | None => None
  end.

Definition movement (rawPath path : option CardPath) : string :=
  match rawPath, path with
  | None, _ => EMPTY
  | Some _, Some p => "Moved ~" +:+ int_string (round_Z (cd_spanMetres p ?? of_Z 0)) +:+ " m"
  | Some _, None => "Stationary"
  end.

Definition title_of (track : Track) : string :=
  tr_identity track ?. ti_serial ?? (tr_identity track ?. ti_macs ≫= head) ?? tr_track_id track.

Definition buildShareCardModel (track : Track) (redacted : bool) (rssiSamples : list RssiSample) : ShareCardModel :=
  let current := tr_current track in
  let evidence := tr_evidence track ?? [] in
  let signal := buildSignal rssiSamples in
  let rawPath := buildPath (tr_history track ?? []) in
  let path := drawn_path rawPath in
  let coordinates := if redacted then None else (fun c => formatLatLon (ps_lat c) (ps_lon c)) <$> current in
  let vendor := tr_identity track ?. ti_vendor ?? EMPTY in
  let uaType := tr_identity track ?. ti_ua_type ?? EMPTY in
  {|
    sc_title := title_of track;
    sc_trackId := tr_track_id track;
    sc_state := tr_state track;
    sc_vendor := vendor;
    sc_uaType := uaType;
    sc_modelHint := tr_identity track ?. ti_model_hint ?? EMPTY;
    sc_confidence := tr_confidence track;
    sc_confidenceLabel := formatConfidence (tr_confidence track);
    sc_detectionCount := tr_detection_count track;
    sc_firstSeen := tr_first_seen track;
    sc_lastSeen := tr_last_seen track;
    sc_durationLabel := formatSpan (Some (tr_first_seen track)) (Some (tr_last_seen track));
    sc_evidenceClasses := sorted_set (map (fun e => DetectionClass_string (ev_class e)) evidence);
    sc_sensorKinds := sorted_set (map (fun e => SensorKind_string (ev_sensor_kind e)) evidence);
    sc_coordinates := coordinates;
    sc_altitudeM := if redacted then None else current ≫= ps_alt_geodetic_m;
    sc_heightAglM := current ≫= ps_height_agl_m;
    sc_path := path;
    sc_signal := signal;
    sc_peakRssiLabel := match signal with Some s => num_string (cs_peakRssi s) +:+ " dBm" | None => EMPTY end;
    sc_headline := formatHeadline vendor uaType;
    sc_seenLabel := formatSeen (tr_first_seen track) (tr_last_seen track);
    sc_movementLabel := movement rawPath path;
    sc_redacted := redacted
  |}.
End Card.

(** ** The thumbnail *)
Module PathShape.

Record Point := { pt_x : num; pt_y : num }.
Record PathShape := { sh_path : list Point; sh_operator : option Point; sh_receiver : option Point }.
Record ProjectOptions := {
  po_width : num; po_height : num; po_padding : num;
  po_receiver : option LatLon; po_operator : option LatLon
}.

(** [Math.ceil(p / q)] of array lengths, which are far below 2^53. *)
Definition ceil_div (p q : nat) : nat := ((p + q - 1) / q)%nat.

(** The loop [for (i = 0; i < n; i += stride)], each point with its place. *)
Fixpoint strided {A} (fuel stride : nat) (l : list A) : list A :=
  match fuel, l with
  | S fuel', x :: _ => x :: strided fuel' stride (drop stride l)
  | _, _ => []
  end.

(** [===] on points is identity: two are the same when their places are. *)
Definition simplifyPath {A} (points : list A) (maxPoints : nat) : list A :=
  let n := List.length points in
  if (maxPoints <? 2)%nat || (n <=? maxPoints)%nat then points
  else
    let stride := ceil_div n (maxPoints - 1) in
    let placed := zip (seq 0 n) points in
    let kept := strided n stride placed in
    map snd (match last placed, last kept with
             | Some l, Some k => if (k.1 =? l.1)%nat then kept else kept ++ [l]
             | Some l, None => kept ++ [l]
             | None, _ => kept
             end).

Section Project.
Context {T : Trig}.

Definition planar (point centre : LatLon) : Point :=
  let kx := cos (ndiv (nmul (ll_lat centre) PI) (of_Z 180)) in
  {| pt_x := nmul (nsub (ll_lon point) (ll_lon centre)) kx; pt_y := nopp (nsub (ll_lat point) (ll_lat centre)) |}.

Definition boxCentre (points : list LatLon) : LatLon :=
  let lons := map ll_lon points in
  let lats := map ll_lat points in
  {| ll_lat := ndiv (nadd (min_of lats) (max_of lats)) (of_Z 2);
     ll_lon := ndiv (nadd (min_of lons) (max_of lons)) (of_Z 2) |}.

Definition projectPath (history : list LatLon) (o : ProjectOptions) : option PathShape :=
  if zlen history <? 2 then None
  else
    let all := history ++ match po_operator o with Some p => [p] | None => [] end in
    let centre := po_receiver o ?? boxCentre all in
    let half := fold_left (fun half p => nmax (nmax half (nabs (pt_x p))) (nabs (pt_y p)))
                  (map (fun p => planar p centre) all) (of_Z 0) in
    let two := of_Z 2 in
    let box := nsub (nmin (po_width o) (po_height o)) (nmul two (po_padding o)) in
    let scale := if ngt half (of_Z 0) then ndiv box (nmul two half) else of_Z 0 in
    let toScreen := fun p => {|
      pt_x := nadd (ndiv (po_width o) two) (nmul (pt_x p) scale);
      pt_y := nadd (ndiv (po_height o) two) (nmul (pt_y p) scale) |} in
    Some {|
      sh_path := map (fun p => toScreen (planar p centre)) history;
      sh_operator := (fun p => toScreen (planar p centre)) <$> po_operator o;
      sh_receiver := (fun _ => {| pt_x := ndiv (po_width o) two; pt_y := ndiv (po_height o) two |}) <$> po_receiver o
    |}.
End Project.

Definition round (value : num) : num :=
  ndiv (match round_Z (nmul value (of_Z 10)) with Some z => of_Z z | None => nmul value (of_Z 10) end) (of_Z 10).
Definition polylinePoints (points : list Point) : string :=
  join " " (map (fun p => num_string (round (pt_x p)) +:+ "," +:+ num_string (round (pt_y p))) points).

(** *** Thinning *)

Lemma strided_sublist {A} fuel stride (l : list A) : (0 < stride)%nat -> sublist (strided fuel stride l) l.
Proof.
  intros Hs. revert l. induction fuel as [|fuel IH]; intros l; [apply sublist_nil_l|]. destruct l as [|x l]; [constructor|]. cbn [strided].
  destruct stride as [|stride]; [lia|]. cbn [drop]. constructor. etrans; [apply IH|]. apply sublist_drop.
Qed.

Lemma strided_length {A} fuel stride (l : list A) :
  (0 < stride)%nat -> (stride * List.length (strided fuel stride l) < List.length l + stride)%nat.
Proof.
  intros Hs. revert l. induction fuel as [|fuel IH]; intros l; [cbn; lia|]. destruct l as [|x l]; [cbn; lia|].
  cbn [strided List.length]. specialize (IH (drop stride (x :: l))). rewrite length_drop in IH. cbn [List.length] in IH.
  set (k := List.length (strided fuel stride _)) in *. rewrite Nat.mul_succ_r.
  destruct (Nat.le_gt_cases stride (S (List.length l))); [lia|]. assert (k = 0%nat) by nia. lia.
Qed.

Lemma whole_ceil_div p q : (0 < q)%nat -> (p <= ceil_div p q * q)%nat /\ (0 < p -> 0 < ceil_div p q)%nat.
Proof.
  intros Hq. unfold ceil_div. pose proof (Nat.div_mod_eq (p + q - 1) q). pose proof (Nat.mod_upper_bound (p + q - 1) q ltac:(lia)).
  set (d := ((p + q - 1) / q)%nat) in *. rewrite (Nat.mul_comm d q). split; [lia|]. intros Hp. destruct d; [rewrite Nat.mul_0_r in *|]; lia.
Qed.

Lemma zip_snd {A} (l : list A) k : map snd (zip (seq k (List.length l)) l) = l.
Proof. revert k. induction l as [|x l IH]; intros k; cbn; [done|]. by rewrite IH. Qed.

Lemma zip_fst {A} (l : list A) k : map fst (zip (seq k (List.length l)) l) = seq k (List.length l).
Proof. revert k. induction l as [|x l IH]; intros k; cbn; [done|]. by rewrite IH. Qed.

Lemma sublist_snoc_last {A} (k l : list A) x :
  List.NoDup l -> sublist k l -> last l = Some x -> last k <> Some x -> sublist (k ++ [x]) l.
Proof.
  intros Hn Hs Hl Hk. destruct l as [|y l _] using rev_ind; [done|]. rewrite last_snoc in Hl. injection Hl as ->.
  apply sublist_app_r in Hs as (k1 & k2 & -> & H1 & H2). inversion H2 as [|? ? ? H3|? ? ? H3]; subst; apply sublist_nil_r in H3 as ->.
  - rewrite last_snoc in Hk. done.
  - rewrite app_nil_r. by apply sublist_app.
Qed.

Lemma sublist_map {A B} (f : A -> B) (k l : list A) : sublist k l -> sublist (map f k) (map f l).
Proof. induction 1; cbn; by constructor. Qed.

Lemma last_of_map {A B} (f : A -> B) (l : list A) : last (map f l) = f <$> last l.
Proof. apply fmap_last. Qed.

Lemma head_of_map {A B} (f : A -> B) (l : list A) : head (map f l) = f <$> head l.
Proof. by destruct l. Qed.

(** The sketch of a path: at most as many points as asked for, in order, with the
    first and the last of the path. *)
Lemma simplifyPath_spec {A} (points : list A) maxPoints :
  (2 <= maxPoints)%nat ->
  (List.length (simplifyPath points maxPoints) <= maxPoints \/ simplifyPath points maxPoints = points)%nat /\
  sublist (simplifyPath points maxPoints) points /\
  head (simplifyPath points maxPoints) = head points /\ last (simplifyPath points maxPoints) = last points.
Proof.
  intros Hm. unfold simplifyPath. set (n := List.length points).
  destruct (Nat.ltb_spec maxPoints 2) as [|_]; [lia|]. destruct (Nat.leb_spec n maxPoints) as [|Hn]; [split_and!; auto|]. cbn [orb].
  destruct (whole_ceil_div n (maxPoints - 1)) as [Hc Hc0]; [lia|]. set (stride := ceil_div n (maxPoints - 1)) in *.
  specialize (Hc0 ltac:(lia)). set (placed := zip (seq 0 n) points).
  pose proof (strided_sublist n stride placed Hc0) as Hs. pose proof (strided_length n stride placed Hc0) as Hl.
  assert (List.length placed = n) as Hp by (rewrite <- (List.length_map fst); unfold placed, n; by rewrite zip_fst, length_seq).
  assert (List.NoDup (map fst placed)) as Hnd by (unfold placed, n; rewrite zip_fst; apply seq_NoDup).
  assert (map snd placed = points) as Hsnd by apply zip_snd.
  assert (head (strided n stride placed) = head placed /\ strided n stride placed <> []) as [Hh Hne].
  { destruct placed as [|x l]; [cbn in Hp; lia|]. destruct n; [lia|done]. }
  rewrite Hp in Hl. clearbody placed. set (kept := strided n stride placed) in *. clearbody kept.
  assert (List.length kept <= maxPoints - 1)%nat as Hk by nia.
  destruct (last placed) as [l|] eqn:El; [|destruct placed as [|x placed]; [cbn in Hp; lia|]; rewrite last_cons in El; by destruct (last placed)].
  destruct (last kept) as [k|] eqn:Ek; [|destruct kept as [|x kept]; [done|]; rewrite last_cons in Ek; by destruct (last kept)].
  assert (In k placed) as Hin.
  { apply list_elem_of_In. eapply sublist_subseteq; [exact Hs|]. by apply last_Some_elem_of. }
  assert (In l placed) as Hil by (by apply list_elem_of_In, last_Some_elem_of).
  rewrite <- Hsnd, !last_of_map, !head_of_map, El. destruct (Nat.eqb_spec k.1 l.1) as [E|E].
  - assert (k = l) as -> by (destruct k as [i a], l as [j b]; cbn in E; subst; f_equal; by apply (NoDup_fst_unique placed j)).
    rewrite List.length_map, Ek, Hh. split_and!; [left; lia|by apply sublist_map|done|done].
  - rewrite List.length_map, List.length_app, last_snoc. cbn [List.length]. split_and!; [left; lia| | |done].
    + apply sublist_map, sublist_snoc_last; [by eapply NoDup_map_inv|done|done|]. rewrite Ek. congruence.
    + destruct kept as [|x kept]; [done|]. by rewrite <- Hh.
Qed.
End PathShape.

(** ** What redaction withholds *)

(** The track heard elsewhere: another fix, another path, another pilot. *)
Definition heard_at (track : Track) (current : option Position) (history : option (list Position)) (operator : option Position) : Track := {|
  tr_track_id := tr_track_id track; tr_state := tr_state track; tr_first_seen := tr_first_seen track;
  tr_last_seen := tr_last_seen track; tr_detection_count := tr_detection_count track; tr_identity := tr_identity track;
  tr_confidence := tr_confidence track; tr_evidence := tr_evidence track; tr_current := current; tr_history := history;
  tr_operator := operator; tr_rssi_dbm := tr_rssi_dbm track; tr_receivers := tr_receivers track;
  tr_adsb_correlated := tr_adsb_correlated track
|}.

(** A redacted card cannot tell where the aircraft or its pilot was: heard at
    any other place, with another altitude and another pilot, but at the same
    height and with a path of the same sketch, the track gives the same redacted
    card.  The card of the same track that is not redacted gives the place, so
    the two differ only in coordinates, altitude and the mark of redaction. *)
Lemma redacted_card_hides_the_place {T : Trig} {D : CardDates} (track : Track) (samples : list RssiSample)
    (current : option Position) (history : option (list Position)) (operator : option Position) :
  current ≫= ps_height_agl_m = tr_current track ≫= ps_height_agl_m ->
  buildPath (history ?? []) = buildPath (tr_history track ?? []) ->
  buildShareCardModel (heard_at track current history operator) true samples = buildShareCardModel track true samples /\
  forall redacted,
    sc_coordinates (buildShareCardModel track redacted samples) =
      (if redacted then None else (fun c => formatLatLon (ps_lat c) (ps_lon c)) <$> tr_current track) /\
    sc_altitudeM (buildShareCardModel track redacted samples) =
      (if redacted then None else tr_current track ≫= ps_alt_geodetic_m) /\
    sc_path (buildShareCardModel track redacted samples) = sc_path (buildShareCardModel track true samples).
Proof.
  intros Hh Hp. split; [|by intros []]. unfold buildShareCardModel.
  cbn [tr_current tr_history tr_evidence tr_identity tr_track_id tr_state tr_confidence tr_detection_count tr_first_seen tr_last_seen heard_at].
  by rewrite Hh, Hp.
Qed.

(** Thinning keeps both ends of a series of up to two thousand. *)
Lemma thinning_keeps_the_ends :
  forallb (fun n => (thinned_index n MAX_PATH_POINTS 0 =? 0) && (thinned_index n MAX_PATH_POINTS (MAX_PATH_POINTS - 1) =? n - 1))
    (map Z.of_nat (seq 121 2000)) = true.
Proof. vm_compute. reflexivity. Qed.

(** ** Examples *)
#[local] Instance flat : Trig := {| cos := fun _ => of_Z 1; hypot := fun x y => nmax (nabs x) (nabs y) |}.
#[local] Instance iso_dates : CardDates := {| day_label := fun t => substring 0 10 (toISOString t); clock_label := fun t => substring 11 5 (toISOString t) |}.

Definition fix_at (lat lon : Z) : Position := {|
  ps_lat := of_Z lat; ps_lon := of_Z lon; ps_alt_geodetic_m := Some (of_Z (100 + lat)); ps_height_agl_m := Some (of_Z 40);
  ps_terrain_elevation_m := None; ps_speed_mps := None; ps_track_deg := None; ps_at := None
|}.
Definition a_flight : Track := {|
  tr_track_id := "01HZX"; tr_state := CLOSED; tr_first_seen := "2026-08-16T03:48:00Z"; tr_last_seen := "2026-08-16T03:49:30Z";
  tr_detection_count := 3; tr_identity := None; tr_confidence := dec 9 1; tr_evidence := None; tr_current := Some (fix_at 51 0);
  tr_history := Some [fix_at 50 0; fix_at 51 0]; tr_operator := Some (fix_at 50 1); tr_rssi_dbm := None; tr_receivers := None;
  tr_adsb_correlated := None
|}.

Lemma redacted_card_hides_the_place_witness :
  buildShareCardModel (heard_at a_flight (Some (fix_at 21 20)) (Some [fix_at 20 20; fix_at 21 20]) None) true [] =
    buildShareCardModel a_flight true [] /\
  sc_coordinates (buildShareCardModel a_flight false []) = Some "51.000000, 0.000000".
Proof.
  split; [|vm_compute; reflexivity].
  refine (proj1 (redacted_card_hides_the_place a_flight [] (Some (fix_at 21 20)) (Some [fix_at 20 20; fix_at 21 20]) None _ _));
    vm_compute; reflexivity.
Defined.

(** A reading below the clamp is drawn below the box, at eleven times its height. *)
Lemma weak_signal_leaves_the_box :
  (fun s => (cs_minRssi s, cs_maxRssi s, map cp_y (cs_points s))) <$>
    buildSignal [{| rs_ts := "2026-08-16T03:48:00Z"; rs_rssi := of_Z (-120) |}; {| rs_ts := "2026-08-16T03:49:00Z"; rs_rssi := of_Z (-120) |}] =
  Some (of_Z (-110), of_Z (-115), [of_Z 11; of_Z 11]).
Proof. vm_compute. reflexivity. Qed.
