(* ===== verification/FlightFiles.v ===== *)
(** * Flight files: a flight rebuilt from its detections, and exported

    [features/tracks/flight-path.ts] rebuilds the flown path,
    [rssi-samples.ts] the signal's series, [track-export.ts] the files another
    tool opens.  Their CSV is read back by the RFC 4180 reader of [LogStore]. *)
From Stdlib Require Import ZArith Bool String Ascii List Lia Permutation Sorted.
From stdpp Require Import base option list strings pretty.
From S2P Require Import Prelude JsNumber JsDate JsString JsParse ApiTypes LogStore ShareCard.

(** ** The path *)

(** [Date.parse(a) - Date.parse(b) <= 0], NaN counting as 0. *)
Definition ts_le (a b : string) : bool :=
  match Date_parse a, Date_parse b with Some a, Some b => a - b <=? 0 | _, _ => true end.

Definition positioned (d : Detection) : option (Detection * DetectionPosition) := (fun p => (d, p)) <$> dt_position d.
Definition by_time (a b : Detection * DetectionPosition) : bool := ts_le (dt_ts a.1) (dt_ts b.1).
Definition flown (dp : Detection * DetectionPosition) : Position :=
  let '(d, p) := dp in {|
    ps_lat := dp_lat p; ps_lon := dp_lon p;
    ps_alt_geodetic_m := dp_alt_geodetic_m p; ps_height_agl_m := dp_height_agl_m p;
    ps_terrain_elevation_m := None;
    ps_speed_mps := dt_kinematics d ?. kn_speed_mps; ps_track_deg := dt_kinematics d ?. kn_track_deg;
    ps_at := Some (dt_ts d)
  |}.

Definition flightPath (detections : list Detection) (history : list Position) : list Position :=
  let fromDetections := map flown (sort_by by_time (omap positioned detections)) in
  if zlen history <? zlen fromDetections then fromDetections else history.

(** ** The signal *)
Definition sample_of (d : Detection) : option RssiSample :=
  (fun rssi => {| rs_ts := dt_ts d; rs_rssi := rssi |}) <$> (dt_rf d ?. rf_rssi_dbm).
Definition sample_le (a b : RssiSample) : bool := ts_le (rs_ts a) (rs_ts b).
Definition samplesFromDetections (detections : list Detection) : list RssiSample :=
  sort_by sample_le (omap sample_of detections).

(** The map of receivers, in order of first appearance. *)
Fixpoint push_sample (sensor : string) (s : RssiSample) (m : list (string * list RssiSample)) : list (string * list RssiSample) :=
  match m with
  | [] => [(sensor, [s])]
  | (k, l) :: m' => if k === sensor then (k, l ++ [s]) :: m' else (k, l) :: push_sample sensor s m'
  end.
Definition add_sample (m : list (string * list RssiSample)) (d : Detection) : list (string * list RssiSample) :=
  match sample_of d with Some s => push_sample (dt_sensor_id d) s m | None => m end.
Definition samplesByReceiver (detections : list Detection) : list (string * list RssiSample) :=
  map (fun e => (e.1, sort_by sample_le e.2)) (fold_left add_sample detections []).

(** ** The files *)
Definition csvField (value : string) : string :=
  if string_exists quoting value
  then String dquote (replaceAll dquote (String dquote (String dquote "")) value +:+ String dquote "")
  else value.

Definition num_cell (value : option num) : string := match value with Some v => num_string v | None => "" end.

Definition position_header : list string :=
  ["at"; "lat"; "lon"; "alt_geodetic_m"; "height_agl_m"; "speed_mps"; "track_deg"].
Definition position_row (p : Position) : string :=
  join (String comma "")
    [csvField (ps_at p ?? ""); num_string (ps_lat p); num_string (ps_lon p); num_cell (ps_alt_geodetic_m p);
     num_cell (ps_height_agl_m p); num_cell (ps_speed_mps p); num_cell (ps_track_deg p)].
Definition positionsCsv (history : list Position) : string :=
  join (String newline "") (join (String comma "") position_header :: map position_row history ++ [""]).

Definition rssi_row (s : RssiSample) : string := csvField (rs_ts s) +:+ "," +:+ num_string (rs_rssi s).
Definition rssiCsv (samples : list RssiSample) : string :=
  join (String newline "") (("at,rssi_dbm" : string) :: map rssi_row samples ++ [""]).

(** The GeoJSON document; [JSON.stringify] prints it. *)
Definition opt_str (s : option string) : json := match s with Some s => JStr s | None => JNull end.
Definition coordinates_of (p : Position) : json :=
  JArr (JNum (ps_lon p) :: JNum (ps_lat p) :: match ps_alt_geodetic_m p with Some a => [JNum a] | None => [] end).
Definition path_feature (track : Track) (history : list Position) : json :=
  JObj [("type", JStr "Feature");
        ("geometry", JObj [("type", JStr "LineString"); ("coordinates", JArr (map coordinates_of history))]);
        ("properties", JObj [
           ("track_id", JStr (tr_track_id track)); ("serial", opt_str (tr_identity track ?. ti_serial));
           ("vendor", opt_str (tr_identity track ?. ti_vendor)); ("state", JStr (TrackState_string (tr_state track)));
           ("first_seen", JStr (tr_first_seen track)); ("last_seen", JStr (tr_last_seen track));
           ("detection_count", JNum (of_Z (tr_detection_count track)))])].
Definition operator_feature (p : Position) : json :=
  JObj [("type", JStr "Feature");
        ("geometry", JObj [("type", JStr "Point"); ("coordinates", JArr [JNum (ps_lon p); JNum (ps_lat p)])]);
        ("properties", JObj [("role", JStr "operator")])].
Definition pathDocument (track : Track) (history : list Position) : json :=
  JObj [("type", JStr "FeatureCollection");
        ("features", JArr (path_feature track history ::
           match tr_operator track with Some p => [operator_feature p] | None => [] end))].
Definition pathGeoJson (stringify : json -> string) (track : Track) (history : list Position) : string :=
  stringify (pathDocument track history).

(** [/[^A-Za-z0-9._-]+/g] replaced by ["-"]. *)
Definition safe_char (c : ascii) : bool :=
  let n := N_of_ascii c in
  ((65 <=? n) && (n <=? 90) || (97 <=? n) && (n <=? 122) || (48 <=? n) && (n <=? 57)
   || (n =? 46) || (n =? 95) || (n =? 45))%N.
Fixpoint dashed (inside : bool) (s : string) : string :=
  match s with
  | EmptyString => ""
  | String c s' =>
      if safe_char c then String c (dashed false s')
      else if inside then dashed true s' else String "-" (dashed true s')
  end.
Definition exportBasename (track : Track) : string := "classg-track-" +:+ dashed false (title_of track).

(** ** Numbers print nothing a CSV reader minds *)

Lemma string_exists_app p s t : string_exists p (s +:+ t) = string_exists p s || string_exists p t.
Proof. induction s as [|c s IH]; [by rewrite sapp_nil|]. rewrite sapp_cons. cbn. by rewrite IH, orb_assoc. Qed.

Lemma clean_app s t : clean (s +:+ t) = clean s && clean t.
Proof. unfold clean. by rewrite string_exists_app, negb_orb. Qed.

Lemma clean_zeros n : clean (zeros n) = true.
Proof. induction n as [|n IH]; [done|]. cbn [zeros]. by rewrite clean_app, IH. Qed.

Lemma clean_substring i n s : clean s = true -> clean (substring i n s) = true.
Proof.
  revert i n. induction s as [|c s IH]; intros i n; [by destruct i, n|]. intros H.
  pose proof (clean_cons _ _ H) as (_ & _ & _ & Hs). destruct i as [|i]; [|by apply IH]. destruct n as [|n]; [done|].
  cbn [substring]. unfold clean in *. cbn [string_exists] in *. apply negb_true_iff, orb_false_elim in H as [Hc _].
  rewrite Hc. by apply IH.
Qed.

Lemma clean_digits s : all_digits s = true -> clean s = true.
Proof.
  induction s as [|c s IH]; [done|]. cbn. intros [Hc Hs]%andb_prop. unfold clean in *. cbn. rewrite negb_orb, IH by done.
  by each_char c.
Qed.

Lemma clean_pretty (z : Z) : clean (pretty z) = true.
Proof.
  assert (forall n, 0 <= n -> clean (pretty n) = true) as H by (intros n Hn; by apply clean_digits, pretty_Z_digits).
  destruct z as [|p|p]; [done|by apply H|]. change (clean ("-" +:+ pretty (Z.pos p)) = true). rewrite clean_app. by apply H.
Qed.

Lemma clean_decimal n d : clean (decimal n d) = true.
Proof.
  unfold decimal. destruct d as [|d]; [apply clean_pretty|]. unfold padStart.
  assert (clean (zeros (S (S d) - String.length (pretty n)) +:+ pretty n) = true) as H by by rewrite clean_app, clean_zeros, clean_pretty.
  by rewrite !clean_app, !clean_substring.
Qed.

Lemma clean_shortest fuel d m e : clean (shortest fuel d m e) = true.
Proof. revert d. induction fuel as [|fuel IH]; intros d; cbn [shortest]; [apply clean_decimal|]. destruct (neq _ _); [apply clean_decimal|apply IH]. Qed.

Lemma clean_num x : clean (num_string x) = true.
Proof. destruct x as [s|s| |s m e]; cbn [num_string]; [done|by destruct s|done|]. rewrite clean_app, clean_shortest. by destruct s. Qed.

Lemma clean_num_cell v : clean (num_cell v) = true.
Proof. destruct v; [apply clean_num|done]. Qed.

(** ** The files read back *)

Definition position_cells (p : Position) : list string :=
  [ps_at p ?? ""; num_string (ps_lat p); num_string (ps_lon p); num_cell (ps_alt_geodetic_m p);
   num_cell (ps_height_agl_m p); num_cell (ps_speed_mps p); num_cell (ps_track_deg p)].
Definition rssi_cells (s : RssiSample) : list string := [rs_ts s; num_string (rs_rssi s)].

Lemma csv_file_reads {A} (row : A -> string) (cells : A -> list string) header l :
  (forall x, cells x <> [] /\ exists cs, row x = join (String comma "") cs /\ Forall2 reads cs (cells x)) ->
  header <> [] -> List.forallb clean header = true ->
  csv_parse (join (String newline "") (join (String comma "") header :: map row l ++ [""])) = header :: map cells l ++ [[""]].
Proof.
  intros Hrow Hh Hc. apply csv_read_rows; [|done]. constructor.
  - split; [done|]. exists header. split; [done|]. rewrite forallb_forall in Hc. clear Hh.
    induction header as [|h hs IH]; constructor; [apply reads_clean, Hc; by left|]. apply IH. intros x Hx. apply Hc. by right.
  - apply Forall2_app.
    + induction l; constructor; auto.
    + constructor; [|constructor]. split; [done|]. exists [""]. split; [done|]. constructor; [by apply reads_clean|constructor].
Qed.

(** The exported tables read back: an RFC 4180 reader of the positions' file
    finds the header, a row per position with its instant whatever it holds, its
    numbers as printed and an empty cell for what was never reported, and the
    empty record of the final newline; so for the signal's file. *)
Lemma tables_read_back (history : list Position) (samples : list RssiSample) :
  csv_parse (positionsCsv history) = position_header :: map position_cells history ++ [[""]] /\
  csv_parse (rssiCsv samples) = ["at"; "rssi_dbm"] :: map rssi_cells samples ++ [[""]].
Proof.
  split.
  - apply csv_file_reads; [|done|done]. intros p. split; [done|]. eexists. split; [reflexivity|].
    repeat constructor; auto using reads_clean, clean_num, clean_num_cell. apply reads_escape.
  - apply (csv_file_reads rssi_row rssi_cells ["at"; "rssi_dbm"]); [|done|done]. intros s. split; [done|].
    exists [csvField (rs_ts s); num_string (rs_rssi s)]. split; [done|].
    repeat constructor; auto using reads_clean, clean_num. apply reads_escape.
Qed.

(** ** The name is safe *)
Lemma dashed_safe inside s : forallb safe_char (list_ascii_of_string (dashed inside s)) = true.
Proof.
  revert inside. induction s as [|c s IH]; intros inside; [done|]. cbn [dashed]. destruct (safe_char c) eqn:E.
  - cbn. by rewrite E, IH.
  - destruct inside; cbn; by rewrite IH.
Qed.

(** A file's name has only letters, digits, points, underscores and dashes. *)
Lemma basename_is_safe track : forallb safe_char (list_ascii_of_string (exportBasename track)) = true.
Proof.
  unfold exportBasename. assert (forall a b, list_ascii_of_string (a +:+ b) = list_ascii_of_string a ++ list_ascii_of_string b) as H.
  { intros a b. induction a as [|c a IH]; [by rewrite sapp_nil|]. rewrite sapp_cons. cbn. by rewrite IH. }
  rewrite H, forallb_app, dashed_safe. reflexivity.
Qed.

(** ** The path *)
Lemma flown_In detections p :
  In p (map flown (sort_by by_time (omap positioned detections))) <->
  exists d dp, In d detections /\ dt_position d = Some dp /\ p = flown (d, dp).
Proof.
  rewrite in_map_iff. setoid_rewrite sort_by_In. split.
  - intros ([d dp] & <- & Hin). apply list_elem_of_In, list_elem_of_omap in Hin as (d' & Hd & E).
    unfold positioned in E. destruct (dt_position d') as [q|] eqn:Eq; [|done]. cbn in E. injection E as -> ->.
    exists d, dp. apply list_elem_of_In in Hd. done.
  - intros (d & dp & Hin & E & ->). exists (d, dp). split; [done|]. apply list_elem_of_In, list_elem_of_omap. exists d.
    split; [by apply list_elem_of_In|]. unfold positioned. by rewrite E.
Qed.

(** The path is never shorter than the track's own history; unless it is that, it
    is the positions the detections recorded, in order of time. *)
Lemma flightPath_spec detections history :
  zlen history <= zlen (flightPath detections history) /\
  (flightPath detections history = history \/
   (forall p, In p (flightPath detections history) <-> exists d dp, In d detections /\ dt_position d = Some dp /\ p = flown (d, dp)) /\
   ((forall d, In d detections -> Date_parse (dt_ts d) <> None) ->
    StronglySorted (fun a b => exists x y, (ps_at a ≫= Date_parse) = Some x /\ (ps_at b ≫= Date_parse) = Some y /\ x <= y)
      (flightPath detections history))).
Proof.
  unfold flightPath. destruct (Z.ltb_spec (zlen history) (zlen (map flown (sort_by by_time (omap positioned detections))))) as [H|H];
    [|split; [done|by left]]. split; [lia|right]. split; [intros p; apply flown_In|]. intros Hd.
  set (P := fun a : Detection * DetectionPosition => Date_parse (dt_ts a.1) <> None).
  assert (List.Forall P (omap positioned detections)) as HP.
  { apply List.Forall_forall. intros [d dp] Hin. apply list_elem_of_In, list_elem_of_omap in Hin as (d' & Hd' & E).
    unfold positioned in E. destruct (dt_position d') as [q|]; [|done]. injection E as -> ->. by apply Hd, list_elem_of_In. }
  assert (StronglySorted (fun a b => by_time a b = true) (sort_by by_time (omap positioned detections))) as Hs.
  { apply (sort_by_sorted_on by_time P); [| |done]; unfold P, by_time, ts_le.
    - intros x y Hx Hy. destruct (Date_parse (dt_ts x.1)), (Date_parse (dt_ts y.1)); try done. rewrite !Z.leb_le. lia.
    - intros x y z Hx Hy Hz. destruct (Date_parse (dt_ts x.1)), (Date_parse (dt_ts y.1)), (Date_parse (dt_ts z.1)); try done.
      rewrite !Z.leb_le. lia. }
  assert (List.Forall P (sort_by by_time (omap positioned detections))) as HPs.
  { rewrite List.Forall_forall in *. intros x Hx. apply HP. by apply sort_by_In in Hx. }
  clear -Hs HPs. induction Hs as [|x l Hs IH Hf]; [constructor|]. inversion HPs as [|? ? Hx Hl]; subst. cbn [map]. constructor; [by apply IH|].
  rewrite List.Forall_forall in *. intros p (y & <- & Hy)%in_map_iff. specialize (Hf y Hy). specialize (Hl y Hy).
  unfold P, by_time, ts_le in *. destruct x as [d dp], y as [d' dp']. cbn [flown ps_at fst] in *.
  destruct (Date_parse (dt_ts d)) as [a|] eqn:Ea, (Date_parse (dt_ts d')) as [b|] eqn:Eb; try done.
  exists a, b. split_and!; [exact Ea|exact Eb|]. apply Z.leb_le in Hf. lia.
Qed.

(** A flight of one position is exported as a line of one position, which GeoJSON
    does not allow (a LineString has two or more). *)
Lemma line_of_one_position (track : Track) (p : Position) :
  tr_operator track = None ->
  exists props, pathDocument track [p] = JObj [("type", JStr "FeatureCollection"); ("features", JArr [JObj [
    ("type", JStr "Feature");
    ("geometry", JObj [("type", JStr "LineString"); ("coordinates", JArr [coordinates_of p])]);
    ("properties", props)]])].
Proof. intros H. unfold pathDocument. rewrite H. by eexists. Qed.
