(* ===== verification/FlightMotion.v ===== *)
(** * FlightMotion: speed along a flight, hovers, and replay

    [features/tracks/flight-speed.ts] and [features/tracks/flight-playback.ts].
    The memo of [datedPoints] is keyed by an array nobody writes to, so the
    function is the same with and without it and is modelled without. *)
From Stdlib Require Import ZArith Bool String Ascii List Lia Permutation Sorted Floats.SpecFloat.
From stdpp Require Import base option list strings.
From S2P Require Import Prelude JsNumber JsDate JsString ApiTypes LogStore FlightTime MapGeo.

(** ** flight-speed.ts *)

Definition pointMs (p : Position) : option Z :=
  match truthy (ps_at p) with Some s => Date_parse s | None => None end.

Definition reportedSpeed (p : Position) : option num :=
  match ps_speed_mps p with
  | Some speed => if is_finite speed && nge speed (of_Z 0) then Some speed else None
  | None => None
  end.

Definition isGap (from to : Position) : bool :=
  match pointMs from, pointMs to with
  | Some fromMs, Some toMs => TRAIL_GAP_MS <? toMs - fromMs
  | _, _ => false
  end.

(** A gap between two of the points from [start] to [end_]. *)
Definition gap_within (path : list Position) (start end_ : nat) : bool :=
  existsb (fun i => match path !! i, path !! S i with Some from, Some to => isGap from to | _, _ => false end)
    (seq start (end_ - start)).

(** The weight of point [i] between two points. *)
Definition weight (path : list Position) (start end_ i : nat) : num :=
  let startMs := path !! start ≫= pointMs in
  let endMs := path !! end_ ≫= pointMs in
  let byIndex := of_ratio (Z.of_nat (i - start)) (Z.of_nat (end_ - start)) in
  match startMs, endMs, path !! i ≫= pointMs with
  | Some s, Some e, Some ms => if 0 <? e - s then of_ratio (ms - s) (e - s) else byIndex
  | _, _, _ => byIndex
  end.

Definition between (startValue endValue t : num) : num := nadd startValue (nmul (nsub endValue startValue) t).

Definition fillBetween (path : list Position) (start end_ : nat) (out : list (option num)) : list (option num) :=
  if gap_within path start end_ then out
  else
    match out !! start, out !! end_ with
    | Some (Some startValue), Some (Some endValue) =>
        fold_left (fun out i => <[i := Some (between startValue endValue (weight path start end_ i))]> out)
          (seq (S start) (end_ - S start)) out
    | _, _ => out
    end.

(** One turn of the loop of [pointSpeeds]. *)
Definition speed_step (path : list Position) (reported : list (option num))
    (st : list (option num) * option nat) (i : nat) : list (option num) * option nat :=
  let '(out, previousKnown) := st in
  match reported !! i with
  | Some (Some _) =>
      (match previousKnown with
       | Some p => if (1 <? i - p)%nat then fillBetween path p i out else out
       | None => out
       end, Some i)
  | _ => st
  end.

Definition pointSpeeds (path : list Position) : list (option num) :=
  let reported := map reportedSpeed path in
  fst (fold_left (speed_step path reported) (seq 0 (List.length path)) (reported, None)).

Record PathSegment := {
  sg_from : Position;
  sg_to : Position;
  sg_speedMps : option num;
  sg_midMs : option num;
  sg_gap : bool
}.

Definition segment_at (path : list Position) (speeds : list (option num)) (i : nat) : option PathSegment :=
  match path !! i, path !! S i with
  | Some from, Some to =>
      let a := default None (speeds !! i) in
      let b := default None (speeds !! S i) in
      Some {| sg_from := from; sg_to := to;
              sg_speedMps :=
                if isGap from to then None
                else match a, b with
                     | Some a, Some b => Some (ndiv (nadd a b) (of_Z 2))
                     | Some a, None => Some a
                     | None, b => b
                     end;
              sg_midMs :=
                match pointMs from, pointMs to with
                | Some f, Some t => Some (of_ratio (f + t) 2)
                | Some f, None => Some (of_Z f)
                | None, t => of_Z <$> t
                end;
              sg_gap := isGap from to |}
  | _, _ => None
  end.

Definition pathSegments (path : list Position) : list PathSegment :=
  omap (segment_at path (pointSpeeds path)) (seq 0 (List.length path - 1)).

(** The loops that keep a smallest and a largest value. *)
Definition speedExtent (segments : list PathSegment) : option (num * num) :=
  fold_left (fun r s =>
    match sg_speedMps s, r with
    | None, _ => r
    | Some v, None => Some (v, v)
    | Some v, Some (lo, hi) => Some (nmin lo v, nmax hi v)
    end) segments None.

Definition timeExtent (path : list Position) : option (Z * Z) :=
  fold_left (fun r p =>
    match pointMs p, r with
    | None, _ => r
    | Some ms, None => Some (ms, ms)
    | Some ms, Some (lo, hi) => Some (Z.min lo ms, Z.max hi ms)
    end) path None.

Definition DWELL_MAX_SPEED_MPS : num := of_Z 1.
Definition DWELL_MIN_MS : Z := 10000.

Record Dwell := { dw_lat : num; dw_lon : num; dw_seconds : Z; dw_startMs : Z; dw_index : nat }.

Section Dwells.
Context (path : list Position) (maxSpeed : num) (minMs : Z).

(** The dwell a run of points makes, if it lasts. *)
Definition dwell_of (start end_ : nat) : option Dwell :=
  let run := take (end_ - start) (drop start path) in
  match run with
  | [] => None
  | first :: _ =>
      match pointMs first, pointMs (List.last run first) with
      | Some startMs, Some endMs =>
          if minMs <=? endMs - startMs
          then
            let mean f := ndiv (fold_left (fun s p => nadd s (f p)) run (of_Z 0)) (of_Z (zlen run)) in
            Some {| dw_lat := mean ps_lat; dw_lon := mean ps_lon; dw_seconds := round_div (endMs - startMs) 1000;
                    dw_startMs := startMs; dw_index := start |}
          else None
      | _, _ => None
      end
  end.

Definition flush (end_ : nat) (st : list Dwell * option nat) : list Dwell * option nat :=
  let '(dwells, runStart) := st in
  match runStart with
  | None => st
  | Some start => (dwells ++ option_list (dwell_of start end_), None)
  end.

Definition broken (i : nat) : bool :=
  match i with
  | O => false
  | S j => match path !! j, path !! i with Some previous, Some current => isGap previous current | _, _ => false end
  end.
Definition slow (i : nat) : bool :=
  match default None (pointSpeeds path !! i) with Some speed => nle speed maxSpeed | None => false end.

Definition dwell_step (st : list Dwell * option nat) (i : nat) : list Dwell * option nat :=
  let st := if broken i then flush i st else st in
  if slow i then match st with (dwells, None) => (dwells, Some i) | _ => st end else flush i st.

Definition dwellPoints : list Dwell :=
  fst (flush (List.length path) (fold_left dwell_step (seq 0 (List.length path)) ([], None))).
End Dwells.

(** ** flight-playback.ts *)

Definition playbackSpan : list Position -> option (Z * Z) := timeExtent.

Record PlaybackFrame := {
  pf_lat : num;
  pf_lon : num;
  pf_heightAglM : option num;
  pf_speedMps : option num;
  pf_trackDeg : option num;
  pf_atMs : num;
  pf_index : nat;
  pf_heard : bool
}.

Definition lerp (a b t : num) : num := nadd a (nmul (nsub b a) t).

Definition lerpDegrees (a b t : num) : num :=
  let delta := nsub (nmod (nadd (nsub b a) (of_Z 540)) (of_Z 360)) (of_Z 180) in
  nmod (nadd (nadd a (nmul delta t)) (of_Z 360)) (of_Z 360).

Definition finite (a : option num) : option num :=
  match a with Some x => if is_finite x then Some x else None | None => None end.

Definition optionalLerp (a b : option num) (t : num) : option num :=
  match finite a, finite b with
  | Some from, Some to => Some (lerp from to t)
  | Some from, None => Some from
  | None, to => to
  end.

Record Dated := { dd_position : Position; dd_ms : Z }.

Definition dated_le (a b : Dated) : bool := dd_ms a - dd_ms b <=? 0.

Definition datedPoints (path : list Position) : list Dated :=
  sort_by dated_le (omap (fun p => (fun ms => {| dd_position := p; dd_ms := ms |}) <$> pointMs p) path).

Definition frameOf (p : Position) (atMs : num) (index : nat) (heard : bool) : PlaybackFrame :=
  {| pf_lat := ps_lat p; pf_lon := ps_lon p; pf_heightAglM := ps_height_agl_m p; pf_speedMps := ps_speed_mps p;
     pf_trackDeg := ps_track_deg p; pf_atMs := atMs; pf_index := index; pf_heard := heard |}.

(** The loop halves [hi - lo], so that many steps are enough. *)
Fixpoint search (fuel : nat) (dated : list Dated) (atMs : num) (lo hi : nat) : nat * nat :=
  match fuel with
  | O => (lo, hi)
  | S fuel' =>
      if (1 <? hi - lo)%nat then
        let mid := Nat.div2 (lo + hi) in
        match dated !! mid with
        | None => (lo, hi)
        | Some entry =>
            if nle (of_Z (dd_ms entry)) atMs then search fuel' dated atMs mid hi
            else search fuel' dated atMs lo mid
        end
      else (lo, hi)
  end.

Definition frame_between (from to : Dated) (atMs : num) (lo : nat) : PlaybackFrame :=
  let span := dd_ms to - dd_ms from in
  let p := dd_position from in
  let p' := dd_position to in
  if TRAIL_GAP_MS <? span then frameOf p atMs lo false
  else
    let t := if 0 <? span then ndiv (nsub atMs (of_Z (dd_ms from))) (of_Z span) else of_Z 0 in
    {| pf_lat := lerp (ps_lat p) (ps_lat p') t;
       pf_lon := lerp (ps_lon p) (ps_lon p') t;
       pf_heightAglM := optionalLerp (ps_height_agl_m p) (ps_height_agl_m p') t;
       pf_speedMps := optionalLerp (ps_speed_mps p) (ps_speed_mps p') t;
       pf_trackDeg :=
         match ps_track_deg p, ps_track_deg p' with
         | Some a, Some b => Some (lerpDegrees a b t)
         | Some a, None => Some a
         | None, b => b
         end;
       pf_atMs := atMs; pf_index := lo; pf_heard := true |}.

Definition frameAt (path : list Position) (atMs : num) : option PlaybackFrame :=
  let dated := datedPoints path in
  match dated with
  | [] => None
  | first :: _ =>
      let last := List.last dated first in
      let top := (List.length dated - 1)%nat in
      if nle atMs (of_Z (dd_ms first)) then Some (frameOf (dd_position first) (of_Z (dd_ms first)) 0 true)
      else if nge atMs (of_Z (dd_ms last)) then Some (frameOf (dd_position last) (of_Z (dd_ms last)) top true)
      else
        let '(lo, hi) := search (List.length dated) dated atMs 0 top in
        match dated !! lo, dated !! hi with
        | Some from, Some to => Some (frame_between from to atMs lo)
        | _, _ => None
        end
  end.

Definition PLAYBACK_RATES : list Z := [1; 4; 10].

(** ** Speeds *)

Section Speeds.
Context (path : list Position).
Let n := List.length path.

(** Point [i] reports a speed of its own. *)
Definition reports (i : nat) : option num := path !! i ≫= reportedSpeed.

Lemma lookup_reported i : map reportedSpeed path !! i = reportedSpeed <$> path !! i.
Proof. apply list_lookup_fmap. Qed.

(** [a] and [b] are consecutive among the points that report a speed. *)
Definition consecutive (a b : nat) : Prop :=
  (a < b)%nat /\ is_Some (reports a) /\ is_Some (reports b) /\ forall j, (a < j < b)%nat -> reports j = None.

(** What a point between them is given. *)
Definition filled (a b j : nat) : option num :=
  if gap_within path a b then None
  else
    match reports a, reports b with
    | Some va, Some vb => Some (between va vb (weight path a b j))
    | _, _ => None
    end.

Lemma fold_insert_lookup (f : nat -> option num) ks out j :
  List.NoDup ks -> (forall i, In i ks -> (i < List.length out)%nat) ->
  fold_left (fun out i => <[i := f i]> out) ks out !! j = if existsb (Nat.eqb j) ks then Some (f j) else out !! j.
Proof.
  revert out. induction ks as [|i ks IH]; intros out Hn Hl; [done|]. inversion Hn as [|? ? Hi Hn']; subst. simpl.
  rewrite IH; [|done|].
  2: { intros k Hk. rewrite length_insert. apply Hl. by right. }
  destruct (Nat.eqb_spec j i) as [->|Hne]; simpl.
  - destruct (existsb _ ks) eqn:E.
    + apply existsb_exists in E as (k&Hk&<-%Nat.eqb_eq). done.
    + apply list_lookup_insert_eq. apply Hl. by left.
  - destruct (existsb _ ks); [done|]. by apply list_lookup_insert_ne.
Qed.

Lemma fillBetween_lookup a b out j :
  (b < List.length out)%nat -> out !! a = Some (reports a) -> out !! b = Some (reports b) ->
  is_Some (reports a) -> is_Some (reports b) ->
  fillBetween path a b out !! j =
  if (a <? j)%nat && (j <? b)%nat && negb (gap_within path a b) then Some (filled a b j) else out !! j.
Proof.
  intros Hb Ea Eb [va Ha] [vb Hvb]. unfold fillBetween, filled. rewrite Ea, Eb, Ha, Hvb.
  destruct (gap_within path a b); [by rewrite andb_false_r|]. rewrite andb_true_r.
  rewrite fold_insert_lookup; [|apply seq_NoDup | intros i Hi%in_seq; lia].
  replace (existsb (Nat.eqb j) (seq (S a) (b - S a))) with ((a <? j)%nat && (j <? b)%nat); [done|].
  apply eq_true_iff_eq. rewrite andb_true_iff, !Nat.ltb_lt, existsb_exists. split.
  - intros Hj. exists j. rewrite in_seq, Nat.eqb_refl. split; [lia | done].
  - intros (k&Hk%in_seq&->%Nat.eqb_eq). lia.
Qed.

(** The state of the loop before point [i]: reported speeds stand, the points
    between two reporting ones are filled, the others are still blank. *)
Record Filled (i : nat) (out : list (option num)) (prev : option nat) : Prop := {
  fi_length : List.length out = n;
  fi_prev : match prev with
            | Some p => (p < i)%nat /\ is_Some (reports p) /\ forall j, (p < j < i)%nat -> reports j = None
            | None => forall j, (j < i)%nat -> reports j = None
            end;
  fi_reported : forall j, is_Some (reports j) -> out !! j = Some (reports j);
  fi_filled : forall a b j, consecutive a b -> (b < i)%nat -> (a < j < b)%nat -> out !! j = Some (filled a b j);
  fi_blank : forall j, (j < n)%nat -> reports j = None ->
    match prev with Some p => (p < j)%nat | None => True end \/ (forall k, (k < j)%nat -> reports k = None) ->
    out !! j = Some None
}.

Lemma consecutive_unique a b a' : consecutive a b -> consecutive a' b -> a = a'.
Proof.
  intros (H1&[v Ha]&_&Hn) (H1'&[v' Ha']&_&Hn'). destruct (Nat.lt_trichotomy a a') as [H|[H|H]]; [|done|].
  - rewrite (Hn a') in Ha' by lia. done.
  - rewrite (Hn' a) in Ha by lia. done.
Qed.

Lemma filled_init : Filled 0 (map reportedSpeed path) None.
Proof.
  split.
  - apply length_map.
  - intros; lia.
  - intros j [v Hj]. rewrite lookup_reported. unfold reports in *. destruct (path !! j); [done | discriminate Hj].
  - intros; lia.
  - intros j Hj Hr _. rewrite lookup_reported. unfold reports in Hr. destruct (path !! j) eqn:E; [simpl in *; by rewrite Hr|].
    apply lookup_ge_None in E. unfold n in Hj. lia.
Qed.

(** A point that reports a speed closes the run since the one before it. *)
Lemma filled_known i out prev :
  (i < n)%nat -> Filled i out prev -> is_Some (reports i) ->
  Filled (S i)
    (match prev with Some p => if (1 <? i - p)%nat then fillBetween path p i out else out | None => out end) (Some i).
Proof.
  intros Hi [Hl Hp Hr Hf Hb] Hsome. destruct prev as [p|].
  2: { split; [done | split_and!; [lia | done | lia] | done | |].
    - intros a b j Hc Hbi Hj. destruct (decide (b = i)) as [->|]; [|apply (Hf a b j); [done | lia | done]].
      destruct Hc as (Hab&[v Ha]&_). by rewrite Hp in Ha.
    - intros j Hj Hn _. apply Hb; auto. }
  destruct Hp as (Hpi&Hps&Hnone). assert (consecutive p i) as Hc by done.
  assert (forall j, (if (1 <? i - p)%nat then fillBetween path p i out else out) !! j =
    if (p <? j)%nat && (j <? i)%nat && negb (gap_within path p i) then Some (filled p i j) else out !! j) as E.
  { intros j. destruct (Nat.ltb_spec 1 (i - p)) as [_|Hle].
    - apply fillBetween_lookup; auto. by rewrite Hl.
    - destruct (Nat.ltb_spec p j), (Nat.ltb_spec j i); try done. lia. }
  split; setoid_rewrite E || idtac.
  - destruct (1 <? i - p)%nat; [|done]. unfold fillBetween. destruct (gap_within path p i); [done|].
    rewrite (Hr p), (Hr i) by done. destruct Hps as [vp ->], Hsome as [vi ->].
    generalize (seq (S p) (i - S p)) as ks. intros ks. revert Hl. clear. revert out.
    induction ks as [|k ks IH]; intros out Hl; [done|]. simpl. apply IH. by rewrite length_insert.
  - split_and!; [lia | done | lia].
  - intros j Hj. destruct (Nat.ltb_spec p j), (Nat.ltb_spec j i); simpl; auto.
    rewrite Hnone in Hj by lia. by destruct Hj.
  - intros a b j Hab Hbi Hj. destruct (decide (b = i)) as [->|Hne].
    + assert (a = p) as -> by by apply (consecutive_unique a i p).
      destruct (Nat.ltb_spec p j), (Nat.ltb_spec j i); try lia. simpl.
      destruct (gap_within path p i) eqn:Eg; [|done]. unfold filled. rewrite Eg. simpl.
      apply Hb; [lia | apply Hnone; lia | left; lia].
    + assert (b <= p)%nat.
      { destruct (Nat.le_gt_cases b p); [done|]. destruct Hab as (_&_&[v Hv]&_). by rewrite Hnone in Hv by lia. }
      destruct (Nat.ltb_spec p j); [lia|]. simpl. apply (Hf a b j); [done | lia | done].
  - intros j Hj Hn Hor. assert (~ (p < j < i)%nat) as Hnot.
    { intros Hj'. destruct Hor as [|Hor]; [lia|]. destruct Hps as [v Hv]. by rewrite Hor in Hv by lia. }
    destruct (Nat.ltb_spec p j), (Nat.ltb_spec j i); try lia; simpl; apply Hb; auto.
    destruct Hor; [lia | auto].
Qed.

Lemma filled_step i out prev :
  (i < n)%nat -> Filled i out prev ->
  let '(out', prev') := speed_step path (map reportedSpeed path) (out, prev) i in Filled (S i) out' prev'.
Proof.
  intros Hi HF. unfold speed_step. rewrite lookup_reported.
  assert (reportedSpeed <$> path !! i = Some (reports i)) as ->.
  { unfold reports. destruct (path !! i) eqn:E; [done|]. apply lookup_ge_None in E. unfold n in Hi. lia. }
  destruct (reports i) as [v|] eqn:Ei; [apply filled_known; [done.. | by exists v]|].
  destruct HF as [Hl Hp Hr Hf Hb]. split; [done | | done | | done].
  - destruct prev as [p|].
    + destruct Hp as (H1&H2&H3). split_and!; [lia | done|]. intros j Hj.
      destruct (decide (j = i)) as [->|]; [done | apply H3; lia].
    + intros j Hj. destruct (decide (j = i)) as [->|]; [done | apply Hp; lia].
  - intros a b j Hc Hbi. assert (b <> i) by (intros ->; destruct Hc as (_&_&[v Hv]&_); congruence).
    apply Hf; [done | lia].
Qed.

Lemma filled_all : exists prev, Filled n (pointSpeeds path) prev.
Proof.
  unfold pointSpeeds. fold n.
  assert (forall k, (k <= n)%nat ->
    let '(out, prev) := fold_left (speed_step path (map reportedSpeed path)) (seq 0 k) (map reportedSpeed path, None) in
    Filled k out prev) as H.
  { induction k as [|k IH]; intros Hk; [apply filled_init|]. rewrite seq_S, fold_left_app. simpl.
    specialize (IH ltac:(lia)). destruct (fold_left _ _ _) as [out prev]. by apply filled_step. }
  specialize (H n (le_n n)). destruct (fold_left _ _ _) as [out prev]. by exists prev.
Qed.
End Speeds.

(** What the map hatches as a gap is what no speed is interpolated across. *)
Lemma isGap_gap_between from to : isGap from to = true <-> gap_between from to <> None.
Proof.
  unfold isGap, gap_between, pointMs. destruct (truthy (ps_at from)) as [a|], (truthy (ps_at to)) as [b|]; try done.
  - destruct (Date_parse a), (Date_parse b); try done. by destruct (TRAIL_GAP_MS <? _).
  - by destruct (Date_parse a).
Qed.

(** Each point of the route has the speed it reported; between two points
    that report one the speed is interpolated in time, unless reception was lost
    anywhere in between, and then there is none; before the first report and
    after the last there is none: nothing is extrapolated. *)
Lemma speeds_are_reported_or_between path :
  let speeds := pointSpeeds path in
  List.length speeds = List.length path /\
  (forall j v, reports path j = Some v -> speeds !! j = Some (Some v)) /\
  (forall a b j, consecutive path a b -> (a < j < b)%nat -> speeds !! j = Some (filled path a b j)) /\
  (forall j, (j < List.length path)%nat -> reports path j = None ->
    (forall k, (k < j)%nat -> reports path k = None) \/ (forall k, (j < k)%nat -> reports path k = None) ->
    speeds !! j = Some None).
Proof.
  intros speeds. destruct (filled_all path) as (prev&[Hl Hp Hr Hf Hb]). split_and!; [done | | |].
  - intros j v Hj. rewrite <- Hj. apply Hr. by exists v.
  - intros a b j Hc Hj. apply Hf; [done | | done]. destruct Hc as (_&_&[v Hv]&_). unfold reports in Hv.
    destruct (path !! b) eqn:E; [by apply lookup_lt_Some in E | done].
  - intros j Hj Hn [Hbefore|Hafter]; apply Hb; auto. left. destruct prev as [p|]; [|done].
    destruct Hp as (_&[v Hv]&_). destruct (Nat.lt_trichotomy p j) as [|[->|]]; [done | congruence|].
    by rewrite Hafter in Hv.
Qed.

(** ** Hovers *)

Section Runs.
Context (path : list Position) (maxSpeed : num) (minMs : Z).
Let n := List.length path.

(** A maximal run of slow points with no gap inside. *)
Record Run (s e : nat) : Prop := {
  rn_range : (s < e <= n)%nat;
  rn_slow : forall i, (s <= i < e)%nat -> slow path maxSpeed i = true;
  rn_unbroken : forall i, (s < i < e)%nat -> broken path i = false;
  rn_first : s = O \/ slow path maxSpeed (s - 1) = false \/ broken path s = true;
  rn_last : e = n \/ slow path maxSpeed e = false \/ broken path e = true
}.

(** Two runs with a point in common are one. *)
Lemma run_start s s' e : Run s e -> Run s' e -> s = s'.
Proof.
  assert (forall a b, Run a e -> Run b e -> ~ (a < b)%nat) as H.
  { intros a b [Ha Hs Hu _ _] [Hb _ _ Hf _] Hlt. destruct Hf as [->|[Hf|Hf]]; [lia | |].
    - rewrite Hs in Hf by lia. done.
    - rewrite Hu in Hf by lia. done. }
  intros H1 H2. pose proof (H s s' H1 H2). pose proof (H s' s H2 H1). lia.
Qed.

(** The loop before point [i]: [open] is the start of the run it is in, and the
    runs that ended before [i] are listed. *)
Record Runs (i : nat) (runs : list (nat * nat)) (open : option nat) : Prop := {
  rs_open : match open with
            | Some s => (s < i)%nat /\ (forall j, (s <= j < i)%nat -> slow path maxSpeed j = true) /\
                (forall j, (s < j < i)%nat -> broken path j = false) /\
                (s = O \/ slow path maxSpeed (s - 1) = false \/ broken path s = true)
            | None => i = O \/ slow path maxSpeed (i - 1) = false
            end;
  rs_listed : forall s e, In (s, e) runs <-> Run s e /\ (e < i)%nat;
  rs_sorted : StronglySorted (fun r r' => (fst r < fst r')%nat) runs
}.

(** Closing what is open at [i] lists the run that ends there, if one does. *)
Definition close (i : nat) (open : option nat) : list (nat * nat) :=
  match open with Some s => [(s, i)] | None => [] end.

Lemma close_run i runs open :
  Runs i runs open -> (i <= n)%nat -> i = n \/ slow path maxSpeed i = false \/ broken path i = true ->
  (forall s e, In (s, e) (runs ++ close i open) <-> Run s e /\ (e <= i)%nat) /\
  StronglySorted (fun r r' => (fst r < fst r')%nat) (runs ++ close i open).
Proof.
  intros [Ho Hl Hs] Hi Hend. destruct open as [s|]; simpl.
  - destruct Ho as (Hsi&Hslow&Hu&Hf). assert (Run s i) as Hrun by (split; [lia | done..]). split.
    + intros s' e. rewrite in_app_iff, Hl. simpl. split.
      * intros [[H1 H2]|[[= <- <-]|[]]]; [split; [done | lia] | done].
      * intros [H1 H2]. destruct (decide (e = i)) as [->|]; [|left; split; [done | lia]].
        right. left. f_equal. by apply (run_start _ _ i).
    + assert (forall r, In r runs -> (fst r < s)%nat) as Hlt.
      { intros [s' e] [Hr He]%Hl. simpl. destruct (Nat.lt_trichotomy s' s) as [|[->|Hgt]]; [done | exfalso.. ].
        - destruct (rn_last _ _ Hr) as [?|[Hx|Hx]]; [lia | |].
          + rewrite Hslow in Hx; [done|]. destruct (rn_range _ _ Hr). lia.
          + rewrite Hu in Hx; [done|]. destruct (rn_range _ _ Hr). lia.
        - destruct (rn_range _ _ Hr). destruct (rn_first _ _ Hr) as [?|[Hx|Hx]]; [lia | |].
          + rewrite Hslow in Hx; [done | lia].
          + rewrite Hu in Hx; [done | lia]. }
      clear -Hs Hlt. induction Hs as [|r runs Hs IH Hall]; simpl; [repeat constructor|].
      constructor; [apply IH; intros; apply Hlt; by right|].
      apply List.Forall_app. split; [done|]. constructor; [apply Hlt; by left | done].
  - rewrite app_nil_r. split; [|done]. intros s e. rewrite Hl. split; [intros [? ?]; split; [done | lia]|].
    intros [Hr He]. split; [done|]. destruct (decide (e = i)) as [->|]; [|lia]. exfalso.
    destruct (rn_range _ _ Hr). destruct Ho as [->|Ho]; [lia|]. rewrite (rn_slow _ _ Hr) in Ho; [done | lia].
Qed.

Lemma no_run_end i s : (i < n)%nat -> slow path maxSpeed i = true -> broken path i = false -> ~ Run s i.
Proof. intros Hi Hs Hb Hr. destruct (rn_last _ _ Hr) as [?|[?|?]]; [lia | congruence..]. Qed.

(** The loop on runs: what [dwell_step] does, before it asks how long they last. *)
Definition run_step (st : list (nat * nat) * option nat) (i : nat) : list (nat * nat) * option nat :=
  let '(runs, open) := if broken path i then (fst st ++ close i (snd st), None) else st in
  if slow path maxSpeed i then (runs, Some (default i open)) else (runs ++ close i open, None).

Lemma run_step_ok i runs open :
  (i < n)%nat -> Runs i runs open ->
  let '(runs', open') := run_step (runs, open) i in Runs (S i) runs' open'.
Proof.
  intros Hi HR. unfold run_step. simpl. destruct (broken path i) eqn:Eb, (slow path maxSpeed i) eqn:Es; simpl.
  - destruct (close_run i runs open HR) as [Hl Hs]; [lia | auto|]. split; [| |done].
    + split_and!; [lia | intros j Hj; by replace j with i by lia | intros; lia | auto].
    + intros s e. rewrite Hl. intuition lia.
  - destruct (close_run i runs open HR) as [Hl Hs]; [lia | auto|]. rewrite app_nil_r. split; [| |done].
    + right. by replace (S i - 1)%nat with i by lia.
    + intros s e. rewrite Hl. intuition lia.
  - destruct HR as [Ho Hl Hs]. split; [| |done].
    + destruct open as [s|]; simpl.
      * destruct Ho as (H1&H2&H3&H4). split_and!; [lia | | | done].
        -- intros j Hj. destruct (decide (j = i)) as [->|]; [done | apply H2; lia].
        -- intros j Hj. destruct (decide (j = i)) as [->|]; [done | apply H3; lia].
      * split_and!; [lia | intros j Hj; by replace j with i by lia | intros; lia | tauto].
    + intros s e. rewrite Hl. split; intros [Hr He]; (split; [done|]); [lia|].
      destruct (decide (e = i)) as [->|]; [by destruct (no_run_end i s Hi Es Eb) | lia].
  - destruct (close_run i runs open HR) as [Hl Hs]; [lia | auto|]. split; [| |done].
    + right. by replace (S i - 1)%nat with i by lia.
    + intros s e. rewrite Hl. intuition lia.
Qed.

Definition dwells_of (runs : list (nat * nat)) : list Dwell := omap (fun '(s, e) => dwell_of path minMs s e) runs.

Lemma dwells_of_app r r' : dwells_of (r ++ r') = dwells_of r ++ dwells_of r'.
Proof. apply omap_app. Qed.

Lemma flush_close i runs open :
  flush path minMs i (dwells_of runs, open) = (dwells_of (runs ++ close i open), None).
Proof.
  rewrite dwells_of_app. destruct open as [s|]; simpl; [|by rewrite app_nil_r].
  unfold dwells_of at 2. simpl. by destruct (dwell_of path minMs s i).
Qed.

Lemma dwell_step_runs i runs open :
  dwell_step path maxSpeed minMs (dwells_of runs, open) i =
  let '(runs', open') := run_step (runs, open) i in (dwells_of runs', open').
Proof.
  unfold dwell_step, run_step. cbn [fst snd]. destruct (broken path i).
  - rewrite flush_close. destruct (slow path maxSpeed i); [done|]. simpl. by rewrite app_nil_r.
  - destruct (slow path maxSpeed i); [by destruct open | apply flush_close].
Qed.

Lemma dwellPoints_runs : exists runs, dwellPoints path maxSpeed minMs = dwells_of runs /\
  (forall s e, In (s, e) runs <-> Run s e) /\ StronglySorted (fun r r' => (fst r < fst r')%nat) runs.
Proof.
  assert (forall k, (k <= n)%nat -> exists runs open, Runs k runs open /\
    fold_left (dwell_step path maxSpeed minMs) (seq 0 k) ([], None) = (dwells_of runs, open)) as H.
  { induction k as [|k IH]; intros Hk.
    - exists [], None. split; [|done]. split; [by left | | constructor]. intros s e. split; [intros [] | intros [_ H]; lia].
    - destruct IH as (runs&open&HR&E); [lia|]. rewrite seq_S, fold_left_app, E, Nat.add_0_l. cbn [fold_left].
      rewrite dwell_step_runs. pose proof (run_step_ok k runs open Hk HR) as H.
      destruct (run_step (runs, open) k) as [runs' open']. by exists runs', open'. }
  destruct (H n (le_n n)) as (runs&open&HR&E). unfold dwellPoints. fold n. rewrite E, flush_close.
  exists (runs ++ close n open). destruct (close_run n runs open HR) as [Hl Hs]; [done | auto|].
  split_and!; [done | | done]. intros s e. rewrite Hl. split; [tauto|]. intros Hr. split; [done|]. apply (rn_range _ _ Hr).
Qed.
End Runs.

(** The hovers of a flight are its maximal runs of slow points without a
    gap in reception, in order, one entry for each run that has dated ends and
    lasts long enough: every run is considered once, none is split, none joins
    points on two sides of a gap. *)
Lemma hovers_are_the_slow_runs path maxSpeed minMs :
  exists runs, dwellPoints path maxSpeed minMs = dwells_of path minMs runs /\
    (forall s e, In (s, e) runs <-> Run path maxSpeed s e) /\
    StronglySorted (fun r r' => (fst r < fst r')%nat) runs.
Proof. apply dwellPoints_runs. Qed.

(** ** Replay *)

Lemma dated_sorted path : StronglySorted (fun a b => dated_le a b = true) (datedPoints path).
Proof. apply sort_by_sorted; unfold dated_le; intros *; rewrite !Z.leb_le; lia. Qed.

(** Where the search ends: neighbours on two sides of the instant. *)
Lemma search_spec fuel dated atMs lo hi :
  (lo < hi < List.length dated)%nat -> (hi - lo <= fuel)%nat ->
  (forall d, dated !! lo = Some d -> nle (of_Z (dd_ms d)) atMs = true) ->
  (forall d, dated !! hi = Some d -> nle (of_Z (dd_ms d)) atMs = false) ->
  let '(lo', hi') := search fuel dated atMs lo hi in
  hi' = S lo' /\ (hi' < List.length dated)%nat /\
  (forall d, dated !! lo' = Some d -> nle (of_Z (dd_ms d)) atMs = true) /\
  (forall d, dated !! hi' = Some d -> nle (of_Z (dd_ms d)) atMs = false).
Proof.
  revert lo hi. induction fuel as [|fuel IH]; intros lo hi Hr Hf Hlo Hhi; [lia|]. cbn [search].
  destruct (Nat.ltb_spec 1 (hi - lo)) as [Hd|Hd]; [|split_and!; [lia | lia | done | done]].
  pose proof (Nat.div2_odd (lo + hi)) as Hm. set (mid := Nat.div2 (lo + hi)) in *.
  assert (lo < mid < hi)%nat as Hmid by (destruct (Nat.odd (lo + hi)); simpl in Hm; lia). clear Hm.
  destruct (lookup_lt_is_Some_2 dated mid) as [entry Ee]; [lia|]. rewrite Ee.
  destruct (nle (of_Z (dd_ms entry)) atMs) eqn:En; apply IH; try lia; try done.
  - intros d Ed. congruence.
  - intros d Ed. congruence.
Qed.

Lemma last_lookup {A} (x d : A) l : (x :: l) !! List.length l = Some (List.last (x :: l) d).
Proof. revert x. induction l as [|y l IH]; intros x; [done|]. apply (IH y). Qed.

(** The fix a frame is drawn from: before the first and after the last those;
    between, the last one at or before the instant. *)
Definition drawn_from (dated : list Dated) (atMs : num) (i : nat) (d : Dated) : Prop :=
  dated !! i = Some d /\
  (i = O /\ nle atMs (of_Z (dd_ms d)) = true \/
   S i = List.length dated /\ nle (of_Z (dd_ms d)) atMs = true \/
   exists d', dated !! S i = Some d' /\ nle (of_Z (dd_ms d)) atMs = true /\ nle (of_Z (dd_ms d')) atMs = false).

(** The instant, past the first fix, lies between fix [d], the [i]th, and a next
    one further away than the gap. *)
Definition in_silence (dated : list Dated) (atMs : num) (i : nat) (d : Dated) : Prop :=
  (i = O -> nle atMs (of_Z (dd_ms d)) = false) /\
  exists d', dated !! S i = Some d' /\ nle (of_Z (dd_ms d')) atMs = false /\ TRAIL_GAP_MS < dd_ms d' - dd_ms d.

Lemma not_nle_left a z : is_nan a = false -> nle a (of_Z z) = false -> nle (of_Z z) a = true.
Proof. intros Ha E. destruct (nle_total a (of_Z z)); [done | apply of_Z_not_nan | congruence | done]. Qed.

(** The replay shows, at every instant, the flight between the two fixes
    around that instant, clamped to its ends, and it says so when nothing was
    heard: there is a frame exactly when some fix is dated, it is drawn from the
    last fix at or before the instant (the first before them all), it is marked
    unheard exactly when the instant lies in a silence longer than the gap, and
    an unheard frame stays on the last fix, reading for reading.  The binary
    search ends and finds the place. *)
Lemma replay_holds_when_unheard path atMs (Hat : is_nan atMs = false) :
  let dated := datedPoints path in
  match frameAt path atMs with
  | None => dated = []
  | Some f => exists d, drawn_from dated atMs (pf_index f) d /\
      (pf_heard f = false <-> in_silence dated atMs (pf_index f) d) /\
      (pf_heard f = false -> f = frameOf (dd_position d) atMs (pf_index f) false)
  end.
Proof.
  intros dated. unfold frameAt. fold dated. clearbody dated. destruct dated as [|first rest]; [done|].
  pose proof (last_lookup first first rest) as Elast. set (l := first :: rest) in *.
  set (last := List.last l first) in *. replace (List.length l - 1)%nat with (List.length rest) by (simpl; lia).
  assert (List.length l = S (List.length rest)) as El by done.
  destruct (nle atMs (of_Z (dd_ms first))) eqn:E1.
  { exists first. cbn [frameOf pf_index pf_heard]. split_and!; [split; [done | by left] | | done].
    split; [done|]. intros [H _]. specialize (H eq_refl). congruence. }
  apply not_nle_left in E1 as E1'; [|done].
  change (nge atMs (of_Z (dd_ms last))) with (nle (of_Z (dd_ms last)) atMs).
  destruct (nle (of_Z (dd_ms last)) atMs) eqn:E2.
  { exists last. cbn [frameOf pf_index pf_heard]. split_and!; [split; [done | by right; left] | | done].
    split; [done|]. intros (_&d'&Hd'%lookup_lt_Some&_). lia. }
  pose proof (search_spec (List.length l) l atMs 0 (List.length rest)) as Hs.
  destruct (search _ l atMs 0 _) as [lo hi]. destruct Hs as (->&Hhi&Hlo&Hup); [|lia|..].
  - split; [|lia]. destruct rest; [|simpl; lia]. unfold last, l in E2. simpl in E2. congruence.
  - intros d Hd. by injection Hd as <-.
  - intros d Hd. rewrite Elast in Hd. by injection Hd as <-.
  - destruct (lookup_lt_is_Some_2 l lo) as [d Ed]; [lia|]. destruct (lookup_lt_is_Some_2 l (S lo)) as [d' Ed']; [lia|].
    rewrite Ed, Ed'. specialize (Hlo d Ed). specialize (Hup d' Ed').
    exists d. unfold frame_between. destruct (Z.ltb_spec TRAIL_GAP_MS (dd_ms d' - dd_ms d)) as [Hg|Hg];
      cbn [frameOf pf_index pf_heard]; (split_and!; [split; [done | right; right; by exists d'] | | done]).
    + split; [|done]. intros _. split; [|by exists d']. intros ->. injection Ed as <-. done.
    + split; [done|]. intros (_&d''&Ed''&_&H). rewrite Ed' in Ed''. injection Ed'' as <-. lia.
Qed.

Definition a_fix (at_ : string) (speed : option num) : Position :=
  {| ps_lat := of_Z 55; ps_lon := of_Z 12; ps_alt_geodetic_m := None; ps_height_agl_m := None;
     ps_terrain_elevation_m := None; ps_speed_mps := speed; ps_track_deg := None; ps_at := Some at_ |}.
(** Two fixes, a silence of a minute and a half, two more. *)
Definition silent_flight : list Position :=
  [a_fix "2026-09-15T03:00:00Z" (Some (of_Z 0)); a_fix "2026-09-15T03:00:20Z" None;
   a_fix "2026-09-15T03:01:50Z" (Some (of_Z 4)); a_fix "2026-09-15T03:02:00Z" None;
   a_fix "2026-09-15T03:02:10Z" (Some (of_Z 8))].

Lemma replay_holds_when_unheard_witness :
  match frameAt silent_flight (of_Z 1789441260000) with
  | Some f => exists d, drawn_from (datedPoints silent_flight) (of_Z 1789441260000) (pf_index f) d
  | None => False
  end.
Proof.
  pose proof (replay_holds_when_unheard silent_flight (of_Z 1789441260000) eq_refl) as H.
  destruct (frameAt silent_flight (of_Z 1789441260000)) as [f|] eqn:E.
  - destruct H as (d&H&_). exists d. exact H.
  - vm_compute in E. discriminate E.
Defined.

Example held : pf_heard <$> frameAt silent_flight (of_Z 1789441260000) = Some false /\
  pf_index <$> frameAt silent_flight (of_Z 1789441260000) = Some 1%nat.
Proof. vm_compute. auto. Qed.

Example silent_speeds : pointSpeeds silent_flight = [Some (of_Z 0); None; Some (of_Z 4); Some (of_Z 6); Some (of_Z 8)].
Proof. vm_compute. reflexivity. Qed.
