(* ===== verification/PathColour.v ===== *)
(** * Path colour: the detail map's shaded route, and what is selected

    [features/map/path-colour.ts] turns a path into shaded segments, gaps and
    hovers; [features/map/selection.ts] holds the one contact the live view has
    selected. *)
From Stdlib Require Import ZArith Bool String Ascii List Lia Floats.SpecFloat.
From stdpp Require Import base option list strings pretty.
From S2P Require Import Prelude JsNumber ApiTypes FlightMotion.

Inductive PathColourMode := mode_speed | mode_time | mode_none.
#[export] Instance PathColourMode_eq_dec : EqDecision PathColourMode.
Proof. solve_decision. Defined.

Definition PATH_COLOUR_MODES : list PathColourMode := [mode_speed; mode_time; mode_none].
Definition PATH_COLOUR_LABELS (m : PathColourMode) : string :=
  match m with mode_speed => "Speed" | mode_time => "Time" | mode_none => "None" end.

(** A segment's feature: its id, properties and ends as [lon, lat]. *)
Record SegmentFeature := {
  fe_id : nat;
  fe_gap : bool;
  fe_known : bool;
  fe_value : num;
  fe_speed : option num;
  fe_ends : (num * num) * (num * num)
}.
Record DwellFeature := { df_id : nat; df_seconds : Z; df_startMs : Z; df_at : num * num }.

Record ColouredPath := {
  pc_mode : PathColourMode;
  pc_segments : list SegmentFeature;
  pc_dwells : list DwellFeature;
  pc_extent : option (num * num);
  pc_unknownSegments : Z
}.

Definition normalise (value : num) (extent : num * num) : num :=
  let span := nsub extent.2 extent.1 in
  if nle span (of_Z 0) then of_Z 1
  else nmin (of_Z 1) (nmax (of_Z 0) (ndiv (nsub value extent.1) span)).

Definition extent_of (path : list Position) (mode : PathColourMode) (segments : list PathSegment) : option (num * num) :=
  match mode with
  | mode_speed => speedExtent segments
  | mode_time => (fun e => (of_Z e.1, of_Z e.2)) <$> timeExtent path
  | mode_none => None
  end.

Definition raw_of (mode : PathColourMode) (segment : PathSegment) : option num :=
  match mode with mode_speed => sg_speedMps segment | mode_time => sg_midMs segment | mode_none => None end.

Definition value_of (mode : PathColourMode) (extent : option (num * num)) (segment : PathSegment) : option num :=
  match sg_gap segment, extent, raw_of mode segment with
  | false, Some extent, Some raw => Some (normalise raw extent)
  | _, _, _ => None
  end.

Definition lon_lat (p : Position) : num * num := (ps_lon p, ps_lat p).

Definition feature_of (mode : PathColourMode) (extent : option (num * num)) (index : nat) (segment : PathSegment) : SegmentFeature :=
  let value := value_of mode extent segment in {|
    fe_id := index;
    fe_gap := sg_gap segment;
    fe_known := match value with Some _ => true | None => false end;
    fe_value := value ?? of_Z 0;
    fe_speed := sg_speedMps segment;
    fe_ends := (lon_lat (sg_from segment), lon_lat (sg_to segment))
  |}.

Definition is_unknown (mode : PathColourMode) (extent : option (num * num)) (segment : PathSegment) : bool :=
  bool_decide (mode <> mode_none) && negb (sg_gap segment) && match value_of mode extent segment with Some _ => false | None => true end.

Definition dwell_feature (index : nat) (d : Dwell) : DwellFeature :=
  {| df_id := index; df_seconds := dw_seconds d; df_startMs := dw_startMs d; df_at := (dw_lon d, dw_lat d) |}.

Definition colouredPath (path : list Position) (mode : PathColourMode) : ColouredPath :=
  match pathSegments path with
  | [] => {| pc_mode := mode; pc_segments := []; pc_dwells := []; pc_extent := None; pc_unknownSegments := 0 |}
  | segments =>
      let extent := extent_of path mode segments in
      {| pc_mode := mode;
         pc_segments := imap (feature_of mode extent) segments;
         pc_dwells := match mode with
                      | mode_speed => imap dwell_feature (dwellPoints path DWELL_MAX_SPEED_MPS DWELL_MIN_MS)
                      | _ => []
                      end;
         pc_extent := extent;
         pc_unknownSegments := fold_left (fun n s => if is_unknown mode extent s then n + 1 else n) segments 0 |}
  end.

Definition RAMP_STEPS : Z := 5.
Definition rampMixExpressions (dimToken brightToken : string) : list string :=
  map (fun i =>
    let percent := round_Z (nmul (ndiv (of_Z (Z.of_nat i)) (of_Z (RAMP_STEPS - 1))) (of_Z 100)) ?? 0 in
    "color-mix(in oklch, " +:+ brightToken +:+ " " +:+ pretty percent +:+ "%, " +:+ dimToken +:+ ")")
    (seq 0 (Z.to_nat RAMP_STEPS)).

(** ** What is shaded *)

Lemma normalise_unit value extent :
  is_nan (normalise value extent) = false ->
  nle (of_Z 0) (normalise value extent) = true /\ nle (normalise value extent) (of_Z 1) = true.
Proof.
  unfold normalise. destruct (nle (nsub extent.2 extent.1) (of_Z 0)); [done|].
  set (x := ndiv (nsub value extent.1) (nsub extent.2 extent.1)). intros Hn.
  assert (is_nan x = false) as Hx by by destruct x.
  destruct (nmax_cases (of_Z 0) x eq_refl Hx) as (H & _). destruct (nle_not_nan _ _ H) as [_ Hm].
  destruct (nmin_cases (of_Z 1) (nmax (of_Z 0) x) eq_refl Hm) as (H1 & _ & H2). split; [by apply H2|exact H1].
Qed.

Lemma count_fold {A} (p : A -> bool) l k :
  fold_left (fun n s => if p s then n + 1 else n) l k = k + Z.of_nat (List.length (List.filter p l)).
Proof. revert k. induction l as [|x l IH]; intros k; cbn; [lia|]. rewrite IH. destruct (p x); cbn [List.length]; lia. Qed.

Lemma map_imap_flat {A B C} (f : B -> C) (g : nat -> A -> B) (h : A -> C) l :
  (forall i x, f (g i x) = h x) -> map f (imap g l) = map h l.
Proof.
  revert g. induction l as [|x l IH]; intros g H; [done|]. rewrite imap_cons. cbn [map]. rewrite H. f_equal.
  apply IH. intros i y. apply H.
Qed.

Lemma In_imap {A B} (g : nat -> A -> B) l y : In y (imap g l) -> exists i x, In x l /\ y = g i x.
Proof.
  revert g. induction l as [|x l IH]; intros g; [done|]. rewrite imap_cons. intros [<-|H]; [exists 0%nat, x; simpl; auto|].
  apply IH in H as (i & z & ? & ->). exists (S i), z. simpl. auto.
Qed.

Lemma filter_imap_length {A B} (p : B -> bool) (q : A -> bool) (g : nat -> A -> B) l :
  (forall i x, p (g i x) = q x) -> List.length (List.filter p (imap g l)) = List.length (List.filter q l).
Proof.
  revert g. induction l as [|x l IH]; intros g H; [done|]. rewrite imap_cons. cbn [List.filter]. rewrite H.
  destruct (q x); cbn [List.length]; by rewrite (IH (compose g S)) by (intros; apply H).
Qed.

(** Every leg of the path is one feature, in order; a gap is never shaded; what is
    shaded is a reading inside the ramp; and the legend's count is of the legs
    that are neither. *)
Lemma colouredPath_spec path mode :
  let out := colouredPath path mode in
  map fe_ends (pc_segments out) = map (fun s => (lon_lat (sg_from s), lon_lat (sg_to s))) (pathSegments path) /\
  map fe_gap (pc_segments out) = map sg_gap (pathSegments path) /\
  (forall f, In f (pc_segments out) -> fe_known f = true ->
     fe_gap f = false /\ mode <> mode_none /\
     (is_nan (fe_value f) = false -> nle (of_Z 0) (fe_value f) = true /\ nle (fe_value f) (of_Z 1) = true)) /\
  (mode <> mode_none ->
   pc_unknownSegments out = zlen (List.filter (fun f => negb (fe_gap f) && negb (fe_known f)) (pc_segments out))) /\
  (mode = mode_none -> pc_unknownSegments out = 0).
Proof.
  cbn zeta. unfold colouredPath. destruct (pathSegments path) as [|s0 ss]; [by split_and!|].
  set (segments := s0 :: ss). set (extent := extent_of path mode segments). cbn [pc_segments pc_unknownSegments].
  split_and!.
  - by apply map_imap_flat.
  - by apply map_imap_flat.
  - intros f (i & s & _ & ->)%In_imap. cbn [fe_known fe_gap fe_value feature_of]. unfold value_of.
    destruct (sg_gap s); [done|]. destruct extent as [e|]; [|done]. destruct (raw_of mode s) as [raw|] eqn:Er; [|done]. intros _.
    split_and!; [done|by intros ->|apply normalise_unit].
  - intros Hm. rewrite count_fold. unfold zlen. rewrite (filter_imap_length _ (is_unknown mode extent)); [lia|].
    intros i s. unfold is_unknown. cbn [fe_known fe_gap feature_of]. rewrite bool_decide_true by done. by destruct (value_of mode extent s).
  - intros ->. rewrite count_fold. unfold is_unknown. rewrite bool_decide_false by auto. cbn [andb].
    by rewrite (filter_none (fun _ => false)).
Qed.

(** ** What is selected *)
Inductive ContactKind := kind_drone | kind_manned.
Record Selected := { sl_kind : ContactKind; sl_id : string }.

Definition selectTrack (trackId : option string) : option Selected :=
  (fun id => {| sl_kind := kind_drone; sl_id := id |}) <$> trackId.
Definition selectManned (icao : option string) : option Selected :=
  (fun id => {| sl_kind := kind_manned; sl_id := id |}) <$> icao.
Definition selectedTrackId (selected : option Selected) : option string :=
  match selected with Some {| sl_kind := kind_drone; sl_id := id |} => Some id | _ => None end.
Definition selectedMannedIcao (selected : option Selected) : option string :=
  match selected with Some {| sl_kind := kind_manned; sl_id := id |} => Some id | _ => None end.

(** One contact at most is selected, and selecting one shows that one. *)
Lemma one_selected selected :
  (selectedTrackId selected = None \/ selectedMannedIcao selected = None) /\
  (forall id, selectedTrackId (selectTrack id) = id /\ selectedMannedIcao (selectTrack id) = None) /\
  (forall icao, selectedMannedIcao (selectManned icao) = icao /\ selectedTrackId (selectManned icao) = None).
Proof. destruct selected as [[[] id]|]; (split; [auto|]); split; intros []; done. Qed.
