(* ===== verification/Calibration.v ===== *)
(** * Calibration: the receiver's settings and their editors

    [lib/detection-classes.ts] (the classes, the noisy-OR), and the logic of
    [routes/settings/calibration.tsx]: the receiver position's editor, the channel
    plan as a receiver's file has it, and the editor of the fusion weights.  An
    editor is a state, a function per event, and the list of what it sent.
    [captureLimitation] is of [features/captures/capture-limits.ts]. *)
From Stdlib Require Import ZArith Bool String Ascii List Lia Floats.SpecFloat.
From stdpp Require Import base option list strings pretty.
From S2P Require Import Prelude JsNumber JsString JsParse ApiTypes Format SensorDetail.

(** ** detection-classes.ts *)
Module DetectionClasses.

Record DetectionClassInfo := {
  ci_code : DetectionClass;
  ci_short : string;
  ci_label : string;
  ci_signal : string;
  ci_sensor : string;
  ci_defaultWeight : option num;
  ci_justification : string
}.
Definition info (code : DetectionClass) (short label signal sensor : string) (w : option num) (why : string) : DetectionClassInfo :=
  {| ci_code := code; ci_short := short; ci_label := label; ci_signal := signal; ci_sensor := sensor; ci_defaultWeight := w;
     ci_justification := why |}.

Definition detectionClassInfo (code : DetectionClass) : DetectionClassInfo :=
  match code with
  | ClsA => info ClsA "Remote ID" "ASTM F3411 Remote ID" "Wi-Fi Beacon vendor IE" "Wi-Fi" (Some (dec 6 1))
      "Standards-compliant, self-identifying, structured."
  | ClsB => info ClsB "DJI DroneID" "DJI DroneID" "Wi-Fi vendor IE, OUI 26:37:12" "Wi-Fi" (Some (dec 5 1))
      "Vendor-specific but unambiguous."
  | ClsC => info ClsC "OUI/SSID" "Wi-Fi OUI / SSID fingerprint" "MAC prefix or SSID pattern" "Wi-Fi" (Some (dec 1 1))
      "Weakest evidence. MAC randomisation and OUI reuse cause errors; an OUI alone is a hint, not a detection."
  | ClsD => info ClsD "ADS-B" "ADS-B manned traffic" "1090 MHz Mode S extended squitter" "SDR" None
      "Never contributes to confidence. Used for airspace context and to suppress energy-only false positives."
  | ClsE => info ClsE "Control link" "Control-link cadence" "433 / 868 / 915 MHz burst pattern" "SDR" (Some (dec 3 1))
      "Strong but inferential; ISM clutter is real."
  | ClsF => info ClsF "Analog FPV" "Analog FPV video downlink" "1.2 / 1.3 GHz carrier envelope" "SDR" (Some (dec 25 2))
      "Distinctive, but shares bands with other services."
  | ClsG => info ClsG "BLE Remote ID" "ASTM F3411 Remote ID over Bluetooth LE" "BT4 legacy / BT5 long-range advertisement" "BLE" (Some (dec 6 1))
      "Same payload semantics as Class A."
  | ClsH => info ClsH "GNSS" "GNSS interference indicator" "L1 noise floor elevation" "SDR" None
      "Environmental indicator; backlog."
  end.

Definition DETECTION_CLASS_ORDER : list DetectionClass := [ClsA; ClsB; ClsC; ClsD; ClsE; ClsF; ClsG; ClsH].

Definition noisyOr (weights : list num) : num :=
  let product := fold_left (fun acc w => nmul acc (nsub (of_Z 1) w)) weights (of_Z 1) in
  let thousandths := nmul (nsub (of_Z 1) product) (of_Z 1000) in
  ndiv (match round_Z thousandths with Some z => of_Z z | None => thousandths end) (of_Z 1000).

Lemma order_is_every_class c : In c DETECTION_CLASS_ORDER /\ ci_code (detectionClassInfo c) = c.
Proof. destruct c; cbn; auto 12. Qed.

Example classes_a_b_c : noisyOr [dec 6 1; dec 5 1; dec 1 1] = dec 82 2.
Proof. vm_compute. reflexivity. Qed.
End DetectionClasses.

Definition captureLimitation (sensor : SensorHealth) : option string :=
  match sh_config sensor with
  | Some config =>
      if cc_supported (rt_capture config) then None
      else Some ("capture is not implemented for " +:+ toUpperCase (SensorKind_string (sh_sensor_kind sensor)) +:+ " sensors")
  | None => Some ("capture is not implemented for " +:+ toUpperCase (SensorKind_string (sh_sensor_kind sensor)) +:+ " sensors")
  end.

(** ** The receiver position's editor *)
Module ReceiverPosition.

Record Editor := {
  ed_draft : option (string * string);
  ed_formError : option string;
  ed_sent : list string
}.
Definition opened : Editor := {| ed_draft := None; ed_formError := None; ed_sent := [] |}.

Section Editor.
Variable current : option ReceiverPosition.

(** The texts in the fields: the draft's, or the stored position's. *)
Definition lat (e : Editor) : string :=
  match ed_draft e with Some d => d.1 | None => match current with Some p => num_string (rp_lat p) | None => "" end end.
Definition lon (e : Editor) : string :=
  match ed_draft e with Some d => d.2 | None => match current with Some p => num_string (rp_lon p) | None => "" end end.

Definition set_error (error : option string) (e : Editor) : Editor :=
  {| ed_draft := ed_draft e; ed_formError := error; ed_sent := ed_sent e |}.
Definition set_draft (draft : option (string * string)) (e : Editor) : Editor :=
  {| ed_draft := draft; ed_formError := ed_formError e; ed_sent := ed_sent e |}.
Definition mutate (raw : string) (e : Editor) : Editor :=
  {| ed_draft := ed_draft e; ed_formError := ed_formError e; ed_sent := ed_sent e ++ [raw] |}.

Definition is_blank (text : string) : bool := trim text === "".

Definition onSubmit (e : Editor) : Editor :=
  let latBlank := is_blank (lat e) in
  let lonBlank := is_blank (lon e) in
  if latBlank && lonBlank then mutate "" (set_error None e)
  else if latBlank || lonBlank then
    set_error (Some ((if latBlank then "Latitude" else "Longitude") +:+
      " is blank. Fill in both fields, or clear both to unset the position.")) e
  else
    let latNum := Number (lat e) in
    let lonNum := Number (lon e) in
    if negb (is_finite latNum) || negb (is_finite lonNum) then set_error (Some "Both fields must be decimal degrees.") e
    else mutate (num_string latNum +:+ "," +:+ num_string lonNum) (set_error None e).

Inductive Event :=
| type_lat (text : string)
| type_lon (text : string)
| located (latitude longitude : num)
| submit
| saved
| reset.

Definition step (e : Editor) (ev : Event) : Editor :=
  match ev with
  | type_lat text => set_draft (Some (text, lon e)) e
  | type_lon text => set_draft (Some (lat e, text)) e
  | located a b => set_draft (Some (num_string a, num_string b)) e
  | submit => onSubmit e
  | saved => set_draft None e
  | reset => set_error None (set_draft None e)
  end.

(** What a submission may send: nothing at all, or a pair of finite numbers. *)
Definition sendable (raw : string) : Prop :=
  raw = "" \/ exists a b, is_finite a = true /\ is_finite b = true /\ raw = num_string a +:+ "," +:+ num_string b.

Lemma step_sendable e ev : List.Forall sendable (ed_sent e) -> List.Forall sendable (ed_sent (step e ev)).
Proof.
  intros He. destruct ev; try exact He. cbn [step]. unfold onSubmit.
  destruct (is_blank (lat e)) eqn:Ea, (is_blank (lon e)) eqn:Eb; cbn [andb orb]; try exact He.
  - apply List.Forall_app. split; [exact He|]. repeat constructor.
  - destruct (is_finite (Number (lat e))) eqn:Fa, (is_finite (Number (lon e))) eqn:Fb; cbn [negb orb]; try exact He.
    apply List.Forall_app. split; [exact He|]. constructor; [right|constructor]. by exists (Number (lat e)), (Number (lon e)).
Qed.

(** A submission sends at most one value; no other event sends any. *)
Lemma step_sends e ev : ed_sent (step e ev) = ed_sent e \/ ev = submit /\ exists raw, ed_sent (step e ev) = ed_sent e ++ [raw].
Proof.
  destruct ev; try (by left). cbn [step]. unfold onSubmit.
  destruct (is_blank (lat e)), (is_blank (lon e)); cbn [andb orb]; try (by left); [by right; split; [done|eexists]|].
  destruct (_ || _); [by left|by right; split; [done|eexists]].
Qed.

(** A blank field never becomes a coordinate: over any use of the editor every
    value sent unsets the position or is a pair of finite numbers, and a
    submission with one field blank sends nothing and says which. *)
Lemma never_half_a_position events :
  List.Forall sendable (ed_sent (fold_left step events opened)).
Proof.
  assert (forall e, List.Forall sendable (ed_sent e) -> List.Forall sendable (ed_sent (fold_left step events e))) as H;
    [|by apply H; constructor].
  induction events as [|ev events IH]; intros e He; [done|]. cbn [fold_left]. by apply IH, step_sendable.
Qed.

Lemma one_blank_is_refused e :
  is_blank (lat e) <> is_blank (lon e) -> ed_sent (onSubmit e) = ed_sent e /\ ed_formError (onSubmit e) <> None.
Proof. intros H. unfold onSubmit. by destruct (is_blank (lat e)), (is_blank (lon e)). Qed.
End Editor.

Example blank_latitude :
  ed_sent (fold_left (step None) [type_lat "  "; type_lon "-1.5"; submit; type_lat "51.25"; submit] opened) = ["51.25,-1.5"].
Proof. vm_compute. reflexivity. Qed.
End ReceiverPosition.

(** ** The channel plan *)
Module ChannelPlan.

Record ChannelPlanEntry := { ce_channel : num; ce_freq_mhz : num; ce_weight : num }.

Definition channelPlanYaml (channels : list ChannelPlanEntry) : string :=
  join (String "010" "") (("channels:" : string) ::
    map (fun c => "  - { channel: " +:+ num_string (ce_channel c) +:+ ", freq_mhz: " +:+ num_string (ce_freq_mhz c) +:+
      ", weight: " +:+ (if is_integer (ce_weight c) then toFixed 1 (ce_weight c) else num_string (ce_weight c)) +:+ " }") channels
    ++ [""]).

Record LoadedPlan := { lo_file : option string; lo_widened : bool; lo_widenedForPeer : bool }.
Definition is_true_field (key : string) (detail : detail_map) : bool :=
  match assoc key detail with Some (JBool b) => b | _ => false end.
Definition loadedPlan (sensor : SensorHealth) : LoadedPlan :=
  let detail := sh_detail sensor ?? [] in
  {| lo_file := match assoc "plan" detail with Some (JStr s) => Some s | _ => None end;
     lo_widened := is_true_field "plan_fallback" detail;
     lo_widenedForPeer := is_true_field "plan_widened_for_peer" detail |}.

Definition total (channels : list ChannelPlanEntry) : num :=
  fold_left (fun sum c => nadd sum (if is_finite (ce_weight c) then ce_weight c else of_Z 0)) channels (of_Z 0).
Definition dwell_share (channels : list ChannelPlanEntry) (c : ChannelPlanEntry) : string :=
  let total := total channels in
  if ngt total (of_Z 0) then toFixed 1 (nmul (ndiv (ce_weight c) total) (of_Z 100)) +:+ "%" else EMPTY.

Definition weight_of (channel freq : Z) (weight : num) : ChannelPlanEntry :=
  {| ce_channel := of_Z channel; ce_freq_mhz := of_Z freq; ce_weight := weight |}.
Example two_channels :
  channelPlanYaml [weight_of 6 2437 (of_Z 40); weight_of 1 2412 (dec 25 1)] =
  join (String "010" "") ["channels:"; "  - { channel: 6, freq_mhz: 2437, weight: 40.0 }";
                          "  - { channel: 1, freq_mhz: 2412, weight: 2.5 }"; ""] /\
  dwell_share [weight_of 6 2437 (of_Z 40); weight_of 1 2412 (of_Z 10)] (weight_of 6 2437 (of_Z 40)) = "80.0%".
Proof. vm_compute. done. Qed.
End ChannelPlan.

(** ** The fusion weights' editor *)
Module Weights.

(** The weights of the classes that have one. *)
Definition FusionWeights : Type := DetectionClass -> option num.
Definition set_weight (code : DetectionClass) (w : num) (ws : FusionWeights) : FusionWeights :=
  fun c => if bool_decide (c = code) then Some w else ws c.

(** What the schema says of a value that is not a finite number is the library's. *)
Class Zod := { not_a_number : num -> string }.

Record Editor := {
  we_override : option FusionWeights;
  we_errors : DetectionClass -> option string;
  we_sent : list FusionWeights
}.
Definition no_errors : DetectionClass -> option string := fun _ => None.
Definition opened : Editor := {| we_override := None; we_errors := no_errors; we_sent := [] |}.

Section Editor.
Context {Z : Zod} (data : option FusionWeights).

Definition draft (e : Editor) : option FusionWeights :=
  match we_override e with Some d => Some d | None => data end.

Definition present (ws : FusionWeights) : list DetectionClass :=
  List.filter (fun code => match ws code with Some _ => true | None => false end) DetectionClasses.DETECTION_CLASS_ORDER.

(** [setDraft(old => old ? {weights: {...old.weights, [code]: weight}} : old)], whose
    [old] is the override and not the weights shown. *)
Definition onChange (code : DetectionClass) (text : string) (e : Editor) : Editor :=
  {| we_override := match we_override e with Some old => Some (set_weight code (Number text) old) | None => None end;
     we_errors := we_errors e; we_sent := we_sent e |}.

Definition onReset (e : Editor) : Editor :=
  {| we_override := match data with Some d => Some d | None => we_override e end; we_errors := no_errors; we_sent := we_sent e |}.

Definition issue (w : num) : option string :=
  if negb (is_finite w) then Some (not_a_number w)
  else if nlt w (of_Z 0) || ngt w (of_Z 1) then Some "Weight must be between 0 and 1" else None.
Definition issues (ws : FusionWeights) : DetectionClass -> option string := fun code => ws code ≫= issue.

Definition valid (ws : FusionWeights) : bool :=
  forallb (fun code => match issues ws code with Some _ => false | None => true end) DetectionClasses.DETECTION_CLASS_ORDER.

Definition onSubmit (e : Editor) : Editor :=
  match draft e with
  | None => e
  | Some ws =>
      if valid ws then {| we_override := we_override e; we_errors := no_errors; we_sent := we_sent e ++ [ws] |}
      else {| we_override := we_override e; we_errors := issues ws; we_sent := we_sent e |}
  end.

(** A weight typed before the first reset is lost: the field is controlled by the
    weights shown, and those are not changed. *)
Lemma typing_is_dropped e code text :
  we_override e = None -> onChange code text e = e /\ draft (onChange code text e) = data.
Proof. destruct e as [o r s]. cbn. intros ->. done. Qed.

(** After a reset the same edit takes. *)
Lemma typing_after_reset e code text ws :
  data = Some ws -> draft (onChange code text (onReset e)) = Some (set_weight code (Number text) ws).
Proof. intros H. unfold draft, onChange, onReset. cbn [we_override]. by rewrite H. Qed.

(** Weights sent are between 0 and 1; a refusal names a class that is not. *)
Lemma sent_in_range e ws :
  draft e = Some ws ->
  if valid ws
  then we_sent (onSubmit e) = we_sent e ++ [ws] /\
       forall code w, ws code = Some w -> nle (of_Z 0) w = true /\ nle w (of_Z 1) = true
  else we_sent (onSubmit e) = we_sent e /\ exists code, we_errors (onSubmit e) code <> None.
Proof.
  intros Hd. unfold onSubmit. rewrite Hd. destruct (valid ws) eqn:Ev.
  - split; [done|]. intros code w Hw. unfold valid in Ev. rewrite forallb_forall in Ev.
    specialize (Ev code (proj1 (DetectionClasses.order_is_every_class code))). unfold issues in Ev. rewrite Hw in Ev. cbn in Ev.
    unfold issue in Ev. destruct (is_finite w) eqn:Ef; [|done]. cbn [negb] in Ev. apply is_finite_not_nan in Ef.
    destruct (nlt w (of_Z 0)) eqn:E0; [done|]. destruct (ngt w (of_Z 1)) eqn:E1; [done|].
    split; by apply nlt_false.
  - split; [done|]. cbn [we_errors]. unfold valid in Ev.
    assert (existsb (fun code => match issues ws code with Some _ => true | None => false end) DetectionClasses.DETECTION_CLASS_ORDER = true) as H.
    { apply not_false_is_true. intros Hx. assert (forall l, existsb (fun code => match issues ws code with Some _ => true | None => false end) l = false ->
        forallb (fun code => match issues ws code with Some _ => false | None => true end) l = true) as Hl.
      { induction l as [|c l IH]; [done|]. cbn. destruct (issues ws c); [done|]. exact IH. }
      apply Hl in Hx. congruence. }
    apply existsb_exists in H as (code & _ & Hc). exists code. by destruct (issues ws code).
Qed.
End Editor.
End Weights.
