(* ===== verification/SettingsForms.v ===== *)
(** * Settings forms: groups of settings, alert rules, boundaries

    [features/settings/setting-fields.tsx], a group of settings with one Save;
    [features/hooks/hooks-panel.tsx], the alert rule's editor;
    [features/boundaries/boundaries-panel.tsx], the boundary's.  A form is its
    state and a function per event; what the server answers is an event. *)
From Stdlib Require Import ZArith Bool String Ascii List Lia Floats.SpecFloat.
From stdpp Require Import base option list strings gmap.
From S2P Require Import Prelude JsNumber JsString ApiTypes.

(** ** A group of settings *)
Module SettingsGroup.

Inductive SettingSource := src_env | src_db | src_seed | src_default.
Record SettingValue := { sv_value : json; sv_source : SettingSource; sv_mutable : bool }.

Definition sensorDeclText (decl : json) : string :=
  match decl with
  | JObj d =>
      match assoc "sensor_id" d, assoc "sensor_kind" d with
      | Some (JStr id), Some (JStr kind) =>
          id +:+ ":" +:+ kind +:+ (match assoc "optional" d with Some (JBool true) => ":optional" | _ => "" end)
      | _, _ => ""
      end
  | _ => ""
  end.

Definition asText (setting : option SettingValue) : string :=
  match setting with
  | None => ""
  | Some s =>
      match sv_value s with
      | JNull => ""
      | JBool b => if b then "true" else "false"
      | JNum n => num_string n
      | JStr text => text
      | JArr l => join "," (List.filter (fun t => t !== "") (map sensorDeclText l))
      | JObj _ => ""
      end
  end.

Definition isLocked (setting : option SettingValue) : bool :=
  match setting with
  | None => false
  | Some s => match sv_source s with src_env => true | _ => negb (sv_mutable s) end
  end.

Abbreviation texts := (gmap string string).

(** The component's state, the settings last fetched, and the saves under way. *)
Record Group := {
  gr_draft : texts;
  gr_pending : texts;
  gr_restartRequired : bool;
  gr_data : string -> option SettingValue;
  gr_saving : list texts
}.
Definition opened (data : string -> option SettingValue) : Group :=
  {| gr_draft := ∅; gr_pending := ∅; gr_restartRequired := false; gr_data := data; gr_saving := [] |}.

Definition dirty (g : Group) : bool := bool_decide (gr_draft g <> ∅).

(** [draft[key] ?? pending[key] ?? asText(data?.settings[key])]. *)
Definition valueOf (g : Group) (key : string) : string :=
  gr_draft g !! key ?? gr_pending g !! key ?? asText (gr_data g key).

Inductive Event :=
| edited (key text : string)
| submitted
| succeeded (restart_required : bool)
| failed
| refetched (data : string -> option SettingValue).

Definition set_draft (draft : texts) (g : Group) : Group :=
  {| gr_draft := draft; gr_pending := gr_pending g; gr_restartRequired := gr_restartRequired g;
     gr_data := gr_data g; gr_saving := gr_saving g |}.

(** [None] where the event cannot happen: a locked field is disabled, a save that
    is not under way has no answer, and the button is disabled while one is. *)
Definition step (g : Group) (e : Event) : option Group :=
  match e with
  | edited key text => if isLocked (gr_data g key) then None else Some (set_draft (<[key := text]> (gr_draft g)) g)
  | submitted =>
      if dirty g && match gr_saving g with [] => true | _ => false end
      then Some {| gr_draft := gr_draft g; gr_pending := gr_pending g; gr_restartRequired := gr_restartRequired g;
                   gr_data := gr_data g; gr_saving := [gr_draft g] |}
      else None
  | succeeded restart =>
      match gr_saving g with
      | updates :: rest =>
          Some {| gr_draft := ∅; gr_pending := updates ∪ gr_pending g; gr_restartRequired := restart;
                  gr_data := gr_data g; gr_saving := rest |}
      | [] => None
      end
  | failed =>
      match gr_saving g with
      | _ :: rest =>
          Some {| gr_draft := gr_draft g; gr_pending := gr_pending g; gr_restartRequired := gr_restartRequired g;
                  gr_data := gr_data g; gr_saving := rest |}
      | [] => None
      end
  | refetched data =>
      Some {| gr_draft := gr_draft g; gr_pending := gr_pending g; gr_restartRequired := gr_restartRequired g;
              gr_data := data; gr_saving := gr_saving g |}
  end.

Fixpoint run (g : Group) (events : list Event) : option Group :=
  match events with
  | [] => Some g
  | e :: events' => match step g e with Some g' => run g' events' | None => None end
  end.

(** Every text in the form, saved or under way was typed. *)
Definition typed_in (events : list Event) (m : texts) : Prop :=
  forall key text, m !! key = Some text -> In (edited key text) events.

Record form_ok (events : list Event) (g : Group) : Prop := {
  fo_draft : typed_in events (gr_draft g);
  fo_pending : typed_in events (gr_pending g);
  fo_saving : List.Forall (typed_in events) (gr_saving g);
  fo_one : (List.length (gr_saving g) <= 1)%nat
}.

Lemma typed_in_mono events events' m : incl events events' -> typed_in events m -> typed_in events' m.
Proof. intros Hi H key text Hm. by apply Hi, H. Qed.

Lemma step_ok events g e g' : form_ok events g -> step g e = Some g' -> form_ok (events ++ [e]) g'.
Proof.
  intros [Hd Hp Hs H1] Hstep.
  assert (forall m, typed_in events m -> typed_in (events ++ [e]) m) as Hm by (intros m; apply typed_in_mono; intros x; rewrite in_app_iff; auto).
  assert (List.Forall (typed_in (events ++ [e])) (gr_saving g)) as Hs' by (eapply List.Forall_impl; [exact Hm|exact Hs]).
  destruct e as [key text| |restart| |data]; cbn [step] in Hstep.
  - destruct (isLocked _); [done|]. injection Hstep as <-. split; cbn; auto. intros k t Ht.
    apply lookup_insert_Some in Ht as [[-> ->]|[_ Ht]]; [rewrite in_app_iff; cbn; auto|exact (Hm _ Hd k t Ht)].
  - destruct (dirty g && _); [|done]. injection Hstep as <-. split; cbn; auto.
  - destruct (gr_saving g) as [|u rest]; [done|]. injection Hstep as <-. inversion Hs'; subst. cbn in H1. split; cbn; auto; try lia.
    + intros k t Ht. by rewrite lookup_empty in Ht.
    + intros k t Ht. apply lookup_union_Some_raw in Ht as [Ht|[_ Ht]]; [auto|exact (Hm _ Hp k t Ht)].
  - destruct (gr_saving g) as [|u rest]; [done|]. injection Hstep as <-. inversion Hs'; subst. cbn in H1. split; cbn; auto; lia.
  - injection Hstep as <-. split; cbn; auto.
Qed.

(** Over any use of the form, what is sent and what is shown as saved was typed,
    at most one save is under way, and a field nobody typed in shows what the
    unit is running. *)
Lemma form_is_what_was_typed data events g :
  run (opened data) events = Some g ->
  form_ok events g /\
  forall key, (forall text, ~ In (edited key text) events) -> valueOf g key = asText (gr_data g key).
Proof.
  assert (forall done_ g0, form_ok done_ g0 -> run g0 events = Some g -> form_ok (done_ ++ events) g) as H.
  { induction events as [|e events IH]; intros done_ g0 H0 Hr; cbn in Hr; [injection Hr as <-; by rewrite app_nil_r|].
    destruct (step g0 e) as [g1|] eqn:E; [|done]. replace (done_ ++ e :: events) with ((done_ ++ [e]) ++ events) by (by rewrite <- app_assoc).
    apply (IH _ g1); [by apply (step_ok _ g0)|done]. }
  intros Hr. assert (form_ok events g) as Hg.
  { apply (H [] (opened data)); [|done]. split; cbn; [intros k t Ht; by rewrite lookup_empty in Ht..|apply List.Forall_nil|lia]. }
  split; [done|]. intros key Hno. unfold valueOf.
  destruct (gr_draft g !! key) as [t|] eqn:Ed; [by apply (fo_draft _ _ Hg), Hno in Ed|].
  destruct (gr_pending g !! key) as [t|] eqn:Ep; [by apply (fo_pending _ _ Hg), Hno in Ep|]. done.
Qed.

(** A save does not spring back: if nothing is typed between the submission and
    its success, every field shows after it what it showed before. *)
Lemma save_keeps_what_is_shown g g1 g2 restart :
  step g submitted = Some g1 -> step g1 (succeeded restart) = Some g2 -> forall key, valueOf g2 key = valueOf g key.
Proof.
  cbn [step]. destruct (dirty g && _); [|done]. intros [= <-]. cbn [gr_saving gr_pending gr_data]. intros [= <-] key.
  unfold valueOf. cbn [gr_draft gr_pending gr_data]. rewrite lookup_empty, lookup_union.
  destruct (gr_draft g !! key), (gr_pending g !! key); done.
Qed.

(** What is typed while a save is under way is lost when it succeeds. *)
Lemma typing_while_saving_is_lost g g1 g2 g3 key text restart :
  isLocked (gr_data g key) = false -> gr_draft g !! key = None ->
  step g submitted = Some g1 -> step g1 (edited key text) = Some g2 -> step g2 (succeeded restart) = Some g3 ->
  valueOf g2 key = text /\ valueOf g3 key = gr_pending g !! key ?? asText (gr_data g key).
Proof.
  intros Hl Hd. cbn [step]. destruct (dirty g && _); [|done]. intros [= <-]. cbn [gr_data]. rewrite Hl. intros [= <-].
  cbn [set_draft gr_saving]. intros [= <-]. unfold valueOf. cbn [set_draft gr_draft gr_pending gr_data].
  rewrite lookup_insert_eq, lookup_empty, lookup_union, Hd. by destruct (gr_pending g !! key).
Qed.

(** A value once saved here hides what any other client stores later. *)
Lemma saved_value_masks_the_unit g key text data g' :
  gr_draft g !! key = None -> gr_pending g !! key = Some text -> step g (refetched data) = Some g' -> valueOf g' key = text.
Proof. intros Hd Hp [= <-]. unfold valueOf. cbn. by rewrite Hd, Hp. Qed.

Definition decl (id kind : string) (optional : bool) : json :=
  JObj [("sensor_id", JStr id); ("sensor_kind", JStr kind); ("optional", JBool optional)].
Example declared_sensors :
  asText (Some {| sv_value := JArr [decl "wifi-0" "wifi" false; decl "sdr-0" "sdr" true]; sv_source := src_db; sv_mutable := true |}) =
  "wifi-0:wifi,sdr-0:sdr:optional".
Proof. vm_compute. reflexivity. Qed.
End SettingsGroup.

(** ** An alert rule *)
Module HookRules.

Inductive HookAction := webhook | email | ntfy.

Record HookRule := {
  hr_rule_id : string;
  hr_name : string;
  hr_enabled : bool;
  hr_event : string;
  hr_min_confidence : option num;
  hr_classes : option (list string);
  hr_sensor_kinds : option (list string);
  hr_only_drones : option bool;
  hr_boundary_id : option string;
  hr_cooldown_s : num;
  hr_action : HookAction;
  hr_config : list (string * json);
  hr_created_at : string;
  hr_updated_at : string;
  hr_last_fired_at : option string;
  hr_fire_count : Z
}.
Record HookEventDoc := { he_event : string; he_description : string; he_supports_boundary : bool }.

(** The body of a save: a rule's fields, absent where undefined. *)
Record RuleBody := {
  rb_name : string;
  rb_event : string;
  rb_action : HookAction;
  rb_enabled : bool;
  rb_cooldown_s : num;
  rb_only_drones : bool;
  rb_min_confidence : option num;
  rb_classes : option (list string);
  rb_sensor_kinds : option (list string);
  rb_boundary_id : option string;
  rb_config : list (string * json)
}.

Definition configString (config : option (list (string * json))) (key : string) : string :=
  match config ≫= assoc key with Some (JStr s) => s | _ => "" end.

Record RuleEditor := {
  re_rule : option HookRule;
  re_name : string;
  re_event : string;
  re_action : HookAction;
  re_cooldownMin : num;
  re_onlyDrones : bool;
  re_minConfidence : num;
  re_url : string;
  re_authorization : string;
  re_to : string;
  re_subject : string;
  re_ntfyPriority : string;
  re_ntfyAccessToken : string;
  re_boundaryId : string
}.

Definition opened (rule : option HookRule) : RuleEditor :=
  let config := hr_config <$> rule in {|
    re_rule := rule;
    re_name := (hr_name <$> rule) ?? "";
    re_event := (hr_event <$> rule) ?? "track.confirmed";
    re_action := (hr_action <$> rule) ?? webhook;
    re_cooldownMin := match round_Z (ndiv ((hr_cooldown_s <$> rule) ?? of_Z 300) (of_Z 60)) with Some z => of_Z z | None => S754_nan end;
    re_onlyDrones := (rule ≫= hr_only_drones) ?? true;
    re_minConfidence := (rule ≫= hr_min_confidence) ?? of_Z 0;
    re_url := configString config "url";
    re_authorization := configString config "authorization";
    re_to := configString config "to";
    re_subject := configString config "subject";
    re_ntfyPriority := match configString config "priority" with EmptyString => "default" | p => p end;
    re_ntfyAccessToken := configString config "access_token";
    re_boundaryId := (rule ≫= hr_boundary_id) ?? ""
  |}.

(** [...(text ? {key: text} : {})]. *)
Definition when_set (key text : string) : list (string * json) := match text with EmptyString => [] | _ => [(key, JStr text)] end.

Definition config_of (e : RuleEditor) : list (string * json) :=
  match re_action e with
  | webhook => ("url", JStr (re_url e)) :: when_set "authorization" (re_authorization e)
  | ntfy => ("url", JStr (re_url e)) :: ("priority", JStr (re_ntfyPriority e)) :: when_set "access_token" (re_ntfyAccessToken e)
  | email => ("to", JStr (re_to e)) :: when_set "subject" (re_subject e)
  end.

Definition supportsBoundary (events : list HookEventDoc) (event : string) : bool :=
  match List.find (fun e => he_event e === event) events with Some e => he_supports_boundary e | None => false end.

(** [minConfidence || undefined]. *)
Definition or_undefined (n : num) : option num := if is_nan n || neq n (of_Z 0) then None else Some n.

Definition body_of (events : list HookEventDoc) (e : RuleEditor) : RuleBody := {|
  rb_name := re_name e;
  rb_event := re_event e;
  rb_action := re_action e;
  rb_enabled := (hr_enabled <$> re_rule e) ?? true;
  rb_cooldown_s := nmul (nmax (of_Z 1) (re_cooldownMin e)) (of_Z 60);
  rb_only_drones := re_onlyDrones e;
  rb_min_confidence := or_undefined (re_minConfidence e);
  rb_classes := None;
  rb_sensor_kinds := None;
  rb_boundary_id := if supportsBoundary events (re_event e) then truthy (Some (re_boundaryId e)) else None;
  rb_config := config_of e
|}.

(** The switch of a rule's card sends the rule itself, its other fields with it. *)
Definition toggled (r : HookRule) : HookRule := {|
  hr_rule_id := hr_rule_id r; hr_name := hr_name r; hr_enabled := negb (hr_enabled r); hr_event := hr_event r;
  hr_min_confidence := hr_min_confidence r; hr_classes := hr_classes r; hr_sensor_kinds := hr_sensor_kinds r;
  hr_only_drones := hr_only_drones r; hr_boundary_id := hr_boundary_id r; hr_cooldown_s := hr_cooldown_s r;
  hr_action := hr_action r; hr_config := hr_config r; hr_created_at := hr_created_at r; hr_updated_at := hr_updated_at r;
  hr_last_fired_at := hr_last_fired_at r; hr_fire_count := hr_fire_count r
|}.

(** A secret that was not retyped goes back as it was read, which the server takes
    as unchanged, and one that is not set is not sent. *)
Lemma secret_goes_back_unchanged events rule :
  hr_action rule = webhook ->
  assoc "authorization" (rb_config (body_of events (opened (Some rule)))) =
  match assoc "authorization" (hr_config rule) with Some (JStr (String c s)) => Some (JStr (String c s)) | _ => None end.
Proof.
  intros Ha. cbn [body_of rb_config]. unfold config_of. cbn [opened re_action re_authorization]. cbn. rewrite Ha. cbn.
  unfold configString. cbn. destruct (assoc "authorization" (hr_config rule)) as [[| | |s| |]|]; try done. by destruct s.
Qed.

(** Opening a rule and saving it untouched keeps its name, event, action, state,
    drones filter and, where the event has one, its boundary. *)
Lemma saving_untouched events rule :
  let body := body_of events (opened (Some rule)) in
  rb_name body = hr_name rule /\ rb_event body = hr_event rule /\ rb_action body = hr_action rule /\
  rb_enabled body = hr_enabled rule /\ rb_only_drones body = hr_only_drones rule ?? true /\
  (supportsBoundary events (hr_event rule) = true -> rb_boundary_id body = truthy (hr_boundary_id rule)).
Proof.
  cbn zeta. split_and!; try done. cbn [body_of rb_boundary_id opened re_event re_boundaryId]. cbn. intros ->.
  by destruct (hr_boundary_id rule) as [[]|].
Qed.

(** It does not keep the filters by class and sensor kind, nor a cooldown that is
    not a whole number of minutes: 90 seconds become 120, and 30 become 60. *)
Lemma saving_forgets_filters events rule :
  rb_classes (body_of events (opened (Some rule))) = None /\ rb_sensor_kinds (body_of events (opened (Some rule))) = None.
Proof. done. Qed.

Definition a_rule (cooldown : Z) : HookRule := {|
  hr_rule_id := "r1"; hr_name := "Yard"; hr_enabled := true; hr_event := "track.confirmed"; hr_min_confidence := None;
  hr_classes := Some ["A"]; hr_sensor_kinds := None; hr_only_drones := Some true; hr_boundary_id := Some "b1";
  hr_cooldown_s := of_Z cooldown; hr_action := webhook; hr_config := [("url", JStr "https://example.org"); ("authorization", JStr "********")];
  hr_created_at := "2026-09-15T03:00:00Z"; hr_updated_at := "2026-09-15T03:00:00Z"; hr_last_fired_at := None; hr_fire_count := 0
|}.
Lemma saving_rounds_the_cooldown :
  map (fun s => rb_cooldown_s (body_of [] (opened (Some (a_rule s))))) [300; 90; 30] = [of_Z 300; of_Z 120; of_Z 60].
Proof. vm_compute. reflexivity. Qed.
End HookRules.

(** ** A boundary *)
Module Boundaries.

Record BoundaryEditor := { be_name : string; be_points : list (num * num) }.

Definition place (e : BoundaryEditor) (lat lon : num) : BoundaryEditor :=
  {| be_name := be_name e; be_points := be_points e ++ [(lat, lon)] |}.
Definition undo (e : BoundaryEditor) : BoundaryEditor := {| be_name := be_name e; be_points := removelast (be_points e) |}.
Definition clear (e : BoundaryEditor) : BoundaryEditor := {| be_name := be_name e; be_points := [] |}.
Definition canSave (e : BoundaryEditor) : bool := (trim (be_name e) !== "") && (3 <=? zlen (be_points e)).

Lemma undo_place e lat lon : undo (place e lat lon) = e.
Proof. destruct e as [n ps]. unfold undo, place. cbn. by rewrite removelast_last. Qed.
End Boundaries.
