(* ===== verification/FlightsPage.v ===== *)
(** * FlightsPage: the flights list and the address that holds its state

    [features/tracks/tracks-search.ts] (the URL's schema), [routes/tracks/index.tsx]
    (the page: what history it shows, and every control as a change of the
    address), [flight-filter-bar.tsx], [flights-histogram.tsx],
    [flights-table.tsx] and [features/timeline/flight-lanes.tsx] (the controls and
    rows).  The router that writes and reads an address and the schema library
    that checks one field are interfaces. *)
From Stdlib Require Import ZArith Bool String Ascii List Lia Permutation Sorted.
From stdpp Require Import base option list strings pretty.
From S2P Require Import Prelude JsNumber JsDate JsString UrlCodec ApiTypes LogStore HealthView Flights FlightTime FlightFilters TimelineLanes.

(** ** The address *)
Module TracksSearch.

Inductive GroupMode := group_aircraft | group_none.
Inductive ViewMode := view_lanes | view_list.
#[export] Instance GroupMode_eq_dec : EqDecision GroupMode.
Proof. solve_decision. Defined.
#[export] Instance ViewMode_eq_dec : EqDecision ViewMode.
Proof. solve_decision. Defined.

(** The fields' schemas: [z.string()], [z.enum(values)] and
    [z.string().regex(/^\d{4}-\d{2}-\d{2}$/)], each [.optional().catch(undefined)]. *)
Inductive FieldSchema := z_string | z_enum (values : list string) | z_day.

Definition chip_string (c : WindowChip) : string :=
  match c with
  | chip_today => "today" | chip_24h => "24h" | chip_7d => "7d" | chip_30d => "30d" | chip_all => "all"
  end.
Definition group_string (g : GroupMode) : string :=
  match g with group_aircraft => "aircraft" | group_none => "none" end.
Definition view_string (v : ViewMode) : string := match v with view_lanes => "lanes" | view_list => "list" end.
Definition yesno_string (o : YesNo) : string := match o with yes => "yes" | no => "no" end.

Definition tracksSearchSchema : list (string * FieldSchema) :=
  [("q", z_string);
   ("since", z_enum (map chip_string WINDOW_CHIPS));
   ("day", z_day);
   ("vendor", z_string);
   ("evidence", z_enum ["A"; "B"; "C"; "D"; "E"; "F"; "G"; "H"]);
   ("operator", z_enum ["yes"; "no"]);
   ("group", z_enum ["aircraft"; "none"]);
   ("sort", z_enum FLIGHT_SORT_VALUES);
   ("view", z_enum ["lanes"; "list"])].

Record TracksSearch := {
  ts_q : option string;
  ts_since : option WindowChip;
  ts_day : option string;
  ts_vendor : option string;
  ts_evidence : option DetectionClass;
  ts_operator : option YesNo;
  ts_group : option GroupMode;
  ts_sort : option string;
  ts_view : option ViewMode
}.

(** Which strings a field takes. *)
Definition is_day (s : string) : bool := match read_key s with Some _ => true | None => false end.
Definition takes (f : FieldSchema) (s : string) : bool :=
  match f with
  | z_string => true
  | z_enum values => existsb (String.eqb s) values
  | z_day => is_day s
  end.

(** The schema library on one field, with its documented behaviour: a value of
    the schema is itself, and anything else is caught as absent. *)
Class Zod := { safe_field : FieldSchema -> option json -> option string }.
Class ZodLaws (Zd : Zod) : Prop := {
  zod_takes : forall f s, takes f s = true -> safe_field f (Some (JStr s)) = Some s;
  zod_refuses : forall f s, takes f s = false -> safe_field f (Some (JStr s)) = None;
  zod_catches : forall f v, (forall s, v <> Some (JStr s)) -> safe_field f v = None
}.

(** The router's two directions of an address's query. *)
Class Router := {
  stringifySearch : list (string * string) -> string;
  parseSearch : string -> list (string * json)
}.
Class RouterLaws (R : Router) : Prop := {
  search_reads_back : forall (l : list (string * string)) key, List.NoDup (map fst l) ->
    assoc key (parseSearch (stringifySearch l)) = JStr <$> assoc key l
}.

(** An enumerated field's text as the constructor it names. *)
Definition named {A} (name : A -> string) (all : list A) (s : string) : option A :=
  List.find (fun a => name a === s) all.
Definition DETECTION_CLASSES : list DetectionClass := [ClsA; ClsB; ClsC; ClsD; ClsE; ClsF; ClsG; ClsH].

Section Search.
Context {Zd : Zod} {R : Router}.

Definition field (raw : list (string * json)) (key : string) : option string :=
  match assoc key tracksSearchSchema with
  | Some f => safe_field f (assoc key raw)
  | None => None
  end.

Definition validateSearch (raw : list (string * json)) : TracksSearch := {|
  ts_q := field raw "q";
  ts_since := field raw "since" ≫= named chip_string WINDOW_CHIPS;
  ts_day := field raw "day";
  ts_vendor := field raw "vendor";
  ts_evidence := field raw "evidence" ≫= named DetectionClass_string DETECTION_CLASSES;
  ts_operator := field raw "operator" ≫= named yesno_string [yes; no];
  ts_group := field raw "group" ≫= named group_string [group_aircraft; group_none];
  ts_sort := field raw "sort";
  ts_view := field raw "view" ≫= named view_string [view_lanes; view_list]
|}.

(** The keys an address carries: an undefined one is left out. *)
Fixpoint defined_only (l : list (string * option string)) : list (string * string) :=
  match l with
  | [] => []
  | (key, Some value) :: l' => (key, value) :: defined_only l'
  | (_, None) :: l' => defined_only l'
  end.
Definition search_params (s : TracksSearch) : list (string * string) :=
  defined_only
    [("q", ts_q s);
     ("since", chip_string <$> ts_since s);
     ("day", ts_day s);
     ("vendor", ts_vendor s);
     ("evidence", DetectionClass_string <$> ts_evidence s);
     ("operator", yesno_string <$> ts_operator s);
     ("group", group_string <$> ts_group s);
     ("sort", ts_sort s);
     ("view", view_string <$> ts_view s)].

(** [Route.useSearch()] of an address, and the address of a search. *)
Definition useSearch (url : string) : TracksSearch := validateSearch (parseSearch url).
Definition address (s : TracksSearch) : string := stringifySearch (search_params s).

(** The search states an address can hold. *)
Definition admissible (s : TracksSearch) : Prop :=
  (forall d, ts_day s = Some d -> is_day d = true) /\
  (forall v, ts_sort s = Some v -> In v FLIGHT_SORT_VALUES).
End Search.

(** *** Reading back *)

Section Facts.
Context {Zd : Zod} {HZ : ZodLaws Zd} {R : Router} {HR : RouterLaws R}.

Lemma defined_keys key l : In key (map fst (defined_only l)) -> In key (map fst l).
Proof. induction l as [|[k [v|]] l IH]; simpl; tauto. Qed.

Lemma assoc_absent {A} key (l : list (string * A)) : ~ In key (map fst l) -> assoc key l = None.
Proof.
  induction l as [|[k v] l IH]; simpl; [done|]. intros H. destruct (String.eqb_spec k key) as [->|]; [tauto|]. apply IH. tauto.
Qed.

Lemma assoc_params key l : List.NoDup (map fst l) -> assoc key (defined_only l) = assoc key l ≫= id.
Proof.
  induction l as [|[k [v|]] l IH]; simpl; [done|inversion 1; subst..].
  - destruct (String.eqb k key); [done|by apply IH].
  - destruct (String.eqb_spec k key) as [->|]; [|by apply IH]. apply assoc_absent. by intros H'%defined_keys.
Qed.

Lemma params_NoDup l : List.NoDup (map fst l) -> List.NoDup (map fst (defined_only l)).
Proof.
  induction l as [|[k [v|]] l IH]; simpl; [done|inversion 1; subst..]; [|by apply IH].
  constructor; [by intros H'%defined_keys|by apply IH].
Qed.

Lemma distinct_keys (q since day vendor evidence operator group sort view : option string) :
  List.NoDup (map fst [("q", q); ("since", since); ("day", day); ("vendor", vendor); ("evidence", evidence);
    ("operator", operator); ("group", group); ("sort", sort); ("view", view)]).
Proof. repeat constructor; simpl; intuition discriminate. Qed.

Lemma field_of_address s key f :
  assoc key tracksSearchSchema = Some f ->
  field (parseSearch (address s)) key =
  match assoc key (search_params s) with Some v => if takes f v then Some v else None | None => None end.
Proof.
  intros Hf. unfold field, address. rewrite Hf, search_reads_back.
  - destruct (assoc key (search_params s)) as [v|]; simpl.
    + destruct (takes f v) eqn:E; [by apply zod_takes|by apply zod_refuses].
    + by apply zod_catches.
  - apply params_NoDup, distinct_keys.
Qed.

Lemma named_name {A} (name : A -> string) (all : list A) a :
  In a all -> (forall b, In b all -> name b = name a -> b = a) -> named name all (name a) = Some a.
Proof.
  unfold named. induction all as [|b all IH]; simpl; [done|]. intros Hin Hinj.
  destruct (String.eqb_spec (name b) (name a)) as [E|E]; [f_equal; auto|].
  destruct Hin as [->|Hin]; [done|]. auto.
Qed.

(** An address reads back as the search it was made for. *)
Lemma useSearch_address s : admissible s -> useSearch (address s) = s.
Proof.
  intros [Hd Hs]. unfold useSearch, validateSearch.
  rewrite (field_of_address s "q" z_string), (field_of_address s "since" (z_enum (map chip_string WINDOW_CHIPS))),
    (field_of_address s "day" z_day), (field_of_address s "vendor" z_string),
    (field_of_address s "evidence" (z_enum ["A"; "B"; "C"; "D"; "E"; "F"; "G"; "H"])),
    (field_of_address s "operator" (z_enum ["yes"; "no"])), (field_of_address s "group" (z_enum ["aircraft"; "none"])),
    (field_of_address s "sort" (z_enum FLIGHT_SORT_VALUES)), (field_of_address s "view" (z_enum ["lanes"; "list"])) by done.
  unfold search_params. rewrite !assoc_params
    by apply distinct_keys.
  destruct s as [q since day vendor evidence operator group sort view]. cbn in Hd, Hs |- *.
  assert ((match day with Some v => if is_day v then Some v else None | None => None end) = day) as ->.
  { destruct day as [d|]; [|done]. by rewrite (Hd d). }
  assert ((match sort with Some v => if existsb (String.eqb v) FLIGHT_SORT_VALUES then Some v else None | None => None end) = sort) as Hsort.
  { destruct sort as [v|]; [|done]. rewrite (proj2 (existsb_exists _ _)); [done|]. exists v. split; [by apply Hs|apply String.eqb_refl]. }
  f_equal; try done; try exact Hsort; [by destruct q| | by destruct vendor | | | |].
  - by destruct since as [[]|].
  - by destruct evidence as [[]|].
  - by destruct operator as [[]|].
  - by destruct group as [[]|].
  - by destruct view as [[]|].
Qed.

(** Whatever an address holds, what it is read as is admissible. *)
Lemma useSearch_admissible url : admissible (useSearch url).
Proof.
  assert (forall key f v, assoc key tracksSearchSchema = Some f -> field (parseSearch url) key = Some v -> takes f v = true) as H.
  { intros key f v Hf. unfold field. rewrite Hf. intros Hv.
    destruct (assoc key (parseSearch url)) as [[| | |s| |]|];
      try (rewrite zod_catches in Hv by done; discriminate Hv).
    destruct (takes f s) eqn:E; [rewrite zod_takes in Hv by done; congruence | rewrite zod_refuses in Hv by done; discriminate]. }
  split; intros v Hv.
  - by apply (H "day" z_day v).
  - apply (H "sort" (z_enum FLIGHT_SORT_VALUES) v) in Hv; [|done].
    apply existsb_exists in Hv as (w & Hw & ->%String.eqb_eq). done.
Qed.
End Facts.

End TracksSearch.

(** ** The history on the page *)
Module History.

(** [byId.set(track.track_id, track)]: a known id keeps its place. *)
Fixpoint set_by_id (t : Track) (byId : list Track) : list Track :=
  match byId with
  | [] => [t]
  | u :: byId' => if tr_track_id u === tr_track_id t then t :: byId' else u :: set_by_id t byId'
  end.

(** A socket-closed track the window still holds. *)
Definition within (since : option string) (t : Track) : bool :=
  match since with Some s => negb (tr_last_seen t <<< s) | None => true end.

Definition newest_seen_le (a b : Track) : bool := negb (tr_last_seen a <<< tr_last_seen b).

Definition closedTracks {H : HostSort} (pages : list TracksResponse) (liveClosed : list Track) (since : option string)
  : list Track :=
  let byId := fold_left (fun byId page => fold_left (fun byId t => set_by_id t byId) (trs_tracks page) byId) pages [] in
  let byId := fold_left (fun byId t => if within since t then set_by_id t byId else byId) liveClosed byId in
  host_sort newest_seen_le byId.

Definition closedTotal (pages : list TracksResponse) : option Z := trs_total <$> last pages.

(** The section's title and the button below it. *)
Definition history_title (pages : list TracksResponse) (closed : list Track) : string :=
  match closedTotal pages with
  | Some total =>
      if zlen closed <? total
      then "Flight history (" +:+ pretty (zlen closed) +:+ " of " +:+ pretty total +:+ ")"
      else "Flight history (" +:+ pretty (zlen closed) +:+ ")"
  | None => "Flight history (" +:+ pretty (zlen closed) +:+ ")"
  end.
Definition load_more (pages : list TracksResponse) (closed : list Track) (fetching : bool) : string :=
  if fetching then "Loading…"
  else match closedTotal pages with
       | Some total => "Load more (" +:+ pretty (total - zlen closed) +:+ " older)"
       | None => "Load more"
       end.

(** [t] is the last of [l] with its id. *)
Definition latest (l : list Track) (t : Track) : Prop :=
  exists a b, l = a ++ t :: b /\ ~ In (tr_track_id t) (map tr_track_id b).

Lemma set_by_id_spec t m : List.NoDup (map tr_track_id m) ->
  List.NoDup (map tr_track_id (set_by_id t m)) /\
  forall u, In u (set_by_id t m) <-> u = t \/ (In u m /\ tr_track_id u <> tr_track_id t).
Proof.
  induction m as [|v m IH]; simpl; intros Hn.
  - split; [repeat constructor; tauto|]. intros u. intuition congruence.
  - inversion Hn as [|? ? Hv Hm]; subst. destruct (IH Hm) as [IH1 IH2].
    destruct (String.eqb_spec (tr_track_id v) (tr_track_id t)) as [E|E].
    + split; [simpl; by rewrite <- E|]. intros u. simpl. split.
      * intros [<-|Hu]; [by left|]. right. split; [by right|]. rewrite <- E. intros Eu. apply Hv. rewrite <- Eu. by apply in_map.
      * intros [->|[[<-|Hu] Hne]]; [by left|done|by right].
    + split.
      * simpl. constructor; [|done]. intros (u & Hu & Hin)%in_map_iff. apply IH2 in Hin as [->|[Hin _]]; [done|].
        apply Hv. rewrite <- Hu. by apply in_map.
      * intros u. simpl. rewrite IH2. intuition congruence.
Qed.

Lemma by_id_spec l :
  let m := fold_left (fun m t => set_by_id t m) l [] in
  List.NoDup (map tr_track_id m) /\ forall t, In t m <-> latest l t.
Proof.
  induction l as [|x l IH] using rev_ind; cbv zeta.
  - split; [constructor|]. intros t. split; [done|]. intros ([|? ?] & b & E & _); discriminate E.
  - rewrite fold_left_app. simpl. destruct IH as [IH1 IH2]. destruct (set_by_id_spec x _ IH1) as [H1 H2].
    split; [done|]. intros t. rewrite H2, IH2. split.
    + intros [->|[(a&b&->&Hb) Hne]]; [exists l, []; by split; [|intros []]|]. exists a, (b ++ [x]). rewrite <- app_assoc. split; [done|].
      rewrite map_app, in_app_iff. simpl. intuition congruence.
    + intros (a & b & E & Hb). destruct b as [|y b _] using rev_ind.
      * apply app_inj_tail in E as [_ E]. by left.
      * right. rewrite app_comm_cons, app_assoc in E. apply app_inj_tail in E as [-> ->].
        rewrite map_app, in_app_iff in Hb. simpl in Hb. split; [exists a, b; tauto|]. intuition congruence.
Qed.

Lemma fold_pages pages m :
  fold_left (fun byId page => fold_left (fun byId t => set_by_id t byId) (trs_tracks page) byId) pages m =
  fold_left (fun byId t => set_by_id t byId) (concat (map trs_tracks pages)) m.
Proof. revert m. induction pages as [|p pages IH]; intros m; simpl; [done|]. by rewrite fold_left_app, IH. Qed.

Lemma fold_within since live m :
  fold_left (fun byId t => if within since t then set_by_id t byId else byId) live m =
  fold_left (fun byId t => set_by_id t byId) (List.filter (within since) live) m.
Proof. revert m. induction live as [|t live IH]; intros m; simpl; [done|]. destruct (within since t); simpl; apply IH. Qed.

(** The history is each closed flight once: the socket's version where the window
    holds it, else that of the last page fetched that has it; latest seen first. *)
Lemma closedTracks_spec {H : HostSort} {HS : HostSortLaws H} pages live since :
  let out := closedTracks pages live since in
  List.NoDup (map tr_track_id out) /\
  (forall t, In t out <-> latest (concat (map trs_tracks pages) ++ List.filter (within since) live) t) /\
  StronglySorted (fun a b => sle (tr_last_seen b) (tr_last_seen a) = true) out.
Proof.
  cbv zeta. unfold closedTracks. rewrite fold_pages, fold_within, <- fold_left_app.
  destruct (by_id_spec (concat (map trs_tracks pages) ++ List.filter (within since) live)) as [H1 H2].
  pose proof (host_sort_perm _ newest_seen_le
    (fold_left (fun m t => set_by_id t m) (concat (map trs_tracks pages) ++ List.filter (within since) live) [])) as Hp.
  split; [by rewrite <- Hp|]. split; [intros t; by rewrite <- Hp, H2|].
  apply host_sort_sorted; intros x y; [intros _ _; apply sle_total|]. intros z _ _ _ Hxy Hyz.
  by apply (sle_trans _ (tr_last_seen y)).
Qed.
End History.

(** ** The page and its controls *)
Module Page.
Import TracksSearch.

Inductive FlightSortColumn := col_start | col_duration | col_range | col_agl | col_detections | col_rssi.
#[export] Instance FlightSortColumn_eq_dec : EqDecision FlightSortColumn.
Proof. solve_decision. Defined.
Definition column_string (c : FlightSortColumn) : string :=
  match c with
  | col_start => "start" | col_duration => "duration" | col_range => "range"
  | col_agl => "agl" | col_detections => "detections" | col_rssi => "rssi"
  end.

Record FlightColumn := { fc_id : string; fc_label : string; fc_sort : option FlightSortColumn }.
Definition FLIGHT_COLUMNS : list FlightColumn :=
  [{| fc_id := "start"; fc_label := "Start"; fc_sort := Some col_start |};
   {| fc_id := "duration"; fc_label := "Duration"; fc_sort := Some col_duration |};
   {| fc_id := "path"; fc_label := "Path"; fc_sort := None |};
   {| fc_id := "range"; fc_label := "Max range"; fc_sort := Some col_range |};
   {| fc_id := "agl"; fc_label := "Max AGL"; fc_sort := Some col_agl |};
   {| fc_id := "operator"; fc_label := "Operator"; fc_sort := None |};
   {| fc_id := "detections"; fc_label := "Detections"; fc_sort := Some col_detections |};
   {| fc_id := "rssi"; fc_label := "Peak RSSI"; fc_sort := Some col_rssi |}].

Definition nextSort (current : string) (column : FlightSortColumn) : string :=
  let parsed := parseFlightSort current in
  if parsed.1 !== column_string column then column_string column +:+ "-desc"
  else if parsed.2 then column_string column +:+ "-asc" else column_string column +:+ "-desc".

(** The state of the page: the address, and what the address does not hold. *)
Record Page := {
  pg_url : string;
  pg_anchorMs : Z;
  pg_minDurationS : option num;
  pg_minDetections : option num;
  pg_selectedFlightId : option string;
  pg_ownExpandedId : option string;
  pg_collapsed : list string
}.

Definition opened (url : string) (now : Z) : Page :=
  {| pg_url := url; pg_anchorMs := now; pg_minDurationS := None; pg_minDetections := None;
     pg_selectedFlightId := None; pg_ownExpandedId := None; pg_collapsed := [] |}.

Definition set_url (url : string) (p : Page) : Page :=
  {| pg_url := url; pg_anchorMs := pg_anchorMs p; pg_minDurationS := pg_minDurationS p;
     pg_minDetections := pg_minDetections p; pg_selectedFlightId := pg_selectedFlightId p;
     pg_ownExpandedId := pg_ownExpandedId p; pg_collapsed := pg_collapsed p |}.
Definition set_anchor (now : Z) (p : Page) : Page :=
  {| pg_url := pg_url p; pg_anchorMs := now; pg_minDurationS := pg_minDurationS p;
     pg_minDetections := pg_minDetections p; pg_selectedFlightId := pg_selectedFlightId p;
     pg_ownExpandedId := pg_ownExpandedId p; pg_collapsed := pg_collapsed p |}.
Definition set_thresholds (duration detections : option num) (p : Page) : Page :=
  {| pg_url := pg_url p; pg_anchorMs := pg_anchorMs p; pg_minDurationS := duration;
     pg_minDetections := detections; pg_selectedFlightId := pg_selectedFlightId p;
     pg_ownExpandedId := pg_ownExpandedId p; pg_collapsed := pg_collapsed p |}.
Definition set_selected (id : option string) (p : Page) : Page :=
  {| pg_url := pg_url p; pg_anchorMs := pg_anchorMs p; pg_minDurationS := pg_minDurationS p;
     pg_minDetections := pg_minDetections p; pg_selectedFlightId := id;
     pg_ownExpandedId := pg_ownExpandedId p; pg_collapsed := pg_collapsed p |}.
Definition set_own (id : option string) (p : Page) : Page :=
  {| pg_url := pg_url p; pg_anchorMs := pg_anchorMs p; pg_minDurationS := pg_minDurationS p;
     pg_minDetections := pg_minDetections p; pg_selectedFlightId := pg_selectedFlightId p;
     pg_ownExpandedId := id; pg_collapsed := pg_collapsed p |}.
Definition set_collapsed (keys : list string) (p : Page) : Page :=
  {| pg_url := pg_url p; pg_anchorMs := pg_anchorMs p; pg_minDurationS := pg_minDurationS p;
     pg_minDetections := pg_minDetections p; pg_selectedFlightId := pg_selectedFlightId p;
     pg_ownExpandedId := pg_ownExpandedId p; pg_collapsed := keys |}.

Section Controls.
Context {Zd : Zod} {R : Router}.

Definition search (p : Page) : TracksSearch := useSearch (pg_url p).
Definition windowChip (p : Page) : WindowChip := ts_since (search p) ?? chip_all.
Definition group (p : Page) : GroupMode := ts_group (search p) ?? group_aircraft.
Definition sort (p : Page) : string := ts_sort (search p) ?? DEFAULT_FLIGHT_SORT.
Definition view (p : Page) : ViewMode := ts_view (search p) ?? view_list.

Definition filters (p : Page) : FlightFilters :=
  {| ff_q := ts_q (search p); ff_day := ts_day (search p); ff_vendor := ts_vendor (search p);
     ff_evidence := ts_evidence (search p); ff_operator := ts_operator (search p);
     ff_minDurationS := pg_minDurationS p; ff_minDetections := pg_minDetections p |}.

(** [navigate({ search: (prev) => ({ ...prev, ...patch }), replace: true })]. *)
Definition setSearch (patch : TracksSearch -> TracksSearch) (p : Page) : Page :=
  set_url (address (patch (search p))) p.

Definition with_day (day : option string) (s : TracksSearch) : TracksSearch :=
  {| ts_q := ts_q s; ts_since := ts_since s; ts_day := day; ts_vendor := ts_vendor s; ts_evidence := ts_evidence s;
     ts_operator := ts_operator s; ts_group := ts_group s; ts_sort := ts_sort s; ts_view := ts_view s |}.
Definition with_since (since : option WindowChip) (s : TracksSearch) : TracksSearch :=
  {| ts_q := ts_q s; ts_since := since; ts_day := ts_day s; ts_vendor := ts_vendor s; ts_evidence := ts_evidence s;
     ts_operator := ts_operator s; ts_group := ts_group s; ts_sort := ts_sort s; ts_view := ts_view s |}.
Definition with_group (group : option GroupMode) (s : TracksSearch) : TracksSearch :=
  {| ts_q := ts_q s; ts_since := ts_since s; ts_day := ts_day s; ts_vendor := ts_vendor s; ts_evidence := ts_evidence s;
     ts_operator := ts_operator s; ts_group := group; ts_sort := ts_sort s; ts_view := ts_view s |}.
Definition with_sort (sort : option string) (s : TracksSearch) : TracksSearch :=
  {| ts_q := ts_q s; ts_since := ts_since s; ts_day := ts_day s; ts_vendor := ts_vendor s; ts_evidence := ts_evidence s;
     ts_operator := ts_operator s; ts_group := ts_group s; ts_sort := sort; ts_view := ts_view s |}.
Definition with_view (view : option ViewMode) (s : TracksSearch) : TracksSearch :=
  {| ts_q := ts_q s; ts_since := ts_since s; ts_day := ts_day s; ts_vendor := ts_vendor s; ts_evidence := ts_evidence s;
     ts_operator := ts_operator s; ts_group := ts_group s; ts_sort := ts_sort s; ts_view := view |}.
Definition with_filters (f : FlightFilters) (s : TracksSearch) : TracksSearch :=
  {| ts_q := ff_q f; ts_since := ts_since s; ts_day := ff_day f; ts_vendor := ff_vendor f; ts_evidence := ff_evidence f;
     ts_operator := ff_operator f; ts_group := ts_group s; ts_sort := ts_sort s; ts_view := ts_view s |}.

Definition onFiltersChange (next : FlightFilters) (p : Page) : Page :=
  setSearch (with_filters next) (set_thresholds (ff_minDurationS next) (ff_minDetections next) p).
Definition onDayChange (day : option string) (p : Page) : Page := setSearch (with_day day) p.
Definition onWindowChange (next : WindowChip) (now : Z) (p : Page) : Page :=
  setSearch (with_since (match next with chip_all => None | _ => Some next end)) (set_anchor now p).
Definition onGroupChange (next : GroupMode) (p : Page) : Page :=
  setSearch (with_group (match next with group_aircraft => None | _ => Some next end)) p.
Definition onSortChange (next : string) (p : Page) : Page :=
  setSearch (with_sort (if next === DEFAULT_FLIGHT_SORT then None else Some next)) p.
Definition onViewChange (next : ViewMode) (p : Page) : Page :=
  setSearch (with_view (match next with view_list => None | _ => Some next end)) p.

(** The table's open row: the page's selection in lanes, the table's own otherwise. *)
Definition expandedId (p : Page) : option string :=
  match view p with view_lanes => pg_selectedFlightId p | view_list => pg_ownExpandedId p end.
Definition setExpandedId (id : option string) (p : Page) : Page :=
  match view p with view_lanes => set_selected id p | view_list => set_own id p end.

(** [filters[key] === value ? undefined : value]. *)
Definition toggled {A} `{EqDecision A} (current : option A) (value : A) : option A :=
  if bool_decide (current = Some value) then None else Some value.
Definition toggled_num (current : option num) (value : num) : option num :=
  if is_some_num current value then None else Some value.

(** What an operator can do on the page. *)
Inductive Event :=
| typed (text : string)
| vendor_chip (v : string) | evidence_chip (c : DetectionClass) | operator_chip (o : YesNo)
| duration_chip (n : num) | detections_chip (n : num)
| group_chosen (g : GroupMode) | view_chosen (v : ViewMode)
| window_clicked (chip : WindowChip) (now : Z)
| day_bar (key : string) | day_cleared
| header_clicked (column : FlightSortColumn)
| bar_picked (trackId : string) | row_clicked (trackId : string) | group_clicked (key : string).

Definition upd_q (v : option string) (f : FlightFilters) : FlightFilters :=
  {| ff_q := v; ff_day := ff_day f; ff_vendor := ff_vendor f; ff_evidence := ff_evidence f; ff_operator := ff_operator f;
     ff_minDurationS := ff_minDurationS f; ff_minDetections := ff_minDetections f |}.
Definition upd_vendor (v : option string) (f : FlightFilters) : FlightFilters :=
  {| ff_q := ff_q f; ff_day := ff_day f; ff_vendor := v; ff_evidence := ff_evidence f; ff_operator := ff_operator f;
     ff_minDurationS := ff_minDurationS f; ff_minDetections := ff_minDetections f |}.
Definition upd_evidence (v : option DetectionClass) (f : FlightFilters) : FlightFilters :=
  {| ff_q := ff_q f; ff_day := ff_day f; ff_vendor := ff_vendor f; ff_evidence := v; ff_operator := ff_operator f;
     ff_minDurationS := ff_minDurationS f; ff_minDetections := ff_minDetections f |}.
Definition upd_operator (v : option YesNo) (f : FlightFilters) : FlightFilters :=
  {| ff_q := ff_q f; ff_day := ff_day f; ff_vendor := ff_vendor f; ff_evidence := ff_evidence f; ff_operator := v;
     ff_minDurationS := ff_minDurationS f; ff_minDetections := ff_minDetections f |}.
Definition upd_duration (v : option num) (f : FlightFilters) : FlightFilters :=
  {| ff_q := ff_q f; ff_day := ff_day f; ff_vendor := ff_vendor f; ff_evidence := ff_evidence f; ff_operator := ff_operator f;
     ff_minDurationS := v; ff_minDetections := ff_minDetections f |}.
Definition upd_detections (v : option num) (f : FlightFilters) : FlightFilters :=
  {| ff_q := ff_q f; ff_day := ff_day f; ff_vendor := ff_vendor f; ff_evidence := ff_evidence f; ff_operator := ff_operator f;
     ff_minDurationS := ff_minDurationS f; ff_minDetections := v |}.

(** The filters a chip or the search box asks for. *)
Definition asked (f : FlightFilters) (e : Event) : option FlightFilters :=
  match e with
  | typed text => Some (upd_q (truthy (Some text)) f)
  | vendor_chip v => Some (upd_vendor (toggled (ff_vendor f) v) f)
  | evidence_chip c => Some (upd_evidence (toggled (ff_evidence f) c) f)
  | operator_chip o => Some (upd_operator (toggled (ff_operator f) o) f)
  | duration_chip n => Some (upd_duration (toggled_num (ff_minDurationS f) n) f)
  | detections_chip n => Some (upd_detections (toggled_num (ff_minDetections f) n) f)
  | _ => None
  end.

Definition toggle_key (key : string) (keys : list string) : list string :=
  if existsb (String.eqb key) keys then List.filter (fun k => k !== key) keys else keys ++ [key].

Definition step (p : Page) (e : Event) : Page :=
  match asked (filters p) e with
  | Some next => onFiltersChange next p
  | None =>
      match e with
      | group_chosen g => onGroupChange g p
      | view_chosen v => onViewChange v p
      | window_clicked chip now => onDayChange None (onWindowChange chip now p)
      | day_bar key => onDayChange (toggled (ts_day (search p)) key) p
      | day_cleared => onDayChange None p
      | header_clicked column => onSortChange (nextSort (sort p) column) p
      | bar_picked id => set_selected (toggled (pg_selectedFlightId p) id) p
      | row_clicked id => setExpandedId (toggled (expandedId p) id) p
      | group_clicked key => set_collapsed (toggle_key key (pg_collapsed p)) p
      | _ => p
      end
  end.

(** What the page shows of its history. *)
Definition visibleClosed {zone : Zone} (p : Page) (closed : list Track) (utc : bool) : list Track :=
  filterFlights closed (filters p) utc None.
Definition filtering {zone : Zone} (p : Page) (closed : list Track) (utc : bool) : bool :=
  negb (zlen (visibleClosed p closed utc) =? zlen closed).
Definition facets {zone : Zone} {C : Collation} (p : Page) (closed : list Track) (utc : bool) : FlightFacets :=
  flightFacets closed (filters p) utc.
End Controls.
End Page.

(** ** What the controls do *)
Module View.
Import TracksSearch Page.

(** The list an operator is looking at, with every default resolved. *)
Record View := {
  vw_filters : FlightFilters;
  vw_chip : WindowChip;
  vw_group : GroupMode;
  vw_sort : string * bool;
  vw_mode : ViewMode
}.

(** A control acts on one part of the view and leaves the others. *)
Definition view_step (v : View) (e : Event) : View :=
  let with_filters f := {| vw_filters := f; vw_chip := vw_chip v; vw_group := vw_group v; vw_sort := vw_sort v;
                           vw_mode := vw_mode v |} in
  let on_day day := {| ff_q := ff_q (vw_filters v); ff_day := day; ff_vendor := ff_vendor (vw_filters v);
                       ff_evidence := ff_evidence (vw_filters v); ff_operator := ff_operator (vw_filters v);
                       ff_minDurationS := ff_minDurationS (vw_filters v);
                       ff_minDetections := ff_minDetections (vw_filters v) |} in
  match e with
  | group_chosen g => {| vw_filters := vw_filters v; vw_chip := vw_chip v; vw_group := g; vw_sort := vw_sort v;
                         vw_mode := vw_mode v |}
  | view_chosen m => {| vw_filters := vw_filters v; vw_chip := vw_chip v; vw_group := vw_group v; vw_sort := vw_sort v;
                        vw_mode := m |}
  | window_clicked chip _ => {| vw_filters := on_day None; vw_chip := chip; vw_group := vw_group v;
                                vw_sort := vw_sort v; vw_mode := vw_mode v |}
  | day_bar key => with_filters (on_day (toggled (ff_day (vw_filters v)) key))
  | day_cleared => with_filters (on_day None)
  | header_clicked c =>
      {| vw_filters := vw_filters v; vw_chip := vw_chip v; vw_group := vw_group v;
         vw_sort := (column_string c, if (vw_sort v).1 === column_string c then negb (vw_sort v).2 else true);
         vw_mode := vw_mode v |}
  | bar_picked _ | row_clicked _ | group_clicked _ => v
  | _ => match asked (vw_filters v) e with Some f => with_filters f | None => v end
  end.

(** The bars of the histogram are days. *)
Definition day_shown (e : Event) : Prop := match e with day_bar key => is_day key = true | _ => True end.

Definition without_thresholds (v : View) : View :=
  {| vw_filters := upd_duration None (upd_detections None (vw_filters v)); vw_chip := vw_chip v; vw_group := vw_group v;
     vw_sort := vw_sort v; vw_mode := vw_mode v |}.

Section Refinement.
Context {Zd : Zod} {HZ : ZodLaws Zd} {R : Router} {HR : RouterLaws R}.

Definition view_of (p : Page) : View :=
  {| vw_filters := filters p; vw_chip := windowChip p; vw_group := group p; vw_sort := parseFlightSort (sort p);
     vw_mode := view p |}.

(** A change of the address lands, when the address can hold it. *)
Lemma setSearch_lands patch p : admissible (patch (search p)) -> search (setSearch patch p) = patch (search p).
Proof. apply useSearch_address. Qed.

Lemma search_admissible p : admissible (search p).
Proof. apply useSearch_admissible. Qed.

Lemma sort_known p : In (sort p) FLIGHT_SORT_VALUES.
Proof.
  destruct (search_admissible p) as [_ H]. unfold sort. destruct (ts_sort (search p)) as [v|] eqn:E; [by apply H|].
  cbn. tauto.
Qed.

Lemma nextSort_spec current c : In current FLIGHT_SORT_VALUES ->
  In (nextSort current c) FLIGHT_SORT_VALUES /\
  parseFlightSort (nextSort current c) =
    (column_string c, if (parseFlightSort current).1 === column_string c then negb (parseFlightSort current).2 else true).
Proof.
  intros H. assert (forallb (fun cur =>
    existsb (String.eqb (nextSort cur c)) FLIGHT_SORT_VALUES &&
    bool_decide (parseFlightSort (nextSort cur c) =
      (column_string c, if (parseFlightSort cur).1 === column_string c then negb (parseFlightSort cur).2 else true)))
    FLIGHT_SORT_VALUES = true) as Hall by (by destruct c; vm_compute).
  rewrite forallb_forall in Hall. apply Hall in H. apply andb_true_iff in H as [H1 H2%bool_decide_eq_true].
  split; [|done]. apply existsb_exists in H1 as (w & Hw & ->%String.eqb_eq). done.
Qed.

Lemma asked_keeps_day f e next : asked f e = Some next -> ff_day next = ff_day f.
Proof. destruct e; by intros [= <-]. Qed.

Lemma filters_land next p : ff_day next = ff_day (filters p) ->
  view_of (onFiltersChange next p) =
  {| vw_filters := next; vw_chip := windowChip p; vw_group := group p; vw_sort := parseFlightSort (sort p); vw_mode := view p |}.
Proof.
  intros Hd. unfold view_of, filters, windowChip, group, sort, view, onFiltersChange.
  rewrite setSearch_lands.
  - by destruct next.
  - destruct (search_admissible p) as [H1 H2]. split; [|exact H2]. cbn in *. rewrite Hd. exact H1.
Qed.

(** One control, one step of the view. *)
Lemma step_view p e : day_shown e -> view_of (step p e) = view_step (view_of p) e.
Proof.
  intros He. unfold step. destruct (asked (filters p) e) as [next|] eqn:Ea.
  - rewrite filters_land by (by apply (asked_keeps_day _ e)).
    destruct e; (try discriminate Ea); cbn [view_step view_of vw_filters]; by rewrite Ea.
  - pose proof (search_admissible p) as [Hd Hs].
    destruct e; (try discriminate Ea); cbn [view_step].
    + unfold view_of, filters, windowChip, group, sort, view, onGroupChange. rewrite setSearch_lands by done. by destruct g.
    + unfold view_of, filters, windowChip, group, sort, view, onViewChange. rewrite setSearch_lands by done. by destruct v.
    + unfold view_of, filters, windowChip, group, sort, view, onDayChange, onWindowChange.
      assert (search (setSearch (with_since (match chip with chip_all => None | _ => Some chip end)) (set_anchor now p)) =
        with_since (match chip with chip_all => None | _ => Some chip end) (search p)) as Hw
        by (apply (setSearch_lands _ (set_anchor now p)); by split).
      rewrite setSearch_lands; rewrite Hw; [by destruct chip|]. by split.
    + unfold view_of, filters, windowChip, group, sort, view, onDayChange. rewrite setSearch_lands; [done|].
      split; [|exact Hs]. cbn. unfold toggled. case_bool_decide; [done|]. by intros d [= <-].
    + unfold view_of, filters, windowChip, group, sort, view, onDayChange. by rewrite setSearch_lands.
    + destruct (nextSort_spec (sort p) column (sort_known p)) as [Hin Hn].
      set (next := nextSort (sort p) column) in *. clearbody next.
      assert (search (onSortChange next p) =
        with_sort (if next === DEFAULT_FLIGHT_SORT then None else Some next) (search p)) as Hse.
      { apply setSearch_lands. split; [exact Hd|]. cbn [with_sort ts_sort].
        destruct (next === DEFAULT_FLIGHT_SORT); [done|]. by intros v [= <-]. }
      assert (sort (onSortChange next p) = next) as Hso.
      { unfold sort at 1. rewrite Hse. cbn. by destruct (String.eqb_spec next DEFAULT_FLIGHT_SORT) as [->|]. }
      unfold view_of. rewrite Hso, Hn. unfold filters, windowChip, group, view. by rewrite Hse.
    + done.
    + unfold setExpandedId. by destruct (view p).
    + done.
Qed.

(** C30. The list follows its controls, and its address holds all of it but two
    thresholds.  From the view any address opens on, a stale or hand-edited one
    included, every run of the search box, the chips, the histogram, the headers and
    the toggles leaves the view each control asks for, as long as a bar that is
    clicked names a day the address can hold, one of a year of four digits.  The
    same address opened anew then shows the same search, day, vendor, evidence,
    operator, window, grouping, sort and layout; the two thresholds, of duration and
    of detections, are the session's, are not in the address, and are unset. *)
Theorem controls_drive_the_view (url : string) (now now' : Z) (events : list Event) :
  List.Forall day_shown events ->
  let p := fold_left step events (opened url now) in
  view_of p = fold_left view_step events (view_of (opened url now)) /\
  view_of (opened (pg_url p) now') = without_thresholds (view_of p).
Proof.
  intros He. cbv zeta. split; [|done]. revert He. generalize (opened url now).
  induction events as [|e events IH]; intros p H; [done|]. inversion H; subst. cbn [fold_left].
  rewrite IH by done. by rewrite step_view.
Qed.

(** *** Counts and clicks *)

Context {zone : Zone} {C : Collation}.

Lemma filters_after p e next : asked (filters p) e = Some next -> filters (step p e) = next.
Proof.
  intros Ha. unfold step. rewrite Ha.
  pose proof (filters_land next p (asked_keeps_day _ _ _ Ha)) as H. by apply (f_equal vw_filters) in H.
Qed.

(** A chip's count is the number of rows its click leaves. *)
Definition promised {T} (p : Page) (closed : list Track) (utc : bool) (options : list (FacetOption T))
    (selected : T -> bool) (click : T -> Event) : Prop :=
  forall o, In o options -> selected (fo_value o) = false ->
  zlen (visibleClosed (step p (click (fo_value o))) closed utc) = fo_count o.

Lemma offers_promise {T} p closed utc (options : list (FacetOption T)) (set : T -> FlightFilters) candidate selected click :
  offers options (fun v => filterFlights closed (set v) utc None) candidate selected ->
  (forall v, selected v = false -> asked (filters p) (click v) = Some (set v)) ->
  promised p closed utc options selected click.
Proof.
  intros Ho Ha o Hin Hs. rewrite (of_counts _ _ _ _ Ho o Hin). unfold visibleClosed.
  by rewrite (filters_after _ _ _ (Ha _ Hs)).
Qed.

Lemma toggled_new {A} `{EqDecision A} (current : option A) v :
  bool_decide (current = Some v) = false -> toggled current v = Some v.
Proof. unfold toggled. by intros ->. Qed.

Lemma toggled_num_new current v : is_some_num current v = false -> toggled_num current v = Some v.
Proof. unfold toggled_num. by intros ->. Qed.

Definition no_filters : FlightFilters :=
  {| ff_q := None; ff_day := None; ff_vendor := None; ff_evidence := None; ff_operator := None;
     ff_minDurationS := None; ff_minDetections := None |}.

Definition with_bar (key : string) : FlightFilters :=
  {| ff_q := None; ff_day := Some key; ff_vendor := None; ff_evidence := None; ff_operator := None;
     ff_minDurationS := None; ff_minDetections := None |}.

Lemma shown_days_ordinary closed h days d :
  List.Forall ordinary_start closed -> histogram_of closed h days -> In d days ->
  DayFromYear 100 <= d < DayFromYear 10000.
Proof.
  intros Ho Hh Hd. pose proof (ordinary_days _ Ho) as Hr. pose proof (ho_axis _ _ _ Hh) as Ha.
  destruct (dh_contiguous h).
  - destruct Ha as (a & n & -> & _ & Hends). apply list_elem_of_In, elem_of_seqZ in Hd.
    destruct Hends as [H1 H2]; [lia|]. apply flights_on_pos, Hr in H1. apply flights_on_pos, Hr in H2. lia.
  - destruct Ha as [Ha _]. apply Ha, flights_on_pos, Hr in Hd. done.
Qed.

(** In the address a day filters by its range, which is the bar's day. *)
Lemma day_filter closed d : DayFromYear 100 <= d < DayFromYear 10000 ->
  zlen (filterFlights closed (with_bar (print_day d)) true None) = flights_on d closed.
Proof.
  intros Hd. unfold filterFlights, flights_on. f_equal. apply List.filter_ext. intros t.
  assert (truthy (Some (print_day d)) = Some (print_day d)) as Ht.
  { unfold truthy. destruct (print_day d) eqn:E; [|done]. pose proof (dayRange_print d Hd) as H. rewrite E in H. done. }
  unfold ALL_FACETS. cbn [forallb matchesFacet with_bar ff_q ff_day ff_vendor ff_evidence ff_operator ff_minDurationS ff_minDetections].
  rewrite Ht. cbn [mbind option_bind]. rewrite (dayRange_print d Hd). unfold flies_on, flightStartMs.
  destruct (Date_parse (tr_first_seen t)) as [ms|]; [|done]. cbn [dr_startMs dr_endMs].
  rewrite !bool_decide_false by done. cbn [orb andb fmap option_fmap option_map truthy]. rewrite !andb_true_r.
  apply eq_true_iff_eq. unfold day_of, msPerDay. rewrite andb_true_iff, Z.eqb_eq, Z.leb_le, Z.ltb_lt.
  split; intros H; [symmetry; apply (Z.div_unique _ _ _ (ms - d * 86400000)); lia | subst d].
  pose proof (Z.mul_div_le ms 86400000). pose proof (Z.mul_succ_div_gt ms 86400000). lia.
Qed.

(** A click on a bar shows the flights of that day, when nothing else narrows. *)
Lemma bar_shows_its_day p closed b :
  List.Forall ordinary_start closed -> In b (dh_buckets (bucketFlightsByDay closed true)) -> filters p = no_filters ->
  is_day (db_key b) = true /\ zlen (visibleClosed (step p (day_bar (db_key b))) closed true) = db_count b.
Proof.
  intros Ho Hb Hf. destruct (histogram_ok closed Ho) as (days & Hh). rewrite (ho_buckets _ _ _ Hh) in Hb.
  apply in_map_iff in Hb as (d & <- & Hin). pose proof (shown_days_ordinary _ _ _ _ Ho Hh Hin) as Hd.
  cbn [db_key db_count day_bucket].
  assert (is_day (print_day d) = true) as Hday.
  { pose proof (dayRange_print d Hd) as H. unfold is_day. unfold dayRangeMs in H. by destruct (read_key (print_day d)). }
  split; [exact Hday|]. rewrite <- day_filter by done. unfold visibleClosed.
  pose proof (step_view p (day_bar (print_day d)) Hday) as H. apply (f_equal vw_filters) in H.
  cbn [vw_filters view_of view_step] in H. rewrite H. by rewrite Hf.
Qed.

(** A count on the page is what its click gives, with the address between them:
    on any page, each option of each facet that is not chosen shows the number of
    rows the list has once its chip is clicked; a chip clicked again is taken
    back; and each bar of the histogram over UTC days, where nothing else narrows
    the list, shows the number of rows left by a click on it. *)
Lemma a_click_gives_what_it_shows (p : Page) (closed : list Track) (utc : bool) :
  let fs := facets p closed utc in
  let f := filters p in
  promised p closed utc (fs_vendor fs) (fun v => bool_decide (ff_vendor f = Some v)) vendor_chip /\
  promised p closed utc (fs_evidence fs) (fun c => bool_decide (ff_evidence f = Some c)) evidence_chip /\
  promised p closed utc (fs_operator fs) (fun o => bool_decide (ff_operator f = Some o)) operator_chip /\
  promised p closed utc (fs_duration fs) (is_some_num (ff_minDurationS f)) duration_chip /\
  promised p closed utc (fs_detections fs) (is_some_num (ff_minDetections f)) detections_chip /\
  (forall v, ff_vendor f = None -> filters (fold_left step [vendor_chip v; vendor_chip v] p) = f) /\
  (List.Forall ordinary_start closed -> f = no_filters ->
   forall b, In b (dh_buckets (bucketFlightsByDay closed true)) ->
   zlen (visibleClosed (step p (day_bar (db_key b))) closed true) = db_count b).
Proof.
  cbv zeta. split_and!.
  - eapply offers_promise; [apply vendor_offers|]. intros v Hs. cbn [asked]. by rewrite toggled_new.
  - eapply offers_promise; [apply evidence_offers|]. intros v Hs. cbn [asked]. by rewrite toggled_new.
  - eapply offers_promise; [apply operator_offers|]. intros v Hs. cbn [asked]. by rewrite toggled_new.
  - eapply offers_promise; [apply duration_offers|]. intros v Hs. cbn [asked]. by rewrite toggled_num_new.
  - eapply offers_promise; [apply detections_offers|]. intros v Hs. cbn [asked]. by rewrite toggled_num_new.
  - intros v Hv. cbn [fold_left].
    rewrite (filters_after _ _ (upd_vendor None (upd_vendor (Some v) (filters p)))).
    + destruct (filters p). cbn in Hv. by rewrite Hv.
    + rewrite (filters_after p _ (upd_vendor (Some v) (filters p))) by (cbn [asked]; by rewrite Hv).
      cbn [asked upd_vendor ff_vendor]. unfold toggled. by rewrite bool_decide_true.
  - intros Ho Hf b Hb. by apply bar_shows_its_day.
Qed.
End Refinement.
End View.

(** ** The rows *)
Module Table.
Import TracksSearch Page.

(** A row of the table: a group's header, or a flight; a flight outside a group
    carries its identity, dimmed when it repeats the row above. *)
Inductive Row :=
| header_row (key label : string) (flights : Z) (collapsed : bool)
| flight_row (t : Track) (identity : option bool) (expanded : bool).

Definition is_expanded (expandedId : option string) (t : Track) : bool := bool_decide (expandedId = Some (tr_track_id t)).

Fixpoint rowsFor (previous : option Track) (flights : list Track) (withIdentity : bool) (expandedId : option string)
  : list Row :=
  match flights with
  | [] => []
  | t :: flights' =>
      let repeated := match previous with Some u => aircraftLabel u === aircraftLabel t | None => false end in
      flight_row t (if withIdentity then Some repeated else None) (is_expanded expandedId t) ::
      rowsFor (Some t) flights' withIdentity expandedId
  end.

Definition group_rows (collapsed : list string) (expandedId : option string) (g : AircraftGroup) : list Row :=
  let hidden := existsb (String.eqb (gr_key g)) collapsed in
  header_row (gr_key g) (gr_label g) (zlen (gr_flights g)) hidden ::
  (if hidden then [] else rowsFor None (gr_flights g) false expandedId).

Section Rows.
Context {Zd : Zod} {R : Router} (distanceMetres : num * num -> num * num -> num).

Definition rows (p : Page) (tracks : list Track) (receiver : option ReceiverPosition) : list Row :=
  let sorted := sortFlights distanceMetres tracks (sort p) receiver in
  match group p with
  | group_aircraft => List.concat (map (group_rows (pg_collapsed p) (expandedId p)) (groupByAircraft sorted))
  | group_none => rowsFor None sorted true (expandedId p)
  end.

(** The table's message when it has no row. *)
Definition empty_title (tracks : list Track) (filtered : bool) (emptyTitle : string) : option string :=
  match tracks with
  | [] => Some (if filtered then "No flights match the filter" else emptyTitle)
  | _ => None
  end.
End Rows.

(** *** Reading the rows *)

Definition flights_of (rs : list Row) : list Track := omap (fun r => match r with flight_row t _ _ => Some t | _ => None end) rs.
Definition open_rows (rs : list Row) : list Row :=
  List.filter (fun r => match r with flight_row _ _ e => e | _ => false end) rs.
Definition counts_of (rs : list Row) : list Z := omap (fun r => match r with header_row _ _ n _ => Some n | _ => None end) rs.
Definition keys_of (rs : list Row) : list string := omap (fun r => match r with header_row k _ _ _ => Some k | _ => None end) rs.

(** Every flight stands under the header of its own aircraft. *)
Fixpoint well_headed (current : option string) (rs : list Row) : bool :=
  match rs with
  | [] => true
  | header_row key _ _ _ :: rs' => well_headed (Some key) rs'
  | flight_row t _ _ :: rs' => bool_decide (current = Some (aircraftKey t)) && well_headed current rs'
  end.

(** The flights the operator has not folded away. *)
Definition unfolded {Zd : Zod} {R : Router} (p : Page) (t : Track) : bool :=
  match group p with
  | group_aircraft => negb (existsb (String.eqb (aircraftKey t)) (pg_collapsed p))
  | group_none => true
  end.

Lemma rowsFor_flights prev l w e : flights_of (rowsFor prev l w e) = l.
Proof.
  revert prev. induction l as [|t l IH]; intros prev; [done|]. unfold flights_of in *. cbn [rowsFor].
  change (omap ?f (?x :: ?xs)) with (match f x with Some y => y :: omap f xs | None => omap f xs end). by rewrite IH.
Qed.

Lemma rowsFor_no_headers prev l w e : counts_of (rowsFor prev l w e) = [] /\ keys_of (rowsFor prev l w e) = [].
Proof. revert prev. induction l as [|t l IH]; intros prev; [done|]. apply IH. Qed.

Lemma rowsFor_headed prev l w e k rest :
  (forall t, In t l -> aircraftKey t = k) -> well_headed (Some k) rest = true ->
  well_headed (Some k) (rowsFor prev l w e ++ rest) = true.
Proof.
  revert prev. induction l as [|t l IH]; intros prev H Hr; [done|]. cbn [rowsFor app well_headed].
  rewrite (H t) by (by left). rewrite bool_decide_true by done. apply IH; [|done]. intros u Hu. apply H. by right.
Qed.

Lemma rowsFor_open prev l w e :
  List.length (open_rows (rowsFor prev l w e)) = List.length (List.filter (is_expanded e) l).
Proof.
  revert prev. induction l as [|t l IH]; intros prev; [done|]. unfold open_rows in *. cbn [rowsFor List.filter].
  destruct (is_expanded e t); cbn [List.length]; by rewrite IH.
Qed.

Lemma flights_of_app a b : flights_of (a ++ b) = flights_of a ++ flights_of b.
Proof. apply omap_app. Qed.

Lemma group_flights collapsed e g :
  flights_of (group_rows collapsed e g) = if existsb (String.eqb (gr_key g)) collapsed then [] else gr_flights g.
Proof.
  unfold group_rows. destruct (existsb _ _); [done|]. exact (rowsFor_flights None (gr_flights g) false e).
Qed.

Lemma sortFlights_perm distance tracks s receiver : Permutation tracks (sortFlights distance tracks s receiver).
Proof.
  unfold sortFlights. destruct (parseFlightSort s) as [column desc].
  pose proof (Permutation_map fst (sort_by_perm (value_le desc) (map (fun t => (t, sortValue distance t column receiver)) tracks))) as H.
  rewrite map_map in H. cbn in H. by rewrite map_id in H.
Qed.

Lemma count_by_id (tracks : list Track) e :
  List.NoDup (map tr_track_id tracks) -> (List.length (List.filter (is_expanded e) tracks) <= 1)%nat.
Proof.
  induction tracks as [|t l IH]; cbn [map List.filter]; intros Hn; [simpl; lia|].
  inversion Hn as [|? ? Ht Hl]; subst. destruct (is_expanded e t) eqn:E; [|by apply IH].
  rewrite filter_none; [simpl; lia|]. intros u Hu. unfold is_expanded in *. apply bool_decide_eq_true in E as ->.
  apply bool_decide_false. intros [= H]. apply Ht. rewrite H. by apply in_map.
Qed.

Section Groups.
Context (collapsed : list string) (e : option string) (sorted : list Track).

Lemma groups_flights gs : Grouped sorted gs ->
  Permutation (flights_of (List.concat (map (group_rows collapsed e) gs)))
    (List.filter (fun t => negb (existsb (String.eqb (aircraftKey t)) collapsed)) sorted).
Proof.
  intros [Hn Hg Ha].
  transitivity (List.filter (fun t => existsb (String.eqb (aircraftKey t)) (map gr_key gs) &&
                                      negb (existsb (String.eqb (aircraftKey t)) collapsed)) sorted).
  - rewrite <- (keyed_concat aircraftKey (fun k => negb (existsb (String.eqb k) collapsed)) (map gr_key gs)) by done.
    clear Hn Ha. induction Hg as [|g gs Hg Hgs IH]; [done|]. cbn [map List.concat]. rewrite flights_of_app, group_flights, IH.
    destruct (existsb _ _); cbn [negb]; [done|]. by rewrite (go_flights _ _ Hg).
  - erewrite List.filter_ext_in; [done|]. intros t Ht. cbn beta.
    assert (existsb (String.eqb (aircraftKey t)) (map gr_key gs) = true) as ->; [|done].
    apply existsb_exists. exists (aircraftKey t). split; [by apply Ha|apply String.eqb_refl].
Qed.

Lemma groups_headers gs : Grouped sorted gs ->
  keys_of (List.concat (map (group_rows collapsed e) gs)) = map gr_key gs /\
  zsum (counts_of (List.concat (map (group_rows collapsed e) gs))) = zlen sorted.
Proof.
  intros [Hn Hg Ha].
  assert (forall g, keys_of (group_rows collapsed e g) = [gr_key g] /\ counts_of (group_rows collapsed e g) = [zlen (gr_flights g)]) as Hone.
  { intros g. unfold group_rows. destruct (existsb _ _); [done|].
    destruct (rowsFor_no_headers None (gr_flights g) false e) as [H1 H2].
    unfold counts_of, keys_of in *. cbn. by rewrite H1, H2. }
  assert (keys_of (List.concat (map (group_rows collapsed e) gs)) = map gr_key gs /\
          zsum (counts_of (List.concat (map (group_rows collapsed e) gs))) = zlen (List.concat (map gr_flights gs))) as [H1 H2].
  { clear Hn Hg Ha. induction gs as [|g gs [IH1 IH2]]; [done|]. destruct (Hone g) as [K1 K2]. cbn [map List.concat].
    unfold keys_of, counts_of in *. rewrite !omap_app, IH1, K1, K2. split; [done|].
    change (zsum ([?x] ++ ?l)) with (x + zsum l). rewrite IH2. unfold zlen. rewrite length_app. lia. }
  split; [done|]. rewrite H2.
  assert (Permutation (List.concat (map gr_flights gs)) (List.filter (fun t => existsb (String.eqb (aircraftKey t)) (map gr_key gs) && true) sorted)) as Hp.
  { rewrite <- (keyed_concat aircraftKey (fun _ => true) (map gr_key gs)) by done. clear -Hg.
    induction Hg as [|g gs Hg Hgs IH]; [done|]. cbn [map List.concat]. by rewrite IH, (go_flights _ _ Hg). }
  unfold zlen. rewrite Hp. rewrite filter_all; [done|]. intros t Ht. apply andb_true_iff. split; [|done].
  apply existsb_exists. exists (aircraftKey t). split; [by apply Ha|apply String.eqb_refl].
Qed.

Lemma groups_headed gs current : List.Forall (group_of sorted) gs ->
  well_headed current (List.concat (map (group_rows collapsed e) gs)) = true.
Proof.
  intros Hg. revert current. induction Hg as [|g gs Hg Hgs IH]; intros current; [done|].
  cbn [map List.concat]. unfold group_rows at 1. cbn [app well_headed].
  destruct (existsb _ _); [apply IH|]. apply rowsFor_headed; [|apply IH].
  intros t Ht. rewrite (go_flights _ _ Hg) in Ht. apply filter_In in Ht as [_ ->%String.eqb_eq]. done.
Qed.

Lemma groups_open gs :
  List.length (open_rows (List.concat (map (group_rows collapsed e) gs))) =
  List.length (List.filter (is_expanded e) (flights_of (List.concat (map (group_rows collapsed e) gs)))).
Proof.
  induction gs as [|g gs IH]; [done|]. cbn [map List.concat]. rewrite flights_of_app.
  unfold open_rows in *. rewrite !List.filter_app, !length_app, IH. f_equal. clear IH.
  rewrite group_flights. unfold group_rows. destruct (existsb _ _); [done|]. exact (rowsFor_open None (gr_flights g) false e).
Qed.
End Groups.

(** C29. Each flight has its row: of the history on the page (the pages fetched and
    what the socket closed since), exactly the flights the filters admit and no
    folded group hides have a row, each one row; ungrouped, the rows are in the
    sort's order; grouped, every row stands under the header of its own aircraft,
    no aircraft has two headers, and the headers' counts add up to the flights the
    filter bar announces; and at most one row is open. *)
Theorem each_flight_has_its_row {H : HostSort} {HS : HostSortLaws H} {Zd : Zod} {R : Router} {zone : Zone}
    (distance : num * num -> num * num -> num) (p : Page) (pages : list TracksResponse) (live : list Track)
    (since : option string) (utc : bool) (receiver : option ReceiverPosition) :
  let visible := visibleClosed p (History.closedTracks pages live since) utc in
  let rs := rows distance p visible receiver in
  Permutation (flights_of rs) (List.filter (unfolded p) visible) /\
  List.NoDup (map tr_track_id (flights_of rs)) /\
  match group p with
  | group_none => flights_of rs = sortFlights distance visible (sort p) receiver
  | group_aircraft => well_headed None rs = true /\ List.NoDup (keys_of rs) /\ zsum (counts_of rs) = zlen visible
  end /\
  (List.length (open_rows rs) <= 1)%nat.
Proof.
  cbv zeta. set (visible := visibleClosed p (History.closedTracks pages live since) utc).
  assert (List.NoDup (map tr_track_id visible)) as Hv.
  { apply NoDup_map_filter. by destruct (History.closedTracks_spec pages live since). }
  pose proof (sortFlights_perm distance visible (sort p) receiver) as Hp.
  set (rs := rows distance p visible receiver).
  assert (Permutation (flights_of rs) (List.filter (unfolded p) visible) /\
    match group p with
    | group_none => flights_of rs = sortFlights distance visible (sort p) receiver
    | group_aircraft => well_headed None rs = true /\ List.NoDup (keys_of rs) /\ zsum (counts_of rs) = zlen visible
    end /\ List.length (open_rows rs) = List.length (List.filter (is_expanded (expandedId p)) (flights_of rs)))
    as (H1 & H2 & H3).
  { unfold rs, rows, unfolded. destruct (group p).
    - destruct (groups_partition (sortFlights distance visible (sort p) receiver)) as [Hg _].
      destruct (groups_headers (pg_collapsed p) (expandedId p) _ _ Hg) as [Hk Hc]. split_and!.
      + rewrite (groups_flights _ _ _ _ Hg). by apply Permutation_filter.
      + apply groups_headed with (sorted := sortFlights distance visible (sort p) receiver), Hg.
      + rewrite Hk. apply Hg.
      + rewrite Hc. unfold zlen. by rewrite <- Hp.
      + apply groups_open.
    - rewrite rowsFor_flights. split_and!; [|done|apply rowsFor_open]. rewrite filter_all by done. by symmetry. }
  assert (List.NoDup (map tr_track_id (flights_of rs))) as Hn by (rewrite H1; by apply NoDup_map_filter).
  split_and!; [done..|]. rewrite H3. by apply count_by_id.
Qed.
End Table.

(** ** The band of time *)
Module Band.

(** What stands in the band's place, or the bars. *)
Inductive BandBody :=
| skeleton
| nothing_drawn (title detail : string)
| bars (events : list TimelineEvent).

Record Band := {
  bd_paused : option string;
  bd_body : BandBody;
  bd_count : string;
  bd_truncated : bool;
  bd_retention : option string
}.

(** The paused notice's parenthesis: a zero count says nothing. *)
Definition discarded (m : option MonitoringState) : string :=
  match m with
  | Some m => if mn_discarded_while_paused m =? 0 then "" else " (" +:+ pretty (mn_discarded_while_paused m) +:+ " so far)"
  | None => ""
  end.

Definition flightLanes (health : option Health) (monitoring : option MonitoringState) (retention : option json)
    (tracks : list Track) (window : TimelineWindow) (pending truncated : bool) : Band :=
  let events := packLanes tracks window MIN_EVENT_MS in
  let skyState := computeSkyState health (zlen tracks) in
  let recording := match monitoring with Some m => mn_enabled m | None => true end in
  {| bd_paused := if recording then None else Some (discarded monitoring);
     bd_body :=
       if pending then skeleton
       else match events with
            | [] =>
                if sk_absenceIsEvidence skyState
                then nothing_drawn "Nothing in this window"
                       "Sensors were healthy across this window, so an empty band means an empty sky."
                else nothing_drawn "Nothing recorded, and nothing was watching" (sk_detail skyState)
            | _ => bars events
            end;
     bd_count := pretty (zlen events) +:+ " flight" +:+ (if zlen events =? 1 then "" else "s");
     bd_truncated := truncated;
     bd_retention := match retention with
                     | Some (JStr s) => if s === "" then None else Some s
                     | _ => None
                     end |}.

(** The band as the page asks for it, over the window of [flightWindowMs]. *)
Definition page_band {Zd : TracksSearch.Zod} {R : TracksSearch.Router} {zone : Zone} (p : Page.Page) (closed : list Track)
    (utc : bool) health monitoring retention window pending : Band :=
  flightLanes health monitoring retention (Page.visibleClosed p closed utc) window pending (1000 <=? zlen closed).

(** The band vouches for an empty sky only when every sensor is healthy at
    this moment, and an event it draws is a flight of the list. *)
Lemma band_is_cautious health monitoring retention tracks window truncated :
  tw_startMs window < tw_endMs window ->
  let b := flightLanes health monitoring retention tracks window false truncated in
  (bd_body b = nothing_drawn "Nothing in this window"
     "Sensors were healthy across this window, so an empty band means an empty sky." ->
   exists h, health = Some h /\ hl_sensors h <> [] /\ forall x, In x (hl_sensors h) -> sh_healthy x = true) /\
  (forall events, bd_body b = bars events -> forall e, In e events -> In (te_track e) tracks).
Proof.
  intros Hw. cbv zeta. unfold flightLanes. cbn [bd_body].
  destruct (packLanes tracks window MIN_EVENT_MS) as [|e0 l] eqn:E.
  - split; [|by intros ?; destruct (sk_absenceIsEvidence _)].
    destruct (sk_absenceIsEvidence _) eqn:Es; [|discriminate]. intros _. by apply evidence_needs_coverage in Es.
  - split; [discriminate|]. intros events [= <-] e He.
    destruct (packLanes_spec tracks window MIN_EVENT_MS Hw) as (ends & Hm & _); [done|]. rewrite E in Hm.
    apply (in_map te_track) in He. rewrite Hm in He. apply in_map_iff in He as (i & Hi & Hin%sort_by_In%filter_In).
    destruct Hin as [Hin _]. apply list_elem_of_In, list_elem_of_omap in Hin as (t & Ht & Hti).
    unfold interval_of in Hti. 
    destruct (Date_parse (tr_first_seen t)), (Date_parse (tr_last_seen t)); try discriminate Hti. injection Hti as <-.
    cbn in Hi. rewrite <- Hi. by apply list_elem_of_In.
Qed.
End Band.

(** ** Examples *)

Module Examples.
Import TracksSearch Page.

(** A schema library and a router with the documented behaviour. *)
#[local] Instance checker : Zod := {| safe_field := fun f v =>
  match v with Some (JStr s) => if takes f s then Some s else None | _ => None end |}.
#[local] Instance checker_laws : ZodLaws checker.
Proof.
  split; cbn; [by intros f s ->|by intros f s ->|]. intros f [[]|] H; try done. by destruct (H s).
Qed.

#[local] Instance form_router : Router := {|
  stringifySearch := params_toString;
  parseSearch := fun s => match form_parse s with Some l => map (fun kv => (kv.1, JStr kv.2)) l | None => [] end |}.
#[local] Instance form_router_laws : RouterLaws form_router.
Proof.
  split. intros l key _. cbn [parseSearch stringifySearch form_router]. rewrite form_parse_toString. induction l as [|[k v] l IH]; [done|]. cbn.
  by destruct (String.eqb k key).
Qed.

#[local] Existing Instance insertion.

Definition chosen : list Event :=
  [typed "mavic & co"; vendor_chip "DJI"; day_bar "2026-09-15"; header_clicked col_range; header_clicked col_range;
   view_chosen view_lanes; duration_chip (of_Z 60); group_chosen group_none; vendor_chip "DJI"].

(** A hand-edited address: an unknown sort and a malformed day fall away. *)
Example stale_address :
  useSearch "q=mavic&sort=colour-desc&day=15-9-2026&since=7d&evidence=Z" =
  {| ts_q := Some "mavic"; ts_since := Some chip_7d; ts_day := None; ts_vendor := None; ts_evidence := None;
     ts_operator := None; ts_group := None; ts_sort := None; ts_view := None |}.
Proof. vm_compute. reflexivity. Qed.

Example chosen_address :
  pg_url (fold_left step chosen (opened "sort=colour-desc" 0)) =
  "q=mavic+%26+co&day=2026-09-15&group=none&sort=range-asc&view=lanes".
Proof. vm_compute. reflexivity. Qed.

Lemma controls_drive_the_view_witness :
  List.Forall View.day_shown chosen /\
  View.view_of (fold_left step chosen (opened "sort=colour-desc" 0)) =
    fold_left View.view_step chosen (View.view_of (opened "sort=colour-desc" 0)) /\
  View.view_of (opened (pg_url (fold_left step chosen (opened "sort=colour-desc" 0))) 5) =
    View.without_thresholds (View.view_of (fold_left step chosen (opened "sort=colour-desc" 0))).
Proof.
  assert (List.Forall View.day_shown chosen) as H by (repeat constructor).
  split; [exact H|]. exact (View.controls_drive_the_view "sort=colour-desc" 0 5 chosen H).
Defined.

Lemma a_click_gives_what_it_shows_witness :
  zlen (visibleClosed (zone := utc_host) (step (opened "" 0) (day_bar "2026-09-15")) a_week true) = 2.
Proof.
  pose proof (View.a_click_gives_what_it_shows (zone := utc_host) (C := code_units) (opened "" 0) a_week true)
    as (_ & _ & _ & _ & _ & _ & H).
  exact (H a_week_ordinary eq_refl {| db_key := "2026-09-15"; db_startMs := 1789430400000; db_count := 2 |}
    ltac:(vm_compute; by left)).
Defined.

(** Two pages of history, one of their flights closed again over the socket, and
    a flight of before the window. *)
Definition row (id last serial : string) : Track :=
  {| tr_track_id := id; tr_state := ApiTypes.CLOSED; tr_first_seen := "2026-09-15T03:00:00Z"; tr_last_seen := last;
     tr_detection_count := 3;
     tr_identity := Some {| ti_serial := Some serial; ti_manufacturer_code := None; ti_vendor := None; ti_model_hint := None;
       ti_ua_type := None; ti_operator_id := None; ti_macs := None |};
     tr_confidence := of_Z 1; tr_evidence := None; tr_current := None; tr_history := None; tr_operator := None;
     tr_rssi_dbm := None; tr_receivers := None; tr_adsb_correlated := None |}.
Definition page_of (total : Z) (tracks : list Track) : TracksResponse :=
  {| trs_tracks := tracks; trs_next_cursor := None; trs_total := total |}.
Definition two_pages : list TracksResponse :=
  [page_of 4 [row "a" "2026-09-15T03:40:00Z" "S1"; row "b" "2026-09-15T03:30:00Z" "S2"];
   page_of 4 [row "c" "2026-09-15T03:20:00Z" "S1"; row "d" "2026-09-15T03:10:00Z" "S2"]].
Definition closed_live : list Track :=
  [row "b" "2026-09-15T03:50:00Z" "S2"; row "old" "2026-09-14T03:00:00Z" "S3"].
Definition flat (a b : num * num) : num := of_Z 0.
Definition folded : Page := fold_left step [group_clicked "serial:S1"; row_clicked "b"] (opened "" 0).

Example folded_rows :
  Table.rows flat folded
    (visibleClosed (zone := utc_host) folded (History.closedTracks two_pages closed_live (Some "2026-09-15T00:00:00.000Z")) true) None =
  [Table.header_row "serial:S2" "S2" 2 false;
   Table.flight_row (row "b" "2026-09-15T03:50:00Z" "S2") None true;
   Table.flight_row (row "d" "2026-09-15T03:10:00Z" "S2") None false;
   Table.header_row "serial:S1" "S1" 2 true].
Proof. vm_compute. reflexivity. Qed.

Lemma each_flight_has_its_row_witness :
  List.NoDup (map tr_track_id (Table.flights_of (Table.rows flat folded
    (visibleClosed (zone := utc_host) folded
       (History.closedTracks two_pages closed_live (Some "2026-09-15T00:00:00.000Z")) true) None))).
Proof.
  exact (proj1 (proj2 (Table.each_flight_has_its_row (HS := insertion_laws) (zone := utc_host) flat folded two_pages
    closed_live (Some "2026-09-15T00:00:00.000Z") true None))).
Defined.

(** *** Where the page and its texts part *)

(** A filter that admits nothing is reported as an empty sky: the history has its
    flights in the window, the search box admits none, and the band says that an
    empty band means an empty sky. *)
Definition one_day : TimelineWindow := {| tw_startMs := 1789430400000; tw_endMs := 1789516800000 |}.
Lemma filtered_band_says_empty_sky :
  let closed := History.closedTracks two_pages [] None in
  let p := step (opened "" 0) (typed "nobody") in
  let b := Band.page_band (zone := utc_host) p closed true (Some all_well) None None one_day false in
  List.length (packLanes closed one_day MIN_EVENT_MS) = 4%nat /\
  Band.bd_body b = Band.nothing_drawn "Nothing in this window"
    "Sensors were healthy across this window, so an empty band means an empty sky." /\
  Table.empty_title (visibleClosed (zone := utc_host) p closed true) (filtering (zone := utc_host) p closed true)
    "No closed tracks" = Some "No flights match the filter".
Proof. vm_compute. auto. Qed.

(** The band's notice that it is partial counts what is loaded, not what is left:
    with most of the history still to fetch it is silent. *)
Lemma partial_band_is_not_announced :
  let pages := [page_of 5000 [row "a" "2026-09-15T03:40:00Z" "S1"]] in
  let closed := History.closedTracks pages [] None in
  History.history_title pages closed = "Flight history (1 of 5000)" /\
  Band.bd_truncated (Band.page_band (zone := utc_host) (opened "" 0) closed true (Some all_well) None None one_day false) = false.
Proof. vm_compute. auto. Qed.

(** The button's count of older flights takes the flights closed since the page
    was fetched for older ones. *)
Lemma older_flights_below_zero :
  let pages := [page_of 3 [row "a" "2026-09-15T03:40:00Z" "S1"; row "b" "2026-09-15T03:30:00Z" "S2"]] in
  let live := [row "e" "2026-09-15T04:00:00Z" "S1"; row "f" "2026-09-15T04:10:00Z" "S2"] in
  History.load_more pages (History.closedTracks pages live None) false = "Load more (-1 older)".
Proof. vm_compute. reflexivity. Qed.
End Examples.
