(* ===== verification/TrackAlerts.v ===== *)
(** * TrackAlerts: a sound for what is new

    [features/monitoring/track-alerts.tsx]: one effect, run on each new list of
    tracks and each change of the alert level, over two refs (the tracks already
    announced, and whether a first list has been seen).  The sound itself is the
    browser's. *)
From Stdlib Require Import ZArith Bool String List Lia.
From stdpp Require Import base option list strings gmap sets.
From S2P Require Import Prelude JsNumber ApiTypes.

Inductive AlertLevel := level_off | level_confirmed | level_any.
#[export] Instance AlertLevel_eq_dec : EqDecision AlertLevel.
Proof. solve_decision. Defined.

Inductive AlertKind := sound_contact | sound_confirmed.

Definition CONFIRM_THRESHOLD : num := dec 6 1.

Record Alerts := { al_announced : gset string; al_primed : bool }.
Definition silent_start : Alerts := {| al_announced := ∅; al_primed := false |}.

Definition add_all (tracks : list Track) (announced : gset string) : gset string :=
  fold_left (fun s t => {[tr_track_id t]} ∪ s) tracks announced.

(** One turn of the loop: what is announced, and the sound so far. *)
Definition consider (level : AlertLevel) (st : gset string * option AlertKind) (t : Track)
  : gset string * option AlertKind :=
  let '(announced, fired) := st in
  if bool_decide (tr_track_id t ∈ announced) then st
  else if bool_decide (tr_state t = CLOSED) then ({[tr_track_id t]} ∪ announced, fired)
  else
    let confirmed := nge (tr_confidence t) CONFIRM_THRESHOLD in
    if bool_decide (level = level_confirmed) && negb confirmed then st
    else ({[tr_track_id t]} ∪ announced,
          match fired with
          | Some sound_confirmed => fired
          | _ => Some (if confirmed then sound_confirmed else sound_contact)
          end).

(** The effect; [tracks] is undefined until a first list arrives. *)
Definition effect (level : AlertLevel) (tracks : option (list Track)) (a : Alerts) : Alerts * option AlertKind :=
  match tracks with
  | None => (a, None)
  | Some tracks =>
      if negb (al_primed a) then ({| al_announced := add_all tracks (al_announced a); al_primed := true |}, None)
      else
        match level with
        | level_off => ({| al_announced := add_all tracks (al_announced a); al_primed := true |}, None)
        | _ =>
            let '(announced, fired) := fold_left (consider level) tracks (al_announced a, None) in
            ({| al_announced := announced; al_primed := true |}, fired)
        end
  end.

(** A session: the runs of the effect, with the sound each played. *)
Fixpoint session (a : Alerts) (runs : list (AlertLevel * option (list Track))) : list (option AlertKind) * Alerts :=
  match runs with
  | [] => ([], a)
  | (level, tracks) :: runs' =>
      let '(a', fired) := effect level tracks a in
      let '(sounds, last) := session a' runs' in
      (fired :: sounds, last)
  end.

(** ** What a run announces *)

(** A track that a run at this level makes a sound for. *)
Definition sounds_for (level : AlertLevel) (announced : gset string) (t : Track) : bool :=
  negb (bool_decide (tr_track_id t ∈ announced)) && negb (bool_decide (tr_state t = CLOSED)) &&
  match level with
  | level_off => false
  | level_confirmed => nge (tr_confidence t) CONFIRM_THRESHOLD
  | level_any => true
  end.

(** A track that a run puts behind it: announced, or closed on arrival. *)
Definition retires (level : AlertLevel) (t : Track) : bool :=
  bool_decide (tr_state t = CLOSED) || bool_decide (level <> level_confirmed) || nge (tr_confidence t) CONFIRM_THRESHOLD.

Lemma add_all_spec tracks s id : id ∈ add_all tracks s <-> id ∈ s \/ In id (map tr_track_id tracks).
Proof.
  revert s. induction tracks as [|t tracks IH]; intros s; cbn [add_all fold_left map In]; [tauto|].
  change (id ∈ add_all tracks ({[tr_track_id t]} ∪ s) <-> id ∈ s \/ tr_track_id t = id \/ In id (map tr_track_id tracks)).
  rewrite IH, elem_of_union, elem_of_singleton. intuition congruence.
Qed.

Lemma consider_fst level st t :
  (consider level st t).1 =
  if bool_decide (tr_track_id t ∈ st.1) || negb (retires level t) then st.1 else {[tr_track_id t]} ∪ st.1.
Proof.
  destruct st as [announced fired]. unfold consider, retires. cbn [fst].
  destruct (bool_decide (tr_track_id t ∈ announced)), (bool_decide (tr_state t = CLOSED)), level,
    (nge (tr_confidence t) CONFIRM_THRESHOLD); reflexivity.
Qed.

Lemma consider_announced level st t id :
  id ∈ (consider level st t).1 <-> id ∈ st.1 \/ (id = tr_track_id t /\ retires level t = true).
Proof.
  rewrite consider_fst. destruct (retires level t); cbn [negb]; [rewrite orb_false_r|rewrite orb_true_r].
  - case_bool_decide as H; rewrite ?elem_of_union, ?elem_of_singleton; [|tauto]. split; [tauto|]. by intros [?|[-> _]].
  - split; [tauto|]. by intros [?|[_ ?]].
Qed.

Lemma fold_announced level tracks st id :
  id ∈ (fold_left (consider level) tracks st).1 <->
  id ∈ st.1 \/ exists t, In t tracks /\ tr_track_id t = id /\ retires level t = true.
Proof.
  revert st. induction tracks as [|t tracks IH]; intros st; cbn [fold_left].
  - split; [tauto|]. by intros [H|(?&[]&_)].
  - rewrite IH, consider_announced. split.
    + intros [[H|[-> H]]|(u&Hu&H)]; [tauto|right; exists t; simpl; tauto|right; exists u; simpl; tauto].
    + intros [H|(u&[->|Hu]&<-&Hr)]; [tauto|tauto|right; exists u; tauto].
Qed.

(** The sound of a batch whose tracks are distinct. *)
Definition batch_sound (level : AlertLevel) (announced : gset string) (tracks : list Track) : option AlertKind :=
  let news := List.filter (sounds_for level announced) tracks in
  match news with
  | [] => None
  | _ => if existsb (fun t => nge (tr_confidence t) CONFIRM_THRESHOLD) news then Some sound_confirmed else Some sound_contact
  end.

(** The louder of two sounds. *)
Definition louder (a b : option AlertKind) : option AlertKind :=
  match a, b with
  | Some sound_confirmed, _ => a
  | _, Some _ => b
  | _, None => a
  end.

Lemma consider_fired level st t : level <> level_off ->
  (consider level st t).2 =
  if sounds_for level st.1 t
  then louder st.2 (Some (if nge (tr_confidence t) CONFIRM_THRESHOLD then sound_confirmed else sound_contact))
  else st.2.
Proof.
  intros Hl. destruct st as [announced fired]. unfold consider, sounds_for. cbn [fst snd].
  destruct (bool_decide (tr_track_id t ∈ announced)); [done|].
  destruct (bool_decide (tr_state t = CLOSED)); [done|]. cbn [negb andb].
  destruct level; [done| |]; cbn [bool_decide decide];
    destruct (nge (tr_confidence t) CONFIRM_THRESHOLD); by destruct fired as [[]|].
Qed.

Lemma sounds_for_same level s s' t : (tr_track_id t ∈ s <-> tr_track_id t ∈ s') -> sounds_for level s t = sounds_for level s' t.
Proof. intros H. unfold sounds_for. by rewrite (bool_decide_ext _ _ H). Qed.

Lemma batch_sound_cons level s t tracks :
  batch_sound level s (t :: tracks) =
  louder (if sounds_for level s t
          then Some (if nge (tr_confidence t) CONFIRM_THRESHOLD then sound_confirmed else sound_contact) else None)
    (batch_sound level s tracks).
Proof.
  unfold batch_sound. cbn [List.filter]. destruct (sounds_for level s t).
  - cbn [existsb]. destruct (nge (tr_confidence t) CONFIRM_THRESHOLD); cbn [orb louder]; [done|].
    destruct (List.filter (sounds_for level s) tracks) as [|u l]; [done|]. by destruct (existsb _ _).
  - destruct (List.filter (sounds_for level s) tracks) as [|u l]; [done|]. by destruct (existsb _ _).
Qed.

Lemma louder_assoc a b c : louder (louder a b) c = louder a (louder b c).
Proof. by destruct a as [[]|], b as [[]|], c as [[]|]. Qed.

Lemma batch_sound_same level s s' tracks :
  (forall t, In t tracks -> tr_track_id t ∈ s <-> tr_track_id t ∈ s') ->
  batch_sound level s tracks = batch_sound level s' tracks.
Proof.
  induction tracks as [|t tracks IH]; intros H; [done|]. rewrite !batch_sound_cons, IH by (intros; apply H; by right).
  by rewrite (sounds_for_same level s s') by (apply H; by left).
Qed.

Lemma fold_fired level tracks st : level <> level_off -> List.NoDup (map tr_track_id tracks) ->
  (fold_left (consider level) tracks st).2 = louder st.2 (batch_sound level st.1 tracks).
Proof.
  intros Hl. revert st. induction tracks as [|t tracks IH]; intros st Hn; cbn [fold_left].
  - by destruct st as [s [[]|]].
  - inversion Hn as [|? ? Ht Hn']; subst. rewrite IH, consider_fired, batch_sound_cons by done.
    rewrite (batch_sound_same level _ st.1).
    + destruct (sounds_for level st.1 t); [by rewrite louder_assoc|]. destruct (batch_sound level st.1 tracks) as [[]|]; by destruct st.2 as [[]|].
    + intros u Hu. rewrite consider_announced. split; [|tauto]. intros [?|[E _]]; [done|]. destruct Ht. rewrite <- E. by apply in_map.
Qed.

Lemma batch_sound_spec level s tracks :
  (batch_sound level s tracks <> None <-> exists t, In t tracks /\ sounds_for level s t = true) /\
  (batch_sound level s tracks = Some sound_confirmed <->
     exists t, In t tracks /\ sounds_for level s t = true /\ nge (tr_confidence t) CONFIRM_THRESHOLD = true).
Proof.
  assert (forall t, In t (List.filter (sounds_for level s) tracks) <-> In t tracks /\ sounds_for level s t = true) as Hin
    by (intros t; apply filter_In).
  unfold batch_sound. destruct (List.filter (sounds_for level s) tracks) as [|u l].
  - split; split; try done; intros (t & Ht & Hst & _) || intros (t & Ht & Hst); by destruct (proj2 (Hin t)).
  - split.
    + split; [|by destruct (existsb _ _)]. intros _. exists u. apply Hin. by left.
    + destruct (existsb _ (u :: l)) eqn:E.
      * split; [|done]. intros _. apply existsb_exists in E as (t & Ht & Hc). apply Hin in Ht as [? ?]. eauto.
      * split; [done|]. intros (t & H1 & H2 & H3). exfalso. apply not_true_iff_false in E. apply E, existsb_exists.
        exists t. split; [by apply Hin|done].
Qed.

(** ** What a session has settled *)

(** The ids no later run makes a sound for: those of the first list, and those
    that were let pass or announced since. *)
Inductive settled : list (AlertLevel * option (list Track)) -> string -> Prop :=
| settled_first before level tracks after t :
    (forall r, In r before -> r.2 = None) -> In t tracks ->
    settled (before ++ (level, Some tracks) :: after) (tr_track_id t)
| settled_since before level tracks after t :
    In t tracks -> retires level t = true ->
    settled (before ++ (level, Some tracks) :: after) (tr_track_id t).

Definition listed (runs : list (AlertLevel * option (list Track))) : bool :=
  existsb (fun r => match r.2 with Some _ => true | None => false end) runs.

Lemma session_app a runs runs' :
  (session a (runs ++ runs')).2 = (session (session a runs).2 runs').2.
Proof.
  revert a. induction runs as [|[level tracks] runs IH]; intros a; [done|]. cbn [app session].
  destruct (effect level tracks a) as [a' fired]. specialize (IH a').
  destruct (session a' (runs ++ runs')) as [s1 l1], (session a' runs) as [s2 l2]. done.
Qed.

Lemma settled_app runs runs' id : settled runs id -> settled (runs ++ runs') id.
Proof.
  intros [before level tracks after t H1 H2|before level tracks after t H1 H2]; rewrite <- app_assoc; cbn [app];
    [by apply settled_first|by apply settled_since].
Qed.

Lemma not_listed runs : listed runs = false -> forall r, In r runs -> r.2 = None.
Proof.
  intros H r Hr. destruct r.2 eqn:E; [|done]. assert (listed runs = true); [|congruence].
  apply existsb_exists. exists r. by rewrite E.
Qed.

Lemma settled_snoc runs level tracks id :
  settled (runs ++ [(level, Some tracks)]) id <->
  settled runs id \/ exists t, In t tracks /\ tr_track_id t = id /\ (listed runs = false \/ retires level t = true).
Proof.
  split.
  - intros H. inversion H as [before l ts after t H1 H2 E|before l ts after t H1 H2 E]; subst.
    + destruct after as [|r after _] using rev_ind.
      * apply app_inj_tail in E as [<- [= <- <-]]. right. exists t. split_and!; [done..|]. left.
        unfold listed. apply not_true_iff_false. intros (r & Hr & Hs)%existsb_exists. by rewrite (H1 r Hr) in Hs.
      * rewrite app_comm_cons, app_assoc in E. apply app_inj_tail in E as [<- _]. left. by apply settled_first.
    + destruct after as [|r after _] using rev_ind.
      * apply app_inj_tail in E as [<- [= <- <-]]. right. exists t. auto.
      * rewrite app_comm_cons, app_assoc in E. apply app_inj_tail in E as [<- _]. left. by apply settled_since.
  - intros [H|(t & Ht & <- & [Hl|Hr])]; [by apply settled_app|..].
    + apply settled_first; [by apply not_listed|done].
    + by apply settled_since.
Qed.

Lemma settled_none runs level id : settled (runs ++ [(level, None)]) id <-> settled runs id.
Proof.
  split; [|apply settled_app]. intros H. inversion H as [before l ts after t H1 H2 E|before l ts after t H1 H2 E]; subst;
    (destruct after as [|r after _] using rev_ind;
      [by apply app_inj_tail in E as [_ [=]]|];
      rewrite app_comm_cons, app_assoc in E; apply app_inj_tail in E as [<- _]);
    [by apply settled_first|by apply settled_since].
Qed.

Lemma retires_off t : retires level_off t = true.
Proof. unfold retires. rewrite (bool_decide_true (level_off <> level_confirmed)) by done. by rewrite orb_true_r. Qed.

(** The refs hold exactly that. *)
Lemma session_state runs :
  let a := (session silent_start runs).2 in
  al_primed a = listed runs /\ forall id, id ∈ al_announced a <-> settled runs id.
Proof.
  induction runs as [|[level tracks] runs IH] using rev_ind; cbv zeta.
  - split; [done|]. intros id. split; [set_solver|]. intros H. inversion H as [before|before]; by destruct before.
  - rewrite session_app. destruct IH as [IHp IHs]. set (a := (session silent_start runs).2) in *.
    cbn [session]. unfold listed. rewrite existsb_app. cbn [existsb snd]. rewrite orb_false_r. fold (listed runs).
    destruct tracks as [tracks|]; cbn [effect].
    2: { cbn [snd]. rewrite orb_false_r. split; [done|]. intros id. by rewrite settled_none. }
    rewrite orb_true_r. setoid_rewrite settled_snoc. setoid_rewrite <- IHs. rewrite <- IHp.
    destruct (al_primed a); cbn [negb].
    + assert (forall l, l <> level_off -> forall id,
        id ∈ (fold_left (consider l) tracks (al_announced a, None)).1 <->
        id ∈ al_announced a \/ exists t, In t tracks /\ tr_track_id t = id /\ (true = false \/ retires l t = true)) as Hf.
      { intros l _ id. rewrite fold_announced. cbn [fst].
        split; (intros [H|(t&H1&H2&H3)]; [by left|right; exists t]); [tauto|]. destruct H3 as [[=]|H3]. auto. }
      destruct level.
      * cbn [snd al_primed al_announced]. split; [done|]. intros id. rewrite add_all_spec, in_map_iff.
        split; (intros [H|(t&H)]; [by left|right; exists t]); [pose proof (retires_off t); tauto|tauto].
      * specialize (Hf level_confirmed). destruct (fold_left _ _ _) as [s f]. cbn in *. split; [done|]. by apply Hf.
      * specialize (Hf level_any). destruct (fold_left _ _ _) as [s f]. cbn in *. split; [done|]. by apply Hf.
    + cbn [snd al_primed al_announced]. split; [done|]. intros id. rewrite add_all_spec, in_map_iff.
      split; (intros [H|(t&H)]; [by left|right; exists t]); tauto.
Qed.

(** C26. The console sounds once for each track, the first time it qualifies: after
    any session, a run plays a sound exactly when a first list has been seen, the
    level asks for sounds, and some track of the list is open, loud enough for the
    level and not settled before (in the first list, in a list seen with the
    sound off, announced, or closed when it came); the sound is the confirmed one
    exactly when one of those tracks is confirmed; it is one sound however many
    they are; and each of them is settled from then on. *)
Theorem each_track_sounds_once (runs : list (AlertLevel * option (list Track))) (level : AlertLevel) (tracks : list Track)
    (Hn : List.NoDup (map tr_track_id tracks)) :
  let a := (session silent_start runs).2 in
  let fired := (effect level (Some tracks) a).2 in
  let qualifies t := tr_state t <> CLOSED /\ ~ settled runs (tr_track_id t) /\
    match level with
    | level_off => False
    | level_confirmed => nge (tr_confidence t) CONFIRM_THRESHOLD = true
    | level_any => True
    end in
  (fired <> None <-> listed runs = true /\ exists t, In t tracks /\ qualifies t) /\
  (fired = Some sound_confirmed <->
     listed runs = true /\ exists t, In t tracks /\ qualifies t /\ nge (tr_confidence t) CONFIRM_THRESHOLD = true) /\
  (forall t, In t tracks -> qualifies t -> settled (runs ++ [(level, Some tracks)]) (tr_track_id t)).
Proof.
  cbv zeta. destruct (session_state runs) as [Hp Hs]. set (a := (session silent_start runs).2) in *.
  assert (forall t, sounds_for level (al_announced a) t = true <-> tr_state t <> CLOSED /\ ~ settled runs (tr_track_id t) /\
    match level with level_off => False | level_confirmed => nge (tr_confidence t) CONFIRM_THRESHOLD = true | level_any => True end) as Hq.
  { intros t. unfold sounds_for. rewrite !andb_true_iff, !negb_true_iff, !bool_decide_eq_false, Hs.
    destruct level; intuition congruence. }
  assert ((effect level (Some tracks) a).2 = if listed runs then batch_sound level (al_announced a) tracks else None) as ->.
  { cbn [effect]. rewrite Hp. destruct (listed runs); [cbn [negb]|done]. destruct level.
    - unfold batch_sound. rewrite filter_none; [done|]. intros t _. unfold sounds_for. by rewrite andb_false_r.
    - pose proof (fold_fired level_confirmed tracks (al_announced a, None)) as Hf.
      destruct (fold_left _ _ _) as [s f]. cbn in *. rewrite Hf by done. by destruct (batch_sound _ _ _) as [[]|].
    - pose proof (fold_fired level_any tracks (al_announced a, None)) as Hf.
      destruct (fold_left _ _ _) as [s f]. cbn in *. rewrite Hf by done. by destruct (batch_sound _ _ _) as [[]|]. }
  destruct (batch_sound_spec level (al_announced a) tracks) as [Hb1 Hb2]. setoid_rewrite <- Hq.
  split; [|split].
  - destruct (listed runs); [|by intuition]. rewrite Hb1. tauto.
  - destruct (listed runs); [|by intuition]. rewrite Hb2. tauto.
  - intros t Ht Hqt. apply settled_snoc. right. exists t. split_and!; [done..|].
    destruct (listed runs) eqn:El; [right|by left]. apply Hq in Hqt as (_ & _ & Hl). unfold retires.
    destruct level; [done| |]; [by rewrite Hl, orb_true_r|].
    rewrite (bool_decide_true (level_any <> level_confirmed)) by done. by rewrite orb_true_r.
Qed.

(** ** Examples *)

Definition contact (id : string) (state : TrackState) (confidence : num) : Track :=
  {| tr_track_id := id; tr_state := state; tr_first_seen := "2026-09-15T03:00:00Z"; tr_last_seen := "2026-09-15T03:00:00Z";
     tr_detection_count := 1; tr_identity := None; tr_confidence := confidence; tr_evidence := None;
     tr_current := None; tr_history := None; tr_operator := None; tr_rssi_dbm := None;
     tr_receivers := None; tr_adsb_correlated := None |}.

Definition evening : list (AlertLevel * option (list Track)) :=
  [(level_confirmed, None);
   (level_confirmed, Some [contact "a" CONFIRMED (dec 9 1)]);
   (level_confirmed, Some [contact "a" CONFIRMED (dec 9 1); contact "b" TENTATIVE (dec 3 1)]);
   (level_confirmed, Some [contact "b" CONFIRMED (dec 7 1); contact "c" CLOSED (dec 9 1)]);
   (level_any, Some [contact "b" COASTING (dec 7 1); contact "c" CONFIRMED (dec 9 1); contact "d" TENTATIVE (dec 1 1)])].

(** A track below the threshold stays eligible and sounds when it crosses it. *)
Example evening_sounds :
  (session silent_start evening).1 = [None; None; None; Some sound_confirmed; Some sound_contact].
Proof. vm_compute. reflexivity. Qed.

Lemma each_track_sounds_once_witness :
  List.NoDup (map tr_track_id [contact "d" CONFIRMED (dec 9 1); contact "e" TENTATIVE (dec 1 1)]) /\
  (effect level_confirmed (Some [contact "d" CONFIRMED (dec 9 1); contact "e" TENTATIVE (dec 1 1)])
     (session silent_start evening).2).2 = None.
Proof.
  assert (List.NoDup (map tr_track_id [contact "d" CONFIRMED (dec 9 1); contact "e" TENTATIVE (dec 1 1)])) as Hn.
  { repeat constructor; simpl; intuition discriminate. }
  split; [exact Hn|].
  destruct (each_track_sounds_once evening level_confirmed _ Hn) as [Hf _].
  destruct (effect level_confirmed _ _).2 as [k|] eqn:E; [|done]. exfalso.
  destruct (proj1 Hf) as (_ & t & [<-|[<-|[]]] & _ & Hs & Hl); [done| |done].
  apply Hs. apply (settled_since [_; _; _; _] level_any _ [] (contact "d" TENTATIVE (dec 1 1))); [simpl; tauto|reflexivity].
Defined.
