(* ===== verification/MapView.v ===== *)
(** * MapView: the live map, its markers and the list beside it

    [app/use-format.ts] (units on display), [features/map/markers.ts] (what a
    marker says), the effects of [features/map/live-map.tsx] that keep the map's
    DOM markers and its camera, and [routes/index.tsx] with
    [features/map/contacts-panel.tsx] (the page and the text equivalent of the
    map).  The map itself is a library's; a marker added to it stays until it is
    removed, so markers have identities and the map holds them apart from the
    component's own tables. *)
From Stdlib Require Import ZArith Bool String Ascii List Lia Permutation Sorted.
From stdpp Require Import base option list strings pretty.
From S2P Require Import Prelude JsNumber JsDate JsString Format ApiTypes LogStore HealthView Flights MapGeo PathColour Queries.

(** ** Numbers in the operator's units *)
Module UseFormat.

Definition render (c : Converted) : string := formatNumber (Some (cv_value c)) (cv_digits c) (cv_unit c).

Definition in_units (convert : num -> UnitSystem -> Converted) (units : UnitSystem) (value : option num) : string :=
  match value with
  | Some v => if is_nan v then EMPTY else render (convert v units)
  | None => EMPTY
  end.
Definition length_ : UnitSystem -> option num -> string := in_units convertLength.
Definition range : UnitSystem -> option num -> string := in_units convertRange.
Definition speed : UnitSystem -> option num -> string := in_units convertSpeed.
Definition altitudeFeet : UnitSystem -> option num -> string := in_units convertAltitudeFeet.

Record UnitLabels := { ul_length : string; ul_range : string; ul_speed : string }.
Definition unitLabels (system : UnitSystem) : UnitLabels :=
  {| ul_length := match system with metric => "m" | _ => "ft" end;
     ul_range := match system with metric => "km" | aviation => "NM" | imperial => "mi" end;
     ul_speed := match system with metric => "m/s" | aviation => "kt" | imperial => "mph" end |}.

(** A reading that is missing is never a number, and one that is there carries
    the unit of its column: the coarse unit of a range, or the fine one. *)
Lemma no_reading_no_number units :
  length_ units None = EMPTY /\ range units None = EMPTY /\ speed units None = EMPTY /\ altitudeFeet units None = EMPTY.
Proof. done. Qed.

Lemma units_match_their_labels units v :
  cv_unit (convertLength v units) = ul_length (unitLabels units) /\
  cv_unit (convertSpeed v units) = ul_speed (unitLabels units) /\
  cv_unit (convertAltitudeFeet v units) = ul_length (unitLabels units) /\
  (cv_unit (convertRange v units) = ul_range (unitLabels units) \/
   cv_unit (convertRange v units) = ul_length (unitLabels units)).
Proof.
  destruct units; cbn; (split; [done|]); (split; [done|]); (split; [done|]);
    match goal with |- context [nge v ?k] => destruct (nge v k) end; cbn; auto.
Qed.
End UseFormat.

(** ** What a marker shows and says *)
Module Markers.
Import UseFormat.

(** [Math.round] as a number. *)
Definition nround (x : num) : num := match round_Z x with Some z => of_Z z | None => x end.

Definition confidenceOpacity (confidence : num) : num :=
  ndiv (nround (nmul (nadd (dec 35 2) (nmul (dec 65 2) (nmin (of_Z 1) (nmax (of_Z 0) confidence)))) (of_Z 100)))
    (of_Z 100).

Record DroneMarker := {
  dm_rotation : num;
  dm_opacity : num;
  dm_coasting : bool;
  dm_ringOpacity : num;
  dm_ringWidth : string;
  dm_ringStyle : string;
  dm_pressed : bool;
  dm_label : string;
  dm_ariaLabel : string;
  dm_title : string
}.

Definition drone_name (track : Track) : string :=
  (tr_identity track ?. ti_serial) ?? primaryMac track ?? JsString.slice_last 6 (tr_track_id track).

Definition drone_parts (units : UnitSystem) (track : Track) : list string :=
  let heading := tr_current track ≫= ps_track_deg in
  ["Drone track";
   drone_name track;
   "state " +:+ toLowerCase (TrackState_string (tr_state track));
   "confidence " +:+ formatConfidence (tr_confidence track);
   match heading with None => "heading unknown" | Some _ => "heading " +:+ formatHeading heading end;
   match tr_current track ≫= ps_height_agl_m with
   | Some h => "height " +:+ length_ units (Some h)
   | None => "height unknown"
   end;
   match tr_operator track with Some _ => "operator position known" | None => "operator position not broadcast" end].

(** [updateDroneMarker]: every attribute is written from the track. *)
Definition drone_marker (units : UnitSystem) (clickable : bool) (track : Track) (selected : bool) : DroneMarker :=
  let coasting := bool_decide (tr_state track = COASTING) in
  let opacity := confidenceOpacity (tr_confidence track) in
  let name := drone_name track in
  let parts := drone_parts units track in
  {| dm_rotation := (tr_current track ≫= ps_track_deg) ?? of_Z 0;
     dm_opacity := if coasting then nmul opacity (dec 55 2) else opacity;
     dm_coasting := coasting;
     dm_ringOpacity := nmin (of_Z 1) (nadd (tr_confidence track) (dec 15 2));
     dm_ringWidth := if nge (tr_confidence track) (dec 6 1) then "2px" else "1px";
     dm_ringStyle := if coasting then "dashed" else "solid";
     dm_pressed := selected;
     dm_label := if 14 <? slen name then "…" +:+ JsString.slice_last 11 name else name;
     dm_ariaLabel := join ", " parts +:+ "." +:+ (if clickable then " Open track detail." else "");
     dm_title := join " · " (take 5 parts) |}.

Record MannedMarker := {
  mm_rotation : num;
  mm_label : string;
  mm_selected : bool;
  mm_description : string
}.

(** A callsign that trims to nothing is no callsign. *)
Definition manned_name (icao : string) (callsign : option string) : string := truthy (trim <$> callsign) ?? icao.

Definition manned_marker (units : UnitSystem) (icao : string) (d : Detection) (selected : bool) : MannedMarker :=
  let name := manned_name icao (dt_adsb d ≫= ad_callsign) in
  {| mm_rotation := (dt_kinematics d ≫= kn_track_deg) ?? of_Z 0;
     mm_label := "MANNED " +:+ name;
     mm_selected := selected;
     mm_description := join ", " ["Manned aircraft, ADS-B"; name;
       match dt_adsb d ≫= ad_alt_ft with
       | None => "altitude unknown"
       | Some feet => "altitude " +:+ altitudeFeet units (Some feet)
       end;
       "not a drone"] |}.

Record OperatorMarker := { om_label : string; om_ariaLabel : string }.
Definition operator_marker (label : string) : OperatorMarker :=
  {| om_label := "OPERATOR"; om_ariaLabel := "Operator ground position for " +:+ label +:+ ". Not an aircraft." |}.

(** However weak the evidence, a contact stays visible, and none is drawn opaque
    beyond full. *)
Lemma opacity_examples :
  map confidenceOpacity [of_Z (-1); of_Z 0; dec 1 1; dec 5 1; of_Z 1; of_Z 7] =
  [dec 35 2; dec 35 2; dec 42 2; dec 68 2; of_Z 1; of_Z 1].
Proof. vm_compute. reflexivity. Qed.
End Markers.

(** ** Markers kept between renders *)
Module Pool.
Section Pool.
Context {D M : Type} (create : D -> M) (update : M -> D -> M).

(** The component's table (key to marker, in insertion order) and the map's own
    markers. *)
Record Pool := { po_known : list (string * nat); po_on_map : list (nat * M); po_next : nat }.
Definition empty_pool : Pool := {| po_known := []; po_on_map := []; po_next := 0 |}.

Definition write (n : nat) (f : M -> M) (ms : list (nat * M)) : list (nat * M) :=
  map (fun m => if Nat.eqb m.1 n then (m.1, f m.2) else m) ms.

(** An entry of the loop: update the marker the table knows, or create one. *)
Definition place (p : Pool) (item : string * D) : Pool :=
  let '(key, d) := item in
  match assoc key (po_known p) with
  | Some n => {| po_known := po_known p; po_on_map := write n (fun m => update m d) (po_on_map p); po_next := po_next p |}
  | None => {| po_known := po_known p ++ [(key, po_next p)]; po_on_map := po_on_map p ++ [(po_next p, create d)];
               po_next := S (po_next p) |}
  end.

(** The loop over the table that removes what was not seen. *)
Definition prune (seen : list string) (p : Pool) : Pool :=
  let gone := map snd (List.filter (fun e => negb (existsb (String.eqb e.1) seen)) (po_known p)) in
  {| po_known := List.filter (fun e => existsb (String.eqb e.1) seen) (po_known p);
     po_on_map := List.filter (fun m => negb (existsb (Nat.eqb m.1) gone)) (po_on_map p);
     po_next := po_next p |}.

Definition sync (items : list (string * D)) (p : Pool) : Pool := prune (map fst items) (fold_left place items p).

(** The cleanup: every marker of the table is removed, and the table emptied. *)
Definition clear (p : Pool) : Pool :=
  {| po_known := []; po_on_map := List.filter (fun m => negb (existsb (Nat.eqb m.1) (map snd (po_known p)))) (po_on_map p);
     po_next := po_next p |}.

(** *** The table and the map *)

(** What the map shows, by key. *)
Definition shown (p : Pool) : list (string * M) := zip (map fst (po_known p)) (map snd (po_on_map p)).

(** The map holds the table's markers and no other. *)
Record pool_ok (p : Pool) : Prop := {
  pk_keys : List.NoDup (map fst (po_known p));
  pk_ids : List.NoDup (map snd (po_known p));
  pk_same : map fst (po_on_map p) = map snd (po_known p);
  pk_fresh : forall n, In n (map snd (po_known p)) -> (n < po_next p)%nat
}.

(** The same steps on keys and what they show. *)
Definition place' (ms : list (string * M)) (item : string * D) : list (string * M) :=
  match assoc item.1 ms with
  | Some _ => map (fun e => if e.1 === item.1 then (e.1, update e.2 item.2) else e) ms
  | None => ms ++ [(item.1, create item.2)]
  end.

Lemma empty_ok : pool_ok empty_pool.
Proof. split; cbn; try constructor; done. Qed.

(** A pool as one list of keys, markers and what they show. *)
Lemma pool_rows p : pool_ok p -> exists rows : list (string * (nat * M)),
  po_known p = map (fun r => (r.1, r.2.1)) rows /\ po_on_map p = map snd rows /\ shown p = map (fun r => (r.1, r.2.2)) rows /\
  List.NoDup (map fst rows) /\ List.NoDup (map (fun r => r.2.1) rows) /\ (forall r, In r rows -> (r.2.1 < po_next p)%nat).
Proof.
  destruct p as [known on_map next]. intros [Hk Hi Hs Hf]. unfold shown. cbn in *. revert on_map Hs.
  induction known as [|[k n] known IH]; intros [|[n' m] on_map] Hs; try discriminate Hs.
  - exists []. repeat split; try constructor; done.
  - cbn in *. injection Hs as -> Hs. inversion Hk as [|? ? Hk1 Hk2]; inversion Hi as [|? ? Hi1 Hi2]; subst.
    destruct (IH Hk2 Hi2 ltac:(auto) on_map Hs) as (rows & -> & -> & E & H1 & H2 & H3).
    exists ((k, (n, m)) :: rows). cbn. rewrite E. rewrite !map_map in Hk1, Hi1. split_and!; try done.
    + by constructor.
    + by constructor.
    + intros r [<-|Hr]; [cbn; auto|auto].
Qed.

Lemma rows_pool (rows : list (string * (nat * M))) next :
  List.NoDup (map fst rows) -> List.NoDup (map (fun r => r.2.1) rows) -> (forall r, In r rows -> (r.2.1 < next)%nat) ->
  let p := {| po_known := map (fun r => (r.1, r.2.1)) rows; po_on_map := map snd rows; po_next := next |} in
  pool_ok p /\ shown p = map (fun r => (r.1, r.2.2)) rows.
Proof.
  intros H1 H2 H3. cbv zeta. split.
  - split; cbn; rewrite !map_map; cbn; try done. intros n (r & <- & Hr)%in_map_iff. auto.
  - unfold shown. cbn. rewrite !map_map. cbn. clear. induction rows as [|r rows IH]; cbn; [done|]. by rewrite IH.
Qed.

Lemma assoc_rows {A B} (f : A -> B) key (rows : list (string * A)) :
  assoc key (map (fun r => (r.1, f r.2)) rows) = f <$> assoc key rows.
Proof. induction rows as [|[k a] rows IH]; cbn; [done|]. by destruct (k === key). Qed.

Lemma place_ok p item : pool_ok p -> pool_ok (place p item) /\ shown (place p item) = place' (shown p) item.
Proof.
  intros Hp. destruct (pool_rows p Hp) as (rows & Hk & Hm & Hs & H1 & H2 & H3). destruct p as [known on_map next].
  cbn in Hk, Hm, H3. subst known on_map. destruct item as [key d]. unfold place, place'. rewrite Hs. cbn [po_known po_on_map po_next fst snd].
  rewrite (assoc_rows fst key rows), (assoc_rows snd key rows).
  destruct (assoc key rows) as [[n m]|] eqn:E; cbn [fmap option_fmap option_map fst snd].
  - apply assoc_Some_In in E.
    set (rows' := map (fun r => if r.1 === key then (r.1, (r.2.1, update r.2.2 d)) else r) rows).
    assert (forall r, In r rows -> (r.2.1 = n <-> r.1 = key)) as Hkn.
    { intros r Hr. split; intros Er.
      - destruct r as [k [n' m']]. cbn in *. subst n'.
        by pose proof (NoDup_map_inj _ _ _ _ H2 Hr E eq_refl) as [= -> ->].
      - destruct r as [k [n' m']]. cbn in *. subst k. by pose proof (NoDup_map_inj _ _ _ _ H1 Hr E eq_refl) as [= -> ->]. }
    assert (map fst rows' = map fst rows /\ map (fun r => r.2.1) rows' = map (fun r => r.2.1) rows) as [K1 K2].
    { unfold rows'. rewrite !map_map. split; apply map_ext; intros [k [n' m']]; cbn; by destruct (k === key). }
    destruct (rows_pool rows' next) as [P1 P2]; [by rewrite K1|by rewrite K2| |].
    { intros r Hr. apply (in_map (fun r => r.2.1)) in Hr. rewrite K2 in Hr. apply in_map_iff in Hr as (r' & <- & Hr'). auto. }
    assert ({| po_known := map (fun r => (r.1, r.2.1)) rows; po_on_map := write n (fun m => update m d) (map snd rows); po_next := next |} =
            {| po_known := map (fun r => (r.1, r.2.1)) rows'; po_on_map := map snd rows'; po_next := next |}) as ->.
    { unfold rows', write. rewrite !map_map. f_equal.
      - apply map_ext. intros [k [n' m']]. cbn. by destruct (k === key).
      - apply map_ext_in. intros r Hr. specialize (Hkn r Hr). destruct r as [k [n' m']]. cbn in *.
        destruct (Nat.eqb_spec n' n), (String.eqb_spec k key); tauto || done. }
    split; [done|]. rewrite P2. unfold rows'. rewrite !map_map. apply map_ext. intros [k [n' m']]. cbn. by destruct (k === key).
  - apply assoc_None_keys in E. destruct (rows_pool (rows ++ [(key, (next, create d))]) (S next)) as [P1 P2].
    + rewrite map_app. cbn. apply (Permutation_NoDup (Permutation_cons_append (map fst rows) key)). by constructor.
    + rewrite map_app. cbn. apply (Permutation_NoDup (Permutation_cons_append (map (fun r => r.2.1) rows) next)).
      constructor; [|done]. intros (r & Er & Hr)%in_map_iff. apply H3 in Hr. lia.
    + intros r [Hr|[<-|[]]]%in_app_iff; [apply H3 in Hr; lia|cbn; lia].
    + rewrite !map_app in P1, P2. cbn in P1, P2. rewrite !map_app in P2. cbn in P2. split; [exact P1|].
      unfold shown. cbn [po_known po_on_map]. rewrite !map_app. exact P2.
Qed.

Lemma places_ok items p : pool_ok p ->
  pool_ok (fold_left place items p) /\ shown (fold_left place items p) = fold_left place' items (shown p).
Proof.
  revert p. induction items as [|item items IH]; intros p Hp; [done|]. cbn [fold_left].
  destruct (place_ok p item Hp) as [H1 H2]. destruct (IH _ H1) as [H3 H4]. by rewrite H4, H2.
Qed.

Lemma prune_ok seen p : pool_ok p ->
  pool_ok (prune seen p) /\ shown (prune seen p) = List.filter (fun e => existsb (String.eqb e.1) seen) (shown p).
Proof.
  intros Hp. destruct (pool_rows p Hp) as (rows & Hk & Hm & Hs & H1 & H2 & H3). destruct p as [known on_map next].
  cbn in Hk, Hm, H3. subst known on_map. rewrite Hs. unfold prune. cbn [po_known po_on_map po_next].
  set (rows' := List.filter (fun r => existsb (String.eqb r.1) seen) rows).
  assert (forall {B} (f : string * (nat * M) -> B) q q', (forall r, In r rows -> q (f r) = q' r) ->
    List.filter q (map f rows) = map f (List.filter q' rows)) as Hfm.
  { intros B f q q'. clear. induction rows as [|r rows IH]; intros H; [done|]. cbn. rewrite H by (by left).
    rewrite IH by (intros; apply H; by right). by destruct (q' r). }
  rewrite (Hfm _ (fun r => (r.1, r.2.1)) _ (fun r => existsb (String.eqb r.1) seen)) by done.
  rewrite (Hfm _ (fun r => (r.1, r.2.1)) _ (fun r => negb (existsb (String.eqb r.1) seen))) by done.
  rewrite (Hfm _ (fun r => (r.1, r.2.2)) _ (fun r => existsb (String.eqb r.1) seen)) by done.
  rewrite (Hfm _ snd _ (fun r => existsb (String.eqb r.1) seen)).
  - fold rows'. apply rows_pool; [by apply NoDup_map_filter|by apply NoDup_map_filter|].
    intros r [Hr _]%filter_In. auto.
  - intros r Hr. rewrite map_map. cbn. destruct (existsb (String.eqb r.1) seen) eqn:E.
    + apply negb_true_iff, not_true_iff_false. intros (n & (r' & <- & [Hr' Hq]%filter_In)%in_map_iff & En%Nat.eqb_eq)%existsb_exists.
      cbn in En. assert (r = r') as <- by (by apply (NoDup_map_inj _ _ _ _ H2)). by rewrite E in Hq.
    + apply negb_false_iff, existsb_exists. exists r.2.1. split; [|apply Nat.eqb_refl].
      apply in_map_iff. exists r. split; [done|]. apply filter_In. by rewrite E.
Qed.

(** What a render shows under a key: what it showed, updated by each item of the
    key, or created by the first. *)
Definition rendered (ds : list D) (before : option M) : option M :=
  fold_left (fun m d => Some (match m with Some m => update m d | None => create d end)) ds before.
Definition of_key (key : string) (items : list (string * D)) : list D :=
  omap (fun i => if i.1 === key then Some i.2 else None) items.

Lemma place'_shown key item ms :
  assoc key (place' ms item) = if item.1 === key then rendered [item.2] (assoc key ms) else assoc key ms.
Proof.
  unfold place'. destruct item as [k d]. cbn [fst snd]. destruct (assoc k ms) as [m|] eqn:E.
  - assert (assoc key (map (fun e => if e.1 === k then (e.1, update e.2 d) else e) ms) =
            if k === key then (fun m => update m d) <$> assoc key ms else assoc key ms) as ->.
    { clear E. induction ms as [|[k' m'] ms IH]; cbn [map assoc fst snd]; [by destruct (k === key)|].
      destruct (String.eqb_spec k' k) as [->|Hne]; cbn [assoc]; rewrite IH.
      - by destruct (String.eqb_spec k key).
      - destruct (String.eqb_spec k' key) as [->|]; [|done]. by destruct (String.eqb_spec k key) as [->|]. }
    destruct (String.eqb_spec k key) as [->|]; [by rewrite E|done].
  - assert (assoc key (ms ++ [(k, create d)]) =
            match assoc key ms with Some m => Some m | None => if k === key then Some (create d) else None end) as ->.
    { clear E. induction ms as [|[k' m'] ms IH]; cbn [app assoc]; [done|]. by destruct (k' === key). }
    destruct (String.eqb_spec k key) as [->|]; [by rewrite E|]. by destruct (assoc key ms).
Qed.

Lemma of_key_unique key (items : list (string * D)) : List.NoDup (map fst items) ->
  of_key key items = match assoc key items with Some d => [d] | None => [] end.
Proof.
  unfold of_key. induction items as [|[k d] items IH]; intros Hn; [done|]. inversion Hn as [|? ? Hk Hn']; subst.
  cbn. destruct (String.eqb_spec k key) as [->|]; [|by apply IH]. f_equal.
  change (omap ?f items) with (of_key key items). unfold of_key. rewrite (IH Hn').
  by rewrite (proj2 (assoc_None_keys key items) Hk).
Qed.

(** Rendering: the map holds the table's markers and no other, and under each key
    exactly the items of that key; a key without an item shows nothing. *)
Lemma sync_spec items p : pool_ok p ->
  pool_ok (sync items p) /\
  forall key, assoc key (shown (sync items p)) =
    match of_key key items with [] => None | ds => rendered ds (assoc key (shown p)) end.
Proof.
  intros Hp. unfold sync. destruct (places_ok items p Hp) as [H1 H2]. destruct (prune_ok (map fst items) _ H1) as [H3 H4].
  split; [exact H3|]. intros key. rewrite H4, H2. clear.
  assert (forall ms : list (string * M), assoc key (List.filter (fun e => existsb (String.eqb e.1) (map fst items)) ms) =
    if existsb (String.eqb key) (map fst items) then assoc key ms else None) as Hf.
  { induction ms as [|[k m] ms IH]; cbn [List.filter assoc fst]; [by destruct (existsb _ _)|].
    destruct (existsb (String.eqb k) (map fst items)) eqn:E; cbn [assoc]; rewrite IH;
      destruct (String.eqb_spec k key) as [->|]; try done; by rewrite E. }
  rewrite Hf. assert (forall ms : list (string * M), assoc key (fold_left place' items ms) = rendered (of_key key items) (assoc key ms)) as Hp.
  { clear. induction items as [|[k d] items IH]; intros ms; [done|]. cbn [fold_left]. rewrite IH, place'_shown.
    unfold of_key. cbn. by destruct (k === key). }
  rewrite Hp. assert (existsb (String.eqb key) (map fst items) = match of_key key items with [] => false | _ => true end) as ->.
  { clear. induction items as [|[k d] items IH]; [done|]. unfold of_key in *. cbn. rewrite IH, String.eqb_sym. by destruct (k === key). }
  by destruct (of_key key items).
Qed.

(** With one item a key, and markers written anew, it shows just the items. *)
Lemma sync_latest items p : pool_ok p -> List.NoDup (map fst items) -> (forall m d, update m d = create d) ->
  pool_ok (sync items p) /\ forall key, assoc key (shown (sync items p)) = create <$> assoc key items.
Proof.
  intros Hp Hn Hu. destruct (sync_spec items p Hp) as [H1 H2]. split; [done|]. intros key.
  rewrite H2, of_key_unique by done. destruct (assoc key items) as [d|]; [|done]. cbn.
  by destruct (assoc key (shown p)); rewrite ?Hu.
Qed.

Lemma clear_ok p : pool_ok p -> pool_ok (clear p) /\ po_on_map (clear p) = [].
Proof.
  intros [Hk Hi Hs Hf]. assert (po_on_map (clear p) = []) as He.
  { cbn. apply filter_none. intros m Hm. apply negb_false_iff, existsb_exists. exists m.1. split; [|apply Nat.eqb_refl].
    rewrite <- Hs. by apply in_map. }
  split; [|exact He]. split; cbn; try constructor; [|done]. cbn in He. by rewrite He.
Qed.

(** A pool with no marker shows nothing. *)
Lemma none_shown p : po_on_map p = [] -> shown p = [].
Proof. unfold shown. intros ->. by destruct (map fst (po_known p)). Qed.
End Pool.
Arguments Pool M : clear implicits.

(** Items made from a list, one a key at most. *)
Lemma assoc_items {A B} (f : A -> option (string * B)) (l : list A) key b :
  List.NoDup (map fst (omap f l)) ->
  assoc key (omap f l) = Some b <-> exists a, In a l /\ f a = Some (key, b).
Proof.
  intros Hn. split.
  - intros H%assoc_Some_In%list_elem_of_In%list_elem_of_omap. destruct H as (a & Ha & Hf). exists a. split; [by apply list_elem_of_In|done].
  - intros (a & Ha & Hf). assert (In (key, b) (omap f l)) as Hin.
    { apply list_elem_of_In, list_elem_of_omap. exists a. split; [by apply list_elem_of_In|done]. }
    destruct (assoc key (omap f l)) as [b'|] eqn:E.
    + apply assoc_Some_In in E. by pose proof (NoDup_map_inj _ _ _ _ Hn E Hin eq_refl) as [= ->].
    + apply assoc_None_keys in E. destruct E. by apply (in_map fst) in Hin.
Qed.
End Pool.

(** ** The map component *)
Module LiveMap.
Import Markers.

Definition LngLat : Type := num * num.
Record Viewport := { vp_center : LngLat; vp_zoom : num }.
Definition FALLBACK : Viewport := {| vp_center := (ndiv (of_Z (-985)) (of_Z 10), dec 395 1); vp_zoom := dec 33 1 |}.

(** What the storage holds, parsed; [None] for nothing or for no JSON. *)
Definition loadSavedViewport (raw : option json) : option Viewport :=
  match raw with
  | Some (JObj parsed) =>
      match assoc "center" parsed, assoc "zoom" parsed with
      | Some (JArr [JNum lon; JNum lat]), Some (JNum zoom) =>
          if is_finite lon && negb (ngt (nabs lon) (of_Z 180)) && is_finite lat && negb (ngt (nabs lat) (of_Z 90)) &&
             is_finite zoom
          then Some {| vp_center := (lon, lat); vp_zoom := zoom |} else None
      | _, _ => None
      end
  | _ => None
  end.
Definition stored (v : Viewport) : json :=
  JObj [("center", JArr [JNum (vp_center v).1; JNum (vp_center v).2]); ("zoom", JNum (vp_zoom v))].

Record DroneAt := { da_at : LngLat; da_marker : DroneMarker }.
Record OperatorAt := { oa_at : LngLat; oa_marker : OperatorMarker }.
Record MannedAt := { ma_at : LngLat; ma_marker : MannedMarker }.

Record Props := {
  pr_tracks : list Track;
  pr_adsb : list Detection;
  pr_selectedTrackId : option string;
  pr_selectedMannedIcao : option string;
  pr_clickable : bool;
  pr_units : UnitSystem;
  pr_fitOnTrackChanges : bool;
  pr_fitMaxZoom : num;
  pr_receiver : option ReceiverPosition;
  pr_browser : option ReceiverPosition;
  pr_cursor : option (LngLat * string);
  pr_coloured : option ColouredPath
}.

(** How the camera was last moved, and by whom. *)
Inductive Move := jumped (to : LngLat) | fitted_to (b : Bounds) | panned (v : Viewport).

Record LiveMap := {
  lm_mounted : bool;
  lm_ready : bool;
  lm_anchored : bool;
  lm_trails : list Feature;
  lm_links : list Feature;
  lm_segments : list SegmentFeature;
  lm_dwells : list DwellFeature;
  lm_cursor : option (LngLat * string);
  lm_drones : Pool.Pool DroneAt;
  lm_operators : Pool.Pool OperatorAt;
  lm_manned : Pool.Pool MannedAt;
  lm_fitted : option string;
  lm_centred : bool;
  lm_view : Viewport;
  lm_moves : list Move;
  lm_storage : option json
}.

Definition blank (storage : option json) : LiveMap :=
  {| lm_mounted := false; lm_ready := false; lm_anchored := false; lm_trails := []; lm_links := []; lm_segments := [];
     lm_dwells := []; lm_cursor := None; lm_drones := Pool.empty_pool; lm_operators := Pool.empty_pool;
     lm_manned := Pool.empty_pool; lm_fitted := None; lm_centred := false; lm_view := FALLBACK; lm_moves := [];
     lm_storage := storage |}.

Section Component.
(** Where the library puts the camera to show a box. *)
Context (fit_view : Bounds -> num -> Viewport).

Definition drone_items (p : Props) : list (string * DroneAt) :=
  omap (fun t => (fun c => (tr_track_id t,
    {| da_at := (ps_lon c, ps_lat c);
       da_marker := drone_marker (pr_units p) (pr_clickable p) t
         (bool_decide (pr_selectedTrackId p = Some (tr_track_id t))) |})) <$> tr_current t) (pr_tracks p).

Definition operator_name (t : Track) : string := (tr_identity t ?. ti_serial) ?? JsString.slice_last 6 (tr_track_id t).
Definition operator_items (p : Props) : list (string * OperatorAt) :=
  omap (fun t => (fun o => (tr_track_id t,
    {| oa_at := (ps_lon o, ps_lat o); oa_marker := operator_marker (operator_name t) |})) <$> tr_operator t) (pr_tracks p).

Definition manned_items (p : Props) : list (string * MannedAt) :=
  omap (fun d =>
    match dt_position d, icao_of d with
    | Some position, Some icao => Some (icao,
        {| ma_at := (dp_lon position, dp_lat position);
           ma_marker := manned_marker (pr_units p) icao d (bool_decide (pr_selectedMannedIcao p = Some icao)) |})
    | _, _ => None
    end) (pr_adsb p).

(** An existing drone or manned marker is written anew; an operator's only moves. *)
Definition renew {M} (_ d : M) : M := d.
Definition move_operator (old d : OperatorAt) : OperatorAt := {| oa_at := oa_at d; oa_marker := oa_marker old |}.

Definition move (v : Viewport) (m : Move) (s : LiveMap) : LiveMap :=
  {| lm_mounted := lm_mounted s; lm_ready := lm_ready s; lm_anchored := lm_anchored s; lm_trails := lm_trails s;
     lm_links := lm_links s; lm_segments := lm_segments s; lm_dwells := lm_dwells s; lm_cursor := lm_cursor s;
     lm_drones := lm_drones s; lm_operators := lm_operators s; lm_manned := lm_manned s; lm_fitted := lm_fitted s;
     lm_centred := lm_centred s; lm_view := v; lm_moves := lm_moves s ++ [m];
     lm_storage := if lm_anchored s then Some (stored v) else lm_storage s |}.
Definition claim (fitted : option string) (centred : bool) (s : LiveMap) : LiveMap :=
  {| lm_mounted := lm_mounted s; lm_ready := lm_ready s; lm_anchored := lm_anchored s; lm_trails := lm_trails s;
     lm_links := lm_links s; lm_segments := lm_segments s; lm_dwells := lm_dwells s; lm_cursor := lm_cursor s;
     lm_drones := lm_drones s; lm_operators := lm_operators s; lm_manned := lm_manned s; lm_fitted := fitted;
     lm_centred := centred; lm_view := lm_view s; lm_moves := lm_moves s; lm_storage := lm_storage s |}.

(** The initial centre. *)
Definition centre_effect (p : Props) (s : LiveMap) : LiveMap :=
  if lm_centred s then s
  else match lm_fitted s, (match pr_receiver p with Some r => Some r | None => pr_browser p end) with
       | None, Some source =>
           let to := (rp_lon source, rp_lat source) in
           move {| vp_center := to; vp_zoom := of_Z 12 |} (jumped to) (claim (lm_fitted s) true s)
       | _, _ => s
       end.

Definition signature (b : Bounds) : string :=
  join "," (map (toFixed 7) [bd_west b; bd_south b; bd_east b; bd_north b]).

(** The fit to the contacts. *)
Definition fit_effect (p : Props) (s : LiveMap) : LiveMap :=
  match boundsOf (plottablePoints (pr_tracks p)) with
  | None => s
  | Some b =>
      if bool_decide (lm_fitted s = Some (signature b)) then s
      else if negb (pr_fitOnTrackChanges p) && match lm_fitted s with Some _ => true | None => false end then s
      else move (fit_view b (pr_fitMaxZoom p)) (fitted_to b) (claim (Some (signature b)) (lm_centred s) s)
  end.

Definition draw (p : Props) (s : LiveMap) : LiveMap :=
  {| lm_mounted := lm_mounted s; lm_ready := lm_ready s; lm_anchored := lm_anchored s;
     lm_trails := match pr_coloured p with Some _ => [] | None => trailsGeoJson (pr_tracks p) end;
     lm_links := operatorLinksGeoJson (pr_tracks p);
     lm_segments := match pr_coloured p with Some c => pc_segments c | None => [] end;
     lm_dwells := match pr_coloured p with Some c => pc_dwells c | None => [] end;
     lm_cursor := pr_cursor p;
     lm_drones := lm_drones s; lm_operators := lm_operators s; lm_manned := lm_manned s; lm_fitted := lm_fitted s;
     lm_centred := lm_centred s; lm_view := lm_view s; lm_moves := lm_moves s; lm_storage := lm_storage s |}.

Definition place_markers (p : Props) (s : LiveMap) : LiveMap :=
  {| lm_mounted := lm_mounted s; lm_ready := lm_ready s; lm_anchored := lm_anchored s; lm_trails := lm_trails s;
     lm_links := lm_links s; lm_segments := lm_segments s; lm_dwells := lm_dwells s; lm_cursor := lm_cursor s;
     lm_drones := Pool.sync id renew (drone_items p) (lm_drones s);
     lm_operators := Pool.sync id move_operator (operator_items p) (lm_operators s);
     lm_manned := Pool.sync id renew (manned_items p) (lm_manned s);
     lm_fitted := lm_fitted s; lm_centred := lm_centred s; lm_view := lm_view s; lm_moves := lm_moves s;
     lm_storage := lm_storage s |}.

(** The effects of a render, in the order they are declared. *)
Definition effects (p : Props) (s : LiveMap) : LiveMap :=
  fit_effect p (place_markers p (centre_effect p (draw p s))).

Inductive Event :=
| mounted (siteAnchored : bool)
| loaded
| unmounted
| rendered (p : Props)
| user_panned (v : Viewport).

Definition mount (siteAnchored : bool) (s : LiveMap) : LiveMap :=
  let savedViewport := if siteAnchored then loadSavedViewport (lm_storage s) else None in
  {| lm_mounted := true; lm_ready := false; lm_anchored := siteAnchored; lm_trails := []; lm_links := [];
     lm_segments := []; lm_dwells := []; lm_cursor := None; lm_drones := lm_drones s; lm_operators := lm_operators s;
     lm_manned := lm_manned s; lm_fitted := None;
     lm_centred := match savedViewport with Some _ => true | None => false end;
     lm_view := savedViewport ?? FALLBACK; lm_moves := []; lm_storage := lm_storage s |}.

(** [setReady]. *)
Definition set_ready (ready : bool) (s : LiveMap) : LiveMap :=
  {| lm_mounted := lm_mounted s; lm_ready := ready; lm_anchored := lm_anchored s; lm_trails := lm_trails s;
     lm_links := lm_links s; lm_segments := lm_segments s; lm_dwells := lm_dwells s; lm_cursor := lm_cursor s;
     lm_drones := lm_drones s; lm_operators := lm_operators s; lm_manned := lm_manned s; lm_fitted := lm_fitted s;
     lm_centred := lm_centred s; lm_view := lm_view s; lm_moves := lm_moves s; lm_storage := lm_storage s |}.

Definition cleanup (s : LiveMap) : LiveMap :=
  {| lm_mounted := false; lm_ready := false; lm_anchored := lm_anchored s; lm_trails := []; lm_links := [];
     lm_segments := []; lm_dwells := []; lm_cursor := None; lm_drones := Pool.clear (lm_drones s);
     lm_operators := Pool.clear (lm_operators s); lm_manned := Pool.clear (lm_manned s); lm_fitted := lm_fitted s;
     lm_centred := lm_centred s; lm_view := lm_view s; lm_moves := lm_moves s; lm_storage := lm_storage s |}.

(** What can happen to the component, when it can. *)
Definition step (s : LiveMap) (e : Event) : option LiveMap :=
  match e with
  | mounted siteAnchored => if lm_mounted s then None else Some (mount siteAnchored s)
  | loaded => if lm_mounted s then Some (set_ready true s) else None
  | unmounted => if lm_mounted s then Some (cleanup s) else None
  | rendered p => Some (if lm_mounted s && lm_ready s then effects p s else s)
  | user_panned v => if lm_mounted s then Some (move v (panned v) s) else None
  end.

Fixpoint run (s : LiveMap) (events : list Event) : option LiveMap :=
  match events with
  | [] => Some s
  | e :: events' => match step s e with Some s' => run s' events' | None => None end
  end.

(** *** What is on the map *)

Record map_ok (s : LiveMap) : Prop := {
  mo_drones : Pool.pool_ok (lm_drones s);
  mo_operators : Pool.pool_ok (lm_operators s);
  mo_manned : Pool.pool_ok (lm_manned s);
  mo_gone : lm_mounted s = false ->
    Pool.po_on_map (lm_drones s) = [] /\ Pool.po_on_map (lm_operators s) = [] /\ Pool.po_on_map (lm_manned s) = []
}.

Lemma effects_pools p s :
  lm_drones (effects p s) = Pool.sync id renew (drone_items p) (lm_drones s) /\
  lm_operators (effects p s) = Pool.sync id move_operator (operator_items p) (lm_operators s) /\
  lm_manned (effects p s) = Pool.sync id renew (manned_items p) (lm_manned s) /\
  lm_mounted (effects p s) = lm_mounted s.
Proof.
  unfold effects. assert (forall s', lm_drones (fit_effect p s') = lm_drones s' /\
    lm_operators (fit_effect p s') = lm_operators s' /\ lm_manned (fit_effect p s') = lm_manned s' /\
    lm_mounted (fit_effect p s') = lm_mounted s') as Hf.
  { intros s'. unfold fit_effect. destruct (boundsOf _); [|done]. destruct (bool_decide _); [done|]. by destruct (_ && _). }
  assert (lm_drones (centre_effect p (draw p s)) = lm_drones s /\
    lm_operators (centre_effect p (draw p s)) = lm_operators s /\ lm_manned (centre_effect p (draw p s)) = lm_manned s /\
    lm_mounted (centre_effect p (draw p s)) = lm_mounted s) as (H1 & H2 & H3 & H4).
  { unfold centre_effect. destruct (lm_centred _); [done|]. destruct (lm_fitted _); [done|].
    by destruct (match pr_receiver p with Some r => Some r | None => pr_browser p end). }
  destruct (Hf (place_markers p (centre_effect p (draw p s)))) as (-> & -> & -> & ->).
  cbn [place_markers lm_drones lm_operators lm_manned lm_mounted]. by rewrite H1, H2, H3, H4.
Qed.

Lemma map_step_ok s e s' : map_ok s -> step s e = Some s' -> map_ok s'.
Proof.
  intros [H1 H2 H3 H4] Hs. destruct e as [anchored| | |p|v]; cbn in Hs.
  - destruct (lm_mounted s) eqn:E; [done|]. injection Hs as <-. split; cbn; done.
  - destruct (lm_mounted s) eqn:E; [|done]. injection Hs as <-. split; cbn; try done. congruence.
  - destruct (lm_mounted s) eqn:E; [|done]. injection Hs as <-.
    destruct (Pool.clear_ok _ H1), (Pool.clear_ok _ H2), (Pool.clear_ok _ H3). split; cbn; done.
  - injection Hs as <-. destruct (lm_mounted s && lm_ready s) eqn:E; [|done]. apply andb_true_iff in E as [Em _].
    destruct (effects_pools p s) as (E1 & E2 & E3 & E4). split; rewrite ?E1, ?E2, ?E3, ?E4; try (by apply Pool.sync_spec).
    congruence.
  - destruct (lm_mounted s) eqn:E; [|done]. injection Hs as <-. split; cbn; try done. congruence.
Qed.

Lemma map_run_ok events s s' : map_ok s -> run s events = Some s' -> map_ok s'.
Proof.
  revert s. induction events as [|e events IH]; intros s Hs; cbn; [by intros [= <-]|].
  destruct (step s e) as [s1|] eqn:E; [|done]. apply IH. by apply (map_step_ok s e).
Qed.

Lemma blank_ok storage : map_ok (blank storage).
Proof. split; cbn; try apply Pool.empty_ok. done. Qed.

Lemma keys_of_tracks {B} (f : Track -> option (string * B)) (l : list Track) :
  (forall t kb, f t = Some kb -> kb.1 = tr_track_id t) -> List.NoDup (map tr_track_id l) ->
  List.NoDup (map fst (omap f l)).
Proof.
  intros Hf. induction l as [|t l IH]; cbn; [done|]. intros Hn. inversion Hn as [|? ? Ht Hl]; subst.
  destruct (f t) as [kb|] eqn:E; cbn; [|by apply IH]. constructor; [|by apply IH].
  rewrite (Hf _ _ E). intros (kb' & Ek & Hin)%in_map_iff. apply list_elem_of_In, list_elem_of_omap in Hin as (u & Hu & Hfu).
  rewrite (Hf _ _ Hfu) in Ek. apply Ht. rewrite <- Ek. apply in_map. by apply list_elem_of_In.
Qed.

Lemma keys_of_manned p : List.NoDup (omap icao_of (pr_adsb p)) -> List.NoDup (map fst (manned_items p)).
Proof.
  unfold manned_items. induction (pr_adsb p) as [|d l IH]; cbn; [done|].
  destruct (icao_of d) as [icao|] eqn:E; [|by destruct (dt_position d)]. intros Hn. inversion Hn as [|? ? Hi Hl]; subst.
  destruct (dt_position d); cbn; [|by apply IH]. constructor; [|by apply IH].
  intros ((k & b') & Ek & Hin)%in_map_iff. apply list_elem_of_In, list_elem_of_omap in Hin as (u & Hu & Hf).
  destruct (dt_position u); [|done]. destruct (icao_of u) as [i|] eqn:Eu; [|done]. injection Hf as <- <-. cbn in Ek. subst i.
  apply Hi. apply list_elem_of_In, list_elem_of_omap. by exists u.
Qed.

Lemma drone_keys p : List.NoDup (map tr_track_id (pr_tracks p)) -> List.NoDup (map fst (drone_items p)).
Proof. apply keys_of_tracks. intros t kb. by destruct (tr_current t); intros [= <-]. Qed.

Lemma operator_keys p : List.NoDup (map tr_track_id (pr_tracks p)) -> List.NoDup (map fst (operator_items p)).
Proof. apply keys_of_tracks. intros t kb. by destruct (tr_operator t); intros [= <-]. Qed.

(** The name of an operator's marker, when it is made. *)
Lemma operator_item p t o : List.NoDup (map tr_track_id (pr_tracks p)) -> In t (pr_tracks p) -> tr_operator t = Some o ->
  assoc (tr_track_id t) (operator_items p) = Some {| oa_at := (ps_lon o, ps_lat o); oa_marker := operator_marker (operator_name t) |}.
Proof.
  intros Hn Hin Ho. unfold operator_items. apply Pool.assoc_items; [by apply operator_keys|]. exists t. by rewrite Ho.
Qed.

(** C24. The map shows the latest picture and nothing else: in every run of the
    component (maps made and taken down, loads, renders, an operator's panning), a
    map that is down holds no marker; and a render on a ready map, from tracks whose
    ids are distinct and one report an aircraft, leaves exactly one drone marker for
    each track with a current fix, at that fix and saying what the track says now,
    exactly one manned marker for each aircraft with a position, saying what its
    report says now, and exactly one operator marker for each known operator, where
    the operator stands now, under the name it was given when it was first put up:
    that name is not written anew.  No marker of an earlier render is left behind,
    in the component's tables or on the map. *)
Theorem map_shows_the_latest (storage : option json) (events : list Event) (s : LiveMap) (p : Props)
    (Hrun : run (blank storage) events = Some s)
    (Ht : List.NoDup (map tr_track_id (pr_tracks p))) (Ha : List.NoDup (omap icao_of (pr_adsb p))) :
  (lm_mounted s = false ->
     Pool.po_on_map (lm_drones s) = [] /\ Pool.po_on_map (lm_operators s) = [] /\ Pool.po_on_map (lm_manned s) = []) /\
  (lm_mounted s = true -> lm_ready s = true -> exists s',
     step s (rendered p) = Some s' /\ map_ok s' /\
     (forall id m, assoc id (Pool.shown (lm_drones s')) = Some m <->
        exists t c, In t (pr_tracks p) /\ tr_track_id t = id /\ tr_current t = Some c /\
          m = {| da_at := (ps_lon c, ps_lat c);
                 da_marker := drone_marker (pr_units p) (pr_clickable p) t (bool_decide (pr_selectedTrackId p = Some id)) |}) /\
     (forall id m, assoc id (Pool.shown (lm_operators s')) = Some m <->
        exists t o, In t (pr_tracks p) /\ tr_track_id t = id /\ tr_operator t = Some o /\
          m = {| oa_at := (ps_lon o, ps_lat o);
                 oa_marker := match assoc id (Pool.shown (lm_operators s)) with
                              | Some first => oa_marker first
                              | None => operator_marker (operator_name t)
                              end |}) /\
     (forall icao m, assoc icao (Pool.shown (lm_manned s')) = Some m <->
        exists d q, In d (pr_adsb p) /\ icao_of d = Some icao /\ dt_position d = Some q /\
          m = {| ma_at := (dp_lon q, dp_lat q);
                 ma_marker := manned_marker (pr_units p) icao d (bool_decide (pr_selectedMannedIcao p = Some icao)) |})).
Proof.
  pose proof (map_run_ok _ _ _ (blank_ok storage) Hrun) as Hok. split; [apply Hok|]. intros Hm Hr.
  cbn [step]. rewrite Hm, Hr. cbn [andb]. eexists. split; [done|].
  assert (map_ok (effects p s)) as Hok'.
  { apply (map_step_ok s (rendered p)); [done|]. cbn. by rewrite Hm, Hr. }
  split; [exact Hok'|]. destruct Hok as [H1 H2 H3 _]. destruct (effects_pools p s) as (-> & -> & -> & _).
  split; [|split].
  - intros key m. rewrite (proj2 (Pool.sync_latest id renew (drone_items p) (lm_drones s) H1 (drone_keys p Ht) ltac:(done))).
    rewrite option_fmap_id. unfold drone_items. rewrite Pool.assoc_items by (by apply drone_keys).
    split.
    + intros (t & Hin & Hf). destruct (tr_current t) as [c|] eqn:Ec; [|done]. injection Hf as <- <-. eauto 6.
    + intros (t & c & Hin & <- & Ec & ->). exists t. by rewrite Ec.
  - intros key m. destruct (Pool.sync_spec id move_operator (operator_items p) (lm_operators s) H2) as [_ Hs].
    rewrite Hs, Pool.of_key_unique by (by apply operator_keys). split.
    + destruct (assoc key (operator_items p)) as [d|] eqn:Ed; [|done]. intros E.
      apply Pool.assoc_items in Ed as (t & Hin & Hf); [|by apply operator_keys].
      destruct (tr_operator t) as [o|] eqn:Eo; [|done]. injection Hf as <- <-. exists t, o. split_and!; try done.
      unfold Pool.rendered, id in E. cbn in E. destruct (assoc (tr_track_id t) (Pool.shown (lm_operators s))); by injection E as <-.
    + intros (t & o & Hin & <- & Eo & ->). rewrite (operator_item p t o Ht Hin Eo).
      unfold Pool.rendered, id. cbn. by destruct (assoc (tr_track_id t) (Pool.shown (lm_operators s))).
  - intros icao m. rewrite (proj2 (Pool.sync_latest id renew (manned_items p) (lm_manned s) H3 (keys_of_manned p Ha) ltac:(done))).
    rewrite option_fmap_id. unfold manned_items. rewrite Pool.assoc_items by (by apply keys_of_manned). split.
    + intros (d & Hin & Hf). destruct (dt_position d) as [q|] eqn:Eq; [|done]. destruct (icao_of d) as [i|] eqn:Ei; [|done].
      injection Hf as <- <-. eauto 6.
    + intros (d & q & Hin & Ei & Eq & ->). exists d. by rewrite Ei, Eq.
Qed.
End Component.
End LiveMap.

(** ** The page: the map's props and the list beside it *)
Module LiveView.

Definition FLIGHTS_PER_AIRCRAFT : nat := 3.

(** The sections of the contacts panel, top to bottom. *)
Record Panel := {
  pn_drones : list Track;
  pn_shelf : list Track;
  pn_closed : option (list AircraftGroup);
  pn_manned : list Detection
}.

Section Panel.
Context {C : Collation} {Sort : HostSort}.

Definition contactsPanel (tracks unidentifiedTracks closedTracks : list Track) (showClosed : bool) (adsb : list Detection)
  : Panel :=
  let plotted := List.filter hasPosition tracks in
  let unplotted := List.filter (fun t => negb (hasPosition t)) tracks in
  let closedFlights := List.filter isIdentified closedTracks in
  {| pn_drones := plotted ++ unplotted;
     pn_shelf := unidentifiedTracks ++
       (if showClosed then List.filter (fun t => negb (isIdentified t)) closedTracks else []);
     pn_closed := if showClosed then Some (groupByAircraft (rev (orderFlights closedFlights))) else None;
     pn_manned := adsb |}.

(** An aircraft's flights on the panel, and how many the link stands for. *)
Definition shown_flights (g : AircraftGroup) : list Track := take FLIGHTS_PER_AIRCRAFT (gr_flights g).
Definition more_flights (g : AircraftGroup) : nat := List.length (gr_flights g) - List.length (shown_flights g).

(** The rows' names. *)
Definition unidentified_name (t : Track) : string := primaryMac t ?? tr_track_id t.
Definition manned_row_name (d : Detection) : string :=
  truthy (trim <$> (dt_adsb d ≫= ad_callsign)) ?? (ad_icao <$> dt_adsb d) ?? dt_detection_id d.
Definition MPS_PER_KNOT : num := dec 5144444444444445 16.
Definition manned_speed (d : Detection) : option num :=
  match dt_kinematics d ≫= kn_speed_mps with
  | Some v => Some v
  | None => (fun kt => nmul kt MPS_PER_KNOT) <$> (dt_adsb d ≫= ad_ground_speed_kt)
  end.

(** [routes/index.tsx]. *)
Record View := {
  vw_map_tracks : list Track;
  vw_adsb : list Detection;
  vw_sky : SkyState;
  vw_confirmed : Z;
  vw_unplotted : Z;
  vw_contactCount : Z;
  vw_panel : Panel
}.

Definition liveView (tracks : list Track) (reports : list Detection) (health : option Health) (showClosed : bool) (now : Z)
  : View :=
  let parts := partitionTracks tracks in
  let adsb := aircraftFromDetections (fun le => host_sort le) reports (Some ADSB_WINDOW_MS) now in
  {| vw_map_tracks := pt_active parts;
     vw_adsb := adsb;
     vw_sky := computeSkyState health (zlen (pt_active parts));
     vw_confirmed := zlen (List.filter (fun t => bool_decide (tr_state t = CONFIRMED)) (pt_active parts));
     vw_unplotted := zlen (List.filter (fun t => negb (hasPosition t)) (pt_active parts));
     vw_contactCount := zlen (pt_active parts) + zlen (pt_unidentified parts) +
       (if showClosed then zlen (pt_closed parts) else 0) + zlen adsb;
     vw_panel := contactsPanel (pt_active parts) (pt_unidentified parts) (pt_closed parts) showClosed adsb |}.

(** The flights of the closed section: all of them, and the rows drawn of them. *)
Definition closed_flights (p : Panel) : list Track :=
  match pn_closed p with Some gs => List.concat (map gr_flights gs) | None => [] end.
Definition closed_rows (p : Panel) : list Track :=
  match pn_closed p with Some gs => List.concat (map shown_flights gs) | None => [] end.
(** What the "more flights" links stand for, together. *)
Definition linked (p : Panel) : nat :=
  match pn_closed p with Some gs => list_sum (map more_flights gs) | None => 0%nat end.

(** The tracks the panel is about, and the rows it draws of them: the shelf's only
    when it was opened. *)
Definition held (p : Panel) : list Track := pn_drones p ++ pn_shelf p ++ closed_flights p.
Definition drawn (shelfOpen : bool) (p : Panel) : list Track :=
  pn_drones p ++ (if shelfOpen then pn_shelf p else []) ++ closed_rows p.

(** *** Facts *)

Definition open_identified (t : Track) : bool := negb (bool_decide (tr_state t = CLOSED)) && isIdentified t.
Definition open_unidentified (t : Track) : bool := negb (bool_decide (tr_state t = CLOSED)) && negb (isIdentified t).
Definition is_closed_track (t : Track) : bool := bool_decide (tr_state t = CLOSED).

Lemma partition_filters tracks :
  partitionTracks tracks = {| pt_active := List.filter open_identified tracks;
    pt_unidentified := List.filter open_unidentified tracks; pt_closed := List.filter is_closed_track tracks |}.
Proof.
  unfold partitionTracks. assert (forall a u c, fold_left (fun p t =>
    if bool_decide (tr_state t = CLOSED)
    then {| pt_active := pt_active p; pt_unidentified := pt_unidentified p; pt_closed := pt_closed p ++ [t] |}
    else if isIdentified t
    then {| pt_active := pt_active p ++ [t]; pt_unidentified := pt_unidentified p; pt_closed := pt_closed p |}
    else {| pt_active := pt_active p; pt_unidentified := pt_unidentified p ++ [t]; pt_closed := pt_closed p |})
    tracks {| pt_active := a; pt_unidentified := u; pt_closed := c |} =
    {| pt_active := a ++ List.filter open_identified tracks; pt_unidentified := u ++ List.filter open_unidentified tracks;
       pt_closed := c ++ List.filter is_closed_track tracks |}) as H; [|by rewrite H].
  induction tracks as [|t tracks IH]; intros a u c; cbn [fold_left List.filter]; [by rewrite !app_nil_r|].
  unfold open_identified, open_unidentified, is_closed_track in *.
  destruct (bool_decide (tr_state t = CLOSED)); cbn [negb andb pt_active pt_unidentified pt_closed].
  - rewrite IH. by rewrite <- !app_assoc.
  - destruct (isIdentified t); cbn [negb]; rewrite IH; by rewrite <- !app_assoc.
Qed.

Lemma filter_split {A} (q : A -> bool) l : Permutation (List.filter q l ++ List.filter (fun x => negb (q x)) l) l.
Proof.
  induction l as [|x l IH]; cbn; [done|]. destruct (q x); cbn; [by rewrite IH|].
  rewrite <- Permutation_middle. by rewrite IH.
Qed.

Lemma grouped_concat l gs : Grouped l gs -> Permutation (List.concat (map gr_flights gs)) l.
Proof.
  intros [Hn Hg Ha].
  assert (List.concat (map gr_flights gs) =
    List.concat (map (fun k => if true then List.filter (fun t => aircraftKey t === k) l else []) (map gr_key gs))) as ->.
  { clear -Hg. induction Hg as [|g gs Hg Hgs IH]; [done|]. cbn. by rewrite IH, (go_flights _ _ Hg). }
  rewrite (keyed_concat aircraftKey (fun _ => true)) by done. rewrite filter_all; [done|]. intros t Ht.
  apply andb_true_iff. split; [|done]. apply existsb_exists. exists (aircraftKey t). split; [by apply Ha|apply String.eqb_refl].
Qed.

Lemma filter_filter {A} (q r : A -> bool) l : List.filter q (List.filter r l) = List.filter (fun x => r x && q x) l.
Proof. induction l as [|x l IH]; cbn; [done|]. destruct (r x); cbn; [destruct (q x)|]; by rewrite IH. Qed.

Lemma closed_flights_perm (tracks unidentified closed_ : list Track) (showClosed : bool) adsb :
  Permutation (closed_flights (contactsPanel tracks unidentified closed_ showClosed adsb))
    (if showClosed then List.filter isIdentified closed_ else []).
Proof.
  unfold closed_flights, contactsPanel. cbn [pn_closed]. destruct showClosed; [|done].
  rewrite (grouped_concat _ _ (proj1 (groups_partition _))), <- Permutation_rev. symmetry. apply sort_by_perm.
Qed.

(** The three lists of tracks, and what the toggle leaves of them. *)
Lemma rows_are_the_tracks (tracks closed_ : list Track) (showClosed : bool) :
  Permutation
    (List.filter open_identified tracks ++ (List.filter open_unidentified tracks ++
      (if showClosed then List.filter (fun t => negb (isIdentified t)) (List.filter is_closed_track tracks) else [])) ++
      closed_)
    (closed_ ++ List.filter (fun t => negb (is_closed_track t)) tracks ++
      (if showClosed then List.filter (fun t => negb (isIdentified t)) (List.filter is_closed_track tracks) else [])).
Proof.
  rewrite (Permutation_app_comm closed_), !app_assoc. apply Permutation_app_tail, Permutation_app_tail.
  rewrite <- (filter_split isIdentified (List.filter (fun t => negb (is_closed_track t)) tracks)), !filter_filter. done.
Qed.

Lemma panel_rows (tracks : list Track) (showClosed : bool) adsb :
  let parts := partitionTracks tracks in
  let p := contactsPanel (pt_active parts) (pt_unidentified parts) (pt_closed parts) showClosed adsb in
  Permutation (held p) (if showClosed then tracks else List.filter (fun t => negb (is_closed_track t)) tracks).
Proof.
  cbv zeta. unfold held. rewrite closed_flights_perm, partition_filters.
  cbn [contactsPanel pn_drones pn_shelf pt_active pt_unidentified pt_closed].
  rewrite (filter_split hasPosition), rows_are_the_tracks. destruct showClosed; [|by rewrite app_nil_r].
  rewrite (Permutation_app_comm (List.filter (fun t => negb (is_closed_track t)) tracks)), app_assoc.
  by rewrite filter_split, filter_split.
Qed.

(** The rows drawn, those behind the links and those of a shelf not opened are all
    that is held; and no row is drawn of anything else. *)
Lemma shown_and_more g : (List.length (shown_flights g) + more_flights g = List.length (gr_flights g))%nat.
Proof. unfold more_flights, shown_flights. rewrite length_take. lia. Qed.

Lemma closed_counted p : (List.length (closed_rows p) + linked p = List.length (closed_flights p))%nat.
Proof.
  unfold closed_rows, linked, closed_flights. destruct (pn_closed p) as [gs|]; [|done].
  induction gs as [|g gs IH]; [done|]. cbn [map List.concat list_sum foldr]. rewrite !length_app.
  pose proof (shown_and_more g). unfold list_sum in IH. lia.
Qed.
Lemma drawn_counted shelfOpen p :
  zlen (drawn shelfOpen p) + (if shelfOpen then 0 else zlen (pn_shelf p)) + Z.of_nat (linked p) = zlen (held p).
Proof.
  unfold drawn, held, zlen. pose proof (closed_counted p). destruct shelfOpen; rewrite !length_app; cbn [List.length]; lia.
Qed.

(** C25. Nothing falls between the map and the list, and nothing is counted twice.
    The sections of the contacts panel together hold every track exactly once, or
    every open one when the closed section is switched off, which then is not there
    at all: the drones are the open identified tracks, first those on the map and
    then those without a position, whose number is the strip's; a vendor match
    nobody identified, open or closed, is on the shelf and never on the map; closed
    flights stand under their aircraft, each aircraft once, in the reverse of the
    application's flight order.  Of those the rows drawn are the first three of each
    aircraft, the link's number being the rest, and the shelf's only once it was
    opened.  The tab's number is the tracks held and the aircraft, so it is the rows
    drawn, plus what the links stand for, plus a shelf that is closed.  What the map
    is given is distinct tracks, when the list's are, and one report an aircraft. *)
Theorem every_contact_has_its_place {Laws : HostSortLaws Sort} (tracks : list Track) (reports : list Detection)
    (health : option Health) (showClosed : bool) (now : Z) :
  let v := liveView tracks reports health showClosed now in
  let p := vw_panel v in
  Permutation (held p) (if showClosed then tracks else List.filter (fun t => negb (is_closed_track t)) tracks) /\
  (showClosed = false -> pn_closed p = None) /\
  vw_contactCount v = zlen (held p) + zlen (pn_manned p) /\
  (forall shelfOpen, vw_contactCount v =
     zlen (drawn shelfOpen p) + zlen (pn_manned p) + Z.of_nat (linked p) + (if shelfOpen then 0 else zlen (pn_shelf p))) /\
  (forall t, In t (pn_drones p) -> open_identified t = true) /\
  (forall t, In t (pn_shelf p) -> isIdentified t = false) /\
  (forall t, In t (closed_flights p) -> is_closed_track t = true /\ isIdentified t = true) /\
  Permutation (pn_drones p) (vw_map_tracks v) /\
  (exists on_map off_map, pn_drones p = on_map ++ off_map /\ vw_unplotted v = zlen off_map /\
     (forall t, In t on_map -> hasPosition t = true) /\ (forall t, In t off_map -> hasPosition t = false)) /\
  (forall gs, pn_closed p = Some gs -> List.NoDup (map gr_key gs) /\
     closed_rows p = List.concat (map (fun g => take 3 (gr_flights g)) gs) /\
     forall g, In g gs ->
       gr_flights g = List.filter (fun t => aircraftKey t === gr_key g)
         (rev (orderFlights (List.filter isIdentified (List.filter is_closed_track tracks)))) /\
       more_flights g = (List.length (gr_flights g) - 3)%nat) /\
  List.NoDup (omap icao_of (vw_adsb v)) /\ pn_manned p = vw_adsb v /\
  (List.NoDup (map tr_track_id tracks) -> List.NoDup (map tr_track_id (vw_map_tracks v))).
Proof.
  intros v p. assert (Permutation (held p)
    (if showClosed then tracks else List.filter (fun t => negb (is_closed_track t)) tracks)) as Hrows by apply panel_rows.
  assert (Permutation (closed_flights p) (if showClosed then List.filter isIdentified (List.filter is_closed_track tracks) else [])) as Hc.
  { subst p v. unfold liveView. cbn [vw_panel]. by rewrite closed_flights_perm, partition_filters. }
  assert (vw_contactCount v = zlen (held p) + zlen (pn_manned p)) as Hn.
  { unfold zlen. rewrite (Permutation_length Hrows). subst p v. unfold liveView. cbn [vw_contactCount vw_panel contactsPanel pn_manned].
    f_equal. rewrite partition_filters. cbn [pt_active pt_unidentified pt_closed].
    pose proof (Permutation_length (filter_split is_closed_track tracks)) as E0. rewrite length_app in E0.
    pose proof (Permutation_length (filter_split isIdentified (List.filter (fun t => negb (is_closed_track t)) tracks))) as E.
    rewrite !filter_filter, length_app in E. unfold zlen, open_identified, open_unidentified, is_closed_track in *.
    destruct showClosed; lia. }
  assert (forall shelfOpen, vw_contactCount v =
    zlen (drawn shelfOpen p) + zlen (pn_manned p) + Z.of_nat (linked p) + (if shelfOpen then 0 else zlen (pn_shelf p))) as Hd.
  { intros b. pose proof (drawn_counted b p). lia. }
  split; [exact Hrows|]. split; [subst p v; by intros ->|]. split; [exact Hn|]. split; [exact Hd|].
  subst p v. unfold liveView in *. cbn [vw_panel vw_map_tracks vw_adsb vw_unplotted vw_contactCount] in *.
  rewrite partition_filters in *. cbn [pt_active pt_unidentified pt_closed] in *. clear Hn Hd. split_and!.
  - cbn [contactsPanel pn_drones]. intros t [[H _]%filter_In|[H _]%filter_In]%in_app_iff; by apply filter_In in H as [_ H].
  - cbn [contactsPanel pn_shelf]. intros t [[_ H]%filter_In|H]%in_app_iff.
    + unfold open_unidentified in H. apply andb_true_iff in H as [_ H]. by apply negb_true_iff in H.
    + destruct showClosed; [|done]. apply filter_In in H as [_ H]. by apply negb_true_iff in H.
  - intros t H. apply (Permutation_in _ Hc) in H. destruct showClosed; [|done]. apply filter_In in H as [[_ H]%filter_In H']. done.
  - cbn [contactsPanel pn_drones]. apply filter_split.
  - eexists _, _. split; [done|]. split; [done|]. split; intros t [_ H]%filter_In; [done|by apply negb_true_iff].
  - unfold closed_rows. cbn [contactsPanel pn_closed]. destruct showClosed; intros gs [= <-].
    pose proof (proj1 (groups_partition (rev (orderFlights (List.filter isIdentified (List.filter is_closed_track tracks)))))) as [Hn Hg _].
    split; [done|]. split; [done|]. intros g Hin. rewrite List.Forall_forall in Hg. split; [by apply (go_flights _ _ (Hg g Hin))|].
    unfold more_flights, shown_flights. rewrite length_take. unfold FLIGHTS_PER_AIRCRAFT. lia.
  - by apply one_entry_per_aircraft; intros; [apply host_sort_perm|apply host_sort_sorted; eauto].
  - done.
  - intros Hn. by apply NoDup_map_filter.
Qed.
End Panel.
End LiveView.

(** ** Examples *)
Module Examples.
Import LiveMap.

Definition fix_at (lat lon : Z) : Position :=
  {| ps_lat := of_Z lat; ps_lon := of_Z lon; ps_alt_geodetic_m := None; ps_height_agl_m := None;
     ps_terrain_elevation_m := None; ps_speed_mps := None; ps_track_deg := Some (of_Z 90); ps_at := None |}.
Definition contact (id : string) (state : TrackState) (serial : option string) (current operator : option Position) : Track :=
  {| tr_track_id := id; tr_state := state; tr_first_seen := "2026-09-15T03:00:00Z"; tr_last_seen := "2026-09-15T03:01:00Z";
     tr_detection_count := 3;
     tr_identity := (fun s => {| ti_serial := Some s; ti_manufacturer_code := None; ti_vendor := None;
       ti_model_hint := None; ti_ua_type := None; ti_operator_id := None; ti_macs := None |}) <$> serial;
     tr_confidence := dec 7 1; tr_evidence := None; tr_current := current; tr_history := None; tr_operator := operator;
     tr_rssi_dbm := None; tr_receivers := None; tr_adsb_correlated := None |}.

Definition airliner : Detection :=
  {| dt_detection_id := "1"; dt_ts := "2026-09-15T03:00:00Z"; dt_sensor_id := "sdr-0"; dt_sensor_kind := sdr;
     dt_detection_class := ClsD; dt_rf := None; dt_identity := None;
     dt_position := Some {| dp_lat := of_Z 40; dp_lon := of_Z (-73); dp_alt_geodetic_m := None; dp_alt_pressure_m := None;
       dp_height_agl_m := None; dp_h_accuracy_m := None; dp_v_accuracy_m := None |};
     dt_kinematics := None; dt_operator := None; dt_signal_features := None;
     dt_adsb := Some {| ad_icao := "a1"; ad_callsign := Some "  "; ad_alt_ft := None; ad_ground_speed_kt := None |};
     dt_raw := None |}.

Definition props (tracks : list Track) : Props :=
  {| pr_tracks := tracks; pr_adsb := [airliner]; pr_selectedTrackId := Some "01HX-A"; pr_selectedMannedIcao := None;
     pr_clickable := true; pr_units := metric; pr_fitOnTrackChanges := false; pr_fitMaxZoom := of_Z 15;
     pr_receiver := Some {| rp_lat := of_Z 40; rp_lon := of_Z (-75) |}; pr_browser := None; pr_cursor := None;
     pr_coloured := None |}.
Definition corner (b : Bounds) (zoom : num) : Viewport :=
  {| vp_center := (bd_west b, bd_south b); vp_zoom := zoom |}.

(** Two contacts, then one of them gone and the other with its serial. *)
Definition first_look : Props :=
  props [contact "01HX-A" CONFIRMED None (Some (fix_at 40 (-75))) (Some (fix_at 41 (-75)));
         contact "01HX-B" TENTATIVE (Some "SN-2") (Some (fix_at 40 (-74))) None].
Definition later : Props :=
  props [contact "01HX-A" COASTING (Some "SN-1") (Some (fix_at 42 (-75))) (Some (fix_at 41 (-75)))].

Definition after (events : list Event) : LiveMap.LiveMap := run corner (blank None) events ?? blank None.

Example two_then_one :
  let s := after [mounted true; loaded; rendered first_look] in
  let s' := after [mounted true; loaded; rendered first_look; rendered later] in
  map fst (Pool.shown (lm_drones s)) = ["01HX-A"; "01HX-B"] /\
  map (fun e => (e.1, da_at e.2)) (Pool.shown (lm_drones s')) = [("01HX-A", (of_Z (-75), of_Z 42))] /\
  map (fun e => Markers.dm_ariaLabel (da_marker e.2)) (Pool.shown (lm_drones s')) =
    ["Drone track, SN-1, state coasting, confidence 70%, heading 90°, height unknown, operator position known. Open track detail."].
Proof. vm_compute. split; [reflexivity|]. split; [reflexivity|]. reflexivity. Qed.

Lemma map_shows_the_latest_witness :
  exists s', step corner (after [mounted true; loaded; rendered first_look]) (rendered later) = Some s' /\ map_ok s' /\
    (exists m, assoc "01HX-A" (Pool.shown (lm_drones s')) = Some m /\ da_at m = (of_Z (-75), of_Z 42)) /\
    ~ (exists m, assoc "01HX-B" (Pool.shown (lm_drones s')) = Some m).
Proof.
  destruct (map_shows_the_latest corner None [mounted true; loaded; rendered first_look]
    (after [mounted true; loaded; rendered first_look]) later) as [_ H].
  - vm_compute. reflexivity.
  - repeat constructor; intros [].
  - vm_compute. repeat constructor; intros [].
  - destruct H as (s' & Hs & Hok & Hd & _); [vm_compute; reflexivity..|].
    exists s'. split; [exact Hs|]. split; [exact Hok|]. split.
    + eexists. split; [|shelve]. apply Hd. exists (contact "01HX-A" COASTING (Some "SN-1") (Some (fix_at 42 (-75))) (Some (fix_at 41 (-75)))).
      eexists. split; [left; reflexivity|]. split; [reflexivity|]. split; reflexivity.
      Unshelve. reflexivity.
    + intros (m & (t & c & Ht & Hid & _)%Hd). destruct Ht as [<-|[]]. discriminate Hid.
Defined.

(** The page on the two contacts, a vendor match and two closed tracks. *)
#[local] Existing Instance code_units.
#[local] Existing Instance insertion.

Definition vendor_match (id : string) (state : TrackState) : Track :=
  {| tr_track_id := id; tr_state := state; tr_first_seen := "2026-09-15T03:00:00Z"; tr_last_seen := "2026-09-15T03:01:00Z";
     tr_detection_count := 1; tr_identity := None; tr_confidence := dec 1 1;
     tr_evidence := Some [{| ev_class := ClsC; ev_sensor_kind := wifi; ev_weight := dec 1 1; ev_count := 1; ev_last_seen := None |}];
     tr_current := None; tr_history := None; tr_operator := None; tr_rssi_dbm := None; tr_receivers := None;
     tr_adsb_correlated := None |}.
Definition sky : list Track :=
  [contact "01HX-A" CONFIRMED (Some "SN-1") None None; contact "01HX-B" TENTATIVE (Some "SN-2") (Some (fix_at 40 (-74))) None;
   vendor_match "01HX-C" TENTATIVE; contact "01HX-D" CLOSED (Some "SN-1") None None; vendor_match "01HX-E" CLOSED].

Example five_rows :
  let v := LiveView.liveView sky [airliner] None true (1789441200000 + 60000) in
  map tr_track_id (LiveView.pn_drones (LiveView.vw_panel v)) = ["01HX-B"; "01HX-A"] /\
  map tr_track_id (LiveView.pn_shelf (LiveView.vw_panel v)) = ["01HX-C"; "01HX-E"] /\
  map tr_track_id (LiveView.closed_rows (LiveView.vw_panel v)) = ["01HX-D"] /\
  LiveView.vw_contactCount v = 6 /\ LiveView.vw_unplotted v = 1 /\ LiveView.vw_confirmed v = 1.
Proof. vm_compute. split_and!; reflexivity. Qed.

(** Five flights of one aircraft, and a shelf nobody opened: the tab says six, and
    opens onto three rows. *)
Lemma tab_counts_what_is_not_drawn :
  let sky := vendor_match "01HX-C" TENTATIVE ::
    map (fun id => contact id CLOSED (Some "SN-1") None None) ["01HX-D"; "01HX-E"; "01HX-F"; "01HX-G"; "01HX-H"] in
  let v := LiveView.liveView sky [] None true 1789441260000 in
  LiveView.vw_contactCount v = 6 /\ zlen (LiveView.drawn false (LiveView.vw_panel v)) = 3 /\
  LiveView.linked (LiveView.vw_panel v) = 2%nat.
Proof. vm_compute. auto. Qed.

Lemma every_contact_has_its_place_witness :
  let v := LiveView.liveView sky [airliner] None false 1789441260000 in
  List.NoDup (map tr_track_id sky) /\ LiveView.vw_contactCount v = 4 /\ List.NoDup (map tr_track_id (LiveView.vw_map_tracks v)).
Proof.
  intros v. assert (List.NoDup (map tr_track_id sky)) as Hn.
  { vm_compute. repeat (constructor; [cbn; intuition discriminate|]). constructor. }
  split; [exact Hn|]. split; [vm_compute; reflexivity|].
  apply (LiveView.every_contact_has_its_place sky [airliner] None false 1789441260000). exact Hn.
Defined.

(** The initial centre yields to the contacts, as its comment says, and not to the
    operator's panning, as it says too: a receiver that arrives after the operator
    moved the map takes the view away. *)
Lemma pan_is_overridden :
  let elsewhere := {| vp_center := (of_Z 10, of_Z 50); vp_zoom := of_Z 9 |} in
  let s := after [mounted false; loaded; user_panned elsewhere; rendered (props [])] in
  lm_moves s = [panned elsewhere; jumped (of_Z (-75), of_Z 40)] /\ vp_center (lm_view s) = (of_Z (-75), of_Z 40).
Proof. vm_compute. auto. Qed.

(** An operator's marker keeps the name it was made with: once the serial is
    known, the list says it and the marker still says the track's suffix. *)
Lemma stale_operator_label :
  let s := after [mounted false; loaded; rendered first_look; rendered later] in
  map (fun e => Markers.om_ariaLabel (oa_marker e.2)) (Pool.shown (lm_operators s)) =
    ["Operator ground position for 01HX-A. Not an aircraft."] /\
  map (fun i => Markers.om_ariaLabel (oa_marker i.2)) (operator_items later) =
    ["Operator ground position for SN-1. Not an aircraft."].
Proof. vm_compute. auto. Qed.
End Examples.
