(* ===== verification/FlightPage.v ===== *)
(** * FlightPage: the page of one flight

    [routes/tracks/$trackId.tsx] with the controls under its map
    ([features/tracks/flight-scrubber.tsx]), the lanes beside it
    ([profile-lane.tsx], [flight-profiles.tsx]), its map
    ([features/map/track-map.tsx]) and the strip of the aircraft's other flights
    ([aircraft-flights.tsx]).  The replay is a state machine whose clock is the
    scrubber's interval; everything else is computed from the flight's path. *)
From Stdlib Require Import ZArith Bool String Ascii List Lia Sorted.
From stdpp Require Import base option list strings pretty.
From S2P Require Import Prelude JsNumber JsDate JsString Format ApiTypes LogStore GraphQl Queries Flights MapGeo FlightMotion PathColour ShareCard FlightFiles MapView.

(** ** The replay *)
Module Replay.

Definition TICK_MS : Z := 100.

(** The page's own state, and the path it was given. *)
Record Page := {
  pg_path : list Position;
  pg_colourMode : PathColourMode;
  pg_scrubMs : option Z;
  pg_playing : bool;
  pg_rate : Z;
  pg_hoverMs : option num
}.

Definition opened (path : list Position) (colour : PathColourMode) : Page :=
  {| pg_path := path; pg_colourMode := colour; pg_scrubMs := None; pg_playing := false; pg_rate := 1; pg_hoverMs := None |}.

Definition span (p : Page) : option (Z * Z) := playbackSpan (pg_path p).
Definition totalMs (s : Z * Z) : Z := s.2 - s.1.
Definition atMs (p : Page) : option Z :=
  match pg_scrubMs p with Some ms => Some ms | None => fst <$> span p end.
Definition elapsedMs (s : Z * Z) (at_ : Z) : Z := Z.min (totalMs s) (Z.max 0 (at_ - s.1)).
Definition frame (p : Page) : option PlaybackFrame := atMs p ≫= fun ms => frameAt (pg_path p) (of_Z ms).
(** Whichever the operator is driving has the cursor. *)
Definition cursorMs (p : Page) : option num :=
  if pg_playing p then of_Z <$> atMs p
  else match pg_hoverMs p with Some ms => Some ms | None => of_Z <$> atMs p end.
Definition cursorFrame (p : Page) : option PlaybackFrame := cursorMs p ≫= frameAt (pg_path p).

(** The marker handed to the map, and the line under the rail. *)
Definition cursor (clock : num -> string) (p : Page) : option ((num * num) * string) :=
  (fun f => ((pf_lon f, pf_lat f),
    "Replay position at " +:+ clock (pf_atMs f) +:+ (if pf_heard f then "" else " — not heard, held at the last fix")))
  <$> cursorFrame p.
Definition heard (p : Page) : bool := match frame p with Some f => pf_heard f | None => true end.
Definition said (p : Page) : option string := if heard p then None else Some "not heard — marker held at last fix".

(** *** The controls *)

Definition set_path (path : list Position) (p : Page) : Page :=
  {| pg_path := path; pg_colourMode := pg_colourMode p; pg_scrubMs := pg_scrubMs p; pg_playing := pg_playing p;
     pg_rate := pg_rate p; pg_hoverMs := pg_hoverMs p |}.
Definition set_colour (m : PathColourMode) (p : Page) : Page :=
  {| pg_path := pg_path p; pg_colourMode := m; pg_scrubMs := pg_scrubMs p; pg_playing := pg_playing p;
     pg_rate := pg_rate p; pg_hoverMs := pg_hoverMs p |}.
Definition onScrub (ms : Z) (p : Page) : Page :=
  {| pg_path := pg_path p; pg_colourMode := pg_colourMode p; pg_scrubMs := Some ms; pg_playing := pg_playing p;
     pg_rate := pg_rate p; pg_hoverMs := pg_hoverMs p |}.
Definition onPlayingChange (b : bool) (p : Page) : Page :=
  {| pg_path := pg_path p; pg_colourMode := pg_colourMode p; pg_scrubMs := pg_scrubMs p; pg_playing := b;
     pg_rate := pg_rate p; pg_hoverMs := pg_hoverMs p |}.
Definition onRateChange (r : Z) (p : Page) : Page :=
  {| pg_path := pg_path p; pg_colourMode := pg_colourMode p; pg_scrubMs := pg_scrubMs p; pg_playing := pg_playing p;
     pg_rate := r; pg_hoverMs := pg_hoverMs p |}.
Definition set_hover (ms : option num) (p : Page) : Page :=
  {| pg_path := pg_path p; pg_colourMode := pg_colourMode p; pg_scrubMs := pg_scrubMs p; pg_playing := pg_playing p;
     pg_rate := pg_rate p; pg_hoverMs := ms |}.

(** The scrubber, when there is one and it is not disabled: its span and place. *)
Definition scrubber (p : Page) : option ((Z * Z) * Z) :=
  match span p with
  | Some s => if totalMs s <=? 0 then None else Some (s, atMs p ?? s.1)
  | None => None
  end.

(** The interval's callback; the interval runs while the replay plays. *)
Definition tick (p : Page) : Page :=
  match scrubber p with
  | Some (s, at_) =>
      if pg_playing p then
        let next := at_ + TICK_MS * pg_rate p in
        if s.2 <=? next then onPlayingChange false (onScrub s.2 p) else onScrub next p
      else p
  | None => p
  end.

Definition onPlayClick (p : Page) : Page :=
  match scrubber p with
  | Some (s, at_) =>
      onPlayingChange (negb (pg_playing p)) (if negb (pg_playing p) && (s.2 <=? at_) then onScrub s.1 p else p)
  | None => p
  end.
Definition onBackClick (p : Page) : Page :=
  match scrubber p with Some (s, _) => onScrub s.1 p | None => p end.

(** The rail's values: steps of a thousandth of the flight. *)
Definition rail_step (s : Z * Z) : Z := Z.max 1 (round_Z (ndiv (of_Z (totalMs s)) (of_Z 1000)) ?? 1).
Definition rail_value (s : Z * Z) (k : Z) : option Z :=
  let v := s.1 + k * rail_step s in if (0 <=? k) && (v <=? s.2) then Some v else None.
Definition onRail (k : Z) (p : Page) : Page :=
  match scrubber p with
  | Some (s, _) => match rail_value s k with Some v => onScrub v (onPlayingChange false p) | None => p end
  | None => p
  end.
Definition onRateClick (r : Z) (p : Page) : Page :=
  match scrubber p with
  | Some _ => if existsb (Z.eqb r) PLAYBACK_RATES then onRateChange r p else p
  | None => p
  end.

(** A pointer over a lane; there are lanes when there is a span. *)
Definition onHoverMs (ms : option num) (p : Page) : Page :=
  match span p with Some _ => set_hover ms p | None => p end.

Inductive Event :=
| ticked
| play_clicked
| back_clicked
| railed (k : Z)
| rate_clicked (r : Z)
| hovered (ms : option num)
| mode_chosen (m : PathColourMode)
| path_arrived (path : list Position).

Definition step (p : Page) (e : Event) : Page :=
  match e with
  | ticked => tick p
  | play_clicked => onPlayClick p
  | back_clicked => onBackClick p
  | railed k => onRail k p
  | rate_clicked r => onRateClick r p
  | hovered ms => onHoverMs ms p
  | mode_chosen m => set_colour m p
  | path_arrived path => set_path path p
  end.
Definition run (p : Page) (es : list Event) : Page := fold_left step es p.

(** *** Facts *)

(** The pages of every run: any control and pointer (whose place is a number), and
    any path, of this flight or of the next one opened under the same component. *)
Definition control (e : Event) : Prop := match e with hovered (Some ms) => is_nan ms = false | _ => True end.
Inductive reachable : Page -> Prop :=
| reach_opened path colour : reachable (opened path colour)
| reach_step p e : reachable p -> control e -> reachable (step p e).

(** The pages of one flight: each path that arrives covers the flight before it. *)
Definition widens (p : Page) (path : list Position) : Prop :=
  forall s, span p = Some s -> exists s', playbackSpan path = Some s' /\ s'.1 <= s.1 /\ s.2 <= s'.2.
Inductive one_flight : Page -> Prop :=
| flight_opened path colour : one_flight (opened path colour)
| flight_step p e : one_flight p -> control e -> (forall path, e = path_arrived path -> widens p path) ->
    one_flight (step p e).

Record page_ok (p : Page) : Prop := {
  po_rate : In (pg_rate p) PLAYBACK_RATES;
  po_hover : forall ms, pg_hoverMs p = Some ms -> is_nan ms = false
}.
(** The playhead, where the operator put it, is within the flight. *)
Definition within (p : Page) : Prop :=
  forall ms, pg_scrubMs p = Some ms -> exists s, span p = Some s /\ s.1 <= ms <= s.2.

Lemma extent_grows path r : exists r', fold_left (fun r p =>
    match pointMs p, r with
    | None, _ => r
    | Some ms, None => Some (ms, ms)
    | Some ms, Some (lo, hi) => Some (Z.min lo ms, Z.max hi ms)
    end) path r = r' /\
  (forall s, r = Some s -> s.1 <= s.2 -> exists s', r' = Some s' /\ s'.1 <= s'.2) /\
  (r = None -> match r' with Some s => s.1 <= s.2 | None => omap pointMs path = [] end) /\
  (r' <> None -> r = None -> omap pointMs path <> []).
Proof.
  revert r. induction path as [|p path IH]; intros r; cbn [fold_left omap list_omap].
  - exists r. split_and!; [done|by eauto|by intros ->|by intros ? ->].
  - destruct (pointMs p) as [ms|] eqn:E; cbn.
    + destruct r as [[lo hi]|].
      * destruct (IH (Some (Z.min lo ms, Z.max hi ms))) as (r' & -> & H1 & _ & _). exists r'. split_and!; try done.
        intros s [= <-] Hs. cbn in Hs. apply (H1 _ eq_refl). cbn. lia.
      * destruct (IH (Some (ms, ms))) as (r' & -> & H1 & _ & _). exists r'. destruct (H1 _ eq_refl) as (s' & -> & Hs); [cbn; lia|].
        split_and!; try done.
    + destruct (IH r) as (r' & -> & H1 & H2 & H3). exists r'. done.
Qed.

Lemma playbackSpan_spec path :
  match playbackSpan path with Some s => s.1 <= s.2 | None => datedPoints path = [] end.
Proof.
  unfold playbackSpan, timeExtent. destruct (extent_grows path None) as (r & -> & _ & H & _). specialize (H eq_refl).
  destruct r; [done|]. unfold datedPoints.
  assert (omap (fun p => (fun ms => {| dd_position := p; dd_ms := ms |}) <$> pointMs p) path = []) as ->; [|done].
  clear -H. induction path as [|p path IH]; [done|]. cbn in *. destruct (pointMs p); [done|]. by apply IH.
Qed.

Lemma span_has_fix p s : span p = Some s -> datedPoints (pg_path p) <> [].
Proof.
  unfold span, playbackSpan, timeExtent. intros Es. destruct (extent_grows (pg_path p) None) as (r & Er & _ & _ & H).
  rewrite Es in Er. subst r. specialize (H ltac:(done) eq_refl). intros E. apply H.
  apply (f_equal (fun l => List.length l)) in E. unfold datedPoints in E. rewrite <- (Permutation_length (sort_by_perm _ _)) in E.
  clear -E. induction (pg_path p) as [|q l IH]; [done|]. cbn in *. destruct (pointMs q); [done|]. by apply IH.
Qed.

Lemma span_ordered p s : span p = Some s -> s.1 <= s.2.
Proof. unfold span. intros E. pose proof (playbackSpan_spec (pg_path p)) as H. by rewrite E in H. Qed.

Lemma scrubber_spec p s at_ : scrubber p = Some (s, at_) -> span p = Some s /\ atMs p = Some at_ /\ s.1 < s.2.
Proof.
  unfold scrubber, atMs. destruct (span p) as [s'|] eqn:E; [|done]. unfold totalMs.
  destruct (Z.leb_spec (s'.2 - s'.1) 0); [done|]. destruct (pg_scrubMs p); cbn; intros [= <- <-]; split_and!; try done; lia.
Qed.

Lemma tick_span p : span (tick p) = span p.
Proof. unfold tick. destruct (scrubber p) as [[s a]|]; [|done]. destruct (pg_playing p); [|done]. cbv zeta. by case_match. Qed.

Lemma control_span p e : (forall path, e <> path_arrived path) -> span (step p e) = span p.
Proof.
  intros He. destruct e as [| | |k|r|ms|m|path]; cbn [step]; [apply tick_span|..|by destruct (He path)];
    unfold onPlayClick, onBackClick, onRail, onRateClick, onHoverMs; repeat case_match; done.
Qed.

Lemma rate_positive r : In r PLAYBACK_RATES -> 0 < r.
Proof. cbn. lia. Qed.

Lemma at_within p s : within p -> span p = Some s -> exists a, atMs p = Some a /\ s.1 <= a <= s.2.
Proof.
  intros Hw Es. unfold atMs. destruct (pg_scrubMs p) as [ms|] eqn:E.
  - destruct (Hw _ E) as (s' & E' & H). rewrite Es in E'. injection E' as <-. by exists ms.
  - rewrite Es. exists s.1. cbn. apply span_ordered in Es. split; [done|lia].
Qed.
Lemma within_at p s a : span p = Some s -> atMs p = Some a -> s.1 <= a <= s.2 -> within p.
Proof. unfold atMs. intros Es Ea Ha ms E. rewrite E in Ea. injection Ea as ->. by exists s. Qed.

(** A control puts the playhead within the flight, or leaves it. *)
Lemma scrubbed_within p s ms : span p = Some s -> s.1 <= ms <= s.2 -> within (onScrub ms p).
Proof. intros Es Hms ms' [= <-]. by exists s. Qed.
Lemma playing_within b p : within p -> within (onPlayingChange b p).
Proof. done. Qed.

Lemma control_within p e : page_ok p -> within p -> (forall path, e <> path_arrived path) -> within (step p e).
Proof.
  intros Hok Hw He. destruct e as [| | |k|r|ms|m|path]; cbn [step]; [..|by destruct (He path)].
  - unfold tick. destruct (scrubber p) as [[s a]|] eqn:E; [|done]. apply scrubber_spec in E as (Es & Ea & Hs).
    destruct (pg_playing p); [|done]. pose proof (rate_positive _ (po_rate _ Hok)).
    destruct (at_within p s Hw Es) as (a' & Ea' & Ha). rewrite Ea in Ea'. injection Ea' as <-. cbv zeta.
    unfold TICK_MS. destruct (Z.leb_spec s.2 (a + 100 * pg_rate p)); [apply playing_within|]; apply (scrubbed_within p s); auto; lia.
  - unfold onPlayClick. destruct (scrubber p) as [[s a]|] eqn:E; [|done]. apply scrubber_spec in E as (Es & Ea & Hs).
    apply playing_within. destruct (_ && _); [apply (scrubbed_within p s); auto; lia|done].
  - unfold onBackClick. destruct (scrubber p) as [[s a]|] eqn:E; [|done]. apply scrubber_spec in E as (Es & Ea & Hs).
    apply (scrubbed_within p s); auto; lia.
  - unfold onRail. destruct (scrubber p) as [[s a]|] eqn:E; [|done]. apply scrubber_spec in E as (Es & Ea & Hs).
    unfold rail_value. destruct ((0 <=? k) && (s.1 + k * rail_step s <=? s.2)) eqn:Ek; [|done].
    apply andb_true_iff in Ek as [Ek1%Z.leb_le Ek2%Z.leb_le]. assert (1 <= rail_step s) by (unfold rail_step; lia).
    apply (scrubbed_within (onPlayingChange false p) s); auto; nia.
  - unfold onRateClick. destruct (scrubber p) as [[s a]|]; [|done]. by destruct (existsb _ _).
  - unfold onHoverMs. by destruct (span p).
  - done.
Qed.

Lemma replay_step_ok p e : page_ok p -> control e -> page_ok (step p e).
Proof.
  intros [Hr Hh] Hc. destruct e as [| | |k|r|ms|m|path]; cbn [step]; try done;
    unfold tick, onPlayClick, onBackClick, onRail, onRateClick, onHoverMs; cbv zeta.
  - destruct (scrubber p) as [[s a]|]; [|done]. destruct (pg_playing p); [|done]. by case_match.
  - destruct (scrubber p) as [[s a]|]; [|done]. by case_match.
  - by destruct (scrubber p) as [[s a]|].
  - destruct (scrubber p) as [[s a]|]; [|done]. by destruct (rail_value s k).
  - destruct (scrubber p) as [[s a]|]; [|done]. destruct (existsb (Z.eqb r) PLAYBACK_RATES) eqn:Er; [|done]. split; [|done].
    apply existsb_exists in Er as (r' & Hr' & ->%Z.eqb_eq). done.
  - destruct (span p); [|done]. split; [done|]. by intros ms' [= ->].
Qed.

Lemma opened_ok path colour : page_ok (opened path colour) /\ within (opened path colour).
Proof. split; [|done]. split; [by left|done]. Qed.
Lemma reachable_ok p : reachable p -> page_ok p.
Proof. induction 1 as [path colour|p e _ IH Hc]; [apply opened_ok|by apply replay_step_ok]. Qed.

Lemma path_within p path : within p -> widens p path -> within (set_path path p).
Proof.
  intros Hp Hw ms E. destruct (Hp _ E) as (s & Es & Hs). destruct (Hw s Es) as (s' & E' & H).
  exists s'. split; [exact E'|lia].
Qed.
Lemma one_flight_within p : one_flight p -> page_ok p /\ within p.
Proof.
  induction 1 as [path colour|p e _ [IH1 IH2] Hc Hw]; [apply opened_ok|]. split; [by apply replay_step_ok|].
  destruct e; try (by apply control_within). apply path_within; auto.
Qed.

(** Left alone, the replay moves on by its rate at each tick of the interval, and
    stops at the end: from anywhere, the flight's end included. *)
Lemma tick_spec p s a : span p = Some s -> atMs p = Some a -> pg_playing p = true -> s.1 < s.2 ->
  let next := a + TICK_MS * pg_rate p in
  tick p = if s.2 <=? next then onPlayingChange false (onScrub s.2 p) else onScrub next p.
Proof.
  intros Es Ea Ep Hs. unfold tick, scrubber, totalMs. rewrite Es, Ea, Ep. by destruct (Z.leb_spec (s.2 - s.1) 0); [lia|].
Qed.
Lemma paused_tick p : pg_playing p = false -> tick p = p.
Proof. intros Ep. unfold tick. destruct (scrubber p) as [[s a]|]; [|done]. by rewrite Ep. Qed.

Lemma ticks_spec n p s a : page_ok p -> span p = Some s -> atMs p = Some a -> pg_playing p = true -> s.1 < s.2 ->
  let q := Nat.iter (S n) tick p in
  atMs q = Some (Z.min s.2 (a + Z.of_nat (S n) * (TICK_MS * pg_rate p))) /\
  pg_playing q = (a + Z.of_nat (S n) * (TICK_MS * pg_rate p) <? s.2).
Proof.
  intros Hok Es Ea Ep Hlt. pose proof (rate_positive _ (po_rate _ Hok)) as Hr. unfold TICK_MS.
  revert p a Hok Es Ea Ep Hr. induction n as [|n IH]; intros p a Hok Es Ea Ep Hr; cbv zeta.
  - cbn [Nat.iter nat_rect]. rewrite (tick_spec p s a) by done. unfold TICK_MS. cbv zeta.
    destruct (Z.leb_spec s.2 (a + 100 * pg_rate p)); cbn; (split; [f_equal; lia|]); rewrite ?Ep; symmetry; rewrite ?Z.ltb_ge, ?Z.ltb_lt; lia.
  - rewrite Nat.iter_succ_r. assert (page_ok (tick p)) as Hok' by (by apply (replay_step_ok p ticked)).
    pose proof (tick_spec p s a Es Ea Ep Hlt) as Ht. unfold TICK_MS in Ht. cbv zeta in Ht.
    destruct (Z.leb_spec s.2 (a + 100 * pg_rate p)) as [Hge|Hle].
    + assert (Nat.iter (S n) tick (tick p) = tick p) as ->.
      { clear -Ht. induction n as [|n IH]; [|rewrite Nat.iter_succ, IH]; apply paused_tick; by rewrite Ht. }
      rewrite Ht. cbn [atMs onPlayingChange onScrub pg_scrubMs pg_playing]. split; [f_equal; nia|symmetry; apply Z.ltb_ge; nia].
    + destruct (IH (tick p) (a + 100 * pg_rate p)) as [H1 H2]; rewrite ?tick_span; try done; rewrite ?Ht; try done.
      assert (pg_rate (tick p) = pg_rate p) as Er by (by rewrite Ht). rewrite Er in H1, H2.
      replace (a + Z.of_nat (S (S n)) * (100 * pg_rate p)) with (a + 100 * pg_rate p + Z.of_nat (S n) * (100 * pg_rate p)) by lia.
      rewrite <- Ht. by split.
Qed.

Lemma cursor_drawn p s clock :
  page_ok p -> span p = Some s -> exists ms f d, cursorMs p = Some ms /\ cursorFrame p = Some f /\
    drawn_from (datedPoints (pg_path p)) ms (pf_index f) d /\
    (pf_heard f = false <-> in_silence (datedPoints (pg_path p)) ms (pf_index f) d) /\
    (pf_heard f = false -> cursor clock p =
       Some ((ps_lon (dd_position d), ps_lat (dd_position d)),
             "Replay position at " +:+ clock ms +:+ " — not heard, held at the last fix")).
Proof.
  intros Hok Es. assert (exists a, atMs p = Some a) as (a & Ea).
  { unfold atMs. rewrite Es. destruct (pg_scrubMs p); by eexists. }
  assert (exists ms, cursorMs p = Some ms /\ is_nan ms = false) as (ms & Ems & Hn).
  { unfold cursorMs. rewrite Ea. destruct (pg_playing p); [eexists; split; [done|apply of_Z_not_nan]|].
    destruct (pg_hoverMs p) as [h|] eqn:Eh; [|eexists; split; [done|apply of_Z_not_nan]].
    exists h. split; [done|]. by apply (po_hover _ Hok). }
  pose proof (replay_holds_when_unheard (pg_path p) ms Hn) as H. cbv zeta in H.
  destruct (frameAt (pg_path p) ms) as [f|] eqn:Ef.
  - destruct H as (d & H1 & H2 & H3). exists ms, f, d. unfold cursor, cursorFrame. rewrite Ems. cbn [mbind option_bind].
    rewrite Ef. split_and!; try done. intros E. rewrite (H3 E). done.
  - pose proof (span_has_fix p s Es). done.
Qed.

End Replay.

(** ** The lanes under the map *)
Module Lanes.

Record ProfilePoint := { pp_ms : Z; pp_value : num }.
Record ProfileSeries := { ps_id : string; ps_label : string; ps_points : list ProfilePoint; ps_color : option string }.
Record ProfileDomain := { dm_startMs : Z; dm_endMs : Z }.

Definition WIDTH : num := of_Z 600.
Definition PADDING_top : num := of_Z 8.
Definition PADDING_right : num := of_Z 8.
Definition PADDING_bottom : num := of_Z 6.
Definition PADDING_left : num := of_Z 42.
Definition PROFILE_GAP_MS : Z := 30000.

(** The loop: the runs so far, the open run, and the point before. *)
Definition segment_step (st : list (list ProfilePoint) * list ProfilePoint * option ProfilePoint) (point : ProfilePoint)
  : list (list ProfilePoint) * list ProfilePoint * option ProfilePoint :=
  let '(runs, open, previous) := st in
  match previous with
  | Some q => if PROFILE_GAP_MS <? pp_ms point - pp_ms q then (runs ++ [open], [point], Some point)
              else (runs, open ++ [point], Some point)
  | None => (runs, open ++ [point], Some point)
  end.
Definition segmentsOf (points : list ProfilePoint) : list (list ProfilePoint) :=
  let '(runs, open, _) := fold_left segment_step points ([], [], None) in
  List.filter (fun run => match run with [] => false | _ => true end) (runs ++ [open]).

(** *** A lane *)
Definition plotted (series : list ProfileSeries) : list ProfileSeries :=
  List.filter (fun e => negb (Nat.eqb (List.length (ps_points e)) 0)) series.
Definition total (series : list ProfileSeries) : Z := fold_left (fun sum e => sum + zlen (ps_points e)) (plotted series) 0.
Definition lane_points (series : list ProfileSeries) : list ProfilePoint := flat_map ps_points (plotted series).

(** The extent, padded when flat. *)
Definition value_extent (series : list ProfileSeries) : num * num :=
  let lo := fold_left (fun m p => nmin m (pp_value p)) (lane_points series) pos_infinity in
  let hi := fold_left (fun m p => nmax m (pp_value p)) (lane_points series) neg_infinity in
  if neq lo hi then (nsub lo (of_Z 1), nadd hi (of_Z 1)) else (lo, hi).

Definition plotWidth : num := nsub (nsub WIDTH PADDING_left) PADDING_right.
Definition plotHeight (height : num) : num := nsub (nsub height PADDING_top) PADDING_bottom.
Definition span (d : ProfileDomain) : num := nmax (of_Z 1) (of_Z (dm_endMs d - dm_startMs d)).
Definition x (d : ProfileDomain) (ms : num) : num :=
  nadd PADDING_left (nmul (ndiv (nsub ms (of_Z (dm_startMs d))) (span d)) plotWidth).
Definition y (height : num) (extent : num * num) (value : num) : num :=
  nadd PADDING_top (nmul (nsub (of_Z 1) (ndiv (nsub value extent.1) (nsub extent.2 extent.1))) (plotHeight height)).
Definition gridValues (extent : num * num) : list num :=
  [extent.2; ndiv (nadd extent.2 extent.1) (of_Z 2); extent.1].

(** The pointer's instant; nothing left or right of the plot. *)
Definition msAt (d : ProfileDomain) (clientX left width : num) : option num :=
  if neq width (of_Z 0) then None
  else
    let viewX := nmul (ndiv (nsub clientX left) width) WIDTH in
    let t := ndiv (nsub viewX PADDING_left) plotWidth in
    if nlt t (of_Z 0) || ngt t (of_Z 1) then None else Some (nadd (of_Z (dm_startMs d)) (nmul t (span d))).

(** The marks: a dot for a run of one point, a path for a longer one, a wash under
    the only series. *)
Inductive Mark :=
| dot (at_ : num * num)
| trace (d : string)
| wash (d : string).

Definition at_point (d : ProfileDomain) (height : num) (extent : num * num) (p : ProfilePoint) : num * num :=
  (x d (of_Z (pp_ms p)), y height extent (pp_value p)).
Definition path_data (d : ProfileDomain) (height : num) (extent : num * num) (run : list ProfilePoint) : string :=
  join " " (imap (fun i p => (if Nat.eqb i 0 then "M" else "L") +:+ " " +:+ toFixed 2 (at_point d height extent p).1 +:+ " " +:+
    toFixed 2 (at_point d height extent p).2) run).
Definition run_mark (d : ProfileDomain) (height : num) (extent : num * num) (run : list ProfilePoint) : Mark :=
  match run with
  | [p] => dot (at_point d height extent p)
  | _ => trace (path_data d height extent run)
  end.
Definition run_wash (d : ProfileDomain) (height : num) (extent : num * num) (run : list ProfilePoint) : option Mark :=
  match run with
  | first :: _ :: _ =>
      let last := List.last run first in
      let floor := num_string (nadd PADDING_top (plotHeight height)) in
      Some (wash (path_data d height extent run +:+ " L " +:+ toFixed 2 (at_point d height extent last).1 +:+ " " +:+ floor +:+
        " L " +:+ toFixed 2 (at_point d height extent first).1 +:+ " " +:+ floor +:+ " Z"))
  | _ => None
  end.

(** A lane is its marks and its table, or its note. *)
Inductive Lane :=
| empty_lane (note : string)
| drawn_lane (washes marks : list Mark) (cursor : option num) (rows : list (string * ProfilePoint)).

Definition profileLane (series : list ProfileSeries) (d : ProfileDomain) (height : num) (cursorMs : option num) (emptyNote : string)
  : Lane :=
  if total series =? 0 then empty_lane emptyNote
  else
    let ps := plotted series in
    let extent := value_extent series in
    let runs e := segmentsOf (ps_points e) in
    drawn_lane
      (match ps with [e] => omap (run_wash d height extent) (runs e) | _ => [] end)
      (flat_map (fun e => map (run_mark d height extent) (runs e)) ps)
      (match cursorMs with
       | Some ms => if nge ms (of_Z (dm_startMs d)) && nle ms (of_Z (dm_endMs d)) then Some (x d ms) else None
       | None => None
       end)
      (flat_map (fun e => map (fun p => (ps_label e, p)) (ps_points e)) ps).

(** *** The three lanes *)
Definition points_of (value : Position -> option num) (path : list Position) : list ProfilePoint :=
  omap (fun p => match pointMs p, value p with
                 | Some ms, Some v => Some {| pp_ms := ms; pp_value := v |}
                 | _, _ => None
                 end) path.
Definition heights (path : list Position) : list ProfileSeries :=
  [{| ps_id := "agl"; ps_label := "Height AGL"; ps_points := points_of ps_height_agl_m path; ps_color := None |}].
Definition speeds (path : list Position) : list ProfileSeries :=
  [{| ps_id := "speed"; ps_label := "Ground speed"; ps_points := points_of ps_speed_mps path; ps_color := None |}].

Definition RECEIVER_COLOURS : list string := ["var(--track)"; "var(--operator)"; "var(--muted-foreground)"].
Definition sample_point (s : RssiSample) : option ProfilePoint :=
  (fun ms => {| pp_ms := ms; pp_value := rs_rssi s |}) <$> Date_parse (rs_ts s).
Definition rssi (detections : list Detection) : list ProfileSeries :=
  imap (fun index e =>
    {| ps_id := e.1; ps_label := e.1; ps_points := omap sample_point e.2;
       ps_color := match RECEIVER_COLOURS !! index with Some c => Some c | None => last RECEIVER_COLOURS end |})
    (samplesByReceiver detections).

(** *** Facts *)

(** Points heard without a silence between them. *)
Definition unbroken (run : list ProfilePoint) : Prop :=
  forall i p q, run !! i = Some p -> run !! S i = Some q -> pp_ms q - pp_ms p <= PROFILE_GAP_MS.
Definition last_ms (run : list ProfilePoint) : option Z := pp_ms <$> last run.
Definition first_ms (run : list ProfilePoint) : option Z := pp_ms <$> head run.
(** Neighbouring runs are apart by more than the gap. *)
Fixpoint apart (runs : list (list ProfilePoint)) : Prop :=
  match runs with
  | a :: ((b :: _) as rest) =>
      (exists e s, last_ms a = Some e /\ first_ms b = Some s /\ PROFILE_GAP_MS < s - e) /\ apart rest
  | _ => True
  end.

Lemma apart_snoc runs a b : apart (runs ++ [a]) ->
  (exists e s, last_ms a = Some e /\ first_ms b = Some s /\ PROFILE_GAP_MS < s - e) -> apart ((runs ++ [a]) ++ [b]).
Proof.
  induction runs as [|r runs IH]; [cbn; tauto|]. intros H Hab. destruct runs as [|r' runs].
  - cbn in *. tauto.
  - destruct H as [H1 H2]. cbn. split; [exact H1|]. by apply IH.
Qed.

Lemma apart_widen runs a p : a <> [] -> apart (runs ++ [a]) -> apart (runs ++ [a ++ [p]]).
Proof.
  intros Ha. induction runs as [|r runs IH]; [done|]. intros H. destruct runs as [|r' runs].
  - cbn in *. destruct H as [(e & s & H1 & H2 & H3) _]. split; [|done]. exists e, s. split_and!; try done.
    destruct a; [done|exact H2].
  - destruct H as [H1 H2]. split; [exact H1|]. by apply IH.
Qed.

Lemma unbroken_snoc run q p : unbroken run -> last run = Some q -> pp_ms p - pp_ms q <= PROFILE_GAP_MS -> unbroken (run ++ [p]).
Proof.
  intros Hu Hq Hg i a b Ha Hb. destruct (decide (S i < List.length run)%nat) as [Hi|Hi].
  - rewrite lookup_app_l in Ha, Hb by lia. by apply (Hu i).
  - assert (S i = List.length run) as Hl.
    { apply lookup_lt_Some in Hb. rewrite length_app in Hb. simpl in Hb. lia. }
    rewrite lookup_app_r in Hb by lia. replace (S i - List.length run)%nat with 0%nat in Hb by lia. injection Hb as <-.
    rewrite lookup_app_l in Ha by lia. rewrite list.last_lookup in Hq. replace (Nat.pred (List.length run)) with i in Hq by lia.
    rewrite Ha in Hq. by injection Hq as ->.
Qed.

Lemma unbroken_one p : unbroken [p].
Proof. intros [|i] a b Ha Hb; discriminate Hb. Qed.

(** The loop, while it runs. *)
Record Running (points : list ProfilePoint) (st : list (list ProfilePoint) * list ProfilePoint * option ProfilePoint) : Prop := {
  rn_all : List.concat st.1.1 ++ st.1.2 = points;
  rn_runs : List.Forall (fun run => run <> [] /\ unbroken run) st.1.1;
  rn_open : unbroken st.1.2;
  rn_last : last st.1.2 = st.2;
  rn_some : st.1.2 = [] -> st.1.1 = [];
  rn_apart : apart (st.1.1 ++ [st.1.2])
}.

Lemma segment_step_running points st p : Running points st -> Running (points ++ [p]) (segment_step st p).
Proof.
  destruct st as [[runs open] previous]. intros [H1 H2 H3 H4 H5 H6]. cbn in *. unfold segment_step.
  destruct previous as [q|].
  - assert (open <> []) as Ho by (intros ->; done). destruct (Z.ltb_spec PROFILE_GAP_MS (pp_ms p - pp_ms q)).
    + split; cbn.
      * by rewrite concat_app, <- H1; cbn; rewrite app_nil_r.
      * apply List.Forall_app. split; [done|]. by repeat constructor.
      * apply unbroken_one.
      * done.
      * done.
      * apply apart_snoc; [done|]. exists (pp_ms q), (pp_ms p). unfold last_ms, first_ms. rewrite H4. done.
    + split; cbn; try done.
      * by rewrite app_assoc, H1.
      * apply (unbroken_snoc _ q); [done|done|lia].
      * by rewrite last_snoc.
      * by destruct open.
      * by apply apart_widen.
  - apply last_None in H4 as ->.
    rewrite (H5 eq_refl) in *. cbn in *. subst points. split; cbn; done || apply unbroken_one.
Qed.

(** The runs are the points in their order, none lost and none twice; a run has no
    silence in it, and there is one between any two. *)
Lemma segmentsOf_spec points :
  List.concat (segmentsOf points) = points /\
  List.Forall (fun run => run <> [] /\ unbroken run) (segmentsOf points) /\ apart (segmentsOf points).
Proof.
  assert (Running points (fold_left segment_step points ([], [], None))) as H.
  { assert (forall l done_ st, Running done_ st -> Running (done_ ++ l) (fold_left segment_step l st)) as Hf.
    { induction l as [|p l IH]; intros done_ st Hr; cbn; [by rewrite app_nil_r|].
      rewrite cons_middle, app_assoc. apply IH. by apply segment_step_running. }
    apply (Hf points []). split; cbn; try done. }
  unfold segmentsOf. destruct (fold_left segment_step points ([], [], None)) as [[runs open] previous].
  destruct H as [H1 H2 H3 H4 H5 H6]. cbn in *.
  assert (List.filter (fun run => match run with [] => false | _ => true end) (runs ++ [open]) =
    match open with [] => [] | _ => runs ++ [open] end) as ->.
  { destruct open as [|p open]; [by rewrite (H5 eq_refl)|]. apply filter_all. intros r [Hr|[<-|[]]]%in_app_iff; [|done].
    rewrite List.Forall_forall in H2. by destruct r, (H2 _ Hr). }
  destruct open as [|p open]; [rewrite (H5 eq_refl) in *; by split_and!|]. split_and!; [|by apply List.Forall_app; repeat constructor|exact H6].
  by rewrite concat_app; cbn; rewrite app_nil_r.
Qed.
End Lanes.

(** ** The panels of the page *)
Module Detail.
Import UseFormat.

(** An identity field that was never broadcast arrives as [''] as often as null. *)
Definition reported (value : option string) : string := truthy value ?? EMPTY.

(** *** The header *)
Record Header := {
  hd_identifier : string;
  hd_named : option string;
  hd_title : string;
  hd_mono : bool;
  hd_hints : string;
  hd_flag : option AircraftFlag;
  hd_correlated : bool;
  hd_can_export : bool;
  hd_can_label : bool
}.

(** [useAircraftLabel]. *)
Definition useAircraftLabel (labels : list AircraftLabel) (serial : option string) : option AircraftLabel :=
  truthy serial ≫= fun s => List.find (fun entry => al_serial entry === s) labels.

Definition trackHeader (track : Track) (labels : list AircraftLabel) (history : list Position) : Header :=
  let serial := tr_identity track ?. ti_serial in
  let label := useAircraftLabel labels serial in
  let identifier := title_of track in
  let named := truthy (al_label <$> label) in
  {| hd_identifier := identifier; hd_named := named; hd_title := named ?? identifier;
     hd_mono := match named with None => true | Some _ => false end;
     hd_hints := join " · " (omap truthy [tr_identity track ?. ti_vendor; tr_identity track ?. ti_model_hint;
                                           tr_identity track ?. ti_ua_type]);
     hd_flag := al_flag <$> label;
     hd_correlated := tr_adsb_correlated track ?? false;
     hd_can_export := match history with [] => false | _ => true end;
     hd_can_label := match truthy serial with Some _ => true | None => false end |}.

(** *** The strip of numbers *)
Record Metric := { mt_id : string; mt_value : string; mt_hint : option string; mt_muted : bool }.

Section Strip.
Context (distanceMetres bearingDegrees : num * num -> num * num -> num).

Definition with_history (track : Track) (history : list Position) : Track :=
  {| tr_track_id := tr_track_id track; tr_state := tr_state track; tr_first_seen := tr_first_seen track;
     tr_last_seen := tr_last_seen track; tr_detection_count := tr_detection_count track; tr_identity := tr_identity track;
     tr_confidence := tr_confidence track; tr_evidence := tr_evidence track; tr_current := tr_current track;
     tr_history := Some history; tr_operator := tr_operator track; tr_rssi_dbm := tr_rssi_dbm track;
     tr_receivers := tr_receivers track; tr_adsb_correlated := tr_adsb_correlated track |}.

Definition place (r : ReceiverPosition) : num * num := (rp_lat r, rp_lon r).
Definition from_receiver {A} (f : num * num -> num * num -> A) (track : Track) (receiver : option ReceiverPosition) : option A :=
  match tr_operator track, receiver with
  | Some op, Some r => Some (f (place r) (latLon op))
  | _, _ => None
  end.

Definition summaryStrip (units : UnitSystem) (track : Track) (history : list Position) (receiver : option ReceiverPosition)
  : list Metric :=
  let flown := with_history track history in
  let operatorRange := from_receiver distanceMetres track receiver in
  let there := match receiver with Some _ => true | None => false end in
  [{| mt_id := "duration"; mt_value := match flightDurationS track with None => EMPTY | Some d => formatDuration d end;
      mt_hint := None; mt_muted := false |};
   {| mt_id := "range"; mt_value := range units (maxRangeM distanceMetres flown receiver);
      mt_hint := Some (if there then "from the receiver" else "set a receiver position"); mt_muted := negb there |};
   {| mt_id := "agl"; mt_value := length_ units (maxHeightAglM flown); mt_hint := None; mt_muted := false |};
   {| mt_id := "speed"; mt_value := speed units (maxSpeedMps flown); mt_hint := None; mt_muted := false |};
   {| mt_id := "detections"; mt_value := pretty (tr_detection_count track);
      mt_hint := Some (pretty (zlen history) +:+ " path points"); mt_muted := false |};
   {| mt_id := "operator"; mt_value := match operatorRange with None => EMPTY | Some r => range units (Some r) end;
      mt_hint := Some (match from_receiver bearingDegrees track receiver with
                       | None => match tr_operator track with Some _ => "no receiver position" | None => "not broadcast" end
                       | Some b => "bearing " +:+ formatHeading (Some b) +:+ " from the receiver"
                       end);
      mt_muted := match operatorRange with None => true | Some _ => false end |}].
End Strip.

(** *** Evidence, and the signal *)
Definition evidence_line (track : Track) : string :=
  let evidence := tr_evidence track ?? [] in
  let classes := map (fun e => "Class " +:+ DetectionClass_string (ev_class e) +:+ " via " +:+ SensorKind_string (ev_sensor_kind e))
    evidence in
  let frames := fold_left (fun sum e => sum + ev_count e) evidence 0 in
  (match classes with [] => "No evidence recorded" | _ => join " · " classes end) +:+
  (if 0 <? frames then " · " +:+ pretty frames +:+ " frames" else "") +:+ " · confidence " +:+
  formatConfidence (tr_confidence track).

Definition peakRssi (samples : list RssiSample) : string :=
  formatRssi (match samples with
              | [] => None
              | _ => Some (fold_left (fun max s => nmax max (rs_rssi s)) samples neg_infinity)
              end).

(** *** The table of positions *)
Definition HISTORY_ROWS : nat := 500.
Definition DERIVED_MARK : string := "†".

Definition is_derived (p : Position) : bool :=
  match heightProvenance (Some p) with Some {| hp_source := derived |} => true | _ => false end.
Definition aglCell (units : UnitSystem) (p : Position) : string * option (string * string) :=
  (length_ units (ps_height_agl_m p),
   match heightProvenance (Some p) with
   | Some provenance =>
       match hp_source provenance with
       | derived => Some (DERIVED_MARK, heightProvenanceHint provenance (length_ units))
       | broadcast => None
       end
   | None => None
   end).

Record PositionHistory := {
  ph_summary : string;
  ph_rows : list Position;
  ph_legend : bool;
  ph_can_export : bool
}.
Definition positionHistory (history : list Position) : PositionHistory :=
  let rows := take HISTORY_ROWS (rev history) in
  let hidden := zlen history - zlen rows in
  {| ph_summary := pretty (zlen history) +:+ " reported points" +:+
       (if 0 <? hidden then " (newest " +:+ pretty (Z.of_nat HISTORY_ROWS) +:+ " listed)" else "");
     ph_rows := rows;
     ph_legend := existsb is_derived rows;
     ph_can_export := match history with [] => false | _ => true end |}.

(** *** The map of one flight *)
Record TrackMap := {
  tm_plotted : Track;
  tm_legend : list string
}.

Definition plotted (track : Track) (path : option (list Position)) : Track :=
  match path with
  | Some path => if zlen (tr_history track ?? []) <? zlen path then with_history track path else track
  | None => track
  end.

Definition speedLegend (units : UnitSystem) (coloured : ColouredPath) : list string :=
  match pc_extent coloured with
  | None => ["No point in this flight reported a speed."]
  | Some extent =>
      (speed units (Some extent.1) +:+ " – " +:+ speed units (Some extent.2)) ::
      (if 0 <? pc_unknownSegments coloured
       then [pretty (pc_unknownSegments coloured) +:+ " segments with no reported speed"] else []) ++
      (if 0 <? zlen (pc_dwells coloured)
       then [pretty (zlen (pc_dwells coloured)) +:+ " " +:+ (if zlen (pc_dwells coloured) =? 1 then "hover" else "hovers") +:+
             " — sized by how long"] else [])
  end.

(** Nothing when there is no place to show. *)
Definition trackMap (units : UnitSystem) (track : Track) (path : option (list Position)) (coloured : option ColouredPath)
    (colourMode : PathColourMode) : option TrackMap :=
  let p := plotted track path in
  let gaps := trailGaps (tr_history p ?? []) in
  let longestGap := fold_left (fun max g => Z.max max (tg_seconds g)) gaps 0 in
  match plottablePoints [p] with
  | [] => None
  | _ => Some {|
      tm_plotted := p;
      tm_legend :=
        ["Drone path (" +:+ pretty (zlen (tr_history p ?? [])) +:+ " points)"] ++
        match coloured, colourMode with Some c, mode_speed => speedLegend units c | _, _ => [] end ++
        match gaps with
        | [] => []
        | _ => ["Not heard for " +:+ formatDuration (of_Z longestGap) +:+
                (if 1 <? zlen gaps then " (" +:+ pretty (zlen gaps) +:+ " gaps)" else "")]
        end ++
        match tr_operator track with Some _ => ["Operator position"] | None => [] end |}
  end.

(** What the live map is handed. *)
Definition map_props (units : UnitSystem) (track : Track) (p : TrackMap) (coloured : option ColouredPath)
    (cursor : option ((num * num) * string)) (receiver browser : option ReceiverPosition) : LiveMap.Props :=
  {| LiveMap.pr_tracks := [tm_plotted p]; LiveMap.pr_adsb := []; LiveMap.pr_selectedTrackId := Some (tr_track_id track);
     LiveMap.pr_selectedMannedIcao := None; LiveMap.pr_clickable := false; LiveMap.pr_units := units;
     LiveMap.pr_fitOnTrackChanges := true; LiveMap.pr_fitMaxZoom := of_Z 19; LiveMap.pr_receiver := receiver;
     LiveMap.pr_browser := browser; LiveMap.pr_cursor := cursor; LiveMap.pr_coloured := coloured |}.

(** *** The aircraft's other flights *)
Definition MAX_FLIGHTS : Z := 1000.
Definition MAX_THUMBNAILS : nat := 12.

Record AircraftFlights := {
  af_summary : string;
  af_previous : option Track;
  af_next : option Track;
  af_items : list (Track * bool);
  af_notice : option string
}.

Section Aircraft.
Context {C : Collation} (dayLabel : Z -> string).

(** The block, from the reply for the aircraft's serial; none for no flight. *)
Definition aircraftFlights (tracks : list Track) (trackId : string) : option AircraftFlights :=
  let flights := orderFlights tracks in
  let n := flightNeighbours flights trackId in
  let '(items, from) := flightsAround flights trackId MAX_THUMBNAILS in
  match fn_total n with
  | O => None
  | S _ => Some {|
      af_summary := pretty (Z.of_nat (fn_total n)) +:+ " " +:+ (if Nat.eqb (fn_total n) 1 then "flight" else "flights") +:+
        (match flightRangeMs flights with
         | Some (start, end_) => " · " +:+ dayLabel start +:+ " – " +:+ dayLabel end_
         | None => ""
         end) +:+
        (match fn_number n with
         | Some k => " · this is flight " +:+ pretty (Z.of_nat k) +:+ " of " +:+ pretty (Z.of_nat (fn_total n))
         | None => ""
         end);
      af_previous := fn_previous n;
      af_next := fn_next n;
      af_items := map (fun t => (t, tr_track_id t === trackId)) items;
      af_notice := if (MAX_THUMBNAILS <? List.length flights)%nat
                   then Some ("Showing flights " +:+ pretty (Z.of_nat from + 1) +:+ "–" +:+
                              pretty (Z.of_nat from + zlen items) +:+ " of " +:+ pretty (zlen flights))
                   else None |}
  end.
End Aircraft.

(** *** Facts *)

(** The map draws the path the rest of the page reads. *)
Lemma map_draws_the_path (track : Track) (detections : list Detection) :
  let path := flightPath detections (tr_history track ?? []) in
  tr_history (plotted track (Some path)) ?? [] = path /\
  forall units coloured mode, match trackMap units track (Some path) coloured mode with
    | Some m => tm_plotted m = plotted track (Some path) /\
                head (tm_legend m) = Some ("Drone path (" +:+ pretty (zlen path) +:+ " points)")
    | None => path = [] /\ tr_current track = None /\ tr_operator track = None
    end.
Proof.
  intros path. assert (tr_history (plotted track (Some path)) ?? [] = path) as Hp.
  { unfold plotted, path, flightPath. destruct (Z.ltb_spec (zlen (tr_history track ?? [])) (zlen (map flown (sort_by by_time (omap positioned detections))))) as [H|H].
    - by destruct (Z.ltb_spec (zlen (tr_history track ?? [])) (zlen (map flown (sort_by by_time (omap positioned detections))))); [|lia].
    - by rewrite Z.ltb_irrefl. }
  split; [exact Hp|]. intros units coloured mode. unfold trackMap. rewrite Hp.
  destruct (plottablePoints [plotted track (Some path)]) eqn:E; [|done].
  unfold plottablePoints in E. cbn [flat_map] in E. rewrite app_nil_r, Hp in E.
  assert (tr_current (plotted track (Some path)) = tr_current track /\ tr_operator (plotted track (Some path)) = tr_operator track) as [Ec Eo].
  { unfold plotted. by destruct (zlen _ <? zlen _). }
  rewrite Ec, Eo in E. destruct path; [|by destruct (tr_current track)]. by destruct (tr_current track), (tr_operator track).
Qed.

(** The table lists the newest positions, newest first, and counts them all. *)
Lemma table_lists_the_newest history :
  let h := positionHistory history in
  rev (ph_rows h) = drop (List.length history - HISTORY_ROWS) history /\
  (forall units p, In p (ph_rows h) -> snd (aglCell units p) <> None -> ph_legend h = true).
Proof.
  cbv zeta. split.
  - cbn [positionHistory ph_rows]. by rewrite firstn_rev, rev_involutive.
  - intros units p Hp Hd. cbn [positionHistory ph_legend ph_rows] in *. apply existsb_exists. exists p. split; [done|].
    unfold aglCell in Hd. cbn [snd] in Hd. unfold is_derived. destruct (heightProvenance (Some p)) as [[[|] ?]|]; done.
Qed.

(** From the block one can step to the neighbours and back, and the flight of the
    page is among its shapes. *)
Lemma aircraft_block_links {C : Collation} dayLabel (tracks : list Track) (t : Track) :
  List.NoDup (map tr_track_id tracks) -> In t tracks ->
  match aircraftFlights dayLabel tracks (tr_track_id t) with
  | None => False
  | Some b => In (t, true) (af_items b) /\
      (forall u, af_next b = Some u -> exists b', aircraftFlights dayLabel tracks (tr_track_id u) = Some b' /\ af_previous b' = Some t)
  end.
Proof.
  intros Hn Ht. pose proof (sort_by_perm order_le tracks) as Hperm. fold (orderFlights tracks) in Hperm.
  assert (List.NoDup (map tr_track_id (orderFlights tracks))) as Hn' by (by rewrite <- Hperm).
  assert (In t (orderFlights tracks)) as Ht' by (by rewrite <- Hperm).
  assert (forall id, fn_total (flightNeighbours (orderFlights tracks) id) = List.length (orderFlights tracks)) as Htot.
  { intros id. unfold flightNeighbours. by destruct (find_index _ _). }
  destruct (flights_are_linked (orderFlights tracks) t MAX_THUMBNAILS Hn' Ht' ltac:(unfold MAX_THUMBNAILS; lia)) as (H1 & _ & H2).
  unfold aircraftFlights. destruct (flightsAround (orderFlights tracks) (tr_track_id t) MAX_THUMBNAILS) as [items from].
  destruct H2 as (Hi & _). rewrite !Htot. destruct (orderFlights tracks) as [|o os] eqn:Eo; [done|]. cbn [List.length].
  cbn [af_items af_next]. split.
  - apply in_map_iff. exists t. by rewrite String.eqb_refl.
  - intros u Hu. destruct (H1 u Hu) as [Hprev _].
    destruct (flightsAround (o :: os) (tr_track_id u) MAX_THUMBNAILS) as [items' from']. rewrite Htot. cbn [List.length].
    eexists. split; [reflexivity|]. exact Hprev.
Qed.
End Detail.

(** ** Examples *)
Module Examples.
Import Replay.

Definition fix_at (at_ : string) (lat : Z) : Position :=
  {| ps_lat := of_Z lat; ps_lon := of_Z (-75); ps_alt_geodetic_m := None; ps_height_agl_m := None;
     ps_terrain_elevation_m := None; ps_speed_mps := None; ps_track_deg := None; ps_at := Some at_ |}.
(** Two seconds, then a minute unheard. *)
Definition a_path : list Position :=
  [fix_at "2026-09-15T03:00:00Z" 40; fix_at "2026-09-15T03:00:02Z" 41; fix_at "2026-09-15T03:01:02Z" 42].
Definition next_path : list Position := [fix_at "2026-09-15T05:00:00Z" 50; fix_at "2026-09-15T05:00:10Z" 51].

(** At ten times the speed, twenty-one ticks are past the second fix: unheard. *)
Definition in_the_silence : Page := run (opened a_path mode_speed) ([rate_clicked 10; play_clicked] ++ repeat ticked 21).

Lemma in_the_silence_reachable : reachable in_the_silence.
Proof.
  assert (forall es p, reachable p -> List.Forall control es -> reachable (run p es)) as H.
  { intros es. induction es as [|e es IH]; intros p Hp Hes; [done|]. inversion Hes; subst. apply IH; [by apply reach_step|done]. }
  apply H; [constructor|]. vm_compute. repeat constructor.
Qed.


(** The next flight, opened from the page by its own links, is another path in the
    same component: the replay stands outside the flight, and the colour stays
    what it was rather than what the settings say. *)
Lemma replay_carries_over :
  let p := step (run (opened a_path mode_speed) [mode_chosen mode_none; railed 500]) (path_arrived next_path) in
  span p = Some (1789448400000, 1789448410000) /\ atMs p = Some 1789441231000 /\ pg_colourMode p = mode_none /\
  (pf_lat <$> cursorFrame p) = Some (of_Z 50).
Proof. vm_compute. auto. Qed.

Example a_gap_in_a_lane :
  map (fun r => map (fun p => Lanes.pp_ms p) r)
    (Lanes.segmentsOf (map (fun ms => {| Lanes.pp_ms := ms; Lanes.pp_value := of_Z 1 |}) [0; 10000; 50000; 80000; 110001])) =
  [[0; 10000]; [50000; 80000]; [110001]].
Proof. reflexivity. Qed.
End Examples.
