(* ===== verification/Preferences.v ===== *)
(** * Preferences: what this browser remembers of its operator

    [app/preferences.tsx] with [app/preferences-context.ts] (the stored blob and its
    merge, the provider, the document's attributes, the screen wake lock) and
    [app/theme.tsx].  The blob is parsed JSON and cast, so preferences are an
    object's fields; the wake lock is a state machine over what the browser
    grants and takes away. *)
From Stdlib Require Import ZArith Bool String Ascii List Lia.
From stdpp Require Import base option list strings pretty.
From S2P Require Import Prelude JsNumber ApiTypes MapView.

(** ** The stored preferences *)
Module Stored.

Definition Fields : Type := list (string * json).

Definition STORAGE_KEY : string := "classg.preferences".

Definition TEXT_SCALE_VALUES : list (string * num) :=
  [("sm", dec 9375 4); ("md", of_Z 1); ("lg", dec 10625 4); ("xl", dec 1125 3)].

Definition DEFAULT_PREFERENCES : Fields :=
  [("units", JStr "metric"); ("coordFormat", JStr "decimal"); ("clock", JStr "24h"); ("timeZone", JStr "utc");
   ("timestampStyle", JStr "both"); ("textScale", JStr "md"); ("density", JStr "comfortable"); ("motion", JStr "system");
   ("logLimit", JNum (of_Z 1000)); ("logFollow", JBool true); ("alertLevel", JStr "off"); ("keepAwake", JBool false);
   ("confirmDestructive", JBool true); ("notifyCategories", JObj []); ("notifyMinLevel", JStr "info");
   ("mapLegend", JBool true); ("showClosedContacts", JBool true); ("trackPathColour", JStr "speed")].
Definition KEYS : list string := map fst DEFAULT_PREFERENCES.

(** [{ ...fields, [key]: value }]. *)
Fixpoint set_field (key : string) (value : json) (fields : Fields) : Fields :=
  match fields with
  | [] => [(key, value)]
  | (k, v) :: fields' => if k === key then (k, value) :: fields' else (k, v) :: set_field key value fields'
  end.
Definition spread (base over : Fields) : Fields := fold_left (fun fields kv => set_field kv.1 kv.2 fields) over base.

(** The own entries a spread copies: an array's are its indices. *)
Definition own_entries (v : json) : option Fields :=
  match v with
  | JObj fields => Some fields
  | JArr items => Some (imap (fun i v => (pretty (Z.of_nat i), v)) items)
  | _ => None
  end.
Definition isPlainObject (v : option json) : bool := match v with Some (JObj _) => true | _ => false end.

(** [===]: an object or array is the same only as itself, and a value read anew is
    not that one. *)
Definition strictly_equal (a b : json) : bool :=
  match a, b with
  | JNull, JNull => true
  | JBool x, JBool y => Bool.eqb x y
  | JNum x, JNum y => neq x y
  | JStr x, JStr y => x === y
  | _, _ => false
  end.

Section Storage.
(** [JSON.parse], [None] where it throws, and [JSON.stringify]. *)
Context (parse : string -> option json) (stringify : json -> string).

(** [raw] is [None] when the item is absent or storage throws. *)
Definition readStored (raw : option string) : Fields :=
  match (truthy raw ≫= parse) ≫= own_entries with
  | None => DEFAULT_PREFERENCES
  | Some parsed =>
      let merged := spread DEFAULT_PREFERENCES parsed in
      if isPlainObject (assoc "notifyCategories" merged) then merged else set_field "notifyCategories" (JObj []) merged
  end.

(** A browser: its storage's item, whether it takes writes, and the provider's
    state. *)
Record Provider := { pv_stored : option string; pv_writable : bool; pv_preferences : Fields }.

(** The effect that writes the preferences after a render that changed them. *)
Definition persist (p : Provider) : Provider :=
  {| pv_stored := if pv_writable p then Some (stringify (JObj (pv_preferences p))) else pv_stored p;
     pv_writable := pv_writable p; pv_preferences := pv_preferences p |}.
Definition mount (stored : option string) (writable : bool) : Provider :=
  persist {| pv_stored := stored; pv_writable := writable; pv_preferences := readStored stored |}.

Definition with_preferences (fields : Fields) (p : Provider) : Provider :=
  persist {| pv_stored := pv_stored p; pv_writable := pv_writable p; pv_preferences := fields |}.
Definition setPreference (key : string) (value : json) (p : Provider) : Provider :=
  match assoc key (pv_preferences p) with
  | Some old => if strictly_equal old value then p else with_preferences (set_field key value (pv_preferences p)) p
  | None => with_preferences (set_field key value (pv_preferences p)) p
  end.
Definition reset (p : Provider) : Provider := with_preferences DEFAULT_PREFERENCES p.

Inductive Change := changed (key : string) (value : json) | was_reset.
Definition apply (p : Provider) (c : Change) : Provider :=
  match c with changed key value => setPreference key value p | was_reset => reset p end.

(** The attributes of the root element. *)
Record Root := { rt_ui_scale : option num; rt_density : option json; rt_reduced : bool }.
Definition document_root (p : Fields) : Root :=
  {| rt_ui_scale := match assoc "textScale" p with Some (JStr s) => assoc s TEXT_SCALE_VALUES | _ => None end;
     rt_density := assoc "density" p;
     rt_reduced := match assoc "motion" p with Some (JStr s) => s === "reduced" | _ => false end |}.

(** *** Facts *)

Lemma set_field_assoc key key' value fields :
  assoc key' (set_field key value fields) = if key === key' then Some value else assoc key' fields.
Proof.
  induction fields as [|[k v] fields IH]; cbn; [done|]. destruct (String.eqb_spec k key) as [->|Hne]; cbn.
  - by destruct (key === key').
  - rewrite IH. destruct (String.eqb_spec k key') as [->|]; [|done]. by destruct (String.eqb_spec key key') as [->|].
Qed.

Lemma set_field_same key value fields : assoc key fields = Some value -> set_field key value fields = fields.
Proof.
  induction fields as [|[k v] fields IH]; cbn; [done|]. destruct (String.eqb_spec k key) as [->|]; [by intros [= ->]|].
  intros H. by rewrite IH.
Qed.

Lemma set_field_keys key value fields :
  map fst (set_field key value fields) = if existsb (String.eqb key) (map fst fields) then map fst fields else map fst fields ++ [key].
Proof.
  induction fields as [|[k v] fields IH]; cbn; [done|]. rewrite (String.eqb_sym k key).
  destruct (String.eqb_spec key k) as [->|]; cbn; [done|]. rewrite IH. by destruct (existsb _ _).
Qed.

Lemma set_field_NoDup key value fields : List.NoDup (map fst fields) -> List.NoDup (map fst (set_field key value fields)).
Proof.
  rewrite set_field_keys. destruct (existsb (String.eqb key) (map fst fields)) eqn:E; [done|]. intros Hn.
  apply NoDup_app_disj; [done|repeat constructor; auto|]. intros k Hk [<-|[]].
  assert (existsb (String.eqb key) (map fst fields) = true); [|congruence].
  apply existsb_exists. exists key. by rewrite String.eqb_refl.
Qed.

Lemma spread_NoDup base over : List.NoDup (map fst base) -> List.NoDup (map fst (spread base over)).
Proof.
  unfold spread. revert base. induction over as [|[k v] over IH]; intros base Hb; [done|]. apply IH. by apply set_field_NoDup.
Qed.

(** A key of the blob prevails over the default, and a missing one is repaired. *)
Lemma spread_assoc base over key : List.NoDup (map fst over) ->
  assoc key (spread base over) = match assoc key over with Some v => Some v | None => assoc key base end.
Proof.
  unfold spread. revert base. induction over as [|[k v] over IH]; intros base Hn; [done|]. cbn in *. inversion Hn as [|? ? Hk Hn']; subst.
  rewrite IH by done. rewrite set_field_assoc. destruct (String.eqb_spec k key) as [->|]; [|done].
  by rewrite (proj2 (assoc_None_keys key over) Hk).
Qed.

Lemma spread_has base over key : assoc key base <> None -> assoc key (spread base over) <> None.
Proof.
  unfold spread. revert base. induction over as [|[k v] over IH]; intros base Hb; [done|]. apply IH. cbn. rewrite set_field_assoc.
  by destruct (k === key).
Qed.

(** What every consumer relies on: the known keys are there, once, and the
    categories are an object. *)
Record sound (p : Fields) : Prop := {
  so_keys : List.NoDup (map fst p);
  so_known : forall key, In key KEYS -> assoc key p <> None;
  so_categories : isPlainObject (assoc "notifyCategories" p) = true
}.

Lemma default_sound : sound DEFAULT_PREFERENCES.
Proof.
  split; [|intros key Hk E|done].
  - vm_compute. repeat (constructor; [cbn; intuition discriminate|]). constructor.
  - by apply assoc_None_keys in E.
Qed.

Lemma set_field_sound key value p :
  sound p -> (key = "notifyCategories" -> isPlainObject (Some value) = true) -> sound (set_field key value p).
Proof.
  intros [H1 H2 H3] Hv. split; [by apply set_field_NoDup| |].
  - intros k Hk. rewrite set_field_assoc. destruct (key === k); [done|by apply H2].
  - rewrite set_field_assoc. destruct (String.eqb_spec key "notifyCategories"); auto.
Qed.

(** Whatever the storage holds, what is read is sound. *)
Lemma readStored_sound raw : sound (readStored raw).
Proof.
  unfold readStored. destruct ((truthy raw ≫= parse) ≫= own_entries) as [parsed|]; [|apply default_sound].
  set (merged := spread DEFAULT_PREFERENCES parsed).
  assert (List.NoDup (map fst merged)) as Hn by (apply spread_NoDup, default_sound).
  assert (forall key, In key KEYS -> assoc key merged <> None) as Hk by (intros key Hk; by apply spread_has, default_sound).
  destruct (isPlainObject (assoc "notifyCategories" merged)) eqn:E; [by split|]. split; [by apply set_field_NoDup| |].
  - intros key Hkey. rewrite set_field_assoc. destruct ("notifyCategories" === key); [done|by apply Hk].
  - by rewrite set_field_assoc, String.eqb_refl.
Qed.

(** Preferences written and read again are themselves, key for key. *)
Lemma reads_back p : sound p -> parse (stringify (JObj p)) = Some (JObj p) -> stringify (JObj p) <> "" ->
  forall key, In key (map fst p) -> assoc key (readStored (Some (stringify (JObj p)))) = assoc key p.
Proof.
  intros [H1 H2 H3] Hj He key Hk. unfold readStored. assert (truthy (Some (stringify (JObj p))) = Some (stringify (JObj p))) as ->.
  { unfold truthy. by destruct (stringify (JObj p)). }
  cbn [mbind option_bind]. rewrite Hj. cbn [mbind option_bind own_entries].
  assert (forall k, In k (map fst p) -> assoc k (spread DEFAULT_PREFERENCES p) = assoc k p) as Hs.
  { intros k Hin. rewrite spread_assoc by done. destruct (assoc k p) eqn:E; [done|]. by apply assoc_None_keys in E. }
  assert (In "notifyCategories" (map fst p)) as Hc.
  { destruct (in_dec string_dec "notifyCategories" (map fst p)) as [H|H]; [done|]. apply assoc_None_keys in H.
    by rewrite H in H3. }
  rewrite (Hs _ Hc), H3. by apply Hs.
Qed.

(** No key appears on the way. *)
Lemma set_field_In key value fields k : In k (map fst (set_field key value fields)) <-> k = key \/ In k (map fst fields).
Proof.
  rewrite set_field_keys. destruct (existsb (String.eqb key) (map fst fields)) eqn:E.
  - split; [tauto|]. intros [->|H]; [|done]. by apply existsb_exists in E as (k' & H & ->%String.eqb_eq).
  - rewrite in_app_iff. cbn. intuition congruence.
Qed.

Lemma spread_In base over k : In k (map fst (spread base over)) <-> In k (map fst base) \/ In k (map fst over).
Proof.
  unfold spread. revert base. induction over as [|[k' v] over IH]; intros base; cbn; [tauto|].
  rewrite IH, set_field_In. cbn. intuition congruence.
Qed.

Lemma readStored_keys p : sound p -> parse (stringify (JObj p)) = Some (JObj p) -> stringify (JObj p) <> "" ->
  forall key, In key (map fst (readStored (Some (stringify (JObj p))))) -> In key (map fst p).
Proof.
  intros [H1 H2 H3] Hj He key. unfold readStored. assert (truthy (Some (stringify (JObj p))) = Some (stringify (JObj p))) as ->.
  { unfold truthy. by destruct (stringify (JObj p)). }
  cbn [mbind option_bind]. rewrite Hj. cbn [mbind option_bind own_entries].
  assert (forall k, In k (map fst (spread DEFAULT_PREFERENCES p)) -> In k (map fst p)) as Hs.
  { intros k [Hk|Hk]%spread_In; [|done]. destruct (in_dec string_dec k (map fst p)) as [H|H]; [done|].
    apply assoc_None_keys in H. by destruct (H2 k Hk). }
  destruct (isPlainObject (assoc "notifyCategories" (spread DEFAULT_PREFERENCES p))); [apply Hs|]. intros [->|Hk]%set_field_In; [|by apply Hs].
  destruct (in_dec string_dec "notifyCategories" (map fst p)) as [H|H]; [done|]. apply assoc_None_keys in H. by rewrite H in H3.
Qed.

(** So the whole of the preferences is what the next visit reads. *)
Lemma reads_all_back p : sound p -> parse (stringify (JObj p)) = Some (JObj p) -> stringify (JObj p) <> "" ->
  forall key, assoc key (readStored (Some (stringify (JObj p)))) = assoc key p.
Proof.
  intros Hp Hj He key. destruct (in_dec string_dec key (map fst p)) as [Hk|Hk]; [by apply reads_back|].
  apply assoc_None_keys in Hk as E. rewrite E. apply assoc_None_keys. intros Hin. apply Hk.
  revert Hin. apply (readStored_keys _ Hp Hj He).
Qed.

(** What a key is meant to hold after the changes: the last value given to it. *)
Definition intend (key : string) (old : option json) (c : Change) : option json :=
  match c with
  | was_reset => assoc key DEFAULT_PREFERENCES
  | changed k v =>
      if k === key then match old with Some o => if strictly_equal o v then Some o else Some v | None => Some v end else old
  end.
Definition allowed (c : Change) : Prop :=
  match c with changed key v => key = "notifyCategories" -> isPlainObject (Some v) = true | was_reset => True end.

Lemma apply_spec p c key : assoc key (pv_preferences (apply p c)) = intend key (assoc key (pv_preferences p)) c.
Proof.
  destruct c as [k v|]; cbn [apply intend]; [|done]. unfold setPreference.
  destruct (assoc k (pv_preferences p)) as [old|] eqn:E.
  - destruct (strictly_equal old v) eqn:Es; cbn [with_preferences persist pv_preferences]; rewrite ?set_field_assoc;
      destruct (String.eqb_spec k key) as [->|]; try done; by rewrite E, Es.
  - cbn [with_preferences persist pv_preferences]. rewrite set_field_assoc. destruct (String.eqb_spec k key) as [->|]; [|done]. by rewrite E.
Qed.

Lemma apply_sound p c : sound (pv_preferences p) -> allowed c -> sound (pv_preferences (apply p c)).
Proof.
  intros Hp Hc. destruct c as [k v|]; [|apply default_sound]. cbn [apply]. unfold setPreference.
  destruct (assoc k (pv_preferences p)) as [old|]; [destruct (strictly_equal old v); [done|]|]; by apply set_field_sound.
Qed.

(** The storage is the last preferences, where it takes writes. *)
Lemma apply_stored p c :
  (pv_writable p = true -> pv_stored p = Some (stringify (JObj (pv_preferences p)))) ->
  pv_writable (apply p c) = pv_writable p /\
  (pv_writable p = true -> pv_stored (apply p c) = Some (stringify (JObj (pv_preferences (apply p c))))) /\
  (pv_writable p = false -> pv_stored (apply p c) = pv_stored p).
Proof.
  intros Hs. assert (forall fields, pv_writable (with_preferences fields p) = pv_writable p /\
    (pv_writable p = true -> pv_stored (with_preferences fields p) = Some (stringify (JObj (pv_preferences (with_preferences fields p))))) /\
    (pv_writable p = false -> pv_stored (with_preferences fields p) = pv_stored p)) as Hw.
  { intros fields. cbn. by destruct (pv_writable p). }
  destruct c as [k v|]; cbn [apply]; [|apply Hw]. unfold setPreference.
  destruct (assoc k (pv_preferences p)) as [old|]; [|apply Hw]. destruct (strictly_equal old v); [by split_and!|apply Hw].
Qed.

Lemma applies_spec changes p :
  sound (pv_preferences p) -> List.Forall allowed changes ->
  (pv_writable p = true -> pv_stored p = Some (stringify (JObj (pv_preferences p)))) ->
  let q := fold_left apply changes p in
  sound (pv_preferences q) /\
  (forall key, assoc key (pv_preferences q) = fold_left (intend key) changes (assoc key (pv_preferences p))) /\
  (pv_writable p = true -> pv_stored q = Some (stringify (JObj (pv_preferences q)))) /\
  (pv_writable p = false -> pv_stored q = pv_stored p).
Proof.
  revert p. induction changes as [|c changes IH]; intros p Hp Hc Hs; cbn [fold_left]; [done|].
  inversion Hc as [|? ? Hc1 Hc2]; subst. destruct (apply_stored p c Hs) as (Hw & H1 & H2).
  destruct (IH (apply p c)) as (Q1 & Q2 & Q3 & Q4); [by apply apply_sound|done|by rewrite Hw|].
  split_and!; [done| | |].
  - intros key. by rewrite Q2, apply_spec.
  - intros E. apply Q3. by rewrite Hw.
  - intros E. rewrite Q4 by by rewrite Hw. by apply H2.
Qed.

(** What is read of a stored object: its own value for each key it has, the default
    for the others, and an empty object for categories that are none. *)
Definition read_value (fields : Fields) (key : string) : option json :=
  let v := match assoc key fields with Some v => Some v | None => assoc key DEFAULT_PREFERENCES end in
  if (key === "notifyCategories") && negb (isPlainObject v) then Some (JObj []) else v.

Lemma readStored_values stored fields : truthy stored ≫= parse = Some (JObj fields) -> List.NoDup (map fst fields) ->
  forall key, assoc key (readStored stored) = read_value fields key.
Proof.
  intros Hp Hn key. unfold readStored. rewrite Hp. cbn [mbind option_bind own_entries]. unfold read_value.
  rewrite (spread_assoc DEFAULT_PREFERENCES fields "notifyCategories" Hn).
  destruct (String.eqb_spec key "notifyCategories") as [->|Hne]; cbn [andb].
  - destruct (isPlainObject _) eqn:E; cbn [negb]; [by rewrite spread_assoc|]. by rewrite set_field_assoc, String.eqb_refl.
  - destruct (isPlainObject _); [by rewrite spread_assoc|]. rewrite set_field_assoc, spread_assoc by done.
    destruct (String.eqb_spec "notifyCategories" key) as [<-|]; [by destruct Hne|done].
Qed.

(** C23. What the operator chose is what the next visit shows.  Of a stored object
    each key's own value is read, whatever it is, the default where it has none,
    and an empty object for categories that are not one; of a text that is not JSON,
    the defaults.  Whatever the storage held, every known key is there, no key
    twice, and the categories are an object: nothing is promised of the other
    values.  After any changes and resets, none of which puts a non-object in the
    categories, each key holds the last value given to it (else the one that was
    read); a storage that takes writes then gives, on reload, the same preferences
    key for key, as far as [JSON.parse] gives back what [JSON.stringify] wrote, and
    one that does not keeps what it had while the session goes on with what was
    chosen. *)
Theorem preferences_survive_reload (stored : option string) (writable : bool) (changes : list Change)
    (Hallowed : List.Forall allowed changes) :
  let p := fold_left apply changes (mount stored writable) in
  (truthy stored ≫= parse = None -> readStored stored = DEFAULT_PREFERENCES) /\
  (forall fields, truthy stored ≫= parse = Some (JObj fields) -> List.NoDup (map fst fields) ->
     forall key, assoc key (readStored stored) = read_value fields key) /\
  sound (pv_preferences p) /\
  (forall key, assoc key (pv_preferences p) = fold_left (intend key) changes (assoc key (readStored stored))) /\
  (writable = true -> parse (stringify (JObj (pv_preferences p))) = Some (JObj (pv_preferences p)) ->
     stringify (JObj (pv_preferences p)) <> "" ->
     forall key, assoc key (pv_preferences (mount (pv_stored p) writable)) = assoc key (pv_preferences p)) /\
  (writable = false -> pv_stored p = stored).
Proof.
  destruct (applies_spec changes (mount stored writable)) as (Q1 & Q2 & Q3 & Q4);
    [apply readStored_sound|done|cbn; by intros ->|].
  set (p := fold_left apply changes (mount stored writable)) in *. cbn in Q2.
  split_and!; [|by apply readStored_values|done|done| |].
  - intros Hn. unfold readStored. by rewrite Hn.
  - intros -> Hj He key. rewrite (Q3 eq_refl). by apply reads_all_back.
  - intros ->. cbn in Q4. by rewrite Q4.
Qed.
End Storage.
End Stored.

(** ** The theme *)
Module Theme.

Inductive ResolvedTheme := dark | light.
Inductive ThemePreference := prefers (t : ResolvedTheme) | follows_system.

Definition theme_string (p : ThemePreference) : string :=
  match p with prefers dark => "dark" | prefers light => "light" | follows_system => "system" end.
Definition readStored (value : option string) : ThemePreference :=
  match value with
  | Some v => if v === "light" then prefers light else if v === "system" then follows_system else prefers dark
  | None => prefers dark
  end.
(** The media query's answer, [None] without one. *)
Definition systemTheme (light_matches : option bool) : ResolvedTheme :=
  match light_matches with Some true => light | _ => dark end.

Record Themes := { th_preference : ThemePreference; th_system : ResolvedTheme; th_stored : option string; th_writable : bool }.
Definition mount (stored : option string) (light_matches : option bool) (writable : bool) : Themes :=
  {| th_preference := readStored stored; th_system := systemTheme light_matches; th_stored := stored; th_writable := writable |}.
Definition onChange (light_matches : bool) (t : Themes) : Themes :=
  {| th_preference := th_preference t; th_system := systemTheme (Some light_matches); th_stored := th_stored t;
     th_writable := th_writable t |}.
Definition setPreference (next : ThemePreference) (t : Themes) : Themes :=
  {| th_preference := next; th_system := th_system t;
     th_stored := if th_writable t then Some (theme_string next) else th_stored t; th_writable := th_writable t |}.
Definition theme (t : Themes) : ResolvedTheme := match th_preference t with prefers x => x | follows_system => th_system t end.
(** The class on the root element. *)
Definition has_dark_class (t : Themes) : bool := match theme t with dark => true | light => false end.

Lemma theme_reads_back p : readStored (Some (theme_string p)) = p.
Proof. by destruct p as [[|]|]. Qed.

(** The page starts dark unless light was chosen or the system is light and chosen
    to be followed, and a choice is the next visit's. *)
Lemma theme_survives_reload stored system writable p system' :
  th_preference (setPreference p (mount stored system writable)) = p /\
  (writable = true -> th_preference (mount (th_stored (setPreference p (mount stored system writable))) system' writable) = p) /\
  (stored = None -> has_dark_class (mount stored system writable) = true).
Proof.
  split_and!; [done| |by intros ->]. intros ->. apply theme_reads_back.
Qed.
End Theme.

(** ** The screen wake lock *)
Module WakeLock.

(** A run of the effect: its closure's [released] and [sentinel]. *)
Record Run := { rn_released : bool; rn_sentinel : option nat }.
(** The runs by number, the requests under way by their run, the locks the screen
    is held by, and whether the tab is visible.  A lock has its request's number. *)
Record Wake := {
  wk_runs : list Run;
  wk_active : option nat;
  wk_pending : list (nat * nat);
  wk_held : list nat;
  wk_next : nat;
  wk_visible : bool
}.
Definition idle (visible : bool) : Wake :=
  {| wk_runs := []; wk_active := None; wk_pending := []; wk_held := []; wk_next := 0; wk_visible := visible |}.

(** [request()] of run [n]: a request is under way. *)
Definition request (n : nat) (w : Wake) : Wake :=
  {| wk_runs := wk_runs w; wk_active := wk_active w; wk_pending := wk_pending w ++ [(n, wk_next w)]; wk_held := wk_held w;
     wk_next := S (wk_next w); wk_visible := wk_visible w |}.
Definition set_run (n : nat) (r : Run) (w : Wake) : Wake :=
  {| wk_runs := <[n := r]> (wk_runs w); wk_active := wk_active w; wk_pending := wk_pending w; wk_held := wk_held w;
     wk_next := wk_next w; wk_visible := wk_visible w |}.
Definition release (l : option nat) (w : Wake) : Wake :=
  {| wk_runs := wk_runs w; wk_active := wk_active w; wk_pending := wk_pending w;
     wk_held := List.filter (fun h => negb (bool_decide (l = Some h))) (wk_held w);
     wk_next := wk_next w; wk_visible := wk_visible w |}.
Definition settled (l : nat) (w : Wake) : Wake :=
  {| wk_runs := wk_runs w; wk_active := wk_active w;
     wk_pending := List.filter (fun q => negb (Nat.eqb q.2 l)) (wk_pending w);
     wk_held := wk_held w; wk_next := wk_next w; wk_visible := wk_visible w |}.
Definition hold (l : nat) (w : Wake) : Wake :=
  {| wk_runs := wk_runs w; wk_active := wk_active w; wk_pending := wk_pending w; wk_held := wk_held w ++ [l];
     wk_next := wk_next w; wk_visible := wk_visible w |}.

(** [keepAwake] turned on: the effect runs. *)
Definition turn_on (w : Wake) : Wake :=
  let n := List.length (wk_runs w) in
  request n {| wk_runs := wk_runs w ++ [{| rn_released := false; rn_sentinel := None |}]; wk_active := Some n;
               wk_pending := wk_pending w; wk_held := wk_held w; wk_next := wk_next w; wk_visible := wk_visible w |}.
(** Turned off, or the provider gone: the cleanup. *)
Definition turn_off (w : Wake) : Wake :=
  match wk_active w with
  | None => w
  | Some n =>
      match wk_runs w !! n with
      | None => w
      | Some r =>
          let w := set_run n {| rn_released := true; rn_sentinel := rn_sentinel r |} w in
          release (rn_sentinel r)
            {| wk_runs := wk_runs w; wk_active := None; wk_pending := wk_pending w; wk_held := wk_held w;
               wk_next := wk_next w; wk_visible := wk_visible w |}
      end
  end.

(** A request granted: [sentinel] is set, and given back at once if the run is
    over; refused: [sentinel] is null. *)
Definition granted (q : nat * nat) (w : Wake) : Wake :=
  match wk_runs w !! q.1 with
  | None => w
  | Some r =>
      let w := set_run q.1 {| rn_released := rn_released r; rn_sentinel := Some q.2 |} (hold q.2 (settled q.2 w)) in
      if rn_released r then release (Some q.2) w else w
  end.
Definition refused (q : nat * nat) (w : Wake) : Wake :=
  match wk_runs w !! q.1 with
  | None => w
  | Some r => set_run q.1 {| rn_released := rn_released r; rn_sentinel := None |} (settled q.2 w)
  end.

(** The browser: a hidden tab loses its locks; a tab that comes back runs
    [onVisible]. *)
Definition hide (w : Wake) : Wake :=
  {| wk_runs := wk_runs w; wk_active := wk_active w; wk_pending := wk_pending w; wk_held := [];
     wk_next := wk_next w; wk_visible := false |}.
Definition onVisible (w : Wake) : Wake :=
  let w := {| wk_runs := wk_runs w; wk_active := wk_active w; wk_pending := wk_pending w; wk_held := wk_held w;
              wk_next := wk_next w; wk_visible := true |} in
  match wk_active w with Some n => request n w | None => w end.

(** What can happen; a request settles when it is under way, and is granted only
    to a visible tab.  In a [prompt] browser requests settle before a hidden tab
    comes back. *)
Inductive step (prompt : bool) : Wake -> Wake -> Prop :=
| step_on w : wk_active w = None -> step prompt w (turn_on w)
| step_off w : step prompt w (turn_off w)
| step_granted w q : In q (wk_pending w) -> wk_visible w = true -> step prompt w (granted q w)
| step_refused w q : In q (wk_pending w) -> step prompt w (refused q w)
| step_hide w : wk_visible w = true -> step prompt w (hide w)
| step_show w : wk_visible w = false -> (prompt = true -> wk_pending w = []) -> step prompt w (onVisible w).

Inductive reachable (prompt : bool) : Wake -> Prop :=
| reach_idle visible : reachable prompt (idle visible)
| reach_step w w' : reachable prompt w -> step prompt w w' -> reachable prompt w'.

(** *** Facts *)

Definition held_by (w : Wake) (n l : nat) : Prop :=
  wk_held w = [l] /\ wk_active w = Some n /\ wk_visible w = true /\ (exists r, wk_runs w !! n = Some r /\ rn_sentinel r = Some l) /\
  (forall q, In q (wk_pending w) -> q.1 <> n /\ q.2 <> l) /\ (l < wk_next w)%nat.

Record wake_ok (w : Wake) : Prop := {
  wo_released : forall i r, wk_runs w !! i = Some r -> wk_active w <> Some i -> rn_released r = true;
  wo_active : forall n, wk_active w = Some n -> exists r, wk_runs w !! n = Some r /\ rn_released r = false;
  wo_held : wk_held w = [] \/ exists n l, held_by w n l;
  wo_pending : forall q, In q (wk_pending w) -> (q.1 < List.length (wk_runs w))%nat /\ (q.2 < wk_next w)%nat;
  wo_ids : List.NoDup (map snd (wk_pending w));
  wo_one : forall n q q', wk_active w = Some n -> In q (wk_pending w) -> In q' (wk_pending w) -> q.1 = n -> q'.1 = n -> q = q'
}.

Lemma idle_ok visible : wake_ok (idle visible).
Proof. split; cbn; try done; [by left|constructor]. Qed.

(** A request for the run that is active, when it has none. *)
Lemma request_ok n w : wake_ok w -> (n < List.length (wk_runs w))%nat -> wk_held w = [] ->
  (forall q, In q (wk_pending w) -> q.1 <> n) -> wake_ok (request n w).
Proof.
  intros [H1 H2 H3 H4 H5 H6] Hn Hh Hp. split; cbn; try done.
  - by left.
  - intros q [Hq|[<-|[]]]%in_app_iff; cbn; [apply H4 in Hq; lia|lia].
  - rewrite map_app. cbn. apply NoDup_app_disj; [done|repeat constructor; auto|].
    intros x (q & <- & Hq)%in_map_iff [E|[]]. apply H4 in Hq. lia.
  - intros m q q' Hm [Hq|[<-|[]]]%in_app_iff [Hq'|[<-|[]]]%in_app_iff E E'; cbn in *; try done; [by apply (H6 m)| |];
      exfalso; eapply Hp; eauto; congruence.
Qed.

Lemma settled_In q l w : In q (wk_pending (settled l w)) <-> In q (wk_pending w) /\ q.2 <> l.
Proof. cbn. rewrite filter_In, negb_true_iff, Nat.eqb_neq. done. Qed.

(** A request settled in a run whose [released] stays. *)
Lemma settled_ok q r s w : wake_ok w -> In q (wk_pending w) -> wk_runs w !! q.1 = Some r ->
  wake_ok (set_run q.1 {| rn_released := rn_released r; rn_sentinel := s |} (settled q.2 w)) /\
  (wk_active w = Some q.1 -> wk_held w = []).
Proof.
  intros [H1 H2 H3 H4 H5 H6] Hq Hr. assert (wk_active w = Some q.1 -> wk_held w = []) as Hact.
  { intros Ha. destruct H3 as [H3|(n & l & E1 & E2 & E3 & E4 & E5 & E6)]; [done|]. destruct (E5 q Hq) as [E _]. congruence. }
  split; [|exact Hact]. split; cbn [set_run wk_runs wk_active wk_held wk_pending wk_next wk_visible].
  - intros i r' Hi Ha. apply list_lookup_insert_Some in Hi as [(E & <- & _)|[Hne Hi]]; [subst i; cbn; by apply (H1 q.1 r)|by apply (H1 i)].
  - intros n Hn. destruct (H2 n Hn) as (r' & Hr' & Hf). destruct (decide (n = q.1)) as [->|Hne].
    + eexists. split; [apply list_lookup_insert_eq; by eapply lookup_lt_Some|]. cbn. rewrite Hr in Hr'. by injection Hr' as <-.
    + exists r'. by rewrite list_lookup_insert_ne.
  - destruct H3 as [H3|(n & l & E1 & E2 & E3 & (r' & E4 & E4') & E5 & E6)]; [by left|right]. exists n, l. destruct (E5 q Hq) as [Hne _].
    split_and!; try done; [exists r'; cbn; by rewrite list_lookup_insert_ne|].
    intros q' [Hq' _]%settled_In. by apply E5.
  - intros q' [Hq' _]%settled_In. rewrite length_insert. by apply H4.
  - by apply NoDup_map_filter.
  - intros n q' q'' Hn [Hq' _]%settled_In [Hq'' _]%settled_In. by apply (H6 n).
Qed.

Lemma release_none w : wk_held w = [] -> release None w = w /\ forall l, release l w = w.
Proof. unfold release. destruct w; cbn. by intros ->. Qed.

Lemma granted_ok q w : wake_ok w -> In q (wk_pending w) -> wk_visible w = true -> wake_ok (granted q w).
Proof.
  intros Hok Hq Hv. unfold granted. destruct (wk_runs w !! q.1) as [r|] eqn:Hr; [|done].
  destruct (settled_ok q r (Some q.2) w Hok Hq Hr) as [[S1 S2 S3 S4 S5 S6] Hact].
  set (s := set_run q.1 {| rn_released := rn_released r; rn_sentinel := Some q.2 |} (settled q.2 w)) in *.
  change (set_run q.1 {| rn_released := rn_released r; rn_sentinel := Some q.2 |} (hold q.2 (settled q.2 w))) with (hold q.2 s).
  assert (forall l, In l (wk_held w) -> l <> q.2) as Hne.
  { intros l Hl ->. destruct (wo_held _ Hok) as [H|(n & l & E1 & _ & _ & _ & E5 & _)]; [by rewrite H in Hl|].
    rewrite E1 in Hl. destruct Hl as [->|[]]. by destruct (E5 q Hq). }
  destruct (rn_released r) eqn:Er.
  - assert (wk_held (release (Some q.2) (hold q.2 s)) = wk_held w) as Eh.
    { cbn. rewrite List.filter_app. cbn. rewrite bool_decide_true by done. cbn. rewrite app_nil_r. apply filter_all.
      intros h Hh. apply negb_true_iff, bool_decide_false. intros [= E]. by apply (Hne h). }
    split; try done. destruct S3 as [S3|(n & l & E1 & E2 & E3 & E4 & E5 & E6)]; [left; rewrite Eh; exact S3|right].
    exists n, l. split_and!; try done. by rewrite Eh.
  - assert (wk_active w = Some q.1) as Ha.
    { destruct (decide (wk_active w = Some q.1)) as [|Hn]; [done|]. pose proof (wo_released _ Hok _ _ Hr Hn). congruence. }
    split; try done. right. exists q.1, q.2. split_and!; try done.
    + cbn. by rewrite (Hact Ha).
    + eexists. split; [apply list_lookup_insert_eq; by eapply lookup_lt_Some|done].
    + intros q' [Hq' Hi]%settled_In. split; [|done]. intros E. apply Hi. by rewrite (wo_one _ Hok q.1 q' q).
    + by apply (wo_pending _ Hok).
Qed.

Lemma turn_off_ok w : wake_ok w -> wake_ok (turn_off w) /\ (wk_active w <> None -> wk_active (turn_off w) = None).
Proof.
  intros Hok. unfold turn_off. destruct (wk_active w) as [n|] eqn:Ea; [|done].
  destruct (wo_active _ Hok n Ea) as (r & Hr & Hf). rewrite Hr. split; [|done].
  destruct Hok as [H1 H2 H3 H4 H5 H6]. split; cbn; try done.
  - intros i r' Hi _. apply list_lookup_insert_Some in Hi as [(<- & <- & _)|[Hne Hi]]; [done|]. apply (H1 i); [done|congruence].
  - left. destruct H3 as [->|(m & l & E1 & E2 & _ & (r' & E4 & E4') & _)]; [done|]. rewrite E1. rewrite Ea in E2. injection E2 as <-.
    rewrite Hr in E4. injection E4 as <-. rewrite E4'. cbn. by rewrite bool_decide_true.
  - intros q Hq. rewrite length_insert. by apply H4.
Qed.

Lemma step_keeps w w' : wake_ok w -> step true w w' -> wake_ok w'.
Proof.
  intros Hok Hs. destruct Hs as [w Ha|w|w q Hq Hv|w q Hq|w Hv|w Hv Hp].
  - assert (wk_held w = []) as Hh.
    { destruct (wo_held _ Hok) as [H|(n & l & _ & E & _)]; [done|congruence]. }
    unfold turn_on. destruct Hok as [H1 H2 H3 H4 H5 H6]. apply request_ok; cbn; try done.
    + split; cbn; try done.
      * intros i r Hi Hne. apply lookup_app_Some in Hi as [Hi|[Hl Hi]]; [apply (H1 i); [done|by rewrite Ha]|].
        apply list_lookup_singleton_Some in Hi as [E _]. exfalso. apply Hne. f_equal. lia.
      * intros n [= <-]. eexists. rewrite lookup_app_r, Nat.sub_diag by done. done.
      * by left.
      * intros q Hq. rewrite length_app. apply H4 in Hq. lia.
      * intros n q q' [= <-] Hq _ E. apply H4 in Hq. lia.
    + rewrite length_app. cbn. lia.
    + intros q Hq E. apply H4 in Hq. lia.
  - by apply turn_off_ok.
  - by apply granted_ok.
  - unfold refused. destruct (wk_runs w !! q.1) as [r|] eqn:Hr; [|done]. by apply settled_ok.
  - destruct Hok as [H1 H2 H3 H4 H5 H6]. split; cbn; try done. by left.
  - specialize (Hp eq_refl). assert (wk_held w = []) as Hh.
    { destruct (wo_held _ Hok) as [H|(n & l & _ & _ & E & _)]; [done|congruence]. }
    destruct Hok as [H1 H2 H3 H4 H5 H6]. unfold onVisible. cbn. destruct (wk_active w) as [n|] eqn:Ea.
    + apply request_ok; cbn; try done.
      * split; cbn; rewrite ?Ea; try done. by left.
      * destruct (H2 n eq_refl) as (r & Hr & _). by eapply lookup_lt_Some.
      * rewrite Hp. done.
    + split; cbn; rewrite ?Ea; try done. by left.
Qed.

Lemma wake_reachable_ok w : reachable true w -> wake_ok w.
Proof. induction 1; [apply idle_ok|by eapply step_keeps]. Qed.

(** The lock follows the setting, in a browser that settles a request before a
    hidden tab comes back: at most one lock is held, only while the setting is on
    and the tab visible, and it is the one the cleanup gives back; turning the
    setting off leaves none, and a grant that comes after that is given back at
    once. *)
Lemma lock_follows_the_setting w (Hw : reachable true w) :
  (List.length (wk_held w) <= 1)%nat /\
  (wk_held w <> [] -> wk_visible w = true /\ exists n r, wk_active w = Some n /\ wk_runs w !! n = Some r /\
     wk_held w = option_list (rn_sentinel r)) /\
  wk_held (turn_off w) = [] /\
  (forall q, In q (wk_pending w) -> wk_visible w = true -> wk_active w <> Some q.1 -> wk_held (granted q w) = wk_held w) /\
  (forall q, In q (wk_pending w) -> wk_visible w = true -> wk_active w = Some q.1 -> wk_held (granted q w) = [q.2]).
Proof.
  pose proof (wake_reachable_ok w Hw) as Hok.
  assert (forall q, In q (wk_pending w) -> forall l, In l (wk_held w) -> l <> q.2) as Hne.
  { intros q Hq l Hl ->. destruct (wo_held _ Hok) as [H|(n & l & E1 & _ & _ & _ & E5 & _)]; [by rewrite H in Hl|].
    rewrite E1 in Hl. destruct Hl as [->|[]]. by destruct (E5 q Hq). }
  split; [|split; [|split; [|split]]].
  - destruct (wo_held _ Hok) as [->|(n & l & -> & _)]; simpl; lia.
  - intros Hh. destruct (wo_held _ Hok) as [H|(n & l & E1 & E2 & E3 & (r & E4 & E5) & _)]; [done|].
    split; [done|]. exists n, r. by rewrite E5.
  - destruct (turn_off_ok w Hok) as [Hok' Hn]. destruct (wk_active w) as [n|] eqn:Ea.
    + destruct (wo_held _ Hok') as [H|(m & l & _ & E & _)]; [done|]. rewrite Hn in E by done. done.
    + unfold turn_off. rewrite Ea. destruct (wo_held _ Hok) as [H|(m & l & _ & E & _)]; [done|congruence].
  - intros q Hq Hv Ha. destruct (wo_pending _ Hok q Hq) as [Hl _]. apply lookup_lt_is_Some in Hl as [r Hr]. unfold granted.
    rewrite Hr, (wo_released _ Hok _ _ Hr Ha). cbn. rewrite List.filter_app. cbn. rewrite bool_decide_true by done. cbn.
    rewrite app_nil_r. apply filter_all. intros h Hh. apply negb_true_iff, bool_decide_false. intros [= E]. by apply (Hne q Hq h).
  - intros q Hq Hv Ha. destruct (wo_active _ Hok _ Ha) as (r & Hr & Hf). unfold granted. rewrite Hr, Hf. cbn.
    destruct (settled_ok q r None w Hok Hq Hr) as [_ Hact]. by rewrite (Hact Ha).
Qed.

(** Where a request outlives the tab's absence both it and the one made on return
    are granted, [sentinel] keeps the later, and the screen stays awake after the
    setting is turned off. *)
Definition overlapping : Wake :=
  turn_off (granted (0, 1)%nat (granted (0, 0)%nat (onVisible (hide (turn_on (idle true)))))).
Lemma overlapping_request_leaks : reachable false overlapping /\ wk_active overlapping = None /\ wk_held overlapping = [0%nat].
Proof.
  split; [|vm_compute; auto]. unfold overlapping.
  repeat first [eapply reach_step; [|apply step_off] | apply reach_idle
    | eapply reach_step; [|apply step_granted; [vm_compute; auto|reflexivity]]
    | eapply reach_step; [|apply step_show; [reflexivity|done]]
    | eapply reach_step; [|apply step_hide; reflexivity] | eapply reach_step; [|apply step_on; reflexivity]].
Qed.
End WakeLock.

(** ** Examples *)
Module Examples.
Import Stored.

Definition old_blob : json := JObj [("units", JStr "aviation"); ("gone", JNull); ("notifyCategories", JStr "drone")].
Definition some_changes : list Change := [changed "units" (JStr "imperial"); changed "mapLegend" (JBool false)].
Definition read_old (s : string) : option json := if s === "old" then Some old_blob else None.
Definition chosen : Fields :=
  pv_preferences (fold_left (apply (fun _ => "new")) some_changes (mount read_old (fun _ => "new") (Some "old") true)).
Definition read_both (s : string) : option json := if s === "new" then Some (JObj chosen) else read_old s.

Lemma preferences_survive_reload_witness :
  let p := fold_left (apply (fun _ => "new")) some_changes (mount read_both (fun _ => "new") (Some "old") true) in
  assoc "units" (pv_preferences (mount read_both (fun _ => "new") (pv_stored p) true)) = Some (JStr "imperial") /\
  assoc "notifyCategories" (pv_preferences p) = Some (JObj []).
Proof.
  destruct (preferences_survive_reload read_both (fun _ => "new") (Some "old") true some_changes) as (_ & _ & _ & _ & H & _).
  - repeat constructor; intros E; discriminate E.
  - cbv zeta in *. split; [|vm_compute; reflexivity].
    rewrite (H eq_refl); [vm_compute; reflexivity|vm_compute; reflexivity|discriminate].
Defined.

(** The settings of one tab are the whole blob: a second tab's next change writes
    back what the first had changed. *)
Lemma second_tab_writes_back :
  let write (j : json) := match j with JObj fields => match assoc "units" fields with Some (JStr s) => s | _ => "?" end | _ => "?" end in
  let here := mount (fun _ => None) write None true in
  let there := mount (fun _ => None) write None true in
  let here := setPreference write "units" (JStr "aviation") here in
  let there := {| pv_stored := pv_stored here; pv_writable := true; pv_preferences := pv_preferences there |} in
  pv_stored here = Some "aviation" /\ pv_stored (setPreference write "mapLegend" (JBool false) there) = Some "metric".
Proof. vm_compute. auto. Qed.
End Examples.
