(* ===== verification/LogsPage.v ===== *)
(** * LogsPage: reading the session log

    [routes/logs.tsx] (what was narrowed to, in the address) and
    [features/logs/logs-view.tsx] (the filter, the frozen and the followed view,
    the counters, the exports), over the store of [LogStore].  The schema library
    and the router are those of [FlightsPage.TracksSearch]. *)
From Stdlib Require Import ZArith Bool String Ascii List Lia Permutation.
From stdpp Require Import base option list strings pretty.
From S2P Require Import Prelude JsNumber JsDate JsString ApiTypes UrlCodec LogStore FlightsPage.

(** ** The address *)
Module LogsSearch.
Import TracksSearch.

Record LogsSearch := { ls_level : option LogLevel; ls_source : option string; ls_q : option string }.

Definition logsSearchSchema : list (string * FieldSchema) :=
  [("level", z_enum ["debug"; "info"; "warn"; "error"]); ("source", z_string); ("q", z_string)].

(** A [Set] of sources, in the order they were added. *)
Definition Sources : Type := list LogSource.
Definition has (s : LogSource) (l : Sources) : bool := existsb (fun x => bool_decide (x = s)) l.
Definition add (l : Sources) (s : LogSource) : Sources := if has s l then l else l ++ [s].
Definition delete (s : LogSource) (l : Sources) : Sources := List.filter (fun x => negb (bool_decide (x = s))) l.
Definition set_of (l : list LogSource) : Sources := fold_left add l [].

Definition parseLogSources (value : option string) : Sources :=
  match value with
  | None => set_of LOG_SOURCES
  | Some value =>
      let known := omap (fun name => named LogSource_string LOG_SOURCES (trim name)) (split_on comma value) in
      match known with [] => set_of LOG_SOURCES | _ => set_of known end
  end.
Definition formatLogSources (sources : Sources) : option string :=
  if Nat.eqb (List.length sources) (List.length LOG_SOURCES) then None
  else Some (join "," (map LogSource_string (List.filter (fun s => has s sources) LOG_SOURCES))).

Section Search.
Context {Zd : Zod} {R : Router}.

Definition field (raw : list (string * json)) (key : string) : option string :=
  match assoc key logsSearchSchema with Some f => safe_field f (assoc key raw) | None => None end.
Definition validateSearch (raw : list (string * json)) : LogsSearch :=
  {| ls_level := field raw "level" ≫= named LogLevel_string LOG_LEVELS; ls_source := field raw "source"; ls_q := field raw "q" |}.
Definition search_params (s : LogsSearch) : list (string * string) :=
  defined_only [("level", LogLevel_string <$> ls_level s); ("source", ls_source s); ("q", ls_q s)].
Definition useSearch (url : string) : LogsSearch := validateSearch (parseSearch url).
Definition address (s : LogsSearch) : string := stringifySearch (search_params s).

(** *** Reading back *)
Context {HZ : ZodLaws Zd} {HR : RouterLaws R}.

Lemma logs_keys (level source q : option string) : List.NoDup (map fst [("level", level); ("source", source); ("q", q)]).
Proof. repeat constructor; simpl; intuition discriminate. Qed.

Lemma logs_field s key f :
  assoc key logsSearchSchema = Some f ->
  field (parseSearch (address s)) key =
  match assoc key (search_params s) with Some v => if takes f v then Some v else None | None => None end.
Proof.
  intros Hf. unfold field, address. rewrite Hf, search_reads_back by apply params_NoDup, logs_keys.
  destruct (assoc key (search_params s)) as [v|]; simpl; [|by apply zod_catches].
  destruct (takes f v) eqn:E; [by apply zod_takes|by apply zod_refuses].
Qed.

Lemma logs_address_reads_back s : useSearch (address s) = s.
Proof.
  unfold useSearch, validateSearch.
  rewrite (logs_field s "level" (z_enum ["debug"; "info"; "warn"; "error"])), (logs_field s "source" z_string),
    (logs_field s "q" z_string) by done.
  unfold search_params. rewrite !assoc_params by apply logs_keys. destruct s as [level source q]. cbn.
  destruct level as [[| | |]|], source, q; done.
Qed.
End Search.

(** *** Sets of sources *)

Lemma has_In s l : has s l = true <-> In s l.
Proof.
  unfold has. rewrite existsb_exists. split; [by intros (x & Hx & ->%bool_decide_eq_true)|].
  intros H. exists s. split; [done|]. by apply bool_decide_eq_true.
Qed.

Lemma set_of_spec l : List.NoDup (set_of l) /\ forall s, has s (set_of l) = has s l.
Proof.
  unfold set_of. assert (forall acc, List.NoDup acc -> List.NoDup (fold_left add l acc) /\
    forall s, has s (fold_left add l acc) = has s acc || has s l) as H.
  { induction l as [|x l IH]; intros acc Hn; cbn [fold_left].
    - split; [done|]. intros s. by rewrite orb_false_r.
    - unfold add at 2 4. destruct (has x acc) eqn:E.
      + destruct (IH acc Hn) as [H1 H2]. split; [done|]. intros s. rewrite H2. cbn. case_bool_decide; [subst; by rewrite E|done].
      + destruct (IH (acc ++ [x])) as [H1 H2].
        { apply NoDup_app_disj; [done|repeat constructor; auto|]. intros y Hy [<-|[]]. apply has_In in Hy. congruence. }
        split; [done|]. intros s. rewrite H2. unfold has at 1. rewrite existsb_app. cbn. unfold has. by rewrite orb_false_r, orb_assoc. }
  destruct (H [] ltac:(constructor)) as [H1 H2]. split; [done|]. intros s. by rewrite H2.
Qed.

(** The members of a set, in the order of the chips. *)
Definition members (l : Sources) : list LogSource := List.filter (fun s => has s l) LOG_SOURCES.

Lemma all_sources s : In s LOG_SOURCES.
Proof. destruct s; simpl; tauto. Qed.

Lemma members_perm l : List.NoDup l -> Permutation (members l) l.
Proof.
  intros Hn. apply Permutation.NoDup_Permutation.
  - apply List.NoDup_filter. repeat constructor; simpl; intuition discriminate.
  - done.
  - intros s. unfold members. rewrite filter_In, has_In. split; [tauto|]. split; [apply all_sources|done].
Qed.

Lemma named_sources l : omap (fun name => named LogSource_string LOG_SOURCES (trim name)) (map LogSource_string l) = l.
Proof. induction l as [|x l IH]; [done|]. cbn [map omap list_omap]. rewrite IH. by destruct x. Qed.

Lemma filter_same_length {A} (q : A -> bool) l : List.length (List.filter q l) = List.length l -> List.filter q l = l.
Proof.
  induction l as [|x l IH]; cbn; [done|]. destruct (q x); cbn; [intros [= E]; by rewrite IH|].
  pose proof (List.filter_length_le q l). lia.
Qed.

(** A selection that is not empty reads back from its text. *)
Lemma sources_read_back l : List.NoDup l -> l <> [] -> forall s, has s (parseLogSources (formatLogSources l)) = has s l.
Proof.
  intros Hn Hl. pose proof (members_perm l Hn) as Hp. unfold formatLogSources. rewrite <- (Permutation_length Hp).
  fold (members l). assert (members l <> []) as Hm by (intros E; rewrite E in Hp; by apply Permutation_nil in Hp).
  assert (forall s, has s (members l) = has s l) as Hh.
  { intros s. destruct (has s l) eqn:E; [apply has_In, filter_In; split; [apply all_sources|done]|].
    apply not_true_iff_false. intros H%has_In. apply filter_In in H as [_ H]. congruence. }
  destruct (Nat.eqb (List.length (members l)) (List.length LOG_SOURCES)) eqn:E; intros s; rewrite <- Hh.
  - apply Nat.eqb_eq in E. unfold parseLogSources. rewrite (proj2 (set_of_spec LOG_SOURCES)).
    assert (members l = LOG_SOURCES) as ->; [|done]. by apply filter_same_length.
  - unfold parseLogSources. change "," with (String comma ""). rewrite split_on_join.
    + rewrite named_sources. by destruct (members l); [|rewrite (proj2 (set_of_spec _))].
    + by destruct (members l).
    + apply List.Forall_forall. intros x (y & <- & _)%in_map_iff. by destruct y.
Qed.
End LogsSearch.

(** ** The view *)
Module LogsView.
Import TracksSearch LogsSearch.

Definition RENDER_CAP : nat := 400.

(** The page: its address, the frozen list, the preference for following, how far
    the list is scrolled, and the store it reads. *)
Record Page := {
  lg_url : string;
  lg_frozen : option (list LogEntry);
  lg_follow : bool;
  lg_scrollTop : Z;
  lg_store : LogStore
}.

Section View.
Context {Zd : Zod} {R : Router} (stringify_detail : LogDetail -> string) (stringify_entry : LogEntry -> string).
(** The browser's layout: the height of what the box holds (the title of an empty
    log, or the notice and the rows), and of the box. *)
Context (contentHeight : option string -> option string -> list LogEntry -> Z) (clientHeight : N).

Definition minLevel (p : Page) : LogLevel := ls_level (useSearch (lg_url p)) ?? info.
Definition sources (p : Page) : Sources := parseLogSources (ls_source (useSearch (lg_url p))).
Definition search (p : Page) : string := ls_q (useSearch (lg_url p)) ?? "".

Definition entries (p : Page) : list LogEntry := lg_frozen p ?? LogStore.entries (lg_store p).

Definition haystack (e : LogEntry) : string :=
  toLowerCase (le_message e +:+ " " +:+ LogSource_string (le_source e) +:+ " " +:+ (le_trackId e ?? "") +:+ " " +:+
    (match le_detail e with Some d => stringify_detail d | None => "" end)).
Definition admits (level : LogLevel) (on : Sources) (q : string) (e : LogEntry) : bool :=
  let needle := toLowerCase (trim q) in
  if LEVEL_RANK (le_level e) <? LEVEL_RANK level then false
  else if negb (has (le_source e) on) then false
  else if needle === "" then true
  else includes needle (haystack e).
Definition filtered (p : Page) : list LogEntry := List.filter (admits (minLevel p) (sources p) (search p)) (entries p).
Definition visible (p : Page) : list LogEntry :=
  if (RENDER_CAP <? List.length (filtered p))%nat then array_last (Z.of_nat RENDER_CAP) (filtered p) else filtered p.
Definition cap_notice (p : Page) : option string :=
  if (List.length (visible p) <? List.length (filtered p))%nat
  then Some ("Showing the most recent " +:+ pretty (zlen (visible p)) +:+ " of " +:+ pretty (zlen (filtered p)) +:+
             " matching entries. Export includes all of them.")
  else None.
Definition counts (p : Page) (level : LogLevel) : Z := zlen (List.filter (fun e => bool_decide (le_level e = level)) (entries p)).
Definition empty_title (p : Page) : option string :=
  match visible p with
  | [] => Some (match entries p with [] => "Nothing logged yet" | _ => "No entries match the filter" end)
  | _ => None
  end.

(** The details a row lists. *)
Definition row_details (e : LogEntry) : LogDetail :=
  List.filter (fun kv => match kv.2 with dv_undefined | dv_null => false | dv_string s => s !== "" | _ => true end)
    (le_detail e ?? []).

(** What a download is of. *)
Inductive ExportKind := ndjson | csv.
Definition exportEntries (kind : ExportKind) (p : Page) : string :=
  match kind with
  | ndjson => toNdjson stringify_entry (filtered p)
  | csv => toCsv stringify_detail (filtered p)
  end.

(** *** Changes *)
Definition set_url (s : LogsSearch) (p : Page) : Page :=
  {| lg_url := address s; lg_frozen := lg_frozen p; lg_follow := lg_follow p; lg_scrollTop := lg_scrollTop p; lg_store := lg_store p |}.
Definition set_frozen (f : option (list LogEntry)) (p : Page) : Page :=
  {| lg_url := lg_url p; lg_frozen := f; lg_follow := lg_follow p; lg_scrollTop := lg_scrollTop p; lg_store := lg_store p |}.
Definition set_follow (b : bool) (p : Page) : Page :=
  {| lg_url := lg_url p; lg_frozen := lg_frozen p; lg_follow := b; lg_scrollTop := lg_scrollTop p; lg_store := lg_store p |}.
Definition set_top (y : Z) (p : Page) : Page :=
  {| lg_url := lg_url p; lg_frozen := lg_frozen p; lg_follow := lg_follow p; lg_scrollTop := y; lg_store := lg_store p |}.
Definition set_store (s : LogStore) (p : Page) : Page :=
  {| lg_url := lg_url p; lg_frozen := lg_frozen p; lg_follow := lg_follow p; lg_scrollTop := lg_scrollTop p; lg_store := s |}.

(** [node.scrollHeight], and where a scroll to [y] comes to rest. *)
Definition scrollHeight (p : Page) : Z := contentHeight (empty_title p) (cap_notice p) (visible p).
Definition scroll_to (y : Z) (shown p : Page) : Page :=
  set_top (Z.max 0 (Z.min y (scrollHeight shown - Z.of_N clientHeight))) p.
Definition atBottom (p : Page) : bool := scrollHeight p - lg_scrollTop p - Z.of_N clientHeight <? 24.

Definition onMinLevelChange (level : LogLevel) (p : Page) : Page :=
  let s := useSearch (lg_url p) in
  set_url {| ls_level := if bool_decide (level = info) then None else Some level; ls_source := ls_source s; ls_q := ls_q s |} p.
Definition onSourcesChange (next : Sources) (p : Page) : Page :=
  let s := useSearch (lg_url p) in
  set_url {| ls_level := ls_level s; ls_source := formatLogSources next; ls_q := ls_q s |} p.
Definition onSearchChange (q : string) (p : Page) : Page :=
  let s := useSearch (lg_url p) in
  set_url {| ls_level := ls_level s; ls_source := ls_source s; ls_q := if q === "" then None else Some q |} p.

Definition toggled (source : LogSource) (on : Sources) : Sources :=
  let next := if has source on then delete source on else add on source in
  match next with [] => set_of LOG_SOURCES | _ => next end.

Inductive Event :=
| level_chosen (level : LogLevel)
| source_clicked (source : LogSource)
| sources_reset
| typed (q : string)
| freeze_clicked
| follow_clicked
| clear_clicked
| scrolled (y : Z)
| follow_set (b : bool)
| limit_set (n : Z)
| logged (o : Op).

Definition control (p : Page) (e : Event) : Page :=
  match e with
  | level_chosen level => onMinLevelChange level p
  | source_clicked source => onSourcesChange (toggled source (sources p)) p
  | sources_reset => onSourcesChange (set_of LOG_SOURCES) p
  | typed q => onSearchChange q p
  | freeze_clicked => set_frozen (match lg_frozen p with Some _ => None | None => Some (LogStore.entries (lg_store p)) end) p
  | follow_clicked => scroll_to (scrollHeight p) p (set_follow true (set_frozen None p))
  | clear_clicked => set_frozen None (set_store (clear (lg_store p)) p)
  | scrolled y =>
      let p := scroll_to y p p in
      match lg_frozen p with
      | Some _ => p
      | None => if Bool.eqb (atBottom p) (lg_follow p) then p else set_follow (atBottom p) p
      end
  | follow_set b => set_follow b p
  | limit_set n => set_store (setLimit n (lg_store p)) p
  | logged o => set_store (LogStore.step o (lg_store p)) p
  end.

Definition tailId (p : Page) : option Z := le_id <$> last (visible p).
Definition is_frozen (p : Page) : bool := match lg_frozen p with Some _ => true | None => false end.

(** What was drawn is drawn anew: the browser keeps [scrollTop], within what there
    is to scroll; then the effect runs if the tail, the preference or the freeze
    has changed. *)
Definition after_render (old new : Page) : Page :=
  let new := scroll_to (lg_scrollTop new) new new in
  if bool_decide (tailId old = tailId new) && Bool.eqb (lg_follow old) (lg_follow new) &&
     Bool.eqb (is_frozen old) (is_frozen new)
  then new
  else if lg_follow new && negb (is_frozen new) then scroll_to (scrollHeight new) new new
  else new.

Definition step (p : Page) (e : Event) : Page := after_render p (control p e).
Definition run (p : Page) (es : list Event) : Page := fold_left step es p.
(** The page's first render: nothing frozen, and the list at its end if followed. *)
Definition opened (url : string) (follow : bool) (store : LogStore) : Page :=
  let p := {| lg_url := url; lg_frozen := None; lg_follow := follow; lg_scrollTop := 0; lg_store := store |} in
  if follow then scroll_to (scrollHeight p) p p else p.

(** *** What was asked for *)

(** The narrowing and the freeze as the operator means them, with the store. *)
Record Asked := {
  ak_level : LogLevel;
  ak_on : LogSource -> bool;
  ak_q : string;
  ak_frozen : option (list LogEntry);
  ak_store : LogStore
}.

Definition flip (s : LogSource) (on : LogSource -> bool) : LogSource -> bool :=
  let next s' := if bool_decide (s' = s) then negb (on s) else on s' in
  if existsb next LOG_SOURCES then next else fun _ => true.

Definition ask (a : Asked) (e : Event) : Asked :=
  let level := match e with level_chosen l => l | _ => ak_level a end in
  let on := match e with source_clicked s => flip s (ak_on a) | sources_reset => fun _ => true | _ => ak_on a end in
  let q := match e with typed q => q | _ => ak_q a end in
  let frozen := match e with
                | freeze_clicked => match ak_frozen a with Some _ => None | None => Some (LogStore.entries (ak_store a)) end
                | follow_clicked | clear_clicked => None
                | _ => ak_frozen a
                end in
  let store := match e with
               | clear_clicked => clear (ak_store a)
               | limit_set n => setLimit n (ak_store a)
               | logged o => LogStore.step o (ak_store a)
               | _ => ak_store a
               end in
  {| ak_level := level; ak_on := on; ak_q := q; ak_frozen := frozen; ak_store := store |}.
Definition asked_at (p : Page) : Asked :=
  {| ak_level := minLevel p; ak_on := fun s => has s (sources p); ak_q := search p; ak_frozen := lg_frozen p; ak_store := lg_store p |}.

Record agrees (p : Page) (a : Asked) : Prop := {
  ag_level : minLevel p = ak_level a;
  ag_on : forall s, has s (sources p) = ak_on a s;
  ag_q : search p = ak_q a;
  ag_frozen : lg_frozen p = ak_frozen a;
  ag_store : lg_store p = ak_store a
}.

(** Whether a line is asked for. *)
Definition wanted (a : Asked) (e : LogEntry) : bool :=
  (LEVEL_RANK (ak_level a) <=? LEVEL_RANK (le_level e)) && ak_on a (le_source e) &&
  includes (toLowerCase (trim (ak_q a))) (haystack e).

Context {HZ : ZodLaws Zd} {HR : RouterLaws R}.

Lemma parse_sources_ok value : List.NoDup (parseLogSources value) /\ parseLogSources value <> [].
Proof.
  assert (forall l, l <> [] -> List.NoDup (set_of l) /\ set_of l <> []) as H.
  { intros l Hl. destruct (set_of_spec l) as [H1 H2]. split; [done|]. intros E. destruct l as [|x l]; [done|].
    specialize (H2 x). rewrite E in H2. cbn in H2. by rewrite bool_decide_true in H2. }
  unfold parseLogSources. destruct value as [value|]; [|by apply H]. destruct (omap _ _) eqn:E; by apply H.
Qed.

Lemma toggled_ok s on : List.NoDup on -> List.NoDup (toggled s on) /\ toggled s on <> [] /\
  forall s', has s' (toggled s on) = flip s (fun x => has x on) s'.
Proof.
  intros Hn. unfold toggled. set (next := if has s on then delete s on else add on s).
  assert (List.NoDup next /\ forall s', has s' next = if bool_decide (s' = s) then negb (has s on) else has s' on) as [Hnn Hnext].
  { unfold next. destruct (has s on) eqn:E.
    - split; [by apply List.NoDup_filter|]. intros s'. apply eq_true_iff_eq. rewrite has_In. unfold delete. rewrite filter_In.
      rewrite negb_true_iff, bool_decide_eq_false. case_bool_decide; [split; [tauto|done]|]. rewrite has_In. tauto.
    - unfold add. rewrite E. split.
      + apply NoDup_app_disj; [done|repeat constructor; auto|]. intros y Hy [<-|[]]. apply has_In in Hy. congruence.
      + intros s'. unfold has at 1. rewrite existsb_app. cbn. rewrite orb_false_r. case_bool_decide as Hd.
        * subst s'. rewrite bool_decide_true by done. by rewrite orb_true_r.
        * rewrite bool_decide_false by congruence. by rewrite orb_false_r. }
  assert (existsb (fun s' => if bool_decide (s' = s) then negb (has s on) else has s' on) LOG_SOURCES =
          match next with [] => false | _ => true end) as Hex.
  { apply eq_true_iff_eq. rewrite existsb_exists. split.
    - intros (x & _ & Hx). rewrite <- Hnext in Hx. by destruct next.
    - destruct next as [|x l] eqn:En; [done|]. intros _. exists x. split; [apply all_sources|]. rewrite <- Hnext. cbn.
      by rewrite bool_decide_true. }
  unfold flip. rewrite Hex. destruct (set_of_spec LOG_SOURCES) as [A1 A2]. destruct next as [|x l] eqn:En.
  - split; [exact A1|]. split; [done|]. intros s'. rewrite A2. apply has_In, all_sources.
  - split; [done|]. split; [done|]. exact Hnext.
Qed.

Lemma after_render_top old new : exists y, after_render old new = set_top y new.
Proof.
  unfold after_render, scroll_to. destruct (_ && _); [eauto|]. destruct (_ && _); [|eauto]. destruct new. eauto.
Qed.

Lemma flip_ext x f g : (forall s, f s = g s) -> forall s, flip x f s = flip x g s.
Proof. intros H s. unfold flip. assert (existsb (fun s' => if bool_decide (s' = x) then negb (f x) else f s') LOG_SOURCES =
    existsb (fun s' => if bool_decide (s' = x) then negb (g x) else g s') LOG_SOURCES) as ->.
  { cbn [existsb LOG_SOURCES]. by rewrite !H. }
  case_match; [|done]. case_bool_decide; by rewrite H. Qed.

(** One event: the page comes to show what is then asked for. *)
Lemma step_agrees p a e : agrees p a -> agrees (step p e) (ask a e).
Proof.
  intros [H1 H2 H3 H4 H5]. assert (agrees (control p e) (ask a e)) as Hc.
  { assert (forall next, List.NoDup next -> next <> [] -> forall s,
      has s (sources (onSourcesChange next p)) = has s next) as Hs.
    { intros next Hn Hl s. unfold sources, onSourcesChange, set_url. cbn [lg_url]. rewrite logs_address_reads_back. cbn [ls_source].
      by apply sources_read_back. }
    assert (forall next, minLevel (onSourcesChange next p) = minLevel p /\ search (onSourcesChange next p) = search p) as Hk.
    { intros next. unfold minLevel, search, onSourcesChange, set_url. cbn [lg_url]. by rewrite logs_address_reads_back. }
    destruct e as [level|s| |q| | | |b|b|n|o]; cbn [control].
    - split; cbn [ask ak_level ak_on ak_q ak_frozen ak_store]; [| |unfold search, onMinLevelChange, set_url|done..]; unfold minLevel, sources, onMinLevelChange, set_url; cbn [lg_url];
        rewrite ?logs_address_reads_back; cbn; [by case_bool_decide|done|done].
    - destruct (Hk (toggled s (sources p))) as [K1 K2].
      destruct (toggled_ok s (sources p) (proj1 (parse_sources_ok _))) as (T1 & T2 & T3).
      split; cbn [ask ak_level ak_on ak_q ak_frozen ak_store]; [by rewrite K1|intros s'|by rewrite K2|done..].
      rewrite Hs, T3 by done. by apply flip_ext.
    - destruct (Hk (set_of LOG_SOURCES)) as [K1 K2].
      split; cbn [ask ak_level ak_on ak_q ak_frozen ak_store]; [by rewrite K1|intros s'|by rewrite K2|done..].
      rewrite Hs; [apply has_In, all_sources|apply set_of_spec|done].
    - split; cbn [ask ak_level ak_on ak_q ak_frozen ak_store]; [| |unfold search, onSearchChange, set_url|done..]; unfold minLevel, sources, onSearchChange, set_url; cbn [lg_url];
        rewrite ?logs_address_reads_back; cbn; [done|done|].
      destruct (String.eqb_spec q ""); [by subst|done].
    - split; cbn; [done..|by rewrite <- H4, <- H5|done].
    - split; done.
    - split; cbn; [done..|by rewrite H5].
    - cbn. destruct (lg_frozen p) eqn:Ef; [|destruct (Bool.eqb _ _)]; split; cbn; congruence || done.
    - split; done.
    - split; cbn; [done..|by rewrite H5].
    - split; cbn; [done..|by rewrite H5]. }
  unfold step. destruct (after_render_top p (control p e)) as [y ->]. destruct Hc. by split.
Qed.

Lemma run_agrees es : forall p a, agrees p a -> agrees (run p es) (fold_left ask es a).
Proof. induction es as [|e es IH]; intros p a H; [done|]. apply IH, step_agrees, H. Qed.

Lemma admits_wanted p a e : agrees p a -> admits (minLevel p) (sources p) (search p) e = wanted a e.
Proof.
  intros [H1 H2 H3 _ _]. unfold admits, wanted. rewrite H1, H2, H3. rewrite Z.ltb_antisym.
  destruct (_ <=? _); [|done]. destruct (ak_on a _); [|done]. cbn.
  destruct (String.eqb_spec (toLowerCase (trim (ak_q a))) "") as [->|_]; [|done]. by destruct (haystack e).
Qed.

Lemma visible_suffix p : visible p = drop (List.length (filtered p) - RENDER_CAP)%nat (filtered p).
Proof.
  unfold visible. destruct (Nat.ltb_spec RENDER_CAP (List.length (filtered p))) as [H|H].
  - rewrite array_last_drop by (unfold zlen, RENDER_CAP in *; lia). f_equal. unfold zlen. lia.
  - by replace (List.length (filtered p) - RENDER_CAP)%nat with 0%nat by lia.
Qed.

(** While the tail is followed and nothing is frozen, the list is at its end. *)
Definition follows (p : Page) : Prop := lg_follow p = true -> lg_frozen p = None -> atBottom p = true.

Lemma shown_top y p : scrollHeight (set_top y p) = scrollHeight p /\ tailId (set_top y p) = tailId p.
Proof. done. Qed.

Lemma at_end y p : scrollHeight p <= y -> atBottom (scroll_to y p p) = true.
Proof.
  intros Hy. unfold atBottom, scroll_to. destruct (shown_top (Z.max 0 (Z.min y (scrollHeight p - Z.of_N clientHeight))) p) as [-> _].
  cbn [lg_scrollTop set_top]. apply Z.ltb_lt. lia.
Qed.

(** A list that is not taller than before and keeps its scroll stays at its end. *)
Lemma clamp_end p q :
  scrollHeight q <= scrollHeight p -> lg_scrollTop q = lg_scrollTop p -> atBottom p = true ->
  atBottom (scroll_to (lg_scrollTop q) q q) = true.
Proof.
  unfold atBottom, scroll_to. destruct (shown_top (Z.max 0 (Z.min (lg_scrollTop q) (scrollHeight q - Z.of_N clientHeight))) q) as [-> _].
  cbn [lg_scrollTop set_top]. rewrite !Z.ltb_lt. lia.
Qed.

Lemma after_render_follows old new :
  (tailId new = tailId old -> lg_follow new = lg_follow old -> is_frozen new = is_frozen old ->
   lg_follow new = true -> lg_frozen new = None -> atBottom (scroll_to (lg_scrollTop new) new new) = true) ->
  follows (after_render old new).
Proof.
  intros H Hf Hz. destruct (after_render_top old new) as [y E]. rewrite E in Hf, Hz. cbn in Hf, Hz. clear y E.
  unfold after_render. set (new' := scroll_to (lg_scrollTop new) new new).
  change (lg_follow new') with (lg_follow new). change (is_frozen new') with (is_frozen new).
  assert (is_frozen new = false) as Hi by (unfold is_frozen; by rewrite Hz). rewrite Hf, Hi.
  change (tailId new') with (tailId new) in *.
  destruct (bool_decide (tailId old = tailId new) && _ && _) eqn:E; cbn [andb negb].
  - apply andb_prop in E as [[E1%bool_decide_eq_true E2%eqb_prop]%andb_prop E3%eqb_prop]. apply H; congruence.
  - apply at_end. reflexivity.
Qed.

Lemma scrolled_follows p y : follows (step p (scrolled y)).
Proof.
  unfold step. set (p1 := scroll_to y p p).
  assert (atBottom (scroll_to (lg_scrollTop p1) p1 p1) = atBottom p1) as Hp1.
  { unfold p1, scroll_to, atBottom. cbn [lg_scrollTop set_top].
    change (scrollHeight (set_top _ _)) with (scrollHeight p). f_equal. lia. }
  apply after_render_follows. cbn [control]. cbv zeta. fold p1. change (lg_frozen p1) with (lg_frozen p).
  change (lg_follow p1) with (lg_follow p).
  destruct (lg_frozen p) eqn:Ef; [intros _ _ _ _ Hz; change (lg_frozen p = None) in Hz; congruence|].
  destruct (Bool.eqb _ _) eqn:Eb.
  - intros _ _ _ Hf _. apply eqb_prop in Eb. rewrite Hp1, Eb. exact Hf.
  - intros _ Hf _ _ _. exfalso. apply eqb_false_iff in Eb. by apply Eb.
Qed.

(** An event with a new last line brings the list to its end; any other keeps it
    there unless what is drawn above the last line has grown. *)
Lemma step_follows p e :
  tailId (step p e) <> tailId p \/ (follows p /\ scrollHeight (step p e) <= scrollHeight p) -> follows (step p e).
Proof.
  intros H. destruct (match e with scrolled _ | follow_clicked => true | _ => false end) eqn:He.
  { destruct e; try done; [|apply scrolled_follows]. apply after_render_follows. intros _ Hf Hz _ _.
    change (lg_scrollTop (control p follow_clicked)) with (Z.max 0 (Z.min (scrollHeight p) (scrollHeight p - Z.of_N clientHeight))).
    assert (scrollHeight (control p follow_clicked) = scrollHeight p) as Hsh.
    { cbn in Hz. unfold is_frozen in Hz. cbn in Hz. destruct p as [u [f|] fo y st]; done. }
    unfold atBottom, scroll_to. change (scrollHeight (set_top _ ?x)) with (scrollHeight x).
    cbn [lg_scrollTop set_top]. rewrite Hsh. apply Z.ltb_lt. lia. }
  unfold step in *. destruct (after_render_top p (control p e)) as [y E]. rewrite E in H. cbn in H.
  change (tailId (set_top y (control p e))) with (tailId (control p e)) in H.
  change (scrollHeight (set_top y (control p e))) with (scrollHeight (control p e)) in H.
  apply after_render_follows. intros H1 H2 H3 Hf Hz. destruct H as [H|[H Hs]]; [done|].
  apply (clamp_end p); [exact Hs|by destruct e; try discriminate He; cbn; destruct (lg_frozen p)|].
  apply H; [congruence|]. unfold is_frozen in H3. rewrite Hz in H3. by destruct (lg_frozen p).
Qed.

(** C10. The log shows what was asked for: whatever is clicked and typed, and however
    the page's address carries it, the severity, sources and text in force are those
    last asked for and the lines matched are exactly the lines of the store (or of the
    frozen list) that meet all three, in their order; at most the last four hundred of
    them are drawn; some source is always on; and while the tail is followed and the
    view not frozen, the page opens at the end of its list, an event that gives it a
    new last line leaves it at its end, and so does any other that does not make what
    is drawn above that line taller.  (One that does leaves it short of the end,
    [Examples.a_wider_filter_leaves_the_end].) *)
Theorem log_shows_what_was_asked (url : string) (follow : bool) (store : LogStore) (es : list Event) :
  let p := run (opened url follow store) es in
  let a := fold_left ask es (asked_at (opened url follow store)) in
  agrees p a /\
  filtered p = List.filter (wanted a) (ak_frozen a ?? LogStore.entries (ak_store a)) /\
  visible p = drop (List.length (filtered p) - 400)%nat (filtered p) /\
  (exists s, ak_on a s = true) /\
  follows (opened url follow store) /\
  forall e, tailId (step p e) <> tailId p \/ (follows p /\ scrollHeight (step p e) <= scrollHeight p) ->
    follows (step p e).
Proof.
  cbv zeta. assert (agrees (run (opened url follow store) es) (fold_left ask es (asked_at (opened url follow store)))) as H.
  { by apply run_agrees. }
  split; [exact H|]. split; [|split; [apply visible_suffix|split; [|split]]].
  - unfold filtered, entries. rewrite (ag_frozen _ _ H), (ag_store _ _ H). apply filter_ext. intros e. by apply admits_wanted.
  - pose proof (proj2 (parse_sources_ok (ls_source (useSearch (lg_url (run (opened url follow store) es)))))) as Hn.
    fold (sources (run (opened url follow store) es)) in Hn. pose proof (ag_on _ _ H) as Hon.
    destruct (sources (run (opened url follow store) es)) as [|s l]; [done|]. exists s. rewrite <- Hon. cbn. by rewrite bool_decide_true.
  - unfold opened. destruct follow; [|done]. intros _ _. by apply at_end.
  - intros e. apply step_follows.
Qed.
End View.
End LogsView.

Module Examples.
Import TracksSearch LogsSearch LogsView.

#[local] Instance checker : Zod := {| safe_field := fun f v =>
  match v with Some (JStr s) => if takes f s then Some s else None | _ => None end |}.
#[local] Instance checker_laws : ZodLaws checker.
Proof.
  split; cbn; [by intros f s ->|by intros f s ->|]. intros f [[]|] H; try done. by destruct (H s).
Qed.

#[local] Instance form_router : Router := {|
  stringifySearch := params_toString;
  parseSearch := fun s => match form_parse s with Some l => map (fun kv => (kv.1, JStr kv.2)) l | None => [] end |}.
#[local] Instance form_router_laws : RouterLaws form_router.
Proof.
  split. intros l key _. cbn [parseSearch stringifySearch form_router]. rewrite form_parse_toString. induction l as [|[k v] l IH]; [done|]. cbn.
  by destruct (String.eqb k key).
Qed.

Definition no_detail (d : LogDetail) : string := "{}".
Definition id_only (e : LogEntry) : string := pretty (le_id e).
Definition line (id : Z) (level : LogLevel) (source : LogSource) (message : string) : LogEntry :=
  {| le_id := id; le_at := "2026-09-15T03:00:00.000Z"; le_level := level; le_source := source; le_message := message;
     le_detail := None; le_trackId := None |}.

(** Rows of thirty pixels, in a box for three of them. *)
Definition rows (title notice : option string) (l : list LogEntry) : Z := 30 * zlen l.

(** Everything off but one source, then that one too, which turns all back on. *)
Definition only_stream : list Event := map source_clicked [src_track; src_detection; src_sensor; src_capture; src_spectrum; src_deploy; src_api; src_ui].

Definition quiet_and_loud : LogStore :=
  LogStore.run [op_append 0 (log.info src_ui "opened" None); op_append 0 (log.warn src_stream "Drop in 3" None); op_timer] new_store.

Example narrowed_address :
  lg_url (run no_detail rows 90 (opened no_detail rows 90 "level=loud&source=radar" true new_store) (only_stream ++ [level_chosen warn; typed "Drop "])) =
  "level=warn&source=stream&q=Drop+".
Proof. vm_compute. reflexivity. Qed.

Lemma log_shows_what_was_asked_witness :
  map le_message (filtered no_detail (run no_detail rows 90 (opened no_detail rows 90 "level=loud&source=radar" true quiet_and_loud)
    [source_clicked src_ui; level_chosen warn; typed "DROP "])) = ["Drop in 3"].
Proof.
  destruct (log_shows_what_was_asked no_detail rows 90 "level=loud&source=radar" true quiet_and_loud
    [source_clicked src_ui; level_chosen warn; typed "DROP "]) as (_ & -> & _).
  vm_compute. reflexivity.
Defined.

(** With the eight others off, turning off the ninth
    turns all of them on. *)
Example last_source_restores :
  map (fun s => has s (sources (run no_detail rows 90 (opened no_detail rows 90 "" true new_store) (only_stream ++ [source_clicked src_stream])))) LOG_SOURCES =
  map (fun _ => true) LOG_SOURCES.
Proof. vm_compute. reflexivity. Qed.

Definition many_then_loud : LogStore :=
  LogStore.run ([op_append 0 (log.info src_ui "one" None); op_append 1 (log.info src_ui "two" None);
    op_append 2 (log.info src_ui "three" None); op_append 3 (log.warn src_stream "Drop in 3" None); op_timer]) new_store.

(** Asking for more lines above the same last one leaves a followed log where it
    was, with its end out of sight and "Following" still lit. *)
Example a_wider_filter_leaves_the_end :
  let p := run no_detail rows 90 (opened no_detail rows 90 "level=warn" true many_then_loud) [level_chosen info] in
  map le_message (visible no_detail p) = ["one"; "two"; "three"; "Drop in 3"] /\
  lg_follow p = true /\ lg_frozen p = None /\ atBottom no_detail rows 90 p = false.
Proof. vm_compute. auto. Qed.

(** An export is of the lines that match, and of the frozen list when there is one,
    not of the full buffer. *)
Lemma export_is_what_matches :
  exportEntries no_detail id_only csv (run no_detail rows 90 (opened no_detail rows 90 "" true quiet_and_loud) [level_chosen warn]) =
    toCsv no_detail (List.filter (fun e => bool_decide (le_level e = warn)) (LogStore.entries quiet_and_loud)) /\
  exportEntries no_detail id_only ndjson
    (run no_detail rows 90 (opened no_detail rows 90 "" true quiet_and_loud) [freeze_clicked; logged (op_append 5 (log.error src_api "failed" None)); logged op_timer]) =
    toNdjson id_only (LogStore.entries quiet_and_loud).
Proof. vm_compute. auto. Qed.
End Examples.
