(* ===== verification/ConsoleSearch.v ===== *)
(** * ConsoleSearch: the search box, the palette and the rail

    [components/layout/global-search.tsx] (the box of the top bar, over the
    resolver of [Search]), [command-palette.tsx] and [nav-items.ts]: what each
    lists, what its keys and pointer do, and where a choice leads. *)
From Stdlib Require Import ZArith Bool String Ascii List Lia Sorted FinFun.
From stdpp Require Import base option list strings pretty.
From S2P Require Import Prelude JsNumber JsDate JsString ApiTypes UrlCodec Format LogStore LiveFrames Search Flights FlightTime FlightFilters FlightsPage Preferences.

(** ** The box of the top bar *)
Module Box.
Import TracksSearch.

Definition DEBOUNCE_MS : Z := 150.

(** Where a choice navigates to. *)
Inductive Destination :=
| at_flight (trackId : string)
| at_flights (search : TracksSearch.TracksSearch)
| at_sensor (sensorId : string).

Inductive Key := key_escape | key_down | key_up | key_enter | key_other.
#[export] Instance Key_eq_dec : EqDecision Key.
Proof. solve_decision. Defined.

(** The box: the pending debounce is the text its timer's closure will set; pending
    blur timers are counted; [bx_went] is every navigation made. *)
Record Box := {
  bx_query : string;
  bx_needle : string;
  bx_open : bool;
  bx_active : Z;
  bx_debounce : option string;
  bx_blurs : nat;
  bx_index : SearchIndex;
  bx_went : list Destination
}.

(** The index, from the drawer's query, every cached list, labels and sensors. *)
Section Index.
Context {C : Type} `{QueryClient C}.

Definition seen_first (seen : list (string * Track)) (t : Track) : list (string * Track) :=
  if Map_has (tr_track_id t) seen then seen else Map_set (tr_track_id t) t seen.
Definition seen_tracks (c : C) (recent : option TracksResponse) : list Track :=
  let seen := fold_left (fun seen t => Map_set (tr_track_id t) t seen) ((trs_tracks <$> recent) ?? []) [] in
  map snd (fold_left (fun seen e =>
    match e.2 with Some (D_tracks data) => fold_left seen_first (trs_tracks data) seen | _ => seen end)
    (getQueriesData c LIST_PREFIX) seen).
Definition index_of (c : C) (recent : option TracksResponse) (labels : option (list AircraftLabel))
    (sensors : option (list SensorHealth)) : SearchIndex :=
  buildSearchIndex (seen_tracks c recent) (labels ?? []) (sensors ?? []).
End Index.

Section Box.
Context {L : Collation} {Zd : Zod}.

Definition hits (s : Box) : list SearchHit := resolveSearch (bx_needle s) (bx_index s) SEARCH_RESULT_LIMIT.
Definition showList (s : Box) : bool := bx_open s && negb (trim (bx_needle s) === "").
Definition hit_at (s : Box) (i : Z) : option SearchHit := if i <? 0 then None else hits s !! Z.to_nat i.

(** [aria-activedescendant], and the row drawn highlighted. *)
Definition highlighted (s : Box) : option SearchHit := if showList s then hit_at s (bx_active s) else None.
Definition nothing_matches (s : Box) : bool := showList s && match hits s with [] => true | _ => false end.

Definition destination (t : SearchTarget) : Destination :=
  match t with
  | to_track id => at_flight id
  | to_flights q => at_flights (validateSearch [("q", JStr q)])
  | to_sensor id => at_sensor id
  end.

(** [setQuery]: a new text restarts the debounce. *)
Definition setQuery (q : string) (s : Box) : Box :=
  {| bx_query := q; bx_needle := bx_needle s; bx_open := bx_open s; bx_active := bx_active s;
     bx_debounce := if q === bx_query s then bx_debounce s else Some q; bx_blurs := bx_blurs s; bx_index := bx_index s;
     bx_went := bx_went s |}.
Definition setNeedle (n : string) (s : Box) : Box :=
  {| bx_query := bx_query s; bx_needle := n; bx_open := bx_open s; bx_active := bx_active s; bx_debounce := bx_debounce s;
     bx_blurs := bx_blurs s; bx_index := bx_index s; bx_went := bx_went s |}.
Definition setOpen (b : bool) (s : Box) : Box :=
  {| bx_query := bx_query s; bx_needle := bx_needle s; bx_open := b; bx_active := bx_active s; bx_debounce := bx_debounce s;
     bx_blurs := bx_blurs s; bx_index := bx_index s; bx_went := bx_went s |}.
Definition setActive (i : Z) (s : Box) : Box :=
  {| bx_query := bx_query s; bx_needle := bx_needle s; bx_open := bx_open s; bx_active := i; bx_debounce := bx_debounce s;
     bx_blurs := bx_blurs s; bx_index := bx_index s; bx_went := bx_went s |}.
Definition set_timers (d : option string) (blurs : nat) (s : Box) : Box :=
  {| bx_query := bx_query s; bx_needle := bx_needle s; bx_open := bx_open s; bx_active := bx_active s; bx_debounce := d;
     bx_blurs := blurs; bx_index := bx_index s; bx_went := bx_went s |}.
Definition set_index (ix : SearchIndex) (s : Box) : Box :=
  {| bx_query := bx_query s; bx_needle := bx_needle s; bx_open := bx_open s; bx_active := bx_active s; bx_debounce := bx_debounce s;
     bx_blurs := bx_blurs s; bx_index := ix; bx_went := bx_went s |}.
Definition navigate (d : Destination) (s : Box) : Box :=
  {| bx_query := bx_query s; bx_needle := bx_needle s; bx_open := bx_open s; bx_active := bx_active s; bx_debounce := bx_debounce s;
     bx_blurs := bx_blurs s; bx_index := bx_index s; bx_went := bx_went s ++ [d] |}.

Definition go (target : SearchTarget) (s : Box) : Box :=
  navigate (destination target) (setNeedle "" (setQuery "" (setOpen false s))).

(** [hits[active] ?? hits[0]]. *)
Definition entered (s : Box) : option SearchHit :=
  match hit_at s (bx_active s) with Some hit => Some hit | None => head (hits s) end.

Definition onKeyDown (k : Key) (s : Box) : Box :=
  match k with
  | key_escape => if showList s then setOpen false s else if bx_query s === "" then s else setQuery "" s
  | _ =>
      if negb (showList s) || match hits s with [] => true | _ => false end then s
      else match k with
           | key_down => setActive ((bx_active s + 1) mod zlen (hits s)) s
           | key_up => setActive ((bx_active s - 1 + zlen (hits s)) mod zlen (hits s)) s
           | key_enter =>
               match entered s with Some hit => go (hit_target hit) s | None => s end
           | _ => s
           end
  end.

Inductive Event :=
| typed (q : string)
| focused
| blurred
| pressed_key (k : Key)
| hovered (row : Z)
| pressed (row : Z)
| debounce_fires
| blur_fires
| index_changes (ix : SearchIndex).

Definition step (s : Box) (e : Event) : Box :=
  match e with
  | typed q => setOpen true (setActive 0 (setQuery q s))
  | focused => setOpen true s
  | blurred => set_timers (bx_debounce s) (S (bx_blurs s)) s
  | pressed_key k => onKeyDown k s
  | hovered row => match (if showList s then hit_at s row else None) with Some _ => setActive row s | None => s end
  | pressed row => match (if showList s then hit_at s row else None) with Some hit => go (hit_target hit) s | None => s end
  | debounce_fires =>
      match bx_debounce s with Some q => set_timers None (bx_blurs s) (setNeedle q s) | None => s end
  | blur_fires => match bx_blurs s with S n => setOpen false (set_timers (bx_debounce s) n s) | O => s end
  | index_changes ix => set_index ix s
  end.
Definition run (s : Box) (es : list Event) : Box := fold_left step es s.

(** Mounted: empty, with the effect's first timer. *)
Definition mounted (ix : SearchIndex) : Box :=
  {| bx_query := ""; bx_needle := ""; bx_open := false; bx_active := 0; bx_debounce := Some ""; bx_blurs := 0;
     bx_index := ix; bx_went := [] |}.

(** *** Runs *)

(** A pending debounce will set the text of the box; none pending, the list is
    already that text's; the highlight is not before the first row. *)
Definition settles (s : Box) : Prop :=
  match bx_debounce s with Some q => q = bx_query s | None => bx_needle s = bx_query s end /\ 0 <= bx_active s.

Lemma setQuery_settles q s : settles s -> settles (setQuery q s).
Proof. unfold settles, setQuery. cbn. intros [H1 H2]. by destruct (String.eqb_spec q (bx_query s)) as [->|]. Qed.

Lemma go_settles t s : settles s -> settles (go t s).
Proof.
  intros [H Ha]. split; [|done]. cbn. destruct (bx_query s); [|done]. by destruct (bx_debounce s).
Qed.

Lemma turned_in_range s k : hits s <> [] -> 0 <= k mod zlen (hits s) < zlen (hits s).
Proof. intros H. apply Z.mod_pos_bound. destruct (hits s); [done|]. unfold zlen. cbn [List.length]. lia. Qed.

(** The keys the list takes, when it takes any. *)
Lemma onKeyDown_list k s : k <> key_escape ->
  onKeyDown k s = s /\ (showList s = true -> hits s = []) \/
  showList s = true /\ hits s <> [] /\
  onKeyDown k s =
    match k with
    | key_down => setActive ((bx_active s + 1) mod zlen (hits s)) s
    | key_up => setActive ((bx_active s - 1 + zlen (hits s)) mod zlen (hits s)) s
    | key_enter => match entered s with Some hit => go (hit_target hit) s | None => s end
    | _ => s
    end.
Proof.
  intros Hk. unfold onKeyDown. destruct (showList s); [|left; split; [by destruct k|done]].
  destruct (hits s) eqn:E; [left; split; [by destruct k|done]|]. right. split; [done|]. split; [done|]. by destruct k.
Qed.

Lemma box_step_settles s e : settles s -> settles (step s e).
Proof.
  intros H. destruct e as [q| | |k|row|row| | |ix]; cbn [step]; try exact H.
  - apply (setQuery_settles q) in H as [H _]. split; [exact H|done].
  - destruct (decide (k = key_escape)) as [->|Hk].
    + cbn. destruct (showList s); [exact H|]. destruct (String.eqb (bx_query s) ""); [exact H|]. by apply (setQuery_settles "").
    + destruct (onKeyDown_list k s Hk) as [[-> _]|(_ & Hh & ->)]; [exact H|]. destruct k; try exact H.
      * split; [apply H|]. by apply turned_in_range.
      * split; [apply H|]. by apply turned_in_range.
      * destruct (entered s); [by apply go_settles|exact H].
  - destruct (showList s); [|exact H]. destruct (hit_at s row) eqn:E; [|exact H]. split; [apply H|]. cbn.
    unfold hit_at in E. destruct (Z.ltb_spec row 0); [done|lia].
  - destruct (showList s); [|exact H]. destruct (hit_at s row); [by apply go_settles|exact H].
  - destruct (bx_debounce s) eqn:E; [|exact H]. destruct H as [H Ha]. rewrite E in H. by split.
  - destruct (bx_blurs s); exact H.
Qed.

Lemma box_run_settles es : forall s, settles s -> settles (run s es).
Proof. induction es as [|e es IH]; intros s H; [done|]. by apply IH, box_step_settles. Qed.

(** The list for a text: distinct rows, at most eight, the better before the worse,
    and no candidate is missing for a worse one; how closely each is matched is what
    its text and the query say, and a text that is the query comes first. *)
Record best_list (text : string) (ix : SearchIndex) (rows : list SearchHit) (rs : list Ranked) : Prop := {
  bl_rows : rows = map rk_hit rs;
  bl_distinct : List.NoDup (map hit_id rows);
  bl_limit : zlen rows <= 8;
  bl_order : StronglySorted better rs;
  bl_match : forall r, In r rs -> In r (candidates_of_query (trim text) ix) /\ row_matched (trim text) r;
  bl_missing : forall c, In c (candidates_of_query (trim text) ix) ->
    (exists r, In r rs /\ hit_id (rk_hit r) = hit_id (rk_hit c) /\ better r c) \/
    (zlen rows = 8 /\ forall r, In r rs -> better r c);
  bl_exact : forall c, In c (candidates_of_query (trim text) ix) -> rk_rank c = 0 ->
    exists first rest, rs = first :: rest /\ rk_rank first = 0
}.

(** The row an event opens. *)
Definition opens (s : Box) (e : Event) (hit : SearchHit) : Prop :=
  match e with
  | pressed_key key_enter => highlighted s = Some hit \/ highlighted s = None /\ head (hits s) = Some hit
  | pressed row => hit_at s row = Some hit
  | _ => False
  end.

Lemma hit_at_In s row hit : hit_at s row = Some hit -> In hit (hits s).
Proof. unfold hit_at. destruct (row <? 0); [done|]. intros H. apply list_elem_of_In. by eapply list_elem_of_lookup_2. Qed.

Lemma went_go t s : bx_went (go t s) = bx_went s ++ [destination t] /\ bx_query (go t s) = "" /\ showList (go t s) = false.
Proof. done. Qed.

Lemma step_went s e : bx_went (step s e) = bx_went s \/
  exists hit, showList s = true /\ In hit (hits s) /\ opens s e hit /\
    bx_went (step s e) = bx_went s ++ [destination (hit_target hit)] /\
    bx_query (step s e) = "" /\ showList (step s e) = false.
Proof.
  destruct e as [q| | |k|row|row| | |ix]; cbn [step]; try by left.
  - destruct (decide (k = key_escape)) as [->|Hk].
    { cbn. left. destruct (showList s); [done|]. by destruct (String.eqb _ _). }
    destruct (onKeyDown_list k s Hk) as [[-> _]|(Hs & Hh & ->)]; [by left|]. destruct k; try by left. unfold entered.
    destruct (hit_at s (bx_active s)) as [hit|] eqn:E.
    + right. exists hit. split_and!; [done|by eapply hit_at_In|left; unfold highlighted; by rewrite Hs|done..].
    + destruct (hits s) as [|hit rest] eqn:Eh; [done|]. right. exists hit.
      split_and!; [done|by left|right; unfold highlighted; by rewrite Hs, Eh|done..].
  - left. destruct (showList s); [|done]. by destruct (hit_at s row).
  - destruct (showList s) eqn:Hs; [|by left]. destruct (hit_at s row) as [hit|] eqn:E; [|by left].
    right. exists hit. split_and!; [done|by eapply hit_at_In|done..].
  - left. by destruct (bx_debounce s).
  - left. by destruct (bx_blurs s).
Qed.

Context {HL : CollationLaws L}.

Lemma sorted_better rs : StronglySorted (fun a b => ranked_le a b = true) rs -> StronglySorted better rs.
Proof.
  induction 1 as [|r rs Hs IH Hall]; constructor; [done|]. rewrite List.Forall_forall in *. intros x Hx.
  by apply ranked_le_better, Hall.
Qed.
(** The rank of a candidate is no less than nought. *)
Lemma rank_nonneg raw c : row_matched raw c -> 0 <= rk_rank c.
Proof. unfold row_matched, matched. destruct (hit_kind _); lia. Qed.

Lemma shown_best s : showList s = true -> exists rs, best_list (bx_needle s) (bx_index s) (hits s) rs.
Proof.
  unfold showList. intros [_ Ht]%andb_prop. apply negb_true_iff, String.eqb_neq in Ht.
  destruct (best_matches_shown (bx_needle s) (bx_index s) SEARCH_RESULT_LIMIT) as (rs & E & Hn & Hz & Hs & Hi & Hc).
  fold (hits s) in *. assert (zlen (hits s) <= 8) as Hz8 by (unfold SEARCH_RESULT_LIMIT in Hz; lia).
  assert (forall c, In c (candidates_of_query (trim (bx_needle s)) (bx_index s)) ->
    (exists r, In r rs /\ hit_id (rk_hit r) = hit_id (rk_hit c) /\ better r c) \/
    (zlen (hits s) = 8 /\ forall r, In r rs -> better r c)) as Hm.
  { intros c Hin. destruct (Hc Ht c Hin) as [(r & ? & ? & ?)|[Hl Hr]].
    - left. exists r. split_and!; [done..|by apply ranked_le_better].
    - right. unfold SEARCH_RESULT_LIMIT in Hl. split; [lia|]. intros r Hin'. by apply ranked_le_better, Hr. }
  exists rs. split; try done; [by apply sorted_better|intros r Hr; split; [by apply Hi|by eapply candidates_matched, Hi]|].
  intros c Hin H0. assert (forall r, In r rs -> 0 <= rk_rank r) as Hge by (intros r Hr; by eapply rank_nonneg, candidates_matched, Hi).
  assert (exists r, In r rs /\ rk_rank r <= 0) as (r & Hr & Hle).
  { destruct (Hm c Hin) as [(r & Hr & _ & Hb%better_rank)|[H8 Hr]]; [exists r; split; [done|lia]|].
    destruct rs as [|r rs']; [by rewrite E in H8|]. exists r. split; [by left|]. specialize (Hr r (or_introl eq_refl)).
    apply better_rank in Hr. lia. }
  destruct rs as [|first rest]; [done|]. exists first, rest. split; [done|]. pose proof (Hge first (or_introl eq_refl)).
  apply sorted_better, StronglySorted_inv in Hs as [_ Hall]. rewrite List.Forall_forall in Hall.
  destruct Hr as [->|Hr]; [lia|]. apply Hall, better_rank in Hr. lia.
Qed.

Lemma arrows_land s k : k = key_down \/ k = key_up -> showList s = true -> hits s <> [] ->
  exists hit, In hit (hits s) /\ highlighted (step s (pressed_key k)) = Some hit.
Proof.
  intros Hk Hs Hh. assert (exists i, step s (pressed_key k) = setActive (i mod zlen (hits s)) s) as [i ->].
  { cbn [step]. destruct (onKeyDown_list k s) as [[_ E]|(_ & _ & E)]; [by destruct Hk as [->| ->]| |].
    - by specialize (E Hs).
    - rewrite E. destruct Hk as [->| ->]; eauto. }
  pose proof (turned_in_range s i Hh) as Hr. destruct (hit_at s (i mod zlen (hits s))) as [hit|] eqn:E.
  - exists hit. split; [by eapply hit_at_In|]. unfold highlighted. change (showList (setActive _ s)) with (showList s). by rewrite Hs.
  - unfold hit_at in E. destruct (Z.ltb_spec (i mod zlen (hits s)) 0); [lia|]. apply list.lookup_ge_None in E. unfold zlen in *. lia.
Qed.

Lemma escape_closes s : let t := step s (pressed_key key_escape) in
  if showList s then showList t = false /\ bx_query t = bx_query s else bx_query t = "" /\ showList t = false.
Proof.
  cbn. destruct (showList s) eqn:E; [done|]. destruct (String.eqb_spec (bx_query s) "") as [Eq|]; done.
Qed.

Lemma settled_list s q : settles s -> trim q <> "" -> let t := run s [typed q; debounce_fires] in
  showList t = true /\ bx_query t = q /\ bx_needle t = q /\ highlighted t = head (hits t) /\
  forall hit, head (hits t) = Some hit ->
    bx_went (step t (pressed_key key_enter)) = bx_went s ++ [destination (hit_target hit)].
Proof.
  intros Hs Hq t. apply (box_step_settles _ (typed q)) in Hs.
  assert (bx_query t = q /\ bx_needle t = q /\ bx_open t = true /\ bx_active t = 0 /\ bx_went t = bx_went s) as (H1 & H2 & H3 & H4 & H5).
  { unfold t, run. cbn [fold_left]. destruct Hs as [Hs _]. set (u := step s (typed q)) in *. 
    assert (bx_query u = q /\ bx_open u = true /\ bx_active u = 0 /\ bx_went u = bx_went s) as (U1 & U2 & U3 & U4) by done.
    clearbody u. cbn [step]. destruct (bx_debounce u); cbn; split_and!; congruence. }
  clearbody t. assert (showList t = true) as Ht.
  { unfold showList. rewrite H3, H2. by destruct (String.eqb_spec (trim q) ""). }
  assert (entered t = head (hits t)) as He.
  { unfold entered, hit_at. rewrite H4. cbn. by destruct (hits t). }
  split_and!; try done.
  - unfold highlighted, hit_at. rewrite Ht, H4. cbn. by destruct (hits t).
  - intros hit Hh. destruct (onKeyDown_list key_enter t) as [[_ E]|(_ & _ & E)]; [done| |].
    + by rewrite (E Ht) in Hh.
    + cbn [step]. rewrite E, He, Hh. rewrite <- H5. done.
Qed.

(** C38. The search box opens what it shows, and shows the best matches.  In every
    run of it, whatever is typed, pressed and pointed at and whenever its timers
    fire: a list on screen is the best matches of the text searched, which is the
    box's own text once the debounce has fired; nothing is ever navigated to but
    the destination of a row on screen, the highlighted one for Enter (the first,
    when none is), the one pressed for the pointer, and the box is then empty and
    closed; an arrow always lands on a row; Escape closes an open list without
    touching the text and clears the text of a closed one; and a text left for the
    debounce has its best match highlighted, which Enter opens. *)
Theorem search_opens_what_it_shows (ix : SearchIndex) (es : list Event) :
  let s := run (mounted ix) es in
  (bx_debounce s = None -> bx_needle s = bx_query s) /\
  (showList s = true -> exists rs, best_list (bx_needle s) (bx_index s) (hits s) rs) /\
  (forall e, bx_went (step s e) = bx_went s \/
     exists hit, showList s = true /\ In hit (hits s) /\ opens s e hit /\
       bx_went (step s e) = bx_went s ++ [destination (hit_target hit)] /\
       bx_query (step s e) = "" /\ showList (step s e) = false) /\
  (forall k, k = key_down \/ k = key_up -> showList s = true -> hits s <> [] ->
     exists hit, In hit (hits s) /\ highlighted (step s (pressed_key k)) = Some hit) /\
  (let t := step s (pressed_key key_escape) in
   if showList s then showList t = false /\ bx_query t = bx_query s else bx_query t = "" /\ showList t = false) /\
  (forall q, trim q <> "" ->
     let t := run s [typed q; debounce_fires] in
     showList t = true /\ bx_query t = q /\ bx_needle t = q /\ highlighted t = head (hits t) /\
     forall hit, head (hits t) = Some hit ->
       bx_went (step t (pressed_key key_enter)) = bx_went s ++ [destination (hit_target hit)]).
Proof.
  cbv zeta. assert (settles (run (mounted ix) es)) as Hs by (apply box_run_settles; done).
  set (s := run (mounted ix) es) in *. clearbody s. split_and!.
  - intros E. destruct Hs as [Hs _]. by rewrite E in Hs.
  - apply shown_best.
  - apply step_went.
  - apply arrows_land.
  - apply escape_closes.
  - intros q Hq. by apply settled_list.
Qed.
End Box.

(** *** Where a row leads *)

(** The flights page opens on the text, and on nothing else. *)
Lemma flights_opened {Zd : Zod} {HZ : ZodLaws Zd} q : destination (to_flights q) =
  at_flights {| ts_q := Some q; ts_since := None; ts_day := None; ts_vendor := None; ts_evidence := None;
                ts_operator := None; ts_group := None; ts_sort := None; ts_view := None |}.
Proof.
  unfold destination, validateSearch, field. cbn [assoc tracksSearchSchema String.eqb Ascii.eqb Bool.eqb].
  rewrite zod_takes by done. by rewrite !zod_catches.
Qed.

Lemma trimStart_suffix s : exists a, s = a +:+ trimStart s.
Proof.
  induction s as [|c s [a IH]]; [by exists ""|]. cbn. destruct (is_space c); [|by exists ""].
  exists (String c a). change (String c s = String c (a +:+ trimStart s)). by f_equal.
Qed.
Lemma trimEnd_prefix s : exists b, s = trimEnd s +:+ b.
Proof.
  induction s as [|c s [b IH]]; [by exists ""|]. cbn [trimEnd]. destruct (all_space (String c s)); [by exists (String c s)|].
  exists b. change (String c s = String c (trimEnd s +:+ b)). by f_equal.
Qed.
Lemma trim_within s : exists a b, s = a +:+ trim s +:+ b.
Proof.
  destruct (trimStart_suffix s) as [a Ha], (trimEnd_prefix (trimStart s)) as [b Hb]. exists a, b. unfold trim. by rewrite <- Hb.
Qed.

Lemma join_part sep x l : In x l -> exists a b, join sep l = a +:+ x +:+ b.
Proof.
  induction l as [|y l IH]; [done|]. intros Hx. destruct l as [|z l].
  - destruct Hx as [->|[]]. exists "", "". by rewrite sapp_nil, sapp_nil_r.
  - destruct Hx as [->|Hx]; [by exists "", (sep +:+ join sep (z :: l))|].
    destruct (IH Hx) as (a & b & E). exists (y +:+ sep +:+ a), b. change (join sep (y :: z :: l)) with (y +:+ sep +:+ join sep (z :: l)).
    rewrite E. by rewrite !sapp_assoc.
Qed.

(** The parts an identity is searched by. *)
Definition identity_parts (t : Track) : list (option string) :=
  [tr_identity t ?. ti_serial; tr_identity t ?. ti_manufacturer_code; tr_identity t ?. ti_vendor;
   tr_identity t ?. ti_model_hint; tr_identity t ?. ti_operator_id; Some (tr_track_id t)] ++
  map Some (tr_identity t ?. ti_macs ?? []).
Lemma part_is_found {zone : Zone} (t : Track) (q : string) (utc : bool) (filters : FlightFilters) :
  q <> "" -> In (Some q) (identity_parts t) -> ff_q filters = Some q -> matchesFacet t facet_q filters utc = true.
Proof.
  intros Hq Ht Hf. unfold matchesFacet. rewrite Hf. cbn [fmap option_fmap option_map].
  destruct (truthy (Some (toLowerCase (trim q)))) as [needle|] eqn:E; [|done].
  assert (needle = toLowerCase (trim q)) as -> by (cbn in E; by destruct (toLowerCase (trim q)); [|injection E]).
  apply includes_spec. destruct (trim_within q) as (a & b & Eq).
  assert (In q (omap truthy (identity_parts t))) as Hin.
  { apply list_elem_of_In, list_elem_of_omap. exists (Some q). split; [by apply list_elem_of_In|by destruct q]. }
  destruct (join_part " " q _ Hin) as (c & d & Ej). change (searchableIdentity t) with (join " " (omap truthy (identity_parts t))). rewrite Ej.
  exists (toLowerCase (c +:+ a)), (toLowerCase (b +:+ d)). rewrite <- !toLowerCase_app. f_equal. rewrite Eq at 1. by rewrite !sapp_assoc.
Qed.
(** The flights page, opened by a row for a serial or a MAC, admits by its search
    box every flight of that serial or MAC. *)
Lemma row_finds_its_flights {zone : Zone} (t : Track) (q : string) (utc : bool) (filters : FlightFilters) :
  q <> "" -> tr_identity t ?. ti_serial = Some q \/ In q (tr_identity t ?. ti_macs ?? []) ->
  ff_q filters = Some q -> matchesFacet t facet_q filters utc = true.
Proof.
  intros Hq Ht. apply part_is_found; [done|]. unfold identity_parts. apply in_app_iff.
  destruct Ht as [->|Ht]; [left; by left|right; by apply in_map].
Qed.
End Box.

(** ** The command palette *)
Module Palette.

(** What choosing a command does. *)
Inductive Action :=
| goes (path : string)
| goes_to_lanes
| sets_theme (t : Theme.ResolvedTheme)
| sets_units (u : UnitSystem)
| sets_utc (utc : bool)
| opens_flight (trackId : string).

Record Command := { cm_id : string; cm_label : string; cm_hint : option string; cm_group : string; cm_run : Action }.

Record PaletteTrack := { pt_id : string; pt_label : string; pt_sub : string; pt_lastSeen : option Z }.

Definition palette_track (now : Z) (t : Track) : PaletteTrack :=
  let serial := tr_identity t ?. ti_serial in
  let mac := (tr_identity t ?. ti_macs) ≫= head in
  {| pt_id := tr_track_id t;
     pt_label := match serial with Some s => s | None => mac ?? tr_track_id t end;
     pt_sub := join " · " (omap truthy
       [Some (toLowerCase (TrackState_string (tr_state t)));
        Some (formatRelative (Some (tr_last_seen t)) now);
        (if 0 <? tr_detection_count t then Some (pretty (tr_detection_count t) +:+ " detections") else None);
        match truthy serial, truthy mac with Some _, Some m => Some m | _, _ => None end;
        tr_identity t ?. ti_vendor]);
     pt_lastSeen := Date_parse (tr_last_seen t) |}.

(** The comparator answers at most zero; a time that does not parse makes it NaN. *)
Definition newest_first (a b : PaletteTrack) : bool :=
  match pt_lastSeen a, pt_lastSeen b with Some x, Some y => y <=? x | _, _ => true end.

Definition palette_tracks {C : Type} `{QueryClient C} {Sort : HostSort} (c : C) (now : Z) : list PaletteTrack :=
  host_sort newest_first (map (palette_track now) (Box.seen_tracks c None)).

Definition nextUnits (current : UnitSystem) : UnitSystem :=
  match current with metric => aviation | aviation => imperial | imperial => metric end.
Definition units_string (u : UnitSystem) : string :=
  match u with metric => "metric" | imperial => "imperial" | aviation => "aviation" end.

Definition nav (id label path : string) : Command :=
  {| cm_id := id; cm_label := label; cm_hint := None; cm_group := "Go to"; cm_run := goes path |}.
Definition nav_commands (isAdmin : bool) : list Command :=
  [nav "nav-live" "Live map" "/"; nav "nav-tracks" "Flights" "/tracks";
   {| cm_id := "nav-timeline"; cm_label := "Timeline — what happened while you were away"; cm_hint := None;
      cm_group := "Go to"; cm_run := goes_to_lanes |};
   nav "nav-sensors" "Sensors" "/sensors"; nav "nav-spectrum" "Spectrum — sweep a band" "/spectrum";
   nav "nav-captures" "Captures — PCAP and IQ recordings" "/captures"; nav "nav-logs" "Event log" "/logs";
   nav "nav-docs" "Docs" "/docs"; nav "nav-settings" "Settings — units, time, display" "/settings";
   nav "nav-notifications" "Notification settings — what reaches the drawer" "/settings/notifications";
   nav "nav-calibration" "Calibration — channel plan and fusion weights" "/settings/calibration"] ++
  (if isAdmin then [nav "nav-admin" "Administration — accounts, hooks, deployment" "/admin"] else []).

Definition quick_commands (theme : Theme.ThemePreference) (units : UnitSystem) (utc : bool) : list Command :=
  let is_dark := match theme with Theme.prefers Theme.dark => true | _ => false end in
  [{| cm_id := "act-theme"; cm_label := if is_dark then "Switch to light theme" else "Switch to dark theme";
      cm_hint := None; cm_group := "Quick settings"; cm_run := sets_theme (if is_dark then Theme.light else Theme.dark) |};
   {| cm_id := "act-units"; cm_label := "Switch units to " +:+ units_string (nextUnits units);
      cm_hint := Some ("currently " +:+ units_string units); cm_group := "Quick settings"; cm_run := sets_units (nextUnits units) |};
   {| cm_id := "act-tz"; cm_label := if utc then "Show times in local time" else "Show times in UTC";
      cm_hint := None; cm_group := "Quick settings"; cm_run := sets_utc (negb utc) |}].

Definition track_command (t : PaletteTrack) : Command :=
  {| cm_id := "track-" +:+ pt_id t; cm_label := pt_label t; cm_hint := Some (pt_sub t); cm_group := "Tracks";
     cm_run := opens_flight (pt_id t) |}.

Definition commands (theme : Theme.ThemePreference) (units : UnitSystem) (utc isAdmin : bool) (tracks : list PaletteTrack)
  : list Command :=
  nav_commands isAdmin ++ quick_commands theme units utc ++ map track_command tracks.

Definition matches (query : string) (c : Command) : bool :=
  let needle := toLowerCase (trim query) in
  (needle === "") || includes needle (toLowerCase (cm_label c +:+ " " +:+ (cm_hint c ?? "") +:+ " " +:+ cm_group c)).
Definition filtered (query : string) (cmds : list Command) : list Command := List.filter (matches query) cmds.

(** The groups' Map: a command is added to the list of its group. *)
Fixpoint push (x : Command * Z) (groups : list (string * list (Command * Z))) : list (string * list (Command * Z)) :=
  match groups with
  | [] => [(cm_group x.1, [x])]
  | (g, l) :: groups' => if g === cm_group x.1 then (g, l ++ [x]) :: groups' else (g, l) :: push x groups'
  end.
Definition indexed (cmds : list Command) : list (Command * Z) := imap (fun i c => (c, Z.of_nat i)) cmds.
Definition groups (cmds : list Command) : list (string * list (Command * Z)) :=
  fold_left (fun m x => push x m) (indexed cmds) [].

(** The palette while it is open: it is done when a command runs. *)
Record Palette := { pl_query : string; pl_active : Z; pl_ran : option Action }.
Definition opened : Palette := {| pl_query := ""; pl_active := 0; pl_ran := None |}.

Inductive Event := typed (q : string) | key_down | key_up | key_enter | hovered (row : Z) | clicked (row : Z).

Section Step.
Context (cmds : list Command).

Definition shown (p : Palette) : list Command := filtered (pl_query p) cmds.
Definition row_at (p : Palette) (i : Z) : option Command := if i <? 0 then None else shown p !! Z.to_nat i.
Definition highlighted (p : Palette) : option Command := row_at p (pl_active p).
Definition nothing_matches (p : Palette) : bool := match shown p with [] => true | _ => false end.

Definition setActive (i : Z) (p : Palette) : Palette := {| pl_query := pl_query p; pl_active := i; pl_ran := pl_ran p |}.
Definition run_command (c : option Command) (p : Palette) : Palette :=
  match c with Some c => {| pl_query := pl_query p; pl_active := pl_active p; pl_ran := Some (cm_run c) |} | None => p end.

Definition step (p : Palette) (e : Event) : Palette :=
  match pl_ran p with
  | Some _ => p
  | None =>
      let n := zlen (shown p) in
      match e with
      | typed q => {| pl_query := q; pl_active := 0; pl_ran := pl_ran p |}
      | key_down => setActive (if n =? 0 then 0 else (pl_active p + 1) mod n) p
      | key_up => setActive (if n =? 0 then 0 else (pl_active p - 1 + n) mod n) p
      | key_enter => run_command (highlighted p) p
      | hovered row => match row_at p row with Some _ => setActive row p | None => p end
      | clicked row => run_command (row_at p row) p
      end
  end.
End Step.

(** *** Facts *)

Lemma push_fresh g l m x : cm_group x.1 = g -> ~ In g (map fst m) -> push x (m ++ [(g, l)]) = m ++ [(g, l ++ [x])].
Proof.
  intros Hg. induction m as [|[h k] m IH]; cbn.
  - intros _. by rewrite Hg, String.eqb_refl.
  - intros Hn. destruct (String.eqb_spec h (cm_group x.1)) as [E|_]; [exfalso; apply Hn; left; congruence|].
    f_equal. apply IH. tauto.
Qed.

Lemma push_new g m x : cm_group x.1 = g -> ~ In g (map fst m) -> push x m = m ++ [(g, [x])].
Proof.
  intros Hg. induction m as [|[h k] m IH]; cbn; [by rewrite Hg|].
  intros Hn. destruct (String.eqb_spec h (cm_group x.1)) as [E|_]; [exfalso; apply Hn; left; congruence|].
  f_equal. apply IH. tauto.
Qed.

(** A run of commands of one group not met before makes that group's list. *)
Lemma push_block g b m : (forall x, In x b -> cm_group x.1 = g) -> ~ In g (map fst m) ->
  fold_left (fun m x => push x m) b m = m ++ match b with [] => [] | _ => [(g, b)] end.
Proof.
  intros Hb Hm. assert (forall b l, (forall x, In x b -> cm_group x.1 = g) ->
    fold_left (fun m x => push x m) b (m ++ [(g, l)]) = m ++ [(g, l ++ b)]) as H.
  { clear b Hb. intros b. induction b as [|x b IH]; intros l Hb; cbn; [by rewrite app_nil_r|].
    rewrite push_fresh by (auto using in_eq). rewrite IH by (intros; apply Hb; by right). by rewrite <- app_assoc. }
  destruct b as [|x b]; cbn; [by rewrite app_nil_r|]. rewrite (push_new g) by (auto using in_eq).
  rewrite H by (intros; apply Hb; by right). done.
Qed.

Lemma group_of_imap g (f : nat -> Z) (b : list Command) :
  (forall c, In c b -> cm_group c = g) -> forall x, In x (imap (fun i c => (c, f i)) b) -> cm_group x.1 = g.
Proof.
  revert f. induction b as [|c b IH]; intros f Hb x; [done|]. cbn. intros [<-|Hx]; [by apply Hb; left|].
  apply (IH (f ∘ S)); [by intros; apply Hb; right|exact Hx].
Qed.

(** Three runs of three groups: read group by group, the rows are in the order of
    the list, each with its own place. *)
Lemma groups_in_order b1 b2 b3 g1 g2 g3 :
  (forall c, In c b1 -> cm_group c = g1) -> (forall c, In c b2 -> cm_group c = g2) ->
  (forall c, In c b3 -> cm_group c = g3) -> g1 <> g2 -> g1 <> g3 -> g2 <> g3 ->
  concat (map snd (groups (b1 ++ b2 ++ b3))) = indexed (b1 ++ b2 ++ b3).
Proof.
  intros H1 H2 H3 N12 N13 N23. unfold groups, indexed. rewrite !imap_app, !fold_left_app.
  set (l1 := imap _ b1). set (l2 := imap _ b2). set (l3 := imap _ b3).
  assert (forall x, In x l1 -> cm_group x.1 = g1) as L1 by (by apply (group_of_imap g1 Z.of_nat)).
  assert (forall x, In x l2 -> cm_group x.1 = g2) as L2 by (by apply group_of_imap).
  assert (forall x, In x l3 -> cm_group x.1 = g3) as L3 by (by apply group_of_imap).
  rewrite (push_block g1 l1 []), (push_block g2 l2) by (done || destruct l1; cbn; intuition congruence).
  rewrite (push_block g3 l3) by (done || destruct l1, l2; cbn; intuition congruence).
  rewrite !map_app, !concat_app. destruct l1, l2, l3; cbn; rewrite ?app_nil_r, <- ?app_assoc; done.
Qed.

Lemma filtered_app q a b : filtered q (a ++ b) = filtered q a ++ filtered q b.
Proof. apply List.filter_app. Qed.

(** The rows, read down the groups, are the commands that match, each once and at
    the place its highlight has. *)
Lemma rows_are_the_matches theme units utc isAdmin tracks q :
  let cmds := filtered q (commands theme units utc isAdmin tracks) in concat (map snd (groups cmds)) = indexed cmds.
Proof.
  cbv zeta. unfold commands. rewrite !filtered_app.
  apply (groups_in_order _ _ _ "Go to" "Quick settings" "Tracks"); try done; intros c [Hc _]%filter_In.
  - unfold nav_commands in Hc. apply in_app_iff in Hc as [Hc|Hc]; [|destruct isAdmin; [|done]]; cbn in Hc; intuition (by subst).
  - cbn in Hc; intuition (by subst).
  - by apply in_map_iff in Hc as (t & <- & _).
Qed.

(** Commands have distinct ids, when the flights have. *)
Lemma command_ids theme units utc isAdmin tracks :
  List.NoDup (map pt_id tracks) -> List.NoDup (map cm_id (commands theme units utc isAdmin tracks)).
Proof.
  intros Ht. unfold commands. rewrite !map_app. apply NoDup_app_disj.
  - destruct isAdmin; cbn; repeat (constructor; [cbn; intuition discriminate|]); constructor.
  - apply NoDup_app_disj.
    + cbn. repeat (constructor; [cbn; intuition discriminate|]); constructor.
    + rewrite map_map. cbn [track_command cm_id]. rewrite <- (map_map pt_id (fun id => "track-" +:+ id)).
      apply Injective_map_NoDup; [|done]. by intros a b [= E].
    + intros id Hq. rewrite map_map. intros (t & E & _)%in_map_iff. cbn in Hq. intuition (subst; discriminate).
  - intros id Hn. rewrite in_app_iff. intros [Hq|Hq].
    + destruct isAdmin; cbn in Hn, Hq; intuition (subst; discriminate).
    + rewrite map_map in Hq. apply in_map_iff in Hq as (t & E & _). destruct isAdmin; cbn in Hn, E; intuition (subst; discriminate).
Qed.

(** *** Runs *)

Definition in_reach (cmds : list Command) (p : Palette) : Prop := 0 <= pl_active p < Z.max 1 (zlen (shown cmds p)).

Lemma row_at_range cmds p i c : row_at cmds p i = Some c -> 0 <= i < zlen (shown cmds p) /\ In c (shown cmds p).
Proof.
  unfold row_at. destruct (Z.ltb_spec i 0); [done|]. intros E. split.
  - apply list.lookup_lt_Some in E. unfold zlen. lia.
  - apply list_elem_of_In. by eapply list_elem_of_lookup_2.
Qed.

Lemma step_in_reach cmds p e : in_reach cmds p -> in_reach cmds (step cmds p e).
Proof.
  unfold in_reach, step. destruct (pl_ran p); [done|]. pose proof (zlen_nonneg (shown cmds p)) as Hn. intros H.
  destruct e as [q| | | |row|row]; cbn [pl_active setActive].
  - cbn. pose proof (zlen_nonneg (shown cmds {| pl_query := q; pl_active := 0; pl_ran := None |})). lia.
  - change (shown cmds (setActive _ p)) with (shown cmds p). destruct (Z.eqb_spec (zlen (shown cmds p)) 0); [lia|].
    pose proof (Z.mod_pos_bound (pl_active p + 1) (zlen (shown cmds p))). lia.
  - change (shown cmds (setActive _ p)) with (shown cmds p). destruct (Z.eqb_spec (zlen (shown cmds p)) 0); [lia|].
    pose proof (Z.mod_pos_bound (pl_active p - 1 + zlen (shown cmds p)) (zlen (shown cmds p))). lia.
  - by destruct (highlighted cmds p).
  - destruct (row_at cmds p row) eqn:E; [|done]. apply row_at_range in E as [E _]. cbn.
    change (shown cmds (setActive row p)) with (shown cmds p). lia.
  - by destruct (row_at cmds p row).
Qed.

(** In every run of the palette a row is highlighted whenever there is one; what
    runs is the row highlighted or clicked, which is on screen and matches; and
    the palette is then done. *)
Lemma palette_runs_what_it_shows cmds es :
  let p := fold_left (step cmds) es opened in
  (shown cmds p <> [] -> exists c, highlighted cmds p = Some c) /\
  forall e, pl_ran p = None -> pl_ran (step cmds p e) = None \/
    exists c, In c cmds /\ matches (pl_query p) c = true /\ pl_ran (step cmds p e) = Some (cm_run c) /\
      match e with key_enter => highlighted cmds p = Some c | clicked row => row_at cmds p row = Some c | _ => False end.
Proof.
  cbv zeta. assert (in_reach cmds (fold_left (step cmds) es opened)) as H.
  { assert (in_reach cmds opened) as H0 by (unfold in_reach; cbn; lia). revert H0. generalize opened.
    induction es as [|e es IH]; intros p Hp; [done|]. by apply IH, step_in_reach. }
  set (p := fold_left _ es _) in *. clearbody p. split.
  - intros Hs. unfold highlighted, row_at. destruct H as [H1 H2]. destruct (Z.ltb_spec (pl_active p) 0); [lia|].
    destruct (shown cmds p !! Z.to_nat (pl_active p)) eqn:E; [eauto|]. apply list.lookup_ge_None in E. unfold zlen in *.
    destruct (shown cmds p); [done|]. cbn [List.length] in *. lia.
  - intros e Hp. unfold step. rewrite Hp. destruct e as [q| | | |row|row]; try by left.
    + destruct (highlighted cmds p) as [c|] eqn:E; [|by left]. right. exists c. pose proof (row_at_range _ _ _ _ E) as [_ Hc].
      by apply filter_In in Hc as [? ?].
    + left. by destruct (row_at cmds p row).
    + destruct (row_at cmds p row) as [c|] eqn:E; [|by left]. right. exists c. pose proof (row_at_range _ _ _ _ E) as [_ Hc].
      by apply filter_In in Hc as [? ?].
Qed.

(** The units go round all three. *)
Lemma units_go_round u : nextUnits (nextUnits (nextUnits u)) = u /\ nextUnits u <> u /\ nextUnits (nextUnits u) <> u.
Proof. by destruct u. Qed.

(** Under the system's dark theme the palette offers to switch to dark, and choosing
    it changes nothing on screen. *)
Lemma theme_switch_switches_nothing (t : Theme.Themes) (units : UnitSystem) (utc : bool) :
  Theme.th_preference t = Theme.follows_system -> Theme.th_system t = Theme.dark ->
  exists c, head (quick_commands (Theme.th_preference t) units utc) = Some c /\ cm_label c = "Switch to dark theme" /\
    cm_run c = sets_theme Theme.dark /\
    Theme.theme (Theme.setPreference (Theme.prefers Theme.dark) t) = Theme.theme t.
Proof. intros Hp Hs. rewrite Hp. eexists. split; [reflexivity|]. split_and!; try done. unfold Theme.theme at 2. by rewrite Hp, Hs. Qed.
End Palette.

(** ** The rail *)
Module Nav.

Inductive NavGroup := watch | manage.
Record NavItem := {
  nv_id : string; nv_label : string; nv_to : string; nv_hint : string; nv_primary : bool; nv_adminOnly : bool;
  nv_group : NavGroup
}.
Definition item (id label path hint : string) (primary adminOnly : bool) (group : NavGroup) : NavItem :=
  {| nv_id := id; nv_label := label; nv_to := path; nv_hint := hint; nv_primary := primary; nv_adminOnly := adminOnly;
     nv_group := group |}.
Definition NAV_ITEMS : list NavItem :=
  [item "live" "Live" "/" "What is up there now" true false watch;
   item "flights" "Flights" "/tracks" "Every flight this unit has recorded" true false watch;
   item "sensors" "Sensors" "/sensors" "Coverage and health, one radio at a time" true false watch;
   item "spectrum" "Spectrum" "/spectrum" "Sweep a band and compare it with the last one" false false watch;
   item "captures" "Captures" "/captures" "PCAP and IQ recordings" false false watch;
   item "logs" "Event log" "/logs" "What this console has observed since it was opened" false false watch;
   item "settings" "Settings" "/settings" "Units, time, display, storage" false false manage;
   item "admin" "Administration" "/admin" "Accounts, deployment, outbound hooks" false true manage].

Definition PRIMARY_NAV_ITEMS : list NavItem := List.filter nv_primary NAV_ITEMS.
Definition SECONDARY_NAV_ITEMS : list NavItem := List.filter (fun i => negb (nv_primary i)) NAV_ITEMS.
Definition visibleNavItems (items : list NavItem) (isAdmin : bool) : list NavItem :=
  List.filter (fun i => negb (nv_adminOnly i) || isAdmin) items.

Definition underPath (pathname base : string) : bool :=
  if base === "/" then pathname === "/"
  else (pathname === base) || match startsWith (base +:+ "/") pathname with Some _ => true | None => false end.
Definition isNavItemActive (i : NavItem) (pathname : string) : bool := underPath pathname (nv_to i).

Lemma underPath_spec p base : base <> "/" -> underPath p base = true -> p = base \/ exists r, p = (base +:+ "/") +:+ r.
Proof.
  intros Hb. unfold underPath. destruct (String.eqb_spec base "/"); [done|]. intros [E|E]%orb_prop; [left; by apply String.eqb_eq|].
  destruct (startsWith (base +:+ "/") p) as [r|] eqn:Es; [|done]. right. exists r. by apply startsWith_spec in Es.
Qed.

(** A path's first part: what follows its slash, up to the next. *)
Fixpoint up_to_slash (s : string) : string :=
  match s with EmptyString => "" | String c s' => if Ascii.eqb c "/" then "" else String c (up_to_slash s') end.
Definition first_part (p : string) : string := match p with String _ s => up_to_slash s | EmptyString => "" end.

Lemma active_first_part p i : In i NAV_ITEMS -> isNavItemActive i p = true -> first_part p = first_part (nv_to i).
Proof.
  unfold isNavItemActive. intros Hi Ha. cbn in Hi.
  repeat destruct Hi as [Hi|Hi]; try done; subst i; cbn [item nv_to] in Ha |- *.
  1: by apply String.eqb_eq in Ha as ->.
  all: apply underPath_spec in Ha as [->|[r ->]]; done.
Qed.

(** At most one entry is lit for any page, and the bar and the sheet split the
    entries between them. *)
Lemma one_entry_lit p i j :
  In i NAV_ITEMS -> In j NAV_ITEMS -> isNavItemActive i p = true -> isNavItemActive j p = true -> i = j.
Proof.
  intros Hi Hj Ai Aj. apply active_first_part in Ai; [|done]. apply active_first_part in Aj; [|done].
  rewrite Ai in Aj. clear Ai. cbn in Hi, Hj.
  repeat destruct Hi as [Hi|Hi]; try done; subst i; repeat destruct Hj as [Hj|Hj]; subst; done.
Qed.

Lemma bar_and_sheet i : In i NAV_ITEMS <-> In i PRIMARY_NAV_ITEMS \/ In i SECONDARY_NAV_ITEMS.
Proof. unfold PRIMARY_NAV_ITEMS, SECONDARY_NAV_ITEMS. rewrite !filter_In. destruct (nv_primary i); cbn; intuition. Qed.
End Nav.

Module Examples.
Import TracksSearch Box.

#[local] Existing Instance code_units.
#[local] Instance checker : Zod := {| safe_field := fun f v =>
  match v with Some (JStr s) => if takes f s then Some s else None | _ => None end |}.

Definition two_aircraft : SearchIndex := {|
  ix_trackIds := []; ix_serials := [a_serial "1581F5A" None; a_serial "1581F9B" None]; ix_macs := []; ix_sensors := [] |}.
Definition searched : Box := run (mounted two_aircraft) [focused; typed "1581F9"; debounce_fires].

Lemma search_opens_what_it_shows_witness :
  map hit_label_text (hits searched) = ["1581F9B"] /\
  bx_went (step searched (pressed_key key_enter)) =
    [at_flights (validateSearch [("q", JStr "1581F9B")])].
Proof.
  destruct (search_opens_what_it_shows two_aircraft [focused]) as (_ & _ & _ & _ & _ & H).
  destruct (H "1581F9" ltac:(discriminate)) as (_ & _ & _ & _ & Hw). split; [vm_compute; reflexivity|].
  exact (Hw {| hit_id := "serial:1581F9B"; hit_kind := hit_serial; hit_label_text := "1581F9B"; hit_detail := None;
               hit_target := to_flights "1581F9B" |} ltac:(vm_compute; reflexivity)).
Defined.

(** Enter before the debounce opens a match of the earlier text: the list on
    screen is still that text's. *)
Lemma enter_opens_the_earlier_text :
  let s := run (mounted two_aircraft) [focused; typed "1581F"; debounce_fires; typed "1581F9"; pressed_key key_enter] in
  bx_went s = [at_flights (validateSearch [("q", JStr "1581F5A")])].
Proof. vm_compute. reflexivity. Qed.

(** A box left and entered again at once closes its list while it has the focus:
    the timer of the blur is still running. *)
Lemma refocus_closes :
  showList (run searched [blurred; focused]) = true /\ showList (run searched [blurred; focused; blur_fires]) = false.
Proof. vm_compute. auto. Qed.

(** A row highlighted in a longer list is lost in a shorter one, and Enter opens
    the first row, which nothing highlights. *)
Lemma enter_without_a_highlight :
  let s := run (mounted two_aircraft) [focused; typed "1581F"; debounce_fires; typed "1581F9"; pressed_key key_down; debounce_fires] in
  showList s = true /\ highlighted s = None /\
  bx_went (step s (pressed_key key_enter)) = [at_flights (validateSearch [("q", JStr "1581F9B")])].
Proof. vm_compute. auto. Qed.
End Examples.
