(* ===== verification/Drawer.v ===== *)
(** * Drawer: the bell and what it lists

    [features/notifications/notifications-drawer.tsx] over the feed and the stores
    of [Notifications], with the swipe of [components/ui/use-swipe-dismiss.ts] on
    every row. *)
From Stdlib Require Import ZArith Bool String Ascii List Lia Permutation Sorted.
From stdpp Require Import base option list strings pretty.
From S2P Require Import Prelude JsNumber JsDate JsString Format ApiTypes LogStore Notifications.

(** ** The swipe of one row *)
Module Swipe.

Definition DEFAULT_THRESHOLD_PX : num := of_Z 88.
Definition TAP_TOLERANCE_PX : num := of_Z 4.

(** [closing] is a direction; a commit arms the timer of [onDismiss]. *)
Record Swipe := {
  sw_closing : option Z;
  sw_dragX : num;
  sw_dragging : bool;
  sw_dragStartX : option num;
  sw_suppressClick : bool
}.
Definition still : Swipe :=
  {| sw_closing := None; sw_dragX := of_Z 0; sw_dragging := false; sw_dragStartX := None; sw_suppressClick := false |}.

(** Each gives the row, and whether the timer was armed. *)
Definition commit (direction : Z) (s : Swipe) : Swipe * bool :=
  match sw_closing s with
  | Some _ => (s, false)
  | None =>
      ({| sw_closing := Some direction; sw_dragX := sw_dragX s; sw_dragging := sw_dragging s;
          sw_dragStartX := sw_dragStartX s; sw_suppressClick := sw_suppressClick s |}, true)
  end.

Definition onPointerDown (enabled : bool) (clientX : num) (s : Swipe) : Swipe :=
  if negb enabled || match sw_closing s with Some _ => true | None => false end then s
  else {| sw_closing := sw_closing s; sw_dragX := sw_dragX s; sw_dragging := true; sw_dragStartX := Some clientX;
          sw_suppressClick := sw_suppressClick s |}.

Definition onPointerMove (clientX : num) (s : Swipe) : Swipe :=
  match sw_dragStartX s with
  | None => s
  | Some start =>
      {| sw_closing := sw_closing s; sw_dragX := nsub clientX start; sw_dragging := sw_dragging s;
         sw_dragStartX := sw_dragStartX s; sw_suppressClick := sw_suppressClick s |}
  end.

Definition onPointerUp (s : Swipe) : Swipe * bool :=
  match sw_dragStartX s with
  | None => (s, false)
  | Some _ =>
      let far := ngt (nabs (sw_dragX s)) DEFAULT_THRESHOLD_PX in
      let s := {| sw_closing := sw_closing s; sw_dragX := if far then sw_dragX s else of_Z 0; sw_dragging := false;
                  sw_dragStartX := None; sw_suppressClick := ngt (nabs (sw_dragX s)) TAP_TOLERANCE_PX |} in
      if far then commit (if nlt (sw_dragX s) (of_Z 0) then -1 else 1) s else (s, false)
  end.

(** A click: whether it goes through. *)
Definition onClickCapture (s : Swipe) : Swipe * bool :=
  if sw_suppressClick s
  then ({| sw_closing := sw_closing s; sw_dragX := sw_dragX s; sw_dragging := sw_dragging s;
           sw_dragStartX := sw_dragStartX s; sw_suppressClick := false |}, false)
  else (s, true).

Lemma tap_goes_nowhere s : ngt (nabs (sw_dragX s)) DEFAULT_THRESHOLD_PX = false -> (onPointerUp s).2 = false.
Proof. intros H. unfold onPointerUp. rewrite H. by destruct (sw_dragStartX s). Qed.

(** A commit is the only way a row starts to leave, and it arms the timer. *)
Lemma down_keeps x s : sw_closing (onPointerDown true x s) = sw_closing s.
Proof. unfold onPointerDown. cbn. by case_match. Qed.
Lemma moved_keeps x s : sw_closing (onPointerMove x s) = sw_closing s.
Proof. unfold onPointerMove. by case_match. Qed.
Lemma click_keeps s : sw_closing (onClickCapture s).1 = sw_closing s.
Proof. unfold onClickCapture. by case_match. Qed.
Lemma commit_arms dir s : (commit dir s).2 = false -> sw_closing (commit dir s).1 = sw_closing s.
Proof. unfold commit. by destruct (sw_closing s) eqn:E. Qed.
Lemma up_arms s : (onPointerUp s).2 = false -> sw_closing (onPointerUp s).1 = sw_closing s.
Proof.
  unfold onPointerUp. destruct (sw_dragStartX s); [|done]. cbv zeta.
  destruct (ngt _ DEFAULT_THRESHOLD_PX); [|done]. intros H. by rewrite commit_arms.
Qed.
End Swipe.

(** ** The drawer *)
Module Drawer.
Import Swipe.

Definition TRACK_LIMIT : Z := 100.
Definition RENDER_LIMIT : nat := 200.

(** [dr_stored] is the storage of the watermark; [dr_leaving] the rows whose
    dismissal timer runs; [dr_went] the flights opened. *)
Record Drawer := {
  dr_open : bool;
  dr_lastSeenAt : Z;
  dr_cleared : ClearedStore;
  dr_stored : Storage;
  dr_input : FeedInput;
  dr_rows : list (string * Swipe);
  dr_leaving : list string;
  dr_went : list string
}.

Section Drawer.
Context (number_string : num -> string) {C : Collation} (stringify : list string -> string)
  (parse : string -> option (list (option string))) (parse_number : string -> option Z).

Definition feed_input (tracks : list Track) (entries : list LogEntry) (categories : Categories) (minLevel : option LogLevel)
  : FeedInput :=
  {| fi_tracks := tracks; fi_entries := entries; fi_categories := categories; fi_minLevel := minLevel; fi_limit := RENDER_LIMIT |}.

Definition rawFeed (d : Drawer) : list Notification := buildFeed number_string (dr_input d).
Definition feed (d : Drawer) : list Notification := List.filter (fun item => negb (has (nt_id item) (dr_cleared d))) (rawFeed d).
Definition unread (d : Drawer) : Z := countUnread (feed d) (dr_lastSeenAt d).
Definition bell_label (d : Drawer) : string :=
  if 0 <? unread d then "Notifications, " +:+ pretty (unread d) +:+ " new since you last looked" else "Notifications".
Definition bell_badge (d : Drawer) : option string :=
  if 0 <? unread d then Some (if 99 <? unread d then "99+" else pretty (unread d)) else None.

(** The empty state: [Object.values] of the switches that were ever set. *)
Inductive EmptyFeed := all_switched_off | all_cleared | nothing_recorded.
Definition configured (c : Categories) : list bool := match c with Some f => omap f NOTIFY_CATEGORIES | None => [] end.
Definition emptyFeed (d : Drawer) : option EmptyFeed :=
  match feed d with
  | [] =>
      let values := configured (fi_categories (dr_input d)) in
      Some (if forallb negb values && (0 <? zlen values) then all_switched_off
            else if 0 <? zlen (rawFeed d) then all_cleared else nothing_recorded)
  | _ => None
  end.

(** *** Changes *)
Fixpoint take_out (id : string) (l : list string) : list string :=
  match l with [] => [] | x :: l => if x === id then l else x :: take_out id l end.
Definition shown (id : string) (d : Drawer) : bool := dr_open d && existsb (fun n => nt_id n === id) (feed d).
Definition row (id : string) (d : Drawer) : Swipe := assoc id (dr_rows d) ?? still.
Definition set_row (id : string) (s : Swipe) (d : Drawer) : Drawer :=
  {| dr_open := dr_open d; dr_lastSeenAt := dr_lastSeenAt d; dr_cleared := dr_cleared d; dr_stored := dr_stored d;
     dr_input := dr_input d; dr_rows := (id, s) :: dr_rows d; dr_leaving := dr_leaving d; dr_went := dr_went d |}.
Definition arm (id : string) (d : Drawer) : Drawer :=
  {| dr_open := dr_open d; dr_lastSeenAt := dr_lastSeenAt d; dr_cleared := dr_cleared d; dr_stored := dr_stored d;
     dr_input := dr_input d; dr_rows := dr_rows d; dr_leaving := dr_leaving d ++ [id]; dr_went := dr_went d |}.
Definition set_open (b : bool) (d : Drawer) : Drawer :=
  {| dr_open := b; dr_lastSeenAt := dr_lastSeenAt d; dr_cleared := dr_cleared d; dr_stored := dr_stored d;
     dr_input := dr_input d; dr_rows := dr_rows d; dr_leaving := dr_leaving d; dr_went := dr_went d |}.
Definition set_seen (now : Z) (d : Drawer) : Drawer :=
  {| dr_open := dr_open d; dr_lastSeenAt := now; dr_cleared := dr_cleared d; dr_stored := writeLastSeen now (dr_stored d);
     dr_input := dr_input d; dr_rows := dr_rows d; dr_leaving := dr_leaving d; dr_went := dr_went d |}.
Definition set_cleared (c : ClearedStore) (d : Drawer) : Drawer :=
  {| dr_open := dr_open d; dr_lastSeenAt := dr_lastSeenAt d; dr_cleared := c; dr_stored := dr_stored d;
     dr_input := dr_input d; dr_rows := dr_rows d; dr_leaving := dr_leaving d; dr_went := dr_went d |}.
Definition set_input (i : FeedInput) (d : Drawer) : Drawer :=
  {| dr_open := dr_open d; dr_lastSeenAt := dr_lastSeenAt d; dr_cleared := dr_cleared d; dr_stored := dr_stored d;
     dr_input := i; dr_rows := dr_rows d; dr_leaving := dr_leaving d; dr_went := dr_went d |}.
Definition dismissed (id : string) (d : Drawer) : Drawer :=
  {| dr_open := dr_open d; dr_lastSeenAt := dr_lastSeenAt d; dr_cleared := dr_cleared d; dr_stored := dr_stored d;
     dr_input := dr_input d; dr_rows := dr_rows d; dr_leaving := take_out id (dr_leaving d);
     dr_went := dr_went d |}.
Definition opened_flight (id : string) (d : Drawer) : Drawer :=
  {| dr_open := dr_open d; dr_lastSeenAt := dr_lastSeenAt d; dr_cleared := dr_cleared d; dr_stored := dr_stored d;
     dr_input := dr_input d; dr_rows := dr_rows d; dr_leaving := dr_leaving d; dr_went := dr_went d ++ [id] |}.

(** Rows that are not on screen have no state. *)
Definition unmount_gone (d : Drawer) : Drawer :=
  {| dr_open := dr_open d; dr_lastSeenAt := dr_lastSeenAt d; dr_cleared := dr_cleared d; dr_stored := dr_stored d;
     dr_input := dr_input d; dr_rows := List.filter (fun r => shown r.1 d) (dr_rows d); dr_leaving := dr_leaving d;
     dr_went := dr_went d |}.

Definition openDrawer (now : Z) (d : Drawer) : Drawer := set_open true (set_seen now d).
Definition with_row (id : string) (r : Swipe * bool) (d : Drawer) : Drawer :=
  let d := set_row id r.1 d in if r.2 then arm id d else d.
(** A row's link: a click that is let through opens the flight and closes the drawer. *)
Definition follow (id : string) (d : Drawer) : Drawer :=
  match List.find (fun n => nt_id n === id) (feed d) with
  | Some n => match nt_trackId n with Some t => set_open false (opened_flight t d) | None => d end
  | None => d
  end.

Inductive Event :=
| bell_clicked (now : Z)
| closed_by (how : string)
| clear_all_clicked
| row_down (id : string) (x : num)
| row_moved (id : string) (x : num)
| row_up (id : string)
| row_clicked (id : string)
| clear_clicked (id : string)
| timer_fires (id : string)
| feed_changes (tracks : list Track) (entries : list LogEntry) (categories : Categories) (minLevel : option LogLevel).

Definition handle (d : Drawer) (e : Event) : Drawer :=
  match e with
  | bell_clicked now => if dr_open d then set_open false d else openDrawer now d
  | closed_by _ => set_open false d
  | clear_all_clicked =>
      if dr_open d && (0 <? zlen (feed d)) then set_cleared (clearMany stringify (map nt_id (feed d)) (dr_cleared d)) d else d
  | row_down id x => if shown id d then set_row id (onPointerDown true x (row id d)) d else d
  | row_moved id x => if shown id d then set_row id (onPointerMove x (row id d)) d else d
  | row_up id => if shown id d then with_row id (onPointerUp (row id d)) d else d
  | row_clicked id =>
      if shown id d
      then let r := onClickCapture (row id d) in let d := set_row id r.1 d in if r.2 then follow id d else d
      else d
  | clear_clicked id =>
      if shown id d && match sw_closing (row id d) with None => true | Some _ => false end
      then with_row id (commit 1 (onClickCapture (row id d)).1) d else d
  | timer_fires id =>
      if existsb (String.eqb id) (dr_leaving d) then dismissed id (set_cleared (clear stringify id (dr_cleared d)) d) else d
  | feed_changes tracks entries categories minLevel => set_input (feed_input tracks entries categories minLevel) d
  end.
Definition step (d : Drawer) (e : Event) : Drawer := unmount_gone (handle d e).
Definition run (d : Drawer) (es : list Event) : Drawer := fold_left step es d.

(** Mounted at [now], over what storage holds. *)
Definition mounted (now : Z) (local session : Storage) (i : FeedInput) : Drawer :=
  let seen := readLastSeen parse_number now local in
  {| dr_open := false; dr_lastSeenAt := seen.1; dr_cleared := cleared_new parse session; dr_stored := seen.2;
     dr_input := i; dr_rows := []; dr_leaving := []; dr_went := [] |}.
End Drawer.

(** ** What the drawer does *)
Section Facts.
Context (number_string : num -> string) {C : Collation} (stringify : list string -> string)
  (parse : string -> option (list (option string))) (parse_number : string -> option Z).
#[local] Abbreviation step := (step number_string stringify).
#[local] Abbreviation handle := (handle number_string stringify).
#[local] Abbreviation run := (run number_string stringify).
#[local] Abbreviation shown := (shown number_string).
#[local] Abbreviation feed := (feed number_string).

Lemma assoc_kept (p : string * Swipe -> bool) id (l : list (string * Swipe)) :
  (forall s, p (id, s) = true) -> assoc id (List.filter p l) = assoc id l.
Proof.
  intros Hp. induction l as [|[k v] l IH]; [done|]. cbn.
  destruct (String.eqb_spec k id) as [->|Hne].
  - rewrite Hp. cbn. by rewrite String.eqb_refl.
  - destruct (p (k, v)); cbn; [|done]. destruct (String.eqb_spec k id); [done|exact IH].
Qed.
Lemma assoc_dropped (p : string * Swipe -> bool) id (l : list (string * Swipe)) :
  (forall s, p (id, s) = false) -> assoc id (List.filter p l) = None.
Proof.
  intros Hp. induction l as [|[k v] l IH]; [done|]. cbn.
  destruct (String.eqb_spec k id) as [->|Hne]; [by rewrite Hp|].
  destruct (p (k, v)); cbn; [|done]. destruct (String.eqb_spec k id); [done|exact IH].
Qed.

Lemma row_unmounted id (d : Drawer) :
  row id (unmount_gone number_string d) = if shown id d then row id d else still.
Proof.
  unfold row, unmount_gone. cbn [dr_rows]. destruct (shown id d) eqn:E.
  - by rewrite assoc_kept by (intros; exact E).
  - by rewrite assoc_dropped by (intros; exact E).
Qed.
Lemma row_after_set id id' s (d : Drawer) : row id (set_row id' s d) = if id' === id then s else row id d.
Proof. unfold row. cbn. by destruct (String.eqb_spec id' id). Qed.

Lemma take_out_In id x l : In x (take_out id l) -> In x l.
Proof. induction l as [|y l IH]; [done|]. cbn. destruct (y === id); cbn; tauto. Qed.
Lemma take_out_other id x l : x <> id -> In x l -> In x (take_out id l).
Proof.
  intros Hne. induction l as [|y l IH]; [done|]. cbn. destruct (String.eqb_spec y id) as [->|]; cbn.
  - intros [<-|H]; [congruence|exact H].
  - tauto.
Qed.

(** *** Every leaving row has its timer *)
Definition Armed (d : Drawer) : Prop := forall id, sw_closing (row id d) <> None -> In id (dr_leaving d).

Lemma armed_unmount d : Armed d -> Armed (unmount_gone number_string d).
Proof. intros H id. rewrite row_unmounted. destruct (shown id d); [apply H|done]. Qed.
Lemma armed_set_row id s d : Armed d -> sw_closing s = sw_closing (row id d) -> Armed (set_row id s d).
Proof.
  intros H Hs x. rewrite row_after_set. destruct (String.eqb_spec id x) as [<-|]; [rewrite Hs|]; apply H.
Qed.
Lemma armed_with_row id (r : Swipe * bool) d :
  Armed d -> (r.2 = false -> sw_closing r.1 = sw_closing (row id d)) -> Armed (with_row id r d).
Proof.
  intros H Hr. unfold with_row. destruct r as [s [|]]; cbn [fst snd] in *; [|by apply armed_set_row; auto].
  intros x. unfold row. cbn [arm dr_rows dr_leaving set_row assoc]. rewrite in_app_iff. cbn.
  destruct (String.eqb_spec id x) as [->|]; [tauto|]. intros Hx. left. by apply H.
Qed.
Lemma armed_follow id d : Armed d -> Armed (follow number_string id d).
Proof. unfold follow. intros H. case_match; [|done]. by case_match. Qed.

Lemma clear_has id c : has id (clear stringify id c) = true.
Proof.
  unfold clear, has. destruct (mem id (ids c)) eqn:E; [done|]. cbn. unfold add. rewrite E.
  apply mem_In, trim_ids_last.
Qed.
Lemma cleared_not_shown id d : has id (dr_cleared d) = true -> shown id d = false.
Proof.
  intros H. unfold Drawer.shown. destruct (dr_open d); [|done]. cbn.
  apply not_true_is_false. intros (n&Hn&He%String.eqb_eq)%existsb_exists.
  unfold Drawer.feed in Hn. apply filter_In in Hn as [_ Hn]. by rewrite He, H in Hn.
Qed.

Lemma fired_cleared id d : In id (dr_leaving d) -> has id (dr_cleared (handle d (timer_fires id))) = true.
Proof.
  intros H. cbn [Drawer.handle]. assert (existsb (String.eqb id) (dr_leaving d) = true) as ->.
  { apply existsb_exists. exists id. by rewrite String.eqb_refl. }
  apply clear_has.
Qed.

Lemma armed_step e d : Armed d -> Armed (step d e).
Proof.
  intros H. destruct e as [now|how| |id x|id x|id|id|id|id|ts es cs ml].
  9: {
    intros x Hx. unfold Drawer.step in Hx |- *. rewrite row_unmounted in Hx.
    destruct (shown x (handle d (timer_fires id))) eqn:Es; [|done].
    assert (In x (dr_leaving d)) as Hd.
    { apply H. revert Hx. cbn [Drawer.handle]. by case_match. }
    destruct (decide (x = id)) as [->|Hne].
    - by rewrite (cleared_not_shown id _ (fired_cleared id d Hd)) in Es.
    - cbn [Drawer.handle unmount_gone dr_leaving]. case_match; [|done]. by apply take_out_other. }
  all: apply armed_unmount; cbn [Drawer.handle]; cbv zeta.
  1: by destruct (dr_open d).
  1: done.
  1: by destruct (_ && _).
  1: destruct (shown id d); [|done]; apply armed_set_row; [done|apply down_keeps].
  1: destruct (shown id d); [|done]; apply armed_set_row; [done|apply moved_keeps].
  1: destruct (shown id d); [|done]; apply armed_with_row; [done|apply up_arms].
  1: { destruct (shown id d); [|done].
       assert (Armed (set_row id (onClickCapture (row id d)).1 d)) by (apply armed_set_row; [done|apply click_keeps]).
       destruct (_.2); [by apply armed_follow|done]. }
  1: { destruct (_ && _) eqn:E; [|done]. apply armed_with_row; [done|]. intros Hc. rewrite commit_arms by done.
       apply click_keeps. }
  1: done.
Qed.
Lemma armed_run es d : Armed d -> Armed (run d es).
Proof. revert d. induction es as [|e es IH]; intros d H; [done|]. apply IH, armed_step, H. Qed.
Lemma armed_mounted now local session i : Armed (mounted parse parse_number now local session i).
Proof. by intros id. Qed.

(** *** What arms a timer, what clears *)
Lemma leaving_unmount d : dr_leaving (unmount_gone number_string d) = dr_leaving d.
Proof. done. Qed.
Lemma leaving_follow id d : dr_leaving (follow number_string id d) = dr_leaving d.
Proof. unfold follow. case_match; [|done]. by case_match. Qed.
Lemma cleared_follow id d : dr_cleared (follow number_string id d) = dr_cleared d.
Proof. unfold follow. case_match; [|done]. by case_match. Qed.
Lemma leaving_with_row id r d x : In x (dr_leaving (with_row id r d)) -> In x (dr_leaving d) \/ x = id /\ r.2 = true.
Proof.
  unfold with_row. destruct r as [s [|]]; cbn; [|tauto]. rewrite in_app_iff. cbn. intros [|[<-|[]]]; auto.
Qed.
Lemma cleared_with_row id r d : dr_cleared (with_row id r d) = dr_cleared d.
Proof. unfold with_row. by destruct (r.2). Qed.

Definition swiped_away (id : string) (d : Drawer) : bool :=
  ngt (nabs (sw_dragX (row id d))) DEFAULT_THRESHOLD_PX.

Lemma armed_by id d e :
  In id (dr_leaving (step d e)) ->
  In id (dr_leaving d) \/ shown id d = true /\ (e = clear_clicked id \/ (e = row_up id /\ swiped_away id d = true)).
Proof.
  unfold Drawer.step. rewrite leaving_unmount.
  destruct e as [now|how| |x p|x p|x|x|x|x|ts es cs ml]; cbn [Drawer.handle]; cbv zeta.
  - destruct (dr_open d); auto.
  - auto.
  - destruct (_ && _); auto.
  - destruct (shown x d); auto.
  - destruct (shown x d); auto.
  - destruct (shown x d) eqn:Es; [|auto]. intros [H|[-> H]]%leaving_with_row; [auto|]. right. split; [done|].
    right. split; [done|]. unfold swiped_away. destruct (ngt _ _) eqn:Ef; [done|].
    by rewrite (tap_goes_nowhere _ Ef) in H.
  - destruct (shown x d); [|auto]. destruct (_.2); [rewrite leaving_follow|]; auto.
  - destruct (shown x d) eqn:Es; [|auto]. cbn [andb]. destruct (sw_closing _) eqn:Ec; [auto|].
    intros [H|[-> _]]%leaving_with_row; auto.
  - destruct (existsb _ _); [|auto]. intros H. left. cbn in H. by eapply take_out_In.
  - auto.
Qed.

Lemma has_clearMany id l c : has id (clearMany stringify l c) = true -> has id c = true \/ In id l.
Proof.
  unfold clearMany, has. destruct (forallb _ l); [auto|]. rewrite !mem_In. intros H%trim_ids_In.
  by apply adds_In in H.
Qed.
Lemma has_clear id id' c : has id (clear stringify id' c) = true -> has id c = true \/ id = id'.
Proof.
  unfold clear, has. destruct (mem id' (ids c)) eqn:E; [auto|]. rewrite !mem_In. intros H%trim_ids_In.
  unfold add in H. rewrite E in H. apply in_app_iff in H as [|[<-|[]]]; auto.
Qed.

Lemma cleared_by id d e :
  has id (dr_cleared (step d e)) = true ->
  has id (dr_cleared d) = true \/ (e = clear_all_clicked /\ shown id d = true) \/
  (e = timer_fires id /\ In id (dr_leaving d)).
Proof.
  unfold Drawer.step. cbn [unmount_gone dr_cleared].
  destruct e as [now|how| |x p|x p|x|x|x|x|ts es cs ml]; cbn [Drawer.handle]; cbv zeta.
  - destruct (dr_open d); auto.
  - auto.
  - destruct (dr_open d) eqn:Eo; [|auto]. cbn [andb]. destruct (0 <? _); [|auto]. cbn [set_cleared dr_cleared].
    intros [H|H]%has_clearMany; [auto|]. right. left. split; [done|]. unfold Drawer.shown. rewrite Eo. cbn.
    apply in_map_iff in H as (n&<-&Hn). apply existsb_exists. exists n. by rewrite String.eqb_refl.
  - destruct (shown x d); auto.
  - destruct (shown x d); auto.
  - destruct (shown x d); [rewrite cleared_with_row|]; auto.
  - destruct (shown x d); [|auto]. destruct (_.2); [rewrite cleared_follow|]; auto.
  - destruct (_ && _); [rewrite cleared_with_row|]; auto.
  - destruct (existsb _ _) eqn:E; [|auto]. cbn [dismissed set_cleared dr_cleared].
    intros [H| ->]%has_clear; [auto|]. right. right. split; [done|].
    apply existsb_exists in E as (y&Hy&->%String.eqb_eq). done.
  - auto.
Qed.

(** *** The rows, and the count *)
Definition Limited (d : Drawer) : Prop := fi_limit (dr_input d) = RENDER_LIMIT.
Lemma limited_step d e : Limited d -> Limited (step d e).
Proof.
  unfold Limited, Drawer.step, unmount_gone. cbn [dr_input]. intros H.
  destruct e as [now|how| |x p|x p|x|x|x|x|ts es cs ml]; cbn [Drawer.handle]; cbv zeta; try done;
    repeat case_match; try done; unfold with_row, follow; repeat case_match; done.
Qed.
Lemma limited_run es d : Limited d -> Limited (run d es).
Proof. revert d. induction es as [|e es IH]; intros d H; [done|]. apply IH, limited_step, H. Qed.

Lemma sorted_filter (p : Notification -> bool) l :
  StronglySorted (fun a b => byNewestFirst a b = true) l ->
  StronglySorted (fun a b => byNewestFirst a b = true) (List.filter p l).
Proof.
  induction 1 as [|x l Hs IH Hall]; cbn; [constructor|]. destruct (p x); [|done]. constructor; [done|].
  rewrite List.Forall_forall in *. intros y [Hy _]%filter_In. by apply Hall.
Qed.

Lemma rows_of_feed {HC : CollationLaws C} d :
  Limited d -> List.Forall timed (merged number_string (dr_input d)) ->
  StronglySorted (fun a b => byNewestFirst a b = true) (feed d) /\
  (forall n, In n (feed d) -> In n (merged number_string (dr_input d)) /\ has (nt_id n) (dr_cleared d) = false) /\
  (forall n, In n (merged number_string (dr_input d)) ->
     In n (feed d) \/ has (nt_id n) (dr_cleared d) = true \/
     zlen (rawFeed number_string d) = 200 /\ forall r, In r (rawFeed number_string d) -> byNewestFirst r n = true).
Proof.
  intros Hl Ht. destruct (feed_is_newest number_string C HC (dr_input d) Ht) as ((rest&Hp&Hrest)&Hs&Hlen&_).
  split; [by apply sorted_filter|]. split.
  - intros n [Hn Hc]%filter_In. apply negb_true_iff in Hc. split; [|done].
    apply (Permutation_in _ Hp), in_app_iff. by left.
  - intros n Hn. pose proof Hn as Hn'. apply (Permutation_in _ (Permutation_sym Hp)), in_app_iff in Hn'.
    destruct Hn' as [Hn'|Hn'].
    + destruct (has (nt_id n) (dr_cleared d)) eqn:E; [auto|]. left. apply filter_In. by rewrite E.
    + right. right. split; [|intros r Hr; by apply Hrest].
      apply Permutation_length in Hp. rewrite length_app in Hp. unfold Limited, RENDER_LIMIT in Hl.
      destruct rest as [|x rest]; [done|]. cbn [List.length] in Hp. unfold zlen, rawFeed. lia.
Qed.

(** Opening moves the mark to now: what the badge still counts is stamped later. *)
Lemma unread_after_opening d now :
  dr_open d = false ->
  let d' := step d (bell_clicked now) in
  dr_open d' = true /\ feed d' = feed d /\ unread number_string d' = countUnread (feed d) now /\
  dr_stored d' = writeLastSeen now (dr_stored d) /\
  (0 < unread number_string d' -> exists n t, In n (feed d) /\ time_of n = Some t /\ now < t).
Proof.
  intros Ho. cbv zeta. unfold Drawer.step. cbn [Drawer.handle]. rewrite Ho. repeat split.
  change (0 < countUnread (feed d) now -> exists n t, In n (feed d) /\ time_of n = Some t /\ now < t).
  unfold countUnread. destruct (List.filter _ (feed d)) as [|n l] eqn:E; [done|]. intros _.
  assert (In n (List.filter (fun n =>
    (match time_of n with Some t => now <? t | None => false end) &&
    (bool_decide (nt_category n = cat_drone) || (LEVEL_RANK info <? LEVEL_RANK (nt_level n)))) (feed d))) as Hn
    by (rewrite E; by left).
  apply filter_In in Hn as [Hn [Ht _]%andb_prop]. exists n. destruct (time_of n) as [t|]; [|done].
  exists t. split; [done|]. split; [done|]. by apply Z.ltb_lt.
Qed.

(** C21. The drawer in any run of its events.  While every event of the console has
    a time that can be read, the rows are newest first, admitted by the switches
    and not cleared, and an admitted event that is not a row was cleared, or lost
    to the newest two hundred: the cap is taken before what was cleared is left
    out.  A notification becomes cleared only by "Clear all" while it is listed or
    by its timer, and a timer starts only at that row's own Clear button or at a
    release more than 88 pixels from where the drag began.  A row on its way out
    always has its timer, and the timer takes it off the list.  Opening stores the
    moment and leaves the rows; the badge then counts only the rows stamped later
    than that moment, which the two clocks behind the stamps can leave. *)
Theorem drawer_lists_what_is_new (HC : CollationLaws C) (now : Z) (local session : Storage)
  (tracks : list Track) (entries : list LogEntry) (categories : Categories) (minLevel : option LogLevel)
  (es : list Event) :
  let d := run (mounted parse parse_number now local session (feed_input tracks entries categories minLevel)) es in
  (List.Forall timed (merged number_string (dr_input d)) ->
     StronglySorted (fun a b => byNewestFirst a b = true) (feed d) /\
     (forall n, In n (feed d) -> In n (merged number_string (dr_input d)) /\ has (nt_id n) (dr_cleared d) = false) /\
     (forall n, In n (merged number_string (dr_input d)) ->
        In n (feed d) \/ has (nt_id n) (dr_cleared d) = true \/
        zlen (rawFeed number_string d) = 200 /\ forall r, In r (rawFeed number_string d) -> byNewestFirst r n = true)) /\
  (forall e id, has id (dr_cleared (step d e)) = true ->
     has id (dr_cleared d) = true \/ (e = clear_all_clicked /\ shown id d = true) \/
     (e = timer_fires id /\ In id (dr_leaving d))) /\
  (forall e id, In id (dr_leaving (step d e)) ->
     In id (dr_leaving d) \/ shown id d = true /\ (e = clear_clicked id \/ (e = row_up id /\ swiped_away id d = true))) /\
  (forall id, sw_closing (row id d) <> None ->
     In id (dr_leaving d) /\ has id (dr_cleared (step d (timer_fires id))) = true /\
     shown id (step d (timer_fires id)) = false) /\
  (forall now, dr_open d = false ->
     let d' := step d (bell_clicked now) in
     dr_open d' = true /\ feed d' = feed d /\ unread number_string d' = countUnread (feed d) now /\
     dr_stored d' = writeLastSeen now (dr_stored d) /\
     (0 < unread number_string d' -> exists n t, In n (feed d) /\ time_of n = Some t /\ now < t)).
Proof.
  intros d. assert (Limited d) as Hl by (by apply limited_run).
  assert (Armed d) as Ha by (apply armed_run, armed_mounted).
  repeat split_and; try intros; try (by apply rows_of_feed); try (by apply cleared_by); try (by apply armed_by).
  - match goal with H : sw_closing _ <> None |- _ => pose proof (Ha _ H) as Hin end.
    split; [done|]. pose proof (fired_cleared id d Hin). split; [done|]. by apply cleared_not_shown.
  - by apply unread_after_opening.
Qed.
End Facts.

(** ** Examples *)
Section Examples.
#[local] Existing Instance code_units.

Definition at_the_bell (categories : Categories) : Drawer :=
  mounted sep_parse (fun _ => None) 1789444087000 empty_storage empty_storage
    (feed_input [] [an_entry 1 "2026-09-15T03:48:07.250Z" warn; an_entry 2 "2026-09-15T03:48:09.000Z" error]
       categories None).
#[local] Abbreviation after := (run (fun _ => "") sep_stringify).

(** Opened, one row swiped away: released at 89 pixels, and gone when its timer fires. *)
Definition a_swipe : list Event :=
  [bell_clicked 1789444089500; row_down "log:2" (of_Z 300); row_moved "log:2" (of_Z 211); row_up "log:2"].
Lemma a_swipe_clears :
  let d := at_the_bell None in
  (unread (fun _ => "") d, bell_badge (fun _ => "") d) = (2, Some "2") /\
  map nt_id (feed (fun _ => "") (after d a_swipe)) = ["log:2"; "log:1"] /\
  dr_leaving (after d a_swipe) = ["log:2"] /\
  map nt_id (feed (fun _ => "") (after d (a_swipe ++ [timer_fires "log:2"]))) = ["log:1"].
Proof. vm_compute. done. Qed.

Lemma drawer_lists_what_is_new_witness :
  shown (fun _ => "") "log:2" (after (at_the_bell None) (a_swipe ++ [timer_fires "log:2"])) = false.
Proof.
  destruct (drawer_lists_what_is_new (fun _ => "") (C := code_units) sep_stringify sep_parse (fun _ => None)
    code_units_laws 1789444087000 empty_storage empty_storage []
    [an_entry 1 "2026-09-15T03:48:07.250Z" warn; an_entry 2 "2026-09-15T03:48:09.000Z" error]
    None None a_swipe) as (_&_&_&H&_).
  apply (H "log:2"). vm_compute. discriminate.
Defined.

(** A switch that was never touched has no key: with one category switched off
    and seven on, an empty drawer says that every category is off. *)
Lemma one_switch_off_reads_as_all_off :
  let categories : Categories := Some (fun c => if decide (c = cat_api) then Some false else None) in
  let d := mounted sep_parse (fun _ => None) 1789444087000 empty_storage empty_storage (feed_input [] [] categories None) in
  map (isCategoryEnabled categories) NOTIFY_CATEGORIES = [true; true; true; true; true; true; false; true] /\
  emptyFeed (fun _ => "") d = Some all_switched_off.
Proof. vm_compute. done. Qed.
End Examples.
End Drawer.
