(* ===== verification/TwoClicks.v ===== *)
(** * TwoClicks: what a guarded control promises

    Deleting an account, ending a session and restarting a sensor sit behind a
    second click.  The contract is an automaton over the operator's clicks on one
    item; a page that refines it sends no more requests for the item than the
    automaton allows.  [Access] and [SensorsPage] discharge it. *)
From Stdlib Require Import ZArith Bool List Lia.
From stdpp Require Import base option list.
From S2P Require Import Prelude.

(** ** The contract *)

Inductive Click := asks | withdraws | confirms | elsewhere.

(** An item asked for, and the requests allowed so far: a confirmation counts once per ask. *)
Record Guard := { gd_asked : bool; gd_allowed : Z }.
Definition untouched : Guard := {| gd_asked := false; gd_allowed := 0 |}.
Definition click (g : Guard) (k : Click) : Guard :=
  match k with
  | asks => {| gd_asked := true; gd_allowed := gd_allowed g |}
  | withdraws => {| gd_asked := false; gd_allowed := gd_allowed g |}
  | confirms =>
      if gd_asked g then {| gd_asked := false; gd_allowed := gd_allowed g + 1 |} else g
  | elsewhere => g
  end.
Definition confirmations (ks : list Click) : Z := gd_allowed (fold_left click ks untouched).

(** ** A page that keeps it *)

(** [enabled] says which controls are on screen and not disabled: a click on any
    other is no click.  [armed] is the second control's presence, [sent] the
    requests sent for the item. *)
Class TwoClick {S E : Type} (enabled : S -> E -> bool) (handle : S -> E -> S)
  (kind : E -> Click) (armed : S -> bool) (sent : S -> Z) : Prop := {
  armed_by_asking s e : enabled s e = true -> armed (handle s e) = true ->
    kind e = asks \/ (armed s = true /\ kind e = elsewhere);
  sent_by_confirming s e : enabled s e = true ->
    sent (handle s e) = sent s \/ (sent (handle s e) = sent s + 1 /\ armed s = true /\ kind e = confirms)
}.

Section Refinement.
Context {S E : Type} (enabled : S -> E -> bool) (handle : S -> E -> S)
  (kind : E -> Click) (armed : S -> bool) (sent : S -> Z).

Definition guarded (s : S) (e : E) : S := if enabled s e then handle s e else s.
Definition guarded_run (s : S) (es : list E) : S := fold_left guarded es s.

(** The events of a run that took place. *)
Fixpoint happened (s : S) (es : list E) : list E :=
  match es with
  | [] => []
  | e :: es => (if enabled s e then [e] else []) ++ happened (guarded s e) es
  end.

(** A count kept by every step is kept by a run. *)
Lemma guarded_counts (measure : S -> Z) (count : list E -> Z) :
  count [] = 0 -> (forall a b, count (a ++ b) = count a + count b) ->
  (forall s e, enabled s e = true -> measure (handle s e) = measure s + count [e]) ->
  forall es s, measure (guarded_run s es) = measure s + count (happened s es).
Proof.
  intros H0 Happ Hstep. induction es as [|e es IH]; intros s; cbn [happened]; [cbn; lia|].
  change (guarded_run s (e :: es)) with (guarded_run (guarded s e) es). rewrite IH, Happ.
  unfold guarded. destruct (enabled s e) eqn:He; [rewrite (Hstep s e He)|]; lia.
Qed.

(** The clicks of a run. *)
Fixpoint clicks (s : S) (es : list E) : list Click :=
  match es with
  | [] => []
  | e :: es => (if enabled s e then kind e else elsewhere) :: clicks (guarded s e) es
  end.

Context {HT : TwoClick enabled handle kind armed sent}.

(** The page is simulated by the automaton. *)
Definition simulated (start : Z) (s : S) (g : Guard) : Prop :=
  (armed s = true -> gd_asked g = true) /\ sent s - start <= gd_allowed g.

Lemma simulated_step start s e g :
  simulated start s g -> simulated start (guarded s e) (click g (if enabled s e then kind e else elsewhere)).
Proof.
  intros [Ha Hs]. unfold guarded. destruct (enabled s e) eqn:Ee; [|done].
  pose proof (armed_by_asking s e Ee) as Hask. pose proof (sent_by_confirming s e Ee) as Hsent.
  split.
  - intros H. destruct (Hask H) as [->|[Hx ->]]; [done|]. by apply Ha.
  - destruct Hsent as [->|(->&Hx&->)].
    + destruct (kind e); cbn; try done. destruct (gd_asked g); cbn; lia.
    + cbn. rewrite (Ha Hx). cbn. lia.
Qed.

Lemma simulated_run start es s g :
  simulated start s g -> simulated start (guarded_run s es) (fold_left click (clicks s es) g).
Proof.
  revert s g. induction es as [|e es IH]; intros s g H; [done|]. apply IH, simulated_step, H.
Qed.

Lemma sends_are_confirmed s es :
  armed s = false -> sent (guarded_run s es) - sent s <= confirmations (clicks s es).
Proof.
  intros Ha. apply (simulated_run (sent s) es s untouched). split; [by rewrite Ha|cbn; lia].
Qed.
End Refinement.

(** Each allowed request has an ask and a confirmation of its own. *)
Lemma confirmations_bound ks :
  0 <= confirmations ks /\
  confirmations ks <= zlen (List.filter (fun k => match k with asks => true | _ => false end) ks) /\
  confirmations ks <= zlen (List.filter (fun k => match k with confirms => true | _ => false end) ks).
Proof.
  unfold confirmations.
  assert (forall ks g, gd_allowed g <= gd_allowed (fold_left click ks g) /\
    gd_allowed (fold_left click ks g) <=
      gd_allowed g + (if gd_asked g then 1 else 0) + zlen (List.filter (fun k => match k with asks => true | _ => false end) ks) /\
    gd_allowed (fold_left click ks g) <=
      gd_allowed g + zlen (List.filter (fun k => match k with confirms => true | _ => false end) ks)) as H.
  { clear. induction ks as [|k ks IH]; intros g; cbn [fold_left List.filter]; [unfold zlen; destruct (gd_asked g); cbn; lia|].
    specialize (IH (click g k)). destruct k; cbn [click gd_asked gd_allowed] in IH |- *.
    all: destruct (gd_asked g) eqn:Eg; cbn [gd_asked gd_allowed] in IH |- *; rewrite ?Eg in IH; unfold zlen in *; cbn [List.length]; lia. }
  specialize (H ks untouched). cbn in H. lia.
Qed.
