(* ===== verification/Access.v ===== *)
(** * Access: who is signed in, and who may be

    [features/auth/auth-gate.tsx], [use-auth.ts], [login-screen.tsx],
    [setup-screen.tsx] under the shell of [components/layout/app-shell.tsx] and
    the error page of [routes/__root.tsx]; and the accounts page,
    [features/auth/admin-users.tsx] in [routes/admin.tsx]. *)
From Stdlib Require Import ZArith Bool String Ascii List Lia.
From stdpp Require Import base option list strings pretty.
From S2P Require Import Prelude JsNumber JsString ApiTypes Transport TwoClicks.

(** ** types.ts: accounts *)

Record AuthUser := {
  au_user_id : string;
  au_username : string;
  au_display_name : option string;
  au_role : string;
  au_disabled : bool;
  au_created_at : string;
  au_last_login_at : option string;
  au_issuer : option string
}.
Record SsoProvider := { sp_id : string; sp_label : string }.
Record AuthMe := {
  am_authenticated : bool;
  am_auth_enabled : bool;
  am_setup_required : bool;
  am_user : option AuthUser;
  am_providers : option (list SsoProvider)
}.
Record AuthSession := {
  as_session_id : string;
  as_username : string;
  as_last_seen : string;
  as_user_agent : option string;
  as_ip : option string;
  as_current : bool
}.

(** What a query shows its component: nothing yet, a failure (with the answer it
    had before, if any), or an answer. *)
Inductive QueryResult (A : Type) :=
| loading
| errored (data : option A) (error : Failure) (isFetching : bool)
| loaded (data : A).
Arguments loading {A}.
Arguments errored {A}.
Arguments loaded {A}.
Definition query_data {A} (q : QueryResult A) : option A :=
  match q with loading => None | errored data _ _ => data | loaded data => Some data end.

(** A mutation as its component sees it. *)
Record Mutation := { mt_pending : bool; mt_error : option Failure }.
Definition idle : Mutation := {| mt_pending := false; mt_error := None |}.
Definition mutating : Mutation := {| mt_pending := true; mt_error := None |}.
Definition settled {A} (r : A + Failure) : Mutation :=
  {| mt_pending := false; mt_error := match r with inl _ => None | inr e => Some e end |}.
(** "[x.error instanceof ApiError ? x.error : null]" *)
Definition api_error (m : Mutation) : option ApiError :=
  match mt_error m with Some (failed_api e) => Some e | _ => None end.
Definition has_code (code : string) (e : ApiError) : bool :=
  match ae_code e with Some (JStr c) => c === code | _ => false end.

(** ** The gate *)
Module Gate.

Inductive Screen :=
| skeleton
| not_answering (disabled : bool) (label : string)
| setup_screen
| login_screen (providers : option (list SsoProvider))
| app.

Definition AuthGate (me : QueryResult AuthMe) : Screen :=
  match me with
  | loading => skeleton
  | errored None _ isFetching => not_answering isFetching (if isFetching then "Trying…" else "Try again now")
  | errored (Some data) _ _ | loaded data =>
      if am_auth_enabled data && am_setup_required data then setup_screen
      else if am_auth_enabled data && negb (am_authenticated data) then login_screen (am_providers data)
      else app
  end.

Definition useAuth (me : QueryResult AuthMe) : option AuthMe := query_data me.
Definition useHasRole (me : QueryResult AuthMe) (need : Role) : bool :=
  match useAuth me with
  | None => false
  | Some me =>
      if negb (am_auth_enabled me) then true else roleAtLeast (au_role <$> am_user me) (Role_string need)
  end.

(** The route under the shell: its loader runs, ended, or failed. *)
Inductive Page := page_loading | page_ready | page_failed (error : Failure).
Inductive Content := no_content | page_content | waiting | error_box (error : Failure) (no_answer : bool).
Definition RouteError (error : Failure) : Content :=
  match error with
  | failed_api e => if ae_status e =? 401 then no_content else error_box error (ae_status e =? 0)
  | failed_host _ => error_box error false
  end.
Definition routed (p : Page) : Content :=
  match p with page_loading => waiting | page_ready => page_content | page_failed e => RouteError e end.

Inductive View := gate (s : Screen) | shell (c : Content).
Definition AppShell (me : QueryResult AuthMe) (c : Content) : View :=
  match AuthGate me with app => shell c | s => gate s end.

(** ** The forms *)

Definition MIN_PASSWORD : Z := 12.
Record Setup := {
  st_username : string; st_displayName : string; st_password : string; st_confirm : string; st_mutation : Mutation }.
Definition setup_opened : Setup :=
  {| st_username := ""; st_displayName := ""; st_password := ""; st_confirm := ""; st_mutation := idle |}.

Definition mismatch (s : Setup) : bool := (0 <? slen (st_confirm s)) && (st_confirm s !== st_password s).
Definition tooShort (s : Setup) : bool := (0 <? slen (st_password s)) && (slen (st_password s) <? MIN_PASSWORD).
Definition ready (s : Setup) : bool :=
  (2 <=? slen (st_username s)) && (MIN_PASSWORD <=? slen (st_password s)) && (st_confirm s === st_password s).
Definition needed (s : Setup) : option string :=
  if tooShort s
  then Some (pretty (MIN_PASSWORD - slen (st_password s)) +:+ " more character" +:+
             (if MIN_PASSWORD - slen (st_password s) =? 1 then "" else "s") +:+
             " needed. Length is the only rule — no symbol or capital is required.")
  else None.
Definition setup_body (s : Setup) : json :=
  JObj [("username", JStr (st_username s)); ("display_name", JStr (st_displayName s)); ("password", JStr (st_password s))].
Definition login_body (username password : string) : json :=
  JObj [("username", JStr username); ("password", JStr password)].

Inductive Alert := alert (tone title : string) (message : json).
Definition login_alert (m : Mutation) : option Alert :=
  match api_error m with
  | Some e => Some (alert (if has_code "forbidden" e then "warn" else "error")
                          (if has_code "forbidden" e then "Account unavailable" else "Sign-in failed") (ae_message e))
  | None => None
  end.

(** ** The console before and after signing in *)

(** [cs_sent] is what the forms sent, [cs_stale] how often the whole cache was
    invalidated; the lost requests are those whose form left the screen before
    their answer. *)
Record Console := {
  cs_me : QueryResult AuthMe;
  cs_page : Page;
  cs_login : Mutation;
  cs_setup : Setup;
  cs_sent : list Request;
  cs_stale : Z;
  cs_lostLogins : nat;
  cs_lostSetups : nat
}.
Definition view (c : Console) : View := AppShell (cs_me c) (routed (cs_page c)).
Definition on_login (c : Console) : bool := match AuthGate (cs_me c) with login_screen _ => true | _ => false end.
Definition on_setup (c : Console) : bool := match AuthGate (cs_me c) with setup_screen => true | _ => false end.

Definition set_me (me : QueryResult AuthMe) (c : Console) : Console :=
  {| cs_me := me; cs_page := cs_page c; cs_login := cs_login c; cs_setup := cs_setup c; cs_sent := cs_sent c;
     cs_stale := cs_stale c; cs_lostLogins := cs_lostLogins c; cs_lostSetups := cs_lostSetups c |}.
Definition set_page (p : Page) (c : Console) : Console :=
  {| cs_me := cs_me c; cs_page := p; cs_login := cs_login c; cs_setup := cs_setup c; cs_sent := cs_sent c;
     cs_stale := cs_stale c; cs_lostLogins := cs_lostLogins c; cs_lostSetups := cs_lostSetups c |}.
Definition set_login (m : Mutation) (c : Console) : Console :=
  {| cs_me := cs_me c; cs_page := cs_page c; cs_login := m; cs_setup := cs_setup c; cs_sent := cs_sent c;
     cs_stale := cs_stale c; cs_lostLogins := cs_lostLogins c; cs_lostSetups := cs_lostSetups c |}.
Definition set_setup (s : Setup) (c : Console) : Console :=
  {| cs_me := cs_me c; cs_page := cs_page c; cs_login := cs_login c; cs_setup := s; cs_sent := cs_sent c;
     cs_stale := cs_stale c; cs_lostLogins := cs_lostLogins c; cs_lostSetups := cs_lostSetups c |}.
Definition send_request (r : Request) (c : Console) : Console :=
  {| cs_me := cs_me c; cs_page := cs_page c; cs_login := cs_login c; cs_setup := cs_setup c; cs_sent := cs_sent c ++ [r];
     cs_stale := cs_stale c; cs_lostLogins := cs_lostLogins c; cs_lostSetups := cs_lostSetups c |}.
Definition invalidateQueries (c : Console) : Console :=
  {| cs_me := cs_me c; cs_page := cs_page c; cs_login := cs_login c; cs_setup := cs_setup c; cs_sent := cs_sent c;
     cs_stale := cs_stale c + 1; cs_lostLogins := cs_lostLogins c; cs_lostSetups := cs_lostSetups c |}.
Definition with_mutation (m : Mutation) (s : Setup) : Setup :=
  {| st_username := st_username s; st_displayName := st_displayName s; st_password := st_password s;
     st_confirm := st_confirm s; st_mutation := m |}.

Definition set_lost (logins setups : nat) (c : Console) : Console :=
  {| cs_me := cs_me c; cs_page := cs_page c; cs_login := cs_login c; cs_setup := cs_setup c; cs_sent := cs_sent c;
     cs_stale := cs_stale c; cs_lostLogins := logins; cs_lostSetups := setups |}.

(** A form that is not on screen has no state. *)
Definition unmount_forms (c : Console) : Console :=
  let c := if on_login c then c
           else set_lost (cs_lostLogins c + (if mt_pending (cs_login c) then 1 else 0)) (cs_lostSetups c) (set_login idle c) in
  if on_setup c then c
  else set_lost (cs_lostLogins c) (cs_lostSetups c + (if mt_pending (st_mutation (cs_setup c)) then 1 else 0))
         (set_setup setup_opened c).

Inductive Field := f_username | f_displayName | f_password | f_confirm.
Definition typed (f : Field) (v : string) (s : Setup) : Setup :=
  {| st_username := if f is f_username then v else st_username s;
     st_displayName := if f is f_displayName then v else st_displayName s;
     st_password := if f is f_password then v else st_password s;
     st_confirm := if f is f_confirm then v else st_confirm s;
     st_mutation := st_mutation s |}.

Inductive Event :=
| me_is (r : QueryResult AuthMe)
| navigated
| loader_ended (r : option Failure)
| login_submitted (username password : string)
| login_settled (r : AuthMe + Failure)
| setup_typed (f : Field) (v : string)
| setup_submitted
| setup_settled (r : AuthMe + Failure)
| lost_login_settled (r : AuthMe + Failure)
| lost_setup_settled (r : AuthMe + Failure).

Definition logged_in (me : AuthMe) (c : Console) : Console :=
  set_page page_loading (invalidateQueries (set_me (loaded me) c)).
Definition set_up (me : AuthMe) (c : Console) : Console := invalidateQueries (set_me (loaded me) c).

(** A submit reaches its handler only with the button enabled. *)
Definition handle (c : Console) (e : Event) : Console :=
  match e with
  | me_is r => set_me r c
  | navigated => set_page page_loading c
  | loader_ended r =>
      match cs_page c with
      | page_loading => set_page (match r with None => page_ready | Some e => page_failed e end) c
      | _ => c
      end
  | login_submitted username password =>
      if on_login c && negb (mt_pending (cs_login c))
      then if (username === "") || (password === "") then c
           else send_request (Api.login (login_body username password)) (set_login mutating c)
      else c
  | login_settled r =>
      if mt_pending (cs_login c)
      then let c := set_login (settled r) c in
           match r with
           | inl me => logged_in me c
           | inr _ => c
           end
      else c
  | setup_typed f v => if on_setup c then set_setup (typed f v (cs_setup c)) c else c
  | setup_submitted =>
      if on_setup c && ready (cs_setup c) && negb (mt_pending (st_mutation (cs_setup c)))
      then send_request (Api.setupFirstAdmin (setup_body (cs_setup c)))
             (set_setup (with_mutation mutating (cs_setup c)) c)
      else c
  | setup_settled r =>
      if mt_pending (st_mutation (cs_setup c))
      then let c := set_setup (with_mutation (settled r) (cs_setup c)) c in
           match r with inl me => set_up me c | inr _ => c end
      else c
  | lost_login_settled r =>
      match cs_lostLogins c with
      | S n => let c := set_lost n (cs_lostSetups c) c in match r with inl me => logged_in me c | inr _ => c end
      | O => c
      end
  | lost_setup_settled r =>
      match cs_lostSetups c with
      | S n => let c := set_lost (cs_lostLogins c) n c in match r with inl me => set_up me c | inr _ => c end
      | O => c
      end
  end.
Definition step (c : Console) (e : Event) : Console := unmount_forms (handle c e).
Definition run (c : Console) (es : list Event) : Console := fold_left step es c.
Definition started : Console :=
  {| cs_me := loading; cs_page := page_loading; cs_login := idle; cs_setup := setup_opened; cs_sent := []; cs_stale := 0;
     cs_lostLogins := 0; cs_lostSetups := 0 |}.

(** *** Facts *)

Definition admitted (me : QueryResult AuthMe) : Prop :=
  exists d, query_data me = Some d /\
    (am_auth_enabled d = false \/ (am_authenticated d = true /\ am_setup_required d = false)).

Lemma app_admitted me : AuthGate me = app <-> admitted me.
Proof.
  unfold admitted. destruct me as [|[d|] e f|d]; cbn; split; try done; try (by intros (d'&[=]&_)).
  1, 3: intros H; exists d; split; [done|];
    destruct (am_auth_enabled d), (am_setup_required d), (am_authenticated d); cbn in H; tauto || done.
  all: intros (d'&[= <-]&H); destruct (am_auth_enabled d), (am_setup_required d), (am_authenticated d);
    cbn; intuition congruence.
Qed.
Lemma shell_app c x : view c = shell x -> AuthGate (cs_me c) = app /\ x = routed (cs_page c).
Proof. unfold view, AppShell. destruct (AuthGate (cs_me c)); intros [=]; done. Qed.

(** What a form may send. *)
Definition proper (r : Request) : Prop :=
  (exists u p, u <> "" /\ p <> "" /\ r = Api.login (login_body u p)) \/
  (exists s, 2 <= slen (st_username s) /\ 12 <= slen (st_password s) /\ st_confirm s = st_password s /\
     r = Api.setupFirstAdmin (setup_body s)).

Lemma unmount_me c : cs_me (unmount_forms c) = cs_me c.
Proof. unfold unmount_forms. by destruct (on_login c), (on_setup _). Qed.
Lemma unmount_page c : cs_page (unmount_forms c) = cs_page c.
Proof. unfold unmount_forms. by destruct (on_login c), (on_setup _). Qed.
Lemma unmount_sent c : cs_sent (unmount_forms c) = cs_sent c.
Proof. unfold unmount_forms. by destruct (on_login c), (on_setup _). Qed.
Lemma unmount_view c : view (unmount_forms c) = view c.
Proof. unfold view. by rewrite unmount_me, unmount_page. Qed.

Lemma ready_spec s : ready s = true ->
  2 <= slen (st_username s) /\ 12 <= slen (st_password s) /\ st_confirm s = st_password s.
Proof. unfold ready, MIN_PASSWORD. rewrite !andb_true_iff, !Z.leb_le, String.eqb_eq. tauto. Qed.

(** What an event makes a form send: the login form, on its screen, the name and
    password submitted; the setup form, on its own, what was typed into it. *)
Definition sends (c : Console) (e : Event) (r : Request) : Prop :=
  (exists u p ps, e = login_submitted u p /\ view c = gate (login_screen ps) /\ u <> "" /\ p <> "" /\
     r = Api.login (login_body u p)) \/
  (e = setup_submitted /\ view c = gate setup_screen /\
     2 <= slen (st_username (cs_setup c)) /\ 12 <= slen (st_password (cs_setup c)) /\
     st_confirm (cs_setup c) = st_password (cs_setup c) /\ r = Api.setupFirstAdmin (setup_body (cs_setup c))).

Lemma sends_proper c e r : sends c e r -> proper r.
Proof.
  intros [(u & p & ps & _ & _ & ? & ? & ->)|(_ & _ & ? & ? & ? & ->)]; [left; eauto|right; eauto].
Qed.

Lemma sent_from_its_screen c e :
  cs_sent (step c e) = cs_sent c \/ exists r, cs_sent (step c e) = cs_sent c ++ [r] /\ sends c e r.
Proof.
  unfold step. rewrite unmount_sent. destruct e; cbn [handle]; auto.
  - destruct (cs_page c); auto.
  - unfold sends, on_login, view, AppShell. destruct (AuthGate (cs_me c)) as [| | |ps|]; cbn [andb]; auto.
    destruct (negb _); auto. destruct (String.eqb_spec username ""), (String.eqb_spec password ""); cbn [orb]; auto.
    right. eexists. split; [done|]. left. eauto 10.
  - destruct (mt_pending _); [|auto]. destruct r; auto.
  - destruct (on_setup c); auto.
  - unfold sends, on_setup, view, AppShell. destruct (AuthGate (cs_me c)); cbn [andb]; auto.
    destruct (ready (cs_setup c)) eqn:Er; [|auto]. destruct (negb _); [|auto]. cbn [andb].
    right. eexists. split; [done|]. right. pose proof (ready_spec _ Er). tauto.
  - destruct (mt_pending _); [|auto]. destruct r; auto.
  - destruct (cs_lostLogins c); [auto|]. destruct r; auto.
  - destruct (cs_lostSetups c); [auto|]. destruct r; auto.
Qed.
Lemma sent_proper es c : Forall proper (cs_sent c) -> Forall proper (cs_sent (run c es)).
Proof.
  revert c. induction es as [|e es IH]; intros c H; [done|]. apply IH.
  destruct (sent_from_its_screen c e) as [->|(r&->&Hr%sends_proper)]; [done|]. apply Forall_app. auto.
Qed.

(** An error page is the failure of a loader that just ran. *)
Lemma error_box_source c e err b :
  view (step c e) = shell (error_box err b) ->
  cs_page c = page_failed err \/ (e = loader_ended (Some err) /\ cs_page c = page_loading).
Proof.
  unfold step. rewrite unmount_view. intros [_ Hx]%shell_app. revert Hx.
  assert (forall p, error_box err b = routed p -> p = page_failed err) as Hrouted.
  { intros [| |[f|f]]; cbn; try done; [|by intros [=->]]. by destruct (ae_status f =? 401); intros [=->]. }
  destruct e; cbn [handle]; try (intros ?%Hrouted; auto; done).
  - destruct (cs_page c) eqn:Ep; try (intros H%Hrouted; rewrite Ep in H; auto; done).
    destruct r as [f|]; intros H%Hrouted; cbn in H; [injection H as ->|]; auto; done.
  - destruct (_ && _); [|intros Hp%Hrouted; auto]. by destruct (_ || _); intros Hp%Hrouted; auto.
  - destruct (mt_pending _); [|intros Hp%Hrouted; auto]. cbv zeta. by destruct r; intros Hp%Hrouted; auto.
  - by destruct (on_setup c); intros Hp%Hrouted; auto.
  - by destruct (_ && _); intros Hp%Hrouted; auto.
  - destruct (mt_pending _); [|intros Hp%Hrouted; auto]. cbv zeta. by destruct r; intros Hp%Hrouted; auto.
  - destruct (cs_lostLogins c); [intros Hp%Hrouted; auto|]. cbv zeta. by destruct r; intros Hp%Hrouted; auto.
  - destruct (cs_lostSetups c); [intros Hp%Hrouted; auto|]. cbv zeta. by destruct r; intros Hp%Hrouted; auto.
Qed.

Lemma unauthenticated_is_no_error c err b :
  view c = shell (error_box err b) -> forall e, err = failed_api e -> ae_status e <> 401.
Proof.
  intros [_ Hx]%shell_app e ->. destruct (cs_page c) as [| |[f|f]]; cbn in Hx; try done.
  destruct (Z.eqb_spec (ae_status f) 401) as [|Hne]; [done|]. by injection Hx as -> _.
Qed.

Lemma signing_in_shows_the_page c u p me :
  on_login c = true -> mt_pending (cs_login c) = false -> u <> "" -> p <> "" -> admitted (loaded me) ->
  view (run c [login_submitted u p; login_settled (inl me); loader_ended None]) = shell page_content.
Proof.
  intros Hl Hp Hu Hw Ha%app_admitted. cbn [run fold_left].
  assert (step c (login_submitted u p) = unmount_forms (send_request (Api.login (login_body u p)) (set_login mutating c))) as ->.
  { unfold step. cbn [handle]. rewrite Hl, Hp. cbn [andb negb].
    destruct (String.eqb_spec u ""), (String.eqb_spec p ""); done. }
  set (c1 := unmount_forms _).
  assert (mt_pending (cs_login c1) = true) as Hm.
  { unfold c1, unmount_forms. set (c0 := send_request _ _). assert (on_login c0 = true) as -> by exact Hl.
    by destruct (on_setup c0). }
  assert (step c1 (login_settled (inl me)) = unmount_forms (logged_in me (set_login (settled (inl me)) c1))) as ->.
  { unfold step. cbn [handle]. by rewrite Hm. }
  unfold step. cbn [handle]. rewrite unmount_page. cbn [logged_in set_page cs_page]. rewrite unmount_view.
  unfold view. cbn [set_page cs_me cs_page routed]. rewrite unmount_me.
  cbn [logged_in set_page cs_me invalidateQueries set_me]. unfold AppShell. by rewrite Ha.
Qed.

(** C19. What the console shows before, while and after somebody signs in, in any
    run of its events.  The application is shown exactly when the last answer
    admits: authentication is off, or the visitor is signed in and no setup is
    due.  A request goes out only when a form is submitted on its own screen, and
    is that form's: the login form's with the name and the password submitted,
    neither empty, the setup form's with the name and the repeated password typed
    into it, of the required lengths.  An error page is the failure of a loader that ended under the
    page shown, and never "log in to continue".  And signing in leads to the
    page, whatever its loaders had thrown before. *)
Theorem sign_in_decides_what_is_shown (es : list Event) :
  let c := run started es in
  ((exists x, view c = shell x) <-> admitted (cs_me c)) /\
  Forall proper (cs_sent c) /\
  (forall e, cs_sent (step c e) = cs_sent c \/
     exists r, cs_sent (step c e) = cs_sent c ++ [r] /\ sends c e r) /\
  (forall e err b, view (step c e) = shell (error_box err b) ->
     (cs_page c = page_failed err \/ (e = loader_ended (Some err) /\ cs_page c = page_loading)) /\
     (forall a, err = failed_api a -> ae_status a <> 401)) /\
  (forall u p me ps, view c = gate (login_screen ps) -> mt_pending (cs_login c) = false -> u <> "" -> p <> "" ->
     admitted (loaded me) ->
     view (run c [login_submitted u p; login_settled (inl me); loader_ended None]) = shell page_content).
Proof.
  intros c. split; [|split; [|split; [|split]]].
  - rewrite <- app_admitted. unfold view, AppShell.
    destruct (AuthGate (cs_me c)); split; intros H; try done; try (by destruct H). eauto.
  - by apply sent_proper.
  - intros e. apply sent_from_its_screen.
  - intros e err b H. split; [by eapply error_box_source|by eapply unauthenticated_is_no_error].
  - intros u p me ps Hv. apply signing_in_shows_the_page. revert Hv. unfold view, AppShell, on_login.
    by destruct (AuthGate (cs_me c)).
Qed.

(** The setup form drops the cache but keeps the loaders' failure: the first page
    of the new administrator, opened while signed out, stays empty. *)
Lemma setup_leaves_an_empty_page c e me me' :
  on_setup c = true -> ready (cs_setup c) = true -> mt_pending (st_mutation (cs_setup c)) = false ->
  cs_page c = page_failed (failed_api e) -> ae_status e = 401 -> admitted (loaded me) -> admitted (loaded me') ->
  let c' := run c [setup_submitted; setup_settled (inl me)] in
  view c' = shell no_content /\ view (step c' (me_is (loaded me'))) = shell no_content.
Proof.
  intros Hs Hr Hp Hpage Hst Ha%app_admitted Ha'%app_admitted. cbn [run fold_left].
  set (c1 := step c setup_submitted).
  assert (c1 = unmount_forms (send_request (Api.setupFirstAdmin (setup_body (cs_setup c)))
    (set_setup (with_mutation mutating (cs_setup c)) c))) as E.
  { unfold c1, step. cbn [handle]. by rewrite Hs, Hr, Hp. }
  assert (mt_pending (st_mutation (cs_setup c1)) = true) as Hm.
  { rewrite E. unfold unmount_forms. set (c0 := send_request _ _).
    assert (on_setup c0 = true) as Hon by exact Hs.
    destruct (on_login c0); [by rewrite Hon|]. cbv zeta.
    assert (forall a b, on_setup (set_lost a b (set_login idle c0)) = true) as Hon' by (intros; exact Hs).
    by rewrite Hon'. }
  assert (cs_page c1 = page_failed (failed_api e)) as Hp1 by (rewrite E, unmount_page; exact Hpage).
  unfold step. cbn [handle]. rewrite Hm. cbv zeta. rewrite !unmount_view. unfold view, AppShell.
  cbn [set_me cs_me cs_page]. rewrite !unmount_page. cbn [set_up invalidateQueries set_me set_setup cs_me cs_page].
  rewrite Ha, Ha', Hp1. cbn. by rewrite Hst.
Qed.
End Gate.

(** ** The accounts page *)
Module Accounts.

Definition ROLE_OPTIONS : list (string * string) :=
  [("viewer", "Viewer"); ("operator", "Operator"); ("admin", "Admin")].

Record CreateUserCard := {
  cu_username : string;
  cu_displayName : string;
  cu_password : string;
  cu_role : string;
  cu_open : bool;
  cu_create : Mutation
}.
Definition blank_card : CreateUserCard :=
  {| cu_username := ""; cu_displayName := ""; cu_password := ""; cu_role := "viewer"; cu_open := false; cu_create := idle |}.

Record UserRow := {
  ur_resetting : bool;
  ur_newPassword : string;
  ur_confirmingDelete : bool;
  ur_update : Mutation;
  ur_remove : Mutation
}.
Definition fresh_row : UserRow :=
  {| ur_resetting := false; ur_newPassword := ""; ur_confirmingDelete := false; ur_update := idle; ur_remove := idle |}.

Record SessionRow := { sr_confirming : bool; sr_revoke : Mutation }.
Definition fresh_session : SessionRow := {| sr_confirming := false; sr_revoke := idle |}.

(** What the page sends. *)
Inductive Sending :=
| sent_create (body : json)
| sent_update (id : string) (body : json)
| sent_delete (id : string)
| sent_revoke (id : string).
Definition request (s : Sending) : Request :=
  match s with
  | sent_create body => Api.createUser body
  | sent_update id body => Api.updateUser id body
  | sent_delete id => Api.deleteUser id
  | sent_revoke id => Api.revokeSession id
  end.
Inductive CacheKey := key_users | key_sessions.

(** [ac_users] and [ac_sessions] are what the queries last answered; a row that
    is not listed has no state. *)
Record Page := {
  ac_users : option (list AuthUser);
  ac_sessions : option (list AuthSession);
  ac_create : CreateUserCard;
  ac_rows : list (string * UserRow);
  ac_sessionRows : list (string * SessionRow);
  ac_sent : list Sending;
  ac_invalidated : list CacheKey
}.
Definition opened : Page :=
  {| ac_users := None; ac_sessions := None; ac_create := blank_card; ac_rows := []; ac_sessionRows := [];
     ac_sent := []; ac_invalidated := [] |}.

Definition listed (id : string) (p : Page) : option AuthUser :=
  List.find (fun u => au_user_id u === id) (ac_users p ?? []).
Definition session_listed (id : string) (p : Page) : bool :=
  existsb (fun s => as_session_id s === id) (ac_sessions p ?? []).
Definition row (id : string) (p : Page) : UserRow := assoc id (ac_rows p) ?? fresh_row.
Definition session_row (id : string) (p : Page) : SessionRow := assoc id (ac_sessionRows p) ?? fresh_session.

(** What a row says. *)
Definition isSSO (u : AuthUser) : bool := match truthy (au_issuer u) with Some _ => true | None => false end.
Definition row_error (r : UserRow) : option ApiError :=
  match api_error (ur_update r) with Some e => Some e | None => api_error (ur_remove r) end.
Definition row_alert_tone (e : ApiError) : string := if has_code "conflict" e then "warn" else "error".
Definition client (s : AuthSession) : string := truthy (as_user_agent s) ?? "unknown client".

(** *** Changes *)
Definition set_users (l : option (list AuthUser)) (p : Page) : Page :=
  {| ac_users := l; ac_sessions := ac_sessions p; ac_create := ac_create p;
     ac_rows := List.filter (fun r => existsb (fun u => au_user_id u === r.1) (l ?? [])) (ac_rows p);
     ac_sessionRows := ac_sessionRows p; ac_sent := ac_sent p; ac_invalidated := ac_invalidated p |}.
Definition set_sessions (l : option (list AuthSession)) (p : Page) : Page :=
  {| ac_users := ac_users p; ac_sessions := l; ac_create := ac_create p; ac_rows := ac_rows p;
     ac_sessionRows := List.filter (fun r => existsb (fun s => as_session_id s === r.1) (l ?? [])) (ac_sessionRows p);
     ac_sent := ac_sent p; ac_invalidated := ac_invalidated p |}.
Definition set_create (c : CreateUserCard) (p : Page) : Page :=
  {| ac_users := ac_users p; ac_sessions := ac_sessions p; ac_create := c; ac_rows := ac_rows p;
     ac_sessionRows := ac_sessionRows p; ac_sent := ac_sent p; ac_invalidated := ac_invalidated p |}.
Definition set_row (id : string) (r : UserRow) (p : Page) : Page :=
  {| ac_users := ac_users p; ac_sessions := ac_sessions p; ac_create := ac_create p; ac_rows := (id, r) :: ac_rows p;
     ac_sessionRows := ac_sessionRows p; ac_sent := ac_sent p; ac_invalidated := ac_invalidated p |}.
Definition set_session_row (id : string) (r : SessionRow) (p : Page) : Page :=
  {| ac_users := ac_users p; ac_sessions := ac_sessions p; ac_create := ac_create p; ac_rows := ac_rows p;
     ac_sessionRows := (id, r) :: ac_sessionRows p; ac_sent := ac_sent p; ac_invalidated := ac_invalidated p |}.
Definition sending (s : Sending) (p : Page) : Page :=
  {| ac_users := ac_users p; ac_sessions := ac_sessions p; ac_create := ac_create p; ac_rows := ac_rows p;
     ac_sessionRows := ac_sessionRows p; ac_sent := ac_sent p ++ [s]; ac_invalidated := ac_invalidated p |}.
Definition invalidated (keys : list CacheKey) (p : Page) : Page :=
  {| ac_users := ac_users p; ac_sessions := ac_sessions p; ac_create := ac_create p; ac_rows := ac_rows p;
     ac_sessionRows := ac_sessionRows p; ac_sent := ac_sent p; ac_invalidated := ac_invalidated p ++ keys |}.

Definition setResetting (b : bool) (r : UserRow) : UserRow :=
  {| ur_resetting := b; ur_newPassword := ur_newPassword r; ur_confirmingDelete := ur_confirmingDelete r;
     ur_update := ur_update r; ur_remove := ur_remove r |}.
Definition setNewPassword (s : string) (r : UserRow) : UserRow :=
  {| ur_resetting := ur_resetting r; ur_newPassword := s; ur_confirmingDelete := ur_confirmingDelete r;
     ur_update := ur_update r; ur_remove := ur_remove r |}.
Definition setConfirmingDelete (b : bool) (r : UserRow) : UserRow :=
  {| ur_resetting := ur_resetting r; ur_newPassword := ur_newPassword r; ur_confirmingDelete := b;
     ur_update := ur_update r; ur_remove := ur_remove r |}.
Definition set_update (m : Mutation) (r : UserRow) : UserRow :=
  {| ur_resetting := ur_resetting r; ur_newPassword := ur_newPassword r; ur_confirmingDelete := ur_confirmingDelete r;
     ur_update := m; ur_remove := ur_remove r |}.
Definition set_remove (m : Mutation) (r : UserRow) : UserRow :=
  {| ur_resetting := ur_resetting r; ur_newPassword := ur_newPassword r; ur_confirmingDelete := ur_confirmingDelete r;
     ur_update := ur_update r; ur_remove := m |}.

Definition change_card (f : CreateUserCard -> CreateUserCard) (p : Page) : Page := set_create (f (ac_create p)) p.
Definition set_open (b : bool) (c : CreateUserCard) : CreateUserCard :=
  {| cu_username := cu_username c; cu_displayName := cu_displayName c; cu_password := cu_password c;
     cu_role := cu_role c; cu_open := b; cu_create := cu_create c |}.
Definition create_mutation (m : Mutation) (c : CreateUserCard) : CreateUserCard :=
  {| cu_username := cu_username c; cu_displayName := cu_displayName c; cu_password := cu_password c;
     cu_role := cu_role c; cu_open := cu_open c; cu_create := m |}.
Inductive CardField := card_username | card_displayName | card_password | card_role.
Definition card_typed (f : CardField) (v : string) (c : CreateUserCard) : CreateUserCard :=
  {| cu_username := if f is card_username then v else cu_username c;
     cu_displayName := if f is card_displayName then v else cu_displayName c;
     cu_password := if f is card_password then v else cu_password c;
     cu_role := if f is card_role then v else cu_role c; cu_open := cu_open c; cu_create := cu_create c |}.
Definition card_body (c : CreateUserCard) : json :=
  JObj [("username", JStr (cu_username c)); ("display_name", JStr (cu_displayName c));
        ("password", JStr (cu_password c)); ("role", JStr (cu_role c))].

(** Row [id] changes a field of its account, or deletes it. *)
Definition update_mutate (id : string) (body : json) (p : Page) : Page :=
  sending (sent_update id body) (set_row id (set_update mutating (row id p)) p).
Definition remove_mutate (id : string) (r : UserRow) (p : Page) : Page :=
  sending (sent_delete id) (set_row id (set_remove mutating r) p).
Definition revoke_mutate (id : string) (p : Page) : Page :=
  sending (sent_revoke id) (set_session_row id {| sr_confirming := false; sr_revoke := mutating |} p).

Inductive Event :=
| users_are (l : option (list AuthUser))
| sessions_are (l : option (list AuthSession))
| add_clicked
| card_cancelled
| card_types (f : CardField) (v : string)
| card_submitted
| create_settled (r : unit + Failure)
| role_chosen (id role : string)
| disable_toggled (id : string)
| reset_toggled (id : string)
| reset_cancelled (id : string)
| password_typed (id v : string)
| password_set (id : string)
| update_settled (id : string) (r : unit + Failure)
| delete_clicked (id : string)
| delete_confirmed (id : string)
| delete_cancelled (id : string)
| remove_settled (id : string) (r : unit + Failure)
| revoke_clicked (id : string)
| revoke_confirmed (id : string)
| revoke_cancelled (id : string)
| revoke_settled (id : string) (r : unit + Failure).

Section Page.
Context (self : option string) (confirmDestructive : bool).

Definition isSelf (id : string) : bool := match self with Some me => id === me | None => false end.

(** The control is on screen and not disabled; the request is under way. *)
Definition enabled (p : Page) (e : Event) : bool :=
  let on id := match listed id p with Some _ => true | None => false end in
  match e with
  | users_are _ | sessions_are _ => true
  | add_clicked => negb (cu_open (ac_create p))
  | card_cancelled | card_types _ _ => cu_open (ac_create p)
  | card_submitted =>
      let c := ac_create p in
      cu_open c && negb (mt_pending (cu_create c)) && (cu_username c !== "") && (cu_password c !== "")
  | create_settled _ => mt_pending (cu_create (ac_create p))
  | role_chosen id _ | disable_toggled id => on id && negb (mt_pending (ur_update (row id p)))
  | reset_toggled id => match listed id p with Some u => negb (isSSO u) | None => false end
  | reset_cancelled id | password_typed id _ => on id && ur_resetting (row id p)
  | password_set id =>
      on id && ur_resetting (row id p) && negb (mt_pending (ur_update (row id p))) && (ur_newPassword (row id p) !== "")
  | update_settled id _ => mt_pending (ur_update (row id p))
  | delete_clicked id =>
      on id && negb (ur_confirmingDelete (row id p)) && negb (mt_pending (ur_remove (row id p)) || isSelf id)
  | delete_confirmed id => on id && ur_confirmingDelete (row id p) && negb (mt_pending (ur_remove (row id p)))
  | delete_cancelled id => on id && ur_confirmingDelete (row id p)
  | remove_settled id _ => mt_pending (ur_remove (row id p))
  | revoke_clicked id => session_listed id p && negb (sr_confirming (session_row id p)) && negb (mt_pending (sr_revoke (session_row id p)))
  | revoke_confirmed id => session_listed id p && sr_confirming (session_row id p) && negb (mt_pending (sr_revoke (session_row id p)))
  | revoke_cancelled id => session_listed id p && sr_confirming (session_row id p)
  | revoke_settled id _ => mt_pending (sr_revoke (session_row id p))
  end.

Definition handle (p : Page) (e : Event) : Page :=
  match e with
  | users_are l => set_users l p
  | sessions_are l => set_sessions l p
  | add_clicked => change_card (set_open true) p
  | card_cancelled => change_card (set_open false) p
  | card_types f v => change_card (card_typed f v) p
  | card_submitted => sending (sent_create (card_body (ac_create p))) (change_card (create_mutation mutating) p)
  | create_settled (inl _) =>
      invalidated [key_users] (set_create (create_mutation (settled (inl tt)) blank_card) p)
  | create_settled (inr e) => change_card (create_mutation (settled (A := unit) (inr e))) p
  | role_chosen id role => update_mutate id (JObj [("role", JStr role)]) p
  | disable_toggled id =>
      update_mutate id (JObj [("disabled", JBool (negb (default false (au_disabled <$> listed id p))))]) p
  | reset_toggled id => set_row id (setResetting (negb (ur_resetting (row id p))) (row id p)) p
  | reset_cancelled id => set_row id (setResetting false (row id p)) p
  | password_typed id v => set_row id (setNewPassword v (row id p)) p
  | password_set id => update_mutate id (JObj [("password", JStr (ur_newPassword (row id p)))]) p
  | update_settled id (inl _) =>
      invalidated [key_users; key_sessions]
        (set_row id (setNewPassword "" (setResetting false (set_update idle (row id p)))) p)
  | update_settled id (inr e) => set_row id (set_update (settled (A := unit) (inr e)) (row id p)) p
  | delete_clicked id =>
      if confirmDestructive then set_row id (setConfirmingDelete true (row id p)) p else remove_mutate id (row id p) p
  | delete_confirmed id => remove_mutate id (setConfirmingDelete false (row id p)) p
  | delete_cancelled id => set_row id (setConfirmingDelete false (row id p)) p
  | remove_settled id (inl _) => invalidated [key_users; key_sessions] (set_row id (set_remove idle (row id p)) p)
  | remove_settled id (inr e) => set_row id (set_remove (settled (A := unit) (inr e)) (row id p)) p
  | revoke_clicked id =>
      if confirmDestructive
      then set_session_row id {| sr_confirming := true; sr_revoke := sr_revoke (session_row id p) |} p
      else revoke_mutate id p
  | revoke_confirmed id => revoke_mutate id p
  | revoke_cancelled id => set_session_row id {| sr_confirming := false; sr_revoke := sr_revoke (session_row id p) |} p
  | revoke_settled id r =>
      let p := set_session_row id {| sr_confirming := sr_confirming (session_row id p); sr_revoke := settled r |} p in
      match r with inl _ => invalidated [key_sessions] p | inr _ => p end
  end.
Definition step := guarded enabled handle.
Definition run := guarded_run enabled handle.
End Page.

(** *** Facts *)

Definition delete_kind (id : string) (e : Event) : Click :=
  match e with
  | delete_clicked i => if i === id then asks else elsewhere
  | delete_cancelled i => if i === id then withdraws else elsewhere
  | delete_confirmed i => if i === id then confirms else elsewhere
  | _ => elsewhere
  end.
Definition revoke_kind (id : string) (e : Event) : Click :=
  match e with
  | revoke_clicked i => if i === id then asks else elsewhere
  | revoke_cancelled i => if i === id then withdraws else elsewhere
  | revoke_confirmed i => if i === id then confirms else elsewhere
  | _ => elsewhere
  end.
Definition is_delete (id : string) (s : Sending) : bool := match s with sent_delete i => i === id | _ => false end.
Definition is_revoke (id : string) (s : Sending) : bool := match s with sent_revoke i => i === id | _ => false end.
Definition deletes (id : string) (p : Page) : Z := zlen (List.filter (is_delete id) (ac_sent p)).
Definition revokes (id : string) (p : Page) : Z := zlen (List.filter (is_revoke id) (ac_sent p)).

Lemma filter_snoc {A} (f : A -> bool) l x :
  zlen (List.filter f (l ++ [x])) = zlen (List.filter f l) + (if f x then 1 else 0).
Proof. rewrite List.filter_app. unfold zlen. rewrite length_app. cbn. destruct (f x); cbn; lia. Qed.

Lemma row_set id i r p : row id (set_row i r p) = if i === id then r else row id p.
Proof. unfold row. cbn. by destruct (String.eqb_spec i id). Qed.
Lemma session_row_set id i r p : session_row id (set_session_row i r p) = if i === id then r else session_row id p.
Proof. unfold session_row. cbn. by destruct (String.eqb_spec i id). Qed.

Lemma row_users id l p : row id (set_users l p) = row id p \/ row id (set_users l p) = fresh_row.
Proof.
  unfold row. cbn [set_users ac_rows].
  rewrite (assoc_filtered (fun k => existsb (fun u => au_user_id u === k) (l ?? []))). destruct (existsb _ _); auto.
Qed.
Lemma row_sessions id l p :
  session_row id (set_sessions l p) = session_row id p \/ session_row id (set_sessions l p) = fresh_session.
Proof.
  unfold session_row. cbn [set_sessions ac_sessionRows].
  rewrite (assoc_filtered (fun k => existsb (fun u => as_session_id u === k) (l ?? []))). destruct (existsb _ _); auto.
Qed.

(** Which handlers touch a row's second button. *)
Lemma row_update_mutate id i body p :
  ur_confirmingDelete (row id (update_mutate i body p)) = ur_confirmingDelete (row id p).
Proof.
  unfold update_mutate. change (row id (sending ?a ?b)) with (row id b). rewrite row_set.
  by destruct (String.eqb_spec i id) as [->|].
Qed.
Lemma row_remove_mutate id i r p :
  ur_confirmingDelete (row id (remove_mutate i r p)) =
  if i === id then ur_confirmingDelete r else ur_confirmingDelete (row id p).
Proof.
  unfold remove_mutate. change (row id (sending ?a ?b)) with (row id b). rewrite row_set.
  by destruct (String.eqb_spec i id) as [->|].
Qed.

Section Facts.
Context (self : option string).

Lemma confirming_after b id p e :
  enabled self p e = true -> ur_confirmingDelete (row id (handle b p e)) = true ->
  (e = delete_clicked id /\ b = true) \/
  (ur_confirmingDelete (row id p) = true /\ e <> delete_cancelled id /\ e <> delete_confirmed id).
Proof.
  intros He. destruct e as [l|l| | |f v| |[u|e]|i role|i|i|i|i v|i|i [u|e]|i|i|i|i [u|e]|i|i|i|i [u|e]];
    cbn [handle]; try (intros H; right; split; [exact H|split; congruence]).
  - destruct (row_users id l p) as [->| ->]; [|done]. right; split_and!; done.
  - rewrite row_update_mutate. right; split_and!; done.
  - rewrite row_update_mutate. right; split_and!; done.
  - rewrite row_set. destruct (String.eqb_spec i id) as [->|]; right; split_and!; done.
  - rewrite row_set. destruct (String.eqb_spec i id) as [->|]; right; split_and!; done.
  - rewrite row_set. destruct (String.eqb_spec i id) as [->|]; right; split_and!; done.
  - rewrite row_update_mutate. right; split_and!; done.
  - change (row id (invalidated ?a ?b)) with (row id b). rewrite row_set.
    destruct (String.eqb_spec i id) as [->|]; right; split_and!; done.
  - rewrite row_set. destruct (String.eqb_spec i id) as [->|]; right; split_and!; done.
  - destruct b.
    + rewrite row_set. destruct (String.eqb_spec i id) as [->|]; [auto|]. right; split_and!; done.
    + rewrite row_remove_mutate. destruct (String.eqb_spec i id) as [->|]; right; split_and!; done.
  - rewrite row_remove_mutate. destruct (String.eqb_spec i id) as [->|]; [done|].
    right; split_and!; [done|done|congruence].
  - rewrite row_set. destruct (String.eqb_spec i id) as [->|]; [done|]. right; split_and!; [done|congruence|done].
  - change (row id (invalidated ?a ?b)) with (row id b). rewrite row_set.
    destruct (String.eqb_spec i id) as [->|]; right; split_and!; done.
  - rewrite row_set. destruct (String.eqb_spec i id) as [->|]; right; split_and!; done.
  - destruct b; right; split_and!; done.
Qed.

Lemma deletes_after b id p e :
  enabled self p e = true ->
  deletes id (handle b p e) = deletes id p \/
  (deletes id (handle b p e) = deletes id p + 1 /\
   ((e = delete_confirmed id /\ ur_confirmingDelete (row id p) = true) \/
    (e = delete_clicked id /\ b = false /\ isSelf self id = false))).
Proof.
  intros He. unfold deletes.
  destruct e as [l|l| | |f v| |[u|e]|i role|i|i|i|i v|i|i [u|e]|i|i|i|i [u|e]|i|i|i|i [u|e]];
    cbn [handle]; try (left; reflexivity); try (cbn [update_mutate sending ac_sent]; rewrite filter_snoc; left; cbn; lia).
  - destruct b; [left; reflexivity|]. cbn [remove_mutate sending ac_sent]. rewrite filter_snoc. cbn [set_row ac_sent is_delete].
    destruct (String.eqb_spec i id) as [->|]; [|left; lia]. right. split; [lia|]. right. split_and!; [done|done|].
    cbn [enabled] in He. apply andb_prop in He as [_ He]. apply negb_true_iff, orb_false_iff in He. tauto.
  - cbn [remove_mutate sending ac_sent]. rewrite filter_snoc. cbn [set_row ac_sent is_delete].
    destruct (String.eqb_spec i id) as [->|]; [|left; lia]. right. split; [lia|]. left. split; [done|].
    cbn [enabled] in He. apply andb_prop in He as [He _]. by apply andb_prop in He as [_ He].
  - destruct b; [left; reflexivity|]. cbn [revoke_mutate sending ac_sent]. rewrite filter_snoc. left. cbn. lia.
  - cbn [revoke_mutate sending ac_sent]. rewrite filter_snoc. left. cbn. lia.
Qed.

Lemma session_row_sent id x p : session_row id (sending x p) = session_row id p.
Proof. done. Qed.
Lemma session_confirming_after id p e :
  enabled self p e = true -> sr_confirming (session_row id (handle true p e)) = true ->
  e = revoke_clicked id \/
  (sr_confirming (session_row id p) = true /\ e <> revoke_cancelled id /\ e <> revoke_confirmed id).
Proof.
  intros He. destruct e as [l|l| | |f v| |[u|e]|i role|i|i|i|i v|i|i [u|e]|i|i|i|i [u|e]|i|i|i|i r];
    cbn [handle]; try (intros H; right; split; [exact H|split; congruence]).
  - destruct (row_sessions id l p) as [->| ->]; [|done]. right; split_and!; done.
  - rewrite session_row_set. destruct (String.eqb_spec i id) as [->|]; [auto|]. right; split_and!; done.
  - unfold revoke_mutate. rewrite session_row_sent, session_row_set. destruct (String.eqb_spec i id) as [->|]; [done|].
    right; split_and!; [done|done|congruence].
  - rewrite session_row_set. destruct (String.eqb_spec i id) as [->|]; [done|]. right; split_and!; [done|congruence|done].
  - intros H. right. split; [|done]. revert H. cbv zeta.
    assert (forall q, session_row id (match r with inl _ => invalidated [key_sessions] q | inr _ => q end) = session_row id q)
      as -> by (intros q; by destruct r).
    rewrite session_row_set. by destruct (String.eqb_spec i id) as [->|].
Qed.

Lemma revokes_after id p e :
  enabled self p e = true ->
  revokes id (handle true p e) = revokes id p \/
  (revokes id (handle true p e) = revokes id p + 1 /\ e = revoke_confirmed id /\ sr_confirming (session_row id p) = true).
Proof.
  intros He. unfold revokes.
  destruct e as [l|l| | |f v| |[u|e]|i role|i|i|i|i v|i|i [u|e]|i|i|i|i [u|e]|i|i|i|i [u|e]];
    cbn [handle]; try (left; reflexivity);
    try (cbn [update_mutate remove_mutate sending ac_sent]; rewrite filter_snoc; left; cbn; lia).
  cbn [revoke_mutate sending ac_sent]. rewrite filter_snoc. cbn [set_session_row ac_sent is_revoke].
  destruct (String.eqb_spec i id) as [->|]; [|left; lia]. right. split; [lia|]. split; [done|].
  cbn [enabled] in He. apply andb_prop in He as [He _]. by apply andb_prop in He as [_ He].
Qed.

(** *** The page keeps the contract of the second click *)
#[export] Instance delete_guarded id :
  TwoClick (enabled self) (handle true) (delete_kind id) (fun p => ur_confirmingDelete (row id p)) (deletes id).
Proof.
  split; intros p e He.
  - intros H. destruct (confirming_after true id p e He H) as [[-> _]|(Hc&H1&H2)].
    + left. cbn. by rewrite String.eqb_refl.
    + destruct e; auto; cbn; destruct (String.eqb_spec id0 id) as [->|]; auto; done.
  - destruct (deletes_after true id p e He) as [|[H [[-> Hc]|(_&[=]&_)]]]; [auto|]. right. split_and!; [done|done|].
    cbn. by rewrite String.eqb_refl.
Qed.
#[export] Instance revoke_guarded id :
  TwoClick (enabled self) (handle true) (revoke_kind id) (fun p => sr_confirming (session_row id p)) (revokes id).
Proof.
  split; intros p e He.
  - intros H. destruct (session_confirming_after id p e He H) as [->|(Hc&H1&H2)].
    + left. cbn. by rewrite String.eqb_refl.
    + destruct e; auto; cbn; destruct (String.eqb_spec id0 id) as [->|]; auto; done.
  - destruct (revokes_after id p e He) as [|(H&->&Hc)]; [auto|]. right. split_and!; [done|done|].
    cbn. by rewrite String.eqb_refl.
Qed.

(** The account one is signed in with is never asked for. *)
Definition own_untouched (p : Page) : Prop :=
  forall id, isSelf self id = true -> deletes id p = 0 /\ ur_confirmingDelete (row id p) = false.
Lemma own_untouched_run b es p : own_untouched p -> own_untouched (run self b p es).
Proof.
  revert p. induction es as [|e es IH]; intros p H; [done|]. apply IH. clear IH es.
  unfold guarded. destruct (enabled self p e) eqn:He; [|done]. intros id Hid. destruct (H id Hid) as [Hd Hc]. split.
  - destruct (deletes_after b id p e He) as [->|[_ [[_ H']|(_&_&H')]]]; congruence.
  - apply not_true_is_false. intros Ha. destruct (confirming_after b id p e He Ha) as [[-> _]|[H' _]]; [|congruence].
    cbn [enabled] in He. apply andb_prop in He as [_ He]. apply negb_true_iff, orb_false_iff in He. destruct He. congruence.
Qed.
End Facts.

(** The presses of an item's own buttons that would send, the preference being off. *)
Definition delete_presses (id : string) (es : list Event) : Z :=
  zlen (List.filter (fun e => match e with delete_clicked i | delete_confirmed i => i === id | _ => false end) es).
Definition revoke_presses (id : string) (es : list Event) : Z :=
  zlen (List.filter (fun e => match e with revoke_clicked i | revoke_confirmed i => i === id | _ => false end) es).

Lemma presses_count self id es :
  deletes id (run self false opened es) = delete_presses id (happened (enabled self) (handle false) opened es) /\
  revokes id (run self false opened es) = revoke_presses id (happened (enabled self) (handle false) opened es).
Proof.
  assert (forall (f : Event -> bool) a b, zlen (List.filter f (a ++ b)) = zlen (List.filter f a) + zlen (List.filter f b)) as Happ.
  { intros f a b. rewrite List.filter_app. unfold zlen. rewrite length_app. lia. }
  split.
  - unfold run. rewrite (guarded_counts (enabled self) (handle false) (deletes id) (delete_presses id) eq_refl); [done|apply Happ|].
    intros p e _. unfold deletes, delete_presses.
    destruct e as [l|l| | |f v| |[u|e]|i role|i|i|i|i v|i|i [u|e]|i|i|i|i [u|e]|i|i|i|i [u|e]]; cbn [handle];
      try (cbn [update_mutate remove_mutate revoke_mutate sending ac_sent]; rewrite filter_snoc);
      cbn; try (destruct (i === id)); unfold zlen; cbn; lia.
  - unfold run. rewrite (guarded_counts (enabled self) (handle false) (revokes id) (revoke_presses id) eq_refl); [done|apply Happ|].
    intros p e _. unfold revokes, revoke_presses.
    destruct e as [l|l| | |f v| |[u|e]|i role|i|i|i|i v|i|i [u|e]|i|i|i|i [u|e]|i|i|i|i [u|e]]; cbn [handle];
      try (cbn [update_mutate remove_mutate revoke_mutate sending ac_sent]; rewrite filter_snoc);
      cbn; try (destruct (i === id)); unfold zlen; cbn; lia.
Qed.

(** C20. With the preference for a second click on, as it is by default, in every
    run of the accounts page the deletions sent for an account, and the
    revocations sent for a session, are at most the confirmations the operator
    made for that very item: each after asking for it, not withdrawn since, on a
    button that was on screen and enabled.  With the preference off they are the
    presses of that item's own button, one each.  And whatever the preference, no
    deletion of the account one is signed in with is ever sent. *)
Theorem deletion_takes_two_clicks (self : option string) (es : list Event) :
  (forall id,
     deletes id (run self true opened es) <= confirmations (clicks (enabled self) (handle true) (delete_kind id) opened es) /\
     revokes id (run self true opened es) <= confirmations (clicks (enabled self) (handle true) (revoke_kind id) opened es)) /\
  (forall id,
     deletes id (run self false opened es) = delete_presses id (happened (enabled self) (handle false) opened es) /\
     revokes id (run self false opened es) = revoke_presses id (happened (enabled self) (handle false) opened es)) /\
  (forall b id, isSelf self id = true -> deletes id (run self b opened es) = 0).
Proof.
  split; [|split; [intros id; apply presses_count|]].
  - intros id. split.
    + pose proof (sends_are_confirmed (enabled self) (handle true) (delete_kind id)
        (fun p => ur_confirmingDelete (row id p)) (deletes id) opened es eq_refl) as H.
      unfold run. assert (deletes id opened = 0) by done. lia.
    + pose proof (sends_are_confirmed (enabled self) (handle true) (revoke_kind id)
        (fun p => sr_confirming (session_row id p)) (revokes id) opened es eq_refl) as H.
      unfold run. assert (revokes id opened = 0) by done. lia.
  - intros b id Hid. apply (own_untouched_run self b es opened); [|done]. by intros id' _.
Qed.
End Accounts.

(** ** The administration page and the account menu *)
Module Admin.
Import Gate.

Inductive Category := access | unit_ | outbound.
#[export] Instance Category_eq_dec : EqDecision Category.
Proof. solve_decision. Defined.
Definition CATEGORIES : list (Category * (string * (string * string))) :=
  [(access, ("access", ("Access", "Accounts and sessions")));
   (unit_, ("unit", ("This unit", "Deploy and self-repair")));
   (outbound, ("outbound", ("Outbound", "Webhooks and email")))].
Definition Category_string (c : Category) : string :=
  match c with access => "access" | unit_ => "unit" | outbound => "outbound" end.

(** "[z.enum(CATEGORY_VALUES).optional().catch(undefined)]" *)
Definition adminSearchSchema (section : option string) : option Category :=
  match section with
  | Some s => (fun e => e.1) <$> List.find (fun e => e.2.1 === s) CATEGORIES
  | None => None
  end.
Definition select (section : Category) : option string := Some (Category_string section).
Definition goBack : option string := None.
Definition effective (selected : option Category) : Category := selected ?? access.

Inductive AdminView := needs_role | categories (selected : option Category) (shown : Category).
Definition AdminRoute (me : QueryResult AuthMe) (section : option string) : AdminView :=
  if negb (useHasRole me admin_role) then needs_role
  else let selected := adminSearchSchema section in categories selected (effective selected).

(** The gear, and what is behind it. *)
Inductive MenuItem := menu_link (to label : string) | menu_palette | menu_sign_out.
Inductive AccountMenu :=
| no_menu
| auth_disabled_link
| menu (label role : string) (items : list MenuItem).
Definition accountMenu (me : QueryResult AuthMe) : AccountMenu :=
  match useAuth me with
  | None => no_menu
  | Some me =>
      if negb (am_auth_enabled me) then auth_disabled_link
      else match am_authenticated me, am_user me with
      | true, Some user =>
          menu (truthy (au_display_name user) ?? au_username user) (au_role user)
            ((if au_role user === "admin" then [menu_link "/admin" "Administration"] else []) ++
             [menu_link "/settings" "Settings"; menu_palette; menu_link "/logs" "Logs"; menu_link "/docs" "Docs"; menu_sign_out])
      | _, _ => no_menu
      end
  end.
(** The palette's only opener is in that menu. *)
Definition palette_in_reach (m : AccountMenu) : bool :=
  match m with
  | menu _ _ items => existsb (fun i => match i with menu_palette => true | _ => false end) items
  | _ => false
  end.

Lemma section_round_trip c : adminSearchSchema (select c) = Some c.
Proof. by destruct c. Qed.

(** The link to the page is offered to those the page admits, as long as roles are known ones. *)
Lemma link_and_page_agree me section label role items :
  accountMenu me = menu label role items ->
  In role ["viewer"; "operator"; "admin"] ->
  In (menu_link "/admin" "Administration") items <-> AdminRoute me section <> needs_role.
Proof.
  unfold accountMenu, AdminRoute, useHasRole. destruct (useAuth me) as [a|]; [|done].
  destruct (negb (am_auth_enabled a)); [done|]. destruct (am_authenticated a); [|done].
  destruct (am_user a) as [u|]; [|done]. intros [= <- <- <-] Hr. cbn [fmap option_fmap option_map].
  destruct Hr as [<-|[<-|[<-|[]]]]; cbn; (split; [intros H Hn; intuition congruence|intros H]); try (by left); by destruct H.
Qed.

(** With authentication off everybody is an administrator, and the menu that
    opens the palette is not there. *)
Lemma auth_off_hides_the_palette d section :
  am_auth_enabled d = false ->
  AuthGate (loaded d) = app /\ AdminRoute (loaded d) section <> needs_role /\
  palette_in_reach (accountMenu (loaded d)) = false.
Proof. intros H. unfold AuthGate, AdminRoute, useHasRole, accountMenu. cbn. rewrite H. done. Qed.
End Admin.

(** ** Examples *)
Module Examples.
Import Gate.

Definition user (id role : string) : AuthUser :=
  {| au_user_id := id; au_username := id; au_display_name := None; au_role := role; au_disabled := false;
     au_created_at := ""; au_last_login_at := None; au_issuer := None |}.
Definition a_me (authenticated setup : bool) : AuthMe :=
  {| am_authenticated := authenticated; am_auth_enabled := true; am_setup_required := setup;
     am_user := if authenticated then Some (user "ann" "admin") else None; am_providers := None |}.
Definition refused (status : Z) (message : string) : Failure :=
  failed_api {| ae_status := status; ae_code := Some (JStr "x"); ae_message := JStr message; ae_field := None |}.

(** A deep link opened on a new unit: the loader is refused, the administrator is
    created, and the page under the shell is empty. *)
Lemma first_page_is_empty :
  let es := [me_is (loaded (a_me false true)); loader_ended (Some (refused 401 "log in to continue"));
    setup_typed f_username "ann"; setup_typed f_password "correct horse"; setup_typed f_confirm "correct horse";
    setup_submitted; setup_settled (inl (a_me true false))] in
  view (run started es) = shell no_content.
Proof. vm_compute. done. Qed.

(** A refusal is an answer; the gate says that the API could not be reached at all. *)
Lemma a_refusal_reads_as_silence :
  AuthGate (errored None (refused 503 "starting") false) = not_answering false "Try again now".
Proof. done. Qed.

Import Accounts.
Definition two_users : Accounts.Event := users_are (Some [user "ann" "admin"; user "bob" "viewer"]).

Lemma deletion_takes_two_clicks_witness :
  deletes "ann" (Accounts.run (Some "ann") true Accounts.opened
    [two_users; delete_clicked "ann"; delete_confirmed "ann"; delete_clicked "bob"; delete_confirmed "bob"]) = 0.
Proof. by apply (deletion_takes_two_clicks (Some "ann")). Defined.

(** Asked for and confirmed, the deletion goes out; withdrawn, it does not. *)
Lemma asked_and_confirmed :
  let sent es := ac_sent (Accounts.run (Some "ann") true Accounts.opened (two_users :: es)) in
  sent [delete_clicked "bob"; delete_confirmed "bob"; delete_confirmed "bob"] = [sent_delete "bob"] /\
  sent [delete_clicked "bob"; delete_cancelled "bob"; delete_confirmed "bob"] = [] /\
  sent [delete_clicked "ann"; delete_confirmed "ann"] = [].
Proof. vm_compute. done. Qed.

(** A change of role that succeeds closes the password form beside it, and what was typed is gone. *)
Lemma role_change_discards_the_password :
  let typing := [two_users; reset_toggled "bob"; password_typed "bob" "a long passphrase"] in
  let changed := typing ++ [role_chosen "bob" "operator"; update_settled "bob" (inl tt)] in
  let r es := Accounts.row "bob" (Accounts.run (Some "ann") true Accounts.opened es) in
  (ur_resetting (r typing), ur_newPassword (r typing)) = (true, "a long passphrase") /\
  (ur_resetting (r changed), ur_newPassword (r changed)) = (false, "").
Proof. vm_compute. done. Qed.

(** A failed deletion is reported with the message of an earlier failed change. *)
Lemma failed_delete_shows_earlier_error :
  let es := [two_users; role_chosen "bob" "admin"; update_settled "bob" (inr (refused 500 "database is locked"));
    delete_clicked "bob"; delete_confirmed "bob"; remove_settled "bob" (inr (refused 409 "last enabled admin"))] in
  ae_message <$> row_error (Accounts.row "bob" (Accounts.run (Some "ann") true Accounts.opened es)) =
  Some (JStr "database is locked").
Proof. vm_compute. done. Qed.
End Examples.
