(* ===== verification/Shell.v ===== *)
(** * Shell: the frame around every page

    The rail and the tabs ([components/layout/side-rail.tsx], [bottom-tabs.tsx]),
    the shortcut of [app-shell.tsx], the status panel
    ([features/health/status-button.tsx]), the strip of
    [features/offline/offline-banner.tsx] and the recording control
    ([features/monitoring/recording-indicator.tsx]). *)
From Stdlib Require Import ZArith Bool String Ascii List Lia.
From stdpp Require Import base option list strings pretty.
From S2P Require Import Prelude JsNumber JsDate JsString Format ApiTypes Transport LiveStream LogStore Notifications Freshness HealthView.
From S2P Require Import ConsoleSearch Access TwoClicks.

(** ** Where one is *)
Module Frame.
Import Nav.

Definition STORAGE_KEY : string := "classg.nav.rail-collapsed".
Definition readCollapsed (s : Storage) : bool :=
  match getItem STORAGE_KEY s with Some (Some v) => v === "1" | _ => false end.
Definition writeCollapsed (collapsed : bool) (s : Storage) : Storage :=
  setItem STORAGE_KEY (if collapsed then "1" else "0") s.

Record SideRail := { rl_collapsed : bool; rl_storage : Storage }.
Definition mounted (s : Storage) : SideRail := {| rl_collapsed := readCollapsed s; rl_storage := s |}.
Definition toggle (r : SideRail) : SideRail :=
  {| rl_collapsed := negb (rl_collapsed r); rl_storage := writeCollapsed (negb (rl_collapsed r)) (rl_storage r) |}.

(** Each entry: a divider before it, and whether it is lit. *)
Fixpoint rail (previous : option NavItem) (items : list NavItem) (pathname : string) : list (bool * (NavItem * bool)) :=
  match items with
  | [] => []
  | i :: items =>
      (match previous with
       | Some p => match nv_group p, nv_group i with watch, watch | manage, manage => false | _, _ => true end
       | None => false
       end, (i, isNavItemActive i pathname)) :: rail (Some i) items pathname
  end.
Definition side_rail (isAdmin : bool) (pathname : string) := rail None (visibleNavItems NAV_ITEMS isAdmin) pathname.

(** The bottom bar, and whether "More" is lit. *)
Record BottomTabs := { tb_tabs : list (NavItem * bool); tb_rest : list (NavItem * bool); tb_more : bool }.
Definition bottomTabs (isAdmin : bool) (pathname : string) : BottomTabs :=
  let lit := map (fun i => (i, isNavItemActive i pathname)) in
  let rest := visibleNavItems SECONDARY_NAV_ITEMS isAdmin in
  {| tb_tabs := lit (visibleNavItems PRIMARY_NAV_ITEMS isAdmin); tb_rest := lit rest;
     tb_more := existsb (fun i => isNavItemActive i pathname) rest |}.
Definition tab_lit (b : BottomTabs) : bool := existsb (fun e => e.2) (tb_tabs b) || tb_more b.

(** Ctrl-K or Cmd-K. *)
Inductive Shortcut := focus_search | open_more.
Definition onKeyDown (key : string) (modified wide : bool) : option Shortcut :=
  if (toLowerCase key !== "k") || negb modified then None else Some (if wide then focus_search else open_more).

(** *** Facts *)

(** The choice survives a reload where storage works. *)
Lemma collapse_survives n (s : Storage) :
  st_works s = true ->
  let r := Nat.iter n toggle (mounted s) in mounted (rl_storage r) = r.
Proof.
  intros Hw. cbv zeta. assert (st_works (rl_storage (Nat.iter n toggle (mounted s))) = true /\
    mounted (rl_storage (Nat.iter n toggle (mounted s))) = Nat.iter n toggle (mounted s)) as [_ H]; [|exact H].
  induction n as [|n [IHw IH]]; [done|]. change (Nat.iter (S n) toggle (mounted s)) with (toggle (Nat.iter n toggle (mounted s))).
  revert IHw IH.
  generalize (Nat.iter n toggle (mounted s)) as r. intros r IHw IH. unfold toggle, mounted. cbn [rl_storage].
  unfold writeCollapsed, setItem. rewrite IHw. split; [done|]. unfold readCollapsed, getItem. cbn.
  by destruct (rl_collapsed r).
Qed.

(** The rail and the bar light the same entry, and never two. *)
Lemma rail_and_bar_agree isAdmin p :
  existsb (fun e => e.2.2) (side_rail isAdmin p) = tab_lit (bottomTabs isAdmin p) /\
  forall i j, In i NAV_ITEMS -> In j NAV_ITEMS -> isNavItemActive i p = true -> isNavItemActive j p = true -> i = j.
Proof.
  split; [|apply one_entry_lit]. unfold tab_lit, bottomTabs, side_rail.
  destruct isAdmin; cbn; rewrite !orb_false_r, !orb_assoc; reflexivity.
Qed.

(** One divider: above it what the system does, below it what one changes. *)
Lemma one_divider isAdmin p : List.length (List.filter fst (side_rail isAdmin p)) = 1%nat.
Proof. by destruct isAdmin. Qed.

(** A page of no entry, such as the documentation, lights nothing: the bar says
    that the operator is nowhere. *)
Lemma docs_is_nowhere isAdmin : tab_lit (bottomTabs isAdmin "/docs") = false.
Proof. by destruct isAdmin. Qed.
End Frame.

(** ** What the system is doing *)
Module Status.

Definition PILL_TONE (t : StatusTone) : string :=
  match t with st_ok => "ok" | st_warn => "warn" | st_down => "down" | st_unknown => "muted" end.
Definition pulses (t : StatusTone) : bool := match t with st_ok | st_unknown => false | _ => true end.

Definition stream_row (connection : ConnectionState) (reconnectAttempt : Z) : StatusTone * string :=
  match connection with
  | opened => (st_ok, "Connected")
  | connecting => (st_unknown, "Connecting…")
  | reconnecting => (st_warn, "Reconnecting (attempt " +:+ pretty reconnectAttempt +:+ ")")
  | closed => (st_down, "Disconnected")
  end.
Definition stream_note (connection : ConnectionState) (lastFrameAt : option Z) (now : Z) : string :=
  match connection with
  | opened =>
      "last frame " +:+
      formatRelative (match lastFrameAt with Some t => if t =? 0 then None else Some (toISOString t) | None => None end) now
  | _ => "positions on screen may be stale"
  end.

Inductive SensorList := api_unreachable | none_registered | sensor_rows (rows : list (bool * (string * option string))).
Definition sensors_row (health : option Health) (isError : bool) : string * SensorList :=
  let sensors := match health with Some h => hl_sensors h | None => [] end in
  let unhealthy := List.filter (fun s => negb (sh_healthy s)) sensors in
  ("Sensors (" +:+ pretty (zlen sensors - zlen unhealthy) +:+ "/" +:+ pretty (zlen sensors) +:+ ")",
   if isError then api_unreachable
   else match sensors with
        | [] => none_registered
        | _ => sensor_rows (map (fun s => (sh_healthy s, (sh_sensor_id s,
                 if negb (sh_healthy s) then truthy (sh_reason s) else None))) sensors)
        end).

(** The strip below the header. *)
Inductive OfflineStrip := strip (icon_offline : bool) (title detail : string).
Definition offlineBanner (f : Freshness) : option OfflineStrip :=
  if negb (fr_announce f) then None
  else Some (strip (bool_decide (fr_level f = lvl_offline)) (fr_title f) (fr_detail f)).

(** The button's face is as alarming as the panel: with the API answering and a
    sensor down it is not the face of a healthy system. *)
Lemma face_and_panel_agree (i : StatusInputs) (h : Health) :
  si_health i = Some h -> ss_tone (summariseStatus i) = st_ok ->
  si_connection i = opened /\ si_healthError i = false /\
  exists rows, (sensors_row (Some h) (si_healthError i)).2 = match hl_sensors h with [] => none_registered | _ => sensor_rows rows end /\
    Forall (fun r => r.1 = true /\ r.2.2 = None) rows.
Proof.
  intros Hh. unfold summariseStatus. rewrite Hh. destruct (si_healthError i); [done|].
  destruct (bool_decide (hl_status h = sys_down)); [done|]. destruct (match si_monitoring i with Some m => _ | None => _ end); [done|].
  destruct (bool_decide (hl_status h = sys_degraded) || _) eqn:Ed; [done|].
  destruct (negb (bool_decide (si_connection i = opened))) eqn:Ec; [done|]. intros _.
  apply negb_false_iff, bool_decide_eq_true in Ec. split; [done|]. split; [done|].
  apply orb_false_iff in Ed as [_ Ed%Z.ltb_ge].
  assert (List.filter (fun s => negb (sh_healthy s)) (hl_sensors h) = []) as Hf.
  { destruct (List.filter _ _); [done|]. unfold zlen in Ed. cbn in Ed. lia. }
  exists (map (fun s => (sh_healthy s, (sh_sensor_id s, if negb (sh_healthy s) then truthy (sh_reason s) else None))) (hl_sensors h)).
  unfold sensors_row. cbn [snd]. split; [destruct (hl_sensors h); reflexivity|].
  apply List.Forall_forall. intros r (s&<-&Hs)%in_map_iff. cbn.
  pose proof (proj1 (filter_nil_forall _ _) Hf s Hs) as Hn. cbn in Hn. apply negb_false_iff in Hn. by rewrite Hn.
Qed.
End Status.

(** ** The recording control *)
Module Recording.

Definition RECORDING_DESCRIPTION (r : RecordingState) : string :=
  match r with
  | rec_recording => "Detections are being recorded."
  | rec_no_coverage =>
      "Recording is on, but every sensor is unhealthy — nothing is reaching it. An empty map right now is evidence of nothing."
  | rec_degraded => "Recording, but at least one sensor is unhealthy — coverage is incomplete."
  | rec_paused => "Recording is stopped. Detections are being discarded."
  end.

(** [rc_sent] holds the switch's position of every request sent. *)
Record Control := {
  rc_data : option MonitoringState;
  rc_health : option Health;
  rc_confirming : bool;
  rc_mutation : Mutation;
  rc_sent : list bool
}.
Definition mounted (data : option MonitoringState) (health : option Health) : Control :=
  {| rc_data := data; rc_health := health; rc_confirming := false; rc_mutation := idle; rc_sent := [] |}.
Definition request (enabled : bool) : Request :=
  Api.setMonitoring enabled (if enabled then None else Some "paused from the web app").

Definition set_data (d : option MonitoringState) (c : Control) : Control :=
  {| rc_data := d; rc_health := rc_health c; rc_confirming := rc_confirming c; rc_mutation := rc_mutation c; rc_sent := rc_sent c |}.
Definition set_health (h : option Health) (c : Control) : Control :=
  {| rc_data := rc_data c; rc_health := h; rc_confirming := rc_confirming c; rc_mutation := rc_mutation c; rc_sent := rc_sent c |}.
Definition setConfirming (b : bool) (c : Control) : Control :=
  {| rc_data := rc_data c; rc_health := rc_health c; rc_confirming := b; rc_mutation := rc_mutation c; rc_sent := rc_sent c |}.
Definition set_mutation (m : Mutation) (c : Control) : Control :=
  {| rc_data := rc_data c; rc_health := rc_health c; rc_confirming := rc_confirming c; rc_mutation := m; rc_sent := rc_sent c |}.
Definition mutate (enabled : bool) (c : Control) : Control :=
  {| rc_data := rc_data c; rc_health := rc_health c; rc_confirming := rc_confirming c; rc_mutation := mutating;
     rc_sent := rc_sent c ++ [enabled] |}.

(** What is on screen. *)
Inductive Buttons := stop_and_cancel | pause_button | resume_button.
Record Shown := {
  sn_tone : Tone; sn_label : string; sn_title : string; sn_pulse : bool; sn_discarded : option Z; sn_buttons : Buttons }.
Definition recordingIndicator (c : Control) : option Shown :=
  match rc_data c with
  | None => None
  | Some data =>
      let state := recordingState (Some data) (rc_health c) ?? rec_paused in
      Some {| sn_tone := RECORDING_TONE state; sn_label := RECORDING_LABEL state; sn_title := RECORDING_DESCRIPTION state;
              sn_pulse := bool_decide (RECORDING_TONE state = tone_ok);
              sn_discarded := if negb (mn_enabled data) && (0 <? mn_discarded_while_paused data)
                              then Some (mn_discarded_while_paused data) else None;
              sn_buttons := if rc_confirming c then stop_and_cancel
                            else if mn_enabled data then pause_button else resume_button |}
  end.

Inductive Event :=
| data_is (d : option MonitoringState)
| health_is (h : option Health)
| pause_clicked
| stop_clicked
| cancel_clicked
| resume_clicked
| answered (r : MonitoringState + Failure).

Definition buttons (c : Control) : option Buttons := sn_buttons <$> recordingIndicator c.
Definition enabled (c : Control) (e : Event) : bool :=
  match e with
  | data_is _ | health_is _ => true
  | pause_clicked => match buttons c with Some pause_button => true | _ => false end
  | stop_clicked => match buttons c with Some stop_and_cancel => negb (mt_pending (rc_mutation c)) | _ => false end
  | cancel_clicked => match buttons c with Some stop_and_cancel => true | _ => false end
  | resume_clicked => match buttons c with Some resume_button => negb (mt_pending (rc_mutation c)) | _ => false end
  | answered _ => mt_pending (rc_mutation c)
  end.
Definition handle (c : Control) (e : Event) : Control :=
  match e with
  | data_is d => set_data d c
  | health_is h => set_health h c
  | pause_clicked => setConfirming true c
  | stop_clicked => mutate false c
  | cancel_clicked => setConfirming false c
  | resume_clicked => mutate true c
  | answered (inl state) => setConfirming false (set_data (Some state) (set_mutation (settled (inl state)) c))
  | answered (inr e) => set_mutation (settled (A := unit) (inr e)) c
  end.
Definition run := guarded_run enabled handle.

(** *** Facts *)

Lemma handle_confirming c e :
  enabled c e = true -> rc_confirming (handle c e) = true ->
  e = pause_clicked \/ (rc_confirming c = true /\ e <> cancel_clicked /\ forall m, e <> answered (inl m)).
Proof. intros He. destruct e as [d|h| | | | |[m|f]]; cbn; try done; auto; intros H; right; split_and!; done. Qed.

Lemma handle_sent c e :
  enabled c e = true ->
  rc_sent (handle c e) = rc_sent c \/
  (e = stop_clicked /\ rc_confirming c = true /\ rc_sent (handle c e) = rc_sent c ++ [false]) \/
  (e = resume_clicked /\ rc_sent (handle c e) = rc_sent c ++ [true]).
Proof.
  intros He. destruct e as [d|h| | | | |[m|f]]; cbn; auto. right. left. split; [done|]. split; [|done].
  cbn in He. unfold buttons, recordingIndicator in He. destruct (rc_data c) as [d|]; [|done]. cbn in He.
  destruct (rc_confirming c); [done|]. by destruct (mn_enabled d).
Qed.

(** Nothing but the operator's Pause and then Stop ever stops the recorder from
    this console: without a Pause no run sends the switch off. *)
Lemma stop_needs_a_pause es d h :
  ~ In pause_clicked es -> ~ In false (rc_sent (run (mounted d h) es)) /\ rc_confirming (run (mounted d h) es) = false.
Proof.
  assert (forall c, ~ In pause_clicked es -> ~ In false (rc_sent c) -> rc_confirming c = false ->
    ~ In false (rc_sent (run c es)) /\ rc_confirming (run c es) = false) as H.
  { induction es as [|e es IH]; intros c Hn Hs Hc; [done|]. cbn in Hn. unfold run. cbn [guarded_run fold_left].
    apply IH; [tauto| |]; unfold guarded; destruct (enabled c e) eqn:He; try done.
    - destruct (handle_sent c e He) as [->|[(_&Hx&_)|(_&->)]]; [done|congruence|]. rewrite in_app_iff. cbn. intuition done.
    - apply not_true_is_false. intros Hx. destruct (handle_confirming c e He Hx) as [->|[Hx' _]]; [tauto|congruence]. }
  intros Hn. apply H; [done|by intros []|done].
Qed.

(** What the pill says is so: it is green and pulses only while the switch is on
    and no sensor that health reports is missing, and says "Paused" exactly when
    the switch is off. *)
Lemma pill_tells_the_truth c s d :
  rc_data c = Some d -> recordingIndicator c = Some s ->
  (sn_label s = "Paused" <-> mn_enabled d = false) /\
  (sn_pulse s = true -> mn_enabled d = true /\
     forall h x, rc_health c = Some h -> In x (hl_sensors h) -> sh_healthy x = true) /\
  (sn_discarded s <> None -> mn_enabled d = false).
Proof.
  intros Hd. unfold recordingIndicator. rewrite Hd. intros [= <-]. cbn [sn_label sn_pulse sn_discarded].
  unfold recordingState. destruct (mn_enabled d); cbn [negb andb]; [|split_and!; done].
  split_and!; [|intros Hp; split; [done|]|done].
  - destruct (rc_health c) as [h|]; cbn; [|split; discriminate].
    destruct (zlen (hl_sensors h) =? 0); [split; discriminate|].
    destruct (_ =? 0); [split; discriminate|]. destruct (_ <? _); split; discriminate.
  - intros h x Hh Hx. rewrite Hh in Hp. cbn zeta in Hp.
    destruct (zlen (hl_sensors h) =? 0); [done|]. destruct (zlen (List.filter sh_healthy (hl_sensors h)) =? 0); [done|].
    destruct (_ <? _) eqn:El; [done|]. apply Z.ltb_ge in El.
    pose proof (filter_split_length sh_healthy (hl_sensors h)) as Hl.
    assert (List.filter (fun x => negb (sh_healthy x)) (hl_sensors h) = []) as Hf.
    { apply zlen_zero. pose proof (zlen_nonneg (List.filter (fun x => negb (sh_healthy x)) (hl_sensors h))). lia. }
    pose proof (proj1 (filter_nil_forall _ _) Hf x Hx) as Hn. by apply negb_false_iff in Hn.
Qed.

(** Paused from another console while the question is open: the control still
    asks whether to stop, and the way back is not on screen. *)
Lemma paused_elsewhere_keeps_the_question since :
  let on b := Some {| mn_enabled := b; mn_since := since; mn_reason := None; mn_discarded_while_paused := 0 |} in
  let c := run (mounted (on true) None) [pause_clicked; data_is (on false)] in
  (sn_label <$> recordingIndicator c) = Some "Paused" /\ buttons c = Some stop_and_cancel /\ enabled c resume_clicked = false.
Proof. done. Qed.
End Recording.
