(* ===== verification/SensorsPage.v ===== *)
(** * SensorsPage: the banner over the map, the sensors, the recordings

    [SkyStateBanner] of [features/health/components.tsx] over [use-dismissal.ts]
    and the swipe; [routes/sensors.tsx]; [features/captures/sensor-captures.tsx]
    and [routes/captures/$captureId.tsx]. *)
From Stdlib Require Import ZArith Bool String Ascii List Lia.
From stdpp Require Import base option list strings pretty.
From S2P Require Import Prelude JsNumber JsDate JsString JsParse Format ApiTypes Transport LiveStream LogStore Notifications HealthView.
From S2P Require Import SensorDetail Calibration Drawer TwoClicks Access.

(** ** The banner *)
Module Banner.
Import Swipe.

Definition QUIET_SKY_DISMISS_MS : Z := 20000.
Definition storageKey : string := "classg.dismissed.sky-state".
Definition kind_string (k : SkyStateKind) : string :=
  match k with
  | sky_active => "active" | sky_active_degraded => "active-degraded" | sky_quiet => "quiet"
  | sky_degraded => "degraded" | sky_blind => "blind" | sky_unknown => "unknown"
  end.

(** [useDismissal]: the value last dismissed, read once at mount. *)
Definition useDismissal (dismissedValue : option string) (currentValue : string) : bool :=
  bool_decide (dismissedValue = Some currentValue).

(** [bn_body] is the mounted body's swipe, if the banner renders one; [bn_auto]
    whether its twenty-second timer runs.  A dismissal under way carries the
    instance of the banner and the kind its closure was made with. *)
Record Banner := {
  bn_mounted : bool;
  bn_instance : nat;
  bn_state : SkyState;
  bn_dismissedValue : option string;
  bn_store : Storage;
  bn_body : Swipe;
  bn_auto : bool;
  bn_leaving : list (nat * string)
}.

Definition kind (b : Banner) : string := kind_string (sk_kind (bn_state b)).
Definition dismissible (b : Banner) : bool := sk_absenceIsEvidence (bn_state b).
Definition dismissed (b : Banner) : bool := dismissible b && useDismissal (bn_dismissedValue b) (kind b).
Definition shown (b : Banner) : bool := bn_mounted b && negb (dismissed b).
Definition close_button (b : Banner) : bool := shown b && dismissible b.

Definition set_body (s : Swipe) (b : Banner) : Banner :=
  {| bn_mounted := bn_mounted b; bn_instance := bn_instance b; bn_state := bn_state b;
     bn_dismissedValue := bn_dismissedValue b; bn_store := bn_store b; bn_body := s; bn_auto := bn_auto b;
     bn_leaving := bn_leaving b |}.
Definition set_auto (auto : bool) (b : Banner) : Banner :=
  {| bn_mounted := bn_mounted b; bn_instance := bn_instance b; bn_state := bn_state b;
     bn_dismissedValue := bn_dismissedValue b; bn_store := bn_store b; bn_body := bn_body b; bn_auto := auto;
     bn_leaving := bn_leaving b |}.
Definition arm (b : Banner) : Banner :=
  {| bn_mounted := bn_mounted b; bn_instance := bn_instance b; bn_state := bn_state b;
     bn_dismissedValue := bn_dismissedValue b; bn_store := bn_store b; bn_body := bn_body b; bn_auto := bn_auto b;
     bn_leaving := bn_leaving b ++ [(bn_instance b, kind b)] |}.
Definition set_state (s : SkyState) (b : Banner) : Banner :=
  {| bn_mounted := bn_mounted b; bn_instance := bn_instance b; bn_state := s;
     bn_dismissedValue := bn_dismissedValue b; bn_store := bn_store b; bn_body := bn_body b; bn_auto := bn_auto b;
     bn_leaving := bn_leaving b |}.

(** A fresh body: its hooks' initial state, and the effect's timer. *)
Definition remount_body (b : Banner) : Banner := set_auto (shown b && dismissible b) (set_body still b).

(** The sky's state at this render.  The body is keyed on the kind, and there is
    none while the banner is dismissed. *)
Definition render (s : SkyState) (b : Banner) : Banner :=
  let b' := set_state s b in
  if (kind b' === kind b) && shown b && shown b' then b' else remount_body b'.

Definition with_commit (r : Swipe * bool) (b : Banner) : Banner :=
  let b := set_body r.1 b in if r.2 then arm b else b.
(** The effect's [commit] is the one of its own render: [closing] was null then. *)
Definition auto_commit (b : Banner) : Banner :=
  arm (set_auto false (set_body
    {| sw_closing := Some 1; sw_dragX := sw_dragX (bn_body b); sw_dragging := sw_dragging (bn_body b);
       sw_dragStartX := sw_dragStartX (bn_body b); sw_suppressClick := sw_suppressClick (bn_body b) |} b)).

(** A dismissal's timer: the store, and the state of the instance that asked. *)
Definition store_dismissal (who : nat * string) (b : Banner) : Banner :=
  {| bn_mounted := bn_mounted b; bn_instance := bn_instance b; bn_state := bn_state b;
     bn_dismissedValue := if bn_mounted b && (who.1 =? bn_instance b)%nat then Some who.2 else bn_dismissedValue b;
     bn_store := dismissal_dismiss storageKey who.2 (bn_store b); bn_body := bn_body b; bn_auto := bn_auto b;
     bn_leaving := bn_leaving b |}.
Definition dismiss (who : nat * string) (b : Banner) : Banner :=
  let b' := store_dismissal who b in if shown b && shown b' then b' else remount_body b'.

Fixpoint take_out (who : nat * string) (l : list (nat * string)) : list (nat * string) :=
  match l with [] => [] | x :: l => if (x.1 =? who.1)%nat && (x.2 === who.2) then l else x :: take_out who l end.
Definition forget (who : nat * string) (b : Banner) : Banner :=
  {| bn_mounted := bn_mounted b; bn_instance := bn_instance b; bn_state := bn_state b;
     bn_dismissedValue := bn_dismissedValue b; bn_store := bn_store b; bn_body := bn_body b; bn_auto := bn_auto b;
     bn_leaving := take_out who (bn_leaving b) |}.

(** Leaving the live page, and coming back to it. *)
Definition leave (b : Banner) : Banner :=
  set_auto false (set_body still
    {| bn_mounted := false; bn_instance := bn_instance b; bn_state := bn_state b;
       bn_dismissedValue := bn_dismissedValue b; bn_store := bn_store b; bn_body := bn_body b; bn_auto := bn_auto b;
       bn_leaving := bn_leaving b |}).
Definition enter (s : SkyState) (b : Banner) : Banner :=
  remount_body
    {| bn_mounted := true; bn_instance := S (bn_instance b); bn_state := s;
       bn_dismissedValue := dismissal_read storageKey (bn_store b); bn_store := bn_store b; bn_body := bn_body b;
       bn_auto := bn_auto b; bn_leaving := bn_leaving b |}.

Inductive Event :=
| sky_is (health : option Health) (trackCount : Z)
| pointer_down (x : num)
| pointer_moved (x : num)
| pointer_up
| banner_clicked
| close_clicked
| auto_fires
| timer_fires (who : nat * string)
| page_left
| page_entered (health : option Health) (trackCount : Z).

Definition step (b : Banner) (e : Event) : Banner :=
  match e with
  | sky_is h n => if bn_mounted b then render (computeSkyState h n) b else b
  | pointer_down x => if shown b then set_body (onPointerDown (dismissible b) x (bn_body b)) b else b
  | pointer_moved x => if shown b then set_body (onPointerMove x (bn_body b)) b else b
  | pointer_up => if shown b then with_commit (onPointerUp (bn_body b)) b else b
  | banner_clicked => if shown b then set_body (onClickCapture (bn_body b)).1 b else b
  | close_clicked => if close_button b then with_commit (commit 1 (onClickCapture (bn_body b)).1) b else b
  | auto_fires => if bn_auto b then auto_commit b else b
  | timer_fires who =>
      if existsb (fun x => (x.1 =? who.1)%nat && (x.2 === who.2)) (bn_leaving b) then dismiss who (forget who b) else b
  | page_left => if bn_mounted b then leave b else b
  | page_entered h n => if bn_mounted b then b else enter (computeSkyState h n) b
  end.
Definition run (b : Banner) (es : list Event) : Banner := fold_left step es b.
Definition first_visit (s : Storage) : Banner :=
  {| bn_mounted := false; bn_instance := 0; bn_state := computeSkyState None 0; bn_dismissedValue := None;
     bn_store := s; bn_body := still; bn_auto := false; bn_leaving := [] |}.

(** *** Facts *)

(** Reassuring kinds are those whose empty map is evidence. *)
Definition reassuring (k : string) : bool := (k === "active") || (k === "quiet").
Lemma kind_decides h n :
  sk_absenceIsEvidence (computeSkyState h n) = reassuring (kind_string (sk_kind (computeSkyState h n))).
Proof.
  unfold computeSkyState. destruct h as [h|]; [|done]. cbv zeta.
  destruct (zlen (List.filter sh_healthy (hl_sensors h)) =? 0); [done|].
  destruct (0 <? zlen (List.filter _ _)); [by destruct (0 <? n)|]. by destruct (0 <? n).
Qed.

(** What every reachable banner satisfies. *)
Record Sound (b : Banner) : Prop := {
  so_kind : dismissible b = reassuring (kind b);
  so_still : dismissible b = false -> bn_body b = still;
  so_auto : bn_auto b = true -> shown b = true /\ dismissible b = true;
  so_gone : shown b = false -> bn_body b = still;
  so_leaving : Forall (fun x => reassuring x.2 = true) (bn_leaving b);
  so_timer : sw_closing (bn_body b) <> None -> In (bn_instance b, kind b) (bn_leaving b)
}.

Lemma sound_remount b : dismissible b = reassuring (kind b) ->
  Forall (fun x => reassuring x.2 = true) (bn_leaving b) -> Sound (remount_body b).
Proof.
  intros Hk Hl. split; try done.
  change (bn_auto (remount_body b)) with (shown b && dismissible b). by intros ?%andb_prop.
Qed.

(** A body that moves: what its row keeps of the invariant. *)
Lemma sound_body s b : Sound b -> shown b = true ->
  (dismissible b = false -> s = still) -> sw_closing s = sw_closing (bn_body b) -> Sound (set_body s b).
Proof.
  intros HS Hsh Hd Hc. split; try apply HS; try done.
  - intros H. change (shown b = false) in H. congruence.
  - cbn. rewrite Hc. apply HS.
Qed.
Lemma sound_arm s b : Sound b -> dismissible b = true -> shown b = true -> Sound (arm (set_body s b)).
Proof.
  intros HS Hd Hsh. split; try apply HS.
  - intros H. change (dismissible b = false) in H. congruence.
  - intros H. change (shown b = false) in H. congruence.
  - cbn. apply Forall_app. split; [apply HS|]. repeat constructor. rewrite <- Hd. symmetry. apply HS.
  - intros _. cbn. apply in_or_app. right. by left.
Qed.
Lemma sound_commit r b : Sound b -> shown b = true -> (dismissible b = false -> r = (still, false)) ->
  (r.2 = false -> sw_closing r.1 = sw_closing (bn_body b)) -> Sound (with_commit r b).
Proof.
  intros HS Hsh Hd Hc. destruct (dismissible b) eqn:E.
  - destruct r as [s [|]]; cbn in *; [by apply sound_arm|]. apply sound_body; auto. congruence.
  - rewrite Hd by done. cbn. apply sound_body; auto. by rewrite (so_still b HS E).
Qed.

Lemma sound_render h n b : Sound b -> bn_mounted b = true -> Sound (render (computeSkyState h n) b).
Proof.
  intros HS Hm. unfold render. cbv zeta. set (b' := set_state _ b).
  assert (dismissible b' = reassuring (kind b')) as Hk by apply kind_decides.
  destruct ((kind b' === kind b) && shown b && shown b') eqn:E; [|apply sound_remount; [done|apply HS]].
  apply andb_prop in E as [[Ek%String.eqb_eq Es]%andb_prop Es'].
  assert (dismissible b' = dismissible b) as Hd by (rewrite Hk, Ek; symmetry; apply HS).
  split; try done.
  - rewrite Hd. apply HS.
  - intros Ha. split; [done|]. rewrite Hd. by apply (so_auto b HS).
  - congruence.
  - apply HS.
  - intros Hc. rewrite Ek. by apply HS.
Qed.

Lemma same_who x y : (x.1 =? y.1)%nat && (x.2 === y.2) = true <-> x = y.
Proof.
  destruct x, y. cbn. rewrite andb_true_iff, Nat.eqb_eq, String.eqb_eq. split; [intros [-> ->]|intros [= -> ->]]; auto.
Qed.
Lemma take_out_sub who x l : In x (take_out who l) -> In x l.
Proof. induction l as [|y l IH]; [done|]. cbn. destruct (_ && _); cbn; tauto. Qed.
Lemma take_out_rest who x l : x <> who -> In x l -> In x (take_out who l).
Proof.
  intros Hne. induction l as [|y l IH]; [done|]. cbn. destruct (_ && _) eqn:E; cbn; [|tauto].
  apply same_who in E as ->. intros [<-|H]; [congruence|done].
Qed.

Lemma dismissed_when_mine who b :
  bn_mounted b = true -> who = (bn_instance b, kind b) -> dismissible b = true ->
  shown (dismiss who (forget who b)) = false.
Proof.
  intros Hm -> Hd. unfold dismiss. cbv zeta. set (b' := store_dismissal _ _).
  assert (shown b' = false) as Hs.
  { unfold shown, dismissed, useDismissal. change (dismissible b') with (dismissible b). rewrite Hd. cbn [andb].
    change (bn_dismissedValue b') with
      (if bn_mounted b && (bn_instance b =? bn_instance b)%nat then Some (kind b) else bn_dismissedValue b).
    rewrite Hm, Nat.eqb_refl. change (kind b') with (kind b). cbn [andb].
    rewrite bool_decide_true by done. apply andb_false_r. }
  rewrite Hs, andb_false_r. exact Hs.
Qed.

Lemma sound_dismiss who b : Sound b -> Sound (dismiss who (forget who b)).
Proof.
  intros HS. assert (Forall (fun x => reassuring x.2 = true) (take_out who (bn_leaving b))) as Hl.
  { apply List.Forall_forall. intros x Hx%take_out_sub. pose proof (so_leaving b HS) as H.
    rewrite List.Forall_forall in H. by apply H. }
  destruct (decide (bn_mounted b = true /\ who = (bn_instance b, kind b) /\ dismissible b = true)) as [(Hm&Hw&Hd)|Hne].
  - pose proof (dismissed_when_mine who b Hm Hw Hd) as Hs. unfold dismiss in Hs |- *. cbv zeta in Hs |- *.
    set (b' := store_dismissal _ _) in *.
    destruct (shown (forget who b) && shown b') eqn:E; [|apply sound_remount; [apply HS|exact Hl]].
    apply andb_prop in E as [_ E]. congruence.
  - unfold dismiss. cbv zeta. set (b' := store_dismissal _ _).
    destruct (shown (forget who b) && shown b') eqn:E; [|apply sound_remount; [apply HS|exact Hl]].
    apply andb_prop in E as [E1 E2]. split; try apply HS; try done.
    + intros Ha. split; [done|]. by apply (so_auto b HS).
    + congruence.
    + intros Hc. apply take_out_rest; [|by apply HS]. intros He. apply Hne.
      split_and!; [by revert E1; intros [H _]%andb_prop|symmetry; exact He|]. apply not_false_is_true. intros Hf. apply Hc.
      change (bn_body b') with (bn_body b). by rewrite (so_still b HS Hf).
Qed.

Lemma sound_step b e : Sound b -> Sound (step b e).
Proof.
  intros HS. destruct e as [h n|x|x| | | | |who| |h n]; cbn [step].
  - destruct (bn_mounted b) eqn:E; [by apply sound_render|done].
  - destruct (shown b) eqn:E; [|done]. apply sound_body; auto.
    + intros Hd. by rewrite (so_still b HS Hd), Hd.
    + unfold onPointerDown. by case_match.
  - destruct (shown b) eqn:E; [|done]. apply sound_body; auto.
    + intros Hd. by rewrite (so_still b HS Hd).
    + unfold onPointerMove. by case_match.
  - destruct (shown b) eqn:E; [|done]. apply sound_commit; auto.
    + intros Hd. by rewrite (so_still b HS Hd).
    + apply up_arms.
  - destruct (shown b) eqn:E; [|done]. apply sound_body; auto.
    + intros Hd. by rewrite (so_still b HS Hd).
    + apply click_keeps.
  - unfold close_button. destruct (shown b) eqn:E; [|done]. destruct (dismissible b) eqn:Ed; [|done]. cbn [andb].
    apply sound_commit; auto; [congruence|]. intros H. rewrite commit_arms by done. apply click_keeps.
  - destruct (bn_auto b) eqn:E; [|done]. pose proof (so_auto b HS E) as [Hs Hd]. unfold auto_commit.
    assert (Sound (set_auto false b)) as HS'.
    { destruct HS as [H1 H2 H3 H4 H5 H6]. by split. }
    exact (sound_arm {| sw_closing := Some 1; sw_dragX := _; sw_dragging := _; sw_dragStartX := _; sw_suppressClick := _ |}
      (set_auto false b) HS' Hd Hs).
  - destruct (existsb _ _); [by apply sound_dismiss|done].
  - destruct (bn_mounted b); [|done]. split; try done; apply HS.
  - destruct (bn_mounted b); [done|]. apply sound_remount; [apply kind_decides|apply HS].
Qed.
Lemma sound_run es b : Sound b -> Sound (run b es).
Proof. revert b. induction es as [|e es IH]; intros b H; [done|]. apply IH, sound_step, H. Qed.
Lemma sound_first s : Sound (first_visit s).
Proof. by split. Qed.

(** C16. The banner over the map, in any run of the sky's states, the operator's
    gestures, its timers and visits to the page.  While it says that part of the
    sky is unwatched it is on screen, in its place, and offers no close control,
    whatever was swiped, dismissed or still under way before.  A dismissal is
    only ever asked of a banner that reassures; one that is sliding out always
    has its timer, and the timer takes it off the page. *)
Theorem warning_is_never_hidden (s : Storage) (es : list Event) :
  let b := run (first_visit s) es in
  (bn_mounted b = true -> dismissible b = false ->
     shown b = true /\ bn_body b = still /\ close_button b = false /\ bn_auto b = false) /\
  (forall who, In who (bn_leaving b) -> reassuring who.2 = true) /\
  (sw_closing (bn_body b) <> None ->
     dismissible b = true /\ In (bn_instance b, kind b) (bn_leaving b) /\
     shown (step b (timer_fires (bn_instance b, kind b))) = false).
Proof.
  intros b. pose proof (sound_run es _ (sound_first s)) as HS. fold b in HS. split; [|split].
  - intros Hm Hd. unfold close_button, shown, dismissed. rewrite Hm, Hd. cbn.
    split_and!; [done|by apply HS|done|]. apply not_true_is_false. intros Ha.
    destruct (so_auto b HS Ha). congruence.
  - intros who Hw. pose proof (so_leaving b HS) as H. rewrite List.Forall_forall in H. by apply H.
  - intros Hc. pose proof (so_timer b HS Hc) as Hin.
    assert (dismissible b = true) as Hd.
    { apply not_false_is_true. intros Hf. apply Hc. by rewrite (so_still b HS Hf). }
    assert (bn_mounted b = true) as Hm.
    { apply not_false_is_true. intros Hf. apply Hc. by rewrite (so_gone b HS) by (unfold shown; by rewrite Hf). }
    split_and!; [done|done|]. cbn [step].
    destruct (existsb _ _) eqn:E; [by apply dismissed_when_mine|].
    rewrite <- not_true_iff_false, existsb_exists in E. exfalso. apply E. eexists. split; [exact Hin|].
    cbn. by rewrite Nat.eqb_refl, String.eqb_refl.
Qed.
End Banner.

(** ** The sensors *)
Module Sensors.

(** [ss_search] is the [sensor] of the address; [ss_requested] the sensor of the
    last restart ([restart.variables]). *)
Record Page := {
  ss_search : option string;
  ss_sensorsData : option (list SensorHealth);
  ss_health : option Health;
  ss_captures : option (list Capture);
  ss_confirmingId : option string;
  ss_restart : Mutation;
  ss_requested : option string;
  ss_sent : list string
}.
Definition opened (search : option string) : Page :=
  {| ss_search := search; ss_sensorsData := None; ss_health := None; ss_captures := None; ss_confirmingId := None;
     ss_restart := idle; ss_requested := None; ss_sent := [] |}.

Definition sensors (p : Page) : list SensorHealth :=
  match ss_sensorsData p with
  | Some l => l
  | None => match ss_health p with Some h => hl_sensors h | None => [] end
  end.
Definition effective (p : Page) : option string :=
  match ss_search p with Some s => Some s | None => sh_sensor_id <$> head (sensors p) end.
Definition selectedSensor (p : Page) : option SensorHealth :=
  List.find (fun s => bool_decide (Some (sh_sensor_id s) = effective p)) (sensors p).

(** *** What is on screen *)
Definition recordings (p : Page) : string :=
  let n := zlen (ss_captures p ?? []) in if n =? 1 then "1 recording" else pretty n +:+ " recordings".
Definition row_text (now : Z) (s : SensorHealth) : string :=
  if sh_healthy s
  then formatRelative (Some (sh_last_heartbeat s)) now +:+
       match sh_detections_5m s with Some n => " · " +:+ pretty n +:+ " detections" | None => "" end
  else "unhealthy".
Definition systemFooter (p : Page) : list (string * string) :=
  [("Status", match ss_health p with Some h => SystemStatus_string (hl_status h) | None => EMPTY end);
   ("Uptime", match ss_health p with Some h => formatDuration (hl_uptime_s h) | None => EMPTY end);
   ("Version", match ss_health p with Some h => hl_version h | None => EMPTY end)].

Definition restartAvailable (s : SensorHealth) : bool :=
  match sh_config s with Some c => rt_restart_available c | None => true end.
Definition isConfirming (s : SensorHealth) (p : Page) : bool := bool_decide (ss_confirmingId p = Some (sh_sensor_id s)).
Definition requested (s : SensorHealth) (p : Page) : bool := bool_decide (ss_requested p = Some (sh_sensor_id s)).
Definition isRestarting (s : SensorHealth) (p : Page) : bool := mt_pending (ss_restart p) && requested s p.
Definition restartFailed (s : SensorHealth) (p : Page) : option Failure :=
  if requested s p then mt_error (ss_restart p) else None.
Definition limitations (s : SensorHealth) : list string :=
  omap id
    [if restartAvailable s then None
     else Some ((sh_config s ≫= rt_restart_unavailable_reason) ?? "no restart command is available in the API runtime");
     captureLimitation s].
Definition undeclared (s : SensorHealth) : option string :=
  match sh_config s with
  | Some c =>
      if rt_expected c then None
      else Some (sh_sensor_id s +:+ ":" +:+ SensorKind_string (sh_sensor_kind s) +:+
                 (if sh_optional s ?? false then ":optional" else ""))
  | None => None
  end.

Inductive RestartControl := no_control | confirm_and_cancel (disabled : bool) | restart_button (disabled : bool) (label : string).
Definition restartControl (s : SensorHealth) (p : Page) : RestartControl :=
  if negb (restartAvailable s) then no_control
  else if isConfirming s p then confirm_and_cancel (mt_pending (ss_restart p))
  else restart_button (mt_pending (ss_restart p)) (if isRestarting s p then "Restarting…" else "Restart").
Inductive Detail := sensor_detail (s : SensorHealth) | no_sensors_reporting.
Definition detail (p : Page) : Detail :=
  match selectedSensor p with Some s => sensor_detail s | None => no_sensors_reporting end.

(** *** Events *)
Inductive Event :=
| address_is (search : option string)
| sensors_are (l : option (list SensorHealth))
| health_is (h : option Health)
| captures_are (l : option (list Capture))
| restart_clicked (id : string)
| confirm_clicked (id : string)
| cancel_clicked (id : string)
| restart_settled (r : unit + Failure).

Definition on_screen (id : string) (p : Page) : option RestartControl :=
  match selectedSensor p with
  | Some s => if sh_sensor_id s === id then Some (restartControl s p) else None
  | None => None
  end.

Definition with_data (sd : option (list SensorHealth)) (h : option Health) (c : option (list Capture)) (p : Page) : Page :=
  {| ss_search := ss_search p; ss_sensorsData := sd; ss_health := h; ss_captures := c;
     ss_confirmingId := ss_confirmingId p; ss_restart := ss_restart p; ss_requested := ss_requested p; ss_sent := ss_sent p |}.
Definition navigate (search : option string) (p : Page) : Page :=
  {| ss_search := search; ss_sensorsData := ss_sensorsData p; ss_health := ss_health p; ss_captures := ss_captures p;
     ss_confirmingId := ss_confirmingId p; ss_restart := ss_restart p; ss_requested := ss_requested p; ss_sent := ss_sent p |}.
Definition selectSensor (id : string) (p : Page) : Page := navigate (Some id) p.
Definition goBack (p : Page) : Page := navigate None p.
Definition setConfirmingId (id : option string) (p : Page) : Page :=
  {| ss_search := ss_search p; ss_sensorsData := ss_sensorsData p; ss_health := ss_health p; ss_captures := ss_captures p;
     ss_confirmingId := id; ss_restart := ss_restart p; ss_requested := ss_requested p; ss_sent := ss_sent p |}.
Definition set_restart (m : Mutation) (p : Page) : Page :=
  {| ss_search := ss_search p; ss_sensorsData := ss_sensorsData p; ss_health := ss_health p; ss_captures := ss_captures p;
     ss_confirmingId := ss_confirmingId p; ss_restart := m; ss_requested := ss_requested p; ss_sent := ss_sent p |}.
Definition restart_mutate (id : string) (p : Page) : Page :=
  {| ss_search := ss_search p; ss_sensorsData := ss_sensorsData p; ss_health := ss_health p; ss_captures := ss_captures p;
     ss_confirmingId := ss_confirmingId p; ss_restart := mutating; ss_requested := Some id; ss_sent := ss_sent p ++ [id] |}.
Definition request (id : string) : Request := Api.restartSensor id.

Definition enabled (p : Page) (e : Event) : bool :=
  match e with
  | address_is _ | sensors_are _ | health_is _ | captures_are _ => true
  | restart_clicked id => match on_screen id p with Some (restart_button disabled _) => negb disabled | _ => false end
  | confirm_clicked id => match on_screen id p with Some (confirm_and_cancel disabled) => negb disabled | _ => false end
  | cancel_clicked id => match on_screen id p with Some (confirm_and_cancel _) => true | _ => false end
  | restart_settled _ => mt_pending (ss_restart p)
  end.
Definition handle (confirmDestructive : bool) (p : Page) (e : Event) : Page :=
  match e with
  | address_is s => navigate s p
  | sensors_are l => with_data l (ss_health p) (ss_captures p) p
  | health_is h => with_data (ss_sensorsData p) h (ss_captures p) p
  | captures_are l => with_data (ss_sensorsData p) (ss_health p) l p
  | restart_clicked id => if confirmDestructive then setConfirmingId (Some id) p else restart_mutate id p
  | confirm_clicked id => restart_mutate id p
  | cancel_clicked _ => setConfirmingId None p
  | restart_settled r => setConfirmingId None (set_restart (settled r) p)
  end.
Definition run (confirmDestructive : bool) := guarded_run enabled (handle confirmDestructive).

(** *** Facts *)

Definition restart_kind (id : string) (e : Event) : Click :=
  match e with
  | restart_clicked i => if i === id then asks else elsewhere
  | cancel_clicked i => if i === id then withdraws else elsewhere
  | confirm_clicked i => if i === id then confirms else elsewhere
  | _ => elsewhere
  end.
Definition restarts (id : string) (p : Page) : Z := zlen (List.filter (fun i => i === id) (ss_sent p)).
(** The question stands, and no restart is under way. *)
Definition armed (id : string) (p : Page) : bool :=
  bool_decide (ss_confirmingId p = Some id) && negb (mt_pending (ss_restart p)).

Lemma confirming_on_screen id p b : on_screen id p = Some (confirm_and_cancel b) ->
  ss_confirmingId p = Some id /\ b = mt_pending (ss_restart p).
Proof.
  unfold on_screen. destruct (selectedSensor p) as [s|]; [|done]. destruct (String.eqb_spec (sh_sensor_id s) id) as [<-|]; [|done].
  unfold restartControl, isConfirming. destruct (negb (restartAvailable s)); [done|].
  destruct (bool_decide _) eqn:E; [|done]. apply bool_decide_eq_true in E. intros [= <-]. done.
Qed.

#[export] Instance restart_guarded id : TwoClick enabled (handle true) (restart_kind id) (armed id) (restarts id).
Proof.
  split; intros p e He.
  - destruct e as [s|l|h|l|i|i|i|r]; cbn [handle restart_kind]; unfold armed; cbn; try (intros H; by right).
    + destruct (String.eqb_spec i id) as [->|Hne]; [by left|]. by rewrite bool_decide_false by congruence.
    + by rewrite andb_false_r.
  - destruct e as [s|l|h|l|i|i|i|r]; cbn [handle restart_kind]; try (left; reflexivity).
    unfold restarts. cbn [restart_mutate ss_sent]. rewrite Accounts.filter_snoc.
    destruct (String.eqb_spec i id) as [->|]; [|left; lia]. right. split; [lia|]. split; [|done].
    cbn [enabled] in He. destruct (on_screen id p) as [[|b|]|] eqn:Eo; try done.
    apply confirming_on_screen in Eo as [Hc ->]. unfold armed. rewrite Hc, He. by rewrite bool_decide_true.
Qed.

(** With the preference for a second click on, in every run of the sensors
    page the restarts sent for a sensor are at most the confirmations the
    operator made for that very sensor while it was the one on screen; a second
    restart is never sent while one is under way; and whatever is sent, asked
    for or confirmed, the detail shown is of the sensor the address names. *)
Lemma restart_takes_two_clicks (search : option string) (es : list Event) :
  let p := run true (opened search) es in
  (forall id, restarts id p <= confirmations (clicks enabled (handle true) (restart_kind id) (opened search) es)) /\
  (forall b e, mt_pending (ss_restart p) = true -> ss_sent (guarded enabled (handle b) p e) = ss_sent p) /\
  (forall s id, detail p = sensor_detail s -> ss_search p = Some id -> In s (sensors p) /\ sh_sensor_id s = id).
Proof.
  intros p. split; [|split].
  - intros id. pose proof (sends_are_confirmed enabled (handle true) (restart_kind id) (armed id) (restarts id) (opened search) es) as H.
    assert (armed id (opened search) = false) as Ha.
    { unfold armed. cbn. by rewrite bool_decide_false. }
    specialize (H Ha). change (restarts id (opened search)) with 0 in H. unfold p, run. lia.
  - intros b e Hp. unfold guarded. destruct (enabled p e) eqn:He; [|done].
    destruct e as [s|l|h|l|i|i|i|r]; cbn [handle]; try done; cbn [enabled] in He.
    + destruct b; [done|]. unfold on_screen in He. destruct (selectedSensor p) as [s|]; [|done].
      destruct (sh_sensor_id s === i); [|done]. unfold restartControl in He. rewrite Hp in He.
      destruct (negb _); [done|]. by destruct (isConfirming s p).
    + destruct (on_screen i p) as [[|d|]|] eqn:Eo; try done. apply confirming_on_screen in Eo as [_ ->]. by rewrite Hp in He.
  - unfold detail, selectedSensor, effective. intros s id Hd Hs. rewrite Hs in Hd.
    destruct (List.find _ _) as [x|] eqn:Ef; [|done]. injection Hd as ->. apply find_some in Ef as [Hin He].
    apply bool_decide_eq_true in He. by injection He.
Qed.

(** An address that names a sensor no longer listed says that none is reporting. *)
Lemma unknown_sensor_says_none_reports s p :
  ss_search p = Some s -> (forall x, In x (sensors p) -> sh_sensor_id x <> s) -> detail p = no_sensors_reporting.
Proof.
  intros Hs Hn. unfold detail, selectedSensor, effective. rewrite Hs.
  destruct (List.find _ _) as [x|] eqn:Ef; [|done]. apply find_some in Ef as [Hin He].
  apply bool_decide_eq_true in He. injection He as He. by destruct (Hn x Hin).
Qed.
End Sensors.

(** ** The recordings *)
Module Captures.

(** *** Starting one *)
Record Control := {
  ct_label : string;
  ct_channel : num;
  ct_duration : num;
  ct_start : Mutation;
  ct_sent : list json
}.
Definition capture_config (s : SensorHealth) : option SensorCaptureConfig := rt_capture <$> sh_config s.
Definition mounted (s : SensorHealth) : Control :=
  {| ct_label := match capture_config s ≫= cc_label with Some l => l | None => sh_sensor_id s +:+ "-capture" end;
     ct_channel := of_Z (match capture_config s ≫= cc_channel with Some c => c | None => 6 end);
     ct_duration := match capture_config s ≫= cc_duration_s with Some d => d | None => of_Z 120 end;
     ct_start := idle; ct_sent := [] |}.
Definition supported (s : SensorHealth) : bool := match capture_config s with Some c => cc_supported c | None => false end.
Definition iface (s : SensorHealth) : string := match capture_config s ≫= cc_interface with Some i => i | None => "" end.

(** [min] and [max] of a number field, whose step is 1: the browser does not
    submit a form with a field outside them. *)
Definition within (low high : Z) (v : num) : bool :=
  is_integer v && nle (of_Z low) v && nle v (of_Z high).
Definition body (s : SensorHealth) (c : Control) : json :=
  JObj [("iface", JStr (iface s)); ("channel", JNum (ct_channel c)); ("duration_s", JNum (ct_duration c));
        ("label", JStr (ct_label c))].

Definition change (label : string) (channel duration : num) (m : Mutation) (sent : list json) : Control :=
  {| ct_label := label; ct_channel := channel; ct_duration := duration; ct_start := m; ct_sent := sent |}.
Inductive Event :=
| channel_typed (text : string)
| duration_typed (text : string)
| label_typed (text : string)
| submitted
| start_settled (r : unit + Failure).
Definition step (s : SensorHealth) (c : Control) (e : Event) : Control :=
  if negb (supported s) then c
  else match e with
  | channel_typed t => change (ct_label c) (Number t) (ct_duration c) (ct_start c) (ct_sent c)
  | duration_typed t => change (ct_label c) (ct_channel c) (Number t) (ct_start c) (ct_sent c)
  | label_typed t => change t (ct_channel c) (ct_duration c) (ct_start c) (ct_sent c)
  | submitted =>
      if negb (mt_pending (ct_start c) || (iface s === "")) && within 1 165 (ct_channel c) && within 1 3600 (ct_duration c)
      then change (ct_label c) (ct_channel c) (ct_duration c) mutating (ct_sent c ++ [body s c])
      else c
  | start_settled r => if mt_pending (ct_start c) then change (ct_label c) (ct_channel c) (ct_duration c) (settled r) (ct_sent c) else c
  end.
Definition run (s : SensorHealth) (es : list Event) : Control := fold_left (step s) es (mounted s).
Definition start_alert (c : Control) : option (string * json) :=
  match api_error (ct_start c) with
  | None => None
  | Some e =>
      if isPrivilegesRequired e then Some ("Capture unavailable from this API runtime", ae_message e)
      else Some ("Capture failed (" +:+ match ae_code e with Some (JStr code) => code | _ => "undefined" end +:+ ")", ae_message e)
  end.

(** *** The list *)
Inductive RowAction := stop_button | report_link | download_link.
Definition row_tone (c : Capture) : string :=
  match cp_state c with cap_completed => "ok" | cap_failed => "down" | cap_running => "warn" end.
Definition row_badge (c : Capture) : option string :=
  match cp_analysis c with
  | Some a => if cas_analyzed a then Some (pretty (cas_drone_transmitters a ?? 0) +:+ " drone transmitters") else None
  | None => None
  end.
Definition row_line (now : Z) (c : Capture) : string :=
  "ch " +:+ pretty (cp_channel c) +:+ " · " +:+ cp_iface c +:+ " · " +:+ num_string (cp_duration_s c) +:+ "s · " +:+
  formatBytes (of_Z (cp_size_bytes c)) +:+ " · " +:+ pretty (cp_frame_count c) +:+ " frames · " +:+
  formatRelative (Some (cp_started_at c)) now.
Definition row_error (c : Capture) : option string := truthy (cp_error c).
Definition row_actions (c : Capture) : list RowAction :=
  (if bool_decide (cp_state c = cap_running) then [stop_button] else []) ++ [report_link] ++
  (if bool_decide (cp_state c = cap_completed) then [download_link] else []).

(** *** One recording and its report *)
Record BeaconInterval := { bi_median_ms : num; bi_min_ms : num; bi_max_ms : num; bi_samples : Z; bi_rate_hz : num }.
Record CaptureIdentity := {
  id_mac : string; id_serial : option string; id_id_type : option string; id_ua_type : option string;
  id_manufacturer_code : option string; id_vendor : option string; id_protocol_version : option Z;
  id_odid_count : Z; id_dji_count : Z; id_channels : list Z;
  id_rssi_min : option num; id_rssi_max : option num; id_rssi_median : option num; id_operator_location : bool
}.
Record DjiCalibrationRow := { dj_field : string; dj_raw : option num; dj_decoded : option num; dj_scale : num; dj_unit : string }.
Record CaptureReport := {
  cr_frames : Z; cr_beacons : Z; cr_transmitters : Z; cr_parse_errors : Z;
  cr_channel_usage : list (Z * Z);
  cr_beacon_interval : option BeaconInterval;
  cr_identities : list CaptureIdentity;
  cr_dji_calibration : list DjiCalibrationRow
}.

(** The page of one recording: the two queries, and the analysis. *)
Record Detail := {
  cd_capture : option Capture;
  cd_report : option CaptureReport;
  cd_reportError : option Failure;
  cd_analyze : Mutation;
  cd_sent : Z
}.
Definition unread : Detail := {| cd_capture := None; cd_report := None; cd_reportError := None; cd_analyze := idle; cd_sent := 0 |}.
Definition title (captureId : string) (d : Detail) : string := match cd_capture d with Some c => cp_filename c | None => captureId end.
Definition analyze_label (d : Detail) : string :=
  if mt_pending (cd_analyze d) then "Analyzing…"
  else match cd_report d with Some _ => "Re-run analysis" | None => "Run analysis" end.
Definition download_offered (d : Detail) : bool :=
  match cd_capture d with Some c => bool_decide (cp_state c = cap_completed) | None => false end.
Definition notAnalyzed (d : Detail) : bool :=
  match cd_reportError d with Some (failed_api e) => isNotFound e | _ => false end.
Inductive Section_ := analysis_failed (e : Failure) | capture_card (c : Capture) | not_analyzed_yet | report_view (r : CaptureReport).
Definition sections (d : Detail) : list Section_ :=
  match mt_error (cd_analyze d) with Some e => [analysis_failed e] | None => [] end ++
  match cd_capture d with Some c => [capture_card c] | None => [] end ++
  (if notAnalyzed d && match cd_report d with None => true | Some _ => false end then [not_analyzed_yet] else []) ++
  match cd_report d with Some r => [report_view r] | None => [] end.

Inductive DetailEvent :=
| capture_is (c : option Capture)
| report_is (r : CaptureReport + Failure)
| analyze_clicked
| analyze_settled (r : CaptureReport + Failure).
Definition detail_change (c : option Capture) (r : option CaptureReport) (e : option Failure) (m : Mutation) (n : Z) : Detail :=
  {| cd_capture := c; cd_report := r; cd_reportError := e; cd_analyze := m; cd_sent := n |}.
Definition detail_step (d : Detail) (e : DetailEvent) : Detail :=
  match e with
  | capture_is c => detail_change c (cd_report d) (cd_reportError d) (cd_analyze d) (cd_sent d)
  | report_is (inl r) => detail_change (cd_capture d) (Some r) None (cd_analyze d) (cd_sent d)
  | report_is (inr e) => detail_change (cd_capture d) (cd_report d) (Some e) (cd_analyze d) (cd_sent d)
  | analyze_clicked =>
      if mt_pending (cd_analyze d) then d
      else detail_change (cd_capture d) (cd_report d) (cd_reportError d) mutating (cd_sent d + 1)
  | analyze_settled r =>
      if mt_pending (cd_analyze d)
      then match r with
           | inl report => detail_change (cd_capture d) (Some report) None idle (cd_sent d)
           | inr e => detail_change (cd_capture d) (cd_report d) (cd_reportError d) (settled (A := unit) (inr e)) (cd_sent d)
           end
      else d
  end.
Definition detail_run (es : list DetailEvent) : Detail := fold_left detail_step es unread.

(** [BarMeter]: the percentage drawn. *)
Definition barMeter (fraction : num) : option Z := round_Z (nmul (nmax (of_Z 0) (nmin (of_Z 1) fraction)) (of_Z 100)).
Definition totalBeacons (r : CaptureReport) : Z := fold_left (fun sum c => sum + c.2) (cr_channel_usage r) 0.
Definition channel_bars (r : CaptureReport) : list (Z * (num * Z)) :=
  map (fun c => (c.1, (if totalBeacons r =? 0 then of_Z 0 else ndiv (of_Z c.2) (of_Z (totalBeacons r)), c.2))) (cr_channel_usage r).
Inductive RateNote := rate_wrong (measured : string) | rate_consistent.
Definition rate_note (i : BeaconInterval) : RateNote :=
  if nlt (bi_rate_hz i) (dec 8 1) || ngt (bi_rate_hz i) (dec 15 1) then rate_wrong (toFixed 2 (bi_rate_hz i)) else rate_consistent.
Definition interval_rows (i : BeaconInterval) : list (string * string) :=
  [("Median", num_string (bi_median_ms i) +:+ " ms");
   ("Range", num_string (bi_min_ms i) +:+ "–" +:+ num_string (bi_max_ms i) +:+ " ms");
   ("Samples", pretty (bi_samples i));
   ("Rate", toFixed 2 (bi_rate_hz i) +:+ " Hz")].
Definition identity_rows (i : CaptureIdentity) : list (string * string) :=
  [("MAC", id_mac i); ("Serial", id_serial i ?? EMPTY);
   ("Manufacturer code", match truthy (id_manufacturer_code i) with
                         | Some c => c +:+ match truthy (id_vendor i) with Some v => " (" +:+ v +:+ ")" | None => "" end
                         | None => EMPTY end);
   ("ID type", id_id_type i ?? EMPTY); ("UA type", id_ua_type i ?? EMPTY);
   ("Protocol version", match id_protocol_version i with Some v => pretty v | None => EMPTY end);
   ("Beacons", "ODID " +:+ pretty (id_odid_count i) +:+ " · DJI " +:+ pretty (id_dji_count i));
   ("Channels", match join ", " (map pretty (id_channels i)) with EmptyString => EMPTY | s => s end);
   ("RSSI", formatRssi (id_rssi_min i) +:+ " – " +:+ formatRssi (id_rssi_max i) +:+ " (median " +:+ formatRssi (id_rssi_median i) +:+ ")");
   ("Operator location", if id_operator_location i then "broadcast" else "not broadcast")].
Definition dji_row (r : DjiCalibrationRow) : string * (string * (string * string)) :=
  (dj_field r, (match dj_raw r with Some n => num_string n | None => EMPTY end,
    (match dj_decoded r with Some n => num_string n +:+ " " +:+ dj_unit r | None => EMPTY end, num_string (dj_scale r)))).

(** *** Facts *)

(** What starts a capture names the sensor's own interface, within the fields' bounds. *)
Definition sound_body (s : SensorHealth) (b : json) : Prop :=
  exists channel duration label,
    b = JObj [("iface", JStr (iface s)); ("channel", JNum channel); ("duration_s", JNum duration); ("label", JStr label)] /\
    iface s <> "" /\ within 1 165 channel = true /\ within 1 3600 duration = true.
Lemma captures_are_sound s es : Forall (sound_body s) (ct_sent (run s es)).
Proof.
  assert (forall c, Forall (sound_body s) (ct_sent c) -> Forall (sound_body s) (ct_sent (fold_left (step s) es c))) as H;
    [|by apply H; constructor].
  induction es as [|e es IH]; intros c H; [done|]. apply IH. unfold step. destruct (negb (supported s)); [done|].
  destruct e; cbn [change ct_sent]; try done; [|by destruct (mt_pending _)].
  destruct (_ && _ && _) eqn:E; [|done]. cbn [change ct_sent]. apply Forall_app. split; [done|]. repeat constructor.
  apply andb_prop in E as [[E H1]%andb_prop H2]. apply negb_true_iff, orb_false_iff in E as [_ Ei].
  exists (ct_channel c), (ct_duration c), (ct_label c). split_and!; try done. by apply String.eqb_neq in Ei.
Qed.

(** A sensor without capture sends nothing. *)
Lemma unsupported_sends_nothing s es : supported s = false -> ct_sent (run s es) = [].
Proof.
  intros Hs. unfold run. assert (forall c, fold_left (step s) es c = c) as ->; [|done].
  induction es as [|e es IH]; intros c; [done|]. cbn. unfold step at 2. by rewrite Hs.
Qed.

(** After an analysis that succeeds its report is shown, and no failure beside it. *)
Lemma analysis_is_shown es r :
  mt_pending (cd_analyze (detail_run es)) = true ->
  let d := detail_run (es ++ [analyze_settled (inl r)]) in
  sections d = match cd_capture d with Some c => [capture_card c] | None => [] end ++ [report_view r] /\
  analyze_label d = "Re-run analysis".
Proof. intros Hp. cbv zeta. unfold detail_run. rewrite fold_left_app. fold (detail_run es). cbn. by rewrite Hp. Qed.

(** A report that could not be fetched, for any reason but that there is none,
    leaves nothing on the page: neither the report, nor its absence, nor an error. *)
Lemma report_failure_is_silent e :
  isNotFound e = false -> sections (detail_run [report_is (inr (failed_api e))]) = [].
Proof. intros H. unfold detail_run, sections, notAnalyzed. cbn. by rewrite H. Qed.

(** The bars share the beacons out. *)
Lemma bars_are_the_beacons r :
  map (fun b => (b.1, b.2.2)) (channel_bars r) = cr_channel_usage r /\
  totalBeacons r = fold_right (fun c sum => c.2 + sum) 0 (cr_channel_usage r).
Proof.
  split.
  - unfold channel_bars. rewrite map_map. cbn. rewrite <- (map_id (cr_channel_usage r)) at 2. apply map_ext. by intros [].
  - unfold totalBeacons. assert (forall l a, fold_left (fun (sum : Z) (c : Z * Z) => sum + c.2) l a =
      a + fold_right (fun (c : Z * Z) sum => c.2 + sum) 0 l) as ->; [|lia].
    intros l. induction l as [|c l IH]; intros a; cbn; [lia|]. rewrite IH. lia.
Qed.
End Captures.

(** ** Examples *)
Module Examples.

Definition a_sensor (id : string) (healthy : bool) : SensorHealth :=
  {| sh_sensor_id := id; sh_sensor_kind := wifi; sh_healthy := healthy; sh_last_heartbeat := "";
     sh_seconds_since_heartbeat := of_Z 1; sh_detections_5m := None; sh_reason := None; sh_detail := None;
     sh_optional := None; sh_config := None |}.
Definition a_health (healthy : bool) : option Health :=
  Some {| hl_status := sys_ok; hl_uptime_s := of_Z 1; hl_version := "v"; hl_sensors := [a_sensor "wifi-0" healthy] |}.

Section Sky.
Import Banner.
(** Dismissed while the sky was quiet, the banner stays away when the sky is
    quiet again after a loss of coverage: the dismissal does not end with the
    change it was to last until. *)
Lemma dismissal_outlives_the_change :
  let dismissed_once := [page_entered (a_health true) 0; close_clicked; timer_fires (1%nat, "quiet")] in
  let b es := run (first_visit empty_storage) (dismissed_once ++ es) in
  shown (b []) = false /\ shown (b [sky_is (a_health false) 0]) = true /\
  (kind (b [sky_is (a_health false) 0; sky_is (a_health true) 0]),
   shown (b [sky_is (a_health false) 0; sky_is (a_health true) 0])) = ("quiet", false).
Proof. vm_compute. auto. Qed.

(** Left alone, a reassuring banner goes by itself; a warning does not. *)
Lemma quiet_goes_by_itself :
  let b h := run (first_visit empty_storage) [page_entered h 0; auto_fires; timer_fires (1%nat, "quiet")] in
  shown (b (a_health true)) = false /\ shown (b (a_health false)) = true.
Proof. vm_compute. auto. Qed.
End Sky.

Section Restart.
Import Sensors.
Definition two_sensors : Event := sensors_are (Some [a_sensor "wifi-0" true; a_sensor "wifi-1" true]).

(** Asked for one sensor, the question does not carry over to another. *)
Lemma asked_for_one_only :
  let sent es := ss_sent (run true (opened None) (two_sensors :: es)) in
  sent [restart_clicked "wifi-0"; confirm_clicked "wifi-0"] = ["wifi-0"] /\
  sent [restart_clicked "wifi-0"; address_is (Some "wifi-1"); confirm_clicked "wifi-1"] = [] /\
  sent [restart_clicked "wifi-0"; confirm_clicked "wifi-0"; confirm_clicked "wifi-0"] = ["wifi-0"].
Proof. vm_compute. auto. Qed.

Lemma restart_takes_two_clicks_witness :
  sh_sensor_id (a_sensor "wifi-1" true) = "wifi-1" /\
  In (a_sensor "wifi-1" true) (sensors (run true (opened (Some "wifi-1")) [two_sensors])).
Proof.
  destruct (restart_takes_two_clicks (Some "wifi-1") [two_sensors]) as (_&_&H).
  destruct (H (a_sensor "wifi-1" true) "wifi-1" ltac:(vm_compute; reflexivity) eq_refl) as [H1 H2]. split; [exact H2|exact H1].
Defined.

(** A link to a sensor that has gone says that no sensor reports, while two do. *)
Lemma gone_sensor_hides_the_others :
  let p := run true (opened (Some "sdr-0")) [two_sensors] in
  detail p = no_sensors_reporting /\ List.length (sensors p) = 2%nat.
Proof. split; reflexivity. Qed.
End Restart.

Lemma warning_is_never_hidden_witness :
  Banner.shown (Banner.run (Banner.first_visit empty_storage)
    [Banner.page_entered (a_health true) 0; Banner.close_clicked; Banner.timer_fires (1%nat, "quiet");
     Banner.sky_is (a_health false) 0]) = true.
Proof.
  apply (Banner.warning_is_never_hidden empty_storage [Banner.page_entered (a_health true) 0; Banner.close_clicked;
    Banner.timer_fires (1%nat, "quiet"); Banner.sky_is (a_health false) 0]); vm_compute; reflexivity.
Defined.
End Examples.
