(* ===== verification/UnitPanels.v ===== *)
(** * UnitPanels: what the unit says of itself

    The panels of the administration page and of the about page:
    [features/deploy/] (the deploy request, its history, the watchdog, the
    artefacts and the logs), [features/settings/storage/storage-panel.tsx],
    [features/settings/hosts/] and [routes/settings/about.tsx].  What a panel
    shows is a value; the deployment panel with its two requests is a state
    machine.  The two printed forms of an instant are the host's. *)
From Stdlib Require Import ZArith Bool String Ascii List Lia Sorted SpecFloat.
From stdpp Require Import base option list strings pretty.
From S2P Require Import Prelude JsNumber JsString JsDate ApiTypes Format HealthView Transport TwoClicks Series SettingsForms Access SensorsPage.

(** ** Shared pieces *)

Record Pill := { pl_tone : Tone; pl_text : string }.
Definition pill (tone : Tone) (text : string) : Pill := {| pl_tone := tone; pl_text := text |}.

(** A value of a row: plain text, or a pill, one after the other; its hint. *)
Inductive Item := plain (text : string) | badge (p : Pill).
Record Row := { rw_label : string; rw_value : list Item; rw_hint : option string }.
Definition row (label : string) (value : list Item) (hint : option string) : Row :=
  {| rw_label := label; rw_value := value; rw_hint := hint |}.

Record Notice := { nt_tone : string; nt_title : string; nt_text : string }.
Definition notice (tone title text : string) : Notice := {| nt_tone := tone; nt_title := title; nt_text := text |}.

Section Formatters.
(** What Intl prints of an instant, as a date with its time and as a time. *)
Context (stamp clockFmt : Z -> string).

Definition parse (iso : option string) : option Z := truthy iso ≫= Date_parse.
Definition timestamp (iso : option string) : string :=
  match parse iso with Some t => stamp t | None => EMPTY end.
Definition clock (iso : option string) : string :=
  match parse iso with Some t => clockFmt t | None => EMPTY end.
End Formatters.

(** ** log-disclosure.tsx *)

Definition lines_ (n : Z) : string := pretty n +:+ " line" +:+ (if n =? 1 then "" else "s").
Definition log_count (log : option (list string)) : string :=
  match log with Some l => lines_ (zlen l) | None => pretty 0 +:+ " line" +:+ "s" end.
Definition newline : string := String (ascii_of_nat 10) "".
Definition LogDisclosure (log : option (list string)) (summary : string) : option (string * string) :=
  match log with
  | None | Some [] => None
  | Some log => Some (summary, join newline log)
  end.

(** ** artefact-list.tsx *)

Definition ArtefactState_string (s : ArtefactState) : string :=
  match s with
  | art_current => "current" | art_behind => "behind" | art_rebuilt => "rebuilt"
  | art_failed => "failed" | art_absent => "absent"
  end.
Definition artefactTone (state : ArtefactState) : Tone :=
  match state with
  | art_failed => tone_down
  | art_behind => tone_warn
  | art_rebuilt => tone_ok
  | _ => tone_muted
  end.
Record ArtefactsView := { al_label : option string; al_items : list (string * Pill) }.
Definition ArtefactList (artefacts : option (list DeploymentArtefact)) (label : option string) : option ArtefactsView :=
  match artefacts with
  | None | Some [] => None
  | Some artefacts =>
      Some {| al_label := truthy label;
              al_items := map (fun a => (da_name a, pill (artefactTone (da_state a)) (ArtefactState_string (da_state a)))) artefacts |}
  end.

(** ** deployment-panel.tsx *)
Module Deploy.

Definition STALE_AFTER_S : num := of_Z (30 * 60).
Definition hasRealDate (iso : option string) : bool :=
  match parse iso with Some at_ => 31536000000 <? at_ | None => false end.

(** [Math.round], as a number. *)
Definition rounded (x : num) : num := match round_Z x with Some z => of_Z z | None => x end.
Definition formatAge (seconds : option num) : string :=
  match seconds with
  | None => "unknown"
  | Some seconds =>
      if nlt seconds (of_Z 90) then num_string seconds +:+ "s"
      else
        let minutes := rounded (ndiv seconds (of_Z 60)) in
        if nlt minutes (of_Z 90) then num_string minutes +:+ " min"
        else num_string (rounded (ndiv minutes (of_Z 60))) +:+ " h"
  end.

Definition CiBadge (ci : option string) : Pill :=
  match ci with
  | Some ci =>
      if ci === "success" then pill tone_ok "CI green"
      else if ci === "failure" then pill tone_down "CI failed"
      else if ci === "pending" then pill tone_warn "CI running"
      else pill tone_muted "CI not checked"
  | None => pill tone_muted "CI not checked"
  end.

Definition stale (d : DeploymentStatus) : bool :=
  match ds_state_age_s d with Some age => ngt age STALE_AFTER_S | None => false end.
Definition deploying (d : DeploymentStatus) : bool := bool_decide (ds_last_result d = Some "deploying").

(** The request that can be made, and whether its button is disabled. *)
Inductive Control := request_deploy (disabled : bool) | withdraw_request (disabled : bool).

Section View.
Context (stamp : Z -> string).

Definition pills (d : DeploymentStatus) : list Pill :=
  if deploying d then [pill tone_warn "deploying"]
  else (if ds_update_available d then [pill tone_warn "update available"] else []) ++
       (if ds_deploy_requested d then [pill tone_warn "deploy queued"] else []).
Definition short (commit : option string) : string :=
  match slice 0 8 (commit ?? "") with EmptyString => "unknown" | s => s end.
Definition rows (d : DeploymentStatus) : list Row := [
  row "Running" (plain (short (ds_commit d)) :: match truthy (ds_commit_subject d) with Some s => [plain s] | None => [] end) None;
  row "Latest on main"
    (plain (short (ds_remote_commit d)) :: if ds_update_available d then [badge (CiBadge (ds_remote_ci d))] else []) None;
  row "Last check" [plain (if hasRealDate (ds_last_check_at d) then timestamp stamp (ds_last_check_at d) else "never")]
    (match ds_state_age_s d with Some age => Some (formatAge (Some age) +:+ " ago") | None => None end);
  row "Last result" [plain (ds_last_result d ?? "unknown")] (ds_last_reason d);
  row "Last deploy"
    (if hasRealDate (ds_last_deploy_at d)
     then [plain (timestamp stamp (ds_last_deploy_at d));
           badge (if ds_last_deploy_ok d ?? false then pill tone_ok "ok" else pill tone_down "rolled back")]
     else [plain "never"]) None;
  row "Automatic deploys"
    [badge (if ds_timer_enabled d ?? false then pill tone_ok "on" else pill tone_muted "off")] None].

(** The message of a refusal, as the text of its notice. *)
Context (text : json -> string).
Definition notices (deploy : Mutation) (d : DeploymentStatus) : list Notice :=
  (if deploying d then [notice "info" "A deploy is running on the unit now"
     "The rebuild takes several minutes on a Pi. Detection continues until each service is restarted; the log below updates as it goes."] else []) ++
  (if stale d && negb (deploying d) then [notice "warn" "The deploy agent has not checked in recently"
     ("Last check " +:+ timestamp stamp (Some (ds_last_check_at d ?? "")) +:+ " — " +:+ formatAge (ds_state_age_s d) +:+
      " ago. The timer is probably not running. On the unit: systemctl status classg-autodeploy.timer")] else []) ++
  (match api_error deploy with Some e => [notice "error" "Could not request a deploy" (text (ae_message e))] | None => [] end).
Definition control (deploy cancel : Mutation) (d : DeploymentStatus) : Control :=
  if ds_deploy_requested d then withdraw_request (mt_pending cancel) else request_deploy (mt_pending deploy).

Inductive View :=
| skeleton
| nothing
| no_agent (n : Notice)
| panel (title : list Pill) (notices : list Notice) (rows : list Row) (control : Control)
    (artefacts : option ArtefactsView) (log : option (string * string)).

Definition DeploymentPanel (status : QueryResult DeploymentStatus) (deploy cancel : Mutation) : View :=
  match status with
  | loading => skeleton
  | errored None _ _ => nothing
  | errored (Some d) _ _ | loaded d =>
      if negb (ds_configured d)
      then no_agent (notice "info" "No deploy agent on this unit" (ds_reason d ?? "Not configured."))
      else panel (pills d) (notices deploy d) (rows d) (control deploy cancel d)
             (ArtefactList (ds_artefacts d) (Some "Locally built, at the last check"))
             (LogDisclosure (ds_log d) ("Last agent run (" +:+ log_count (ds_log d) +:+ ")"))
  end.
End View.

(** *** The panel and its two requests

    What it is given by its query, what it has sent, and how often it asked for
    the status again. *)
Record Page := {
  pg_status : QueryResult DeploymentStatus;
  pg_deploy : Mutation;
  pg_cancel : Mutation;
  pg_sent : list Request;
  pg_stale : Z
}.
Definition opened (q : QueryResult DeploymentStatus) : Page :=
  {| pg_status := q; pg_deploy := idle; pg_cancel := idle; pg_sent := []; pg_stale := 0 |}.

Definition offered (p : Page) : option Control :=
  match DeploymentPanel (fun _ => "") (fun _ => "") (pg_status p) (pg_deploy p) (pg_cancel p) with
  | panel _ _ _ c _ _ => Some c
  | _ => None
  end.

Inductive Event :=
| deploy_clicked
| withdraw_clicked
| status_changed (q : QueryResult DeploymentStatus)
| deploy_settled (r : DeploymentStatus + Failure)
| cancel_settled (r : unit + Failure).
Definition enabled (p : Page) (e : Event) : bool :=
  match e with
  | deploy_clicked => match offered p with Some (request_deploy disabled) => negb disabled | _ => false end
  | withdraw_clicked => match offered p with Some (withdraw_request disabled) => negb disabled | _ => false end
  | status_changed _ => true
  | deploy_settled _ => mt_pending (pg_deploy p)
  | cancel_settled _ => mt_pending (pg_cancel p)
  end.
Definition with_status (q : QueryResult DeploymentStatus) (p : Page) : Page :=
  {| pg_status := q; pg_deploy := pg_deploy p; pg_cancel := pg_cancel p; pg_sent := pg_sent p; pg_stale := pg_stale p |}.
Definition handle (p : Page) (e : Event) : Page :=
  match e with
  | deploy_clicked =>
      {| pg_status := pg_status p; pg_deploy := mutating; pg_cancel := pg_cancel p;
         pg_sent := pg_sent p ++ [Api.requestDeploy]; pg_stale := pg_stale p |}
  | withdraw_clicked =>
      {| pg_status := pg_status p; pg_deploy := pg_deploy p; pg_cancel := mutating;
         pg_sent := pg_sent p ++ [Api.cancelDeploy]; pg_stale := pg_stale p |}
  | status_changed q => with_status q p
  | deploy_settled r =>
      {| pg_status := match r with inl next => loaded next | inr _ => pg_status p end;
         pg_deploy := settled r; pg_cancel := pg_cancel p; pg_sent := pg_sent p; pg_stale := pg_stale p |}
  | cancel_settled r =>
      {| pg_status := pg_status p; pg_deploy := pg_deploy p; pg_cancel := settled r; pg_sent := pg_sent p;
         pg_stale := match r with inl _ => pg_stale p + 1 | inr _ => pg_stale p end |}
  end.
Definition step : Page -> Event -> Page := guarded enabled handle.
Definition run : Page -> list Event -> Page := guarded_run enabled handle.

(** *** Facts *)

Definition shown (p : Page) : option DeploymentStatus :=
  match query_data (pg_status p) with Some d => if ds_configured d then Some d else None | None => None end.

Lemma offered_shown p :
  offered p = control (pg_deploy p) (pg_cancel p) <$> shown p.
Proof.
  unfold offered, shown, DeploymentPanel. destruct (pg_status p) as [|[d|] e f|d]; cbn; try done; by destruct (ds_configured d).
Qed.

(** A button that can be pressed: its request is not under way, and the unit's
    last answer is the one it is for. *)
Lemma deploy_enabled p : enabled p deploy_clicked = true ->
  mt_pending (pg_deploy p) = false /\ exists d, shown p = Some d /\ ds_deploy_requested d = false.
Proof.
  cbn. rewrite offered_shown. destruct (shown p) as [d|]; [|done]. cbn. unfold control.
  destruct (ds_deploy_requested d) eqn:E; [done|]. intros H%negb_true_iff. by eauto.
Qed.
Lemma withdraw_enabled p : enabled p withdraw_clicked = true ->
  mt_pending (pg_cancel p) = false /\ exists d, shown p = Some d /\ ds_deploy_requested d = true.
Proof.
  cbn. rewrite offered_shown. destruct (shown p) as [d|]; [|done]. cbn. unfold control.
  destruct (ds_deploy_requested d) eqn:E; [|done]. intros H%negb_true_iff. by eauto.
Qed.

Definition has_method (method : string) (r : Request) : bool :=
  match ri_method (rq_init r) with Some m => m === method | None => false end.
Definition sent_as (method : string) (p : Page) : Z := zlen (List.filter (has_method method) (pg_sent p)).
Definition settles (deploy : bool) (e : Event) : bool :=
  match e with deploy_settled _ => deploy | cancel_settled _ => negb deploy | _ => false end.
Definition answers (deploy : bool) (es : list Event) : Z := zlen (List.filter (settles deploy) es).
Definition in_flight (m : Mutation) : Z := if mt_pending m then 1 else 0.

(** What the deploy mutation last came to, told from what happened. *)
Definition outcome (m : option Failure) (e : Event) : option Failure :=
  match e with
  | deploy_clicked => None
  | deploy_settled r => mt_error (settled r)
  | _ => m
  end.

Lemma sent_snoc method p p' r : pg_sent p' = pg_sent p ++ [r] ->
  sent_as method p' = sent_as method p + if has_method method r then 1 else 0.
Proof.
  intros E. unfold sent_as, zlen. rewrite E, List.filter_app, List.length_app. cbn. destruct (has_method method r); cbn; lia.
Qed.

(** Requests sent less those under way, step by step. *)
Lemma deploy_counts p e : enabled p e = true ->
  sent_as "POST" (handle p e) - in_flight (pg_deploy (handle p e)) = sent_as "POST" p - in_flight (pg_deploy p) + answers true [e].
Proof.
  intros He. destruct e as [| |q|r|r].
  - destruct (deploy_enabled p He) as [Hd _]. rewrite (sent_snoc "POST" p (handle p deploy_clicked) Api.requestDeploy) by done.
    unfold in_flight. cbn [handle pg_deploy mutating mt_pending]. rewrite Hd. change (has_method "POST" Api.requestDeploy) with true.
    change (answers true [deploy_clicked]) with 0. cbv iota. lia.
  - rewrite (sent_snoc "POST" p (handle p withdraw_clicked) Api.cancelDeploy) by done.
    change (has_method "POST" Api.cancelDeploy) with false. change (answers true [withdraw_clicked]) with 0. cbn [handle pg_deploy]. unfold in_flight. cbv iota. lia.
  - change (answers true [status_changed q]) with 0. unfold sent_as. cbn [handle with_status pg_sent pg_deploy]. cbv iota. lia.
  - cbn [enabled] in He. change (answers true [deploy_settled r]) with 1. unfold sent_as, in_flight. cbn [handle pg_sent pg_deploy settled mt_pending]. rewrite He. cbv iota. lia.
  - change (answers true [cancel_settled r]) with 0. unfold sent_as. cbn [handle pg_sent pg_deploy]. cbv iota. lia.
Qed.
Lemma cancel_counts p e : enabled p e = true ->
  sent_as "DELETE" (handle p e) - in_flight (pg_cancel (handle p e)) = sent_as "DELETE" p - in_flight (pg_cancel p) + answers false [e].
Proof.
  intros He. destruct e as [| |q|r|r].
  - rewrite (sent_snoc "DELETE" p (handle p deploy_clicked) Api.requestDeploy) by done.
    change (has_method "DELETE" Api.requestDeploy) with false. change (answers false [deploy_clicked]) with 0. cbn [handle pg_cancel]. cbv iota. lia.
  - destruct (withdraw_enabled p He) as [Hd _]. rewrite (sent_snoc "DELETE" p (handle p withdraw_clicked) Api.cancelDeploy) by done.
    unfold in_flight. cbn [handle pg_cancel mutating mt_pending]. rewrite Hd. change (has_method "DELETE" Api.cancelDeploy) with true.
    change (answers false [withdraw_clicked]) with 0. cbv iota. lia.
  - change (answers false [status_changed q]) with 0. unfold sent_as. cbn [handle with_status pg_sent pg_cancel]. cbv iota. lia.
  - change (answers false [deploy_settled r]) with 0. unfold sent_as. cbn [handle pg_sent pg_cancel]. cbv iota. lia.
  - cbn [enabled] in He. change (answers false [cancel_settled r]) with 1. unfold sent_as, in_flight. cbn [handle pg_sent pg_cancel settled mt_pending]. rewrite He. cbv iota. lia.
Qed.

Lemma answers_app deploy a b : answers deploy (a ++ b) = answers deploy a + answers deploy b.
Proof. unfold answers, zlen. rewrite List.filter_app, List.length_app. lia. Qed.

Lemma outcome_told es p : mt_error (pg_deploy (run p es)) = fold_left outcome (happened enabled handle p es) (mt_error (pg_deploy p)).
Proof.
  revert p. induction es as [|e es IH]; intros p; [done|]. cbn [happened]. rewrite fold_left_app.
  change (run p (e :: es)) with (run (step p e) es). rewrite IH. unfold step, guarded. destruct (enabled p e); [|done]. by destruct e.
Qed.

(** In every run of the deployment panel each request sent is matched by
    its own answer, but for at most one deploy request and one withdrawal under
    way; a deploy is asked for only by a click while the unit's last answer, on
    screen, has nothing queued, and withdrawn only by one while it has; and the
    refusal on screen is that of the last request, gone from the next click on. *)
Lemma one_request_at_a_time (q : QueryResult DeploymentStatus) (es : list Event) (e : Event)
    (stamp : Z -> string) (text : json -> string) :
  let p := run (opened q) es in
  let es' := happened enabled handle (opened q) es in
  sent_as "POST" p = answers true es' + in_flight (pg_deploy p) /\
  sent_as "DELETE" p = answers false es' + in_flight (pg_cancel p) /\
  (pg_sent (step p e) = pg_sent p \/
   exists d, shown p = Some d /\
     (e = deploy_clicked /\ ds_deploy_requested d = false /\ pg_sent (step p e) = pg_sent p ++ [Api.requestDeploy] \/
      e = withdraw_clicked /\ ds_deploy_requested d = true /\ pg_sent (step p e) = pg_sent p ++ [Api.cancelDeploy])) /\
  (forall d n, shown p = Some d -> In n (notices stamp text (pg_deploy p) d) -> nt_tone n = "error" ->
     exists x, fold_left outcome es' None = Some (failed_api x) /\ nt_text n = text (ae_message x)) /\
  (forall d x, shown p = Some d -> fold_left outcome es' None = Some (failed_api x) ->
     In (notice "error" "Could not request a deploy" (text (ae_message x))) (notices stamp text (pg_deploy p) d)).
Proof.
  intros p es'. pose proof (outcome_told es (opened q)) as HE. fold p es' in HE. cbn [opened pg_deploy idle mt_error] in HE.
  pose proof (guarded_counts enabled handle (fun p => sent_as "POST" p - in_flight (pg_deploy p)) (answers true)
    eq_refl (answers_app true) deploy_counts es (opened q)) as HP.
  pose proof (guarded_counts enabled handle (fun p => sent_as "DELETE" p - in_flight (pg_cancel p)) (answers false)
    eq_refl (answers_app false) cancel_counts es (opened q)) as HD.
  cbv beta in HP, HD. change (guarded_run enabled handle (opened q) es) with p in HP, HD. fold es' in HP, HD.
  change (sent_as "POST" (opened q) - in_flight (pg_deploy (opened q))) with 0 in HP.
  change (sent_as "DELETE" (opened q) - in_flight (pg_cancel (opened q))) with 0 in HD.
  split_and!; [lia|lia| | |].
  - unfold step, guarded. destruct (enabled p e) eqn:He; [|by left]. destruct e as [| |q'|r|r]; try (by left).
    + right. destruct (deploy_enabled p He) as (_ & d & Hs & Hd). exists d. split; [done|]. by left.
    + right. destruct (withdraw_enabled p He) as (_ & d & Hs & Hd). exists d. split; [done|]. by right.
  - intros d n _ Hn Ht. unfold notices in Hn. rewrite !in_app_iff in Hn. destruct Hn as [Hn|[Hn|Hn]].
    + destruct (deploying d); [|done]. by destruct Hn as [<-|[]].
    + destruct (stale d && negb (deploying d)); [|done]. by destruct Hn as [<-|[]].
    + unfold api_error in Hn. rewrite <- HE. destruct (mt_error (pg_deploy p)) as [[x|]|]; try done.
      destruct Hn as [<-|[]]. by exists x.
  - intros d x _ Hx. unfold notices. rewrite !in_app_iff. right. right. unfold api_error. rewrite HE, Hx. by left.
Qed.

(** An agent that stopped in the middle of a deploy leaves its last result at
    "deploying": however old it is, the panel says that a deploy is running now,
    and never that the agent has not checked in. *)
Lemma a_dead_deploy_never_warns stamp text m d n :
  deploying d = true -> In n (notices stamp text m d) ->
  nt_title n <> "The deploy agent has not checked in recently".
Proof.
  intros Hd Hn. unfold notices in Hn. rewrite Hd, andb_false_r, !in_app_iff in Hn. destruct Hn as [[<-|[]]|[[]|Hn]]; [done|].
  destruct (api_error m); [|done]. by destruct Hn as [<-|[]].
Qed.
(** A refused withdrawal is shown nowhere: the panel is the one it was. *)
Lemma a_refused_withdrawal_is_silent stamp text status deploy e :
  DeploymentPanel stamp text status deploy {| mt_pending := false; mt_error := Some e |} =
  DeploymentPanel stamp text status deploy idle.
Proof. done. Qed.
(** The panel of a failed first request is no panel at all. *)
Lemma a_failed_status_leaves_no_panel stamp text e f m m' : DeploymentPanel stamp text (errored None e f) m m' = nothing.
Proof. done. Qed.
(** A queue and a request for it are never offered at once. *)
Lemma agent_checks_in_or_warns stamp text m d :
  deploying d = false ->
  (exists n, In n (notices stamp text m d) /\ nt_title n = "The deploy agent has not checked in recently") <-> stale d = true.
Proof.
  intros Hd. unfold notices. rewrite Hd. split.
  - intros (n & Hn & Ht). rewrite !in_app_iff in Hn. destruct (stale d); [done|]. destruct Hn as [[]|[[]|Hn]].
    destruct (api_error m); [|done]. destruct Hn as [<-|[]]. done.
  - intros Hs. rewrite Hs. eexists. split; [apply in_app_iff; right; apply in_app_iff; left; by left|]. done.
Qed.
End Deploy.

(** ** deploy-history.tsx *)
Module History.

Definition RESULTS : list (string * Tone) := [("deployed", tone_ok); ("failed", tone_down); ("rebuilt", tone_warn)].
Definition result_pill (result : string) : Pill :=
  match List.find (fun r => r.1 === result) RESULTS with
  | Some r => pill r.2 r.1
  | None => pill tone_warn result
  end.

Definition duration (seconds : num) : string :=
  if negb (is_finite seconds) || nlt seconds (of_Z 0) then ""
  else if nlt seconds (of_Z 60) then int_string (round_Z seconds) +:+ "s"
  else
    let minutes := floor_Z (ndiv seconds (of_Z 60)) in
    let rest := round_Z (nmod seconds (of_Z 60)) in
    if bool_decide (rest = Some 0) then int_string minutes +:+ "m"
    else int_string minutes +:+ "m " +:+ int_string rest +:+ "s".

Record RunView := {
  rv_pill : Pill;
  rv_commit : option string;
  rv_subject : option string;
  rv_when : string;
  rv_reason : option string;
  rv_detail_reason : option string;
  rv_moved : option (string * string);
  rv_artefacts : option ArtefactsView;
  rv_log : string
}.
Definition RunRow (now : Z) (run : DeploymentRun) : RunView :=
  let result := result_pill (dr_result run) in
  let ok := bool_decide (pl_tone result = tone_ok) in
  {| rv_pill := result;
     rv_commit := slice 0 8 <$> truthy (dr_commit run);
     rv_subject := dr_commit_subject run;
     rv_when := formatRelative (Some (dr_finished_at run)) now +:+
                match truthy (Some (duration (dr_duration_s run))) with Some took => " · " +:+ took | None => "" end;
     rv_reason := if ok then None else truthy (dr_reason run);
     rv_detail_reason := if ok then truthy (dr_reason run) else None;
     rv_moved := match truthy (dr_previous_commit run), truthy (dr_commit run) with
                 | Some previous, Some commit =>
                     if previous !== commit then Some (slice 0 8 previous, slice 0 8 commit) else None
                 | _, _ => None
                 end;
     rv_artefacts := ArtefactList (dr_artefacts run) None;
     rv_log := match dr_log run with
               | None | Some [] => "No log was recorded for this run."
               | Some log => join newline log
               end |}.

Inductive View :=
| skeleton
| no_agent (n : Notice)
| empty_state (title : string)
| run_rows (rows : list RunView).
Definition DeployHistory (now : Z) (history : QueryResult DeploymentHistory) : View :=
  match history with
  | loading => skeleton
  | _ =>
      match query_data history with
      | Some h =>
          if negb (dh_configured h) then no_agent (notice "info" "No deploy agent on this unit" (dh_reason h ?? ""))
          else match dh_runs h with
               | [] => empty_state "Nothing recorded yet"
               | runs => run_rows (map (RunRow now) runs)
               end
      | None => empty_state "Nothing recorded yet"
      end
  end.
End History.

(** ** watchdog-panel.tsx *)
Module Watchdog.

Definition STALE_AFTER_S : num := of_Z (6 * 60).
Definition stale (w : WatchdogStatus) : bool :=
  match wd_state_age_s w with Some age => ngt age STALE_AFTER_S | None => false end.

Section View.
Context (stamp : Z -> string).

Definition pills (w : WatchdogStatus) : list Pill :=
  match truthy (wd_needs_hands w) with Some _ => [pill tone_down "needs attention"] | None => [] end ++
  (if 0 <? wd_actions_taken w then [pill tone_warn "repairing"] else []).
Definition notices (w : WatchdogStatus) : list Notice :=
  match truthy (wd_needs_hands w) with
  | Some needs => [notice "error" "The watchdog needs a person"
      (needs +:+ ". The watchdog will not act on this by itself — repeating a failed repair for ever would turn it into background noise — so it stays here until somebody fixes it on the unit.")]
  | None => []
  end ++
  (if stale w then [notice "warn" "The watchdog itself has not run recently"
      ("Last pass " +:+ match truthy (wd_last_check_at w) with Some at_ => timestamp stamp (Some at_) | None => "unknown" end +:+
       ". It should run every two minutes, so nothing is currently watching for faults. On the unit: systemctl status classg-watchdog.timer")]
   else []).

Definition on_the_bus (present : bool) : Pill := if present then pill tone_ok "on the bus" else pill tone_down "absent".
Definition hardware_row (label : string) (present : bool) (hint : string) : Row :=
  row label [badge (on_the_bus present)] (if present then None else Some hint).
Definition HARDWARE : string := "hardware — restarting software cannot help".
Definition rows (w : WatchdogStatus) : list Row := [
  row "Last pass" [plain (match truthy (wd_last_check_at w) with Some at_ => timestamp stamp (Some at_) | None => "never" end)]
    (match wd_state_age_s w with Some age => Some (num_string age +:+ "s ago") | None => None end);
  row "Repairs this pass" [plain (if wd_actions_taken w =? 0 then "none needed" else pretty (wd_actions_taken w))] None;
  row "API" [badge (if wd_api_healthy w then pill tone_ok "answering" else pill tone_down "down")] None;
  hardware_row "Wi-Fi adapter" (wd_wifi_adapter_present w) HARDWARE] ++
  match wd_wifi_tplink_adapter_present w with
  | Some present => [hardware_row "Wi-Fi adapter (TP-Link)" present HARDWARE]
  | None => []
  end ++ [hardware_row "SDR" (wd_sdr_present w) "hardware — ADS-B will read degraded"].

Inductive View :=
| skeleton
| nothing
| no_watchdog (n : Notice)
| panel (title : list Pill) (notices : list Notice) (rows : list Row) (log : option (string * string)).
Definition WatchdogPanel (status : QueryResult WatchdogStatus) : View :=
  match status with
  | loading => skeleton
  | errored None _ _ => nothing
  | errored (Some w) _ _ | loaded w =>
      if negb (wd_configured w)
      then no_watchdog (notice "info" "No watchdog on this unit"
             ((wd_reason w ?? "Not configured.") +:+ " Without it, a sensor that exhausts its systemd restart limit stays dead until someone signs in."))
      else panel (pills w) (notices w) (rows w)
             (LogDisclosure (wd_log w) ("Last watchdog pass (" +:+ log_count (wd_log w) +:+ ")"))
  end.
End View.
End Watchdog.

(** ** storage-panel.tsx *)
Module Storage.
Import Forecast.

Definition RETENTION_KEYS : list (string * string) := [
  ("retention.detections", "Detections"); ("retention.tracks", "Tracks"); ("retention.telemetry", "Telemetry");
  ("retention.sweeps", "Spectrum sweeps"); ("retention.hook_deliveries", "Hook deliveries")].

(** [x ?? 0]. *)
Definition or_zero (x : option num) : num := match x with Some x => x | None => of_Z 0 end.
Definition unavailable (host : option SystemHost) (key : string) : option string :=
  (host ≫= ho_unavailable) ≫= assoc key.
Definition used (host : option SystemHost) : option num :=
  usedFraction (host ≫= ho_disk_total_bytes) (host ≫= ho_disk_free_bytes).

Inductive DiskView :=
| reading_disk
| unreadable (n : Notice)
| disk_figures (filled : option Z) (aria : string) (tone : Tone) (figures : list (string * string)).
Definition disk (system : QueryResult SystemInfo) : DiskView :=
  match system with
  | loading => reading_disk
  | _ =>
      let host := sy_host <$> query_data system in
      match used host with
      | None => unreadable (notice "info" "Disk usage is not readable here"
          (unavailable host "disk_free_bytes" ??
           "The API could not stat this filesystem. On a containerised deployment that is expected; the figure is readable on the Pi itself."))
      | Some used =>
          disk_figures (Captures.barMeter used) ("Disk " +:+ toFixed 0 (nmul used (of_Z 100)) +:+ " percent used")
            (if ngt used (dec 9 1) then tone_down else if ngt used (dec 75 2) then tone_warn else tone_ok)
            [("Used", toFixed 1 (nmul used (of_Z 100)) +:+ "%");
             ("Free", formatBytes (or_zero (host ≫= ho_disk_free_bytes)));
             ("Total", formatBytes (or_zero (host ≫= ho_disk_total_bytes)))]
      end
  end.

Definition free_points (telemetry : option TelemetryResponse) : list FreeSpacePoint :=
  map (fun s => {| fp_ts := Date_parse (tm_ts s); fp_free := tm_disk_free_bytes s |})
    match telemetry with Some t => te_samples t | None => [] end.

Inductive Line :=
| line_pending
| no_rate (text : string)
| steady (text : string)
| projected (urgent : bool) (rate headroom : string).
Definition ForecastLine (verdict : ForecastVerdict) (pending : bool) : Line :=
  if pending then line_pending
  else match verdict with
  | unknown reason => no_rate ("No fill rate yet — " +:+ reason +:+
      ". A projection from less than this would be a fit through noise, and a confident wrong date is worse than none.")
  | stable perDay => steady ("Free space is steady over the last week" +:+ (if ngt perDay (of_Z 0) then " and recovering" else "") +:+
      " — retention is keeping up with what the sensors write. Nothing to project.")
  | filling perDay days =>
      projected (nlt days (of_Z 14)) (formatBytes (nabs perDay))
        (if nlt days (of_Z 1) then "less than a day" else int_string (round_Z days) +:+ " days")
  end.

Definition captureBytes (captures : option (list Capture)) : Z :=
  fold_left (fun sum c => sum + cp_size_bytes c) (captures ?? []) 0.
Definition captures_line (captures : option (list Capture)) : option string :=
  match captures with
  | None => None
  | Some l => Some ("Captures account for " +:+ formatBytes (of_Z (captureBytes captures)) +:+ " of that across " +:+
                    pretty (zlen l) +:+ " file" +:+ (if zlen l =? 1 then "" else "s"))
  end.

(** A horizon as it is stored, and as a person would say it. *)
Inductive Horizon := horizon (said stored : string) | not_set.
Definition horizon_of (setting : option SettingsGroup.SettingValue) : Horizon :=
  match setting with
  | Some s => match SettingsGroup.sv_value s with
              | JStr (String _ _ as value) => horizon (formatGoDuration (Some value)) value
              | _ => not_set
              end
  | None => not_set
  end.
Definition retention (settings : QueryResult (string -> option SettingsGroup.SettingValue)) : option (list (string * Horizon)) :=
  match settings with
  | loading => None
  | _ => Some (map (fun k => (k.2, match query_data settings with Some s => horizon_of (s k.1) | None => not_set end)) RETENTION_KEYS)
  end.

Record View := {
  vw_path : string;
  vw_disk : DiskView;
  vw_forecast : Line;
  vw_captures : option string;
  vw_retention : option (list (string * Horizon))
}.
Definition is_loading {A} (q : QueryResult A) : bool := match q with loading => true | _ => false end.
Definition StoragePanel (system : QueryResult SystemInfo) (telemetry : QueryResult TelemetryResponse)
    (settings : QueryResult (string -> option SettingsGroup.SettingValue)) (captures : QueryResult (list Capture)) : View := {|
  vw_path := match query_data system with Some s => ho_disk_path (sy_host s) | None => "unknown" end;
  vw_disk := disk system;
  vw_forecast := ForecastLine (forecastDiskFull (free_points (query_data telemetry))) (is_loading telemetry);
  vw_captures := captures_line (query_data captures);
  vw_retention := retention settings
|}.
End Storage.

(** ** host-row.tsx, and the host's card of about.tsx *)
Module About.

Definition reading_row (label : string) (host : option SystemHost) (field : SystemHost -> option num) (reason : string)
    (render : num -> string) (hint : option string) : Row :=
  match host with
  | None => row label [plain "Reading…"] None
  | Some host =>
      match field host with
      | Some raw => row label [plain (render raw)] hint
      | None => row label [plain "Unavailable"] (Some ((ho_unavailable host ≫= assoc reason) ?? "Not reported by the receiver"))
      end
  end.

(** A Number that "if" takes for true. *)
Definition present (x : option num) : option num :=
  match x with Some x => if is_nan x || neq x (of_Z 0) then None else Some x | None => None end.
Definition kib (v : num) : string := formatBytes (nmul v (of_Z 1024)).
Definition fixed2 (x : option num) : string := match x with Some x => toFixed 2 x | None => EMPTY end.
Definition of_total (value : string) (total : option string) : string :=
  match total with Some total => value +:+ " of " +:+ total | None => value end.

Definition host_rows (host : option SystemHost) : list Row := [
  reading_row "Uptime" host ho_uptime_s "uptime_s" formatDuration (Some "Since the Pi booted");
  reading_row "Load" host ho_load1 "load"
    (fun _ => match host with
              | Some h => match ho_load1 h with
                          | Some load1 => toFixed 2 load1 +:+ "  " +:+ fixed2 (ho_load5 h) +:+ "  " +:+ fixed2 (ho_load15 h)
                          | None => EMPTY
                          end
              | None => EMPTY
              end)
    (match host with Some h => Some ("1, 5 and 15 minutes across " +:+ num_string (ho_cpu_count h) +:+ " cores") | None => None end);
  reading_row "CPU temperature" host ho_cpu_temp_c "cpu_temp_c" (fun v => toFixed 1 v +:+ " °C") None;
  reading_row "Memory available" host ho_mem_available_kb "memory"
    (fun v => of_total (kib v) (kib <$> present (host ≫= ho_mem_total_kb))) None;
  reading_row "Disk free" host ho_disk_free_bytes "disk"
    (fun v => of_total (formatBytes v) (formatBytes <$> present (host ≫= ho_disk_total_bytes)))
    (match truthy (ho_disk_path <$> host) with Some path => Some ("On " +:+ path +:+ ", where detections are stored") | None => None end);
  row "Throttled" [plain "Unavailable"]
    (Some (Storage.unavailable host "throttled" ?? "Undervoltage and thermal throttling are not readable from the api"))].
End About.

(** ** host-history.tsx *)
Module Charts.
Import Telemetry.

Section Charts.
Context (stamp clockFmt : Z -> string).

Record HostMetric := { hm_key : string; hm_label : string; hm_pick : TelemetrySample -> option num; hm_fmt : num -> string }.
Definition hostMetrics : list HostMetric := [
  {| hm_key := "cpu_temp_c"; hm_label := "CPU temperature"; hm_pick := tm_cpu_temp_c; hm_fmt := fun v => toFixed 1 v +:+ " °C" |};
  {| hm_key := "load1"; hm_label := "Load (1 min)"; hm_pick := tm_load1; hm_fmt := toFixed 2 |};
  {| hm_key := "mem_available_kb"; hm_label := "Memory available"; hm_pick := tm_mem_available_kb; hm_fmt := About.kib |};
  {| hm_key := "disk_free_bytes"; hm_label := "Disk free"; hm_pick := tm_disk_free_bytes; hm_fmt := formatBytes |}].

Definition VIEW_W : num := of_Z 480.
Definition VIEW_H : num := of_Z 32.
Definition PAD_Y : num := of_Z 3.
Definition MAX_DRAW_POINTS : Z := 700.

(** [Date.parse], NaN when it is no date. *)
Definition ms (iso : string) : num := match Date_parse iso with Some t => of_Z t | None => S754_nan end.
Definition instant (t : option Z) : num := match t with Some t => of_Z t | None => S754_nan end.

Record Domain := { dm_start : num; dm_end : num }.
Definition domain (data : TelemetryResponse) : Domain :=
  let start := ms (te_since data) in
  let end_ := match last (te_samples data) with
              | Some lastSample => if te_truncated data then ms (tm_ts lastSample) else ms (te_until data)
              | None => ms (te_until data)
              end in
  {| dm_start := start; dm_end := nmax end_ (nadd start (of_Z 1)) |}.
Definition spansDays (d : Domain) : bool := ngt (nsub (dm_end d) (dm_start d)) (of_Z 86400000).
(** [None] when the date is invalid and [toISOString] throws. *)
Definition axisLabel (d : Domain) (t : num) : option string :=
  match floor_Z t ≫= TimeClip with
  | Some t => Some (if spansDays d then timestamp stamp (Some (toISOString t)) else clock clockFmt (Some (toISOString t)))
  | None => None
  end.

(** *** One figure *)
Definition isNone (x : option num) : bool := match x with None => true | Some _ => false end.
Definition unavailableCount (metric : HostMetric) (samples : list TelemetrySample) : Z :=
  fold_left (fun n s => if isNone (hm_pick metric s) then n + 1 else n) samples 0.

Definition pad (e : num * num) : num :=
  let spread := nsub e.2 e.1 in
  if ngt spread (of_Z 0) then nmul spread (dec 1 1) else nmax (nmul (nabs e.2) (dec 5 2)) (dec 5 1).
Definition x_at (d : Domain) (t : num) : num :=
  nmul (ndiv (nsub t (dm_start d)) (nsub (dm_end d) (dm_start d))) VIEW_W.
Definition y_at (e : num * num) (v : num) : num :=
  let vMin := nsub e.1 (pad e) in
  let vMax := nadd e.2 (pad e) in
  nadd PAD_Y (nmul (nsub (of_Z 1) (ndiv (nsub v vMin) (nsub vMax vMin))) (nsub VIEW_H (nmul (of_Z 2) PAD_Y))).

Definition point_text (d : Domain) (e : num * num) (p : TelemetryPoint) : string :=
  toFixed 2 (x_at d (instant (tp_t p))) +:+ " " +:+ toFixed 2 (y_at e (tp_v p)).
Inductive Stroke := dot (path : string) | strip (line area : string).
Definition stroke_of (d : Domain) (e : num * num) (points : list TelemetryPoint) : option Stroke :=
  match points with
  | [] => None
  | [first] => Some (dot ("M " +:+ point_text d e first +:+ " l 0.01 0"))
  | first :: rest =>
      let line := join " " (("M " +:+ point_text d e first) :: map (fun p => "L " +:+ point_text d e p) rest) in
      let last_ := List.last points first in
      Some (strip line (line +:+ " L " +:+ toFixed 2 (x_at d (instant (tp_t last_))) +:+ " " +:+ num_string VIEW_H +:+
                        " L " +:+ toFixed 2 (x_at d (instant (tp_t first))) +:+ " " +:+ num_string VIEW_H +:+ " Z"))
  end.

Inductive Readout := at_pointer (value : option string) (clock : string) | range_shown (low high : string).
Definition readout (metric : HostMetric) (e : num * num) (hovered : option TelemetrySample) : Readout :=
  match hovered with
  | Some sample => at_pointer (hm_fmt metric <$> hm_pick metric sample) (clock clockFmt (Some (tm_ts sample)))
  | None => range_shown (hm_fmt metric e.1) (hm_fmt metric e.2)
  end.
Inductive MetricView :=
| unavailable_for_window (label : string)
| chart (label : string) (shown : Readout) (aria : string) (strokes : list Stroke).
Definition MetricRow (d : Domain) (samples : list TelemetrySample) (hovered : option TelemetrySample) (metric : HostMetric) : MetricView :=
  let segments := splitSegments samples (hm_pick metric) in
  match seriesExtent segments with
  | None => unavailable_for_window (hm_label metric)
  | Some e =>
      let missing := unavailableCount metric samples in
      chart (hm_label metric) (readout metric e hovered)
        (hm_label metric +:+ " history: between " +:+ hm_fmt metric e.1 +:+ " and " +:+ hm_fmt metric e.2 +:+
         (if 0 <? missing
          then "; " +:+ pretty missing +:+ " of " +:+ pretty (zlen samples) +:+ " readings unavailable, drawn as gaps"
          else ""))
        (omap (fun segment => stroke_of d e (downsampleSegment segment MAX_DRAW_POINTS)) segments)
  end.

(** *** The panel *)
Definition hoverPct (d : Domain) (hovered : option TelemetrySample) : option num :=
  match hovered with
  | Some s => Some (nmin (of_Z 100) (nmax (of_Z 0)
      (nmul (ndiv (nsub (ms (tm_ts s)) (dm_start d)) (nsub (dm_end d) (dm_start d))) (of_Z 100))))
  | None => None
  end.
(** The pointer over a chart whose box is [left] and [width]. *)
Definition pointed (data : TelemetryResponse) (clientX left width : num) (hoverIndex : option nat) : option nat :=
  if nle width (of_Z 0) then hoverIndex
  else
    let d := domain data in
    let frac := nmin (of_Z 1) (nmax (of_Z 0) (ndiv (nsub clientX left) width)) in
    nearestSampleIndex (te_samples data) (nadd (dm_start d) (nmul frac (nsub (dm_end d) (dm_start d)))).

Definition cell (metric : HostMetric) (s : TelemetrySample) : string :=
  match hm_pick metric s with None => "Unavailable" | Some v => hm_fmt metric v end.
Definition table_row (d : Domain) (s : TelemetrySample) : string * list string :=
  ((if spansDays d then timestamp stamp (Some (tm_ts s)) else clock clockFmt (Some (tm_ts s))),
   map (fun metric => cell metric s) hostMetrics).

Inductive View :=
| history_unavailable
| pending
| no_history
| charts (rows : list MetricView) (from to : string) (stops_at : option string) (cursor : option num)
    (table : list (string * list string)).
(** [None]: the rendering throws. *)
Definition HostHistory (data : option TelemetryResponse) (isPending isError : bool) (hoverIndex : option nat) : option View :=
  if isError then Some history_unavailable
  else if isPending then Some pending
  else match data with
  | None => Some no_history
  | Some data =>
      match te_samples data with
      | [] => Some no_history
      | samples =>
          let d := domain data in
          let hovered := hoverIndex ≫= fun i => samples !! i in
          from ← axisLabel d (dm_start d);
          to ← axisLabel d (dm_end d);
          Some (charts (map (MetricRow d samples hovered) hostMetrics) from to
                  (if te_truncated data then Some to else None) (hoverPct d hovered) (map (table_row d) samples))
      end
  end.
End Charts.

(** *** Facts *)

Lemma lo_hi_stays points places lh : is_Some (fold_left (lo_hi points) places (Some lh)).
Proof.
  revert lh. induction places as [|i places IH]; intros [lo hi]; cbn [fold_left]; [done|].
  unfold lo_hi at 2. destruct (points !! i); apply IH.
Qed.
Lemma lo_hi_starts p points places : is_Some (fold_left (lo_hi (p :: points)) (0%nat :: places) None).
Proof. apply lo_hi_stays. Qed.
Lemma first_bucket n bucketCount : 1 <= n -> exists end_, bucket n bucketCount 0 = (0, end_) /\ 1 <= end_.
Proof.
  intros Hn. unfold bucket. assert (forall x, floor_Z (nmul (of_Z 0) x) ?? 0 = 0) as ->.
  { intros x. by destruct x as [[]|[]| |[]]. }
  eexists. split; [reflexivity|]. lia.
Qed.
(** A segment is drawn: thinning leaves something of it. *)
Lemma thinned_nonempty points : points <> [] -> downsampleSegment points MAX_DRAW_POINTS <> [].
Proof.
  intros Hp. unfold downsampleSegment. destruct (_ || _) eqn:E; [done|].
  change (Z.to_nat (MAX_DRAW_POINTS / 2)) with (S 349). cbn [seq flat_map]. intros [Hb _]%app_eq_nil. revert Hb.
  destruct points as [|p points]; [done|]. change (Z.of_nat 0) with 0. unfold thin_bucket.
  destruct (first_bucket (zlen (p :: points)) (MAX_DRAW_POINTS / 2)) as (end_ & -> & He); [unfold zlen; cbn [List.length]; lia|].
  replace (Z.to_nat (end_ - 0)) with (S (Z.to_nat (end_ - 1))) by lia. change (Z.to_nat 0) with 0%nat. cbn [seq].
  destruct (lo_hi_starts p points (seq 1 (Z.to_nat (end_ - 1)))) as [[lo hi] ->].
  destruct (_ =? _)%nat; [done|]. by destruct (match tp_t lo.2 with Some _ => _ | None => _ end).
Qed.

Lemma stroke_of_nonempty d e points : points <> [] -> is_Some (stroke_of d e points).
Proof. by destruct points as [|p [|q points]]. Qed.

Lemma omap_Forall2 {A B} (f : A -> option B) (l : list A) :
  (forall a, In a l -> is_Some (f a)) -> Forall2 (fun b a => f a = Some b) (omap f l) l.
Proof.
  induction l as [|a l IH]; intros Hf; [constructor|]. cbn. destruct (Hf a (or_introl eq_refl)) as [b E]. rewrite E.
  constructor; [done|]. apply IH. intros x Hx. apply Hf. by right.
Qed.

Lemma count_missing metric samples n :
  fold_left (fun n s => if isNone (hm_pick metric s) then n + 1 else n) samples n =
  n + zlen (List.filter (fun s => isNone (hm_pick metric s)) samples).
Proof.
  revert n. induction samples as [|s samples IH]; intros n; cbn [fold_left List.filter]; [unfold zlen; cbn; lia|].
  rewrite IH. destruct (isNone _); unfold zlen; cbn [List.length]; lia.
Qed.

(** The path of a stroke goes through thinned points of its segment only. *)
Definition draws (d : Domain) (e : num * num) (stroke : Stroke) (segment : list TelemetryPoint) : Prop :=
  exists points, stroke_of d e points = Some stroke /\ points <> [] /\ (forall p, In p points -> In p segment).
Definition readings (metric : HostMetric) (samples : list TelemetrySample) : list TelemetryPoint :=
  omap (reading (hm_pick metric)) samples.

Lemma readings_finite metric samples p : In p (readings metric samples) -> is_finite (tp_v p) = true.
Proof.
  unfold readings. induction samples as [|s samples IH]; [done|]. cbn. destruct (reading (hm_pick metric) s) as [q|] eqn:E; [|done].
  intros [<-|H]; [|auto]. unfold reading in E. destruct (hm_pick metric s) as [v|]; [|done].
  destruct (is_finite v) eqn:Ef; [|done]. by injection E as <-.
Qed.

(** C33. A chart of the host's history shows what was read and nothing else.  A
    figure never read in the window is called unavailable.  Any other has one
    stroke for each maximal run of rows whose reading was taken, in order, drawn
    through readings of that run only, so no line crosses a missing reading or an
    outage; the range printed runs from the least to the greatest reading taken;
    under the pointer stands the reading of the row pointed at, or "Unavailable"
    when that row has none; and the label counts the rows without one. *)
Theorem charts_show_what_was_read (clockFmt : Z -> string) (d : Domain) (samples : list TelemetrySample)
    (hovered : option TelemetrySample) (metric : HostMetric) :
  match MetricRow clockFmt d samples hovered metric with
  | unavailable_for_window label => label = hm_label metric /\ readings metric samples = []
  | chart label shown aria strokes =>
      exists lo hi segments,
        In lo (map tp_v (readings metric samples)) /\ In hi (map tp_v (readings metric samples)) /\
        (forall p, In p (readings metric samples) -> nle lo (tp_v p) = true /\ nle (tp_v p) hi = true) /\
        concat segments = readings metric samples /\
        (forall segment, In segment segments ->
           exists pre post, maximal_run (within (gapThreshold samples)) (map (reading (hm_pick metric)) samples) segment pre post) /\
        Forall2 (draws d (lo, hi)) strokes segments /\
        shown = match hovered with
                | Some s => at_pointer (hm_fmt metric <$> hm_pick metric s) (clock clockFmt (Some (tm_ts s)))
                | None => range_shown (hm_fmt metric lo) (hm_fmt metric hi)
                end /\
        let missing := zlen (List.filter (fun s => isNone (hm_pick metric s)) samples) in
        aria = hm_label metric +:+ " history: between " +:+ hm_fmt metric lo +:+ " and " +:+ hm_fmt metric hi +:+
               (if 0 <? missing
                then "; " +:+ pretty missing +:+ " of " +:+ pretty (zlen samples) +:+ " readings unavailable, drawn as gaps"
                else "")
  end.
Proof.
  destruct (charts_join_only_what_was_measured samples (hm_pick metric)
    {| st_start_hz := of_Z 0; st_stop_hz := of_Z 0; st_bin_width_hz := of_Z 0; st_dbfs := []; st_blind := 0 |}) as [[Hc Hr] _].
  fold (readings metric samples) in Hc.
  pose proof (extent_spec tp_v (splitSegments samples (hm_pick metric))) as He. rewrite Hc in He.
  specialize (He (readings_finite metric samples)). unfold MetricRow, seriesExtent.
  destruct (extent tp_v _) as [[lo hi]|]; [|done]. destruct He as (Hlo & Hhi & Hb).
  exists lo, hi, (splitSegments samples (hm_pick metric)). split_and!; try done.
  - eapply Forall2_impl; [apply omap_Forall2|].
    + intros segment Hin. destruct (Hr segment Hin) as (pre & post & Hm). apply stroke_of_nonempty, thinned_nonempty, (mr_some _ _ _ _ _ Hm).
    + intros stroke segment Hs. exists (downsampleSegment segment MAX_DRAW_POINTS). split_and!; [done| |intros p; apply downsample_invents_nothing].
      intros E. cbv beta in Hs. by rewrite E in Hs.
  - cbn zeta. unfold unavailableCount. rewrite count_missing. by rewrite Z.add_0_l.
Qed.

(** The axis never claims more than the rows it was given: cut short by the
    server, it ends at the last of them. *)
Lemma truncated_axis_ends_at_the_last_row data s :
  te_truncated data = true -> last (te_samples data) = Some s ->
  dm_end (domain data) = nmax (ms (tm_ts s)) (nadd (ms (te_since data)) (of_Z 1)).
Proof. intros Ht Hl. unfold domain. cbn. by rewrite Hl, Ht. Qed.

(** A failure and an empty history are told apart, whatever is left from before. *)
Lemma failure_is_not_emptiness stamp clockFmt data h :
  HostHistory stamp clockFmt data false true h = Some history_unavailable /\
  (forall d, te_samples d = [] -> HostHistory stamp clockFmt (Some d) false false h = Some no_history).
Proof. split; [done|]. intros d Hd. cbn. by rewrite Hd. Qed.
End Charts.

(** ** What the panels show *)

(** A missing list of artefacts and an empty one look the same. *)
Lemma missing_and_empty_artefacts_look_alike label : ArtefactList None label = ArtefactList (Some []) label.
Proof. done. Qed.

(** The last minute of a run is rounded up to sixty seconds. *)
Lemma sixty_seconds_are_said :
  History.duration (dec 1196 1) = "1m 60s" /\ History.duration (dec 596 1) = "60s" /\ History.duration (of_Z 120) = "2m".
Proof. vm_compute. done. Qed.

(** A history that could not be asked for reads as an empty one. *)
Lemma failed_history_reads_as_empty now e f reason :
  History.DeployHistory now (errored None e f) =
  History.DeployHistory now (loaded {| dh_configured := true; dh_reason := reason; dh_runs := [] |}).
Proof. done. Qed.

(** Every run of an answered history has its row, in the order given; a failed
    one says why on the row, a success only behind it. *)
Lemma every_run_has_its_row now h :
  dh_configured h = true -> dh_runs h <> [] ->
  History.DeployHistory now (loaded h) = History.run_rows (map (History.RunRow now) (dh_runs h)).
Proof. intros Hc Hr. unfold History.DeployHistory. cbn. rewrite Hc. by destruct (dh_runs h). Qed.
Lemma reason_is_shown_once now run reason :
  truthy (dr_reason run) = Some reason ->
  (History.rv_reason (History.RunRow now run) = Some reason /\ History.rv_detail_reason (History.RunRow now run) = None /\
   dr_result run <> "deployed") \/
  (History.rv_reason (History.RunRow now run) = None /\ History.rv_detail_reason (History.RunRow now run) = Some reason /\
   dr_result run = "deployed").
Proof.
  intros Hr. unfold History.RunRow. cbn -[truthy]. rewrite Hr. unfold History.result_pill, History.RESULTS. cbn [List.find fst snd].
  destruct (String.eqb_spec "deployed" (dr_result run)) as [E|Hne]; [right; split_and!; [done|done|by rewrite <- E]|left].
  destruct (String.eqb "failed" (dr_result run)); [split_and!; [done|done|congruence]|].
  destruct (String.eqb "rebuilt" (dr_result run)); split_and!; try done; congruence.
Qed.

(** The watchdog's own silence and its giving up are both on the panel, and the
    second adapter has a row exactly on a unit that was fitted with one. *)
Lemma watchdog_shows_its_limits stamp w :
  ((exists n, In n (Watchdog.notices stamp w) /\ nt_tone n = "error") <-> is_Some (truthy (wd_needs_hands w))) /\
  ((exists n, In n (Watchdog.notices stamp w) /\ nt_tone n = "warn") <-> Watchdog.stale w = true) /\
  ((exists r, In r (Watchdog.rows stamp w) /\ rw_label r = "Wi-Fi adapter (TP-Link)") <-> is_Some (wd_wifi_tplink_adapter_present w)).
Proof.
  unfold Watchdog.notices, Watchdog.rows. split_and!.
  - destruct (truthy (wd_needs_hands w)) as [needs|]; (split; [intros (n & Hn & Ht)|intros []]); [done|eexists; split; [by left|done]| |done].
    destruct (Watchdog.stale w); [|done]. by destruct Hn as [<-|[]].
  - destruct (Watchdog.stale w); (split; [intros (n & Hn & Ht)|intros ?]); try done.
    + eexists. split; [apply in_app_iff; right; by left|done].
    + rewrite app_nil_r in Hn. destruct (truthy (wd_needs_hands w)); [|done]. by destruct Hn as [<-|[]].
  - split; [|intros [b Hb]; rewrite Hb; eexists; split; [apply in_app_iff; right; by left|done]].
    intros (r & Hr & Hl). destruct (wd_wifi_tplink_adapter_present w) as [b|]; [done|].
    destruct Hr as [<-|[<-|[<-|[<-|[<-|[]]]]]]; done.
Qed.

Module Readings.
Import Forecast Storage About.

Lemma used_read total free u : usedFraction total free = Some u ->
  exists t f, total = Some t /\ free = Some f /\
    is_finite t = true /\ nle t (of_Z 0) = false /\ is_finite f = true /\ nlt f (of_Z 0) = false.
Proof.
  unfold usedFraction. destruct total as [t|], free as [f|]; try done.
  destruct (is_finite t) eqn:H1, (nle t (of_Z 0)) eqn:H2, (is_finite f) eqn:H3, (nlt f (of_Z 0)) eqn:H4; try done. eauto 10.
Qed.
Lemma disk_read system :
  match disk system with disk_figures _ _ _ _ => True | _ => False end ->
  exists s total free, query_data system = Some s /\
    ho_disk_total_bytes (sy_host s) = Some total /\ ho_disk_free_bytes (sy_host s) = Some free /\
    is_finite total = true /\ nle total (of_Z 0) = false /\ is_finite free = true /\ nlt free (of_Z 0) = false.
Proof.
  intros H. assert (exists u, used (sy_host <$> query_data system) = Some u) as [u Hu].
  { unfold disk in H. destruct system; [done| |]; destruct (used _) eqn:E; done || eauto. }
  unfold used in Hu. apply used_read in Hu as (t & f & Ht & Hf & Hr). destruct (query_data system) as [s|]; [|done].
  by exists s, t, f.
Qed.

(** A figure of the disk stands on the storage page only for a filesystem that
    was read: both readings taken, finite and sensible.  A date stands there
    only behind eight readings spread over an hour or more. *)
Lemma storage_shows_only_what_was_read system telemetry settings captures :
  (forall filled aria tone figures, vw_disk (StoragePanel system telemetry settings captures) = disk_figures filled aria tone figures ->
     exists s total free, query_data system = Some s /\
       ho_disk_total_bytes (sy_host s) = Some total /\ ho_disk_free_bytes (sy_host s) = Some free /\
       is_finite total = true /\ nle total (of_Z 0) = false /\ is_finite free = true /\ nlt free (of_Z 0) = false /\
       In ("Free", formatBytes free) figures /\ In ("Total", formatBytes total) figures) /\
  (forall urgent rate headroom, vw_forecast (StoragePanel system telemetry settings captures) = projected urgent rate headroom ->
     exists t first last_, query_data telemetry = Some t /\ MIN_POINTS <= zlen (usable (free_points (Some t))) /\
       head (usable (free_points (Some t))) = Some first /\ last (usable (free_points (Some t))) = Some last_ /\
       MIN_SPAN_MS <= last_.1 - first.1).
Proof.
  split.
  - intros filled aria tone figures H. cbn [StoragePanel vw_disk] in H. destruct (disk_read system) as (s & total & free & Hs & Ht & Hf & Hr); [by rewrite H|].
    exists s, total, free. destruct Hr as (H1 & H2 & H3 & H4). split_and!; try done.
    all: revert H; unfold disk; destruct system as [| |]; [done| |].
    all: rewrite Hs; destruct (used _); [intros [= _ _ _ <-]|done].
    all: cbn [fmap option_fmap option_map mbind option_bind]; rewrite ?Ht, ?Hf; cbn [In or_zero]; auto.
  - intros urgent rate headroom. cbn [StoragePanel vw_forecast]. unfold ForecastLine. destruct (is_loading telemetry); [done|].
    destruct (forecastDiskFull _) as [perDay days| |] eqn:E; [|done|done]. intros _.
    apply a_date_is_earned in E as (Hn & first & last_ & Hf & Hl & Hs & _).
    destruct (query_data telemetry) as [t|]; [|by unfold usable in Hf; cbn in Hf].
    by exists t, first, last_.
Qed.

(** A host reading that was not taken is called unavailable, with the reason the
    unit gave for it; one that was taken is printed. *)
Lemma host_rows_say_unavailable label host field reason render hint :
  let r := reading_row label (Some host) field reason render hint in
  match field host with
  | None => rw_value r = [plain "Unavailable"] /\
            (forall why, (ho_unavailable host ≫= assoc reason) = Some why -> rw_hint r = Some why)
  | Some v => rw_value r = [plain (render v)] /\ rw_hint r = hint
  end.
Proof. cbn. destruct (field host); [done|]. split; [done|]. intros why E. cbn. by rewrite E. Qed.

(** The reasons as the server names them (services/api/internal/system). *)
Definition REASONS : list string := ["uptime_s"; "load"; "memory"; "cpu_temp_c"; "disk"; "throttled"].

Lemma assoc_other {A} (key : string) (l : list (string * A)) : ~ In key (map fst l) -> assoc key l = None.
Proof.
  induction l as [|[k v] l IH]; [done|]. cbn. intros Hn. destruct (String.eqb_spec k key) as [->|]; [by destruct Hn; left|].
  apply IH. intros Hin. apply Hn. by right.
Qed.

(** The storage page asks for the disk's reason under a name the server does not
    use, so it shows its own guess, whatever the unit said; the about page shows
    the reason. *)
Lemma storage_never_shows_the_reason s reasons :
  ho_unavailable (sy_host s) = Some reasons -> incl (map fst reasons) REASONS -> ho_disk_free_bytes (sy_host s) = None ->
  disk (loaded s) = unreadable (notice "info" "Disk usage is not readable here"
    "The API could not stat this filesystem. On a containerised deployment that is expected; the figure is readable on the Pi itself.").
Proof.
  intros Hr Hi Hf. unfold disk, used. cbn. rewrite Hf. replace (usedFraction (ho_disk_total_bytes (sy_host s)) None) with (@None num) by (by destruct (ho_disk_total_bytes (sy_host s))).
  unfold unavailable. cbn. rewrite Hr. cbn. rewrite assoc_other; [done|]. intros H%Hi. cbn in H. intuition discriminate.
Qed.

(** The forecast is of the rows returned: whether they reach the present is not asked. *)
Lemma forecast_ignores_truncation t until truncated :
  forecastDiskFull (free_points (Some t)) =
  forecastDiskFull (free_points (Some {| te_samples := te_samples t; te_since := te_since t; te_until := until; te_truncated := truncated |})).
Proof. done. Qed.
End Readings.

(** ** Examples *)
Module Examples.
Import Deploy.

Definition a_status (queued : bool) (result : string) (age : Z) : DeploymentStatus := {|
  ds_configured := true; ds_reason := None; ds_commit := Some "9a234ae9f0"; ds_commit_subject := None; ds_commit_at := None;
  ds_last_check_at := Some "2026-09-15T03:00:00Z"; ds_last_result := Some result; ds_last_reason := None;
  ds_last_deploy_at := None; ds_last_deploy_commit := None; ds_last_deploy_ok := None; ds_remote_commit := None;
  ds_remote_ci := None; ds_timer_enabled := Some true; ds_update_available := false; ds_deploy_requested := queued;
  ds_state_age_s := Some (of_Z age); ds_artefacts := None; ds_log := None
|}.
Definition refused : Failure := failed_api {| ae_status := 409; ae_code := None; ae_message := JStr "a sweep is running"; ae_field := None |}.

(** Asked twice in a row, one request goes out; its refusal is shown until the next ask. *)
Example a_refusal_and_a_second_try :
  let p := run (opened (loaded (a_status false "up to date" 60))) [deploy_clicked; deploy_clicked; deploy_settled (inr refused)] in
  sent_as "POST" p = 1 /\
  map nt_title (notices (fun _ => "") (fun _ => "") (pg_deploy p) (a_status false "up to date" 60)) = ["Could not request a deploy"] /\
  let p' := run p [deploy_clicked; deploy_settled (inl (a_status true "up to date" 60)); withdraw_clicked] in
  sent_as "POST" p' = 2 /\ sent_as "DELETE" p' = 1 /\ offered p' = Some (withdraw_request true).
Proof. vm_compute. done. Qed.

(** A day after the agent died in the middle of a deploy. *)
Example a_day_after_the_agent_died :
  map nt_title (notices (fun _ => "") (fun _ => "") idle (a_status false "deploying" 86400)) = ["A deploy is running on the unit now"] /\
  map nt_title (notices (fun _ => "") (fun _ => "") idle (a_status false "failed" 86400)) = ["The deploy agent has not checked in recently"].
Proof. vm_compute. done. Qed.

Example ages : map (fun s => formatAge (Some (of_Z s))) [89; 90; 5369; 5370; 86400] = ["89s"; "2 min"; "89 min"; "2 h"; "24 h"].
Proof. vm_compute. done. Qed.

(** The chart of a history with a missing reading and an outage. *)
Example a_chart :
  let d := {| Charts.dm_start := of_Z 1789441200000; Charts.dm_end := of_Z 1789444860000 |} in
  match Charts.MetricRow (fun _ => "") d a_history None
          {| Charts.hm_key := "cpu_temp_c"; Charts.hm_label := "CPU temperature"; Charts.hm_pick := tm_cpu_temp_c; Charts.hm_fmt := toFixed 1 |} with
  | Charts.chart _ (Charts.range_shown low high) aria strokes =>
      low = "0.0" /\ high = "53.0" /\ List.length strokes = 3%nat /\
      aria = "CPU temperature history: between 0.0 and 53.0; 1 of 6 readings unavailable, drawn as gaps"
  | _ => False
  end.
Proof. vm_compute. done. Qed.
End Examples.
