(* ===== verification/AlertsPanel.v ===== *)
(** * AlertsPanel: alert rules and boundaries

    [features/hooks/hooks-panel.tsx] and
    [features/boundaries/boundaries-panel.tsx] around the forms of
    [SettingsForms].  Both lists have the same row: an editor that opens in its
    place and saves what it shows, and a deletion behind a second click.  The row
    is one state machine over its form; each panel adds what is its own. *)
From Stdlib Require Import ZArith Bool String Ascii List Lia SpecFloat.
From stdpp Require Import base option list strings pretty.
From S2P Require Import Prelude JsNumber JsString JsDate JsParse ApiTypes Format HealthView Transport TwoClicks SettingsForms Access UnitPanels.

(** ** An editor and its saves

    [F] is what the form holds, [C] what typing changes of it, [B] what a save
    sends of it.  The editor's
    mutation outlives it: a save whose editor was closed still gets its answer,
    and its success closes whatever editor is open by then. *)
Section Editor.
Context {F C B : Type} (apply : C -> F -> F) (canSave : F -> bool) (body : F -> B).

Record Slot := {
  sl_editor : option (F * Mutation);
  sl_lost : nat;
  sl_sent : list B;
  sl_stale : Z
}.
Definition shut : Slot := {| sl_editor := None; sl_lost := 0; sl_sent := []; sl_stale := 0 |}.

Inductive SlotEvent :=
| editor_opened (f : F)
| form_changed (change : C)
| submitted
| editor_cancelled
| save_settled (r : unit + Failure)
| lost_settled (r : unit + Failure).

Definition saving (s : Slot) : bool := match sl_editor s with Some (_, m) => mt_pending m | None => false end.
Definition set_editor (e : option (F * Mutation)) (s : Slot) : Slot :=
  {| sl_editor := e; sl_lost := sl_lost s; sl_sent := sl_sent s; sl_stale := sl_stale s |}.
(** [onDone]: the editor leaves the screen, and a save under way with it. *)
Definition close (s : Slot) : Slot :=
  {| sl_editor := None; sl_lost := if saving s then S (sl_lost s) else sl_lost s; sl_sent := sl_sent s; sl_stale := sl_stale s |}.
Definition invalidate (s : Slot) : Slot :=
  {| sl_editor := sl_editor s; sl_lost := sl_lost s; sl_sent := sl_sent s; sl_stale := sl_stale s + 1 |}.

Definition slot_enabled (s : Slot) (e : SlotEvent) : bool :=
  match e, sl_editor s with
  | editor_opened _, None => true
  | form_changed _, Some _ | editor_cancelled, Some _ => true
  | submitted, Some (f, m) => canSave f && negb (mt_pending m)
  | save_settled _, Some (_, m) => mt_pending m
  | lost_settled _, _ => (0 <? sl_lost s)%nat
  | _, _ => false
  end.
Definition slot_handle (s : Slot) (e : SlotEvent) : Slot :=
  match e, sl_editor s with
  | editor_opened f, _ => set_editor (Some (f, idle)) s
  | form_changed change, Some (f, m) => set_editor (Some (apply change f, m)) s
  | submitted, Some (f, _) =>
      {| sl_editor := Some (f, mutating); sl_lost := sl_lost s; sl_sent := sl_sent s ++ [body f]; sl_stale := sl_stale s |}
  | editor_cancelled, Some _ => close s
  | save_settled (inl tt), Some (f, _) => invalidate (set_editor None s)
  | save_settled (inr e), Some (f, _) => set_editor (Some (f, settled (@inr unit _ e))) s
  | lost_settled r, _ =>
      let s := {| sl_editor := sl_editor s; sl_lost := pred (sl_lost s); sl_sent := sl_sent s; sl_stale := sl_stale s |} in
      match r with inl _ => close (invalidate s) | inr _ => s end
  | _, None => s
  end.

Definition slot_answers (es : list SlotEvent) : Z :=
  zlen (List.filter (fun e => match e with save_settled _ | lost_settled _ => true | _ => false end) es).
Definition unanswered (s : Slot) : Z := Z.of_nat (sl_lost s) + if saving s then 1 else 0.

(** A save is sent by the form's own button alone, with what the form holds then,
    and every save has one answer. *)
Lemma save_sends_the_form s e : slot_enabled s e = true ->
  sl_sent (slot_handle s e) = sl_sent s \/
  exists f, e = submitted /\ (exists m, sl_editor s = Some (f, m)) /\ canSave f = true /\ saving s = false /\
    sl_sent (slot_handle s e) = sl_sent s ++ [body f].
Proof.
  unfold slot_enabled, slot_handle, saving. destruct s as [[[f m]|] lost sent stale]; cbn.
  - destruct e as [f'|c| | |[[]|r]|[x|r]]; cbn; try (by left).
    intros [Hc Hm]%andb_prop. apply negb_true_iff in Hm. right. exists f. eauto 10.
  - destruct e as [f'|c| | |[[]|r]|[x|r]]; cbn; by left.
Qed.
Lemma every_save_is_answered s e : slot_enabled s e = true ->
  zlen (sl_sent (slot_handle s e)) - unanswered (slot_handle s e) =
  zlen (sl_sent s) - unanswered s + slot_answers [e].
Proof.
  unfold slot_enabled, slot_handle, unanswered, slot_answers, zlen.
  destruct s as [[[f [p err]]|] lost sent stale]; destruct e as [f'|c| | |[[]|r]|[x|r]]; cbn -[Z.of_nat List.length Nat.ltb];
    rewrite ?List.length_app; cbn -[Z.of_nat Nat.ltb]; try done; intros H.
  all: try (apply Nat.ltb_lt in H); try (apply andb_prop in H as [_ H]; apply negb_true_iff in H); subst; try destruct p; lia.
Qed.

(** The answer to a save that was given up closes the editor opened since. *)
Lemma a_lost_save_closes_the_next_editor s f m :
  sl_lost s = 1%nat -> sl_editor s = Some (f, m) -> sl_editor (slot_handle s (lost_settled (inl tt))) = None.
Proof. intros Hl He. unfold slot_handle. by destruct s; cbn in *; subst. Qed.
End Editor.
Arguments Slot : clear implicits.
Arguments SlotEvent : clear implicits.

(** ** A row and its deletion *)
Section Row.
Context {F C B : Type} (apply : C -> F -> F) (canSave : F -> bool) (body : F -> B).

Record Item := {
  it_slot : Slot F B;
  it_confirmingDelete : bool;
  it_remove : Mutation;
  it_deletes : Z
}.
Definition mounted : Item := {| it_slot := shut; it_confirmingDelete := false; it_remove := idle; it_deletes := 0 |}.

Inductive ItemEvent :=
| edit_clicked
| editing (e : SlotEvent F C)
| delete_clicked
| delete_confirmed
| delete_cancelled
| delete_settled (r : unit + Failure).

(** The row's own controls are on screen while no editor is. *)
Definition on_screen (i : Item) : bool := match sl_editor (it_slot i) with None => true | Some _ => false end.
Definition item_enabled (i : Item) (e : ItemEvent) : bool :=
  match e with
  | edit_clicked => on_screen i
  | editing (editor_opened _) => false
  | editing e => slot_enabled canSave (it_slot i) e
  | delete_clicked => on_screen i && negb (it_confirmingDelete i) && negb (mt_pending (it_remove i))
  | delete_confirmed => on_screen i && it_confirmingDelete i && negb (mt_pending (it_remove i))
  | delete_cancelled => on_screen i && it_confirmingDelete i
  | delete_settled _ => mt_pending (it_remove i)
  end.

Definition with_slot (s : Slot F B) (i : Item) : Item :=
  {| it_slot := s; it_confirmingDelete := it_confirmingDelete i; it_remove := it_remove i; it_deletes := it_deletes i |}.
Definition ask (confirming : bool) (i : Item) : Item :=
  {| it_slot := it_slot i; it_confirmingDelete := confirming; it_remove := it_remove i; it_deletes := it_deletes i |}.
Definition remove_mutate (i : Item) : Item :=
  {| it_slot := it_slot i; it_confirmingDelete := it_confirmingDelete i; it_remove := mutating; it_deletes := it_deletes i + 1 |}.

(** [form]: what the editor opens with; [confirmDestructive]: the preference. *)
Definition item_handle (form : F) (confirmDestructive : bool) (i : Item) (e : ItemEvent) : Item :=
  match e with
  | edit_clicked => with_slot (slot_handle apply body (it_slot i) (editor_opened form)) i
  | editing e => with_slot (slot_handle apply body (it_slot i) e) i
  | delete_clicked => if confirmDestructive then ask true i else remove_mutate i
  | delete_confirmed => remove_mutate (ask false i)
  | delete_cancelled => ask false i
  | delete_settled r =>
      {| it_slot := match r with inl _ => invalidate (it_slot i) | inr _ => it_slot i end;
         it_confirmingDelete := it_confirmingDelete i; it_remove := settled r; it_deletes := it_deletes i |}
  end.

Definition item_kind (e : ItemEvent) : Click :=
  match e with delete_clicked => asks | delete_cancelled => withdraws | delete_confirmed => confirms | _ => elsewhere end.

Lemma item_armed form i e : item_enabled i e = true -> it_confirmingDelete (item_handle form true i e) = true ->
  item_kind e = asks \/ (it_confirmingDelete i = true /\ item_kind e = elsewhere).
Proof. destruct e; cbn; auto; by right. Qed.
Lemma item_sent form i e : item_enabled i e = true ->
  it_deletes (item_handle form true i e) = it_deletes i \/
  (it_deletes (item_handle form true i e) = it_deletes i + 1 /\ it_confirmingDelete i = true /\ item_kind e = confirms).
Proof.
  destruct e; cbn; auto. intros H%andb_prop. destruct H as [H _]. apply andb_prop in H as [_ H]. auto.
Qed.
End Row.
Arguments Item : clear implicits.
Arguments ItemEvent : clear implicits.

(** ** hooks-panel.tsx *)
Module Rules.
Import HookRules.

(** *** The form *)
Inductive TextField := f_name | f_event | f_url | f_authorization | f_to | f_subject | f_priority | f_token | f_boundary.
#[export] Instance TextField_eq_dec : EqDecision TextField.
Proof. solve_decision. Defined.

Definition set_text (k : TextField) (v : string) (e : RuleEditor) : RuleEditor :=
  let pick f old := if bool_decide (k = f) then v else old in {|
    re_rule := re_rule e;
    re_name := pick f_name (re_name e);
    re_event := pick f_event (re_event e);
    re_action := re_action e;
    re_cooldownMin := re_cooldownMin e;
    re_onlyDrones := re_onlyDrones e;
    re_minConfidence := re_minConfidence e;
    re_url := pick f_url (re_url e);
    re_authorization := pick f_authorization (re_authorization e);
    re_to := pick f_to (re_to e);
    re_subject := pick f_subject (re_subject e);
    re_ntfyPriority := pick f_priority (re_ntfyPriority e);
    re_ntfyAccessToken := pick f_token (re_ntfyAccessToken e);
    re_boundaryId := pick f_boundary (re_boundaryId e)
  |}.
Definition set_rest (action : HookAction) (cooldownMin : num) (onlyDrones : bool) (minConfidence : num) (e : RuleEditor) : RuleEditor := {|
  re_rule := re_rule e; re_name := re_name e; re_event := re_event e; re_action := action; re_cooldownMin := cooldownMin;
  re_onlyDrones := onlyDrones; re_minConfidence := minConfidence; re_url := re_url e; re_authorization := re_authorization e;
  re_to := re_to e; re_subject := re_subject e; re_ntfyPriority := re_ntfyPriority e;
  re_ntfyAccessToken := re_ntfyAccessToken e; re_boundaryId := re_boundaryId e
|}.
Inductive Change :=
| text_typed (k : TextField) (v : string)
| boundary_chosen (v : string)
| action_chosen (a : HookAction)
| cooldown_typed (v : string)
| confidence_typed (v : string)
| drones_switched (b : bool).
Definition change (c : Change) (e : RuleEditor) : RuleEditor :=
  match c with
  | text_typed k v => set_text k v e
  | boundary_chosen v => set_text f_boundary (if v === "any" then "" else v) e
  | action_chosen a => set_rest a (re_cooldownMin e) (re_onlyDrones e) (re_minConfidence e) e
  | cooldown_typed v => set_rest (re_action e) (Number v) (re_onlyDrones e) (re_minConfidence e) e
  | confidence_typed v => set_rest (re_action e) (re_cooldownMin e) (re_onlyDrones e) (Number v) e
  | drones_switched b => set_rest (re_action e) (re_cooldownMin e) b (re_minConfidence e) e
  end.
(** [disabled={save.isPending || !name}]. *)
Definition named (e : RuleEditor) : bool := re_name e !== "".

(** What the form says a rule will send. *)
Definition exposesOperator (settings : QueryResult (string -> option SettingsGroup.SettingValue)) : bool :=
  match query_data settings ≫= fun s => s "api.expose_operator_location" with
  | Some v => match SettingsGroup.sv_value v with JBool b => b | JStr s => s === "true" | _ => false end
  | None => false
  end.
Definition webhook_note (exposes : bool) : Notice :=
  notice (if exposes then "warn" else "info") "What this sends"
    ("A track.confirmed POST carries the track id, confidence, the aircraft’s serial and vendor where known, and its position." +:+
     if exposes
     then " It also carries operator_lat and operator_lon — the pilot’s ground position — because Settings › Data has that switched on. Turning it off there removes it from webhooks as well."
     else " The pilot’s ground position is not included: Settings › Data has it switched off.").
Definition ntfy_note (exposes : bool) : Notice :=
  notice (if exposes then "warn" else "info") "What this sends"
    ("A track.confirmed notification names the track, confidence, and the aircraft’s serial and vendor where known." +:+
     (if exposes
      then " It also carries the pilot’s ground position, because Settings › Data has that switched on. Turning it off there removes it here as well."
      else "") +:+
     " Anyone who knows the topic URL can read it — a public ntfy.sh topic name is a shared secret, not just an address; a self-hosted server on your own LAN or Tailscale net keeps it off the public internet entirely.").
Definition form_notes (settings : QueryResult (string -> option SettingsGroup.SettingValue)) (smtpConfigured : bool) (e : RuleEditor) : list Notice :=
  match re_action e with
  | webhook => [webhook_note (exposesOperator settings)]
  | ntfy => [ntfy_note (exposesOperator settings)]
  | email => if smtpConfigured then []
             else [notice "warn" "No mail server is configured on this unit"
                     "Set CLASSG_SMTP_HOST and CLASSG_SMTP_FROM. An email rule saved now will fail when it fires."]
  end.
Definition event_doc (events : list HookEventDoc) (e : RuleEditor) : option string :=
  he_description <$> List.find (fun d => he_event d === re_event e) events.

(** *** The card of a rule *)
Record TestHookResponse := { th_delivered : bool; th_response_code : option Z; th_error : option string }.

Record Card := {
  cd_rule : HookRule;
  cd_item : Item RuleEditor RuleBody;
  cd_testResult : option TestHookResponse;
  cd_toggle : Mutation;
  cd_test : Mutation;
  cd_toggles : list HookRule;
  cd_tests : Z
}.
Definition carded (rule : HookRule) : Card :=
  {| cd_rule := rule; cd_item := mounted; cd_testResult := None; cd_toggle := idle; cd_test := idle; cd_toggles := []; cd_tests := 0 |}.

Inductive Event :=
| rule_answered (rule : HookRule)
| row (e : ItemEvent RuleEditor Change)
| toggle_clicked
| toggle_settled (r : unit + Failure)
| test_clicked
| test_settled (r : TestHookResponse + Failure).

Definition enabled (c : Card) (e : Event) : bool :=
  match e with
  | rule_answered _ => true
  | row e => item_enabled named (cd_item c) e
  | toggle_clicked => on_screen (cd_item c)
  | toggle_settled _ => mt_pending (cd_toggle c)
  | test_clicked => on_screen (cd_item c) && negb (mt_pending (cd_test c))
  | test_settled _ => mt_pending (cd_test c)
  end.

Section Handle.
Context (events : list HookEventDoc) (confirmDestructive : bool).

Definition card (rule : HookRule) (item : Item RuleEditor RuleBody) (c : Card) : Card :=
  {| cd_rule := rule; cd_item := item; cd_testResult := cd_testResult c; cd_toggle := cd_toggle c; cd_test := cd_test c;
     cd_toggles := cd_toggles c; cd_tests := cd_tests c |}.
Definition refreshed (i : Item RuleEditor RuleBody) : Item RuleEditor RuleBody := with_slot (invalidate (it_slot i)) i.
Definition handle (c : Card) (e : Event) : Card :=
  match e with
  | rule_answered rule => card rule (cd_item c) c
  | row e => card (cd_rule c) (item_handle change (body_of events) (opened (Some (cd_rule c))) confirmDestructive (cd_item c) e) c
  | toggle_clicked =>
      {| cd_rule := cd_rule c; cd_item := cd_item c; cd_testResult := cd_testResult c; cd_toggle := mutating; cd_test := cd_test c;
         cd_toggles := cd_toggles c ++ [toggled (cd_rule c)]; cd_tests := cd_tests c |}
  | toggle_settled r =>
      {| cd_rule := cd_rule c; cd_item := match r with inl _ => refreshed (cd_item c) | inr _ => cd_item c end;
         cd_testResult := cd_testResult c; cd_toggle := settled r; cd_test := cd_test c;
         cd_toggles := cd_toggles c; cd_tests := cd_tests c |}
  | test_clicked =>
      {| cd_rule := cd_rule c; cd_item := cd_item c; cd_testResult := cd_testResult c; cd_toggle := cd_toggle c; cd_test := mutating;
         cd_toggles := cd_toggles c; cd_tests := cd_tests c + 1 |}
  | test_settled r =>
      {| cd_rule := cd_rule c; cd_item := cd_item c;
         cd_testResult := match r with inl answer => Some answer | inr _ => cd_testResult c end;
         cd_toggle := cd_toggle c; cd_test := settled r; cd_toggles := cd_toggles c; cd_tests := cd_tests c |}
  end.
Definition run : Card -> list Event -> Card := guarded_run enabled handle.
End Handle.

Definition kind (e : Event) : Click := match e with row e => item_kind e | _ => elsewhere end.
Definition armed (c : Card) : bool := it_confirmingDelete (cd_item c).
Definition deletes (c : Card) : Z := it_deletes (cd_item c).

#[export] Instance deletion_guarded events : TwoClick enabled (handle events true) kind armed deletes.
Proof.
  split; intros c e He.
  - destruct e as [r|e| |r| |r]; try (by right). apply (item_armed change named (body_of events) _ _ _ He).
    destruct r; by right.
  - destruct e as [r|e| |r| |r]; try (by left); [apply (item_sent change named (body_of events) _ _ _ He)|by destruct r; left].
Qed.

(** *** Facts *)

Definition saves (c : Card) : list RuleBody := sl_sent (it_slot (cd_item c)).
Definition slot_of (e : Event) : list (SlotEvent RuleEditor Change) := match e with row (editing e) => [e] | _ => [] end.
Definition save_answers (es : list Event) : Z := slot_answers (flat_map slot_of es).
Definition unanswered_saves (c : Card) : Z := unanswered (it_slot (cd_item c)).

Lemma slot_answers_app {F C} (a b : list (SlotEvent F C)) : slot_answers (a ++ b) = slot_answers a + slot_answers b.
Proof. unfold slot_answers, zlen. rewrite List.filter_app, List.length_app. lia. Qed.
Lemma save_answers_app a b : save_answers (a ++ b) = save_answers a + save_answers b.
Proof. unfold save_answers. by rewrite flat_map_app, slot_answers_app. Qed.

(** A refetch, or the answer to another of the card's requests, leaves its saves alone. *)
Lemma invalidate_keeps {F B} (s : Slot F B) : sl_sent (invalidate s) = sl_sent s /\ unanswered (invalidate s) = unanswered s.
Proof. by destruct s as [[[f m]|] l sent stale]. Qed.

Lemma card_saves events b c e : enabled c e = true ->
  (forall f, e <> row (editing (editor_opened f))) /\
  match slot_of e with
  | [e'] => slot_enabled named (it_slot (cd_item c)) e' = true /\
            it_slot (cd_item (handle events b c e)) = slot_handle change (body_of events) (it_slot (cd_item c)) e'
  | _ => saves (handle events b c e) = saves c /\ unanswered_saves (handle events b c e) = unanswered_saves c
  end.
Proof.
  intros He. destruct e as [r|e| |r| |r]; cbn [slot_of].
  - done.
  - destruct e as [|e| | | |r]; cbn in He.
    + split; [done|]. unfold saves, unanswered_saves. cbn. unfold on_screen in He.
      by destruct (it_slot (cd_item c)) as [[[f m]|] l sent stale].
    + split; [intros f [= ->]; done|]. by destruct e.
    + split; [done|]. by destruct b.
    + done.
    + done.
    + split; [done|]. destruct r as [u|x]; [apply invalidate_keeps|done].
  - done.
  - split; [done|]. destruct r as [u|x]; [apply invalidate_keeps|done].
  - done.
  - by destruct r.
Qed.

Lemma saves_counted events b c e : enabled c e = true ->
  zlen (saves (handle events b c e)) - unanswered_saves (handle events b c e) = zlen (saves c) - unanswered_saves c + save_answers [e].
Proof.
  intros He. destruct (card_saves events b c e He) as [_ Hs]. unfold save_answers. cbn [flat_map].
  destruct (slot_of e) as [|e' [|e'' l]] eqn:E.
  - destruct Hs as [-> ->]. change (slot_answers (F := RuleEditor) (C := Change) ([] ++ [])) with 0. lia.
  - destruct Hs as [Hen Hh]. unfold saves, unanswered_saves. rewrite Hh. apply (every_save_is_answered change named (body_of events) _ _ Hen).
  - exfalso. destruct e as [r|e| |r| |r]; try done. by destruct e.
Qed.

(** What a rule's card sends is what was asked of it.  With the preference
    for a second click on, in every run the deletions sent are at most the second
    clicks made after asking.  A save holds what the form held when its button
    was pressed, with a name, and never while another of that form is under way;
    every save has one answer, the closed editors' included.  The switch sends
    the rule last answered with its state flipped, and a test is sent only by its
    button, one at a time. *)
Lemma rule_changes_are_asked_for (events : list HookEventDoc) (rule : HookRule) (es : list Event) (e : Event) :
  let c := run events true (carded rule) es in
  let c' := guarded enabled (handle events true) c e in
  deletes c <= confirmations (clicks enabled (handle events true) kind (carded rule) es) /\
  zlen (saves c) = save_answers (happened enabled (handle events true) (carded rule) es) + unanswered_saves c /\
  (saves c' = saves c \/
   exists f m, e = row (editing submitted) /\ sl_editor (it_slot (cd_item c)) = Some (f, m) /\
     re_name f <> "" /\ mt_pending m = false /\ saves c' = saves c ++ [body_of events f]) /\
  (cd_toggles c' = cd_toggles c \/ e = toggle_clicked /\ cd_toggles c' = cd_toggles c ++ [toggled (cd_rule c)]) /\
  (cd_tests c' = cd_tests c \/ e = test_clicked /\ mt_pending (cd_test c) = false /\ cd_tests c' = cd_tests c + 1).
Proof.
  intros c c'. split_and!.
  - pose proof (sends_are_confirmed enabled (handle events true) kind armed deletes (carded rule) es eq_refl) as H.
    change (deletes (carded rule)) with 0 in H. unfold c, run. lia.
  - pose proof (guarded_counts enabled (handle events true) (fun c => zlen (saves c) - unanswered_saves c) save_answers
      eq_refl save_answers_app (saves_counted events true) es (carded rule)) as H.
    cbv beta in H. change (zlen (saves (carded rule)) - unanswered_saves (carded rule)) with 0 in H. unfold c, run. lia.
  - unfold c', guarded. destruct (enabled c e) eqn:He; [|by left]. destruct (card_saves events true c e He) as [Hno Hs].
    destruct (slot_of e) as [|e' l] eqn:E; [left; apply Hs|]. destruct e as [|[|e0| | | |]| | | |]; try done. injection E as <- <-.
    destruct Hs as [Hen Hh]. unfold saves. rewrite Hh.
    destruct (save_sends_the_form change named (body_of events) _ _ Hen) as [->|(f&->&(m&Hm)&Hf&Hp&->)]; [by left|].
    right. exists f, m. split_and!; try done; [|by unfold saving in Hp; rewrite Hm in Hp].
    unfold named in Hf. apply negb_true_iff, String.eqb_neq in Hf. done.
  - unfold c', guarded. destruct (enabled c e) eqn:He; [|by left]. destruct e as [|e0| |r0| |r0];
      [by left|by left|by right|left; by destruct r0|by left|left; by destruct r0].
  - unfold c', guarded. destruct (enabled c e) eqn:He; [|by left]. destruct e as [|e0| |r0| |r0];
      [by left|by left|by left|left; by destruct r0| |left; by destruct r0].
    right. cbn in He. apply andb_prop in He as [_ He]. by apply negb_true_iff in He.
Qed.

(** *** What is shown *)
Definition minutes (cooldown_s : num) : num :=
  let m := match round_Z (ndiv cooldown_s (of_Z 60)) with Some z => of_Z z | None => S754_nan end in
  if is_nan m || neq m (of_Z 0) then of_Z 1 else m.
Definition card_line (timestamp : string -> string) (r : HookRule) : string :=
  "One alert per " +:+ (match startsWith "track" (hr_event r) with Some _ => "aircraft" | None => "subject" end) +:+
  " every " +:+ num_string (minutes (hr_cooldown_s r)) +:+ " min" +:+
  (if hr_only_drones r ?? false then " · manned ADS-B traffic excluded" else "") +:+
  (match About.present (hr_min_confidence r) with Some c => " · confidence ≥ " +:+ num_string c | None => "" end) +:+
  (match truthy (hr_last_fired_at r) with
   | Some last => if 0 <? hr_fire_count r
                  then " · fired " +:+ pretty (hr_fire_count r) +:+ "×, last " +:+ timestamp last
                  else " · never fired"
   | None => " · never fired"
   end).
Definition test_notice (t : TestHookResponse) : Notice :=
  if th_delivered t
  then notice "ok" "Test delivered"
         ("The target accepted it" +:+
          (match th_response_code t with Some code => if code =? 0 then "" else " (" +:+ pretty code +:+ ")" | None => "" end) +:+ ".")
  else notice "error" "Test failed" (th_error t ?? "").

Inductive DeliveryStatus := dl_pending | dl_delivered | dl_failed | dl_suppressed.
Definition DeliveryStatus_string (s : DeliveryStatus) : string :=
  match s with dl_pending => "pending" | dl_delivered => "delivered" | dl_failed => "failed" | dl_suppressed => "suppressed" end.
Record HookDelivery := {
  hd_delivery_id : string;
  hd_rule_id : string;
  hd_rule_name : option string;
  hd_event : string;
  hd_subject : option string;
  hd_status : DeliveryStatus;
  hd_attempts : Z;
  hd_error : option string;
  hd_response_code : option Z;
  hd_created_at : string;
  hd_completed_at : option string
}.
Record DeliveryView := { dv_pill : Pill; dv_rule : string; dv_event : string; dv_error : option string; dv_attempts : option string; dv_when : string }.
Definition DeliveryRow (timestamp : string -> string) (d : HookDelivery) : DeliveryView := {|
  dv_pill := pill (match hd_status d with
                   | dl_delivered => tone_ok | dl_failed => tone_down | dl_suppressed => tone_muted | dl_pending => tone_warn
                   end) (DeliveryStatus_string (hd_status d));
  dv_rule := hd_rule_name d ?? hd_rule_id d;
  dv_event := hd_event d;
  dv_error := truthy (hd_error d);
  dv_attempts := if 1 <? hd_attempts d then Some (pretty (hd_attempts d) +:+ " attempts") else None;
  dv_when := timestamp (hd_created_at d)
|}.

Record HookRulesResponse := { hrr_rules : list HookRule; hrr_events : list HookEventDoc; hrr_smtp_configured : bool }.
Record HookDeliveriesResponse := { hdr_deliveries : list HookDelivery; hdr_dropped : Z }.
Inductive RulesView := rules_loading | rules_shown (empty : bool) (cards : list HookRule) (adding : bool).
Inductive DeliveriesView := deliveries_loading | delivery_rows (rows : list DeliveryView) | nothing_fired.
Definition rules_view (rules : QueryResult HookRulesResponse) (adding : bool) : RulesView :=
  match rules with
  | loading => rules_loading
  | _ => match query_data rules with
         | Some r => rules_shown (match hrr_rules r with [] => negb adding | _ => false end) (hrr_rules r) adding
         | None => rules_shown false [] adding
         end
  end.
Definition dropped_notice (deliveries : QueryResult HookDeliveriesResponse) : option Notice :=
  match query_data deliveries with
  | Some d => if 0 <? hdr_dropped d
              then Some (notice "warn" "Some events were dropped"
                (pretty (hdr_dropped d) +:+ " event" +:+ (if hdr_dropped d =? 1 then " was" else "s were") +:+
                 " discarded because the dispatch queue was full. That happens when an action is much slower than events arrive — check whether a webhook target is timing out."))
              else None
  | None => None
  end.
Definition deliveries_view (timestamp : string -> string) (deliveries : QueryResult HookDeliveriesResponse) : DeliveriesView :=
  match deliveries with
  | loading => deliveries_loading
  | _ => match hdr_deliveries <$> query_data deliveries with
         | Some (_ :: _ as l) => delivery_rows (map (DeliveryRow timestamp) l)
         | _ => nothing_fired
         end
  end.

(** A test that never reached the server leaves the last test's answer on screen. *)
Lemma a_failed_test_keeps_the_old_answer events b c x :
  cd_testResult (handle events b c (test_settled (inr x))) = cd_testResult c.
Proof. done. Qed.
(** The switch is not told of what is under way: pressed twice it sends the same rule twice. *)
Lemma two_switches_send_the_same events b c :
  on_screen (cd_item c) = true ->
  cd_toggles (run events b c [toggle_clicked; toggle_clicked]) = cd_toggles c ++ [toggled (cd_rule c); toggled (cd_rule c)].
Proof. intros H. unfold run, guarded_run, guarded. cbn. rewrite H. cbn. rewrite H. cbn. by rewrite <- app_assoc. Qed.
(** Settings that are not here yet, or could not be fetched, read as the pilot's position being off. *)
Lemma unknown_settings_read_as_private e f :
  webhook_note (exposesOperator loading) = webhook_note false /\ webhook_note (exposesOperator (errored None e f)) = webhook_note false.
Proof. done. Qed.
(** Deliveries that could not be fetched read as none. *)
Lemma failed_deliveries_read_as_none timestamp e f :
  deliveries_view timestamp (errored None e f) = nothing_fired.
Proof. done. Qed.
End Rules.

(** ** boundaries-panel.tsx *)
Module Boundary.
Import Boundaries.

Record Boundary := { bn_boundary_id : string; bn_name : string; bn_points : list (num * num) }.

Inductive Change := name_typed (v : string) | map_clicked (lat lon : num) | undone | cleared.
Definition change (c : Change) (e : BoundaryEditor) : BoundaryEditor :=
  match c with
  | name_typed v => {| be_name := v; be_points := be_points e |}
  | map_clicked lat lon => place e lat lon
  | undone => undo e
  | cleared => clear e
  end.
Definition drafted (b : option Boundary) : BoundaryEditor :=
  {| be_name := (bn_name <$> b) ?? ""; be_points := (bn_points <$> b) ?? [] |}.

(** *** The map under the draft *)
Definition DRAW_ZOOM : num := of_Z 18.
Definition FALLBACK_CENTER : num * num := (dec (-985) 1, dec 395 1).
Definition FALLBACK_ZOOM : num := dec 33 1.
(** Longitude first. *)
Definition center (b : option Boundary) (receiver : option ReceiverPosition) : num * num :=
  match b ≫= fun b => head (bn_points b), receiver with
  | Some p, _ => (p.2, p.1)
  | None, Some r => (rp_lon r, rp_lat r)
  | None, None => FALLBACK_CENTER
  end.
Definition zoom (b : option Boundary) (receiver : option ReceiverPosition) : num :=
  match b, receiver with None, None => FALLBACK_ZOOM | _, _ => DRAW_ZOOM end.

Inductive Feature := dot (p : num * num) | outline (l : list (num * num)) | area (ring : list (num * num)).
Definition lon_lat (p : num * num) : num * num := (p.2, p.1).
Definition redraw (points : list (num * num)) : list Feature :=
  let coords := map lon_lat points in
  map dot coords ++
  match coords with
  | [] => []
  | first :: _ => (if 2 <=? zlen coords then [outline (coords ++ [first])] else []) ++
                  (if 3 <=? zlen coords then [area (coords ++ [first])] else [])
  end.
Definition placed_text (e : BoundaryEditor) : string :=
  pretty (zlen (be_points e)) +:+ " point" +:+ (if zlen (be_points e) =? 1 then "" else "s") +:+ " placed" +:+
  (if (0 <? zlen (be_points e)) && (zlen (be_points e) <? 3) then " -- at least 3 needed" else "").

(** *** A row: the boundary as last answered, and its item *)
Record BoundaryRow := { br_boundary : Boundary; br_item : Item BoundaryEditor BoundaryEditor }.
Definition listed (b : Boundary) : BoundaryRow := {| br_boundary := b; br_item := mounted |}.
Inductive Event := boundary_answered (b : Boundary) | row (e : ItemEvent BoundaryEditor Change).
Definition enabled (r : BoundaryRow) (e : Event) : bool :=
  match e with boundary_answered _ => true | row e => item_enabled canSave (br_item r) e end.
Definition handle (confirmDestructive : bool) (r : BoundaryRow) (e : Event) : BoundaryRow :=
  match e with
  | boundary_answered b => {| br_boundary := b; br_item := br_item r |}
  | row e => {| br_boundary := br_boundary r;
                br_item := item_handle change id (drafted (Some (br_boundary r))) confirmDestructive (br_item r) e |}
  end.
Definition kind (e : Event) : Click := match e with row e => item_kind e | _ => elsewhere end.

#[export] Instance boundary_guarded :
  TwoClick enabled (handle true) kind (fun r => it_confirmingDelete (br_item r)) (fun r => it_deletes (br_item r)).
Proof.
  split; intros r e He; destruct e as [b|e]; try (by left); try (by right).
  - apply (item_armed change canSave id _ _ _ He).
  - apply (item_sent change canSave id _ _ _ He).
Qed.

(** With the preference on, a boundary is deleted at most once for each second
    click, and it is saved only with a name and at least three corners, exactly
    those on the map. *)
Lemma boundary_changes_are_asked_for b es e :
  let r := guarded_run enabled (handle true) (listed b) es in
  let r' := guarded enabled (handle true) r e in
  it_deletes (br_item r) <= confirmations (clicks enabled (handle true) kind (listed b) es) /\
  (sl_sent (it_slot (br_item r')) = sl_sent (it_slot (br_item r)) \/
   exists f m, e = row (editing submitted) /\ sl_editor (it_slot (br_item r)) = Some (f, m) /\
     trim (be_name f) <> "" /\ 3 <= zlen (be_points f) /\ sl_sent (it_slot (br_item r')) = sl_sent (it_slot (br_item r)) ++ [f]).
Proof.
  intros r r'. split.
  - pose proof (sends_are_confirmed enabled (handle true) kind (fun r => it_confirmingDelete (br_item r)) (fun r => it_deletes (br_item r)) (listed b) es eq_refl) as H.
    cbn [listed br_item mounted it_deletes] in H. unfold r. lia.
  - unfold r', guarded. destruct (enabled r e) eqn:He; [|by left]. destruct e as [b'|e]; [by left|].
    destruct e as [|e| | | |x]; cbn in He.
    + left. cbn. unfold on_screen in He. by destruct (it_slot (br_item r)) as [[[f m]|] l sent stale].
    + assert (slot_enabled canSave (it_slot (br_item r)) e = true) as Hen by (by destruct e).
      destruct (save_sends_the_form change canSave id _ _ Hen) as [H|(f&->&(m&Hm)&Hf&_&H)]; [by left|].
      right. exists f, m. unfold canSave in Hf. apply andb_prop in Hf as [Hn Hp]. apply Z.leb_le in Hp.
      apply negb_true_iff, String.eqb_neq in Hn. done.
    + by left.
    + by left.
    + by left.
    + left. cbn. destruct x as [u|x]; [apply Rules.invalidate_keeps|done].
Qed.

(** The ring drawn is the stored corners in order, closed once. *)
Lemma area_is_the_corners points ring : In (area ring) (redraw points) ->
  3 <= zlen points /\ exists first, head points = Some first /\ ring = map lon_lat points ++ [lon_lat first].
Proof.
  unfold redraw. destruct points as [|p points]; [done|]. cbn [map]. intros [H|H]%in_app_iff.
  - change (dot (lon_lat p) :: map dot (map lon_lat points)) with (map dot (lon_lat p :: map lon_lat points)) in H.
    apply in_map_iff in H as (x & [=] & _).
  - apply in_app_iff in H as [H|H]; [destruct (2 <=? _); [|done]; by destruct H as [[=]|[]]|].
    destruct (3 <=? zlen (lon_lat p :: map lon_lat points)) eqn:E; [|done]. destruct H as [[= <-]|[]].
    apply Z.leb_le in E. split; [|by exists p]. unfold zlen in *. cbn [List.length] in *. by rewrite List.length_map in E.
Qed.
(** A map opened before the settings arrive is of the whole country. *)
Lemma unknown_receiver_opens_on_the_country : center None None = FALLBACK_CENTER /\ zoom None None = FALLBACK_ZOOM.
Proof. done. Qed.
End Boundary.

(** ** Examples *)
Module Examples.
Import HookRules Rules.

(** Saved, cancelled while that is under way, and opened again: the answer to
    the first save closes the second editor with what was typed in it. *)
Example the_second_editor_is_closed :
  let typed := run [] true (carded (a_rule 300))
    [row edit_clicked; row (editing submitted); row (editing editor_cancelled); row edit_clicked;
     row (editing (form_changed (text_typed f_name "Field")))] in
  (re_name ∘ fst <$> sl_editor (it_slot (cd_item typed))) = Some "Field" /\
  sl_editor (it_slot (cd_item (run [] true typed [row (editing (lost_settled (inl tt)))]))) = None.
Proof. vm_compute. done. Qed.

(** A test is delivered; the next one does not reach the server. *)
Example delivered_is_still_said :
  let c := run [] true (carded (a_rule 300))
    [test_clicked; test_settled (inl {| th_delivered := true; th_response_code := Some 204; th_error := None |});
     test_clicked; test_settled (inr UnitPanels.Examples.refused)] in
  (nt_text ∘ test_notice <$> cd_testResult c) = Some "The target accepted it (204)." /\ cd_tests c = 2.
Proof. vm_compute. done. Qed.

Example card_lines :
  card_line (fun s => s) (a_rule 300) = "One alert per aircraft every 5 min · manned ADS-B traffic excluded · never fired" /\
  card_line (fun s => s) (a_rule 20) = "One alert per aircraft every 1 min · manned ADS-B traffic excluded · never fired".
Proof. vm_compute. done. Qed.

Lemma rule_deleted_after_two_clicks :
  deletes (run [] true (carded (a_rule 300)) [row delete_clicked; row delete_cancelled; row delete_confirmed; row delete_clicked; row delete_confirmed]) = 1.
Proof. vm_compute. done. Qed.
End Examples.
