(* ===== verification/MapStyle.v ===== *)
(** * MapStyle: what the map is drawn from

    [features/map/style.ts], the styles with their range rings and the probes
    that choose one, and the parts of [features/map/live-map.tsx] that use them:
    the choice, the overlays added to whatever style was loaded, and the notices
    over the map.  A style is data: sources and layers, its expressions as JSON.
    [fetch] and the colours of the page are parameters; sine and cosine are the
    host's. *)
From Stdlib Require Import ZArith Bool String Ascii List Lia SpecFloat Sorted.
From stdpp Require Import base option list strings.
From S2P Require Import Prelude JsNumber JsString ApiTypes Format Flights Preferences PathColour.

(** ** Styles *)

Inductive Source :=
| geojson (features : list json)
| vector (url attribution : string)
| raster (tiles : list string) (tileSize minzoom maxzoom : Z) (attribution : string).
Inductive LayerType := background | fill | line | raster_layer | circle.
Record Layer := {
  ly_id : string;
  ly_type : LayerType;
  ly_source : option string;
  ly_source_layer : option string;
  ly_filter : option json;
  ly_minzoom : option Z;
  ly_maxzoom : option Z;
  ly_layout : list (string * json);
  ly_paint : list (string * json)
}.
Record Style := { sy_sources : list (string * Source); sy_layers : list Layer }.

(** Expressions of the style language. *)
Definition int_ (z : Z) : json := JNum (of_Z z).
Definition get (key : string) : json := JArr [JStr "get"; JStr key].
Definition is_true (key : string) : json := JArr [JStr "=="; get key; JBool true].
Definition is_not_true (key : string) : json := JArr [JStr "!="; get key; JBool true].
Definition kind_in (kinds : list string) : json := JArr [JStr "in"; get "kind"; JArr [JStr "literal"; JArr (map JStr kinds)]].
Definition by_zoom (z0 : Z) (w0 : num) (z1 : Z) (w1 : num) : json :=
  JArr [JStr "interpolate"; JArr [JStr "exponential"; JNum (dec 16 1)]; JArr [JStr "zoom"]; int_ z0; JNum w0; int_ z1; JNum w1].
Definition if_major (major minor : json) : json := JArr [JStr "case"; get "major"; major; minor].
Definition dashes (a b : Z) : json := JArr [int_ a; int_ b].
Definition round_joins : list (string * json) := [("line-cap", JStr "round"); ("line-join", JStr "round")].

Definition layer (id : string) (type : LayerType) (source : string) (source_layer : option string) (filter : option json)
    (minzoom maxzoom : option Z) (layout paint : list (string * json)) : Layer :=
  {| ly_id := id; ly_type := type; ly_source := Some source; ly_source_layer := source_layer; ly_filter := filter;
     ly_minzoom := minzoom; ly_maxzoom := maxzoom; ly_layout := layout; ly_paint := paint |}.
Definition background_layer (color : string) : Layer :=
  {| ly_id := "bg"; ly_type := background; ly_source := None; ly_source_layer := None; ly_filter := None;
     ly_minzoom := None; ly_maxzoom := None; ly_layout := []; ly_paint := [("background-color", JStr color)] |}.

(** ** style.ts *)

Definition TILE_PATH : string := "tiles/basemap/{z}/{x}/{y}.jpg".
Definition BASEMAP_MAX_ZOOM : Z := 19.
Definition WORLD_MAX_ZOOM : Z := 6.
Definition quoted (s : string) : string := quote2 +:+ s +:+ quote2.
Definition link (href text : string) : string :=
  "<a href=" +:+ quoted href +:+ " target=" +:+ quoted "_blank" +:+ ">" +:+ text +:+ "</a>".
Definition BASEMAP_ATTRIBUTION : string :=
  link "https://www.arcgis.com/home/item.html?id=10df2279f9684e4a9f6a7f08febac2a9" "Esri World Imagery".
Definition VECTOR_ATTRIBUTION : string :=
  link "https://protomaps.com" "Protomaps" +:+ " © " +:+ link "https://www.openstreetmap.org/copyright" "OpenStreetMap".

Inductive BasemapMode := mode_vector | mode_tiles | mode_no_tiles.
#[export] Instance BasemapMode_eq_dec : EqDecision BasemapMode.
Proof. solve_decision. Defined.

Definition PMTILES : string := ".pmtiles".
Definition isPMTilesArchive (url : string) : bool := endsWith PMTILES (toLowerCase (trim url)).
Definition worldArchiveUrlFor (archiveUrl : string) : string :=
  slice 0 (String.length (trim archiveUrl) - 8) (trim archiveUrl) +:+ "-world.pmtiles".

Record Palette := {
  pt_background : string; pt_ring : string; pt_ringMajor : string; pt_spoke : string; pt_earth : string; pt_water : string;
  pt_green : string; pt_road : string; pt_roadMinor : string; pt_building : string; pt_boundary : string
}.
Definition DARK : Palette := {|
  pt_background := "#0d1117"; pt_ring := "#1e2a3d"; pt_ringMajor := "#2c3e59"; pt_spoke := "#1a2433"; pt_earth := "#1a222c";
  pt_water := "#16324a"; pt_green := "#1b2a20"; pt_road := "#3d4a5c"; pt_roadMinor := "#2a3442"; pt_building := "#232c37";
  pt_boundary := "#465569"
|}.
Definition LIGHT : Palette := {|
  pt_background := "#eef1f5"; pt_ring := "#cfd6e0"; pt_ringMajor := "#b3bdcc"; pt_spoke := "#dbe0e8"; pt_earth := "#e9edf2";
  pt_water := "#d3e0ec"; pt_green := "#e0e9e0"; pt_road := "#ffffff"; pt_roadMinor := "#f4f6f9"; pt_building := "#dfe4ea";
  pt_boundary := "#c2cad4"
|}.
Definition palette (theme : Theme.ResolvedTheme) : Palette := match theme with Theme.dark => DARK | Theme.light => LIGHT end.

Definition rings_source : string * Source := ("rings", geojson []).
Definition ring_layers (spoke circle width : json) (opacity : option (num * num)) : list Layer :=
  let faded (o : option num) := match o with Some o => [("line-opacity", JNum o)] | None => [] end in [
  layer "ring-spokes" line "rings" None (Some (is_true "spoke")) None None []
    ([("line-color", spoke); ("line-width", int_ 1)] ++ faded (fst <$> opacity));
  layer "ring-circles" line "rings" None (Some (is_not_true "spoke")) None None []
    ([("line-color", circle); ("line-width", width)] ++ faded (snd <$> opacity))].
Definition ringed (p : Palette) : list Layer -> list Layer -> list Layer := fun below rings => background_layer (pt_background p) :: below ++ rings.

Definition noTilesStyle (theme : Theme.ResolvedTheme) : Style :=
  let p := palette theme in
  {| sy_sources := [rings_source];
     sy_layers := ringed p []
       (ring_layers (JStr (pt_spoke p)) (if_major (JStr (pt_ringMajor p)) (JStr (pt_ring p))) (if_major (JNum (dec 14 1)) (int_ 1)) None) |}.

Definition landuseKinds : list string := [
  "park"; "forest"; "wood"; "grass"; "grassland"; "meadow"; "scrub"; "garden"; "farmland"; "nature_reserve";
  "recreation_ground"; "golf_course"; "cemetery"; "wetland"].
Definition road_width : json := by_zoom 6 (dec 5 1) 18 (of_Z 6).

(** The ground of an archive, its layers named after it. *)
Definition ground (name : string -> string) (source : string) (p : Palette) : list Layer := [
  layer (name "earth") fill source (Some "earth") None None None [] [("fill-color", JStr (pt_earth p))];
  layer (name "landuse") fill source (Some "landuse") (Some (kind_in landuseKinds)) None None [] [("fill-color", JStr (pt_green p))];
  layer (name "water") fill source (Some "water") None None None [] [("fill-color", JStr (pt_water p))]].
Definition major_roads (name : string -> string) (source : string) (maxzoom : option Z) (p : Palette) : Layer :=
  layer (name "roads-major") line source (Some "roads") (Some (kind_in ["highway"; "major_road"])) None maxzoom round_joins
    [("line-color", JStr (pt_road p)); ("line-width", road_width)].
Definition boundary_lines (name : string -> string) (source : string) (maxzoom : option Z) (p : Palette) : Layer :=
  layer (name "boundaries") line source (Some "boundaries") None None maxzoom []
    [("line-color", JStr (pt_boundary p)); ("line-width", JNum (dec 8 1)); ("line-dasharray", dashes 3 2)].

Definition world_name (n : string) : string := "world-" +:+ n.
Definition worldLayers (p : Palette) (world : option string) : list Layer :=
  match world with
  | Some _ => ground world_name "protomaps-world" p ++
              [major_roads world_name "protomaps-world" (Some (WORLD_MAX_ZOOM + 1)) p;
               boundary_lines world_name "protomaps-world" (Some (WORLD_MAX_ZOOM + 1)) p]
  | None => []
  end.
Definition local_name (n : string) : string := n.
Definition localLayers (p : Palette) : list Layer :=
  ground local_name "protomaps" p ++ [
  layer "buildings" fill "protomaps" (Some "buildings") None (Some 14) None []
    [("fill-color", JStr (pt_building p)); ("fill-opacity", JNum (dec 85 2))];
  layer "roads-minor" line "protomaps" (Some "roads") (Some (kind_in ["medium_road"; "minor_road"])) (Some 11) None round_joins
    [("line-color", JStr (pt_roadMinor p)); ("line-width", by_zoom 11 (dec 4 1) 18 (of_Z 4))];
  major_roads local_name "protomaps" None p;
  boundary_lines local_name "protomaps" None p].

Definition vectorStyle (theme : Theme.ResolvedTheme) (archiveUrl : string) (worldArchiveUrl : option string) : Style :=
  let p := palette theme in
  let world := truthy worldArchiveUrl in
  {| sy_sources := [("protomaps", vector ("pmtiles://" +:+ archiveUrl) VECTOR_ATTRIBUTION)] ++
       match world with
       | Some url => [("protomaps-world", vector ("pmtiles://" +:+ url) VECTOR_ATTRIBUTION)]
       | None => []
       end ++ [rings_source];
     sy_layers := ringed p (worldLayers p world ++ localLayers p)
       (ring_layers (JStr (pt_spoke p)) (if_major (JStr (pt_ringMajor p)) (JStr (pt_ring p))) (if_major (JNum (dec 14 1)) (int_ 1))
          (Some (dec 6 1, dec 7 1))) |}.

Definition tiledStyle (theme : Theme.ResolvedTheme) (baseUrl : string) : Style :=
  let p := palette theme in
  let by_theme (dark light : num) := JNum match theme with Theme.dark => dark | Theme.light => light end in
  {| sy_sources := [("basemap", raster [baseUrl +:+ TILE_PATH] 256 0 BASEMAP_MAX_ZOOM BASEMAP_ATTRIBUTION); rings_source];
     sy_layers := ringed p
       [layer "basemap" raster_layer "basemap" None None None None []
          [("raster-opacity", by_theme (dec 7 1) (dec 95 2)); ("raster-saturation", by_theme (dec (-4) 1) (of_Z 0));
           ("raster-brightness-max", by_theme (dec 9 1) (of_Z 1))]]
       (ring_layers (JStr (pt_spoke p)) (JStr (pt_ring p)) (int_ 1) (Some (dec 5 1, dec 6 1))) |}.

(** *** Range rings *)
Section Rings.
Context (sin cos : num -> num).

(** [Math.PI]. *)
Definition PI : num := S754_finite false 7074237752028440 (-51).
Definition radians (deg : num) : num := ndiv (nmul deg PI) (of_Z 180).
Definition metresPerDegLat : num := of_Z 111320.
(** [x || 1]. *)
Definition or_one (x : num) : num := if is_nan x || neq x (of_Z 0) then of_Z 1 else x.

Record Ring := { rg_properties : list (string * json); rg_coordinates : list (num * num) }.
Definition at_bearing (lon lat perLon deg radius : num) : num * num :=
  (nadd lon (ndiv (nmul (sin (radians deg)) radius) perLon), nadd lat (ndiv (nmul (cos (radians deg)) radius) metresPerDegLat)).
Definition degrees (step : Z) (n : nat) : list Z := map (fun i => step * Z.of_nat i) (seq 0 n).
Definition rangeRings (center : num * num) (radiiMetres : list num) : list Ring :=
  let '(lon, lat) := center in
  let perLon := or_one (nmul (of_Z 111320) (cos (radians lat))) in
  imap (fun i radius =>
    {| rg_properties := [("radius_m", JNum radius); ("major", JBool (S i =? List.length radiiMetres)%nat)];
       rg_coordinates := map (fun deg => at_bearing lon lat perLon (of_Z deg) radius) (degrees 3 121) |}) radiiMetres ++
  let outer := last radiiMetres ?? of_Z 1000 in
  map (fun deg =>
    {| rg_properties := [("bearing", int_ deg); ("spoke", JBool true)];
       rg_coordinates := [(lon, lat); at_bearing lon lat perLon (of_Z deg) outer] |}) (degrees 45 8).

Definition STEPS : list Z := [50; 100; 250; 500; 1000; 2000; 5000; 10000; 20000; 50000; 100000; 200000].
Definition ringRadiiFor (spanMetres : num) : list Z :=
  let target := ndiv spanMetres (of_Z 2) in
  let index := match find_index (fun s => nge (of_Z s) target) STEPS with Some i => i | None => (List.length STEPS - 1)%nat end in
  take (S index - (index - 2)) (drop (index - 2) STEPS).

(** [drawRings]: what the rings' source holds for the view. *)
Definition drawn_rings (west east : num) (centre : num * num) : list Ring :=
  let spanMetres := nmul (nmul (nabs (nsub east west)) (of_Z 111320)) (cos (radians centre.2)) in
  rangeRings centre (map of_Z (ringRadiiFor spanMetres)).
End Rings.

(** *** The probes *)
Inductive Fetched :=
| no_network
| fetched (ok : bool) (headers : list (string * string)) (bytes : option (list Z)).
(** "PMTiles", and the first seven bytes as characters. *)
Definition magic (bytes : list Z) : string :=
  fold_right (fun b s => String (ascii_of_nat (Z.to_nat b)) s) "" (take 7 bytes).
Definition vectorReachable (fetch : string -> Fetched) (url : string) : bool :=
  match trim url with
  | EmptyString => false
  | _ =>
      match fetch url with
      | no_network => false
      | fetched ok _ bytes =>
          if negb ok then false
          else if negb (isPMTilesArchive url) then true
          else match bytes with Some bytes => magic bytes === "PMTiles" | None => false end
      end
  end.
Definition tilesReachable (fetch : string -> Fetched) (baseUrl : string) : bool :=
  match fetch (baseUrl +:+ "tiles/basemap/0/0/0.jpg") with
  | no_network => false
  | fetched ok headers _ =>
      ok && negb (bool_decide (assoc "x-classg-basemap" headers = Some "offline fallback")) &&
      match assoc "content-type" headers with
      | Some type => match JsString.startsWith "image/" type with Some _ => true | None => false end
      | None => false
      end
  end.

(** ** live-map.tsx: the choice *)

(** What was chosen: the mode and the companion archive; [None] while nothing is. *)
Record Choice := { ch_basemap : option BasemapMode; ch_worldArchive : option string }.
Section Choose.
Context (fetch : string -> Fetched) (vectorUrl baseUrl : string).
(** Whether the decoder could be loaded, and whether the map was left before the
    companion's answer and before the end. *)
Definition choose (protocol : bool) (left_early left : bool) : Choice :=
  let end_ mode world := {| ch_basemap := if left then None else Some mode; ch_worldArchive := world |} in
  if (vectorUrl !== "") && vectorReachable fetch vectorUrl then
    if isPMTilesArchive vectorUrl then
      if negb protocol then end_ mode_no_tiles None
      else let world := worldArchiveUrlFor vectorUrl in
           end_ mode_vector (if vectorReachable fetch world && negb left_early then Some world else None)
    else end_ mode_vector None
  else end_ (if tilesReachable fetch baseUrl then mode_tiles else mode_no_tiles) None.

(** What the map is constructed with: a style, or the URL of somebody else's. *)
Inductive MapStyle := style_url (url : string) | style (s : Style).
Definition style_for (theme : Theme.ResolvedTheme) (basemap : BasemapMode) (worldArchive : option string) : MapStyle :=
  match basemap with
  | mode_vector => if isPMTilesArchive vectorUrl then style (vectorStyle theme vectorUrl worldArchive) else style_url vectorUrl
  | mode_tiles => style (tiledStyle theme baseUrl)
  | mode_no_tiles => style (noTilesStyle theme)
  end.
End Choose.

(** ** live-map.tsx: the overlays

    Added once the style is there, and again each time the library says it has
    changed: what is missing is put back, what is there is left. *)
Section Overlays.
(** A colour of the page's style sheet, or a fallback; the five steps between two colours. *)
Context (token : string -> string -> string) (resolveRamp : string -> string -> list string).

Definition has_source (name : string) (s : Style) : bool := existsb (fun x => x.1 === name) (sy_sources s).
Definition has_layer (id : string) (s : Style) : bool := existsb (fun l => ly_id l === id) (sy_layers s).
Definition ensure_source (name : string) (s : Style) : Style :=
  if has_source name s then s else {| sy_sources := sy_sources s ++ [(name, geojson [])]; sy_layers := sy_layers s |}.
Definition ensure_layer (l : Layer) (s : Style) : Style :=
  if has_layer (ly_id l) s then s else {| sy_sources := sy_sources s; sy_layers := sy_layers s ++ [l] |}.

Definition themed (theme : Theme.ResolvedTheme) (name dark light : string) : string :=
  token name match theme with Theme.dark => dark | Theme.light => light end.
Definition trackColor (theme : Theme.ResolvedTheme) : string := themed theme "--track" "#5fd3f0" "#1e7fa8".
Definition gap_layer (id source color : string) : Layer :=
  layer id line source None (Some (is_true "gap")) None None [("line-cap", JStr "round")]
    [("line-color", JStr color); ("line-width", JNum (dec 12 1)); ("line-opacity", JNum (dec 55 2)); ("line-dasharray", dashes 2 3)].
Definition operator_layer (theme : Theme.ResolvedTheme) : Layer :=
  layer "operator-links" line "operator-links" None None None None [("line-cap", JStr "round")]
    [("line-color", JStr (themed theme "--operator" "#e879c8" "#a8368c")); ("line-width", JNum (dec 12 1));
     ("line-opacity", JNum (dec 65 2)); ("line-dasharray", dashes 1 2)].
Definition trails_layer (theme : Theme.ResolvedTheme) : Layer :=
  layer "trails" line "trails" None (Some (is_not_true "gap")) None None round_joins
    [("line-color", JStr (trackColor theme));
     ("line-width", JArr [JStr "interpolate"; JArr [JStr "linear"]; get "confidence"; int_ 0; int_ 1; int_ 1; JNum (dec 26 1)]);
     ("line-opacity", JArr [JStr "case"; get "stale"; JNum (dec 28 2); JNum (dec 7 1)])].
(** [ramp[i] ?? the step before]. *)
Fixpoint ramp_steps (n : nat) (before : string) (ramp : list string) : list string :=
  match n with
  | O => []
  | S n => match ramp with
           | s :: ramp => s :: ramp_steps n s ramp
           | [] => before :: ramp_steps n before []
           end
  end.
Definition shades (steps : list string) : list json :=
  concat (zip_with (fun at_ s => [JNum at_; JStr s]) [of_Z 0; dec 25 2; dec 5 1; dec 75 2; of_Z 1] steps).
Definition path_layer (theme : Theme.ResolvedTheme) : Layer :=
  let steps := ramp_steps 5 (trackColor theme) (resolveRamp (themed theme "--track-dim" "#3f7f93" "#9fc4d6") (trackColor theme)) in
  layer "path-segments" line "path-segments" None (Some (is_not_true "gap")) None None round_joins
    [("line-color", JArr [JStr "case"; get "known";
        JArr ([JStr "interpolate"; JArr [JStr "linear"]; get "value"] ++ shades steps);
        JStr (themed theme "--muted-foreground" "#8a9199" "#6b7280")]);
     ("line-width", JNum (dec 24 1)); ("line-opacity", JNum (dec 9 1))].
Definition dwells_layer (theme : Theme.ResolvedTheme) : Layer :=
  layer "path-dwells" circle "path-dwells" None None None None []
    [("circle-radius", JArr [JStr "interpolate"; JArr [JStr "linear"]; get "seconds"; int_ 10; JNum (dec 35 1); int_ 300; int_ 10]);
     ("circle-color", JStr (trackColor theme)); ("circle-opacity", JNum (dec 18 2));
     ("circle-stroke-color", JStr (trackColor theme)); ("circle-stroke-width", JNum (dec 14 1)); ("circle-stroke-opacity", JNum (dec 9 1))].

Inductive Overlay := overlay_source (name : string) | overlay_layer (l : Layer).
Definition overlays (theme : Theme.ResolvedTheme) : list Overlay := [
  overlay_source "trails"; overlay_source "operator-links";
  overlay_layer (operator_layer theme);
  overlay_layer (gap_layer "trail-gaps" "trails" (trackColor theme)); overlay_layer (trails_layer theme);
  overlay_source "path-segments"; overlay_source "path-dwells";
  overlay_layer (gap_layer "path-gaps" "path-segments" (trackColor theme)); overlay_layer (path_layer theme);
  overlay_layer (dwells_layer theme)].
Definition ensure (s : Style) (o : Overlay) : Style :=
  match o with overlay_source name => ensure_source name s | overlay_layer l => ensure_layer l s end.
Definition addOverlays (theme : Theme.ResolvedTheme) (s : Style) : Style := fold_left ensure (overlays theme) s.
End Overlays.

(** *** Over the map *)
Definition BASEMAP_COVERAGE_LAYERS : list string := ["earth"; "water"; "landuse"; "roads-major"; "roads-minor"].
(** [checkCoverage]: the new value of the flag, given what is rendered of the layers asked for. *)
Definition checkCoverage (basemap : option BasemapMode) (worldArchive : option string) (zoom : num) (loaded : Style)
    (rendered : list string -> Z) (outside : bool) : bool :=
  match basemap with
  | Some mode_vector =>
      match truthy worldArchive with
      | Some _ => if nlt zoom (of_Z (WORLD_MAX_ZOOM + 1)) then false
                  else rendered (List.filter (fun id => has_layer id loaded) BASEMAP_COVERAGE_LAYERS) =? 0
      | None => rendered (List.filter (fun id => has_layer id loaded) BASEMAP_COVERAGE_LAYERS) =? 0
      end
  | _ => outside
  end.
Inductive MapNote := scrim | loading_map | centre_button | position_prompt | note (text : string).
Definition map_notes (coverageBroken siteAnchored isAdmin settingsResolved tilesSettled dismissed outside : bool)
    (receiver browserLocation : option ReceiverPosition) (basemap : option BasemapMode) (worldArchive : option string) : list MapNote :=
  (if coverageBroken then [scrim] else []) ++
  (if negb (bool_decide (basemap = Some mode_no_tiles)) && negb tilesSettled then [loading_map] else []) ++
  (if siteAnchored && match receiver, browserLocation with None, None => false | _, _ => true end then [centre_button] else []) ++
  (if siteAnchored && isAdmin && settingsResolved && match receiver with None => true | Some _ => false end && negb dismissed
   then [position_prompt] else []) ++
  (if bool_decide (basemap = Some mode_no_tiles) then [note "No basemap tiles — range rings only"] else []) ++
  (if bool_decide (basemap = Some mode_vector) && outside
   then [note match truthy worldArchive with
              | Some _ => "Outside detailed basemap coverage — world overview only"
              | None => "Outside basemap coverage — range rings only"
              end] else []).

(** ** Facts *)

Lemma substring_app a b : substring (String.length a) (String.length b) (a +:+ b) = b.
Proof.
  induction a as [|c a IH]; [|exact IH].
  change (substring 0 (String.length b) b = b). induction b as [|c b IH]; [done|]. cbn. by rewrite IH.
Qed.
Lemma endsWith_app suffix s : endsWith suffix (s +:+ suffix) = true.
Proof.
  unfold endsWith, slice_last, slice_from. rewrite slength_app.
  replace (String.length suffix <=? String.length s + String.length suffix)%nat with true by (symmetry; apply Nat.leb_le; lia).
  replace (String.length s + String.length suffix - String.length suffix)%nat with (String.length s) by lia.
  replace (String.length s + String.length suffix - String.length s)%nat with (String.length suffix) by lia.
  rewrite substring_app. apply String.eqb_refl.
Qed.

Lemma trimEnd_app s suffix : all_space suffix = false -> trimEnd (s +:+ suffix) = s +:+ trimEnd suffix.
Proof.
  intros H. assert (forall s, all_space (s +:+ suffix) = false) as Ha.
  { clear s. intros s. induction s as [|c s IH]; [exact H|]. rewrite sapp_cons. cbn [all_space]. by rewrite IH, andb_false_r. }
  induction s as [|c s IH]; [reflexivity|]. rewrite !sapp_cons. cbn [trimEnd all_space]. by rewrite Ha, andb_false_r, IH.
Qed.
Lemma trimStart_app s c suffix : is_space c = false -> exists s', trimStart (s +:+ String c suffix) = s' +:+ String c suffix.
Proof.
  intros Hc. induction s as [|d s IH].
  - exists "". change (trimStart (String c suffix) = String c suffix). cbn [trimStart]. by rewrite Hc.
  - rewrite sapp_cons. cbn [trimStart]. destruct (is_space d); [exact IH|]. by exists (String d s).
Qed.

(** The companion is itself read as an archive, so its probe asks for the bytes. *)
Lemma companion_is_an_archive url : isPMTilesArchive (worldArchiveUrlFor url) = true.
Proof.
  unfold isPMTilesArchive, worldArchiveUrlFor, trim. generalize (slice 0 (String.length (trimEnd (trimStart url)) - 8) (trimEnd (trimStart url))) as s.
  intros s. destruct (trimStart_app s "-"%char "world.pmtiles" eq_refl) as [s' ->].
  rewrite trimEnd_app, toLowerCase_app by done.
  change (toLowerCase (trimEnd "-world.pmtiles")) with ("-world" +:+ PMTILES). rewrite <- sapp_assoc. apply endsWith_app.
Qed.

(** What a probe that succeeds has seen. *)
Definition is_archive (f : Fetched) : Prop := exists headers bytes, f = fetched true headers (Some bytes) /\ magic bytes = "PMTiles".
Lemma archive_proved fetch url : isPMTilesArchive url = true -> vectorReachable fetch url = true -> is_archive (fetch url).
Proof.
  unfold vectorReachable, is_archive. intros ->. destruct (trim url); [done|]. destruct (fetch url) as [|[] headers [bytes|]]; try done.
  intros H%String.eqb_eq. eauto.
Qed.
(** A page sent in place of a missing archive is not one, whatever its status. *)
Lemma a_page_is_no_archive fetch url headers bytes :
  isPMTilesArchive url = true -> fetch url = fetched true headers (Some (60 :: bytes)) -> vectorReachable fetch url = false.
Proof.
  unfold vectorReachable. intros -> ->. destruct (trim url); [done|]. unfold magic.
  change (take 7 (60 :: bytes)) with (60 :: take 6 bytes). cbn [fold_right].
  change (ascii_of_nat (Z.to_nat 60)) with "<"%char. reflexivity.
Qed.
Lemma image_proved fetch baseUrl : tilesReachable fetch baseUrl = true ->
  exists headers bytes type rest, fetch (baseUrl +:+ "tiles/basemap/0/0/0.jpg") = fetched true headers bytes /\
    assoc "content-type" headers = Some type /\ type = "image/" +:+ rest /\
    assoc "x-classg-basemap" headers <> Some "offline fallback".
Proof.
  unfold tilesReachable. destruct (fetch _) as [|[] headers bytes]; try done. cbn [andb]. intros [H1 H2]%andb_prop.
  destruct (assoc "content-type" headers) as [type|] eqn:Et; [|done]. destruct (startsWith "image/" type) as [rest|] eqn:E; [|done].
  apply startsWith_spec in E. apply negb_true_iff, bool_decide_eq_false in H1. exists headers, bytes, type, rest. split_and!; [done|done|exact E|exact H1].
Qed.

(** *** Styles that can be drawn *)

(** A layer draws from a source that is declared and is of its kind. *)
Definition suits (type : LayerType) (source_layer : option string) (s : Source) : bool :=
  match s, type, source_layer with
  | geojson _, (line | circle), None | vector _ _, (fill | line), Some _ | raster _ _ _ _ _, raster_layer, None => true
  | _, _, _ => false
  end.
Definition drawn_from (sources : list (string * Source)) (l : Layer) : bool :=
  match ly_source l with
  | None => match ly_type l with background => true | _ => false end
  | Some name => match assoc name sources with Some s => suits (ly_type l) (ly_source_layer l) s | None => false end
  end.
Definition distinct (names : list string) : bool := bool_decide (base.NoDup names).
Definition drawable (s : Style) : bool :=
  distinct (map fst (sy_sources s)) && distinct (map ly_id (sy_layers s)) && forallb (drawn_from (sy_sources s)) (sy_layers s).

Lemma styles_are_drawable token ramp theme url world base :
  drawable (addOverlays token ramp theme (vectorStyle theme url world)) = true /\
  drawable (addOverlays token ramp theme (tiledStyle theme base)) = true /\
  drawable (addOverlays token ramp theme (noTilesStyle theme)) = true.
Proof. split_and!; destruct theme; try reflexivity; destruct world as [[|c w]|]; reflexivity. Qed.

(** *** The overlays *)

Definition present (s : Style) (o : Overlay) : Prop :=
  match o with overlay_source name => has_source name s = true | overlay_layer l => has_layer (ly_id l) s = true end.
Lemma ensure_present s o : present (ensure s o) o.
Proof.
  destruct o as [name|l]; cbn; unfold ensure_source, ensure_layer.
  - destruct (has_source name s) eqn:E; [done|]. unfold has_source. cbn. rewrite existsb_app. cbn. by rewrite String.eqb_refl, orb_true_r.
  - destruct (has_layer (ly_id l) s) eqn:E; [done|]. unfold has_layer. cbn. rewrite existsb_app. cbn. by rewrite String.eqb_refl, orb_true_r.
Qed.
Lemma ensure_keeps s o o' : present s o' -> present (ensure s o) o'.
Proof.
  intros H. destruct o as [name|l]; cbn [ensure]; unfold ensure_source, ensure_layer; [destruct (has_source name s)|destruct (has_layer (ly_id l) s)]; try exact H.
  - destruct o' as [name'|l']; [|exact H]. cbn in *. unfold has_source in *. cbn [sy_sources]. by rewrite existsb_app, H.
  - destruct o' as [name'|l']; [exact H|]. cbn in *. unfold has_layer in *. cbn [sy_layers]. by rewrite existsb_app, H.
Qed.
Lemma ensure_done s o : present s o -> ensure s o = s.
Proof. destruct o as [name|l]; cbn; unfold ensure_source, ensure_layer; by intros ->. Qed.
Lemma ensured_keeps os s o : present s o -> present (fold_left ensure os s) o.
Proof. revert s. induction os as [|o' os IH]; intros s H; [done|]. by apply IH, ensure_keeps. Qed.
Lemma all_ensured os s o : In o os -> present (fold_left ensure os s) o.
Proof.
  revert s. induction os as [|o' os IH]; intros s; [done|]. cbn [fold_left]. intros [->|H]; [exact (ensured_keeps _ _ _ (ensure_present s o))|by apply IH].
Qed.
Lemma ensured_again os s : (forall o, In o os -> present s o) -> fold_left ensure os s = s.
Proof.
  revert s. induction os as [|o os IH]; intros s H; [done|]. cbn. rewrite ensure_done by (apply H; by left).
  apply IH. intros o' Ho. apply H. by right.
Qed.
Lemma ensured_on_top os s :
  exists sources layers, sy_sources (fold_left ensure os s) = sy_sources s ++ sources /\
    sy_layers (fold_left ensure os s) = sy_layers s ++ layers /\ forall l, In l layers -> In (overlay_layer l) os.
Proof.
  revert s. induction os as [|o os IH]; intros s; [exists [], []; cbn; by rewrite !app_nil_r|].
  destruct (IH (ensure s o)) as (ss & ls & E1 & E2 & Hin). cbn [fold_left]. rewrite E1, E2.
  destruct o as [name|l]; cbn [ensure]; unfold ensure_source, ensure_layer.
  - destruct (has_source name s); [exists ss, ls|exists ((name, geojson []) :: ss), ls]; cbn; rewrite <- ?app_assoc; split_and!; try done; intros l Hl; right; auto.
  - destruct (has_layer (ly_id l) s); [exists ss, ls|exists ss, (l :: ls)]; cbn; rewrite <- ?app_assoc; split_and!; try done.
    + intros l' Hl. right. auto.
    + intros l' [->|Hl]; [by left|right; auto].
Qed.

(** Whatever style was loaded, the overlays are all there afterwards, drawn over
    everything the style had, and asking for them again changes nothing. *)
Lemma overlays_are_put_back token ramp theme s :
  let s' := addOverlays token ramp theme s in
  (forall o, In o (overlays token ramp theme) -> present s' o) /\
  addOverlays token ramp theme s' = s' /\
  exists layers, sy_layers s' = sy_layers s ++ layers /\ forall l, In l layers -> In (overlay_layer l) (overlays token ramp theme).
Proof.
  unfold addOverlays. split_and!.
  - intros o Ho. by apply all_ensured.
  - apply ensured_again. intros o Ho. by apply all_ensured.
  - destruct (ensured_on_top (overlays token ramp theme) s) as (_ & layers & _ & E & Hin). by exists layers.
Qed.

(** *** The overlays on somebody else's style *)

(** A source of the page's own data: what every overlay is drawn from. *)
Definition plain (name : string) (s : Style) : Prop := exists features, assoc name (sy_sources s) = Some (geojson features).
Definition OVERLAY_SOURCES : list string := ["trails"; "operator-links"; "path-segments"; "path-dwells"].
(** The style's own sources of those names, if it has any, are such data. *)
Definition no_clash (s : Style) : Prop := forall name, In name OVERLAY_SOURCES -> has_source name s = true -> plain name s.

Lemma has_source_None name s : has_source name s = false -> assoc name (sy_sources s) = None.
Proof.
  unfold has_source. induction (sy_sources s) as [|[k x] l IH]; cbn; [done|]. by destruct (k === name).
Qed.
Lemma has_source_In name s : has_source name s = true <-> In name (map fst (sy_sources s)).
Proof.
  unfold has_source. rewrite existsb_exists, in_map_iff. split; intros (x & H1 & H2); exists x; [|subst name].
  - by apply String.eqb_eq in H2.
  - by rewrite String.eqb_refl.
Qed.
Lemma has_layer_In id s : has_layer id s = true <-> In id (map ly_id (sy_layers s)).
Proof.
  unfold has_layer. rewrite existsb_exists, in_map_iff. split; intros (x & H1 & H2); exists x; [|subst id].
  - by apply String.eqb_eq in H2.
  - by rewrite String.eqb_refl.
Qed.
Lemma assoc_app_Some {A} k v (l l' : list (string * A)) : assoc k l = Some v -> assoc k (l ++ l') = Some v.
Proof. induction l as [|[k' x] l IH]; cbn; [done|]. by destruct (k' === k). Qed.
Lemma assoc_app_None {A} k (l l' : list (string * A)) : assoc k l = None -> assoc k (l ++ l') = assoc k l'.
Proof. induction l as [|[k' x] l IH]; cbn; [done|]. by destruct (k' === k). Qed.

Lemma ensure_keeps_plain s o name : plain name s -> plain name (ensure s o).
Proof.
  intros [f E]. exists f. destruct o as [n|l]; cbn; unfold ensure_source, ensure_layer; case_match; try done.
  by apply assoc_app_Some.
Qed.
Lemma ensure_makes_plain s name : (has_source name s = true -> plain name s) -> plain name (ensure s (overlay_source name)).
Proof.
  intros H. cbn. unfold ensure_source. destruct (has_source name s) eqn:E; [by apply H|]. exists [].
  cbn. rewrite assoc_app_None by (by apply has_source_None). cbn. by rewrite String.eqb_refl.
Qed.
Lemma distinct_snoc x l : ~ In x l -> distinct l = true -> distinct (l ++ [x]) = true.
Proof.
  unfold distinct. rewrite !bool_decide_eq_true. intros Hx Hl. apply NoDup_app. split; [done|]. split; [|apply NoDup_singleton].
  intros y Hy ->%list_elem_of_singleton. apply Hx. by apply list_elem_of_In.
Qed.
Lemma drawn_from_more sources more l : drawn_from sources l = true -> drawn_from (sources ++ more) l = true.
Proof.
  unfold drawn_from. destruct (ly_source l) as [name|]; [|done]. destruct (assoc name sources) eqn:E; [|done].
  by rewrite (assoc_app_Some _ _ _ _ E).
Qed.
(** An overlay whose source is the page's own data leaves what can be drawn so. *)
Lemma ensure_drawable s o :
  match o with overlay_source _ => True | overlay_layer l => drawn_from (sy_sources s) l = true end ->
  drawable s = true -> drawable (ensure s o) = true.
Proof.
  unfold drawable. intros Ho [[H1 H2]%andb_prop H3]%andb_prop. destruct o as [name|l]; cbn; unfold ensure_source, ensure_layer.
  - destruct (has_source name s) eqn:E; [by rewrite H1, H2, H3|]. cbn. rewrite H2, map_app. cbn [map fst].
    rewrite distinct_snoc by (try done; by rewrite <- has_source_In, E). cbn. apply forallb_forall. intros x Hx. rewrite forallb_forall in H3. by apply drawn_from_more, H3.
  - destruct (has_layer (ly_id l) s) eqn:E; [by rewrite H1, H2, H3|]. cbn. rewrite H1, map_app. cbn [map].
    rewrite distinct_snoc by (try done; by rewrite <- has_layer_In, E). cbn. rewrite forallb_app, H3. cbn. by rewrite Ho.
Qed.
(** A line or a circle of a plain source. *)
Lemma overlay_drawn s l name : ly_source l = Some name -> ly_source_layer l = None ->
  match ly_type l with line | circle => True | _ => False end -> plain name s -> drawn_from (sy_sources s) l = true.
Proof. unfold drawn_from. intros -> -> Ht [f ->]. by destruct (ly_type l). Qed.
(** Every overlay comes after its source. *)
Fixpoint in_order (done_ : list string) (os : list Overlay) : Prop :=
  match os with
  | [] => True
  | overlay_source name :: os => In name OVERLAY_SOURCES /\ in_order (name :: done_) os
  | overlay_layer l :: os =>
      (exists name, ly_source l = Some name /\ In name done_) /\ ly_source_layer l = None /\
      match ly_type l with line | circle => True | _ => False end /\ in_order done_ os
  end.
Lemma ensured_drawable os : forall done_ s, in_order done_ os -> (forall name, In name done_ -> plain name s) ->
  no_clash s -> drawable s = true -> drawable (fold_left ensure os s) = true.
Proof.
  assert (forall o s, no_clash s -> (match o with overlay_source name => In name OVERLAY_SOURCES | _ => True end) -> no_clash (ensure s o)) as Hno.
  { intros o s Hs Ho name Hin Hh. destruct o as [n|l].
    - destruct (String.eqb_spec n name) as [->|Hne]; [apply ensure_makes_plain; by apply Hs|].
      apply ensure_keeps_plain, Hs; [done|]. revert Hh. cbn. unfold ensure_source. destruct (has_source n s); [done|].
      unfold has_source. cbn. rewrite existsb_app. cbn. destruct (String.eqb_spec n name); [done|]. by rewrite !orb_false_r.
    - apply ensure_keeps_plain, Hs; [done|]. revert Hh. cbn. unfold ensure_layer. by destruct (has_layer (ly_id l) s). }
  induction os as [|o os IH]; intros done_ s Hi Hp Hs Hd; [done|]. cbn [fold_left]. destruct o as [name|l].
  - destruct Hi as [Hin Hi]. apply (IH (name :: done_)); [done| |by apply Hno|by apply ensure_drawable].
    intros n [<-|Hn]; [apply ensure_makes_plain; by apply Hs|]. by apply ensure_keeps_plain, Hp.
  - destruct Hi as ((name & El & Hn) & Es & Ht & Hi). apply (IH done_); [done| |by apply Hno|].
    + intros n Hin. by apply ensure_keeps_plain, Hp.
    + apply ensure_drawable; [|done]. by apply (overlay_drawn s l name); auto.
Qed.
Lemma overlays_in_order token ramp theme : in_order [] (overlays token ramp theme).
Proof. cbn. repeat split; try (eexists; split; [reflexivity|]); tauto. Qed.

Lemma no_rings_added token ramp theme loaded :
  has_source "rings" loaded = false -> has_source "rings" (addOverlays token ramp theme loaded) = false.
Proof.
  assert (forall os s, has_source "rings" s = false -> ~ In (overlay_source "rings") os -> has_source "rings" (fold_left ensure os s) = false) as H.
  { induction os as [|o os IH]; intros s H Hin; [done|]. cbn [fold_left]. apply IH; [|intros Hx; apply Hin; by right].
    destruct o as [name|l]; cbn [ensure]; unfold ensure_source, ensure_layer; [destruct (has_source name s); [done|]|by destruct (has_layer _ s)].
    unfold has_source in *. cbn. rewrite existsb_app, H. cbn. destruct (String.eqb_spec name "rings") as [->|]; [|done].
    exfalso. apply Hin. by left. }
  intros Hs. apply H; [done|]. intros Hin. unfold overlays in Hin. cbn in Hin. intuition discriminate.
Qed.

(** *** The rings *)
Lemma STEPS_increase : StronglySorted Z.lt STEPS.
Proof. unfold STEPS. repeat constructor; lia. Qed.

(** One to three radii, neighbours among the steps: the largest is the least step
    that spans half the view, or the largest there is. *)
Lemma rings_fit_the_view span :
  let radii := ringRadiiFor span in
  (1 <= List.length radii <= 3)%nat /\ (exists k, radii = take (List.length radii) (drop k STEPS)) /\
  match find_index (fun s => nge (of_Z s) (ndiv span (of_Z 2))) STEPS with
  | Some i => exists outer, last radii = Some outer /\ STEPS !! i = Some outer /\ nge (of_Z outer) (ndiv span (of_Z 2)) = true /\
                forall j s, (j < i)%nat -> STEPS !! j = Some s -> nge (of_Z s) (ndiv span (of_Z 2)) = false
  | None => last radii = Some 200000 /\ forall s, In s STEPS -> nge (of_Z s) (ndiv span (of_Z 2)) = false
  end.
Proof.
  unfold ringRadiiFor. destruct (find_index _ STEPS) as [i|] eqn:E.
  - apply find_index_Some in E as (x & Hx & Hp & Hlt). assert (i < 12)%nat as Hi by (apply lookup_lt_Some in Hx; exact Hx).
    do 12 (destruct i as [|i]; [split_and!; [cbn; lia|cbn; lia|eexists; reflexivity|exists x; split_and!; [exact Hx|exact Hx|exact Hp|exact Hlt]]|]). lia.
  - split_and!; [cbn; lia|cbn; lia|by exists 9%nat|done|]. by apply find_index_None.
Qed.

(** Only the outermost ring is drawn as the major one, and there are eight spokes. *)
Lemma rings_and_spokes sin cos center radii :
  List.length (rangeRings sin cos center radii) = (List.length radii + 8)%nat /\
  forall i r, (i < List.length radii)%nat -> rangeRings sin cos center radii !! i = Some r ->
    List.length (rg_coordinates r) = 121%nat /\
    assoc "major" (rg_properties r) = Some (JBool (S i =? List.length radii)%nat).
Proof.
  unfold rangeRings. destruct center as [lon lat]. split.
  - by rewrite List.length_app, length_imap.
  - intros i r Hi. rewrite lookup_app_l by (by rewrite length_imap). rewrite list_lookup_imap.
    destruct (radii !! i) as [radius|] eqn:E; [|done]. cbn [fmap option_fmap option_map]. intros [= <-]. done.
Qed.

(** ** The basemap *)

(** The last two layers of a style. *)
Definition top_two (s : Style) : list string := map ly_id (drop (List.length (sy_layers s) - 2) (sy_layers s)).
Lemma rings_on_top theme url world base :
  top_two (vectorStyle theme url world) = ["ring-spokes"; "ring-circles"] /\
  top_two (tiledStyle theme base) = ["ring-spokes"; "ring-circles"] /\
  top_two (noTilesStyle theme) = ["ring-spokes"; "ring-circles"].
Proof. split_and!; destruct theme; try reflexivity; destruct world as [[|c w]|]; reflexivity. Qed.

Lemma vector_answered fetch url : vectorReachable fetch url = true -> exists headers bytes, fetch url = fetched true headers bytes.
Proof. unfold vectorReachable. destruct (trim url); [done|]. destruct (fetch url) as [|[] headers bytes]; try done. eauto. Qed.

Lemma choose_cases fetch vectorUrl baseUrl protocol left_early left :
  let c := choose fetch vectorUrl baseUrl protocol left_early left in
  exists mode, ch_basemap c = (if left then None else Some mode) /\
  match mode with
  | mode_vector => vectorReachable fetch vectorUrl = true /\ (isPMTilesArchive vectorUrl = true -> protocol = true) /\
      (forall world, ch_worldArchive c = Some world -> world = worldArchiveUrlFor vectorUrl /\ vectorReachable fetch world = true)
  | mode_tiles => (vectorUrl = "" \/ vectorReachable fetch vectorUrl = false) /\ tilesReachable fetch baseUrl = true /\ ch_worldArchive c = None
  | mode_no_tiles => ch_worldArchive c = None
  end.
Proof.
  unfold choose. destruct ((vectorUrl !== "") && vectorReachable fetch vectorUrl) eqn:E.
  - apply andb_prop in E as [_ E]. destruct (isPMTilesArchive vectorUrl).
    + destruct protocol; [|by exists mode_no_tiles]. exists mode_vector. cbn. split_and!; try done.
      intros world H. destruct (vectorReachable fetch (worldArchiveUrlFor vectorUrl)) eqn:Ew; [|done].
      destruct left_early; [done|]. by injection H as <-.
    + exists mode_vector. cbn. by split_and!.
  - destruct (tilesReachable fetch baseUrl) eqn:Et; [exists mode_tiles|by exists mode_no_tiles]. cbn. split_and!; try done.
    apply andb_false_iff in E as [E|E]; [left|by right]. apply negb_false_iff, String.eqb_eq in E. done.
Qed.

(** ** The basemap *)


(** ** What is said over the map *)

(** A decoder that cannot be loaded leaves the rings, whether or not the raster
    tiles would have answered. *)
Lemma no_decoder_no_tiles fetch vectorUrl baseUrl early :
  vectorUrl <> "" -> vectorReachable fetch vectorUrl = true -> isPMTilesArchive vectorUrl = true ->
  ch_basemap (choose fetch vectorUrl baseUrl false early false) = Some mode_no_tiles.
Proof.
  intros Hn Hv Ha. unfold choose. rewrite Hv, Ha. destruct (String.eqb_spec vectorUrl ""); [done|]. done.
Qed.

(** A hosted style that does not name its layers as the archive's does is said to
    be left behind wherever the map looks, and to show rings it has no source for:
    what is rendered of no layer is nothing. *)
Lemma hosted_styles_are_outside zoom loaded rendered outside token ramp theme :
  rendered [] = 0 -> (forall id, In id BASEMAP_COVERAGE_LAYERS -> has_layer id loaded = false) -> has_source "rings" loaded = false ->
  checkCoverage (Some mode_vector) None zoom loaded rendered outside = true /\
  has_source "rings" (addOverlays token ramp theme loaded) = false.
Proof.
  intros Hr Hl Hs. split.
  - unfold checkCoverage. cbn [truthy]. replace (List.filter (fun id => has_layer id loaded) BASEMAP_COVERAGE_LAYERS) with (@nil string); [by rewrite Hr|].
    symmetry. unfold BASEMAP_COVERAGE_LAYERS in *. cbn. rewrite !Hl by (cbn; tauto). done.
  - by apply no_rings_added.
Qed.

(** The prompt to set the receiver's place is for someone who can, once the
    settings say there is none. *)
Lemma prompt_is_for_who_can_act broken anchored admin resolved settled dismissed outside receiver here basemap world :
  In position_prompt (map_notes broken anchored admin resolved settled dismissed outside receiver here basemap world) ->
  anchored = true /\ admin = true /\ resolved = true /\ receiver = None /\ dismissed = false.
Proof.
  unfold map_notes. rewrite !in_app_iff. intros [H|[H|[H|[H|[H|H]]]]].
  - by destruct broken; [destruct H as [[=]|[]]|].
  - by destruct (_ && negb settled); [destruct H as [[=]|[]]|].
  - by destruct (anchored && _); [destruct H as [[=]|[]]|].
  - destruct anchored, admin, resolved, receiver, dismissed; try done.
  - by destruct (bool_decide _); [destruct H as [[=]|[]]|].
  - by destruct (_ && outside); [destruct H as [[=]|[]]|].
Qed.

(** ** Examples *)
Module Examples.
Definition archive : Fetched := fetched true [] (Some [80; 77; 84; 105; 108; 101; 115]).
Definition page : Fetched := fetched true [("content-type", "text/html")] (Some [60; 33; 100; 111; 99; 116; 121]).
Definition tile : Fetched := fetched true [("content-type", "image/jpeg")] None.
Definition network (url : string) : Fetched :=
  if url === "/basemap.pmtiles" then archive else if url === "/tiles/basemap/0/0/0.jpg" then tile else page.

Example the_companion_is_missing :
  choose network "/basemap.pmtiles" "/" true false false = {| ch_basemap := Some mode_vector; ch_worldArchive := None |} /\
  choose network "/gone.pmtiles" "/" true false false = {| ch_basemap := Some mode_tiles; ch_worldArchive := None |} /\
  choose (fun _ => page) "/basemap.pmtiles" "/" true false false = {| ch_basemap := Some mode_no_tiles; ch_worldArchive := None |}.
Proof. vm_compute. done. Qed.
Example companion : worldArchiveUrlFor " /Maps/Basemap.PMTILES " = "/Maps/Basemap-world.pmtiles".
Proof. vm_compute. done. Qed.
Example radii : map (fun span => ringRadiiFor (of_Z span)) [60; 800; 9000; 1000000] =
  [[50]; [100; 250; 500]; [1000; 2000; 5000]; [50000; 100000; 200000]].
Proof. vm_compute. done. Qed.
End Examples.
