(* ===== verification/ServiceWorker.v ===== *)
(** * ServiceWorker: what the console may answer without the network

    [sw.ts] with [features/offline/register-sw.ts], and the list of precached
    files of [vite.config.ts].  The worker is a table of routes, tried in order,
    whose handlers are Workbox's strategies.  Workbox is an interface with its
    documented laws; the storage it keeps is abstract.  [step] is what page,
    network and browser can do to the worker, and [reachable] its closure from an
    empty storage.  [Freshness.isCacheableTileResponse] guards the tiles,
    [MapStyle] probes through the worker, [AppUpdate] sends the hand-over. *)
From Stdlib Require Import ZArith Bool String Ascii List Lia.
From stdpp Require Import base option list strings.
From S2P Require Import Prelude JsNumber JsString JsParse UrlCodec ApiTypes Format Flights LogStore Freshness MapStyle.

(** ** Requests and replies *)

Inductive Mode := mode_navigate | mode_other.
(** A request; [rq_path] is the [pathname] of its URL. *)
Record Request := { rq_method : string; rq_mode : Mode; rq_origin : string; rq_path : string; rq_search : string }.
Definition href (r : Request) : string := rq_origin r +:+ rq_path r +:+ rq_search r.
Record Reply := { rp_status : Z; rp_headers : list (string * string); rp_bytes : list Z }.
(** [response.headers]: names compare without case. *)
Definition response (r : Reply) : Freshness.Response :=
  {| Freshness.rs_status := rp_status r; Freshness.rs_headers := fun name => assoc (toLowerCase name) (rp_headers r) |}.

(** ** vite.config.ts: what is precached *)

Record BuiltFile := { bf_path : string; bf_size : Z }.
Definition PRECACHED_EXTENSIONS : list string := ["html"; "css"; "js"; "svg"; "png"; "ico"; "woff2"; "webmanifest"].
Definition MAXIMUM_FILE_SIZE : Z := 3 * 1024 * 1024.
Definition globbed (f : BuiltFile) : bool :=
  existsb (fun ext => endsWith ("." +:+ ext) (bf_path f)) PRECACHED_EXTENSIONS &&
  negb (bf_path f === "mockServiceWorker.js") &&
  match startsWith "tiles/" (bf_path f) with Some _ => false | None => true end &&
  (bf_size f <=? MAXIMUM_FILE_SIZE).
(** [self.__WB_MANIFEST], as paths of the origin. *)
Definition manifest (dist : list BuiltFile) : list string :=
  map (fun f => "/" +:+ bf_path f) (List.filter globbed dist).

(** ** Workbox *)

Class Workbox := {
  Storage : Type;
  (** what the precache holds, and what a runtime cache of a name holds, by URL *)
  shell : Storage -> list (string * Reply);
  cached : Storage -> string -> list (string * Reply);
  (** the entry of a manifest a request asks for *)
  precached : list string -> Request -> option string;
  (** strategies: the storage, the request, what the network answers *)
  PrecacheStrategy : string -> option Reply -> Storage -> Storage * option Reply;
  NetworkOnly : Request -> option Reply -> Storage -> Storage * option Reply;
  CacheFirst : string -> (Reply -> option Reply) -> Request -> option Reply -> Storage -> Storage * option Reply;
  (** the match of a navigation route, by what its denylist says of a path and query *)
  NavigationRoute : list (string -> bool) -> Request -> bool
}.

(** A URL of the precache is a path, the index of a directory or a page without
    its extension; [NetworkOnly] keeps nothing; [CacheFirst] answers what it holds
    for the URL or what the network said, keeps only what [cacheWillUpdate] lets
    through, and may expire anything; the precache answers its entry, or fetches
    it when it is missing. *)
Class WorkboxLaws `{Workbox} : Prop := {
  precached_entry entries r u : precached entries r = Some u ->
    In u entries /\ (u = rq_path r \/ (endsWith "/" (rq_path r) = true /\ u = rq_path r +:+ "index.html") \/ u = rq_path r +:+ ".html");
  precache_runtime u net s name : cached (PrecacheStrategy u net s).1 name = cached s name;
  precache_keeps u net s e : In e (shell (PrecacheStrategy u net s).1) -> In e (shell s) \/ (e.1 = u /\ net = Some e.2);
  precache_answers u net s :
    ((PrecacheStrategy u net s).2 = net /\ ~ In u (map fst (shell s))) \/ exists rep, (PrecacheStrategy u net s).2 = Some rep /\ In (u, rep) (shell s);
  network_only r net s : NetworkOnly r net s = (s, net);
  cache_first_shell name will r net s : shell (CacheFirst name will r net s).1 = shell s;
  cache_first_others name will r net s n : n <> name -> cached (CacheFirst name will r net s).1 n = cached s n;
  cache_first_keeps name will r net s e : In e (cached (CacheFirst name will r net s).1 name) ->
    In e (cached s name) \/ exists rep, net = Some rep /\ e.1 = href r /\ will rep = Some e.2;
  cache_first_answers name will r net s :
    (CacheFirst name will r net s).2 = net \/ exists rep, (CacheFirst name will r net s).2 = Some rep /\ In (href r, rep) (cached s name);
  navigation deny r : NavigationRoute deny r = true <->
    rq_mode r = mode_navigate /\ forallb (fun d => negb (d (rq_path r +:+ rq_search r))) deny = true
}.

Section Worker.
Context {WB : Workbox} (dist : list BuiltFile).

(** ** The routes *)

Definition under (prefix path : string) : bool :=
  match startsWith prefix path with Some _ => true | None => false end.
Definition digits_only (s : string) : bool := (s !== "") && all_digits s.
(** [/^\/tiles\/basemap\/\d+\/\d+\/\d+\.jpg$/] *)
Definition SATELLITE_TILE (path : string) : bool :=
  match startsWith "/tiles/basemap/" path with
  | Some rest =>
      match split_on "/" rest with
      | [z; x; y] => digits_only z && digits_only x && endsWith ".jpg" y && digits_only (slice 0 (String.length y - 4) y)
      | _ => false
      end
  | None => false
  end.
Definition TILE_CACHE : string := "classg-satellite-tiles".
Definition cacheWillUpdate (r : Reply) : option Reply :=
  if isCacheableTileResponse (response r) then Some r else None.

Inductive Handler := precache (entry : string) | network_only_ | tile_cache | app_shell.
Definition SHELL : string := "/index.html".
(** In the order of registration: the first route that matches handles the request. *)
Definition route (r : Request) : option Handler :=
  match precached (manifest dist) r with
  | Some u => Some (precache u)
  | None =>
      if under "/api/" (rq_path r) then Some network_only_
      else if endsWith ".pmtiles" (rq_path r) then Some network_only_
      else if SATELLITE_TILE (rq_path r) then Some tile_cache
      else if NavigationRoute [under "/api/"; under "/tiles/"] r then Some app_shell
      else None
  end.
(** Routes are for [GET]; without one the browser fetches as if there were no worker. *)
Definition handler_for (r : Request) : option Handler := if rq_method r === "GET" then route r else None.

(** The request a handler bound to a URL makes. *)
Definition bound_to (url : string) (r : Request) : Request :=
  {| rq_method := "GET"; rq_mode := mode_other; rq_origin := rq_origin r; rq_path := url; rq_search := "" |}.
(** A request, and what the network would answer to any: the storage after, and
    the answer, [None] for a failure. *)
Definition handle (net : Request -> option Reply) (r : Request) (s : Storage) : Storage * option Reply :=
  match handler_for r with
  | None => (s, net r)
  | Some (precache u) => PrecacheStrategy u (net r) s
  | Some network_only_ => NetworkOnly r (net r) s
  | Some tile_cache => CacheFirst TILE_CACHE cacheWillUpdate r (net r) s
  | Some app_shell => PrecacheStrategy SHELL (net (bound_to SHELL r)) s
  end.

(** ** The update handshake *)

Definition on_message (data : json) : bool :=
  match data with
  | JObj fields => match assoc "type" fields with Some (JStr t) => t === "SKIP_WAITING" | _ => false end
  | _ => false
  end.

(** ** What can happen to the worker *)

Record Worker := {
  wk_storage : Storage;
  wk_said : list (string * Reply);   (* what the network answered, by URL *)
  wk_messages : list json;
  wk_skipped : Z
}.
Definition with_storage (s : Storage) (said : list (string * Reply)) (w : Worker) : Worker :=
  {| wk_storage := s; wk_said := wk_said w ++ said; wk_messages := wk_messages w; wk_skipped := wk_skipped w |}.
Definition heard (net : Request -> option Reply) (r : Request) : list (string * Reply) :=
  match net r with Some rep => [(href r, rep)] | None => [] end.
Definition receive (data : json) (w : Worker) : Worker :=
  {| wk_storage := wk_storage w; wk_said := wk_said w; wk_messages := wk_messages w ++ [data];
     wk_skipped := if on_message data then wk_skipped w + 1 else wk_skipped w |}.

(** An installation fills the precache with files of the manifest and leaves the
    other caches; the browser may drop from any cache whatever it likes. *)
Definition installs (s s' : Storage) : Prop :=
  (forall name, cached s' name = cached s name) /\
  forall e, In e (shell s') -> In e (shell s) \/ In e.1 (manifest dist).
Definition drops (s s' : Storage) : Prop :=
  (forall name e, In e (cached s' name) -> In e (cached s name)) /\ (forall e, In e (shell s') -> In e (shell s)).

Inductive step : Worker -> Worker -> Prop :=
| st_install w s : installs (wk_storage w) s -> step w (with_storage s [] w)
| st_fetch w r net : step w (with_storage (handle net r (wk_storage w)).1 (heard net r) w)
| st_message w data : step w (receive data w)
| st_drop w s : drops (wk_storage w) s -> step w (with_storage s [] w).

Definition blank (s : Storage) : Prop := shell s = [] /\ forall name, cached s name = [].
Definition fresh (s : Storage) : Worker := {| wk_storage := s; wk_said := []; wk_messages := []; wk_skipped := 0 |}.
Inductive reachable : Worker -> Prop :=
| rc_new s : blank s -> reachable (fresh s)
| rc_step w w' : reachable w -> step w w' -> reachable w'.
End Worker.

(** ** register-sw.ts *)
Module Registration.

(** What the page finds: a production build, a browser with workers, a secure
    context, its origin, and the outcome of [navigator.serviceWorker.register]. *)
Record Page := {
  pg_prod : bool; pg_serviceWorker : bool; pg_isSecureContext : bool; pg_origin : string; pg_register : option string (* the error *)
}.
Record Line := { ln_level : LogLevel; ln_message : string; ln_detail : list (string * string) }.
Definition line (l : LogLevel) (message : string) : Line := {| ln_level := l; ln_message := message; ln_detail := [] |}.

(** The lines written, whether a worker was asked for, and whether there is a watcher. *)
Record Outcome := { oc_log : list Line; oc_asked : bool; oc_watcher : bool }.
Definition without (log : list Line) : Outcome := {| oc_log := log; oc_asked := false; oc_watcher := false |}.
Definition register (p : Page) : Outcome :=
  if negb (pg_prod p) then without []
  else if negb (pg_serviceWorker p) then
    without [line warn "Offline support unavailable: this browser has no service worker support."]
  else if negb (pg_isSecureContext p) then
    without [{| ln_level := warn; ln_message := "Offline support and install unavailable: this page is not a secure context.";
                ln_detail := [("origin", pg_origin p); ("reason", "Service workers require HTTPS, or a localhost origin.")] |}]
  else match pg_register p with
       | Some text => {| oc_log := [line error ("Service worker registration failed: " +:+ text)]; oc_asked := true; oc_watcher := false |}
       | None => {| oc_log := [line info "Offline support active: the console shell is cached on this device."]; oc_asked := true; oc_watcher := true |}
       end.

(** The module's [pending], with what was written, asked and checked so far. *)
Record Module_ := { md_pending : option Outcome; md_log : list Line; md_asked : Z; md_checks : Z }.
Definition loaded : Module_ := {| md_pending := None; md_log := []; md_asked := 0; md_checks := 0 |}.
Definition registerAppServiceWorker (p : Page) (m : Module_) : Module_ :=
  match md_pending m with
  | Some _ => m
  | None =>
      let o := register p in
      {| md_pending := Some o; md_log := md_log m ++ oc_log o; md_asked := md_asked m + (if oc_asked o then 1 else 0); md_checks := md_checks m |}
  end.
Definition visibilitychange (visible : bool) (m : Module_) : Module_ :=
  match md_pending m with
  | Some o => if oc_watcher o && visible
              then {| md_pending := md_pending m; md_log := md_log m; md_asked := md_asked m; md_checks := md_checks m + 1 |} else m
  | None => m
  end.
Inductive Event := registers (p : Page) | visibility (visible : bool).
Definition handle (m : Module_) (e : Event) : Module_ :=
  match e with registers p => registerAppServiceWorker p m | visibility v => visibilitychange v m end.
Definition run (es : list Event) : Module_ := fold_left handle es loaded.

(** A worker is asked for only by a production build in a secure context of a
    browser that has workers; every other production page says why in the log, and
    a page in development is silent. *)
Lemma gates p :
  (oc_asked (register p) = true <-> pg_prod p = true /\ pg_serviceWorker p = true /\ pg_isSecureContext p = true) /\
  (oc_watcher (register p) = true <-> oc_asked (register p) = true /\ pg_register p = None) /\
  (oc_log (register p) = [] <-> pg_prod p = false).
Proof.
  unfold register. destruct (pg_prod p), (pg_serviceWorker p), (pg_isSecureContext p), (pg_register p); cbn; intuition congruence.
Qed.

(** However often it is called, a page registers once, with its first answer. *)
Lemma registers_once es : 0 <= md_asked (run es) <= 1 /\
  forall p, run (registers p :: es) = fold_left handle (List.filter (fun e => match e with visibility _ => true | _ => false end) es) (handle loaded (registers p)).
Proof.
  assert (forall es m, md_pending m <> None ->
    fold_left handle es m = fold_left handle (List.filter (fun e => match e with visibility _ => true | _ => false end) es) m /\
    md_pending (fold_left handle es m) <> None /\ md_asked (fold_left handle es m) = md_asked m) as H.
  { clear es. induction es as [|e es IH]; intros m Hm; [done|]. cbn [fold_left List.filter].
    assert (md_pending (handle m e) <> None /\ md_asked (handle m e) = md_asked m /\
            (match e with registers _ => handle m e = m | _ => True end)) as (Hp&Ha&He).
    { destruct (md_pending m) as [o|] eqn:E; [|congruence]. destruct e as [p|v]; cbn [handle].
      - unfold registerAppServiceWorker. rewrite E. split_and!; congruence.
      - unfold visibilitychange. rewrite E. destruct (oc_watcher o && v); cbn; split_and!; first [exact I|congruence]. }
    specialize (IH _ Hp). destruct e as [p|v]; cbn [fold_left].
    - rewrite He in IH |- *. exact IH.
    - destruct IH as (E1&E2&E3). by rewrite <- Ha. }
  split; [|intros p; unfold run; cbn [fold_left]; apply H; cbn; by destruct (register p)].
  unfold run. assert (md_asked loaded = 0 /\ md_pending loaded = None) as [H0 H1] by done. revert H0 H1. generalize loaded.
  induction es as [|e es IH]; intros m H0 H1; [cbn; lia|]. cbn [fold_left]. destruct e as [p|v].
  - destruct (H es (handle m (registers p))) as (_&_&->).
    + cbn. unfold registerAppServiceWorker. by rewrite H1.
    + cbn. unfold registerAppServiceWorker. rewrite H1. cbn. destruct (oc_asked (register p)); lia.
  - apply IH; cbn; unfold visibilitychange; by rewrite H1.
Qed.
End Registration.

(** ** Lemmas *)

Lemma substring_split k s : (k <= String.length s)%nat -> substring 0 k s +:+ substring k (String.length s - k) s = s.
Proof.
  revert k. induction s as [|c s IH]; intros k Hk; [by destruct k|]. destruct k as [|k].
  - cbn [String.length Nat.sub substring]. rewrite sapp_nil. f_equal. specialize (IH 0%nat ltac:(lia)). rewrite Nat.sub_0_r in IH.
    destruct s; exact IH.
  - cbn [String.length Nat.sub substring] in *. rewrite sapp_cons. f_equal. apply IH. lia.
Qed.

Lemma endsWith_spec a s : endsWith a s = true <-> exists p, s = p +:+ a.
Proof.
  split; [|intros [p ->]; apply endsWith_app].
  unfold endsWith, slice_last, slice_from. intros [Hl%Nat.leb_le He%String.eqb_eq]%andb_prop.
  exists (substring 0 (String.length s - String.length a) s). rewrite <- He at 2. symmetry. apply substring_split. lia.
Qed.

Lemma sapp_inj_len (a b c d : string) : a +:+ b = c +:+ d -> (String.length d <= String.length b)%nat -> exists e, b = e +:+ d.
Proof.
  revert c. induction a as [|x a IH]; intros c H Hl; [exists c; by rewrite <- H|].
  destruct c as [|y c].
  - rewrite sapp_nil in H. apply (f_equal String.length) in H. rewrite sapp_cons in H. cbn in H. rewrite slength_app in H. lia.
  - rewrite !sapp_cons in H. injection H as _ H. by eapply IH.
Qed.

(** Of two endings of one text the shorter ends the longer. *)
Lemma endings a b s : endsWith a s = true -> endsWith b s = true -> endsWith a b = true \/ endsWith b a = true.
Proof.
  intros [p ->]%endsWith_spec [q H]%endsWith_spec. destruct (Nat.le_ge_cases (String.length a) (String.length b)).
  - left. apply endsWith_spec. by eapply sapp_inj_len.
  - right. apply endsWith_spec. by eapply sapp_inj_len.
Qed.

Lemma under_app prefix path rest : under prefix path = true -> under prefix (path +:+ rest) = true.
Proof.
  unfold under. destruct (startsWith prefix path) as [r|] eqn:E; [|done]. intros _. apply startsWith_spec in E as ->.
  rewrite sapp_assoc. by replace (startsWith prefix (prefix +:+ (r +:+ rest))) with (Some (r +:+ rest)) by (symmetry; by apply startsWith_spec).
Qed.

(** What follows a path is a query or nothing. *)
Definition query (search : string) : Prop := search = "" \/ exists q, search = "?" +:+ q.
Lemma under_query prefix path search : free_of "?" prefix -> query search -> under prefix (path +:+ search) = under prefix path.
Proof.
  intros Hf [->|[q ->]]; [by rewrite sapp_nil_r|]. revert path. induction prefix as [|c prefix IH]; intros path; [done|].
  apply free_of_cons in Hf as [Hc Hf]. destruct path as [|d path].
  - change ("" +:+ "?" +:+ q) with (String "?" q). unfold under. cbn [startsWith]. destruct (Ascii.eqb_spec c "?"); [congruence|done].
  - rewrite sapp_cons. unfold under in *. cbn. destruct (Ascii.eqb c d); [by apply IH|done].
Qed.

Section Facts.
Context {WB : Workbox} {WL : WorkboxLaws} (dist : list BuiltFile).

(** What the build must be like: its files include the shell, none lies where the
    server has the API, and no page is named after an archive. *)
Record built : Prop := {
  bt_shell : In SHELL (manifest dist);
  bt_api f : In f dist -> under "api/" (bf_path f) = false;
  bt_archive f p : In f dist -> endsWith ".pmtiles" p = true -> bf_path f <> p +:+ ".html"
}.

(** Where the sky is read, and the archives that are read by ranges. *)
Definition live (r : Request) : Prop := under "/api/" (rq_path r) = true \/ endsWith ".pmtiles" (rq_path r) = true.

Lemma manifest_file u : In u (manifest dist) -> exists f, In f dist /\ globbed f = true /\ u = "/" +:+ bf_path f.
Proof. unfold manifest. intros (f&<-&[Hin Hg]%filter_In)%in_map_iff. eauto. Qed.

Lemma under_slash prefix s : under (String "/" prefix) ("/" +:+ s) = under prefix s.
Proof. reflexivity. Qed.

Lemma globbed_no_archive f : globbed f = true -> endsWith ".pmtiles" (bf_path f) = false.
Proof.
  unfold globbed. intros [[[He _]%andb_prop _]%andb_prop _]%andb_prop. apply existsb_exists in He as (ext&Hin&He).
  destruct (endsWith ".pmtiles" (bf_path f)) eqn:E; [|done]. exfalso. destruct (endings _ _ _ E He) as [H|H];
    unfold PRECACHED_EXTENSIONS in Hin; cbn [In] in Hin; intuition subst; vm_compute in H; discriminate.
Qed.

Lemma live_not_precached r : built -> live r -> precached (manifest dist) r = None.
Proof.
  intros B Hl. destruct (precached (manifest dist) r) as [u|] eqn:E; [exfalso|done].
  apply precached_entry in E as [(f&Hin&Hg&->)%manifest_file Hu].
  pose proof (bt_api B f Hin) as Hapi. destruct Hl as [Hl|Hl].
  - assert (under "/api/" ("/" +:+ bf_path f) = true) as H.
    { destruct Hu as [->|[[_ ->]| ->]]; auto using under_app. }
    change (under (String "/" "api/") ("/" +:+ bf_path f) = true) in H. rewrite under_slash in H. congruence.
  - destruct Hu as [Hu|[[Hd _]|Hu]].
    + rewrite <- Hu in Hl. pose proof (globbed_no_archive f Hg) as Hn.
      assert (endsWith ".pmtiles" (bf_path f) = true); [|congruence].
      apply endsWith_spec in Hl as [p Hp]. destruct p as [|c p]; [discriminate|]. rewrite sapp_cons in Hp. injection Hp as _ Hp.
      apply endsWith_spec. by exists p.
    + destruct (endings _ _ _ Hl Hd) as [H|H]; vm_compute in H; discriminate.
    + apply endsWith_spec in Hl as [p Hp]. rewrite Hp in Hu. destruct p as [|c p]; [discriminate|].
      rewrite !sapp_cons in Hu. injection Hu as _ Hu. eapply (bt_archive B f (p +:+ ".pmtiles") Hin); [apply endsWith_app|done].
Qed.

(** A request for what is live goes to the network, and nothing of it is kept. *)
Lemma live_passes net r s : built -> live r -> handle dist net r s = (s, net r).
Proof.
  intros B Hl. unfold handle, handler_for. destruct (rq_method r === "GET"); [|done].
  unfold route. rewrite (live_not_precached r B Hl). destruct Hl as [-> | ->]; [apply network_only|].
  destruct (under "/api/" (rq_path r)); apply network_only.
Qed.

(** The handler a navigation gets: a page of the build. *)
Lemma navigation_route r : built -> rq_method r = "GET" -> rq_mode r = mode_navigate -> query (rq_search r) ->
  under "/api/" (rq_path r) = false -> under "/tiles/" (rq_path r) = false -> endsWith ".pmtiles" (rq_path r) = false ->
  exists u n, In u (manifest dist) /\ (forall net s, handle dist net r s = PrecacheStrategy u (net n) s).
Proof.
  intros B Hm Hn Hq Ha Ht Hp. unfold handle, handler_for. rewrite Hm. change ("GET" === "GET") with true. cbv iota. unfold route.
  destruct (precached (manifest dist) r) as [u|] eqn:E.
  - exists u, r. split; [|done]. by apply precached_entry in E as [? _].
  - rewrite Ha, Hp. assert (SATELLITE_TILE (rq_path r) = false) as ->.
    { unfold SATELLITE_TILE. destruct (startsWith "/tiles/basemap/" (rq_path r)) as [rest|] eqn:Es; [|done]. exfalso.
      apply startsWith_spec in Es. rewrite Es in Ht. discriminate. }
    rewrite (proj2 (navigation _ r)).
    + exists SHELL, (bound_to SHELL r). split; [apply (bt_shell B)|done].
    + split; [done|]. cbn [forallb]. rewrite !under_query, Ha, Ht; done.
Qed.
End Facts.

(** ** What holds of every worker *)
Section Safety.
Context {WB : Workbox} {WL : WorkboxLaws} (dist : list BuiltFile).

(** What a runtime cache may hold: a tile of the ground, as the network gave it. *)
Definition ground (w : Worker) (name : string) (e : string * Reply) : Prop :=
  name = TILE_CACHE /\ In e (wk_said w) /\ isCacheableTileResponse (response e.2) = true /\
  exists r, e.1 = href r /\ SATELLITE_TILE (rq_path r) = true.
Record sound (w : Worker) : Prop := {
  sd_cached name e : In e (cached (wk_storage w) name) -> ground w name e;
  sd_shell e : In e (shell (wk_storage w)) -> In e.1 (manifest dist);
  sd_skipped : wk_skipped w = zlen (List.filter on_message (wk_messages w))
}.

Lemma ground_later w s said name e : ground w name e -> ground (with_storage s said w) name e.
Proof. intros (?&?&?&?). split_and!; try done. cbn. apply in_app_iff. by left. Qed.

Lemma sound_storage w s said : sound w ->
  (forall name e, In e (cached s name) -> In e (cached (wk_storage w) name) \/ ground (with_storage s said w) name e) ->
  (forall e, In e (shell s) -> In e (shell (wk_storage w)) \/ In e.1 (manifest dist)) ->
  sound (with_storage s said w).
Proof.
  intros [Hc Hs Hk] H1 H2. split; [| |done].
  - intros name e He. destruct (H1 name e He); [|done]. by apply ground_later, Hc.
  - intros e He. destruct (H2 e He); auto.
Qed.

Lemma precache_fetch net (w : Worker) r n u : built dist -> sound w -> In u (manifest dist) ->
  sound (with_storage (PrecacheStrategy u (net n) (wk_storage w)).1 (heard net r) w).
Proof.
  intros B Hw Hu. apply sound_storage; [done| |].
  - intros name e. rewrite precache_runtime. by left.
  - intros e He. destruct (precache_keeps _ _ _ _ He) as [?|[-> _]]; auto.
Qed.

Lemma unchanged_fetch (w : Worker) said : sound w -> sound (with_storage (wk_storage w) said w).
Proof. intros Hw. apply sound_storage; auto. Qed.

Lemma tile_fetch net (w : Worker) r : sound w -> SATELLITE_TILE (rq_path r) = true ->
  sound (with_storage (CacheFirst TILE_CACHE cacheWillUpdate r (net r) (wk_storage w)).1 (heard net r) w).
Proof.
  intros Hw Ht. apply sound_storage; [done| |intros e; rewrite cache_first_shell; by left].
  intros name e He. destruct (decide (name = TILE_CACHE)) as [->|Hn]; [|rewrite cache_first_others in He by done; by left].
  destruct (cache_first_keeps _ _ _ _ _ _ He) as [?|(rep&Hnet&Hh&Hk)]; [by left|right].
  unfold cacheWillUpdate in Hk. destruct (isCacheableTileResponse (response rep)) eqn:Ei; [|done]. injection Hk as Hk.
  split_and!; [done| |by rewrite <- Hk|by exists r].
  cbn. apply in_app_iff. right. unfold heard. rewrite Hnet. left. destruct e. cbn in *. by subst.
Qed.

Lemma step_sound w w' : built dist -> sound w -> step dist w w' -> sound w'.
Proof.
  intros B Hw Hs. destruct Hs as [w s [Hi1 Hi2]|w r net|w data|w s [Hd1 Hd2]].
  - apply sound_storage; [done| |].
    + intros name e. rewrite Hi1. by left.
    + auto.
  - unfold handle, handler_for. destruct (rq_method r === "GET"); [|by apply unchanged_fetch].
    unfold route. destruct (precached (manifest dist) r) as [u|] eqn:Eu.
    + apply precache_fetch; try done. by apply precached_entry in Eu as [? _].
    + destruct (under "/api/" (rq_path r)); [rewrite network_only; by apply unchanged_fetch|].
      destruct (endsWith ".pmtiles" (rq_path r)); [rewrite network_only; by apply unchanged_fetch|].
      destruct (SATELLITE_TILE (rq_path r)) eqn:Et; [by apply tile_fetch|].
      destruct (NavigationRoute _ r); [|by apply unchanged_fetch].
      apply (precache_fetch net w r (bound_to SHELL r)); try done. apply (bt_shell _ B).
  - destruct Hw as [Hc Hsh Hk]. split; [exact Hc|exact Hsh|].
    cbn. rewrite Hk, List.filter_app. cbn. destruct (on_message data); unfold zlen; rewrite length_app; cbn; lia.
  - apply sound_storage; [done| |].
    + intros name e He. left. by apply Hd1.
    + auto.
Qed.

Lemma reachable_sound w : built dist -> reachable dist w -> sound w.
Proof.
  intros B. induction 1 as [s [H1 H2]|w w' Hr IH Hs]; [|by eapply step_sound].
  split; cbn; [intros name e; by rewrite H2|by rewrite H1|done].
Qed.
End Safety.

(** C18. The worker never answers for the sky.  In every state it can reach, a
    request under the API, or for an archive read by ranges, is answered by what
    the network answers now, a failure included, and leaves no trace in storage; all
    a runtime cache holds is satellite tiles, each as the network gave it for its
    address and none of them the proxy's stand-in; what is precached is the build.
    A navigation to a page opens a page of the build, from the precache when it is
    there.  The worker takes over early exactly as often as a page asks it to. *)
Theorem the_sky_is_never_replayed {WB : Workbox} {WL : WorkboxLaws} (dist : list BuiltFile) (w : Worker)
    (B : built dist) (Hw : reachable dist w) :
  (forall net r, live r -> handle dist net r (wk_storage w) = (wk_storage w, net r)) /\
  (forall name e, In e (cached (wk_storage w) name) ->
     name = TILE_CACHE /\ In e (wk_said w) /\ isCacheableTileResponse (response e.2) = true /\
     exists r, e.1 = href r /\ SATELLITE_TILE (rq_path r) = true) /\
  (forall e, In e (shell (wk_storage w)) -> exists f, In f dist /\ globbed f = true /\ e.1 = "/" +:+ bf_path f) /\
  (forall net r, rq_method r = "GET" -> rq_mode r = mode_navigate -> query (rq_search r) ->
     under "/api/" (rq_path r) = false -> under "/tiles/" (rq_path r) = false -> endsWith ".pmtiles" (rq_path r) = false ->
     exists u n, In u (manifest dist) /\
       let answer := (handle dist net r (wk_storage w)).2 in
       (In u (map fst (shell (wk_storage w))) -> exists rep, answer = Some rep /\ In (u, rep) (shell (wk_storage w))) /\
       (~ In u (map fst (shell (wk_storage w))) -> answer = net n)) /\
  wk_skipped w = zlen (List.filter on_message (wk_messages w)).
Proof.
  destruct (reachable_sound dist w B Hw) as [Hc Hs Hk]. split_and!; [|exact Hc| | |exact Hk].
  - intros net r Hl. by apply live_passes.
  - intros e He. by apply manifest_file, Hs.
  - intros net r Hm Hn Hq Ha Ht Hp. destruct (navigation_route dist r B Hm Hn Hq Ha Ht Hp) as (u&n&Hu&Hh). exists u, n. split; [done|].
    cbv zeta. rewrite Hh. destruct (precache_answers u (net n) (wk_storage w)) as [[He Hno]|(rep&He&Hin)]; split.
    + intros Hin. by destruct Hno.
    + done.
    + intros _. eauto.
    + intros Hno. destruct Hno. apply in_map_iff. by exists (u, rep).
Qed.

(** ** The page over the worker *)
Section Page.
Context {WB : Workbox} (dist : list BuiltFile) (net : Request -> option Reply) (s : Storage).

(** [fetch] of an address of the origin, without dot segments. *)
Definition get (url : string) : Request :=
  {| rq_method := "GET"; rq_mode := mode_other; rq_origin := ""; rq_path := url_path url;
     rq_search := match url_query url with Some q => "?" +:+ q | None => "" end |}.
Definition fetched_by (answer : option Reply) : Fetched :=
  match answer with
  | Some rep => fetched ((200 <=? rp_status rep) && (rp_status rep <=? 299)) (rp_headers rep) (Some (rp_bytes rep))
  | None => no_network
  end.
Definition fetch_direct (url : string) : Fetched := fetched_by (net (get url)).
Definition fetch_through (url : string) : Fetched := fetched_by (handle dist net (get url) s).2.

(** The probe of an archive sees the network, with a worker or without. *)
Lemma archive_probe_is_honest {WL : WorkboxLaws} url : built dist -> endsWith ".pmtiles" (url_path url) = true ->
  vectorReachable fetch_through url = vectorReachable fetch_direct url.
Proof.
  intros B He. unfold vectorReachable, fetch_through, fetch_direct. rewrite live_passes; [done|done|by right].
Qed.
(** So does everything under the API. *)
Lemma api_reads_are_honest {WL : WorkboxLaws} url : built dist -> under "/api/" (url_path url) = true ->
  fetch_through url = fetch_direct url.
Proof. intros B He. unfold fetch_through, fetch_direct. rewrite live_passes; [done|done|by left]. Qed.
End Page.

(** ** Workbox, made of lists *)
Module Lists.

Record Disk := { dk_shell : list (string * Reply); dk_runtime : list (string * (string * Reply)) }.
Definition of_cache (s : Disk) (name : string) : list (string * Reply) :=
  map snd (List.filter (fun e => e.1 === name) (dk_runtime s)).
Definition entry_for (r : Request) (u : string) : bool :=
  (u === rq_path r) || (endsWith "/" (rq_path r) && (u === rq_path r +:+ "index.html")) || (u === rq_path r +:+ ".html").
Definition from_shell (u : string) (net : option Reply) (s : Disk) : Disk * option Reply :=
  match assoc u (dk_shell s), net with
  | Some rep, _ => (s, Some rep)
  | None, Some rep => ({| dk_shell := dk_shell s ++ [(u, rep)]; dk_runtime := dk_runtime s |}, net)
  | None, None => (s, None)
  end.
Definition first_from_cache (name : string) (will : Reply -> option Reply) (r : Request) (net : option Reply) (s : Disk) : Disk * option Reply :=
  match assoc (href r) (of_cache s name), net with
  | Some rep, _ => (s, Some rep)
  | None, Some rep =>
      match will rep with
      | Some kept => ({| dk_shell := dk_shell s; dk_runtime := dk_runtime s ++ [(name, (href r, kept))] |}, net)
      | None => (s, net)
      end
  | None, None => (s, None)
  end.
#[export] Instance workbox : Workbox := {|
  Storage := Disk; shell := dk_shell; cached := of_cache;
  precached entries r := List.find (entry_for r) entries;
  PrecacheStrategy := from_shell; NetworkOnly r net s := (s, net); CacheFirst := first_from_cache;
  NavigationRoute deny r :=
    match rq_mode r with mode_navigate => forallb (fun d => negb (d (rq_path r +:+ rq_search r))) deny | mode_other => false end
|}.

Lemma of_cache_snoc sh l name n e :
  of_cache {| dk_shell := sh; dk_runtime := l ++ [(n, e)] |} name =
  of_cache {| dk_shell := sh; dk_runtime := l |} name ++ (if n === name then [e] else []).
Proof. unfold of_cache. cbn. rewrite List.filter_app, map_app. cbn. by destruct (n === name). Qed.

#[export] Instance workbox_laws : WorkboxLaws.
Proof.
  split; cbn -[of_cache].
  - intros entries r u [Hin He]%find_some. split; [done|]. unfold entry_for in He.
    apply orb_prop in He as [[->%String.eqb_eq|[He ->%String.eqb_eq]%andb_prop]%orb_prop| ->%String.eqb_eq]; auto.
  - intros u net s name. unfold from_shell. by destruct (assoc u (dk_shell s)), net.
  - intros u net s e. unfold from_shell. destruct (assoc u (dk_shell s)), net as [rep|]; cbn; auto.
    intros [?|[<-|[]]]%in_app_iff; auto.
  - intros u net s. unfold from_shell. destruct (assoc u (dk_shell s)) as [rep|] eqn:E.
    + right. exists rep. split; [by destruct net|by apply assoc_Some_In].
    + left. apply assoc_None_keys in E. by destruct net.
  - done.
  - intros name will r net s. unfold first_from_cache. destruct (assoc _ _), net as [rep|]; try done. by destruct (will rep).
  - intros name will r net s n Hn. unfold first_from_cache. destruct (assoc _ _), net as [rep|]; try done. destruct (will rep) as [k|]; [|done].
    cbn [fst]. rewrite of_cache_snoc. destruct (String.eqb_spec name n); [congruence|]. by rewrite app_nil_r.
  - intros name will r net s e. unfold first_from_cache. destruct (assoc _ _), net as [rep|]; try by left. destruct (will rep) as [k|] eqn:Ek; [|by left].
    cbn [fst]. rewrite of_cache_snoc, String.eqb_refl. intros [?|[<-|[]]]%in_app_iff; [by left|right]. by exists rep.
  - intros name will r net s. unfold first_from_cache. destruct (assoc _ _) as [rep|] eqn:E; [right; exists rep; split; [by destruct net|by apply assoc_Some_In]|].
    left. destruct net as [rep|]; [|done]. by destruct (will rep).
  - intros deny r. destruct (rq_mode r); intuition discriminate.
Qed.
End Lists.

(** ** Examples *)
Module Examples.
Import Lists.

Definition build : list BuiltFile :=
  [{| bf_path := "index.html"; bf_size := 2000 |}; {| bf_path := "assets/index-B1.js"; bf_size := 500000 |};
   {| bf_path := "tiles/basemap.pmtiles"; bf_size := 46000000 |}; {| bf_path := "mockServiceWorker.js"; bf_size := 9000 |};
   {| bf_path := "assets/index-B1.js.map"; bf_size := 900000 |}].
Example what_is_precached : manifest build = ["/index.html"; "/assets/index-B1.js"].
Proof. reflexivity. Qed.
Lemma build_is_plain : built build.
Proof.
  split; [by left| |].
  - intros f H. cbn in H. intuition subst; reflexivity.
  - intros f p H [q ->]%endsWith_spec E.
    assert (endsWith ".pmtiles.html" (bf_path f) = true) as He by (apply endsWith_spec; exists q; by rewrite E, sapp_assoc).
    cbn in H. intuition subst; vm_compute in He; discriminate.
Qed.

Definition page : Reply := {| rp_status := 200; rp_headers := [("content-type", "text/html")]; rp_bytes := [60] |}.
Definition tile : Reply := {| rp_status := 200; rp_headers := [("content-type", "image/jpeg")]; rp_bytes := [255] |}.
Definition stand_in : Reply :=
  {| rp_status := 200; rp_headers := [("content-type", "image/gif"); ("cache-control", "no-store"); ("x-classg-basemap", "offline fallback")]; rp_bytes := [71] |}.
Definition tracks : Reply := {| rp_status := 200; rp_headers := [("content-type", "application/json")]; rp_bytes := [123] |}.

(** A unit with an uplink, one whose uplink is down, and one that is off. *)
Definition answers_with (ground : Reply) (r : Request) : option Reply :=
  Some (if under "/tiles/" (rq_path r) then ground else if under "/api/" (rq_path r) then tracks else page).
Definition off (r : Request) : option Reply := None.

Definition first : Worker := fresh {| dk_shell := []; dk_runtime := [] |}.
Definition installed_ : Worker := with_storage {| dk_shell := [("/index.html", page); ("/assets/index-B1.js", page)]; dk_runtime := [] |} [] first.
Definition fetching (net : Request -> option Reply) (r : Request) (w : Worker) : Worker :=
  with_storage (handle build net r (wk_storage w)).1 (heard net r) w.
Definition tile_at (path : string) : Request := get path.
Definition evening : Worker :=
  fetching (answers_with tracks) (get "/api/v1/tracks?state=CONFIRMED")
    (fetching (answers_with stand_in) (tile_at "/tiles/basemap/3/1/2.jpg")
      (fetching (answers_with tile) (tile_at "/tiles/basemap/0/0/0.jpg") installed_)).
Lemma installed_reachable : reachable build installed_.
Proof.
  apply (rc_step _ first); [by apply rc_new|]. apply st_install. split; [done|].
  intros e [<-|[<-|[]]]; right; [by left|by right; left].
Qed.
Lemma fetching_reachable net r w : reachable build w -> reachable build (fetching net r w).
Proof. intros H. apply (rc_step _ w); [done|apply st_fetch]. Qed.
Lemma evening_reachable : reachable build evening.
Proof. repeat apply fetching_reachable. exact installed_reachable. Qed.

(** One tile is kept, the stand-in and the tracks are not; with the unit off, the
    tracks cannot be read and the console still opens. *)
Lemma the_sky_is_never_replayed_witness :
  built build /\ reachable build evening /\
  handle build off (get "/api/v1/tracks?state=CONFIRMED") (wk_storage evening) = (wk_storage evening, None) /\
  map fst (of_cache (wk_storage evening) TILE_CACHE) = ["/tiles/basemap/0/0/0.jpg"] /\
  (handle build off {| rq_method := "GET"; rq_mode := mode_navigate; rq_origin := ""; rq_path := "/tracks/abc"; rq_search := "" |} (wk_storage evening)).2 = Some page.
Proof.
  split; [exact build_is_plain|]. split; [exact evening_reachable|].
  destruct (the_sky_is_never_replayed build evening build_is_plain evening_reachable) as (H&_).
  split; [apply H; left; reflexivity|]. split; reflexivity.
Defined.

(** The hand-over of [AppUpdate] is the one message that is obeyed. *)
Example messages : map on_message [JObj [("type", JStr "SKIP_WAITING")]; JObj [("type", JStr "skip")]; JStr "SKIP_WAITING"; JNull; JArr []] =
  [true; false; false; false; false].
Proof. reflexivity. Qed.

Example tile_paths : map SATELLITE_TILE ["/tiles/basemap/3/1/2.jpg"; "/tiles/basemap/3/1/.jpg"; "/tiles/basemap/3/1/2.png"; "/tiles/basemap.pmtiles"; "/tiles/basemap/3/1/2.jpg/"] =
  [true; false; false; false; false].
Proof. reflexivity. Qed.

(** The probe that decides whether tiles can be had asks for a tile the worker
    keeps: once it was had, it is had, with the unit off. *)
Lemma kept_tile_answers_the_probe :
  tilesReachable (fetch_direct off) "/" = false /\ tilesReachable (fetch_through build off (wk_storage evening)) "/" = true /\
  ch_basemap (choose (fetch_through build off (wk_storage evening)) "" "/" true false false) = Some mode_tiles.
Proof. split_and!; reflexivity. Qed.
End Examples.
