(* ===== verification/Ui.v ===== *)
(** * Ui: the console's own controls

    [components/ui/]: the notice that may be closed, the explainer that is shown
    once, the arrow keys of a menu, the copy button, bars and rows; with
    [lib/alert-sound.ts], [lib/platform.ts] and [lib/use-media-query.ts].  A
    control with state is a machine over what the operator and the browser can do
    to it. *)
From Stdlib Require Import ZArith Bool String Ascii List Lia SpecFloat.
From stdpp Require Import base option list strings pretty.
From S2P Require Import Prelude JsNumber JsString ApiTypes Format Notifications.

(** ** misc.tsx: notices *)
Module Alerts.

Inductive AlertTone := tone_info | tone_ok | tone_warn | tone_error.
(** What a render passes; a callback is known by its identity. *)
Record AlertProps := { ap_tone : AlertTone; ap_onDismiss : option nat; ap_autoDismissMs : option num }.

Definition bad_news (tone : AlertTone) : bool := match tone with tone_warn | tone_error => true | _ => false end.
Definition dismissible (p : AlertProps) : bool :=
  match ap_onDismiss p with Some _ => negb (bad_news (ap_tone p)) | None => false end.
Definition timeout (p : AlertProps) : option num := if dismissible p then ap_autoDismissMs p else None.
Definition role (p : AlertProps) : option string := if bad_news (ap_tone p) then Some "alert" else None.

(** A notice on screen: the callback and the delay of its timer, and the
    callbacks called so far. *)
Record Alert := { al_props : AlertProps; al_timer : option (nat * num); al_calls : list nat }.
(** The effect on the delay and the callback. *)
Definition armed (p : AlertProps) : option (nat * num) :=
  match timeout p, ap_onDismiss p with
  | Some ms, Some f => if nle ms (of_Z 0) then None else Some (f, ms)
  | _, _ => None
  end.
Definition same_deps (p q : AlertProps) : bool :=
  bool_decide (timeout p = timeout q) && bool_decide (ap_onDismiss p = ap_onDismiss q).
Definition mount (p : AlertProps) : Alert := {| al_props := p; al_timer := armed p; al_calls := [] |}.
Definition render (p : AlertProps) (a : Alert) : Alert :=
  {| al_props := p; al_timer := if same_deps (al_props a) p then al_timer a else armed p; al_calls := al_calls a |}.

Inductive Event := rendered (p : AlertProps) | close_clicked | timer_fired.
Definition enabled (a : Alert) (e : Event) : bool :=
  match e with
  | rendered _ => true
  | close_clicked => dismissible (al_props a)
  | timer_fired => match al_timer a with Some _ => true | None => false end
  end.
Definition handle (a : Alert) (e : Event) : Alert :=
  match e with
  | rendered p => render p a
  | close_clicked => {| al_props := al_props a; al_timer := al_timer a; al_calls := al_calls a ++ option_list (ap_onDismiss (al_props a)) |}
  | timer_fired => {| al_props := al_props a; al_timer := None; al_calls := al_calls a ++ option_list (fst <$> al_timer a) |}
  end.
Definition step (a : Alert) (e : Event) : Alert := if enabled a e then handle a e else a.
Definition run (a : Alert) (es : list Event) : Alert := fold_left step es a.

(** A timer that runs is the current callback's, of a notice that may be closed. *)
Definition timed (a : Alert) : Prop :=
  forall f ms, al_timer a = Some (f, ms) ->
    dismissible (al_props a) = true /\ ap_onDismiss (al_props a) = Some f /\ ap_autoDismissMs (al_props a) = Some ms /\ nle ms (of_Z 0) = false.

Lemma armed_timed p calls : timed {| al_props := p; al_timer := armed p; al_calls := calls |}.
Proof.
  unfold timed, armed, timeout. cbn [al_timer al_props]. intros f ms. destruct (dismissible p) eqn:Ed; [|done].
  destruct (ap_autoDismissMs p) as [t|], (ap_onDismiss p) as [g|]; try done. destruct (nle t (of_Z 0)) eqn:El; [done|]. intros [= <- <-]. by split_and!.
Qed.
Lemma render_timed p a : timed a -> timed (render p a).
Proof.
  unfold render, same_deps. intros H. case_bool_decide as E1; [|apply armed_timed]. case_bool_decide as E2; [|apply armed_timed].
  intros f ms Hf. cbn [al_timer al_props] in *. destruct (H f ms Hf) as (Hd&Ho&Ha&Hl). unfold timeout in E1. rewrite Hd, Ha in E1.
  destruct (dismissible p); [|done]. split_and!; congruence.
Qed.
Lemma step_timed a e : timed a -> timed (step a e).
Proof. intros H. unfold step. destruct (enabled a e); [|done]. destruct e as [p| |]; [by apply render_timed|exact H|by intros f ms]. Qed.
Lemma run_timed es a : timed a -> timed (run a es).
Proof. revert a. induction es as [|e es IH]; intros a H; [done|]. by apply IH, step_timed. Qed.

Definition passes (props : AlertProps -> Prop) (e : Event) : Prop := match e with rendered p => props p | _ => True end.
Lemma props_passed props es a : props (al_props a) -> List.Forall (passes props) es -> props (al_props (run a es)).
Proof.
  intros Ha H. revert a Ha. induction H as [|e es He Hes IH]; intros a Ha; [done|]. apply IH. unfold step.
  destruct (enabled a e); [|done]. by destruct e.
Qed.

(** Only good or neutral news can be closed.  In every run of a notice, under
    whatever its page renders, a close reaches the page only while the notice on
    screen may be dismissed, through the callback of that render, by its button or
    by a positive delay it was given; a notice that is a warning or an error from
    the start on calls nothing, runs no timer, and interrupts a screen reader. *)
Lemma bad_news_stays_on_screen (p : AlertProps) (es : list Event) :
  let a := run (mount p) es in
  (forall e, al_calls (step a e) = al_calls a \/
     exists f, dismissible (al_props a) = true /\ ap_onDismiss (al_props a) = Some f /\ al_calls (step a e) = al_calls a ++ [f] /\
       (e = close_clicked \/ e = timer_fired /\ exists ms, ap_autoDismissMs (al_props a) = Some ms /\ nle ms (of_Z 0) = false)) /\
  (bad_news (ap_tone p) = true -> List.Forall (passes (fun q => bad_news (ap_tone q) = true)) es ->
     al_calls a = [] /\ al_timer a = None /\ role (al_props a) = Some "alert").
Proof.
  intros a. assert (timed a) as Ht by (apply run_timed, armed_timed). split.
  - intros e. unfold step. destruct (enabled a e) eqn:He; [|by left]. destruct e as [q| |]; cbn [enabled handle al_calls] in *; [by left| |]; right.
    + pose proof He as Hd. unfold dismissible in Hd. destruct (ap_onDismiss (al_props a)) as [f|]; [|done]. exists f. by split_and!; [| | |left].
    + destruct (al_timer a) as [[f ms]|] eqn:Et; [|done]. destruct (Ht f ms Et) as (Hd&Ho&Ha&Hl). exists f. split_and!; try done. right. eauto.
  - intros Hb Hes. assert (forall b, bad_news (ap_tone (al_props b)) = true -> timed b -> al_timer b = None /\ forall e, al_calls (step b e) = al_calls b) as Hq.
    { intros b Hbad Hbt. assert (dismissible (al_props b) = false) as Hd by (unfold dismissible; rewrite Hbad; by destruct (ap_onDismiss _)).
      assert (al_timer b = None) as Hn by (destruct (al_timer b) as [[f ms]|] eqn:E; [destruct (Hbt f ms E); congruence|done]).
      split; [done|]. intros e. unfold step. destruct e as [q| |]; cbn [enabled]; [done|by rewrite Hd|by rewrite Hn]. }
    assert (bad_news (ap_tone (al_props a)) = true) as Hba by (by apply (props_passed (fun q => bad_news (ap_tone q) = true))).
    split_and!; [|by apply Hq|unfold role; by rewrite Hba]. unfold a. change (@nil nat) with (al_calls (mount p)). clear a Ht Hba.
    assert (timed (mount p)) as Ht by apply armed_timed. assert (bad_news (ap_tone (al_props (mount p))) = true) as Hm by done.
    revert Ht Hm. generalize (mount p) as b. induction Hes as [|e es He Hes IH]; intros b Ht Hm; [done|].
    change (run b (e :: es)) with (run (step b e) es). rewrite IH; [by apply Hq|by apply step_timed|].
    unfold step. destruct (enabled b e); [|done]. by destruct e.
Qed.

(** A page that passes a new function on every render starts the delay again on
    each: a notice that is rendered often enough does not close by itself. *)
Example a_new_callback_starts_again :
  let shown f := {| ap_tone := tone_ok; ap_onDismiss := Some f; ap_autoDismissMs := Some (of_Z 4000) |} in
  al_timer (run (mount (shown 1%nat)) [rendered (shown 1%nat)]) = Some (1%nat, of_Z 4000) /\
  al_timer (run (mount (shown 1%nat)) [rendered (shown 2%nat)]) = Some (2%nat, of_Z 4000).
Proof. split; reflexivity. Qed.
End Alerts.

(** ** use-teaching.ts and teaching-banner.tsx *)
Module Teachings.

Definition storageKey (id : string) : string := "classg.taught." +:+ id.
Definition removeItem (k : string) (s : Storage) : Storage :=
  if st_works s then {| st_items := List.filter (fun p => fst p !== k) (st_items s); st_works := true |} else s.
Definition readTaught (id : string) (s : Storage) : bool :=
  match getItem (storageKey id) s with Some (Some v) => v === "1" | _ => false end.
Definition writeTaught (id : string) (taught : bool) (s : Storage) : Storage :=
  if taught then setItem (storageKey id) "1" s else removeItem (storageKey id) s.

(** A page's explainers, by id, over the browser's storage. *)
Record Page := { pg_storage : Storage; pg_dismissed : list (string * bool) }.
Definition useTeaching (ids : list string) (s : Storage) : Page :=
  {| pg_storage := s; pg_dismissed := map (fun id => (id, readTaught id s)) ids |}.
Definition set_dismissed (id : string) (b : bool) (p : Page) : Page :=
  {| pg_storage := writeTaught id b (pg_storage p);
     pg_dismissed := map (fun e => if e.1 === id then (id, b) else e) (pg_dismissed p) |}.
Definition dismiss (id : string) : Page -> Page := set_dismissed id true.
Definition show (id : string) : Page -> Page := set_dismissed id false.

Definition TeachingBanner (id : string) (p : Page) : bool := match assoc id (pg_dismissed p) with Some d => negb d | None => false end.
Definition TeachingHelpButton (id : string) (p : Page) : bool := assoc id (pg_dismissed p) ?? false.

(** The band is closed from itself, and called back from its button. *)
Inductive Event := close_band (id : string) | press_help (id : string).
Definition step (p : Page) (e : Event) : Page :=
  match e with
  | close_band id => if TeachingBanner id p then dismiss id p else p
  | press_help id => if TeachingHelpButton id p then show id p else p
  end.
Definition run (p : Page) (es : list Event) : Page := fold_left step es p.


Lemma storageKey_inj a b : storageKey a = storageKey b -> a = b.
Proof.
  unfold storageKey. intros H. assert (startsWith "classg.taught." ("classg.taught." +:+ b) = Some a) as Ha by (by apply startsWith_spec).
  assert (startsWith "classg.taught." ("classg.taught." +:+ b) = Some b) by (by apply startsWith_spec). congruence.
Qed.
Lemma getItem_set k k' v s : st_works s = true -> getItem k (setItem k' v s) = Some (if k === k' then Some v else assoc k (st_items s)).
Proof.
  intros Hw. unfold setItem, getItem. rewrite Hw. cbn [st_works st_items assoc]. rewrite (assoc_filtered (fun x => x !== k') k).
  f_equal. rewrite (String.eqb_sym k' k). by destruct (k === k').
Qed.
Lemma getItem_remove k k' s : st_works s = true -> getItem k (removeItem k' s) = Some (if k === k' then None else assoc k (st_items s)).
Proof.
  intros Hw. unfold removeItem, getItem. rewrite Hw. cbn [st_works st_items]. rewrite (assoc_filtered (fun x => x !== k') k).
  f_equal. by destruct (k === k').
Qed.
Lemma getItem_written id b k s : st_works s = true ->
  getItem k (writeTaught id b s) = Some (if k === storageKey id then (if b then Some "1" else None) else assoc k (st_items s)).
Proof. intros Hw. destruct b; [by apply getItem_set|by apply getItem_remove]. Qed.
Lemma read_written id b id' s : st_works s = true -> readTaught id' (writeTaught id b s) = if id' === id then b else readTaught id' s.
Proof.
  intros Hw. unfold readTaught at 1. rewrite getItem_written by done. destruct (String.eqb_spec id' id) as [->|Hne].
  - rewrite String.eqb_refl. by destruct b.
  - destruct (String.eqb_spec (storageKey id') (storageKey id)) as [E|_]; [by apply storageKey_inj in E|].
    unfold readTaught, getItem. by rewrite Hw.
Qed.

Lemma assoc_set id b id' (l : list (string * bool)) :
  assoc id' (map (fun e => if e.1 === id then (id, b) else e) l) = if id' === id then (fun _ => b) <$> assoc id' l else assoc id' l.
Proof.
  induction l as [|[k v] l IH]; cbn; [by destruct (id' === id)|]. destruct (String.eqb_spec k id) as [->|Hk]; cbn.
  - rewrite IH. destruct (String.eqb_spec id' id) as [->|Hne]; [by rewrite String.eqb_refl|]. destruct (String.eqb_spec id id'); [congruence|done].
  - rewrite IH. destruct (String.eqb_spec k id') as [->|Hk']; [|done]. by destruct (String.eqb_spec id' id).
Qed.

(** What the page shows is what is stored. *)
Definition in_step (p : Page) : Prop :=
  st_works (pg_storage p) = true -> forall id d, assoc id (pg_dismissed p) = Some d -> readTaught id (pg_storage p) = d.
Lemma works_kept id b s : st_works (writeTaught id b s) = st_works s.
Proof. destruct b; cbn; unfold setItem, removeItem; destruct (st_works s) eqn:E; cbn; congruence. Qed.
Lemma set_in_step id b p : in_step p -> in_step (set_dismissed id b p).
Proof.
  intros H Hw id' d. cbn [set_dismissed pg_storage pg_dismissed] in *. rewrite works_kept in Hw. rewrite assoc_set, read_written by done.
  destruct (id' === id); [|by apply H]. destruct (assoc id' (pg_dismissed p)); [|done]. by intros [= <-].
Qed.
Lemma assoc_read ids s id : assoc id (map (fun i => (i, readTaught i s)) ids) = if existsb (String.eqb id) ids then Some (readTaught id s) else None.
Proof.
  induction ids as [|i ids IH]; cbn; [done|]. rewrite (String.eqb_sym id i). destruct (String.eqb_spec i id) as [->|]; cbn; [done|exact IH].
Qed.
Lemma run_in_step es ids s : let p := run (useTeaching ids s) es in
  in_step p /\ map fst (pg_dismissed p) = ids /\ st_works (pg_storage p) = st_works s.
Proof.
  cbv zeta. assert (forall p, in_step p -> in_step (run p es) /\ map fst (pg_dismissed (run p es)) = map fst (pg_dismissed p) /\
    st_works (pg_storage (run p es)) = st_works (pg_storage p)) as H.
  { induction es as [|e es IH]; intros p Hp; [done|]. change (run p (e :: es)) with (run (step p e) es).
    assert (in_step (step p e) /\ map fst (pg_dismissed (step p e)) = map fst (pg_dismissed p) /\ st_works (pg_storage (step p e)) = st_works (pg_storage p)) as (H1&<-&<-).
    { assert (forall id b, in_step (set_dismissed id b p) /\ map fst (pg_dismissed (set_dismissed id b p)) = map fst (pg_dismissed p) /\
        st_works (pg_storage (set_dismissed id b p)) = st_works (pg_storage p)) as Hs.
      { intros id b. split_and!; [by apply set_in_step| |apply works_kept]. cbn [set_dismissed pg_dismissed]. rewrite map_map. apply map_ext.
        intros [k v]. cbn. by destruct (String.eqb_spec k id) as [->|]. }
      destruct e as [id|id]; cbn [step]; [destruct (TeachingBanner id p)|destruct (TeachingHelpButton id p)]; first [apply Hs|done]. }
    by apply IH. }
  destruct (H (useTeaching ids s)) as (H1&H2&H3).
  - intros Hw id d. cbn [useTeaching pg_storage pg_dismissed]. rewrite assoc_read. destruct (existsb _ _); [congruence|done].
  - split_and!; [done| |done]. rewrite H2. cbn. rewrite map_map. cbn. by rewrite map_id.
Qed.

(** An explainer is on screen exactly while its button is not; what was closed or
    called back is so on the next visit, on any page that has it; and where nothing
    can be stored every visit explains. *)
Lemma an_explainer_is_shown_until_closed (ids ids' : list string) (s : Storage) (es : list Event) (id : string) :
  let p := run (useTeaching ids s) es in
  let next := useTeaching ids' (pg_storage p) in
  In id ids -> In id ids' ->
  TeachingBanner id p = negb (TeachingHelpButton id p) /\
  (st_works s = true -> TeachingBanner id next = TeachingBanner id p) /\
  (st_works s = false -> TeachingBanner id next = true).
Proof.
  intros p next Hin Hin'. destruct (run_in_step es ids s) as (Hp&Hk&Hw). fold p in Hp, Hk, Hw.
  destruct (assoc id (pg_dismissed p)) as [d|] eqn:E; [|exfalso; apply assoc_None_keys in E; by rewrite Hk in E].
  unfold TeachingBanner, TeachingHelpButton. rewrite E. unfold next. cbn [useTeaching pg_dismissed]. rewrite assoc_read.
  replace (existsb (String.eqb id) ids') with true by (symmetry; apply existsb_exists; exists id; by rewrite String.eqb_refl).
  split_and!; [done| |].
  - intros Hs. f_equal. apply Hp; [congruence|done].
  - intros Hs. unfold readTaught, getItem. by rewrite Hw, Hs.
Qed.
End Teachings.

(** ** use-menu-keys.ts *)
Module MenuKeys.

Definition keys : list string := ["ArrowDown"; "ArrowUp"; "Home"; "End"].
(** The item that takes the focus, of [n], when [active] has it: [None] leaves the
    key to the browser. *)
Definition onKeyDown (key : string) (n : nat) (active : option nat) : option nat :=
  if negb (existsb (String.eqb key) keys) then None
  else if (n =? 0)%nat then None
  else Some (if key === "Home" then 0%nat
             else if key === "End" then (n - 1)%nat
             else if key === "ArrowDown" then match active with None => 0%nat | Some i => ((i + 1) mod n)%nat end
             else match active with None => (n - 1)%nat | Some i => ((i + (n - 1)) mod n)%nat end).

(** Every key but the four leaves the focus; with items, each of the four gives it
    to one of them, and the arrows go round and undo each other. *)
Lemma menu_goes_round key n active i : (i < n)%nat ->
  (In key keys <-> exists j, onKeyDown key n active = Some j) /\
  (forall j, onKeyDown key n active = Some j -> (j < n)%nat) /\
  (exists j, onKeyDown "ArrowDown" n (Some i) = Some j /\ onKeyDown "ArrowUp" n (Some j) = Some i) /\
  (exists j, onKeyDown "ArrowUp" n (Some i) = Some j /\ onKeyDown "ArrowDown" n (Some j) = Some i) /\
  onKeyDown "ArrowDown" n None = onKeyDown "Home" n active /\ onKeyDown "ArrowUp" n None = onKeyDown "End" n active.
Proof.
  intros Hi. assert ((n =? 0)%nat = false) as Hn by (apply Nat.eqb_neq; lia).
  assert (forall key active, existsb (String.eqb key) keys = true -> onKeyDown key n active = Some (if key === "Home" then 0%nat
             else if key === "End" then (n - 1)%nat
             else if key === "ArrowDown" then match active with None => 0%nat | Some i => ((i + 1) mod n)%nat end
             else match active with None => (n - 1)%nat | Some i => ((i + (n - 1)) mod n)%nat end)) as H.
  { intros k a Hk. unfold onKeyDown. by rewrite Hk, Hn. }
  assert (In key keys <-> existsb (String.eqb key) keys = true) as Hkey.
  { rewrite existsb_exists. split; [intros H1; exists key; by rewrite String.eqb_refl|]. by intros (k&Hk&->%String.eqb_eq). }
  split_and!.
  - rewrite Hkey. split; [intros Hk; rewrite H by done; eauto|]. intros [j Hj]. unfold onKeyDown in Hj. by destruct (existsb (String.eqb key) keys).
  - intros j Hj. unfold onKeyDown in Hj. destruct (existsb (String.eqb key) keys); [|done]. rewrite Hn in Hj. cbn [negb] in Hj. injection Hj as <-.
    destruct (key === "Home"); [lia|]. destruct (key === "End"); [lia|].
    destruct (key === "ArrowDown"), active; try lia; apply Nat.mod_upper_bound; lia.
  - exists ((i + 1) mod n)%nat. split; [by rewrite H by done|]. rewrite H by done. cbn [String.eqb Ascii.eqb Bool.eqb]. f_equal.
    change (((i + 1) mod n + (n - 1)) mod n = i)%nat. rewrite Nat.Div0.add_mod_idemp_l. replace (i + 1 + (n - 1))%nat with (i + 1 * n)%nat by lia.
    rewrite Nat.Div0.mod_add. by apply Nat.mod_small.
  - exists ((i + (n - 1)) mod n)%nat. split; [by rewrite H by done|]. rewrite H by done. f_equal.
    change (((i + (n - 1)) mod n + 1) mod n = i)%nat. rewrite Nat.Div0.add_mod_idemp_l. replace (i + (n - 1) + 1)%nat with (i + 1 * n)%nat by lia.
    rewrite Nat.Div0.mod_add. by apply Nat.mod_small.
  - by rewrite !H.
  - by rewrite !H.
Qed.
End MenuKeys.

(** ** copy-button.tsx *)
Module Copy.

(** Whether there is a clipboard, the tick and its timer, and the writes under way. *)
Record CopyButton := { cb_clipboard : bool; cb_copied : bool; cb_timer : bool; cb_writing : nat }.
Definition mount (clipboard : bool) : CopyButton := {| cb_clipboard := clipboard; cb_copied := false; cb_timer := false; cb_writing := 0 |}.
Definition set_copied (b : bool) (c : CopyButton) : CopyButton :=
  {| cb_clipboard := cb_clipboard c; cb_copied := b;
     cb_timer := if Bool.eqb b (cb_copied c) then cb_timer c else b; cb_writing := cb_writing c |}.
Definition with_writing (n : nat) (c : CopyButton) : CopyButton :=
  {| cb_clipboard := cb_clipboard c; cb_copied := cb_copied c; cb_timer := cb_timer c; cb_writing := n |}.
Inductive Event := clicked | written (ok : bool) | timed_out.
Definition enabled (c : CopyButton) (e : Event) : bool :=
  match e with clicked => cb_clipboard c | written _ => (0 <? cb_writing c)%nat | timed_out => cb_timer c end.
Definition handle (c : CopyButton) (e : Event) : CopyButton :=
  match e with
  | clicked => with_writing (S (cb_writing c)) c
  | written ok => set_copied ok (with_writing (cb_writing c - 1) c)
  | timed_out => {| cb_clipboard := cb_clipboard c; cb_copied := false; cb_timer := false; cb_writing := cb_writing c |}
  end.
Definition step (c : CopyButton) (e : Event) : CopyButton := if enabled c e then handle c e else c.
Definition run (c : CopyButton) (es : list Event) : CopyButton := fold_left step es c.
Definition aria_label (label : string) (c : CopyButton) : option string :=
  if cb_clipboard c then Some (if cb_copied c then label +:+ " copied" else "Copy " +:+ label) else None.

(** The tick is up exactly while its timer runs, and comes down with it; without a
    clipboard there is no button and nothing is ever written. *)
Lemma tick_is_timed es clipboard : let c := run (mount clipboard) es in
  cb_copied c = cb_timer c /\ (clipboard = false -> cb_writing c = 0%nat /\ cb_copied c = false).
Proof.
  cbv zeta. assert (forall c, cb_copied c = cb_timer c -> cb_clipboard c = clipboard -> (clipboard = false -> cb_writing c = 0%nat /\ cb_copied c = false) ->
    cb_copied (run c es) = cb_timer (run c es) /\ (clipboard = false -> cb_writing (run c es) = 0%nat /\ cb_copied (run c es) = false)) as H; [|by apply H].
  induction es as [|e es IH]; intros c Ht Hc Hw; [done|]. cbn [run fold_left]. change (fold_left step es (step c e)) with (run (step c e) es).
  apply IH; unfold step; destruct (enabled c e) eqn:He; try done.
  - destruct e as [|ok|]; [done| |done]. cbn. destruct ok, (cb_copied c); cbn; congruence.
  - by destruct e.
  - intros Hf. destruct (Hw Hf) as [Hw0 Hd]. rewrite Hf in Hc. destruct e as [|ok|]; cbn in *; rewrite ?Hc, ?Hw0 in *; done.
Qed.
End Copy.

(** ** Bars, pills and rows *)

(** status-pill-variants.ts *)
Inductive StatusPillTone := pill_ok | pill_warn | pill_down | pill_info | pill_muted.


(** bar-meter.tsx *)
Definition bar_pct (fraction : num) : option Z :=
  round_Z (nmul (nmax (of_Z 0) (nmin (of_Z 1) fraction)) (of_Z 100)).
(** key-value-group.tsx: bars against the group's own largest. *)
Definition peak (fractions : list (option num)) : num :=
  fold_left (fun m f => nmax m (f ?? of_Z 0)) fractions (of_Z 0).
Definition row_fraction (fractions : list (option num)) (f : option num) : option num :=
  match f with
  | None => None
  | Some f => Some (if ngt (peak fractions) (of_Z 0) then ndiv f (peak fractions) else of_Z 0)
  end.
(** misc.tsx, [DataRow]: what is drawn, and what is read aloud. *)
Definition DataRow_value (value : string) : string * string :=
  if value === EMPTY then (EMPTY, "not reported") else (value, value).
(** segmented.tsx: pressing the option that is on gives an empty choice. *)
Definition Segmented_onValueChange (next : list string) : option string := truthy (head next).
(** accessible-chart-table.tsx *)
Definition renderBody (lazy open_ : bool) : bool := negb lazy || open_.
(** resizable.tsx: a storage that may throw. *)
Definition panelStorage_getItem (name : string) (s : Storage) : option string :=
  match getItem name s with Some v => v | None => None end.
Definition panelStorage_setItem (name value : string) (s : Storage) : Storage := setItem name value s.

(** ** alert-sound.ts *)
Inductive AlertKind := alert_contact | alert_confirmed.
Definition TONES (kind : AlertKind) : list Z := match kind with alert_contact => [660; 880] | alert_confirmed => [740; 1110] end.
(** The frequency of each tone, when it starts and when it stops, from now. *)
Definition tones_from (now : num) (kind : AlertKind) : list (Z * num * num) :=
  imap (fun i f => let start := nadd now (nmul (of_Z (Z.of_nat i)) (dec 11 2)) in (f, start, nadd start (dec 11 2))) (TONES kind).

(** ** platform.ts *)
(** [navigator], if there is one: its platform and its user agent. *)
Definition isApplePlatform (navigator : option (string * string)) : bool :=
  match navigator with
  | None => false
  | Some (platform, userAgent) =>
      let text := toLowerCase (truthy (Some platform) ?? userAgent) in
      existsb (fun word => includes word text) ["mac"; "iphone"; "ipad"; "ipod"]
  end.

(** ** use-media-query.ts *)
Definition LG_QUERY : string := "(min-width: 64rem)".
Definition useMediaQuery (matchMedia : option (string -> bool)) (query : string) : bool :=
  match matchMedia with Some m => m query | None => false end.

(** ** Examples *)

Example bars : map bar_pct [dec 62 2; of_Z 2; of_Z (-1); of_ratio 1 3] = [Some 62; Some 100; Some 0; Some 33].
Proof. reflexivity. Qed.
Example shares : map (fun f => toFixed 2 <$> row_fraction [Some (of_Z 8); Some (of_Z 2); None] f) [Some (of_Z 8); Some (of_Z 2); None] =
  [Some "1.00"; Some "0.25"; None].
Proof. reflexivity. Qed.
Example platforms : map isApplePlatform [Some ("MacIntel", ""); Some ("Linux armv81", "Mozilla/5.0 (iPhone)"); Some ("", "Mozilla/5.0 (iPhone)"); None] = [true; false; true; false].
Proof. reflexivity. Qed.

(** A menu of three: down from the last goes to the first. *)
Lemma menu_goes_round_witness : (2 < 3)%nat /\ exists j, MenuKeys.onKeyDown "ArrowDown" 3 (Some 2%nat) = Some j /\ MenuKeys.onKeyDown "ArrowUp" 3 (Some j) = Some 2%nat.
Proof. split; [lia|]. apply (MenuKeys.menu_goes_round "Home" 3 None 2). lia. Defined.
