(* ===== verification/SpectrumPage.v ===== *)
(** * SpectrumPage: asking for a sweep, and looking at one

    [features/spectrum/spectrum-panel.tsx], [spectrum-chart.tsx] and
    [wifi-occupancy.tsx], with [routes/spectrum.tsx].  The panel is a state
    machine over what its three queries give and what the operator does; the
    chart and the occupancy panel are values. *)
From Stdlib Require Import ZArith Bool String Ascii List Lia SpecFloat.
From stdpp Require Import base option list strings pretty.
From S2P Require Import Prelude JsNumber JsString ApiTypes Format HealthView Transport TwoClicks Series WifiSurvey Access UnitPanels Ui.

(** ** spectrum-chart.tsx *)
Module Chart.
Import Trace.

Definition VIEW_W : num := of_Z 1000.
Definition VIEW_H : num := of_Z 260.
Definition PAD_TOP : num := of_Z 10.
Definition PAD_BOTTOM : num := of_Z 10.

(** The cell under the pointer: outside the trace, one of its cells, or nowhere
    (a bin width of nought makes the index a NaN). *)
Inductive Hovered := no_cell | cell (i : Z) | nowhere (index : num).
Definition hovered (trace : SpectrumTrace) (hz : num) : Hovered :=
  match st_dbfs trace with
  | [] => no_cell
  | dbfs =>
      let x := nsub (ndiv (nsub hz (st_start_hz trace)) (st_bin_width_hz trace)) half in
      match round_Z x with
      | Some index => if (index <? 0) || (zlen dbfs <=? index) then no_cell else cell index
      | None => if is_nan x then nowhere x else no_cell
      end
  end.
Definition cell_at (trace : SpectrumTrace) (index : num) : num :=
  nadd (st_start_hz trace) (nmul (nadd index half) (st_bin_width_hz trace)).

Section Scale.
Context (trace : SpectrumTrace) (range : num * num).
Definition x_at (hz : num) : num := nmul (fractionAtHz trace hz) VIEW_W.
Definition y_at (db : num) : num :=
  nadd PAD_TOP (nmul (nsub (of_Z 1) (ndiv (nsub db range.1) (nsub range.2 range.1))) (nsub (nsub VIEW_H PAD_TOP) PAD_BOTTOM)).
Definition point_text (p : TracePoint) : string := toFixed 2 (x_at (tc_hz p)) +:+ " " +:+ toFixed 2 (y_at (tc_db p)).
Inductive Path := point_ink (d : string) | line_ink (d : string).
Definition path_of (segment : list TracePoint) : option Path :=
  match segment with
  | [] => None
  | [first] => Some (point_ink ("M " +:+ point_text first +:+ " l 0.01 0"))
  | first :: rest => Some (line_ink (join " " (("M " +:+ point_text first) :: map (fun p => "L " +:+ point_text p) rest)))
  end.
Definition ReferenceLine (db : option num) : option num :=
  match db with Some db => if is_finite db then Some (y_at db) else None | None => None end.
End Scale.

Definition level (db : num) : string := formatDbfs db.
Definition place (hz : num) : string := formatMHz hz 3.

Inductive Readout :=
| at_cell (place : string) (level : option string)   (* [None]: unmeasured *)
| span_of (levels : option (string * string)) (strongest : option (string * string)).
Definition ChartReadout (trace : SpectrumTrace) (h : Hovered) (e : option (num * num)) (sweep : SpectrumSweep) : Readout :=
  match h with
  | cell i => at_cell (place (cellHz trace i)) (level <$> (st_dbfs trace !! Z.to_nat i ≫= id))
  | nowhere index => at_cell (place (cell_at trace index)) None
  | no_cell =>
      span_of ((fun e => (level e.1, level e.2)) <$> e)
        (match sw_peak_hz sweep, sw_peak_dbfs sweep with Some hz, Some db => Some (level db, place hz) | _, _ => None end)
  end.

Definition chartLabel (sweep : SpectrumSweep) (trace : SpectrumTrace) (e : option (num * num)) : string :=
  "Power spectrum of " +:+ sw_band sweep +:+ ", " +:+ place (st_start_hz trace) +:+ " to " +:+ place (st_stop_hz trace) +:+ ", " +:+
  (match e with Some e => "between " +:+ level e.1 +:+ " and " +:+ level e.2 | None => "with nothing measured" end) +:+
  (if 0 <? st_blind trace
   then "; " +:+ pretty (st_blind trace) +:+ " of " +:+ pretty (zlen (st_dbfs trace)) +:+ " cells unmeasured and drawn as gaps"
   else "") +:+
  ". Energy only; no signal is identified.".

(** What the legend says: the share that is a gap, the short steps, and whether
    anything cleared the threshold. *)
Record Legend := { lg_gap : option string; lg_short : option string; lg_above : bool }.
Definition above (sweep : SpectrumSweep) : bool :=
  match sw_threshold_dbfs sweep, sw_peak_dbfs sweep with Some t, Some p => ngt p t | _, _ => false end.
Definition legend (blind : num) (trace : SpectrumTrace) (sweep : SpectrumSweep) : Legend := {|
  lg_gap := if ngt blind (of_Z 0)
            then Some (toFixed 1 blind +:+ "% of the band is a gap — " +:+ pretty (st_blind trace) +:+ " of " +:+ pretty (zlen (st_dbfs trace)) +:+ " cells")
            else None;
  lg_short := match sw_short_reads sweep with
              | Some n => if n =? 0 then None
                          else Some (pretty n +:+ " step" +:+ (if n =? 1 then "" else "s") +:+ " read too short to transform")
              | None => None
              end;
  lg_above := above sweep
|}.

Record View := {
  vw_readout : Readout;
  vw_label : string;
  vw_lines : list (option num);      (* the floor and the threshold *)
  vw_paths : list Path;
  vw_axis : list string;
  vw_legend : Legend
}.
(** The chart, or that there is nothing to draw; [hoverHz] is the pointer's. *)
Definition SpectrumChart (sweep : SpectrumSweepDetail) (hoverHz : option num) : option View :=
  match sd_trace sweep with
  | None => None
  | Some trace =>
      match st_dbfs trace with
      | [] => None
      | _ =>
          let segments := traceSegments (Some trace) in
          let e := traceExtent segments in
          let s := sd_sweep sweep in
          let range := plotRange e (sw_noise_floor_dbfs s) (sw_threshold_dbfs s) in
          let h := match hoverHz with Some hz => hovered trace hz | None => no_cell end in
          Some {|
            vw_readout := ChartReadout trace h e s;
            vw_label := chartLabel s trace e;
            vw_lines := [ReferenceLine range (sw_noise_floor_dbfs s); ReferenceLine range (sw_threshold_dbfs s)];
            vw_paths := omap (path_of trace range) segments;
            vw_axis := [place (st_start_hz trace); place (ndiv (nadd (st_start_hz trace) (st_stop_hz trace)) (of_Z 2)); place (st_stop_hz trace)];
            vw_legend := legend (blindPercent (Some trace)) trace s
          |}
      end
  end.
(** The pointer over a box of [left] and [width]. *)
Definition pointed (trace : SpectrumTrace) (clientX left width : num) (hoverHz : option num) : option num :=
  if nle width (of_Z 0) then hoverHz
  else Some (hzAtFraction trace (nmin (of_Z 1) (nmax (of_Z 0) (ndiv (nsub clientX left) width)))).

Lemma hovered_is_nearest trace hz :
  nearestCell (Some trace) hz = match hovered trace hz with no_cell => None | cell i => Some (of_Z i) | nowhere x => Some x end.
Proof.
  unfold nearestCell, hovered. destruct (st_dbfs trace) as [|db dbfs]; [done|]. destruct (round_Z _) as [i|].
  - by destruct ((i <? 0) || (zlen (db :: dbfs) <=? i)).
  - by destruct (is_nan _).
Qed.
Lemma hovered_in_range trace hz i : hovered trace hz = cell i -> 0 <= i < zlen (st_dbfs trace).
Proof.
  unfold hovered. destruct (st_dbfs trace) as [|db dbfs]; [done|]. destruct (round_Z _) as [j|]; [|by destruct (is_nan _)].
  destruct ((j <? 0) || (zlen (db :: dbfs) <=? j)) eqn:E; [done|]. intros [= <-]. apply orb_false_elim in E. lia.
Qed.
Lemma path_of_ink trace range segment : segment <> [] -> exists path, path_of trace range segment = Some path.
Proof. destruct segment as [|a [|b l]]; [done| |]; cbn; eauto. Qed.
Lemma paths_of_segments trace range segments : (forall seg, In seg segments -> seg <> []) ->
  Forall2 (fun path seg => path_of trace range seg = Some path) (omap (path_of trace range) segments) segments.
Proof.
  induction segments as [|seg segments IH]; intros H; [constructor|]. cbn.
  destruct (path_of_ink trace range seg) as [path E]; [apply H; by left|]. rewrite E. constructor; [done|]. apply IH. intros s Hs. apply H. by right.
Qed.

(** The chart of a sweep draws only what was measured.  There is a chart exactly
    when the sweep has cells.  It has one path for each maximal run of measured
    cells, in order, through those cells' own frequencies and levels, so no line
    crosses a gap; the range printed is that of the levels; the pointer reads the
    level of the cell it is over, at that cell's frequency, or says that cell was
    not measured; and the legend says something was above the floor only if the
    strongest level was above the threshold. *)
Lemma chart_draws_only_what_was_measured (sweep : SpectrumSweepDetail) (hoverHz : option num) :
  match SpectrumChart sweep hoverHz, sd_trace sweep with
  | None, None => True
  | None, Some trace => st_dbfs trace = []
  | Some _, None => False
  | Some v, Some trace =>
      st_dbfs trace <> [] /\
      (exists range segments,
         concat segments = omap id (cells trace 0 (st_dbfs trace)) /\
         (forall seg, In seg segments -> exists pre post, maximal_run (fun _ _ => true) (cells trace 0 (st_dbfs trace)) seg pre post) /\
         Forall2 (fun path seg => path_of trace range seg = Some path) (vw_paths v) segments) /\
      (forall seg p, In seg (traceSegments (Some trace)) -> In p seg ->
         exists i, st_dbfs trace !! i = Some (Some (tc_db p)) /\ is_finite (tc_db p) = true /\ tc_hz p = cellHz trace (Z.of_nat i)) /\
      match hoverHz with
      | None => exists levels strongest, vw_readout v = span_of levels strongest /\ (levels = None <-> traceExtent (traceSegments (Some trace)) = None)
      | Some hz =>
          forall i, hovered trace hz = cell i ->
            0 <= i < zlen (st_dbfs trace) /\
            vw_readout v = at_cell (place (cellHz trace i)) (level <$> (st_dbfs trace !! Z.to_nat i ≫= id))
      end /\
      (lg_above (vw_legend v) = true <->
         exists t p, sw_threshold_dbfs (sd_sweep sweep) = Some t /\ sw_peak_dbfs (sd_sweep sweep) = Some p /\ ngt p t = true)
  end.
Proof.
  unfold SpectrumChart. destruct (sd_trace sweep) as [trace|]; [|done]. destruct (st_dbfs trace) as [|db dbfs] eqn:Ed; [done|].
  assert (traceSegments (Some trace) = runs (fun _ _ => true) (cells trace 0 (st_dbfs trace))) as Es by (unfold traceSegments; by rewrite Ed).
  destruct (runs_spec (fun _ _ : TracePoint => true) (cells trace 0 (st_dbfs trace))) as [Hc Hr]. rewrite <- Es in Hc, Hr. rewrite <- Ed.
  split_and!; cbn [vw_paths vw_readout vw_legend lg_above legend]; [congruence| | | |].
  - eexists _, (traceSegments (Some trace)). split_and!; [done|done|]. apply paths_of_segments.
    intros seg Hin. destruct (Hr seg Hin) as (pre&post&[_ Hn _ _ _]). done.
  - intros seg p Hin Hp. destruct (Hr seg Hin) as (pre&post&[He _ _ _ _]). apply list_elem_of_In, list_elem_of_lookup in Hp as [k Hk].
    assert (cells trace 0 (st_dbfs trace) !! (List.length pre + k)%nat = Some (Some p)) as Hl.
    { rewrite He, lookup_app_r by lia. rewrite Nat.add_comm, Nat.add_sub, lookup_app_l; [by rewrite list_lookup_fmap, Hk|].
      rewrite List.length_map. by apply lookup_lt_Some in Hk. }
    apply cells_lookup in Hl as (db'&Hd&Hf&->). exists (List.length pre + k)%nat. by split_and!.
  - destruct hoverHz as [hz|].
    + intros i Hi. split; [by apply (hovered_in_range trace hz)|]. by rewrite Hi.
    + eexists _, _. split; [done|]. by destruct (traceExtent _).
  - unfold above. destruct (sw_threshold_dbfs _) as [t|]; [|split; [done|by intros (?&?&?&?)]].
    destruct (sw_peak_dbfs _) as [q|]; [|split; [done|by intros (?&?&?&?&?)]]. split; [eauto|]. by intros (?&?&[= ->]&[= ->]&?).
Qed.
End Chart.

(** ** wifi-occupancy.tsx *)
Module Occupancy.

Definition percent (c : ChannelOccupancy) : string := toFixed 0 (nmul (co_busyFraction c) (of_Z 100)).
Inductive BusyTone := busy_down | busy_warn | busy_ok.
Record Bar := { br_channel : string; br_fraction : num; br_label : string; br_tone : BusyTone; br_percent : string; br_noise : string; br_listening : bool }.
Definition ChannelBar (c : ChannelOccupancy) : Bar := {|
  br_channel := formatChannel c;
  br_fraction := nmax (co_busyFraction c) (dec 15 3);
  br_label := formatChannel c +:+ ": " +:+ percent c +:+ " percent busy";
  br_tone := if nge (co_busyFraction c) (dec 6 1) then busy_down else if nge (co_busyFraction c) (dec 25 2) then busy_warn else busy_ok;
  br_percent := percent c +:+ "%";
  br_noise := match co_noiseDbm c with Some n => toFixed 0 n +:+ " dBm" | None => "—" end;
  br_listening := co_inUse c
|}.
Definition loudest_line (c : ChannelOccupancy) : string :=
  "Busiest right now: " +:+ formatChannel c +:+ " at " +:+ percent c +:+ "% busy" +:+
  (match co_noiseDbm c with Some n => ", noise " +:+ toFixed 0 n +:+ " dBm" | None => "" end) +:+ ".".

Inductive View :=
| nothing_reports
| no_occupancy (n : Notice)
| first_window
| predates
| reading (transmit : option string) (busiest : option string) (groups : list (string * list Bar)).
Definition OccupancyReading (channels : list ChannelOccupancy) : View :=
  reading (match transmitting channels with [] => None | l => Some (join ", " (map formatChannel l)) end)
    (loudest_line <$> busiest channels)
    (map (fun g => (ob_label g, map ChannelBar (ob_channels g))) (groupByBand channels)).
Definition WifiOccupancyPanel (sensors : option (list SensorHealth)) (sensorId : option string) : View :=
  match surveyState sensors sensorId with
  | no_sensor => nothing_reports
  | unsupported _ reason => no_occupancy (notice "info" "This adapter reports no channel occupancy"
      (reason +:+ ". Detection is unaffected — this is one view fewer, not a fault, and the Wi-Fi sensor is still the only thing on this unit that can see a DJI."))
  | warming _ => first_window
  | survey_unknown _ => predates
  | ready _ channels => OccupancyReading channels
  end.
End Occupancy.

(** ** spectrum-panel.tsx *)
Module Panel.

Definition TRACE_BINS : Z := 1400.

Definition StateBadge (s : SweepState) : Pill :=
  match s with
  | sweep_completed => pill tone_ok "completed"
  | sweep_failed => pill tone_down "failed"
  | sweep_running => pill tone_warn "running"
  end.

(** What the panel is given and keeps: its queries (the detail's by sweep), the band
    of the address, the sweep chosen, the request to start one; the bands asked
    for and how often the lists were asked for again. *)
Record Page := {
  pg_bands : QueryResult SpectrumBandsResponse;
  pg_sweeps : QueryResult SpectrumSweepsResponse;
  pg_details : string -> QueryResult SpectrumSweepDetail;
  pg_band : option string;
  pg_selected : option string;
  pg_start : Mutation;
  pg_sent : list string;
  pg_stale : Z
}.
Definition opened (bands : QueryResult SpectrumBandsResponse) (sweeps : QueryResult SpectrumSweepsResponse)
    (details : string -> QueryResult SpectrumSweepDetail) (band : option string) : Page :=
  {| pg_bands := bands; pg_sweeps := sweeps; pg_details := details; pg_band := band; pg_selected := None;
     pg_start := idle; pg_sent := []; pg_stale := 0 |}.

Section View.
Context (p : Page).
Definition sweeps_listed : list SpectrumSweep := match query_data (pg_sweeps p) with Some r => ssr_sweeps r | None => [] end.
Definition running : bool := existsb (fun s => bool_decide (sw_state s = sweep_running)) sweeps_listed.
Definition latestComplete : option SpectrumSweep := List.find (fun s => bool_decide (sw_state s = sweep_completed)) sweeps_listed.
Definition activeId : option string :=
  match pg_selected p with Some id => Some id | None => sw_sweep_id <$> latestComplete end.
Definition bands_listed : list SpectrumBand := match query_data (pg_bands p) with Some r => sbr_bands r | None => [] end.
Definition known : bool := existsb (fun b => bool_decide (Some (sb_name b) = pg_band p)) bands_listed.
Definition band : string :=
  match (if known then pg_band p else None) with
  | Some b => b
  | None => match bands_listed with b :: _ => sb_name b | [] => "" end
  end.
Definition chosen : option SpectrumBand := List.find (fun b => sb_name b === band) bands_listed.
Definition available : bool := match query_data (pg_bands p) with Some r => sbr_available r | None => false end.

(** The card of the controls. *)
Inductive Controls :=
| controls_loading
| unavailable (reason : string)
| controls (disabled : bool) (options : list (string * string)) (button : string) (pressable : bool) (about : option string).
Definition option_label (b : SpectrumBand) : string :=
  sb_name b +:+ " · " +:+ Trace.formatMHz (sb_start_hz b) 0 +:+ "–" +:+ Trace.formatMHz (sb_stop_hz b) 0.
Definition pickable : bool := negb (running || mt_pending (pg_start p)).
Definition pressable : bool := (band !== "") && pickable.
Definition Controls_ : Controls :=
  match pg_bands p with
  | loading => controls_loading
  | _ =>
      if negb available then
        unavailable (truthy (query_data (pg_bands p) ≫= sbr_reason) ?? "The API has no SDR sensor binary configured.")
      else controls (negb pickable) (map (fun b => (sb_name b, option_label b)) bands_listed)
             (if running then "Sweeping…" else "Sweep") pressable
             ((fun b => pretty (sb_steps b) +:+ " tune steps. " +:+ sb_note b) <$> chosen)
  end.
Definition code_text (e : ApiError) : string := match ae_code e with Some (JStr c) => c | _ => "" end.
Definition startError : option (string * string) :=
  match api_error (pg_start p) with
  | Some e => if has_code "conflict" e then Some ("warn", "The radio is busy")
              else Some ("error", "Could not start the sweep (" +:+ code_text e +:+ ")")
  | None => None
  end.

(** The card of the sweep shown. *)
Inductive Card :=
| no_card
| card_loading
| failed_card (reason : string)
| measuring
| charted (sweep : SpectrumSweepDetail).
Definition Card_ : Card :=
  match truthy activeId with
  | None => no_card
  | Some id =>
      match query_data (pg_details p id) with
      | Some d =>
          match sw_state (sd_sweep d) with
          | sweep_failed => failed_card (truthy (sw_error (sd_sweep d)) ?? "No reason was recorded.")
          | sweep_running => measuring
          | sweep_completed => charted d
          end
      | None => match pg_details p id with loading => card_loading | _ => no_card end
      end
  end.

(** A row of the list. *)
Record SweepRow := { sr_band : string; sr_state : Pill; sr_current : bool; sr_levels : string }.
Definition levels (s : SpectrumSweep) : string :=
  (match sw_noise_floor_dbfs s with
   | Some f => "floor " +:+ toFixed 1 f +:+ " dBFS"
   | None => match sw_state s with sweep_completed => "floor unmeasured" | _ => "" end
   end) +:+
  match sw_peak_dbfs s with Some v => " · peak " +:+ toFixed 1 v +:+ " dBFS" | None => "" end.
Definition row_of (s : SpectrumSweep) : SweepRow :=
  {| sr_band := sw_band s; sr_state := StateBadge (sw_state s);
     sr_current := bool_decide (Some (sw_sweep_id s) = activeId); sr_levels := levels s |}.
Inductive Past := past_loading | no_sweeps | past (rows : list SweepRow).
Definition Past_ : Past :=
  match pg_sweeps p with
  | loading => past_loading
  | _ =>
      match sweeps_listed with
      | [] => no_sweeps
      | l => past (map row_of l)
      end
  end.
End View.

Inductive Event :=
| band_picked (name : string)
| sweep_clicked
| row_clicked (id : string)
| start_settled (r : SpectrumSweep + Failure)
| bands_changed (q : QueryResult SpectrumBandsResponse)
| sweeps_changed (q : QueryResult SpectrumSweepsResponse)
| detail_changed (id : string) (q : QueryResult SpectrumSweepDetail).

Definition shows_controls (p : Page) : bool := match Controls_ p with controls _ _ _ _ _ => true | _ => false end.
Definition enabled (p : Page) (e : Event) : bool :=
  match e with
  | band_picked name => shows_controls p && pickable p && existsb (fun b => sb_name b === name) (bands_listed p)
  | sweep_clicked => shows_controls p && pressable p
  | row_clicked id => existsb (fun s => sw_sweep_id s === id) (sweeps_listed p)
  | start_settled _ => mt_pending (pg_start p)
  | _ => true
  end.
Definition with_start (m : Mutation) (selected : option string) (sent : list string) (stale : Z) (p : Page) : Page :=
  {| pg_bands := pg_bands p; pg_sweeps := pg_sweeps p; pg_details := pg_details p; pg_band := pg_band p; pg_selected := selected;
     pg_start := m; pg_sent := sent; pg_stale := stale |}.
Definition with_queries (bands : QueryResult SpectrumBandsResponse) (sweeps : QueryResult SpectrumSweepsResponse)
    (details : string -> QueryResult SpectrumSweepDetail) (chosen : option string) (p : Page) : Page :=
  {| pg_bands := bands; pg_sweeps := sweeps; pg_details := details; pg_band := chosen; pg_selected := pg_selected p;
     pg_start := pg_start p; pg_sent := pg_sent p; pg_stale := pg_stale p |}.
Definition handle (p : Page) (e : Event) : Page :=
  match e with
  | band_picked name => with_queries (pg_bands p) (pg_sweeps p) (pg_details p) (Some name) p
  | sweep_clicked => with_start mutating (pg_selected p) (pg_sent p ++ [band p]) (pg_stale p) p
  | row_clicked id => with_start (pg_start p) (Some id) (pg_sent p) (pg_stale p) p
  | start_settled (inl sweep) => with_start (settled (A := SpectrumSweep) (inl sweep)) (Some (sw_sweep_id sweep)) (pg_sent p) (pg_stale p + 2) p
  | start_settled (inr f) => with_start (settled (A := SpectrumSweep) (inr f)) (pg_selected p) (pg_sent p) (pg_stale p) p
  | bands_changed q => with_queries q (pg_sweeps p) (pg_details p) (pg_band p) p
  | sweeps_changed q => with_queries (pg_bands p) q (pg_details p) (pg_band p) p
  | detail_changed id q => with_queries (pg_bands p) (pg_sweeps p) (fun i => if i === id then q else pg_details p i) (pg_band p) p
  end.
Definition step : Page -> Event -> Page := guarded enabled handle.
Definition run : Page -> list Event -> Page := guarded_run enabled handle.

(** *** Facts *)

Definition answered (e : Event) : bool := match e with start_settled _ => true | _ => false end.
Definition answers (es : list Event) : Z := zlen (List.filter answered es).
Definition in_flight (m : Mutation) : Z := if mt_pending m then 1 else 0.
Lemma sweep_answers_app a b : answers (a ++ b) = answers a + answers b.
Proof. unfold answers, zlen. rewrite List.filter_app, List.length_app. lia. Qed.

Lemma sweep_enabled p : enabled p sweep_clicked = true ->
  mt_pending (pg_start p) = false /\ running p = false /\ available p = true /\ In (band p) (map sb_name (bands_listed p)).
Proof.
  cbn [enabled]. unfold shows_controls, pressable, pickable. intros [Hc [Hb [Hr Hp]%negb_true_iff%orb_false_elim]%andb_prop]%andb_prop.
  split_and!; [done|done| |].
  - unfold Controls_ in Hc. destruct (available p); [done|]. by destruct (pg_bands p).
  - apply negb_true_iff, String.eqb_neq in Hb. revert Hb. unfold band, known. destruct (existsb _ (bands_listed p)) eqn:E.
    + apply existsb_exists in E as (b & Hin & E%bool_decide_eq_true). rewrite <- E. intros _. apply in_map_iff. by exists b.
    + destruct (bands_listed p) as [|b l]; [done|]. intros _. by left.
Qed.

Lemma starts_counted p e : enabled p e = true ->
  zlen (pg_sent (handle p e)) - in_flight (pg_start (handle p e)) = zlen (pg_sent p) - in_flight (pg_start p) + answers [e].
Proof.
  intros He. destruct e as [name| |id|r|q|q|id q]; try (change (answers _) with 0; cbn [handle with_queries with_start pg_sent pg_start]; lia).
  - destruct (sweep_enabled p He) as [Hp _]. change (answers [sweep_clicked]) with 0. cbn [handle with_start pg_sent pg_start].
    unfold in_flight. rewrite Hp. cbn [mutating mt_pending]. unfold zlen. rewrite List.length_app. cbn. lia.
  - change (answers [start_settled r]) with 1. cbn [enabled] in He. unfold in_flight. rewrite He. destruct r; cbn [handle with_start pg_sent pg_start settled mt_pending]; lia.
Qed.

(** Which sweep was last chosen, by a click or by being started. *)
Definition choice (c : option string) (e : Event) : option string :=
  match e with row_clicked id => Some id | start_settled (inl s) => Some (sw_sweep_id s) | _ => c end.
Lemma selected_told es p : pg_selected (run p es) = fold_left choice (happened enabled handle p es) (pg_selected p).
Proof.
  revert p. induction es as [|e es IH]; intros p; [done|]. cbn [happened]. rewrite fold_left_app.
  change (run p (e :: es)) with (run (step p e) es). rewrite IH. unfold step, guarded. destruct (enabled p e); [|done].
  by destruct e as [name| |id|[s|f]|q|q|id q].
Qed.

(** C34. The radio is borrowed only when asked for.  In every run of the panel a sweep
    is asked for only by its button, one request at a time and each with its
    answer, for a band that the unit last listed, while it says it can sweep and no
    sweep it lists is running.  The sweep shown is the one last chosen or started,
    or the latest that completed; it is charted only when it completed; and the
    row marked in the list is the one shown. *)
Theorem a_sweep_is_asked_for (bands : QueryResult SpectrumBandsResponse) (sweeps : QueryResult SpectrumSweepsResponse)
    (details : string -> QueryResult SpectrumSweepDetail) (b : option string) (es : list Event) (e : Event) :
  let p := run (opened bands sweeps details b) es in
  let es' := happened enabled handle (opened bands sweeps details b) es in
  zlen (pg_sent p) = answers es' + in_flight (pg_start p) /\
  (pg_sent (step p e) = pg_sent p \/
   e = sweep_clicked /\ pg_sent (step p e) = pg_sent p ++ [band p] /\ In (band p) (map sb_name (bands_listed p)) /\
   available p = true /\ running p = false /\ mt_pending (pg_start p) = false) /\
  activeId p = match fold_left choice es' None with Some id => Some id | None => sw_sweep_id <$> latestComplete p end /\
  (forall d, Card_ p = charted d ->
     sw_state (sd_sweep d) = sweep_completed /\ exists id, activeId p = Some id /\ query_data (pg_details p id) = Some d) /\
  (forall rows, Past_ p = past rows -> Forall2 (fun r s => sr_current r = true <-> activeId p = Some (sw_sweep_id s)) rows (sweeps_listed p)).
Proof.
  intros p es'. split_and!.
  - pose proof (guarded_counts enabled handle (fun p => zlen (pg_sent p) - in_flight (pg_start p)) answers eq_refl sweep_answers_app starts_counted
      es (opened bands sweeps details b)) as H. cbv beta in H.
    change (zlen (pg_sent (opened bands sweeps details b)) - in_flight (pg_start (opened bands sweeps details b))) with 0 in H.
    unfold p, es', run. lia.
  - unfold step, guarded. destruct (enabled p e) eqn:He; [|by left]. destruct e as [name| |id|[s|f]|q|q|id q]; try (by left).
    destruct (sweep_enabled p He) as (?&?&?&?). right. by split_and!.
  - unfold activeId, p. by rewrite selected_told.
  - intros d. unfold Card_. destruct (activeId p) as [id|]; [|done]. destruct (truthy (Some id)) as [id'|] eqn:Et; [|done].
    assert (id' = id) as -> by (destruct id; cbn in Et; congruence). destruct (query_data (pg_details p id)) as [d'|] eqn:Ed; [|by destruct (pg_details p id)].
    destruct (sw_state (sd_sweep d')) eqn:Es; try done. intros [= <-]. split; [done|]. by exists id.
  - intros rows Hp. assert (rows = map (row_of p) (sweeps_listed p)) as ->.
    { unfold Past_ in Hp. destruct (pg_sweeps p); [done| |]; destruct (sweeps_listed p) as [|s l]; try done; by injection Hp as <-. }
    clear. induction (sweeps_listed p) as [|s l IH]; [constructor|]. cbn [map]. constructor; [|exact IH].
    cbn [row_of sr_current]. rewrite bool_decide_eq_true. split; congruence.
Qed.
End Panel.

(** ** routes/spectrum.tsx *)
Definition spectrumSearch_band (raw : option json) : option string :=
  match raw with Some (JStr b) => Some b | _ => None end.

(** ** What the panel does not say *)

(** A list of bands that could not be fetched reads as a unit without the binary,
    and a list of sweeps as one that never swept; a sweep that cannot be fetched
    leaves nothing where it was asked for. *)
Lemma failures_read_as_absence (f : Failure) (fetching : bool) (id : string) :
  let p := {| Panel.pg_bands := errored None f fetching; Panel.pg_sweeps := errored None f fetching; Panel.pg_details := fun _ => errored None f fetching;
              Panel.pg_band := None; Panel.pg_selected := Some id; Panel.pg_start := idle; Panel.pg_sent := []; Panel.pg_stale := 0 |} in
  Panel.Controls_ p = Panel.unavailable "The API has no SDR sensor binary configured." /\
  Panel.Past_ p = Panel.no_sweeps /\ Panel.Card_ p = Panel.no_card.
Proof. intros p. split_and!; [done|done|]. unfold Panel.Card_. cbn. by destruct id. Qed.

(** ** Examples *)
Module Examples.
Import Panel.

Definition hz (mhz : Z) : num := of_Z (mhz * 1000000).
Definition band_868 : SpectrumBand := {| sb_name := "868"; sb_class := "ism"; sb_note := "EU ISM."; sb_start_hz := hz 863; sb_stop_hz := hz 870; sb_steps := 4 |}.
Definition band_915 : SpectrumBand := {| sb_name := "915"; sb_class := "ism"; sb_note := "US ISM."; sb_start_hz := hz 902; sb_stop_hz := hz 928; sb_steps := 13 |}.
Definition unit_bands (taken : option string) : QueryResult SpectrumBandsResponse :=
  loaded {| sbr_bands := [band_868; band_915]; sbr_available := true; sbr_reason := None; sbr_running_sweep_id := taken |}.
Definition sweep_ (id : string) (state : SweepState) (peak : option num) : SpectrumSweep := {|
  sw_sweep_id := id; sw_band := "868"; sw_state := state; sw_started_at := "2026-08-01T10:00:00Z"; sw_ended_at := None; sw_class := None;
  sw_note := None; sw_start_hz := None; sw_stop_hz := None; sw_steps := None; sw_noise_floor_dbfs := Some (of_Z (-90));
  sw_threshold_dbfs := Some (of_Z (-80)); sw_peak_dbfs := peak; sw_peak_hz := Some (hz 868); sw_short_reads := None; sw_error := None |}.
Definition lists (l : list SpectrumSweep) : QueryResult SpectrumSweepsResponse := loaded {| ssr_sweeps := l |}.
Definition none_loaded (_ : string) : QueryResult SpectrumSweepDetail := loading.

(** Five cells, one of them the receiver's own notch. *)
Definition trace_ : SpectrumTrace := {|
  st_start_hz := hz 863; st_stop_hz := hz 868; st_bin_width_hz := hz 1;
  st_dbfs := [Some (of_Z (-90)); Some (of_Z (-70)); None; Some (of_Z (-88)); Some (of_Z (-90))]; st_blind := 1 |}.
Definition detail_ : SpectrumSweepDetail := {| sd_sweep := sweep_ "s1" sweep_completed (Some (of_Z (-70))); sd_trace := Some trace_; sd_step_peaks := None |}.
Example over_the_notch : (fun v => Chart.vw_readout v) <$> Chart.SpectrumChart detail_ (Some (of_Z 865500000)) =
  Some (Chart.at_cell "865.500 MHz" None).
Proof. vm_compute. reflexivity. Qed.
Example two_strokes : (fun v => List.length (Chart.vw_paths v)) <$> Chart.SpectrumChart detail_ None = Some 2%nat.
Proof. vm_compute. reflexivity. Qed.
Example gap_said : Chart.SpectrumChart detail_ None ≫= (fun v => Chart.lg_gap (Chart.vw_legend v)) = Some "20.0% of the band is a gap — 1 of 5 cells".
Proof. vm_compute. reflexivity. Qed.

(** Between a start and the next list of sweeps the button is live again: a second
    press asks for the radio a second time, although the unit says it is taken. *)
Definition twice : list Event :=
  [sweep_clicked; start_settled (inl (sweep_ "s2" sweep_running None)); bands_changed (unit_bands (Some "s2")); sweep_clicked].
Example a_taken_radio_is_asked_for : pg_sent (run (opened (unit_bands None) (lists []) none_loaded None) twice) = ["868"; "868"].
Proof. reflexivity. Qed.
Example a_started_sweep_is_shown : activeId (run (opened (unit_bands None) (lists [sweep_ "s1" sweep_completed None]) none_loaded None) twice) = Some "s2".
Proof. reflexivity. Qed.
(** A band of the address that the unit does not have falls back to its first. *)
Example unknown_band_falls_back : band (opened (unit_bands None) (lists []) none_loaded (Some "5800")) = "868".
Proof. reflexivity. Qed.
End Examples.
