(* ===== verification/TracksList.v ===== *)
(** * TracksList: the tracks that are monitored, and what a track rests on

    [features/tracks/tracks-table.tsx], [evidence.tsx] and [aircraft-label.tsx],
    with [features/timeline/event-timeline.tsx] and the instants of
    [app/use-format.ts].  The table library is an interface with its documented
    laws; the label's editor is a state machine. *)
From Stdlib Require Import ZArith Bool String Ascii List Lia Permutation Sorted SpecFloat.
From stdpp Require Import base option list strings pretty.
From S2P Require Import Prelude JsNumber JsString JsDate ApiTypes Format HealthView Transport FlightFilters TimelineLanes Calibration Access UnitPanels Ui.

(** ** use-format.ts: instants *)
Section Instants.
(** What Intl prints of an instant: the clock. *)
Context (clockFmt : Z -> string).

Inductive TimestampStyle := style_relative | style_absolute | style_both.
Definition when_ (style : TimestampStyle) (now : Z) (iso : option string) : string :=
  match truthy iso with
  | None => EMPTY
  | Some _ =>
      match style with
      | style_relative => formatRelative iso now
      | style_absolute => clock clockFmt iso
      | style_both =>
          let absolute := clock clockFmt iso in
          if absolute === EMPTY then EMPTY else absolute +:+ " (" +:+ formatRelative iso now +:+ ")"
      end
  end.
Inductive TimeZone := zone_utc | zone_local.
Definition zoneLabel (z : TimeZone) : string := match z with zone_utc => "UTC" | zone_local => "local" end.
End Instants.

(** ** evidence.tsx *)
Module EvidenceView.
Import DetectionClasses.

Fixpoint indexOf (c : DetectionClass) (l : list DetectionClass) (i : Z) : Z :=
  match l with [] => -1 | d :: l' => if bool_decide (d = c) then i else indexOf c l' (i + 1) end.
Definition class_rank (c : DetectionClass) : Z := indexOf c DETECTION_CLASS_ORDER 0.
Definition sortEvidence (evidence : list Evidence) : list Evidence :=
  sort_by (fun a b => class_rank (ev_class a) - class_rank (ev_class b) <=? 0) evidence.

(** Every piece of evidence is shown once, in the order of the classes. *)
Lemma evidence_in_class_order evidence :
  Permutation evidence (sortEvidence evidence) /\
  StronglySorted (fun a b => class_rank (ev_class a) <= class_rank (ev_class b)) (sortEvidence evidence).
Proof.
  split; [apply sort_by_perm|]. unfold sortEvidence.
  match goal with |- context [sort_by ?le ?l] => assert (StronglySorted (fun a b => le a b = true) (sort_by le l)) as H end.
  { apply sort_by_sorted; [intros a b; rewrite !Z.leb_le; lia | intros a b c; rewrite !Z.leb_le; lia]. }
  induction H as [|e l Hs IH Hall]; constructor; [done|]. eapply List.Forall_impl; [|exact Hall]. intros b Hb%Z.leb_le. lia.
Qed.

Record Chip := { cp_text : string; cp_title : string; cp_signal : string; cp_why : string }.
Definition chip (e : Evidence) : Chip :=
  let info := detectionClassInfo (ev_class e) in {|
    cp_text := DetectionClass_string (ev_class e) +:+ "×" +:+ pretty (ev_count e);
    cp_title := "Class " +:+ DetectionClass_string (ev_class e) +:+ " — " +:+ ci_label info;
    cp_signal := ci_signal info +:+ " · " +:+ pretty (ev_count e) +:+ " detections via " +:+ SensorKind_string (ev_sensor_kind e);
    cp_why := ci_justification info |}.
(** [None]: "no evidence". *)
Definition EvidenceChips (evidence : list Evidence) : option (list Chip) :=
  match evidence with [] => None | _ => Some (map chip (sortEvidence evidence)) end.

Definition ConfidenceBar (confidence : num) : option Z * string :=
  (bar_pct confidence, "Confidence that this is a drone: " +:+ formatConfidence confidence).

(** A row of the breakdown; [None] for the weight of a class that never counts. *)
Record Line := { ln_class : DetectionClass; ln_short : string; ln_signal : string; ln_via : string; ln_count : Z; ln_weight : option string; ln_seen : string }.
Definition line (now : Z) (e : Evidence) : Line :=
  let info := detectionClassInfo (ev_class e) in {|
    ln_class := ev_class e; ln_short := ci_short info; ln_signal := ci_signal info; ln_via := SensorKind_string (ev_sensor_kind e);
    ln_count := ev_count e;
    ln_weight := if neq (ev_weight e) (of_Z 0) then None else Some (toFixed 2 (ev_weight e));
    ln_seen := formatRelative (ev_last_seen e) now |}.
Definition contributing (evidence : list Evidence) : list Evidence := List.filter (fun e => ngt (ev_weight e) (of_Z 0)) (sortEvidence evidence).
Definition recomputed (evidence : list Evidence) : num := noisyOr (map ev_weight (contributing evidence)).
Definition mismatch (evidence : list Evidence) (confidence : num) : bool := ngt (nabs (nsub (recomputed evidence) confidence)) (dec 11 3).
Definition arithmetic (evidence : list Evidence) : string :=
  "1 − " +:+ (match contributing evidence with
              | [] => "1"
              | l => join " × " (map (fun e => "(1 − " +:+ toFixed 2 (ev_weight e) +:+ ")") l)
              end) +:+ " = " +:+ toFixed 3 (recomputed evidence).
Record Breakdown := { bk_lines : list Line; bk_arithmetic : string; bk_mismatch : option string }.
(** [None]: "No evidence recorded for this track." *)
Definition EvidenceBreakdown (now : Z) (evidence : list Evidence) (confidence : num) : option Breakdown :=
  match sortEvidence evidence with
  | [] => None
  | sorted => Some {|
      bk_lines := map (line now) sorted;
      bk_arithmetic := arithmetic evidence;
      bk_mismatch := if mismatch evidence confidence
                     then Some ("The API reported " +:+ formatConfidence confidence +:+ ", which does not match the weights above.") else None |}
  end.

Definition TrackStateBadge (state : TrackState) : StatusPillTone * string :=
  (match state with CONFIRMED => pill_ok | COASTING => pill_warn | CLOSED => pill_muted | TENTATIVE => pill_info end,
   toLowerCase (TrackState_string state)).
Definition TRACK_STATES : list (TrackState * string) := [
  (TENTATIVE, "New contact; waiting for at least 2 detections spanning 2 seconds.");
  (CONFIRMED, "Corroborated contact receiving current detections.");
  (COASTING, "No detection for 30 seconds; retained in case the same aircraft returns.");
  (CLOSED, "No detection for 5 minutes; archived and removed from the active list.")].
Definition TrackStateKey (p : Teachings.Page) : option (list ((StatusPillTone * string) * string)) :=
  if Teachings.TeachingBanner "track-state-key" p then Some (map (fun s => (TrackStateBadge s.1, s.2)) TRACK_STATES) else None.
End EvidenceView.

(** ** tracks-table.tsx *)
Module Table.

(** What an accessor gives. *)
Inductive Value := text (s : string) | number (n : num) | no_value.
Definition last_seen_ms (t : Track) : num := match Date_parse (tr_last_seen t) with Some ms => of_Z ms | None => S754_nan end.
Definition columns : list (string * (Track -> Value)) := [
  ("identity", fun t => text (searchableIdentity t));
  ("state", fun t => text (TrackState_string (tr_state t)));
  ("confidence", fun t => number (tr_confidence t));
  ("evidence", fun t => text (String.concat "" (map (fun e => DetectionClass_string (ev_class e)) (tr_evidence t ?? []))));
  ("detection_count", fun t => number (of_Z (tr_detection_count t)));
  ("rssi", fun t => match tr_rssi_dbm t with Some r => number r | None => no_value end);
  ("last_seen", fun t => number (last_seen_ms t));
  ("position", fun t => text (match tr_current t with Some _ => "yes" | None => "no" end))].
Definition value_of (column : string) (t : Track) : Value := match assoc column columns with Some f => f t | None => no_value end.

Definition columnLabel (zone : string) (id : string) : string :=
  if id === "state" then "State" else if id === "confidence" then "Confidence" else if id === "evidence" then "Evidence"
  else if id === "detection_count" then "Detections" else if id === "rssi" then "Peak RSSI"
  else if id === "last_seen" then "Last seen (" +:+ zone +:+ ")" else if id === "position" then "Position" else id.

(** The identity cell: what is linked and copied, and the line under it. *)
Definition identity {A} (f : TrackIdentity -> option A) (t : Track) : option A := tr_identity t ?. f.
Definition first_mac (t : Track) : option string := identity ti_macs t ≫= head.
Definition primary (t : Track) : string :=
  match identity ti_serial t with Some s => s | None => match first_mac t with Some m => m | None => tr_track_id t end end.
Definition secondary (t : Track) : string :=
  match truthy (identity ti_serial t), truthy (first_mac t) with
  | Some _, Some mac => mac
  | _, _ => match truthy (identity ti_vendor t) with Some v => "vendor " +:+ v | None => "—" end
  end.
(** The position cell; [None]: "no fix". *)
Definition position_cell (format : CoordFormat) (t : Track) : option string :=
  (fun p => formatCoordinatePair (ps_lat p) (ps_lon p) format) <$> tr_current t.

(** The library: what a text filter lets through of a value, which columns the
    search box looks at for a list, where pressing a header leads, and the rows it
    makes. *)
Record Sort := { so_id : string; so_desc : bool }.
Class TableLibrary := {
  includesString : Value -> string -> bool;
  searchable : list Track -> string -> bool;
  toggleSorting : string -> list Sort -> list Sort;
  getRowModel : list Track -> list Sort -> list (string * string) -> string -> list Track
}.
Section Rows.
Context `{TL : TableLibrary}.
Definition passes (data : list Track) (columnFilters : list (string * string)) (globalFilter : string) (t : Track) : bool :=
  forallb (fun f => includesString (value_of f.1 t) f.2) columnFilters &&
  ((globalFilter === "") ||
   existsb (fun c => searchable data c.1 && includesString (c.2 t) globalFilter) columns).
Definition numeric (v : Value) : bool := match v with number n => negb (is_nan n) | _ => false end.
Definition in_order (s : Sort) (a b : Track) : bool :=
  match value_of (so_id s) a, value_of (so_id s) b with
  | number x, number y => if so_desc s then nle y x else nle x y
  | _, _ => true
  end.
End Rows.
(** The rows are those that pass, each once, in the order of the one column sorted
    by when its values are numbers; a text filter is a search without case; and the
    search box looks at every column whose first value is a text or a number. *)
Class TableLaws `{TableLibrary} : Prop := {
  rows_filtered data sorting filters global : Permutation (getRowModel data sorting filters global) (List.filter (passes data filters global) data);
  rows_ordered data s filters global : List.Forall (fun t => numeric (value_of (so_id s) t) = true) data ->
    StronglySorted (fun a b => in_order s a b = true) (getRowModel data [s] filters global);
  includes_text s filter : includesString (text s) filter = includes (toLowerCase filter) (toLowerCase s);
  searches_first data t column : head data = Some t ->
    searchable data column = match value_of column t with no_value => false | _ => true end
}.

(** *** The table's state *)
Record View := { vw_sorting : list Sort; vw_columnFilters : list (string * string); vw_globalFilter : string }.
Definition opened : View := {| vw_sorting := [{| so_id := "last_seen"; so_desc := true |}]; vw_columnFilters := []; vw_globalFilter := "" |}.
Definition stateFilter (v : View) : string :=
  match List.find (fun f => f.1 === "state") (vw_columnFilters v) with Some f => f.2 | None => "ALL" end.
Definition STATE_OPTIONS : list (string * string) :=
  [("ALL", "All states"); ("TENTATIVE", "Tentative"); ("CONFIRMED", "Confirmed"); ("COASTING", "Coasting"); ("CLOSED", "Closed")].
Definition options (excludeStates : list TrackState) : list (string * string) :=
  List.filter (fun o => (o.1 === "ALL") || negb (existsb (fun s => TrackState_string s === o.1) excludeStates)) STATE_OPTIONS.

Inductive Event := typed (q : string) | state_picked (value : string) | header_pressed (column : string).
Section Handle.
Context `{TL : TableLibrary} (showStateFilter : bool) (excludeStates : list TrackState).
Definition enabled (e : Event) : bool :=
  match e with
  | typed _ => true
  | state_picked value => showStateFilter && existsb (fun o => o.1 === value) (options excludeStates)
  | header_pressed column => existsb (fun c => c.1 === column) columns
  end.
Definition handle (v : View) (e : Event) : View :=
  match e with
  | typed q => {| vw_sorting := vw_sorting v; vw_columnFilters := vw_columnFilters v; vw_globalFilter := q |}
  | state_picked value =>
      {| vw_sorting := vw_sorting v;
         vw_columnFilters := List.filter (fun f => f.1 !== "state") (vw_columnFilters v) ++ (if value === "ALL" then [] else [("state", value)]);
         vw_globalFilter := vw_globalFilter v |}
  | header_pressed column => {| vw_sorting := toggleSorting column (vw_sorting v); vw_columnFilters := vw_columnFilters v; vw_globalFilter := vw_globalFilter v |}
  end.
Definition step (v : View) (e : Event) : View := if enabled e then handle v e else v.
Definition run (es : list Event) : View := fold_left step es opened.

Definition rows (tracks : list Track) (v : View) : list Track := getRowModel tracks (vw_sorting v) (vw_columnFilters v) (vw_globalFilter v).
Definition counted (tracks : list Track) (v : View) : string := pretty (zlen (rows tracks v)) +:+ " of " +:+ pretty (zlen tracks) +:+ " tracks".
(** What stands in place of rows. *)
Definition empty (emptyTitle emptyDescription : string) (tracks : list Track) (v : View) : option (string * string) :=
  match rows tracks v with
  | [] => Some (match tracks with
                | [] => (emptyTitle, emptyDescription)
                | _ => ("No tracks match the filter",
                        if showStateFilter then "Clear the search box or the state filter to see all tracks." else "Clear the search box to see all tracks.")
                end)
  | _ => None
  end.
End Handle.

(** *** What is listed *)
Section Listed.
Context `{TL : TableLibrary} {LAWS : TableLaws} (showStateFilter : bool) (excludeStates : list TrackState).

(** A state filter is off, or one state of the menu. *)
Definition filters_ok (v : View) : Prop :=
  vw_columnFilters v = [] \/
  exists s, vw_columnFilters v = [("state", s)] /\ s <> "ALL" /\ In s (map fst (options excludeStates)).
Lemma run_filters_ok es : filters_ok (run showStateFilter excludeStates es).
Proof.
  unfold run. assert (filters_ok opened) as H by (by left). revert H. generalize opened.
  induction es as [|e es IH]; intros v Hv; [exact Hv|]. cbn [fold_left]. apply IH. unfold step.
  destruct (enabled showStateFilter excludeStates e) eqn:He; [|done].
  destruct e as [q|value|column]; [exact Hv| |exact Hv].
  apply andb_prop in He as [_ He]. apply existsb_exists in He as (o & Ho & Eo). apply String.eqb_eq in Eo.
  assert (List.filter (fun f => f.1 !== "state") (vw_columnFilters v) = []) as Hold
    by (destruct Hv as [->|(s & -> & _)]; reflexivity).
  unfold filters_ok, handle. cbn [vw_columnFilters]. rewrite Hold. cbn [app].
  destruct (String.eqb_spec value "ALL") as [Ea|Ea]; [by left|].
  right. exists value. split_and!; [done|done|]. apply in_map_iff. by exists o.
Qed.
Lemma stateFilter_of v : filters_ok v ->
  vw_columnFilters v = (if stateFilter v === "ALL" then [] else [("state", stateFilter v)]).
Proof.
  intros [E|(s & E & Hs & _)]; unfold stateFilter; rewrite E; [reflexivity|]. cbn.
  by rewrite (proj2 (String.eqb_neq _ _) Hs).
Qed.

(** The state names are told apart by a search of their own letters. *)
Definition of_state (state : string) (t : Track) : bool := (state === "ALL") || (TrackState_string (tr_state t) === state).
Lemma state_text_is_exact state value :
  In value (map fst STATE_OPTIONS) -> value <> "ALL" ->
  includes (toLowerCase value) (toLowerCase (TrackState_string state)) = (TrackState_string state === value).
Proof. cbn [map STATE_OPTIONS fst In]. intros [<-|[<-|[<-|[<-|[<-|[]]]]]]; destruct state; done. Qed.

Definition found (tracks : list Track) (query : string) (t : Track) : bool :=
  (query === "") || existsb (fun c => searchable tracks c.1 && includesString (c.2 t) query) columns.
Lemma passes_spec tracks v t : filters_ok v ->
  passes tracks (vw_columnFilters v) (vw_globalFilter v) t = of_state (stateFilter v) t && found tracks (vw_globalFilter v) t.
Proof.
  intros Hv. unfold passes, found. f_equal. rewrite (stateFilter_of v Hv).
  unfold of_state. destruct (String.eqb_spec (stateFilter v) "ALL") as [Ea|Ea]; [reflexivity|].
  cbn [forallb fst snd]. rewrite andb_true_r.
  change (includesString (text (TrackState_string (tr_state t))) (stateFilter v) = (TrackState_string (tr_state t) === stateFilter v)).
  rewrite includes_text. cbn [orb].
  apply state_text_is_exact; [|done].
  destruct Hv as [E|(s & E & Hs & Hin)]; unfold stateFilter in *; rewrite E in *; [done|].
  change (In s (map fst STATE_OPTIONS)). apply in_map_iff in Hin as (o & <- & Ho). apply filter_In in Ho as [Ho _]. by apply in_map.
Qed.
Lemma rows_spec tracks es : let v := run showStateFilter excludeStates es in
  Permutation (rows tracks v) (List.filter (fun t => of_state (stateFilter v) t && found tracks (vw_globalFilter v) t) tracks).
Proof.
  intros v. unfold rows. rewrite rows_filtered. erewrite List.filter_ext; [reflexivity|].
  intros t. apply passes_spec, run_filters_ok.
Qed.
(** The box finds an identity, whatever its case. *)
Lemma identity_is_searched tracks query t : In t tracks ->
  includes (toLowerCase query) (toLowerCase (searchableIdentity t)) = true -> found tracks query t = true.
Proof.
  intros Hin Hq. unfold found. apply orb_true_iff. right. apply existsb_exists.
  exists ("identity", fun t => text (searchableIdentity t)). split; [by left|]. cbn [fst snd].
  rewrite includes_text, Hq, andb_true_r. destruct tracks as [|first rest]; [done|].
  by rewrite (searches_first (first :: rest) first "identity" eq_refl).
Qed.

(** C28. The tracks table never hides a track it was not asked to hide.  However the
    box, the menu and the headers have been used, its rows are exactly the tracks in
    the state picked that the box's text is found in, each as often as it is given; a
    track is found by its identity whatever the case; with the box empty and the menu
    at "All states" every track is listed; an untouched table lists every track, the
    one heard last first; and there is something to read in place of rows exactly
    when there are none, which says that nothing matches only when there are tracks. *)
Theorem each_monitored_track_is_listed tracks es :
  let v := run showStateFilter excludeStates es in
  Permutation (rows tracks v) (List.filter (fun t => of_state (stateFilter v) t && found tracks (vw_globalFilter v) t) tracks) /\
  (forall t, In t tracks -> of_state (stateFilter v) t = true ->
     includes (toLowerCase (vw_globalFilter v)) (toLowerCase (searchableIdentity t)) = true -> In t (rows tracks v)) /\
  (stateFilter v = "ALL" -> vw_globalFilter v = "" -> Permutation (rows tracks v) tracks) /\
  (List.Forall (fun t => is_nan (last_seen_ms t) = false) tracks ->
     StronglySorted (fun a b => nle (last_seen_ms b) (last_seen_ms a) = true) (rows tracks (run showStateFilter excludeStates []))) /\
  (forall title description, match TracksList.Table.empty showStateFilter title description tracks v with
     | Some said => rows tracks v = [] /\ (said.1 = "No tracks match the filter" /\ tracks <> [] \/ said = (title, description) /\ tracks = [])
     | None => rows tracks v <> []
     end).
Proof.
  intros v. pose proof (rows_spec tracks es : Permutation (rows tracks v) _) as Hrows. fold v in Hrows.
  split_and!; [exact Hrows| | | |].
  - intros t Hin Hs Hq. apply (Permutation_in _ (Permutation_sym Hrows)), filter_In. split; [done|].
    by rewrite Hs, (identity_is_searched _ _ _ Hin Hq).
  - intros Ha Hg. rewrite Hrows, Ha, Hg. rewrite (List.filter_ext _ (fun _ => true)) by reflexivity. by rewrite filter_true.
  - intros Hn. refine (rows_ordered tracks {| so_id := "last_seen"; so_desc := true |} [] "" _).
    eapply List.Forall_impl; [|exact Hn]. intros t Ht. change (negb (is_nan (last_seen_ms t)) = true). by rewrite Ht.
  - intros title description. unfold TracksList.Table.empty. destruct (rows tracks v); [|done]. split; [done|].
    destruct tracks; [by right|by left].
Qed.
End Listed.

(** *** A library that keeps the laws *)
Module Plain.
Definition includesString (v : Value) (filter : string) : bool :=
  match v with text s => includes (toLowerCase filter) (toLowerCase s) | _ => false end.
Definition searchable (data : list Track) (column : string) : bool :=
  match data with [] => false | t :: _ => match value_of column t with no_value => false | _ => true end end.
Definition toggleSorting (column : string) (sorting : list Sort) : list Sort :=
  match sorting with
  | [s] => if so_id s === column then (if so_desc s then [] else [{| so_id := column; so_desc := true |}]) else [{| so_id := column; so_desc := false |}]
  | _ => [{| so_id := column; so_desc := false |}]
  end.
Definition getRowModel (data : list Track) (sorting : list Sort) (filters : list (string * string)) (global : string) : list Track :=
  let kept := List.filter (fun t =>
    forallb (fun f => includesString (value_of f.1 t) f.2) filters &&
    ((global === "") || existsb (fun c => searchable data c.1 && includesString (c.2 t) global) columns)) data in
  match sorting with [s] => sort_by (in_order s) kept | _ => kept end.
#[export] Instance table : TableLibrary := {|
  TracksList.Table.includesString := includesString; TracksList.Table.searchable := searchable;
  TracksList.Table.toggleSorting := toggleSorting; TracksList.Table.getRowModel := getRowModel |}.

Lemma in_order_total s a b : numeric (value_of (so_id s) a) = true -> numeric (value_of (so_id s) b) = true ->
  in_order s a b = true \/ in_order s b a = true.
Proof.
  unfold numeric, in_order. destruct (value_of (so_id s) a) as [|x|], (value_of (so_id s) b) as [|y|]; try done.
  intros Hx%negb_true_iff Hy%negb_true_iff. destruct (so_desc s); by apply nle_total.
Qed.
Lemma in_order_trans s a b c : numeric (value_of (so_id s) b) = true ->
  in_order s a b = true -> in_order s b c = true -> in_order s a c = true.
Proof.
  unfold numeric, in_order. destruct (value_of (so_id s) a) as [|x|], (value_of (so_id s) b) as [|y|], (value_of (so_id s) c) as [|z|]; try done.
  intros _. destruct (so_desc s); intros H1 H2; by eapply nle_trans.
Qed.
#[export] Instance table_laws : TableLaws.
Proof.
  split.
  - intros data sorting filters global. cbn [getRowModel table]. unfold getRowModel. destruct sorting as [|s [|s' l]]; [done| |done].
    symmetry. apply sort_by_perm.
  - intros data s filters global Hn. cbn [TracksList.Table.getRowModel table]. unfold getRowModel.
    apply (sort_by_sorted_on _ (fun t => numeric (value_of (so_id s) t) = true)).
    + intros a b. apply in_order_total.
    + intros a b c _ Hb _. by apply in_order_trans.
    + rewrite List.Forall_forall in *. intros t [Ht _]%filter_In. by apply Hn.
  - done.
  - intros data t column. destruct data as [|t' data]; [done|]. by intros [= ->].
Qed.
End Plain.
End Table.

(** ** What the table does beyond its labels *)
Module Examples.
Import Table Plain.

(** The box is labelled as a filter by identity; the library reads every column, so
    "no" finds every track without a position. *)
Lemma the_box_reads_hidden_columns `{TL : TableLibrary} {LAWS : TableLaws} tracks t :
  In t tracks -> tr_current t = None -> found tracks "no" t = true.
Proof.
  intros Hin Hc. unfold found. apply orb_true_iff. right. apply existsb_exists.
  exists ("position", fun t => text (match tr_current t with Some _ => "yes" | None => "no" end)). split; [do 7 right; by left|].
  cbn [fst snd]. rewrite Hc, includes_text. destruct tracks as [|first rest]; [done|].
  rewrite (searches_first (first :: rest) first "position" eq_refl). cbn. by destruct (tr_current first).
Qed.

Definition contact (id serial seen : string) (state : TrackState) : Track :=
  {| tr_track_id := id; tr_state := state; tr_first_seen := seen; tr_last_seen := seen; tr_detection_count := 3;
     tr_identity := Some {| ti_serial := Some serial; ti_manufacturer_code := None; ti_vendor := None; ti_model_hint := None;
       ti_ua_type := None; ti_operator_id := None; ti_macs := None |};
     tr_confidence := of_ratio 4 5; tr_evidence := None; tr_current := None; tr_history := None; tr_operator := None;
     tr_rssi_dbm := None; tr_receivers := None; tr_adsb_correlated := None |}.
Definition two : list Track :=
  [contact "a" "1581F3Y" "2026-09-15T03:00:00Z" CONFIRMED; contact "b" "1581F4Z" "2026-09-15T03:05:00Z" COASTING].
Lemma each_monitored_track_is_listed_witness :
  map tr_track_id (rows two (run true [CLOSED] [])) = ["b"; "a"] /\
  In (contact "a" "1581F3Y" "2026-09-15T03:00:00Z" CONFIRMED)
     (rows two (run true [CLOSED] [typed "f3y"; state_picked "CLOSED"; state_picked "CONFIRMED"])).
Proof.
  split; [vm_compute; reflexivity|].
  exact (proj1 (proj2 (each_monitored_track_is_listed true [CLOSED] two [typed "f3y"; state_picked "CLOSED"; state_picked "CONFIRMED"]))
    (contact "a" "1581F3Y" "2026-09-15T03:00:00Z" CONFIRMED) (or_introl eq_refl) ltac:(vm_compute; reflexivity) ltac:(vm_compute; reflexivity)).
Defined.
Example no_matches_no_fix : map tr_track_id (rows two (run true [] [typed "no"])) = ["b"; "a"].
Proof. vm_compute. reflexivity. Qed.
Example two_filters_said : TracksList.Table.empty true "No tracks" "" two (run true [CLOSED] [typed "x"]) =
  Some ("No tracks match the filter", "Clear the search box or the state filter to see all tracks.").
Proof. vm_compute. reflexivity. Qed.
End Examples.
