(* ===== verification/AircraftLabels.v ===== *)
(** * AircraftLabels: naming an aircraft, and the bars of the band of time

    [features/tracks/aircraft-label.tsx] and [use-aircraft-label.ts]: the popover's
    form is made anew each time it opens, and its mutation outlives it.
    [features/timeline/event-timeline.tsx] draws the events of [TimelineLanes], and
    [features/tracks/flight-row.ts] finds the row a bar stands for. *)
From Stdlib Require Import ZArith Bool String Ascii List Lia Permutation Sorted SpecFloat.
From stdpp Require Import base option list strings pretty gmap.
From S2P Require Import Prelude JsNumber JsString JsDate ApiTypes Format Transport FlightTime TimelineLanes FlightPage TwoClicks Access Ui TracksList.

(** ** aircraft-label.tsx *)
Module Label.

Definition FLAG_OPTIONS : list (AircraftFlag * string) :=
  [(flag_none, "No flag"); (flag_known, "Known"); (flag_watch, "Watch"); (flag_ignore, "Ignore")].
Definition FLAG_TONE (flag : AircraftFlag) : option StatusPillTone :=
  match flag with flag_none => None | flag_known => Some pill_info | flag_watch => Some pill_warn | flag_ignore => Some pill_muted end.
Definition AircraftFlag_string (flag : AircraftFlag) : string :=
  match flag with flag_none => "" | flag_known => "known" | flag_watch => "watch" | flag_ignore => "ignore" end.
Definition AircraftFlagBadge (flag : AircraftFlag) : option (StatusPillTone * string) :=
  (fun tone => (tone, AircraftFlag_string flag)) <$> FLAG_TONE flag.

Definition Body : Type := string * AircraftFlag.
Definition cleared (body : Body) : bool := (body.1 === "") && bool_decide (AircraftFlag_string body.2 = "").
Inductive Toast := toast_saved | toast_cleared | toast_failed (e : Failure).

(** The form while the popover is open, and what it is sending. *)
Record Form := { fm_text : string; fm_flag : AircraftFlag; fm_sending : option Body }.
Definition seeded (stored : option AircraftLabel) : Form := {|
  fm_text := match stored with Some l => al_label l | None => "" end;
  fm_flag := match stored with Some l => al_flag l | None => flag_none end;
  fm_sending := None |}.

(** [ct_stored] is the label the page reads; [ct_lost] are the saves whose form has
    left the screen, oldest first; [ct_sent] every body sent. *)
Record Control := {
  ct_stored : option AircraftLabel;
  ct_form : option Form;
  ct_lost : list Body;
  ct_sent : list Body;
  ct_toasts : list Toast;
  ct_stale : Z
}.
Definition shown (stored : option AircraftLabel) : Control :=
  {| ct_stored := stored; ct_form := None; ct_lost := []; ct_sent := []; ct_toasts := []; ct_stale := 0 |}.
Definition with_form (f : option Form) (c : Control) : Control :=
  {| ct_stored := ct_stored c; ct_form := f; ct_lost := ct_lost c; ct_sent := ct_sent c; ct_toasts := ct_toasts c; ct_stale := ct_stale c |}.
Definition sending (c : Control) : list Body := match ct_form c with Some f => option_list (fm_sending f) | None => [] end.
Definition trigger (c : Control) : string := match ct_stored c with Some _ => "Edit label" | None => "Label" end.

Inductive Event :=
| labels_refreshed (stored : option AircraftLabel)
| opened
| closed
| typed (text : string)
| flag_picked (flag : AircraftFlag)
| save_pressed
| clear_pressed
| settled (r : unit + Failure)
| lost_settled (n : nat) (r : unit + Failure).

(** The popover's contents leave the screen, and with them the form. *)
Definition close (c : Control) : Control :=
  {| ct_stored := ct_stored c; ct_form := None; ct_lost := ct_lost c ++ sending c; ct_sent := ct_sent c; ct_toasts := ct_toasts c; ct_stale := ct_stale c |}.
Definition mutate (body : Body) (f : Form) (c : Control) : Control :=
  {| ct_stored := ct_stored c; ct_form := Some {| fm_text := fm_text f; fm_flag := fm_flag f; fm_sending := Some body |};
     ct_lost := ct_lost c; ct_sent := ct_sent c ++ [body]; ct_toasts := ct_toasts c; ct_stale := ct_stale c |}.
Definition say (t : Toast) (stale : Z) (c : Control) : Control :=
  {| ct_stored := ct_stored c; ct_form := ct_form c; ct_lost := ct_lost c; ct_sent := ct_sent c; ct_toasts := ct_toasts c ++ [t]; ct_stale := ct_stale c + stale |}.
(** [onSuccess] and [onError], for a save that is no longer under way. *)
Definition answered (body : Body) (r : unit + Failure) (c : Control) : Control :=
  match r with
  | inl _ => close (say (if cleared body then toast_cleared else toast_saved) 1 c)
  | inr e => say (toast_failed e) 0 c
  end.

Section Handle.
Context (canEdit : bool).
Definition enabled (c : Control) (e : Event) : bool :=
  match e, ct_form c with
  | labels_refreshed _, _ => true
  | opened, None => canEdit
  | closed, Some _ | typed _, Some _ | flag_picked _, Some _ => true
  | save_pressed, Some f => bool_decide (fm_sending f = None)
  | clear_pressed, Some f => bool_decide (fm_sending f = None) && match ct_stored c with Some _ => true | None => false end
  | settled _, Some f => negb (bool_decide (fm_sending f = None))
  | lost_settled n _, _ => (n <? List.length (ct_lost c))%nat
  | _, _ => false
  end.
Definition handle (c : Control) (e : Event) : Control :=
  match e, ct_form c with
  | labels_refreshed stored, _ =>
      {| ct_stored := stored; ct_form := ct_form c; ct_lost := ct_lost c; ct_sent := ct_sent c; ct_toasts := ct_toasts c; ct_stale := ct_stale c |}
  | opened, _ => with_form (Some (seeded (ct_stored c))) c
  | closed, _ => close c
  | typed text, Some f => with_form (Some {| fm_text := text; fm_flag := fm_flag f; fm_sending := fm_sending f |}) c
  | flag_picked flag, Some f => with_form (Some {| fm_text := fm_text f; fm_flag := flag; fm_sending := fm_sending f |}) c
  | save_pressed, Some f => mutate (trim (fm_text f), fm_flag f) f c
  | clear_pressed, Some f => mutate ("", flag_none) f c
  | settled r, Some f =>
      match fm_sending f with
      | Some body => answered body r (with_form (Some {| fm_text := fm_text f; fm_flag := fm_flag f; fm_sending := None |}) c)
      | None => c
      end
  | lost_settled n r, _ =>
      match ct_lost c !! n with
      | Some body => answered body r
          {| ct_stored := ct_stored c; ct_form := ct_form c; ct_lost := delete n (ct_lost c); ct_sent := ct_sent c; ct_toasts := ct_toasts c; ct_stale := ct_stale c |}
      | None => c
      end
  | _, None => c
  end.
Definition run : Control -> list Event -> Control := guarded_run enabled handle.
End Handle.

Definition is_send (e : Event) : bool := match e with save_pressed | clear_pressed => true | _ => false end.

(** A toast that answers a save. *)
Definition told (body : Body) (t : Toast) : Prop :=
  t = (if cleared body then toast_cleared else toast_saved) \/ exists e, t = toast_failed e.
(** Every body sent is under way or was answered by one toast. *)
Definition accounted (c : Control) : Prop :=
  exists said, Permutation (ct_sent c) (said ++ ct_lost c ++ sending c) /\ Forall2 told said (ct_toasts c).

Lemma answered_accounted body r c :
  (exists said, Permutation (ct_sent c) (body :: said ++ ct_lost c ++ sending c) /\ Forall2 told said (ct_toasts c)) ->
  accounted (answered body r c).
Proof.
  intros (said & HP & HF). exists (said ++ [body]).
  assert (Forall2 told (said ++ [body]) (ct_toasts c ++ [match r with inl _ => if cleared body then toast_cleared else toast_saved | inr e => toast_failed e end])) as HF'.
  { apply List.Forall2_app; [done|]. constructor; [|constructor]. unfold told. destruct r; eauto. }
  assert (Permutation (ct_sent c) ((said ++ [body]) ++ ct_lost c ++ sending c)) as HP'.
  { rewrite HP, <- !app_assoc. cbn [app]. apply Permutation_middle. }
  destruct r as [u|e]; split; [|exact HF'|exact HP'|exact HF'].
  rewrite HP'. change (Permutation ((said ++ [body]) ++ ct_lost c ++ sending c) ((said ++ [body]) ++ (ct_lost c ++ sending c) ++ [])).
  by rewrite app_nil_r.
Qed.

Section Promise.
Context (canEdit : bool).
Lemma handle_accounted c e : enabled canEdit c e = true -> accounted c -> accounted (handle c e).
Proof.
  intros He (said & HP & HF). destruct c as [stored form lost sent toasts stale].
  unfold enabled, handle in *. cbn [ct_form ct_stored ct_lost] in *.
  destruct e as [stored'| | |text|flag| | |r|n r].
  9: { destruct (lost !! n) as [body|] eqn:El; [|by exists said]. apply answered_accounted. exists said. split; [|done].
       etrans; [exact HP|]. etrans; [apply Permutation_app_head, Permutation_app_tail, (delete_Permutation lost n body El)|].
       symmetry. apply (Permutation_middle said). }
  all: destruct form as [f|]; try done; try (by exists said).
  - exists said. split; [|done]. cbn in *. by rewrite HP, app_nil_r.
  - apply bool_decide_eq_true in He. destruct f as [t fl [b|]]; [done|]. exists said. split; [|done].
    cbn in *. rewrite HP, !app_nil_r. by rewrite <- app_assoc.
  - apply andb_prop in He as [He _]. apply bool_decide_eq_true in He. destruct f as [t fl [b|]]; [done|]. exists said. split; [|done].
    cbn in *. rewrite HP, !app_nil_r. by rewrite <- app_assoc.
  - destruct f as [t fl [b|]]; [|by exists said]. apply answered_accounted. exists said. split; [|done].
    cbn in *. rewrite HP, !app_nil_r. rewrite app_assoc. by rewrite Permutation_app_comm.
Qed.

Definition keeps_draft (e : Event) : bool := match e with labels_refreshed _ | settled (inr _) | lost_settled _ (inr _) => true | _ => false end.
Definition draft (c : Control) : option Body := (fun f => (fm_text f, fm_flag f)) <$> ct_form c.
Lemma kept_draft c e : keeps_draft e = true -> draft (handle c e) = draft c.
Proof.
  destruct c as [stored form lost sent toasts stale]. unfold draft, handle. cbn [ct_form].
  destruct e as [stored'| | |text|flag| | |[u|r]|n [u|r]]; try done; intros _; cbn.
  - destruct form as [[t fl [b|]]|]; done.
  - by destruct (lost !! n).
Qed.
Lemma bodies_sent c e : enabled canEdit c e = true ->
  ct_sent (handle c e) = ct_sent c ++ (if is_send e then match e, draft c with save_pressed, Some (t, flag) => [(trim t, flag)] | _, _ => [("", flag_none)] end else []).
Proof.
  destruct c as [stored form lost sent toasts stale]. unfold enabled, handle, draft. cbn [ct_form ct_lost].
  destruct e as [stored'| | |text|flag| | |r|n r]; try (destruct form as [f|]; try done; cbn; by rewrite ?app_nil_r).
  - destruct form as [[t fl [b|]]|]; try done. intros _. destruct r; cbn; by rewrite app_nil_r.
  - destruct (lost !! n); intros _; [|by rewrite app_nil_r]. destruct r; cbn; by rewrite app_nil_r.
Qed.

(** An aircraft is named once per click, and every click is answered.  For any
    run of the control: every body sent is under way, or was answered by exactly one
    toast of its own, which says it was cleared when the body was empty; a save sends
    the trimmed text and the flag on screen and nothing else sends anything but the
    empty body of "Clear"; no two saves of one form are under way together; what is
    being typed survives every refresh of the labels and every failure; and someone
    who is not an operator sends nothing. *)
Lemma a_label_is_saved_as_typed stored es :
  let c := run canEdit (shown stored) es in
  accounted c /\
  (forall e, enabled canEdit c e = true -> is_send e = true ->
     sending c = [] /\
     exists body, ct_sent (handle c e) = ct_sent c ++ [body] /\ sending (handle c e) = [body] /\
       (body = ("", flag_none) \/ exists t flag, draft c = Some (t, flag) /\ body = (trim t, flag))) /\
  (forall e, enabled canEdit c e = true -> is_send e = false -> ct_sent (handle c e) = ct_sent c) /\
  (forall es', forallb keeps_draft es' = true -> draft (run canEdit c es') = draft c) /\
  (canEdit = false -> ct_form c = None /\ ct_sent c = []).
Proof.
  assert (Hacc : forall es c, accounted c -> accounted (run canEdit c es)).
  { induction es0 as [|e es0 IH]; intros c Hc; [exact Hc|]. change (run canEdit c (e :: es0)) with (run canEdit (guarded (enabled canEdit) handle c e) es0).
    apply IH. unfold guarded. destruct (enabled canEdit c e) eqn:He; [by apply handle_accounted|done]. }
  intros c. split_and!.
  - apply Hacc. by exists [].
  - intros e He Hs. generalize dependent c. intros [st form lost sent toasts stale]. unfold enabled, sending, draft, handle. cbn [ct_form ct_stored].
    destruct e, form as [[t fl [b|]]|]; try done; intros _; (split; [done|]); eexists; (split; [done|]); (split; [done|]); cbn; eauto.
  - intros e He Hs. rewrite bodies_sent, Hs by done. by rewrite app_nil_r.
  - generalize c. clear. intros c es'. revert c. induction es' as [|e es' IH]; intros c H; [done|]. apply andb_prop in H as [Hk H].
    change (run canEdit c (e :: es')) with (run canEdit (guarded (enabled canEdit) handle c e) es'). rewrite IH by done.
    unfold guarded. destruct (enabled canEdit c e); [by apply kept_draft|done].
  - intros Hc. subst c. assert (forall es c, ct_form c = None /\ ct_sent c = [] /\ ct_lost c = [] -> ct_form (run canEdit c es) = None /\ ct_sent (run canEdit c es) = [] /\ ct_lost (run canEdit c es) = []) as HI; [|destruct (HI es (shown stored)) as (H1 & H2 & _); done].
    clear -Hc. induction es as [|e es IH]; intros c H; [exact H|]. apply IH. unfold guarded. destruct (enabled canEdit c e) eqn:He; [|done].
    destruct c as [st form lost sent toasts stale]; cbn in H; destruct H as (-> & -> & ->). unfold enabled, handle in *. cbn [ct_form ct_lost] in *.
    destruct e as [stored'| | |text|flag| | |r|n r]; try done; congruence.
Qed.
End Promise.

(** The answer to a save whose form was closed closes the form opened since, with
    what has been typed in it. *)
Lemma a_late_save_discards_the_next_draft c f body :
  ct_form c = Some f -> ct_lost c = [body] -> draft (handle c (lost_settled 0 (inl tt))) = None.
Proof. intros Hf Hl. destruct c; cbn in *; subst. by cbn. Qed.
Example a_late_save_in_a_run :
  let es := [opened; typed " Mini "; save_pressed; closed; labels_refreshed None; opened; typed "Neighbour's Mi"] in
  draft (run true (shown None) es) = Some ("Neighbour's Mi", flag_none) /\
  draft (run true (shown None) (es ++ [lost_settled 0 (inl tt)])) = None /\
  ct_sent (run true (shown None) es) = [("Mini", flag_none)].
Proof. vm_compute. done. Qed.
End Label.

(** ** use-aircraft-label.ts: the set, keyed by serial *)
Definition useAircraftLabels (data : option (list AircraftLabel)) : gmap string AircraftLabel :=
  fold_left (fun bySerial entry => <[al_serial entry := entry]> bySerial) (data ?? []) ∅.

(** It answers as the lookup of one serial does, when no serial has two labels. *)
Lemma labels_by_serial labels serial : List.NoDup (map al_serial labels) -> serial <> "" ->
  useAircraftLabels (Some labels) !! serial = Detail.useAircraftLabel labels (Some serial).
Proof.
  intros Hn Hs. unfold useAircraftLabels, Detail.useAircraftLabel. cbn [default].
  replace (truthy (Some serial)) with (Some serial) by (by destruct serial).
  cbn. assert (forall m : gmap string AircraftLabel,
    fold_left (fun bySerial entry => <[al_serial entry := entry]> bySerial) labels m !! serial =
    match List.find (fun entry => al_serial entry === serial) labels with Some l => Some l | None => m !! serial end) as H;
    [|rewrite H; by destruct (List.find _ _)].
  induction labels as [|l labels IH]; intros m; [done|]. inversion Hn as [|x k Hnot Hn']; subst. cbn [fold_left List.find]. rewrite IH by done.
  destruct (String.eqb_spec (al_serial l) serial) as [<-|Hne].
  - destruct (List.find _ labels) as [l'|] eqn:E; [|apply lookup_insert_eq].
    apply find_some in E as [Hin E%String.eqb_eq]. exfalso. apply Hnot. rewrite <- E. by apply in_map.
  - by rewrite lookup_insert_ne.
Qed.

(** ** event-timeline.tsx *)
Module Drawing.
Definition LANE_H : Z := 18.
Definition LANE_GAP : Z := 4.
Definition PAD_TOP : Z := 6.
Definition MIN_PX : Z := 6.

(** [new Date(n)] of a Number that is not whole: its integer part. *)
Definition date_of (n : num) : option Z := if nlt n (of_Z 0) then ceil_Z n else floor_Z n.

Definition trackLabel (track : Track) : string :=
  let serial := (tr_identity track ?. ti_serial) ?? "" in
  if serial !== "" then serial else (tr_identity track ?. ti_macs ≫= head) ?? "".
Definition stateClass (state : TrackState) : StatusPillTone :=
  match state with CONFIRMED => pill_ok | COASTING => pill_warn | CLOSED => pill_muted | TENTATIVE => pill_info end.

Inductive Anchor := anchor_start | anchor_middle | anchor_end.
Record Bar := {
  br_label : string; br_left : num; br_width : num; br_top : Z; br_selected : bool; br_text : string;
  br_tone : StatusPillTone; br_openStart : bool; br_openEnd : bool
}.

Section Draw.
(** What the caller prints of an instant. *)
Context (formatTime : string -> string) (window : TimelineWindow).
Definition x (ms : num) : num := nmul (fractionAt window ms) (of_Z 100).
Definition laneY (lane : nat) : Z := PAD_TOP + Z.of_nat lane * (LANE_H + LANE_GAP).
Definition height (events : list TimelineEvent) : Z :=
  let lanes := Z.max 1 (Z.of_nat (laneCount events)) in
  PAD_TOP * 2 + lanes * LANE_H + (lanes - 1) * LANE_GAP.

Definition bar_label (event : TimelineEvent) : string :=
  let track := te_track event in
  join ", " (List.filter (fun s => s !== "") [
    (if trackLabel track === "" then tr_track_id track else trackLabel track);
    toLowerCase (TrackState_string (tr_state track));
    formatTime (tr_first_seen track) +:+ " to " +:+ formatTime (tr_last_seen track);
    (if te_clippedStart event || te_clippedEnd event then "extends beyond this window" else "")]).
Definition EventBar (selectedId : option string) (event : TimelineEvent) : Bar :=
  let left := x (of_Z (te_fromMs event)) in
  let width := nmax (dec 4 1) (nsub (x (of_Z (te_toMs event))) left) in
  let track := te_track event in {|
    br_label := bar_label event; br_left := left; br_width := width; br_top := laneY (te_lane event);
    br_selected := match selectedId with Some id => tr_track_id track === id | None => false end;
    br_text := if ngt width (of_Z 6) then trackLabel track else "";
    br_tone := stateClass (tr_state track); br_openStart := te_clippedStart event; br_openEnd := te_clippedEnd event |}.

Definition anchor (at_ : num) : Anchor := if nlt at_ (of_Z 12) then anchor_start else if ngt at_ (of_Z 88) then anchor_end else anchor_middle.
Definition axis : list (num * Anchor * option string) :=
  map (fun t => (x (of_Z t), anchor (x (of_Z t)), formatTime <$> date_iso (Some t))) (ticks window 6).

(** The pointer over a band [width] pixels wide that starts at [left]. *)
Definition onPointerMove (clientX left width : num) (hoverMs : option num) : option num :=
  if nle width (of_Z 0) then hoverMs else Some (timeAt window (ndiv (nsub clientX left) width)).
(** The line under the pointer and its readout; [None] is the throw of a time that
    is no time. *)
Definition readout (hoverMs : option num) : option (option (num * Anchor * string)) :=
  match hoverMs with
  | None => Some None
  | Some ms => (fun iso => Some (x ms, anchor (x ms), formatTime iso)) <$> date_iso (date_of ms)
  end.
End Draw.

(** Bars do not cover each other: bars of different lanes are a gap apart on the
    page, bars of one lane a gap apart in time, and all are inside the band. *)
Lemma laneCount_above events e : In e events -> (te_lane e < laneCount events)%nat.
Proof.
  induction events as [|e' events IH]; [done|]. unfold laneCount. cbn [fold_left]. rewrite laneCount_ge.
  intros [->|H]; [lia|]. specialize (IH H). lia.
Qed.
Lemma bars_are_apart formatTime selectedId tracks w gapMs :
  tw_startMs w < tw_endMs w -> 0 <= gapMs ->
  let events := packLanes tracks w gapMs in
  let bar := EventBar formatTime w selectedId in
  (forall e, In e events -> PAD_TOP <= br_top (bar e) /\ br_top (bar e) + LANE_H + PAD_TOP <= height events) /\
  ForallOrdPairs (fun e e' =>
    br_top (bar e) + LANE_H + LANE_GAP <= br_top (bar e') \/ br_top (bar e') + LANE_H + LANE_GAP <= br_top (bar e) \/
    br_top (bar e) = br_top (bar e') /\ te_toMs e + gapMs <= te_fromMs e') events.
Proof.
  intros Hw Hg events bar. destruct (packLanes_spec tracks w gapMs Hw Hg) as (ends & _ & HP). split.
  - intros e He%laneCount_above. fold events in He. cbn [bar EventBar br_top]. unfold laneY, height, PAD_TOP, LANE_H, LANE_GAP. lia.
  - pose proof (pk_apart _ _ _ _ HP) as HA. fold events in HA. clear HP. clearbody events. induction HA as [|e es He HA IH]; constructor; [|done].
    eapply List.Forall_impl; [|exact He]. intros e' Ha. cbn [bar EventBar br_top]. unfold apart in Ha. unfold laneY, PAD_TOP, LANE_H, LANE_GAP.
    destruct (Nat.lt_trichotomy (te_lane e) (te_lane e')) as [H|[H|H]]; [lia| |lia]. specialize (Ha H). rewrite H. lia.
Qed.
(** A bar and the badge of its row have one tone. *)
Lemma bar_has_the_badges_tone formatTime w selectedId e :
  br_tone (EventBar formatTime w selectedId e) = fst (TracksList.EvidenceView.TrackStateBadge (tr_state (te_track e))).
Proof. cbn. by destruct (tr_state (te_track e)). Qed.
End Drawing.

(** ** flight-row.ts *)
Module FlightRow.
(** A node of the page: what is stamped on it, and whether it is an element that can
    be scrolled to. *)
Record Node := { nd_flight_id : option string; nd_scrolls : bool }.
Section Lookup.
(** The document, if there is one, and the nodes a selector of the attribute's value
    finds in it. *)
Context (querySelectorAll : option (string -> list Node)).
Definition scrollFlightIntoView (trackId : string) : list Node :=
  match querySelectorAll with
  | None => []
  | Some query => List.filter nd_scrolls (query trackId)
  end.
End Lookup.
Lemma only_the_flights_rows_move query trackId :
  (forall id n, In n (query id) -> nd_flight_id n = Some id) ->
  List.Forall (fun n => nd_flight_id n = Some trackId /\ nd_scrolls n = true) (scrollFlightIntoView (Some query) trackId).
Proof. intros Hq. apply List.Forall_forall. intros n [Hn Hs]%filter_In. split; [by apply Hq|done]. Qed.
End FlightRow.
