(* ===== verification/ContactRows.v ===== *)
(** * ContactRows: what a row says of a contact or a flight

    The rows of [features/map/contacts-panel.tsx] under the sections of [MapView],
    the numbers over them in [routes/index.tsx], and the cells of
    [features/tracks/flights-table.tsx] with [flight-quick-view.tsx] and
    [path-thumbnail.tsx].  Distances, dates and the operator's formats are
    parameters; what is drawn is data. *)
From Stdlib Require Import ZArith Bool String Ascii List Lia Permutation Sorted SpecFloat.
From stdpp Require Import base option list strings pretty gmap.
From S2P Require Import Prelude JsNumber JsString JsDate ApiTypes Format HealthView Flights FlightTime FlightFilters MapGeo ShareCard PathColour UnitPanels FlightsPage MapView FlightPage ConsoleSearch Ui TracksList AircraftLabels.

(** What [useFormat] closes over. *)
Record Formats := {
  fm_units : UnitSystem;
  fm_coords : CoordFormat;
  fm_style : TimestampStyle;
  fm_zone : TimeZone;
  fm_stamp : Z -> string;
  fm_clock : Z -> string
}.

Section Rows.
Context (distanceMetres bearingDegrees : num * num -> num * num -> num) (f : Formats) (now : Z).
Definition fmt_when (iso : string) : string := when_ (fm_clock f) (fm_style f) now (Some iso).
Definition fmt_length : option num -> string := UseFormat.length_ (fm_units f).
Definition fmt_range : option num -> string := UseFormat.range (fm_units f).
Definition fmt_speed : option num -> string := UseFormat.speed (fm_units f).
Definition fmt_timestamp (iso : string) : string := timestamp (fm_stamp f) (Some iso).
Definition fmt_duration (d : option num) : string := match d with None => "—" | Some d => formatDuration d end.
Definition count_of (n : Z) (one : string) : string := pretty n +:+ " " +:+ one +:+ (if n =? 1 then "" else "s").

(** ** contacts-panel.tsx *)

(** A drone: pressing the row selects it, or gives the selection up. *)
Record TrackRowView := {
  tw_name : string; tw_line : list string; tw_on_map : bool; tw_pressed : bool; tw_press : option string;
  tw_confidence : string; tw_chips : option (list EvidenceView.Chip); tw_operator : option string
}.
Definition TrackRow (selectedTrackId : option string) (track : Track) : TrackRowView :=
  let selected := bool_decide (Some (tr_track_id track) = selectedTrackId) in {|
    tw_name := (tr_identity track ?. ti_serial) ?? (tr_identity track ?. ti_macs ≫= head) ?? tr_track_id track;
    tw_line := [toLowerCase (TrackState_string (tr_state track)); fmt_when (tr_last_seen track)] ++
      match tr_current track with
      | Some current => ["hdg " +:+ formatHeading (ps_track_deg current); fmt_length (ps_height_agl_m current) +:+ " AGL"]
      | None => ["no position reported — not on map"]
      end;
    tw_on_map := hasPosition track;
    tw_pressed := selected; tw_press := if selected then None else Some (tr_track_id track);
    tw_confidence := formatConfidence (tr_confidence track);
    tw_chips := EvidenceView.EvidenceChips (tr_evidence track ?? []);
    tw_operator := match tr_operator track, tr_current track with
                   | Some pilot, Some current =>
                       Some ("Operator " +:+ fmt_range (Some (distanceMetres (latLon current) (latLon pilot))) +:+ " away, bearing " +:+
                             formatHeading (Some (bearingDegrees (latLon current) (latLon pilot))))
                   | _, _ => None
                   end |}.

(** A vendor match: its name, what is known of it, and the page it links to. *)
Definition UnidentifiedTrackRow (track : Track) : string * string * string :=
  ((tr_identity track ?. ti_macs ≫= head) ?? tr_track_id track,
   (match truthy (tr_identity track ?. ti_vendor) with Some vendor => vendor +:+ " hardware" | None => "vendor match" end) +:+
   " · seen " +:+ formatRelative (Some (tr_last_seen track)) now +:+ " · " +:+ pretty (tr_detection_count track) +:+ " detections",
   tr_track_id track).

(** A manned contact; [mw_press] is [None] when there is no address to select it by,
    and the details are there while it is selected. *)
Record DetailLine := { dl_label : string; dl_value : string; dl_warn : bool }.
Record MannedRowView := {
  mw_name : string; mw_altitude : string; mw_pressed : bool; mw_press : option (option string); mw_detail : option (list DetailLine)
}.
Definition manned_detail (d : Detection) : list DetailLine :=
  let position := dt_position d in
  let plain (l v : string) := {| dl_label := l; dl_value := v; dl_warn := false |} in
  [{| dl_label := "Position";
      dl_value := match position with Some p => formatCoordinatePair (dp_lat p) (dp_lon p) (fm_coords f) | None => "not reported — not on map" end;
      dl_warn := match position with Some _ => false | None => true end |};
   plain "Altitude" (UseFormat.altitudeFeet (fm_units f) (dt_adsb d ≫= ad_alt_ft))] ++
  match position ≫= dp_alt_geodetic_m with Some alt => [plain "GNSS altitude" (fmt_length (Some alt))] | None => [] end ++
  [plain "Ground speed" (fmt_speed (LiveView.manned_speed d));
   plain "Heading" (formatHeading (dt_kinematics d ≫= kn_track_deg));
   plain "Vertical rate" (fmt_speed (dt_kinematics d ≫= kn_vertical_speed_mps))] ++
  match dt_rf d ≫= rf_rssi_dbm with Some r => [plain "Signal" (formatRssi (Some r))] | None => [] end ++
  [plain "Last heard" (fmt_when (dt_ts d))].
Definition MannedRow (selectedMannedIcao : option string) (d : Detection) : MannedRowView :=
  let icao := ad_icao <$> dt_adsb d in
  let selected := match icao with Some i => bool_decide (Some i = selectedMannedIcao) | None => false end in {|
    mw_name := LiveView.manned_row_name d;
    mw_altitude := UseFormat.altitudeFeet (fm_units f) (dt_adsb d ≫= ad_alt_ft);
    mw_pressed := selected;
    mw_press := (fun i => if selected then None else Some i) <$> icao;
    mw_detail := if selected then Some (manned_detail d) else None |}.

(** An airframe: its title, what a pointer over it says, and its newest flights;
    the link carries the search it opens the flights page with. *)
Record FlightLine := { fl_id : string; fl_start : string; fl_duration : string }.
Record AircraftView := {
  av_title : string; av_serial : option string; av_hints : string; av_count : string; av_flights : list FlightLine; av_more : option (string * string)
}.
Definition AircraftFlights (label : option AircraftLabel) (g : AircraftGroup) : AircraftView :=
  let named := match label with Some l => ApiTypes.al_label l | None => "" end in
  let more := zlen (gr_flights g) - zlen (LiveView.shown_flights g) in {|
    av_title := if named === "" then gr_label g else named;
    av_serial := if named === "" then None else Some (gr_label g);
    av_hints := truthy (Some (join " · " (omap truthy [gr_vendor g; gr_uaType g]))) ?? "no vendor reported";
    av_count := count_of (zlen (gr_flights g)) "flight";
    av_flights := map (fun t => {| fl_id := tr_track_id t; fl_start := fmt_timestamp (tr_first_seen t); fl_duration := fmt_duration (flightDurationS t) |})
                      (LiveView.shown_flights g);
    av_more := if 0 <? more then Some (count_of more "more flight" +:+ " →", gr_label g) else None |}.

(** The sections as they are read, over the lists of [MapView]. *)
Record PanelView := {
  pw_drones : string * list TrackRowView;
  pw_shelf : option (string * option (list (string * string * string)));
  pw_closed : option (string * list AircraftView);
  pw_manned : string * list MannedRowView
}.
Definition titled_ (title : string) (n : Z) : string := title +:+ " (" +:+ pretty n +:+ ")".
Definition ContactsPanel (labels : option (list AircraftLabel)) (selectedTrackId selectedMannedIcao : option string)
    (shelfOpen : bool) (p : LiveView.Panel) : PanelView :=
  let bySerial := useAircraftLabels labels in {|
    pw_drones := (titled_ "Active drone tracks" (zlen (LiveView.pn_drones p)), map (TrackRow selectedTrackId) (LiveView.pn_drones p));
    pw_shelf := match LiveView.pn_shelf p with
                | [] => None
                | shelved => Some (titled_ "Unidentified RF" (zlen shelved), if shelfOpen then Some (map UnidentifiedTrackRow shelved) else None)
                end;
    pw_closed := (fun gs => (titled_ "Closed flights" (zlen (List.concat (map gr_flights gs))),
                             map (fun g => AircraftFlights (bySerial !! (gr_serial g ?? "")) g) gs)) <$> LiveView.pn_closed p;
    pw_manned := (titled_ "Manned traffic" (zlen (LiveView.pn_manned p)), map (MannedRow selectedMannedIcao) (LiveView.pn_manned p)) |}.
End Rows.

(** *** What the rows promise *)

(** A group is headed by one of its own flights. *)
Definition headed (g : AircraftGroup) : Prop :=
  exists u, In u (gr_flights g) /\ gr_key g = aircraftKey u /\ gr_label g = aircraftLabel u.
Lemma add_flight_headed t gs : List.Forall headed gs -> List.Forall headed (add_flight t gs).
Proof.
  induction 1 as [|g gs (u & Hin & Hk & Hl) Hgs IH]; cbn [add_flight].
  - constructor; [|constructor]. exists t. split; [by left|done].
  - destruct (gr_key g === aircraftKey t); constructor; try done; exists u; [|done].
    cbn. split; [apply in_app_iff; by left|done].
Qed.
Lemma groups_are_headed tracks : List.Forall headed (groupByAircraft tracks).
Proof.
  unfold groupByAircraft. rewrite List.Forall_forall. intros g Hg%sort_by_In. revert g Hg. rewrite <- List.Forall_forall.
  assert (List.Forall headed []) as H by constructor. revert H. generalize (@nil AircraftGroup).
  induction tracks as [|t tracks IH]; intros gs Hgs; [done|]. cbn. by apply IH, add_flight_headed.
Qed.

(** Flights of one airframe are found by the name any of them gives it. *)
Lemma label_is_a_part t u : aircraftKey t = aircraftKey u -> aircraftLabel u = "" \/ In (Some (aircraftLabel u)) (Box.identity_parts t).
Proof.
  unfold aircraftKey, aircraftLabel, Box.identity_parts. intros H.
  assert (forall a b, "serial:" +:+ a = "serial:" +:+ b -> a = b) as Hs by (intros a b E; by injection E).
  assert (forall a b, "mac:" +:+ a = "mac:" +:+ b -> a = b) as Hm by (intros a b E; by injection E).
  assert (forall a b, "track:" +:+ a = "track:" +:+ b -> a = b) as Ht by (intros a b E; by injection E).
  destruct (tr_identity u ?. ti_serial) as [[|c s]|] eqn:Eu; [by left| |].
  - right. cbn [default]. cbn [truthy] in H. change (truthy (Some (String c s))) with (Some (String c s)) in H. cbv beta iota in H.
    destruct (truthy (tr_identity t ?. ti_serial)) as [s'|] eqn:Et; [|by destruct (truthy (primaryMac t))].
    apply Hs in H as ->. left. destruct (tr_identity t ?. ti_serial) as [[|? ?]|]; cbn in Et; congruence.
  - change (truthy (@None string)) with (@None string) in H. cbv beta iota in H.
    destruct (primaryMac u) as [[|c m]|] eqn:Em; [by left| |]; right; cbn [default].
    + change (truthy (Some (String c m))) with (Some (String c m)) in H. cbv beta iota in H.
      destruct (truthy (tr_identity t ?. ti_serial)); [done|]. destruct (truthy (primaryMac t)) as [m'|] eqn:Et; [|done].
      apply Hm in H as ->. apply in_app_iff. right. apply in_map.
      unfold primaryMac in Et. destruct (tr_identity t ?. ti_macs) as [[|m0 ms]|]; try done. left. destruct m0; [done|]. change (truthy (Some (String a m0))) with (Some (String a m0)) in Et. congruence.
    + change (truthy (@None string)) with (@None string) in H. cbv beta iota in H.
      destruct (truthy (tr_identity t ?. ti_serial)); [done|]. destruct (truthy (primaryMac t)); [done|].
      apply Ht in H as ->. apply in_app_iff. left. do 5 right. by left.
Qed.

(** The link under an aircraft opens the flights page on a search that every one of
    its flights passes, and stands for those the panel leaves out. *)
Lemma link_finds_its_flights {zone : Zone} f tracks g label (utc : bool) (filters : FlightFilters) :
  In g (groupByAircraft tracks) ->
  let v := AircraftFlights f label g in
  (forall text q t, av_more v = Some (text, q) -> ff_q filters = Some q -> In t (gr_flights g) -> matchesFacet t facet_q filters utc = true) /\
  (av_more v = None <-> zlen (av_flights v) = zlen (gr_flights g)) /\ zlen (av_flights v) <= 3.
Proof.
  intros Hg. pose proof (groups_partition tracks) as [[_ Hof _] _]. pose proof (groups_are_headed tracks) as Hh.
  rewrite List.Forall_forall in Hof, Hh. destruct (Hh g Hg) as (u & _ & Hk & Hl). pose proof (go_flights _ _ (Hof g Hg)) as Hf.
  cbv zeta. cbn [AircraftFlights av_more av_flights].
  assert (zlen (LiveView.shown_flights g) <= zlen (gr_flights g) /\ zlen (LiveView.shown_flights g) <= 3) as [H1 H2].
  { unfold LiveView.shown_flights, zlen, LiveView.FLIGHTS_PER_AIRCRAFT. rewrite length_take. lia. }
  split_and!.
  - intros text q t Hm Hq Ht. destruct (0 <? _); [|done]. injection Hm as _ <-.
    rewrite Hf in Ht. apply filter_In in Ht as [_ Ht%String.eqb_eq]. rewrite Hl in *.
    destruct (label_is_a_part t u ltac:(congruence)) as [E|Hin].
    + rewrite E in Hq. unfold matchesFacet. by rewrite Hq.
    + destruct (String.eqb_spec (aircraftLabel u) "") as [E|Hne]; [rewrite E in Hq; unfold matchesFacet; by rewrite Hq|].
      by apply (Box.part_is_found t (aircraftLabel u)).
  - unfold zlen in *. rewrite length_map. destruct (Z.ltb_spec 0 (Z.of_nat (List.length (gr_flights g)) - Z.of_nat (List.length (LiveView.shown_flights g)))); split; try done; lia.
  - unfold zlen in *. by rewrite length_map.
Qed.

(** A drone's row says that it is not on the map exactly when it is not, one that is
    pressed gives the selection up, and any other takes it. *)
Lemma row_agrees_with_the_map d b f now selected track :
  let v := TrackRow d b f now selected track in
  (tw_on_map v = false <-> tw_line v = [toLowerCase (TrackState_string (tr_state track)); fmt_when f now (tr_last_seen track); "no position reported — not on map"]) /\
  (tw_pressed v = true <-> selected = Some (tr_track_id track)) /\
  tw_press v = (if tw_pressed v then None else Some (tr_track_id track)).
Proof.
  cbv zeta. cbn [TrackRow tw_on_map tw_line tw_pressed tw_press]. split_and!; [| |done].
  - unfold hasPosition. destruct (tr_current track); cbn [app]; split; done.
  - rewrite bool_decide_eq_true. split; congruence.
Qed.
(** The details of a manned contact are there exactly while it is the one selected. *)
Lemma details_follow_the_selection f now selected d :
  let v := MannedRow f now selected d in
  (mw_detail v <> None <-> exists a, dt_adsb d = Some a /\ selected = Some (ad_icao a)) /\
  (mw_press v = None <-> dt_adsb d = None).
Proof.
  cbv zeta. cbn [MannedRow mw_detail mw_press]. destruct (dt_adsb d) as [a|]; cbn.
  - destruct (bool_decide (Some (ad_icao a) = selected)) eqn:E.
    + apply bool_decide_eq_true in E. split; [|done]. split; [intros _; by exists a|done].
    + apply bool_decide_eq_false in E. split; [|done]. split; [done|]. intros (a' & [= <-] & Hs). congruence.
  - split; [|done]. split; [done|]. by intros (a & ? & _).
Qed.

(** ** The live page's numbers *)
Record Tile := { ti_id : string; ti_value : Z; ti_tone : string; ti_hint : string }.
Definition airspaceSummary (v : LiveView.View) : list Tile :=
  let active := zlen (LiveView.vw_map_tracks v) in
  [{| ti_id := "active"; ti_value := active; ti_tone := "default"; ti_hint := "tracks fusion is watching" |};
   {| ti_id := "confirmed"; ti_value := LiveView.vw_confirmed v; ti_tone := if 0 <? LiveView.vw_confirmed v then "ok" else "default";
      ti_hint := "corroborated by evidence" |};
   {| ti_id := "manned"; ti_value := zlen (LiveView.vw_adsb v); ti_tone := "default"; ti_hint := "ADS-B, context only" |};
   {| ti_id := "unplotted"; ti_value := LiveView.vw_unplotted v; ti_tone := if 0 <? LiveView.vw_unplotted v then "warn" else "muted";
      ti_hint := if 0 <? LiveView.vw_unplotted v then "in the list, not on the map" else "all tracks plotted" |}].
(** Below the wide layout one pane at a time, the banner over both. *)
Inductive Pane := pane_map | pane_list.
Definition panes (wide : bool) (mobilePane : Pane) : list Pane := if wide then [pane_map; pane_list] else [mobilePane].
Definition pane_options (v : LiveView.View) : list (Pane * string) :=
  [(pane_map, "Map"); (pane_list, "Contacts (" +:+ pretty (LiveView.vw_contactCount v) +:+ ")")].

(** ** flights-table.tsx *)
Module FlightCells.
Section Cells.
Context {T : Trig} (distanceMetres : num * num -> num * num -> num) (f : Formats) (dayLabel : Z -> bool -> string).

(** *** path-thumbnail.tsx *)
Definition WIDTH : num := of_Z 72.
Definition HEIGHT : num := of_Z 28.
Definition PADDING : num := of_Z 3.
Definition MAX_POINTS : nat := 64.
Definition at_ (p : Position) : LatLon := {| ll_lat := ps_lat p; ll_lon := ps_lon p |}.
Inductive Thumbnail :=
| no_fix
| single_fix (coordinate : string)
| path_drawn (shape : PathShape.PathShape) (points : string) (coordinate : option string) (label : string) (scale : string).
Definition PathThumbnail (track : Track) (receiver : option ReceiverPosition) : Thumbnail :=
  let positions := flightPositions track in
  let shape := PathShape.projectPath (PathShape.simplifyPath (map at_ positions) MAX_POINTS) {|
    PathShape.po_width := WIDTH; PathShape.po_height := HEIGHT; PathShape.po_padding := PADDING;
    PathShape.po_receiver := (fun r => {| ll_lat := rp_lat r; ll_lon := rp_lon r |}) <$> receiver;
    PathShape.po_operator := at_ <$> tr_operator track |} in
  let coordinate := (fun p => formatCoordinatePair (ps_lat p) (ps_lon p) (fm_coords f)) <$> last positions in
  match shape with
  | None => match coordinate with Some c => single_fix c | None => no_fix end
  | Some shape =>
      path_drawn shape (PathShape.polylinePoints (PathShape.sh_path shape)) coordinate
        ("Flight path, " +:+ pretty (zlen positions) +:+ " points")
        (match receiver with
         | Some _ => "Receiver at centre — thumbnails of the same aircraft are to a comparable scale."
         | None => "Fitted to the path. Set a receiver position to compare flights by extent."
         end)
  end.

(** *** Cells *)
Inductive Cell :=
| cell_text (s : string)
| cell_path (t : Thumbnail)
| cell_operator (located : bool)
| cell_detections (n : Z) (evidence : option (list EvidenceView.Chip))
| no_cell.
Definition flightCell (column : string) (track : Track) (receiver : option ReceiverPosition) : Cell :=
  if column === "start" then cell_text (fmt_timestamp f (tr_first_seen track))
  else if column === "duration" then cell_text (fmt_duration (flightDurationS track))
  else if column === "path" then cell_path (PathThumbnail track receiver)
  else if column === "range" then cell_text (fmt_range f (maxRangeM distanceMetres track receiver))
  else if column === "agl" then cell_text (fmt_length f (maxHeightAglM track))
  else if column === "operator" then cell_operator (hasOperatorFix track)
  else if column === "detections" then cell_detections (tr_detection_count track) (EvidenceView.EvidenceChips (tr_evidence track ?? []))
  else if column === "rssi" then cell_text (formatRssi (tr_rssi_dbm track))
  else no_cell.

(** A header: its text, how the column is sorted, and what pressing it asks for. *)
Inductive AriaSort := sort_ascending | sort_descending | sort_none.
Definition SortableHeader (column : FlightsPage.Page.FlightColumn) (sort : string) : string * option AriaSort * option string :=
  let parsed := parseFlightSort sort in
  let id := FlightsPage.Page.fc_id column in
  let label := FlightsPage.Page.fc_label column in
  ((if id === "start" then label +:+ " (" +:+ zoneLabel (fm_zone f) +:+ ")" else label),
   (fun c => if parsed.1 === FlightsPage.Page.column_string c then (if parsed.2 then sort_descending else sort_ascending) else sort_none) <$> FlightsPage.Page.fc_sort column,
   (fun c => FlightsPage.Page.nextSort sort c) <$> FlightsPage.Page.fc_sort column).

(** The header of a group, as one line of parts. *)
Definition span (utc : bool) (g : AircraftGroup) : option string :=
  match gr_firstSeenMs g, gr_lastSeenMs g with
  | Some first, Some last =>
      let from := dayLabel first utc in
      let to := dayLabel last utc in
      Some (if from === to then from else from +:+ " – " +:+ to)
  | _, _ => None
  end.
Definition GroupSummary (utc : bool) (g : AircraftGroup) : string * option string * string :=
  (gr_label g,
   (match gr_vendor g, gr_uaType g with
    | None, None => None
    | v, u => Some (join " · " (omap truthy [v; u]))
    end),
   count_of (zlen (gr_flights g)) "flight" +:+ match span utc g ≫= (fun s => truthy (Some s)) with Some s => " · " +:+ s | None => "" end).

(** The card of a narrow screen. *)
Definition FlightCard (track : Track) (receiver : option ReceiverPosition) : Thumbnail * string * string * list (string * Cell) :=
  (PathThumbnail track receiver, fmt_timestamp f (tr_first_seen track),
   fmt_duration (flightDurationS track) +:+ " · " +:+ fmt_range f (maxRangeM distanceMetres track receiver) +:+ " · " +:+
   pretty (tr_detection_count track) +:+ " det",
   [("Max AGL", flightCell "agl" track receiver); ("Peak RSSI", flightCell "rssi" track receiver); ("Operator", flightCell "operator" track receiver)]).
Definition quick_view_label (expanded : bool) (track : Track) : string :=
  (if expanded then "Hide" else "Show") +:+ " quick view for the flight starting " +:+ fmt_timestamp f (tr_first_seen track).

(** *** flight-quick-view.tsx *)
Record QuickView := { qv_map : option string; qv_facts : list (string * string); qv_chips : option (list EvidenceView.Chip) }.
Definition FlightQuickView (track : Track) (receiver : option ReceiverPosition) : QuickView := {|
  qv_map := match plottablePoints [track] with [] => None | _ => Some ("Flight path for " +:+ aircraftLabel track) end;
  qv_facts := [
    ("Window", clock (fm_clock f) (Some (tr_first_seen track)) +:+ " – " +:+ clock (fm_clock f) (Some (tr_last_seen track)));
    ("Duration", fmt_duration (flightDurationS track));
    ("Max range", fmt_range f (maxRangeM distanceMetres track receiver));
    ("Max height AGL", fmt_length f (maxHeightAglM track));
    ("Detections", pretty (tr_detection_count track));
    ("Operator", if hasOperatorFix track then "located" else "not located")];
  qv_chips := EvidenceView.EvidenceChips (tr_evidence track ?? []) |}.

(** *** What the cells promise *)

Lemma simplified_is_still_a_path {A} (points : list A) n : (2 < n)%nat -> (2 <= List.length points)%nat ->
  (2 <= List.length (PathShape.simplifyPath points n))%nat.
Proof.
  intros Hn Hp. unfold PathShape.simplifyPath. set (k := List.length points) in *.
  destruct ((n <? 2)%nat || (k <=? n)%nat) eqn:E; [done|]. apply orb_false_elim in E as [_ E%Nat.leb_gt].
  rewrite length_map. set (placed := zip (seq 0 k) points). set (stride := PathShape.ceil_div k (n - 1)).
  assert (List.length placed = k) as Hl by (unfold placed; rewrite length_zip_with, length_seq; unfold k; lia).
  assert (stride < k)%nat as Hs.
  { unfold stride, PathShape.ceil_div. apply Nat.Div0.div_lt_upper_bound. nia. }
  assert (2 <= List.length (PathShape.strided k stride placed))%nat as Hk.
  { destruct k as [|[|k]]; [lia|lia|]. destruct placed as [|x l] eqn:Ep; [done|]. cbn [PathShape.strided List.length].
    destruct (drop stride (x :: l)) as [|y l'] eqn:Ed; [|cbn; lia].
    apply (f_equal List.length) in Ed. rewrite length_drop, Hl in Ed. cbn in Ed. lia. }
  destruct (last placed) as [[? ?]|]; [|done]. destruct (last (PathShape.strided k stride placed)) as [[? ?]|]; rewrite ?length_app; cbn [fst]; [|lia].
  destruct (Nat.eqb _ _); rewrite ?length_app; lia.
Qed.

(** A row shows a path of a flight with two positions, the one fix of a flight with
    one, and says that there is none exactly when there is none. *)
Lemma thumbnail_is_of_the_positions track receiver :
  match PathThumbnail track receiver with
  | no_fix => flightPositions track = []
  | single_fix c => exists p, flightPositions track = [p] /\ c = formatCoordinatePair (ps_lat p) (ps_lon p) (fm_coords f)
  | path_drawn shape _ coordinate _ _ =>
      (2 <= List.length (flightPositions track))%nat /\ (2 <= List.length (PathShape.sh_path shape))%nat /\ coordinate <> None
  end.
Proof.
  unfold PathThumbnail. set (positions := flightPositions track). clearbody positions.
  destruct positions as [|p [|q positions]]; [done|by exists p|].
  assert (2 <= List.length (PathShape.simplifyPath (map at_ (p :: q :: positions)) MAX_POINTS))%nat as H.
  { apply simplified_is_still_a_path; [unfold MAX_POINTS; lia|]. cbn; lia. }
  unfold PathShape.projectPath. destruct (Z.ltb_spec (zlen (PathShape.simplifyPath (map at_ (p :: q :: positions)) MAX_POINTS)) 2) as [Hlt|Hge];
    [unfold zlen in Hlt; lia|]. split; [cbn; lia|]. split; [by cbn [PathShape.sh_path]; rewrite length_map|].
  rewrite last_cons_cons. destruct (last (q :: positions)) eqn:E; [done|]. by apply last_None in E.
Qed.

(** One header at most says that the list is in its order, the one that is; pressing
    a header asks for its own column, the other way round when it is in order. *)
Lemma headers_tell_the_order sort column c : In sort FLIGHT_SORT_VALUES -> FlightsPage.Page.fc_sort column = Some c ->
  exists label aria next, SortableHeader column sort = (label, Some aria, Some next) /\
    In next FLIGHT_SORT_VALUES /\
    (aria <> sort_none <-> (parseFlightSort sort).1 = FlightsPage.Page.column_string c) /\
    (parseFlightSort next).1 = FlightsPage.Page.column_string c /\
    (parseFlightSort next).2 = match aria with sort_descending => false | _ => true end.
Proof.
  intros Hs Hc. unfold SortableHeader. rewrite Hc. cbn [fmap option_fmap option_map].
  destruct (FlightsPage.View.nextSort_spec sort c Hs) as [Hin Hp]. eexists _, _, _. split; [done|]. rewrite Hp. cbn [fst snd].
  destruct (String.eqb_spec (parseFlightSort sort).1 (FlightsPage.Page.column_string c)) as [->|Hne]; split_and!; try done.
  - by destruct (parseFlightSort sort).2.
  - by destruct (parseFlightSort sort).2.
Qed.
End Cells.
End FlightCells.
