(* ===== verification/SettingsPages.v ===== *)
(** * SettingsPages: the pages of settings

    [routes/settings.tsx] with [features/settings/categories.ts] (the nav and whom a
    page's changes affect), [features/settings/controls.tsx] and the pages of this
    browser, [routes/settings/general.tsx], [appearance.tsx], [notifications.tsx],
    [map.tsx], [tracks.tsx], [sensors.tsx] and [logs.tsx]; the receiver's
    [data.tsx] and [about.tsx].  A page is a function of the preferences whose
    controls carry their callbacks; a session is the presses on them. *)
From Stdlib Require Import ZArith Bool String Ascii List Lia Permutation SpecFloat.
From stdpp Require Import base tactics option list strings pretty.
From S2P Require Import Prelude JsNumber JsString JsParse JsDate ApiTypes Format LogStore Notifications HealthView Transport MapView PathColour Preferences SettingsForms Access UnitPanels Ui TracksList.

(** ** categories.ts and settings.tsx: where one is *)
Module Navigation.

Inductive SettingsScope := scope_browser | scope_receiver.
#[export] Instance SettingsScope_eq_dec : EqDecision SettingsScope.
Proof. solve_decision. Defined.

Record SettingsCategory := { sc_to : string; sc_label : string; sc_hint : string; sc_scope : SettingsScope }.
Definition category (to label hint : string) (scope : SettingsScope) : SettingsCategory :=
  {| sc_to := to; sc_label := label; sc_hint := hint; sc_scope := scope |}.
Definition SETTINGS_CATEGORIES : list SettingsCategory := [
  category "/settings/general" "General" "Units, coordinates, time" scope_browser;
  category "/settings/appearance" "Appearance" "Theme, text size, density" scope_browser;
  category "/settings/notifications" "Notifications" "What reaches the drawer" scope_browser;
  category "/settings/map" "Live map" "Legend and contacts panel" scope_browser;
  category "/settings/tracks" "Tracks" "Flight path colouring" scope_browser;
  category "/settings/sensors" "Sensors" "Restart confirmation" scope_browser;
  category "/settings/logs" "Logs" "Buffer size and follow" scope_browser;
  category "/settings/calibration" "Calibration" "Channel plan, fusion weights" scope_receiver;
  category "/settings/data" "External data" "ADS-B, terrain, registries" scope_receiver;
  category "/settings/storage" "Storage" "Disk, fill rate, retention" scope_receiver;
  category "/settings/about" "About" "Build, configuration, host" scope_receiver].

Definition SCOPE_LABEL (s : SettingsScope) : string :=
  match s with scope_browser => "This browser" | scope_receiver => "This receiver" end.
Definition SCOPE_HINT (s : SettingsScope) : string :=
  match s with
  | scope_browser => "Applied immediately, stored here, affects nobody else"
  | scope_receiver => "Shared by every client, stored on the Pi, may need a restart"
  end.
Definition SCOPE_BODY (s : SettingsScope) : string :=
  match s with
  | scope_browser => "applied the moment you change it, stored in this browser, and invisible to every other client. Nothing here can alter a measurement."
  | scope_receiver => "stored on the Pi and shared by every client, so it is saved deliberately rather than as you type. Some of it only takes effect after a restart, and the page says which."
  end.
Definition SCOPE_ORDER : list SettingsScope := [scope_browser; scope_receiver].

Definition under (pathname to : string) : bool :=
  (pathname === to) || match startsWith (to +:+ "/") pathname with Some _ => true | None => false end.
Definition current (pathname : string) : option SettingsCategory :=
  List.find (fun entry => under pathname (sc_to entry)) SETTINGS_CATEGORIES.
(** The scope's label and body, above the page. *)
Definition ScopeNote (pathname : string) : option (string * string) :=
  match current pathname with
  | None => None
  | Some c => Some (SCOPE_LABEL (sc_scope c), SCOPE_BODY (sc_scope c))
  end.

Record Group := { ng_label : string; ng_hint : string; ng_categories : list SettingsCategory }.
Definition SettingsNav : list Group :=
  map (fun scope => {| ng_label := SCOPE_LABEL scope; ng_hint := SCOPE_HINT scope;
                       ng_categories := List.filter (fun c => bool_decide (sc_scope c = scope)) SETTINGS_CATEGORIES |}) SCOPE_ORDER.

(** Each category has one entry, under the label of its own scope. *)
Lemma each_category_is_listed :
  Permutation (flat_map ng_categories SettingsNav) SETTINGS_CATEGORIES /\
  List.NoDup (map sc_to SETTINGS_CATEGORIES) /\
  (forall g c, In g SettingsNav -> In c (ng_categories g) -> ng_label g = SCOPE_LABEL (sc_scope c)).
Proof.
  split_and!.
  - reflexivity.
  - repeat (constructor; [cbn; intuition discriminate|]). constructor.
  - intros g c (scope & <- & _)%in_map_iff Hc. cbn [ng_categories ng_label] in *. apply filter_In in Hc as [_ Hc].
    by apply bool_decide_eq_true in Hc as ->.
Qed.

(** The note above a category's page, and above what lies under it, is of its own
    scope; a path that only begins alike has none of it. *)
Lemma note_is_of_the_page c rest : In c SETTINGS_CATEGORIES ->
  current (sc_to c) = Some c /\ current (sc_to c +:+ "/" +:+ rest) = Some c.
Proof. intros Hc. cbn in Hc. repeat (destruct Hc as [<-|Hc]; [by split|]). destruct Hc. Qed.
Example no_note : (ScopeNote "/settings", ScopeNote "/settings/mapping", fst <$> ScopeNote "/settings/map/legend") =
  (None, None, Some "This browser").
Proof. reflexivity. Qed.
End Navigation.

(** ** controls.tsx, segmented.tsx and select.tsx *)
Module Controls.

(** What a control's callback does. *)
Inductive Act :=
| sets (key : string) (value : json)
| sets_theme (t : Theme.ThemePreference)
| resets
| logs (line : LogInput)
| toasts (title kind : string)
| plays (kind : AlertKind).

Record Choice := { op_value : string; op_label : string; op_hint : option string }.
Definition choice (value label : string) : Choice := {| op_value := value; op_label := label; op_hint := None |}.
Definition hinted (value label hint : string) : Choice := {| op_value := value; op_label := label; op_hint := Some hint |}.

Inductive Control :=
| segmented (value : option json) (options : list Choice) (onValueChange : string -> list Act)
| select_ (value : option json) (options : list Choice) (onValueChange : string -> list Act)
| switch (checked : bool) (onCheckedChange : bool -> list Act)
| button (text : string) (onClick : list Act).

(** What the library reports of a gesture: the values of the toggles that are down,
    the item picked, the switch's new position, a click. *)
Inductive Gesture := chooses (next : list string) | picks (value : string) | turns (checked : bool) | clicks.
Definition acts (c : Control) (g : Gesture) : list Act :=
  match c, g with
  | segmented _ _ f, chooses next => match Segmented_onValueChange next with Some chosen => f chosen | None => [] end
  | select_ _ _ f, picks value => f value
  | switch _ f, turns checked => f checked
  | button _ onClick, clicks => onClick
  | _, _ => []
  end.

(** A row: a labelled control, a panel of examples ([None] where printing them
    throws, and the page with it), or a notice. *)
Inductive Row :=
| setting (label : string) (hint : option string) (c : Control)
| preview (title : string) (rows : option (list (string * string)))
| alert (n : Notice).
Record Card := { cd_title : string; cd_description : string; cd_rows : list Row }.
Definition card (title description : string) (rows : list Row) : Card :=
  {| cd_title := title; cd_description := description; cd_rows := rows |}.

Definition control_of (r : Row) : option Control := match r with setting _ _ c => Some c | _ => None end.
Definition controls_of (cards : list Card) : list Control := omap control_of (flat_map cd_rows cards).
(** A page is drawn unless one of its panels throws. *)
Definition draws (cards : list Card) : bool :=
  forallb (fun r => match r with preview _ None => false | _ => true end) (flat_map cd_rows cards).

(** What the operator sees of a control: which options are down, or whether it is on. *)
Definition is_on (value : option json) (o : Choice) : bool :=
  match value with Some v => Stored.strictly_equal (JStr (op_value o)) v | None => false end.
Definition face (c : Control) : list bool :=
  match c with
  | segmented value options _ | select_ value options _ => map (is_on value) options
  | switch checked _ => [checked]
  | button _ _ => []
  end.

(** The gestures a control takes, and what it is to show after one: pressing the
    toggle that is down puts none down, which changes nothing. *)
Definition offers (value : string) (options : list Choice) : bool := existsb (fun o => op_value o === value) options.
Definition takes (c : Control) (g : Gesture) : bool :=
  match c, g with
  | segmented _ _ _, chooses [] => true
  | segmented _ options _, chooses [value] => offers value options
  | select_ _ options _, picks value => offers value options
  | switch _ _, turns _ => true
  | button _ _, clicks => true
  | _, _ => false
  end.
Definition only (value : string) (options : list Choice) : list bool := map (fun o => op_value o === value) options.
Definition face_after (c : Control) (g : Gesture) : list bool :=
  match c, g with
  | segmented _ options _, chooses [value] => only value options
  | select_ _ options _, picks value => only value options
  | switch _ _, turns checked => [checked]
  | _, _ => face c
  end.
End Controls.

(** ** The pages of this browser *)
Module Pages.
Import Stored Controls.

(** [String(v)] and [Number(v)] of a parsed value. *)
Fixpoint js_String (v : json) : string :=
  match v with
  | JNull => "null"
  | JBool b => if b then "true" else "false"
  | JNum n => num_string n
  | JStr s => s
  | JArr l => join "," (map (fun x => match x with JNull => "" | _ => js_String x end) l)
  | JObj _ => "[object Object]"
  end.
Definition js_Number (v : json) : num :=
  match v with
  | JNull => of_Z 0
  | JBool b => of_Z (if b then 1 else 0)
  | JNum n => n
  | JStr s => Number s
  | _ => Number (js_String v)
  end.
Definition js_truthy (v : option json) : bool :=
  match v with
  | None | Some JNull => false
  | Some (JBool b) => b
  | Some (JNum n) => negb (is_nan n || neq n (of_Z 0))
  | Some (JStr s) => s !== ""
  | Some _ => true
  end.

(** A preference and the handler that sets it. *)
Definition set_string (key value : string) : list Act := [sets key (JStr value)].
Definition set_bool (key : string) (checked : bool) : list Act := [sets key (JBool checked)].
Definition stored_switch (p : Fields) (key : string) : Control := switch (js_truthy (assoc key p)) (set_bool key).
Definition stored_choice (p : Fields) (key : string) (options : list Choice) : Control :=
  segmented (assoc key p) options (set_string key).

(** *** general.tsx, over units.ts *)
Definition UNIT_SYSTEMS : list Choice := [
  hinted "metric" "Metric" "metres, m/s, kilometres"; hinted "aviation" "Aviation" "feet, knots, nautical miles";
  hinted "imperial" "Imperial" "feet, mph, miles"].
Definition COORD_FORMATS : list Choice := [
  hinted "decimal" "Decimal degrees" "51.477500, -0.001400"; hinted "ddm" "Degrees + minutes" "51°28.650' N, 0°00.084' W";
  hinted "dms" "Degrees/min/sec" ("51°28'39.0" +:+ quote2 +:+ " N, 0°00'05.0" +:+ quote2 +:+ " W")].
Definition TIMESTAMP_STYLES : list Choice := [
  hinted "both" "Both" "02:14:07 (18m ago)"; hinted "relative" "Relative" "18m ago"; hinted "absolute" "Absolute" "02:14:07"].

(** The stored words as use-format.ts takes them: an unknown unit is none of the
    cases of [convertRange] and [convertSpeed], an unknown coordinate format is the
    last. *)
Definition is_string (v : option json) (s : string) : bool := match v with Some (JStr t) => t === s | _ => false end.
Definition as_units (v : option json) : option UnitSystem :=
  if is_string v "metric" then Some metric
  else if is_string v "aviation" then Some aviation
  else if is_string v "imperial" then Some imperial else None.
Definition as_coordFormat (v : option json) : CoordFormat :=
  if is_string v "decimal" then cf_decimal else if is_string v "ddm" then cf_ddm else cf_dms.
Definition as_timestampStyle (v : option json) : option TimestampStyle :=
  if is_string v "relative" then Some style_relative
  else if is_string v "absolute" then Some style_absolute
  else if is_string v "both" then Some style_both else None.

Definition browserZone (resolved : option string) : string := truthy resolved ?? "device time".

Definition unit_preview (p : Fields) : option (list (string * string)) :=
  match as_units (assoc "units" p) with
  | None => None
  | Some units => Some [
      ("Height AGL", UseFormat.length_ units (Some (dec 1224 1)));
      ("Ground speed", UseFormat.speed units (Some (dec 142 1)));
      ("Operator range", UseFormat.range units (Some (of_Z 1840)));
      ("Position", formatCoordinatePair (dec 514775 4) (dec (-14) 4) (as_coordFormat (assoc "coordFormat" p)))]
  end.

Section General.
(** What Intl prints of an instant under the preferences, the browser's zone, and
    the instant of the sample with the present one. *)
Context (stamp clockFmt : Fields -> Z -> string) (zone : option string) (sample : string) (now : Z).

Definition GeneralSettings (p : Fields) : list Card := [
  card "Units" "How measurements are written down here. Detections are recorded in SI and converted only for display, so neither of these alters a stored value." [
    setting "Unit system" (Some "Altitude, height above ground, speed and range.")
      (segmented (assoc "units" p) UNIT_SYSTEMS
         (fun value => [sets "units" (JStr value); logs (log.action ("Units set to " +:+ value) None)]));
    setting "Coordinate format" (Some "Every position in the interface.")
      (select_ (assoc "coordFormat" p)
         (map (fun entry => choice (op_value entry) (op_label entry +:+ " — " +:+ (op_hint entry ?? ""))) COORD_FORMATS)
         (set_string "coordFormat"));
    preview "With these settings" (unit_preview p)];
  card "Time" "Applies to every timestamp in the interface. UTC is the default." [
    setting "Time zone" None (stored_choice p "timeZone" [hinted "utc" "UTC" "shared reference"; hinted "local" "Local" (browserZone zone)]);
    setting "Clock" None (stored_choice p "clock" [choice "24h" "24-hour"; choice "12h" "12-hour"]);
    setting "Timestamp style" None (stored_choice p "timestampStyle" TIMESTAMP_STYLES);
    preview "A detection from four minutes ago" (Some [
      ("Last seen", match as_timestampStyle (assoc "timestampStyle" p) with
                    | Some style => when_ (clockFmt p) style now (Some sample)
                    | None => ""
                    end);
      ("Full timestamp", timestamp (stamp p) (Some sample))])]].
End General.

(** *** appearance.tsx *)
Definition THEMES : list Choice := [choice "dark" "Dark"; choice "light" "Light"; choice "system" "System"].
(** The chosen value, cast to a theme: the three offered are read as themselves. *)
Definition as_theme (value : string) : Theme.ThemePreference := Theme.readStored (Some value).
Definition AppearanceSettings (p : Fields) (theme : Theme.ThemePreference) : list Card := [
  card "Display" "How the console is drawn. Dark is the default and stays the default." [
    setting "Theme" None (segmented (Some (JStr (Theme.theme_string theme))) THEMES (fun value => [sets_theme (as_theme value)]));
    setting "Text size" (Some "Scales the whole interface, map labels included.")
      (stored_choice p "textScale" [choice "sm" "Small"; choice "md" "Default"; choice "lg" "Large"; choice "xl" "Largest"]);
    setting "Density" (Some "Tightens rows only; buttons keep their touch target.")
      (stored_choice p "density" [choice "comfortable" "Comfortable"; choice "compact" "Compact"]);
    setting "Reduce motion" None
      (switch (is_string (assoc "motion" p) "reduced") (fun checked => set_string "motion" (if checked then "reduced" else "system")))];
  card "Field use" "For a console left running on a tripod or a bench rather than watched continuously." [
    setting "Keep the screen awake" (Some "Holds a wake lock while this tab is visible. Not supported in every browser.")
      (stored_switch p "keepAwake")]].

(** *** notifications.tsx *)
Definition NotifyCategory_string (c : NotifyCategory) : string :=
  match c with
  | cat_drone => "drone" | cat_sensor => "sensor" | cat_stream => "stream" | cat_capture => "capture"
  | cat_spectrum => "spectrum" | cat_unit => "unit" | cat_api => "api" | cat_action => "action"
  end.
Definition NOTIFY_CATEGORY_HINT (c : NotifyCategory) : string :=
  match c with
  | cat_drone => "A track appearing in range. The reason this box is switched on."
  | cat_sensor => "An adapter going unhealthy, recovering, or vanishing from USB."
  | cat_stream => "The live stream connecting, dropping, or falling back to polling."
  | cat_capture => "PCAP and IQ capture activity."
  | cat_spectrum => "A sweep starting or landing. One takes the radio from ADS-B while it runs."
  | cat_unit => "What the unit did to itself: deploys it pulled, repairs the watchdog made."
  | cat_api => "Requests this console made that the API refused or never answered."
  | cat_action => "What was clicked in this browser. Useful when two people share a console."
  end.
(** The stored object's fields, as a spread copies them and as the switches read
    them: only [false] is off. *)
Definition category_fields (p : Fields) : Fields :=
  match assoc "notifyCategories" p ≫= own_entries with Some fields => fields | None => [] end.
Definition switches_of (fields : Fields) : Categories :=
  Some (fun c => match assoc (NotifyCategory_string c) fields with Some (JBool b) => Some b | _ => None end).
Definition categories_of (p : Fields) : Categories := switches_of (category_fields p).
Definition setCategory (p : Fields) (c : NotifyCategory) (enabled : bool) : list Act :=
  [sets "notifyCategories" (JObj (set_field (NotifyCategory_string c) (JBool enabled) (category_fields p)))].
Definition NotificationSettings (p : Fields) : list Card := [
  card "What appears in the drawer" "Switching a category off hides it from the bell and from the unread count. It never stops the receiver recording it."
    ((if isCategoryEnabled (categories_of p) cat_drone then []
      else [alert (notice "warn" "Drone detections are hidden"
              "The drawer will not list tracks while this is off. Detection and recording carry on regardless — you are only choosing not to be shown them here.")]) ++
     map (fun c => setting (NOTIFY_CATEGORY_LABEL c) (Some (NOTIFY_CATEGORY_HINT c))
                     (switch (isCategoryEnabled (categories_of p) c) (setCategory p c))) NOTIFY_CATEGORIES);
  card "Severity" "Applies to system events only, never to detections." [
    setting "Minimum severity for system events" None
      (stored_choice p "notifyMinLevel" [choice "debug" "Everything"; choice "info" "Info and above"; choice "warn" "Warnings"; choice "error" "Errors only"])];
  card "Sound" "A short two-tone chirp, on a track's first appearance only." [
    setting "Audible alert on new track" None
      (stored_choice p "alertLevel" [choice "off" "Off"; hinted "confirmed" "Confirmed only" "corroborated tracks"; hinted "any" "Any track" "including weak hints"]);
    setting "Test the chirp" (Some "Plays it once, at the volume an alert would use.")
      (button "Play test chirp" [plays alert_confirmed])]].

(** *** map.tsx, tracks.tsx, sensors.tsx and logs.tsx *)
Definition MapSettings (p : Fields) : list Card := [
  card "Live map" "How much of the map's own furniture is on screen at once. Neither of these changes what is detected or plotted." [
    setting "Show the legend" None (stored_switch p "mapLegend");
    setting "Show closed tracks in the contacts panel" (Some "Shortens the panel during a busy watch.") (stored_switch p "showClosedContacts")]].
Definition mode_string (m : PathColourMode) : string :=
  match m with mode_speed => "speed" | mode_time => "time" | mode_none => "none" end.
Definition TrackSettings (p : Fields) : list Card := [
  card "Flight path" "What the shading on the track detail map's path means. The recorded path is the same either way." [
    setting "Colour the path by" None
      (stored_choice p "trackPathColour" (map (fun mode => choice (mode_string mode) (PATH_COLOUR_LABELS mode)) PATH_COLOUR_MODES))]].
Definition SensorSettings (p : Fields) : list Card := [
  card "Sensors" "How the Sensors page behaves when you act on a sensor. What the sensors themselves do is set under Calibration." [
    setting "Confirm before restarting a sensor" (Some "A restart drops coverage for several seconds.") (stored_switch p "confirmDestructive")]].
Definition LogSettings (p : Fields) : list Card := [
  card "Event log" "The log is held in memory for this browser session, so both of these are gone when the tab is." [
    setting "Buffer size" None
      (segmented (Some (JStr (match assoc "logLimit" p with Some v => js_String v | None => "undefined" end)))
         [choice "250" "250"; choice "1000" "1,000"; choice "5000" "5,000"] (fun value => [sets "logLimit" (JNum (Number value))]));
    setting "Follow new entries" (Some "Scrolls to the newest entry as it arrives.") (stored_switch p "logFollow")]].

(** settings.tsx, [ResetButton]. *)
Definition ResetButton : Control :=
  button "Reset browser settings" [resets; logs (log.action "Display settings reset to defaults" None); toasts "Browser settings reset" "success"].
End Pages.

(** ** A session on the pages *)
Module Session.
Import Stored Controls Pages.

(** The browser: its two providers, and what was logged, shown and played. *)
Record Browser := {
  br_provider : Provider;
  br_themes : Theme.Themes;
  br_log : list LogInput;
  br_toasts : list (string * string);
  br_sounds : list AlertKind
}.

Section Session.
Context (parse : string -> option json) (stringify : json -> string).
Context (stamp clockFmt : Fields -> Z -> string) (zone : option string) (sample : string) (now : Z).

Definition with_provider (f : Provider -> Provider) (b : Browser) : Browser :=
  {| br_provider := f (br_provider b); br_themes := br_themes b; br_log := br_log b; br_toasts := br_toasts b; br_sounds := br_sounds b |}.
Definition perform (b : Browser) (a : Act) : Browser :=
  match a with
  | sets key value => with_provider (setPreference stringify key value) b
  | resets => with_provider (reset stringify) b
  | sets_theme t =>
      {| br_provider := br_provider b; br_themes := Theme.setPreference t (br_themes b); br_log := br_log b;
         br_toasts := br_toasts b; br_sounds := br_sounds b |}
  | logs line =>
      {| br_provider := br_provider b; br_themes := br_themes b; br_log := br_log b ++ [line];
         br_toasts := br_toasts b; br_sounds := br_sounds b |}
  | toasts title kind =>
      {| br_provider := br_provider b; br_themes := br_themes b; br_log := br_log b;
         br_toasts := br_toasts b ++ [(title, kind)]; br_sounds := br_sounds b |}
  | plays kind =>
      {| br_provider := br_provider b; br_themes := br_themes b; br_log := br_log b;
         br_toasts := br_toasts b; br_sounds := br_sounds b ++ [kind] |}
  end.

(** The pages of this browser, in the nav's order, and their controls. *)
Definition pages (p : Fields) (theme : Theme.ThemePreference) : list (list Card) := [
  GeneralSettings stamp clockFmt zone sample now p; AppearanceSettings p theme; NotificationSettings p; MapSettings p;
  TrackSettings p; SensorSettings p; LogSettings p].
Definition controls (p : Fields) (theme : Theme.ThemePreference) : list Control := controls_of (concat (pages p theme)).
Definition controls_now (b : Browser) : list Control := controls (pv_preferences (br_provider b)) (Theme.th_preference (br_themes b)).
Definition faces (b : Browser) : list (list bool) := map face (controls_now b).
Definition all_draw (b : Browser) : bool :=
  forallb draws (pages (pv_preferences (br_provider b)) (Theme.th_preference (br_themes b))).

(** A press on a control of the pages, or on the reset button; [None] where the
    control takes no such gesture. *)
Inductive Press := on_control (i : nat) (g : Gesture) | on_reset.
Definition press (b : Browser) (p : Press) : option Browser :=
  match p with
  | on_control i g =>
      match controls_now b !! i with
      | Some c => if takes c g then Some (fold_left perform (acts c g) b) else None
      | None => None
      end
  | on_reset => Some (fold_left perform (acts ResetButton clicks) b)
  end.
Fixpoint session (b : Browser) (ps : list Press) : option Browser :=
  match ps with
  | [] => Some b
  | p :: ps => match press b p with Some b => session b ps | None => None end
  end.

Definition visit (stored : option string) (writable : bool) (theme_stored : option string) (light_matches : option bool) (theme_writable : bool) : Browser :=
  {| br_provider := mount parse stringify stored writable; br_themes := Theme.mount theme_stored light_matches theme_writable;
     br_log := []; br_toasts := []; br_sounds := [] |}.
Definition reload (b : Browser) (light_matches : option bool) : Browser :=
  visit (pv_stored (br_provider b)) (pv_writable (br_provider b)) (Theme.th_stored (br_themes b)) light_matches (Theme.th_writable (br_themes b)).

(** The specification: every control's face, by its place on the pages.  A press
    gives its control the face asked for; a reset gives every control but the
    theme's its face under the defaults. *)
Definition BLANK : list Control := controls DEFAULT_PREFERENCES Theme.follows_system.
Definition THEME_CONTROL : nat := 5.
Definition intend_face (c : Control) (g : Gesture) : option (list bool) :=
  match c, g with
  | segmented _ _ _, chooses [] | button _ _, _ => None
  | _, _ => Some (face_after c g)
  end.
Definition expected (fs : list (list bool)) (p : Press) : list (list bool) :=
  match p with
  | on_control i g => match BLANK !! i ≫= (fun c => intend_face c g) with Some f => <[i := f]> fs | None => fs end
  | on_reset => match fs !! THEME_CONTROL with Some theme => <[THEME_CONTROL := theme]> (map face BLANK) | None => map face BLANK end
  end.

(** *** Facts *)

Lemma strictly_equal_str o s : strictly_equal o (JStr s) = true -> o = JStr s.
Proof. destruct o; try done. by intros ->%String.eqb_eq. Qed.
Lemma strictly_equal_bool o x : strictly_equal o (JBool x) = true -> o = JBool x.
Proof. destruct o as [|y| | | |]; try done. by destruct x, y. Qed.

(** What a key holds after [setPreference]: the value given, or one the same as it. *)
Lemma assoc_setPreference key k v p :
  assoc k (pv_preferences (setPreference stringify key v p)) =
  if key === k then Some (match assoc key (pv_preferences p) with Some o => if strictly_equal o v then o else v | None => v end)
  else assoc k (pv_preferences p).
Proof.
  change (setPreference stringify key v p) with (apply stringify p (changed key v)). rewrite apply_spec. cbn [intend].
  destruct (String.eqb_spec key k) as [->|]; [|done]. destruct (assoc k (pv_preferences p)); [|done]. by destruct (strictly_equal _ _).
Qed.
Lemma assoc_set_str key k s p :
  assoc k (pv_preferences (setPreference stringify key (JStr s) p)) = if key === k then Some (JStr s) else assoc k (pv_preferences p).
Proof.
  rewrite assoc_setPreference. destruct (key === k); [|done]. destruct (assoc key (pv_preferences p)) as [o|]; [|done].
  destruct (strictly_equal o (JStr s)) eqn:E; [|done]. by apply strictly_equal_str in E as ->.
Qed.
Lemma assoc_set_bool key k x p :
  assoc k (pv_preferences (setPreference stringify key (JBool x) p)) = if key === k then Some (JBool x) else assoc k (pv_preferences p).
Proof.
  rewrite assoc_setPreference. destruct (key === k); [|done]. destruct (assoc key (pv_preferences p)) as [o|]; [|done].
  destruct (strictly_equal o (JBool x)) eqn:E; [|done]. by apply strictly_equal_bool in E as ->.
Qed.
Lemma assoc_set_obj key k fields p :
  assoc k (pv_preferences (setPreference stringify key (JObj fields) p)) = if key === k then Some (JObj fields) else assoc k (pv_preferences p).
Proof. rewrite assoc_setPreference. destruct (key === k); [|done]. destruct (assoc key (pv_preferences p)) as [o|]; [|done]. by destruct o. Qed.
Lemma neq_finite x s m e : neq x (S754_finite s m e) = true -> x = S754_finite s m e.
Proof.
  unfold neq, SFeqb, SFcompare. intros H. destruct x as [t|t| |t n f]; try (by destruct s). 1: by destruct t, s.
  destruct t, s; try done; destruct (Z.compare_spec f e) as [->| |]; try done;
    fold (Pos.compare n m) in H; destruct (Pos.compare_spec n m) as [->| |]; done.
Qed.
Lemma assoc_set_num key k s m e p :
  assoc k (pv_preferences (setPreference stringify key (JNum (S754_finite s m e)) p)) =
  if key === k then Some (JNum (S754_finite s m e)) else assoc k (pv_preferences p).
Proof.
  rewrite assoc_setPreference. destruct (key === k); [|done]. destruct (assoc key (pv_preferences p)) as [o|]; [|done].
  destruct (strictly_equal o (JNum (S754_finite s m e))) eqn:E; [|done]. destruct o; try done. by apply neq_finite in E as ->.
Qed.

(** The faces are read off the preferences key by key. *)
Definition shown_at (look : string -> option json) (theme : Theme.ThemePreference) : list (list bool) :=
  let categories := switches_of (match look "notifyCategories" ≫= own_entries with Some fields => fields | None => [] end) in
  let switch_ key := [js_truthy (look key)] in
  let segmented_ key options := map (is_on (look key)) options in
  [segmented_ "units" UNIT_SYSTEMS;
   segmented_ "coordFormat" (map (fun entry => choice (op_value entry) (op_label entry +:+ " — " +:+ (op_hint entry ?? ""))) COORD_FORMATS);
   segmented_ "timeZone" [hinted "utc" "UTC" "shared reference"; hinted "local" "Local" (browserZone zone)];
   segmented_ "clock" [choice "24h" "24-hour"; choice "12h" "12-hour"];
   segmented_ "timestampStyle" TIMESTAMP_STYLES;
   map (is_on (Some (JStr (Theme.theme_string theme)))) THEMES;
   segmented_ "textScale" [choice "sm" "Small"; choice "md" "Default"; choice "lg" "Large"; choice "xl" "Largest"];
   segmented_ "density" [choice "comfortable" "Comfortable"; choice "compact" "Compact"];
   [is_string (look "motion") "reduced"]; switch_ "keepAwake"] ++
  map (fun c => [isCategoryEnabled categories c]) NOTIFY_CATEGORIES ++
  [segmented_ "notifyMinLevel" [choice "debug" "Everything"; choice "info" "Info and above"; choice "warn" "Warnings"; choice "error" "Errors only"];
   segmented_ "alertLevel" [choice "off" "Off"; hinted "confirmed" "Confirmed only" "corroborated tracks"; hinted "any" "Any track" "including weak hints"];
   []; switch_ "mapLegend"; switch_ "showClosedContacts";
   segmented_ "trackPathColour" (map (fun mode => choice (mode_string mode) (PATH_COLOUR_LABELS mode)) PATH_COLOUR_MODES);
   switch_ "confirmDestructive";
   map (is_on (Some (JStr (match look "logLimit" with Some v => js_String v | None => "undefined" end))))
     [choice "250" "250"; choice "1000" "1,000"; choice "5000" "5,000"];
   switch_ "logFollow"].

Lemma map_face p theme : map face (controls p theme) = shown_at (fun key => assoc key p) theme.
Proof.
  unfold controls, controls_of, pages, NotificationSettings. cbn [concat app flat_map cd_rows card].
  destruct (isCategoryEnabled (categories_of p) cat_drone); reflexivity.
Qed.

(** A category's switch is what was last set; the others are as they were. *)
Lemma enabled_set c x c' fields :
  isCategoryEnabled (switches_of (set_field (NotifyCategory_string c) (JBool x) fields)) c' =
  if bool_decide (c = c') then x else isCategoryEnabled (switches_of fields) c'.
Proof.
  unfold switches_of, isCategoryEnabled. rewrite set_field_assoc.
  destruct (String.eqb_spec (NotifyCategory_string c) (NotifyCategory_string c')) as [E|E].
  - assert (c = c') as -> by (destruct c, c'; first [reflexivity | discriminate E]).
    rewrite (bool_decide_true (c' = c')) by done. by destruct x.
  - rewrite (bool_decide_false (c = c')); [done|]. by intros ->.
Qed.

(** The faces after a preference has changed. *)
Lemma shown_change key w look look' theme (H : forall k, look' k = if key === k then Some w else look k) :
  shown_at look' theme = shown_at (fun k => if key === k then Some w else look k) theme.
Proof. unfold shown_at. by rewrite !H. Qed.

Lemma offers_one value options : offers value options = true -> In value (map op_value options).
Proof. intros (o & Ho & <-%String.eqb_eq)%existsb_exists. by apply in_map. Qed.
Lemma chosen_is_not_empty value : value <> "" -> Segmented_onValueChange [value] = Some value.
Proof. by destruct value. Qed.

(** The controls, one by one. *)
Definition listed (p : Fields) (theme : Theme.ThemePreference) : list Control := [
  segmented (assoc "units" p) UNIT_SYSTEMS (fun value => [sets "units" (JStr value); logs (log.action ("Units set to " +:+ value) None)]);
  select_ (assoc "coordFormat" p) (map (fun entry => choice (op_value entry) (op_label entry +:+ " — " +:+ (op_hint entry ?? ""))) COORD_FORMATS) (set_string "coordFormat");
  stored_choice p "timeZone" [hinted "utc" "UTC" "shared reference"; hinted "local" "Local" (browserZone zone)];
  stored_choice p "clock" [choice "24h" "24-hour"; choice "12h" "12-hour"];
  stored_choice p "timestampStyle" TIMESTAMP_STYLES;
  segmented (Some (JStr (Theme.theme_string theme))) THEMES (fun value => [sets_theme (as_theme value)]);
  stored_choice p "textScale" [choice "sm" "Small"; choice "md" "Default"; choice "lg" "Large"; choice "xl" "Largest"];
  stored_choice p "density" [choice "comfortable" "Comfortable"; choice "compact" "Compact"];
  switch (is_string (assoc "motion" p) "reduced") (fun checked => set_string "motion" (if checked then "reduced" else "system"));
  stored_switch p "keepAwake"] ++
  map (fun c => switch (isCategoryEnabled (categories_of p) c) (setCategory p c)) NOTIFY_CATEGORIES ++ [
  stored_choice p "notifyMinLevel" [choice "debug" "Everything"; choice "info" "Info and above"; choice "warn" "Warnings"; choice "error" "Errors only"];
  stored_choice p "alertLevel" [choice "off" "Off"; hinted "confirmed" "Confirmed only" "corroborated tracks"; hinted "any" "Any track" "including weak hints"];
  button "Play test chirp" [plays alert_confirmed];
  stored_switch p "mapLegend"; stored_switch p "showClosedContacts";
  stored_choice p "trackPathColour" (map (fun mode => choice (mode_string mode) (PATH_COLOUR_LABELS mode)) PATH_COLOUR_MODES);
  stored_switch p "confirmDestructive";
  segmented (Some (JStr (match assoc "logLimit" p with Some v => js_String v | None => "undefined" end)))
    [choice "250" "250"; choice "1000" "1,000"; choice "5000" "5,000"] (fun value => [sets "logLimit" (JNum (Number value))]);
  stored_switch p "logFollow"].
Lemma controls_listed p theme : controls p theme = listed p theme.
Proof.
  unfold controls, controls_of, pages, NotificationSettings. cbn [concat app flat_map cd_rows card].
  destruct (isCategoryEnabled (categories_of p) cat_drone); reflexivity.
Qed.

Lemma set_str_faces key s b : map face (controls_now (with_provider (setPreference stringify key (JStr s)) b)) =
  shown_at (fun k => if key === k then Some (JStr s) else assoc k (pv_preferences (br_provider b))) (Theme.th_preference (br_themes b)).
Proof. unfold controls_now. rewrite map_face. apply (shown_change _ _ (fun k => assoc k _)). intros k. apply assoc_set_str. Qed.
Lemma set_bool_faces key x b : map face (controls_now (with_provider (setPreference stringify key (JBool x)) b)) =
  shown_at (fun k => if key === k then Some (JBool x) else assoc k (pv_preferences (br_provider b))) (Theme.th_preference (br_themes b)).
Proof. unfold controls_now. rewrite map_face. apply (shown_change _ _ (fun k => assoc k _)). intros k. apply assoc_set_bool. Qed.
Lemma set_obj_faces key fields b : map face (controls_now (with_provider (setPreference stringify key (JObj fields)) b)) =
  shown_at (fun k => if key === k then Some (JObj fields) else assoc k (pv_preferences (br_provider b))) (Theme.th_preference (br_themes b)).
Proof. unfold controls_now. rewrite map_face. apply (shown_change _ _ (fun k => assoc k _)). intros k. apply assoc_set_obj. Qed.

Lemma set_num_faces key s m e b : map face (controls_now (with_provider (setPreference stringify key (JNum (S754_finite s m e))) b)) =
  shown_at (fun k => if key === k then Some (JNum (S754_finite s m e)) else assoc k (pv_preferences (br_provider b))) (Theme.th_preference (br_themes b)).
Proof. unfold controls_now. rewrite map_face. apply (shown_change _ _ (fun k => assoc k _)). intros k. apply assoc_set_num. Qed.
Lemma faces_by_key b : map face (controls_now b) =
  shown_at (fun key => assoc key (pv_preferences (br_provider b))) (Theme.th_preference (br_themes b)).
Proof. apply map_face. Qed.

Lemma shown_category c x p theme n : nth_error NOTIFY_CATEGORIES n = Some c ->
  shown_at (fun k => if "notifyCategories" === k then Some (JObj (set_field (NotifyCategory_string c) (JBool x) (category_fields p)))
                     else assoc k p) theme =
  <[(10 + n)%nat := [x]]> (shown_at (fun k => assoc k p) theme).
Proof.
  assert (map (fun c' => [isCategoryEnabled (switches_of (set_field (NotifyCategory_string c) (JBool x) (category_fields p))) c']) NOTIFY_CATEGORIES =
          map (fun c' => [if bool_decide (c = c') then x else isCategoryEnabled (categories_of p) c']) NOTIFY_CATEGORIES) as E.
  { apply map_ext. intros c'. by rewrite enabled_set. }
  intros Hn. unfold shown_at at 1. cbn [String.eqb Ascii.eqb Bool.eqb mbind option_bind own_entries]. rewrite E.
  do 8 (destruct n as [|n]; [injection Hn as <-; reflexivity|]). by destruct n.
Qed.

(** The gestures a control takes, one by one. *)
Ltac gesture g v x Hg := destruct g as [[|v [|]]|v|x|]; try done; try (destruct v as [|? v]; [discriminate Hg|]).
Ltac set_by_key := etransitivity;
  [lazymatch goal with x : bool |- _ => apply set_bool_faces | _ => apply set_str_faces end|rewrite faces_by_key; reflexivity].
Ltac set_category n := etransitivity; [apply set_obj_faces|rewrite faces_by_key; by apply (shown_category _ _ _ _ n)].

Lemma theme_faces t b :
  map face (controls_now (perform b (sets_theme t))) = <[THEME_CONTROL := map (is_on (Some (JStr (Theme.theme_string t)))) THEMES]> (map face (controls_now b)).
Proof. by rewrite !faces_by_key. Qed.
Lemma theme_offered v : offers v THEMES = true -> Theme.theme_string (as_theme v) = v.
Proof. intros H%offers_one. cbn in H. by destruct H as [<-|[<-|[<-|[]]]]. Qed.
Lemma limit_faces v b : offers v [choice "250" "250"; choice "1000" "1,000"; choice "5000" "5,000"] = true ->
  map face (controls_now (perform b (sets "logLimit" (JNum (Number v))))) =
  <[25%nat := only v [choice "250" "250"; choice "1000" "1,000"; choice "5000" "5,000"]]> (map face (controls_now b)).
Proof.
  intros H%offers_one. cbn in H. destruct H as [<-|[<-|[<-|[]]]];
    match goal with |- context [JNum (Number ?t)] => let n := eval vm_compute in (Number t) in change (Number t) with n end;
    (etransitivity; [apply set_num_faces|rewrite faces_by_key; reflexivity]).
Qed.

(** A gesture on a control gives that control its new face and leaves the others. *)
Lemma press_faces i g c b :
  listed (pv_preferences (br_provider b)) (Theme.th_preference (br_themes b)) !! i = Some c -> takes c g = true ->
  map face (controls_now (fold_left perform (acts c g) b)) = expected (map face (controls_now b)) (on_control i g).
Proof.
  intros Hc Hg. cbn [expected]. unfold BLANK. rewrite controls_listed.
  do 5 (destruct i as [|i]; [injection Hc as <-; gesture g v x Hg; set_by_key|]).
  destruct i as [|i]; [injection Hc as <-|].
  { gesture g v x Hg. etransitivity; [apply theme_faces|]. by rewrite theme_offered. }
  do 2 (destruct i as [|i]; [injection Hc as <-; gesture g v x Hg; set_by_key|]).
  destruct i as [|i]; [injection Hc as <-; gesture g v x Hg; destruct x; set_by_key|].
  destruct i as [|i]; [injection Hc as <-; gesture g v x Hg; set_by_key|].
  destruct i as [|i]; [injection Hc as <-; gesture g v x Hg; set_category 0%nat|].
  destruct i as [|i]; [injection Hc as <-; gesture g v x Hg; set_category 1%nat|].
  destruct i as [|i]; [injection Hc as <-; gesture g v x Hg; set_category 2%nat|].
  destruct i as [|i]; [injection Hc as <-; gesture g v x Hg; set_category 3%nat|].
  destruct i as [|i]; [injection Hc as <-; gesture g v x Hg; set_category 4%nat|].
  destruct i as [|i]; [injection Hc as <-; gesture g v x Hg; set_category 5%nat|].
  destruct i as [|i]; [injection Hc as <-; gesture g v x Hg; set_category 6%nat|].
  destruct i as [|i]; [injection Hc as <-; gesture g v x Hg; set_category 7%nat|].
  do 7 (destruct i as [|i]; [injection Hc as <-; gesture g v x Hg; set_by_key|]).
  destruct i as [|i]; [injection Hc as <-; gesture g v x Hg; by apply limit_faces|].
  destruct i as [|i]; [injection Hc as <-; gesture g v x Hg; set_by_key|]. done.
Qed.

(** What the acts of the pages may set, and what they keep of the browser. *)
Definition permitted (a : Act) : Prop := match a with sets key value => allowed (changed key value) | _ => True end.
Record kept (b : Browser) : Prop := {
  kp_sound : sound (pv_preferences (br_provider b));
  kp_stored : pv_writable (br_provider b) = true -> pv_stored (br_provider b) = Some (stringify (JObj (pv_preferences (br_provider b))));
  kp_theme : Theme.th_writable (br_themes b) = true -> Theme.readStored (Theme.th_stored (br_themes b)) = Theme.th_preference (br_themes b)
}.
Definition same_storage (b b' : Browser) : Prop :=
  pv_writable (br_provider b') = pv_writable (br_provider b) /\ Theme.th_writable (br_themes b') = Theme.th_writable (br_themes b).

Lemma applied_keeps c b : kept b -> allowed c ->
  kept (with_provider (fun p => apply stringify p c) b) /\ same_storage b (with_provider (fun p => apply stringify p c) b).
Proof.
  intros [H1 H2 H3] Hc. destruct (apply_stored stringify (br_provider b) c H2) as (Hw & Hs & _). split.
  - split; cbn [with_provider br_provider br_themes]; [by apply apply_sound| |done]. rewrite Hw. apply Hs.
  - by split.
Qed.
Lemma perform_keeps a b : permitted a -> kept b -> kept (perform b a) /\ same_storage b (perform b a).
Proof.
  intros Ha Hb. destruct a as [key value|t| | | |].
  - exact (applied_keeps (changed key value) b Hb Ha).
  - destruct Hb as [H1 H2 H3]. split; [|by split]. split; [done|done|]. cbn. intros Hw. rewrite Hw. apply Theme.theme_reads_back.
  - exact (applied_keeps was_reset b Hb I).
  - destruct Hb. split; by split.
  - destruct Hb. split; by split.
  - destruct Hb. split; by split.
Qed.
Lemma performs_keep l b : List.Forall permitted l -> kept b -> kept (fold_left perform l b) /\ same_storage b (fold_left perform l b).
Proof.
  intros Hl. revert b. induction Hl as [|a l Ha Hl IH]; intros b Hb; cbn [fold_left]; [by split|].
  destruct (perform_keeps a b Ha Hb) as [Hk [E1 E2]]. destruct (IH _ Hk) as [Hk' [E1' E2']]. split; [done|]. split; congruence.
Qed.
Lemma acts_permitted p theme i c g : listed p theme !! i = Some c -> List.Forall permitted (acts c g).
Proof.
  intros Hc. apply list_elem_of_lookup_2 in Hc. unfold listed in Hc. cbn [app map NOTIFY_CATEGORIES] in Hc.
  repeat (apply elem_of_cons in Hc as [->|Hc]; [destruct g as [next|v|x|]; cbn [acts stored_choice stored_switch]; try destruct (Segmented_onValueChange next);
    repeat constructor; cbn; try done; intros E; discriminate E|]).
  by apply elem_of_nil in Hc.
Qed.

(** A page is drawn while one of the units offered is down. *)
Lemma draws_by_face b : all_draw b = existsb id (hd [] (faces b)).
Proof.
  unfold faces. rewrite faces_by_key. transitivity (match as_units (assoc "units" (pv_preferences (br_provider b))) with Some _ => true | None => false end).
  - unfold all_draw, pages, NotificationSettings, GeneralSettings, unit_preview.
    by destruct (isCategoryEnabled _ cat_drone), (as_units _).
  - cbn [shown_at hd app]. unfold as_units, is_string. destruct (assoc "units" (pv_preferences (br_provider b))) as [[]|]; try done.
    transitivity (("metric" === s) || (("aviation" === s) || (("imperial" === s) || false))); [|reflexivity].
    rewrite (String.eqb_sym "metric"), (String.eqb_sym "aviation"), (String.eqb_sym "imperial").
    by destruct (s === "metric"), (s === "aviation"), (s === "imperial").
Qed.

Lemma existsb_only v options : existsb id (only v options) = offers v options.
Proof. unfold only, offers. induction options as [|o options IH]; [done|]. cbn. by rewrite IH. Qed.
Lemma expected_units fs i g c p theme : listed p theme !! i = Some c -> takes c g = true ->
  existsb id (hd [] fs) = true -> existsb id (hd [] (expected fs (on_control i g))) = true.
Proof.
  intros Hc Hg H. cbn [expected]. destruct (BLANK !! i ≫= _) as [f|] eqn:E; [|done]. destruct fs as [|f0 fs]; [done|].
  destruct i as [|i]; [|done]. cbn [hd insert list_insert]. injection Hc as <-. unfold BLANK in E. rewrite controls_listed in E.
  destruct g as [[|v [|]]|v|x|]; try done. change (Some (only v UNIT_SYSTEMS) = Some f) in E. assert (f = only v UNIT_SYSTEMS) as -> by congruence. by rewrite existsb_only.
Qed.

Lemma press_spec b p b' : kept b -> press b p = Some b' ->
  faces b' = expected (faces b) p /\ kept b' /\ same_storage b b' /\ (all_draw b = true -> all_draw b' = true).
Proof.
  intros Hb Hp. assert (faces b' = expected (faces b) p /\ kept b' /\ same_storage b b' /\
    (existsb id (hd [] (faces b)) = true -> existsb id (hd [] (expected (faces b) p)) = true)) as (H1 & H2 & H3 & H4).
  { destruct p as [i g|].
    - cbn [press] in Hp. unfold controls_now in Hp. rewrite controls_listed in Hp. destruct (listed _ _ !! i) as [c|] eqn:Hc; [|done].
      destruct (takes c g) eqn:Hg; [|done]. injection Hp as <-. split; [by apply press_faces|].
      destruct (performs_keep (acts c g) b) as [Hk Hs]; [by eapply acts_permitted|done|]. split_and!; [done|done|].
      intros H. by eapply expected_units.
    - injection Hp as <-. destruct (performs_keep (acts ResetButton clicks) b) as [Hk Hs]; [by repeat constructor|done|].
      split; [unfold faces; rewrite !faces_by_key; reflexivity|]. split_and!; [done|done|]. intros _. unfold faces. by rewrite faces_by_key. }
  split_and!; [done..|]. rewrite !draws_by_face, H1. apply H4.
Qed.

Lemma session_spec ps b b' : kept b -> session b ps = Some b' ->
  faces b' = fold_left expected ps (faces b) /\ kept b' /\ same_storage b b' /\ (all_draw b = true -> all_draw b' = true).
Proof.
  revert b. induction ps as [|p ps IH]; intros b Hb; cbn [session fold_left]; [by intros [= <-]|].
  destruct (press b p) as [b1|] eqn:E; [|done]. destruct (press_spec b p b1 Hb E) as (H1 & H2 & [E1 E2] & H4). intros Hs.
  destruct (IH b1 H2 Hs) as (J1 & J2 & [F1 F2] & J4). rewrite H1 in J1. split_and!; [done|done|split; congruence|auto].
Qed.

(** C35. The pages of settings show what was pressed.  In every session of presses
    on the controls of the seven pages of this browser, resets among them, from
    whatever the storage held: each control shows the last choice made on it and no
    press changes another control (a press on the option that is down changes
    nothing, a reset gives every control but the theme's its default); the
    preferences stay sound; pages that could be drawn go on being drawn; and the
    next visit shows the same faces on every control, where the storage takes
    writes and its text reads back. *)
Theorem settings_show_what_was_pressed (stored theme_stored : option string) (writable theme_writable : bool)
    (light_matches : option bool) (ps : list Press) (b : Browser)
    (Hrun : session (visit stored writable theme_stored light_matches theme_writable) ps = Some b) :
  let opened := visit stored writable theme_stored light_matches theme_writable in
  let p := pv_preferences (br_provider b) in
  faces b = fold_left expected ps (faces opened) /\ sound p /\ (all_draw opened = true -> all_draw b = true) /\
  (writable = true -> theme_writable = true -> parse (stringify (JObj p)) = Some (JObj p) -> stringify (JObj p) <> "" ->
     forall light, faces (reload b light) = faces b).
Proof.
  set (opened := visit stored writable theme_stored light_matches theme_writable) in *. cbv zeta.
  assert (kept opened) as Ho. { split; [apply readStored_sound|cbn; by intros ->|done]. }
  destruct (session_spec ps opened b Ho Hrun) as (H1 & [K1 K2 K3] & [E1 E2] & H4). split_and!; [done..|].
  intros Hw Ht Hj He light. cbn in E1, E2. rewrite Hw in E1. rewrite Ht in E2.
  unfold faces. rewrite !faces_by_key. unfold reload, visit. cbn [br_provider br_themes mount persist pv_preferences Theme.mount Theme.th_preference].
  rewrite (K2 E1), (K3 E2). unfold shown_at. by rewrite !(reads_all_back parse stringify _ K1 Hj He).
Qed.
End Session.

Ltac at_ by_ i g := eapply (by_ i _ g); [unfold BLANK; rewrite controls_listed; reflexivity|reflexivity|left; reflexivity].

(** Every preference has a control whose gestures set it. *)
Lemma every_preference_has_a_control stamp clockFmt zone sample now key : In key KEYS ->
  exists i c g v, BLANK stamp clockFmt zone sample now !! i = Some c /\ takes c g = true /\ In (sets key v) (acts c g).
Proof.
  assert (forall i c g v, BLANK stamp clockFmt zone sample now !! i = Some c -> takes c g = true -> In (sets key v) (acts c g) ->
    exists i c g v, BLANK stamp clockFmt zone sample now !! i = Some c /\ takes c g = true /\ In (sets key v) (acts c g)) as by_
    by (intros i c g v; by exists i, c, g, v).
  intros Hk. cbn in Hk.
  destruct Hk as [<-|Hk]; [at_ by_ 0%nat (chooses ["metric"])|].
  destruct Hk as [<-|Hk]; [at_ by_ 1%nat (picks "ddm")|].
  destruct Hk as [<-|Hk]; [at_ by_ 3%nat (chooses ["12h"])|].
  destruct Hk as [<-|Hk]; [at_ by_ 2%nat (chooses ["local"])|].
  destruct Hk as [<-|Hk]; [at_ by_ 4%nat (chooses ["both"])|].
  destruct Hk as [<-|Hk]; [at_ by_ 6%nat (chooses ["lg"])|].
  destruct Hk as [<-|Hk]; [at_ by_ 7%nat (chooses ["compact"])|].
  destruct Hk as [<-|Hk]; [at_ by_ 8%nat (turns true)|].
  destruct Hk as [<-|Hk]; [at_ by_ 25%nat (chooses ["250"])|].
  destruct Hk as [<-|Hk]; [at_ by_ 26%nat (turns true)|].
  destruct Hk as [<-|Hk]; [at_ by_ 19%nat (chooses ["any"])|].
  destruct Hk as [<-|Hk]; [at_ by_ 9%nat (turns true)|].
  destruct Hk as [<-|Hk]; [at_ by_ 24%nat (turns true)|].
  destruct Hk as [<-|Hk]; [at_ by_ 10%nat (turns false)|].
  destruct Hk as [<-|Hk]; [at_ by_ 18%nat (chooses ["warn"])|].
  destruct Hk as [<-|Hk]; [at_ by_ 21%nat (turns true)|].
  destruct Hk as [<-|Hk]; [at_ by_ 22%nat (turns true)|].
  destruct Hk as [<-|Hk]; [at_ by_ 23%nat (chooses ["time"])|].
  destruct Hk.
Qed.
End Session.

(** ** data.tsx: what the receiver reaches for *)
Module ExternalData.
Import SettingsGroup.

(** A field of a group, [FieldSpec]. *)
Inductive FieldKind := kind_switch | kind_text | kind_number.
Record FieldSpec := { fd_key : string; fd_label : string; fd_kind : FieldKind; fd_placeholder : option string; fd_hint : option string }.
Definition field (key label : string) (kind : FieldKind) : FieldSpec :=
  {| fd_key := key; fd_label := label; fd_kind := kind; fd_placeholder := None; fd_hint := None |}.
Definition field_with (key label : string) (kind : FieldKind) (hint : string) : FieldSpec :=
  {| fd_key := key; fd_label := label; fd_kind := kind; fd_placeholder := None; fd_hint := Some hint |}.
(** A card: its title, the warning above its fields, and the fields. *)
Record DataCard := { dc_title : string; dc_alert : option Notice; dc_fields : list FieldSpec }.

(** The settings as fetched, [None] before; a key's value, [None] for undefined. *)
Definition Fetched : Type := option (string -> option SettingValue).
Definition value_at (data : Fetched) (key : string) : option json := data ≫= (fun settings => sv_value <$> settings key).

Definition NetworkADSBCard (data : Fetched) : DataCard := {|
  dc_title := "Network ADS-B";
  dc_alert := match value_at data "map.receiver_position" ≫= asReceiverPosition with
              | Some _ => None
              | None => Some (notice "warn" "Needs a receiver position before it can start"
                  "The query is a radius around this unit, so fusion refuses to start the feed without one — 0,0 is treated as unset rather than as the Gulf of Guinea. Set it on Calibration.")
              end;
  dc_fields := [field "fusion.net_adsb" "Poll a network aggregator" kind_switch; field "fusion.net_adsb_url" "Aggregator" kind_text;
                field "fusion.net_adsb_radius_nm" "Radius (nm)" kind_number; field "fusion.net_adsb_interval" "Poll interval" kind_text;
                field "fusion.net_adsb_sensor_id" "Sensor id" kind_text] |}.

(** [Number(value ?? 0)]. *)
Definition offset_of (v : option json) : num := match v with None | Some JNull => of_Z 0 | Some v => Pages.js_Number v end.
Definition TerrainCard (data : Fetched) : DataCard :=
  let enabled := match value_at data "fusion.terrain" with Some (JBool true) => true | _ => false end in
  let offset := offset_of (value_at data "fusion.terrain_geoid_offset_m") in {|
  dc_title := "Terrain elevation";
  dc_alert := if enabled && neq offset (of_Z 0)
              then Some (notice "warn" "Heights will be wrong by the local geoid undulation"
                "Elevation datasets report height above the geoid; Remote ID reports height above the WGS-84 ellipsoid. Leaving the offset at zero does not skip a correction — it applies a wrong one, in the direction that makes flights look lower than they are. Roughly −22 m around Seattle, up to 100 m elsewhere.")
              else None;
  dc_fields := [field "fusion.terrain" "Derive height above ground" kind_switch; field "fusion.terrain_url" "Elevation service" kind_text;
                field "fusion.terrain_dataset" "Dataset" kind_text;
                field_with "fusion.terrain_min_interval" "Minimum interval between lookups" kind_text
                  "Rate limit on the public service. Set 0 when you self-host — terrain does not change, so a local instance answers forever with nothing leaving the unit.";
                field_with "fusion.terrain_geoid_offset_m" "Geoid offset (m)" kind_number
                  "Local geoid undulation. Look it up once for where this unit is — it is a property of the place, not of the flight."] |}.
Definition RegistriesCard : DataCard := {|
  dc_title := "Offline registries"; dc_alert := None;
  dc_fields := [field "fusion.aircraft_db" "Aircraft database (CSV)" kind_text; field "sensors.oui_registry" "IEEE OUI registry (CSV)" kind_text] |}.

Definition SAVING : Notice := notice "warn" "Saving here records intent; fusion reads the environment"
  "A value stored on this page reaches fusion once the matching CLASSG_* variable is set and fusion restarts, because fusion assembles its configuration from the environment rather than the database. The Sensors page is where you confirm what is actually running.".
Definition ExternalDataSettings (data : Fetched) : Notice * list DataCard :=
  (SAVING, [NetworkADSBCard data; TerrainCard data; RegistriesCard]).

(** The terrain's warning is there exactly while heights are derived with no offset:
    none stored, null, or a value that is zero; a text that is no number is not. *)
Lemma terrain_is_warned_of data :
  dc_alert (TerrainCard data) <> None <->
  value_at data "fusion.terrain" = Some (JBool true) /\ neq (offset_of (value_at data "fusion.terrain_geoid_offset_m")) (of_Z 0) = true.
Proof.
  unfold TerrainCard. cbn [dc_alert]. destruct (value_at data "fusion.terrain") as [[|[]| | | |]|]; cbn [andb]; try (split; [done|by intros [[=] _]]).
  destruct (neq _ _); split; [done|done|done|by intros [_ [=]]].
Qed.
Lemma blank_offset_is_zero data s : value_at data "fusion.terrain" = Some (JBool true) ->
  value_at data "fusion.terrain_geoid_offset_m" = Some (JStr s) -> trim s = "" -> dc_alert (TerrainCard data) <> None.
Proof. intros H1 H2 H3. apply terrain_is_warned_of. split; [done|]. rewrite H2. unfold offset_of, Pages.js_Number, Number. by rewrite H3. Qed.

(** The feed's warning goes as soon as two numbers are stored: 0,0 among them, which
    the warning itself says is as good as none. *)
Lemma zero_is_taken_for_a_place data :
  value_at data "map.receiver_position" = Some (JObj [("lat", JNum (of_Z 0)); ("lon", JNum (of_Z 0))]) ->
  dc_alert (NetworkADSBCard data) = None.
Proof. intros H. unfold NetworkADSBCard. cbn [dc_alert]. by rewrite H. Qed.

(** No two fields of the page edit one setting. *)
Lemma fields_are_apart data : List.NoDup (map fd_key (flat_map dc_fields (snd (ExternalDataSettings data)))).
Proof. cbn. repeat (constructor; [cbn; intuition discriminate|]). constructor. Qed.
End ExternalData.

(** ** about.tsx: what the unit is *)
Module AboutPage.

Definition orEmpty (value : option string) : string := value ?? EMPTY.
Definition plain_row (label value : string) : Row := row label [plain value] None.

Section About.
Context (stamp : Z -> string).

Definition build_rows (pending : bool) (build : option SystemBuild) : list Row :=
  [plain_row "Version" (if pending then "Reading…" else orEmpty (bd_version <$> build));
   plain_row "Go" (orEmpty (bd_go_version <$> build));
   row "Revision" [plain ((build ≫= bd_revision) ?? "Not stamped")]
     (match truthy (build ≫= bd_revision) with
      | Some _ => match build ≫= bd_revision_dirty with Some true => Some "Built from a dirty working tree" | _ => None end
      | None => Some "This image was built without CLASSG_BUILD_REVISION; the deploy agent and make compose-up pass it, a plain docker build does not"
      end)] ++
  match truthy (build ≫= bd_built_at) with
  | Some at_ => [plain_row "Built" (timestamp stamp (Some at_))]
  | None => []
  end.

Definition status_rows (health : option Health) : list Row :=
  [plain_row "Overall" (orEmpty (match health with Some h => Some (SystemStatus_string (hl_status h)) | None => None end));
   row "API uptime" [plain (orEmpty (match health with Some h => Some (formatDuration (hl_uptime_s h)) | None => None end))]
     (Some "Since the api process started, not since boot");
   plain_row "Sensors healthy" (orEmpty (match health with
     | Some h => Some (pretty (zlen (List.filter sh_healthy (hl_sensors h))) +:+ " of " +:+ pretty (zlen (hl_sensors h)))
     | None => None end))].

Definition runtime_rows (runtime : option SystemRuntime) : list Row :=
  let asked {A} (f : SystemRuntime -> A) : option A := match runtime with Some r => Some (f r) | None => None end in
  [plain_row "Listening on" (orEmpty (asked ru_listen)); plain_row "Store" (orEmpty (asked ru_store));
   row "Serving the web app"
     [plain (orEmpty (asked (fun r => if ru_ui_dir r === "off" then "No — nginx does" else ru_ui_dir r)))]
     (if bool_decide (asked ru_ui_dir = Some "off") then None else Some "The Go binary is serving dist/, which can be a stale build");
   plain_row "Captures" (orEmpty (asked ru_capture_dir));
   row "Cloud sync" [plain (orEmpty (asked (fun r => if ru_turso_sync_configured r then "Configured" else "Off")))]
     (match asked ru_turso_sync_configured with
      | Some true => Some "Detections, including operator positions, replicate off this unit" | _ => None end);
   row "Containerised" [plain (orEmpty (asked (fun r => if ru_containerised r then "Yes" else "No")))]
     (match asked ru_containerised with
      | Some true => Some "Which is why some host readings above are unavailable" | _ => None end)].

(** The page: the notice alone when [/system] failed, else its four cards. *)
Inductive View := unanswered (n : Notice) | cards (build status host runtime : list Row).
Definition AboutSettings (system : QueryResult SystemInfo) (health : QueryResult Health) : View :=
  match system with
  | errored _ _ _ => unanswered (notice "error" "Could not read the receiver"
      "The API did not answer /system. Everything on this page comes from the Pi, so there is nothing to show until it does — the Sensors page is where to look next.")
  | _ =>
      let info := query_data system in
      cards (build_rows (Storage.is_loading system) (sy_build <$> info)) (status_rows (query_data health))
        (About.host_rows (sy_host <$> info)) (runtime_rows (sy_runtime <$> info))
  end.

(** What replicates off the unit is said whenever it is so, and only then. *)
Lemma sync_is_said s health build status host runtime : AboutSettings (loaded s) health = cards build status host runtime ->
  In (row "Cloud sync" [plain "Configured"] (Some "Detections, including operator positions, replicate off this unit")) runtime <->
  ru_turso_sync_configured (sy_runtime s) = true.
Proof.
  intros [= _ _ _ <-]. cbn. destruct (ru_turso_sync_configured (sy_runtime s)); split; [done|auto 10|intros H|done].
  repeat (destruct H as [H|H]; [discriminate H|]). destruct H.
Qed.

(** Before [/system] has answered the page already says who serves the web app. *)
Lemma serving_is_said_unread health :
  match AboutSettings loading health with
  | cards _ _ _ runtime =>
      In (row "Serving the web app" [plain EMPTY] (Some "The Go binary is serving dist/, which can be a stale build")) runtime
  | unanswered _ => False
  end.
Proof. cbn. auto. Qed.

(** A load the unit could not read is a dash beside those it could. *)
Lemma unread_load_is_a_dash s health load1 : ho_load1 (sy_host s) = Some load1 -> ho_load5 (sy_host s) = None -> ho_load15 (sy_host s) = None ->
  match AboutSettings (loaded s) health with
  | cards _ _ host _ => exists hint, In (row "Load" [plain (toFixed 2 load1 +:+ "  " +:+ "—" +:+ "  " +:+ "—")] hint) host
  | unanswered _ => False
  end.
Proof.
  intros H1 H5 H15. cbn [AboutSettings query_data Storage.is_loading fmap option_fmap option_map About.host_rows About.reading_row]. cbn.
  rewrite H1, H5, H15. eexists. right. left. reflexivity.
Qed.

(** A refetch that fails takes away what had been read. *)
Lemma failure_hides_the_cards data e fetching health : exists n, AboutSettings (errored (Some data) e fetching) health = unanswered n.
Proof. by eexists. Qed.
End About.
End AboutPage.

(** ** Examples *)
Module Examples.
Import Stored Controls Pages Session.

Definition no_print (_ : Fields) (_ : Z) : string := "12:00:00".
Definition stored_blob : json := JObj [("units", JStr "aviation"); ("notifyCategories", JObj [("drone", JBool false)])].
Definition read_blob (s : string) : option json := if s === "old" then Some stored_blob else None.
Definition some_presses : list Press :=
  [on_control 0 (chooses ["imperial"]); on_control 0 (chooses []); on_control 5 (chooses ["light"]); on_control 10 (turns true);
   on_control 12 (turns false); on_control 25 (chooses ["5000"]); on_control 20 clicks].
Abbreviation first_visit parse := (visit parse (fun _ => "new") (Some "old") true (Some "dark") (Some false) true).
Abbreviation after_presses parse :=
  (session (fun _ => "new") no_print no_print (Some "Europe/Paris") "2024-01-01T00:00:00Z" 0 (first_visit parse) some_presses).
Definition chosen : Fields := match after_presses read_blob with Some b => pv_preferences (br_provider b) | None => [] end.
Definition read_both (s : string) : option json := if s === "new" then Some (JObj chosen) else read_blob s.

Example pressed : match after_presses read_blob with
  | Some b => (assoc "units" chosen, assoc "logLimit" chosen, assoc "notifyCategories" chosen, List.length (br_sounds b), Theme.has_dark_class (br_themes b)) =
              (Some (JStr "imperial"), Some (JNum (of_Z 5000)), Some (JObj [("drone", JBool true); ("stream", JBool false)]), 1%nat, false)
  | None => False
  end.
Proof. vm_compute. reflexivity. Qed.

(** The pages after these presses, and those of the next visit. *)
Lemma settings_show_what_was_pressed_witness :
  match after_presses read_both with
  | Some b =>
      all_draw no_print no_print (Some "Europe/Paris") "2024-01-01T00:00:00Z" 0 b = true /\
      faces no_print no_print (Some "Europe/Paris") "2024-01-01T00:00:00Z" 0 (reload read_both (fun _ => "new") b None) =
      faces no_print no_print (Some "Europe/Paris") "2024-01-01T00:00:00Z" 0 b
  | None => False
  end.
Proof.
  assert (match after_presses read_both with Some b => Some (pv_preferences (br_provider b)) | None => None end = Some chosen) as E
    by (vm_compute; reflexivity).
  destruct (after_presses read_both) as [b|] eqn:Hrun; [|discriminate E]. apply (inj Some) in E.
  destruct (settings_show_what_was_pressed read_both (fun _ => "new") no_print no_print (Some "Europe/Paris") "2024-01-01T00:00:00Z" 0
    (Some "old") (Some "dark") true true (Some false) some_presses b Hrun) as (_ & _ & Hd & Hl).
  split; [apply Hd; vm_compute; reflexivity|]. apply Hl; [reflexivity|reflexivity|rewrite E; reflexivity|discriminate].
Defined.

(** A stored unit that is none of the three is kept, and no page of measures can be
    drawn, the one that would change it among them; a reset mends it. *)
Definition unknown_unit (s : string) : option json := if s === "old" then Some (JObj [("units", JStr "nautical")]) else None.
Lemma an_unknown_unit_stops_the_page :
  all_draw no_print no_print None "" 0 (first_visit unknown_unit) = false /\
  match press (fun _ => "new") no_print no_print None "" 0 (first_visit unknown_unit) on_reset with
  | Some b => all_draw no_print no_print None "" 0 b = true
  | None => False
  end.
Proof. vm_compute. by split. Qed.

(** The preferences as they ship have one option down on every choice. *)
Example defaults_are_offered :
  forallb (fun f => match f with [] | [_] => true | _ => Nat.eqb (List.length (List.filter id f)) 1 end)
    (map face (BLANK no_print no_print None "" 0)) = true.
Proof. vm_compute. reflexivity. Qed.

Example about_of_a_unit :
  AboutPage.status_rows (Some {| hl_status := sys_degraded; hl_uptime_s := of_Z 3725; hl_version := "1.2.0"; hl_sensors := [] |}) =
  [row "Overall" [plain "degraded"] None; row "API uptime" [plain "1h 2m"] (Some "Since the api process started, not since boot");
   row "Sensors healthy" [plain "0 of 0"] None].
Proof. vm_compute. reflexivity. Qed.
End Examples.
