(* ===== verification/CalibrationPage.v ===== *)
(** * CalibrationPage: the receiver's settings as they are edited

    [routes/settings/calibration.tsx], whole: its five cards over the editors of
    [Calibration] and the form of [SettingsForms], with the save each has under way,
    what the server answered and what the page then says; and the form's fields as
    [features/settings/setting-fields.tsx] draws them.  Each editor is a state
    machine whose events include the answers. *)
From Stdlib Require Import ZArith Bool String Ascii List Lia SpecFloat.
From stdpp Require Import base tactics option list strings gmap pretty.
From S2P Require Import Prelude JsNumber JsString JsParse ApiTypes Format HealthView Transport Access Calibration SettingsForms UnitPanels SettingsPages.

(** ** setting-fields.tsx: a group as it is drawn *)
Module GroupForm.
Import SettingsGroup ExternalData.

(** The form, its save, and the registry's text for each key. *)
Record Form := { fm_group : Group; fm_save : Mutation; fm_docs : string -> option string }.
Definition opened (data : string -> option SettingValue) (docs : string -> option string) : Form :=
  {| fm_group := SettingsGroup.opened data; fm_save := idle; fm_docs := docs |}.

Inductive Event :=
| edits (key text : string)
| submits
| answered (r : bool + Failure)
| refetched_with (data : string -> option SettingValue).
Definition group_event (e : Event) : SettingsGroup.Event :=
  match e with
  | edits key text => edited key text
  | submits => submitted
  | answered (inl restart) => succeeded restart
  | answered (inr _) => failed
  | refetched_with data => refetched data
  end.
Definition step (f : Form) (e : Event) : option Form :=
  match SettingsGroup.step (fm_group f) (group_event e) with
  | None => None
  | Some g => Some {|
      fm_group := g;
      fm_save := match e with submits => mutating | answered r => settled r | _ => fm_save f end;
      fm_docs := fm_docs f |}
  end.
Fixpoint run (f : Form) (es : list Event) : option Form :=
  match es with [] => Some f | e :: es => match step f e with Some f => run f es | None => None end end.

(** [apiError?.field === key], and whether the error names a field at all. *)
Definition names (key : string) (e : ApiError) : bool := Pages.is_string (ae_field e) key.
Definition fieldError (f : Form) (key : string) : option json :=
  match api_error (fm_save f) with Some e => if names key e then Some (ae_message e) else None | None => None end.

Inductive FieldControl :=
| switch_control (checked disabled : bool)
| input_control (numeric : bool) (value : string) (disabled : bool) (placeholder : option string).
Record FieldView := { fv_label : string; fv_hint : option string; fv_locked : bool; fv_error : option json; fv_control : FieldControl }.
Definition field_view (f : Form) (field : FieldSpec) : FieldView :=
  let key := fd_key field in
  let locked := isLocked (gr_data (fm_group f) key) in
  let value := valueOf (fm_group f) key in {|
  fv_label := fd_label field;
  fv_hint := match fd_hint field with Some hint => Some hint | None => fm_docs f key end;
  fv_locked := locked;
  fv_error := fieldError f key;
  fv_control := match fd_kind field with
                | kind_switch => switch_control (value === "true") locked
                | kind_text => input_control false value locked (fd_placeholder field)
                | kind_number => input_control true value locked (fd_placeholder field)
                end |}.
Definition LOCK_NOTE : string := "Held in the environment — a saved value would be ignored by the process that reads it.".

Record View := {
  vw_fields : list FieldView;
  vw_refused : option json;
  vw_stored : option (string * string);
  vw_button : string;
  vw_enabled : bool;
  vw_unsaved : bool
}.
Definition view (saveLabel : string) (fields : list FieldSpec) (f : Form) : View := {|
  vw_fields := map (field_view f) fields;
  vw_refused := match api_error (fm_save f) with
                | Some e => if Pages.js_truthy (ae_field e) then None else Some (ae_message e)
                | None => None
                end;
  vw_stored := if bool_decide (gr_pending (fm_group f) <> ∅) && negb (dirty (fm_group f))
               then Some (if gr_restartRequired (fm_group f)
                          then ("Saved — not running yet", "Stored on the Pi. The process assembled its configuration at startup, so it is still running the previous value; the fields above show what it will use once restarted.")
                          else ("Saved", "Stored on the Pi and in effect."))
               else None;
  vw_button := if mt_pending (fm_save f) then "Saving…" else saveLabel;
  vw_enabled := dirty (fm_group f) && negb (mt_pending (fm_save f));
  vw_unsaved := dirty (fm_group f) |}.

(** A save is under way exactly while the button says so. *)
Lemma one_save_is_shown es f data docs : run (opened data docs) es = Some f ->
  mt_pending (fm_save f) = match gr_saving (fm_group f) with [] => false | _ => true end /\ (List.length (gr_saving (fm_group f)) <= 1)%nat.
Proof.
  assert (forall f0, mt_pending (fm_save f0) = match gr_saving (fm_group f0) with [] => false | _ => true end ->
    (List.length (gr_saving (fm_group f0)) <= 1)%nat -> run f0 es = Some f ->
    mt_pending (fm_save f) = match gr_saving (fm_group f) with [] => false | _ => true end /\ (List.length (gr_saving (fm_group f)) <= 1)%nat) as H;
    [|by apply H; cbn; auto].
  induction es as [|e es IH]; intros f0 H1 H2; cbn [run]; [by intros [= <-]|].
  destruct (step f0 e) as [f1|] eqn:E; [|done]. unfold step in E.
  destruct (SettingsGroup.step (fm_group f0) (group_event e)) as [g|] eqn:Eg; [|done]. injection E as <-.
  apply IH; destruct e as [key text| |[restart|why]|d]; cbn [group_event SettingsGroup.step] in Eg; cbn [fm_save fm_group settled mutating mt_pending].
  1, 6: destruct (isLocked _); [done|]; by injection Eg as <-.
  1, 5: destruct (SettingsGroup.dirty _ && _); [|done]; by injection Eg as <-.
  1, 4: destruct (gr_saving (fm_group f0)) as [|? [|]]; [done| |cbn in H2; lia]; injection Eg as <-; by cbn; lia.
  1, 3: destruct (gr_saving (fm_group f0)) as [|? [|]]; [done| |cbn in H2; lia]; injection Eg as <-; by cbn; lia.
  all: by injection Eg as <-.
Qed.

(** An answer that names a field of the group stands at it and at no other; one
    that names none stands under the fields. *)
Lemma refusals_are_placed saveLabel fields f e : api_error (fm_save f) = Some e ->
  (forall key, ae_field e = Some (JStr key) -> forall fd, In fd fields ->
     fv_error (field_view f fd) = if fd_key fd === key then Some (ae_message e) else None) /\
  (ae_field e = None -> vw_refused (view saveLabel fields f) = Some (ae_message e) /\
     forall fd, fv_error (field_view f fd) = None).
Proof.
  intros He. split.
  - intros key Hk fd _. cbn. unfold fieldError, names. rewrite He, Hk. cbn. by rewrite String.eqb_sym.
  - intros Hn. cbn. rewrite He, Hn. split; [done|]. intros fd. unfold fieldError, names. by rewrite He, Hn.
Qed.

(** A save that no answer came to, the unit being out of reach, leaves the form as
    if it had not been tried. *)
Lemma a_lost_save_is_silent saveLabel fields f e :
  fm_save f = settled (A := bool) (inr (failed_host e)) ->
  view saveLabel fields f = view saveLabel fields {| fm_group := fm_group f; fm_save := idle; fm_docs := fm_docs f |}.
Proof. intros H. unfold view, field_view, fieldError. cbn [fm_group fm_save fm_docs]. by rewrite H. Qed.
End GroupForm.

(** ** The receiver's position, with its save and the browser's location *)
Module PositionCard.
Import SettingsGroup ReceiverPosition.

(** The setting last fetched, the save and whether one has succeeded since the last
    was sent, whether the origin may ask where the browser is, and how many such
    questions are unanswered. *)
Record Card := {
  pc_editor : Editor;
  pc_setting : option SettingValue;
  pc_save : Mutation;
  pc_success : bool;
  pc_located : bool;
  pc_asking : nat
}.
Definition mount (setting : option SettingValue) (can_locate : bool) : Card :=
  {| pc_editor := opened; pc_setting := setting; pc_save := idle; pc_success := false; pc_located := can_locate; pc_asking := 0 |}.

Definition current (c : Card) : option ReceiverPosition := (sv_value <$> pc_setting c) ≫= asReceiverPosition.
Definition locked (c : Card) : bool := match sv_source <$> pc_setting c with Some src_env => true | _ => false end.
Definition dirty (c : Card) : bool := match ed_draft (pc_editor c) with Some _ => true | None => false end.

Definition with_editor (e : Editor) (c : Card) : Card :=
  {| pc_editor := e; pc_setting := pc_setting c; pc_save := pc_save c; pc_success := pc_success c; pc_located := pc_located c; pc_asking := pc_asking c |}.
Definition edit (ev : ReceiverPosition.Event) (c : Card) : Card := with_editor (ReceiverPosition.step (current c) (pc_editor c) ev) c.
Definition with_asking (n : nat) (c : Card) : Card :=
  {| pc_editor := pc_editor c; pc_setting := pc_setting c; pc_save := pc_save c; pc_success := pc_success c; pc_located := pc_located c; pc_asking := n |}.
(** [save.mutate] has been called if the editor sent something. *)
Definition onSubmit (c : Card) : Card :=
  let c' := edit submit c in
  if (List.length (ed_sent (pc_editor c)) <? List.length (ed_sent (pc_editor c')))%nat
  then {| pc_editor := pc_editor c'; pc_setting := pc_setting c; pc_save := mutating; pc_success := false; pc_located := pc_located c; pc_asking := pc_asking c |}
  else c'.
Definition settle (r : unit + Failure) (c : Card) : Card :=
  let c' := match r with inl _ => edit saved c | inr _ => c end in
  {| pc_editor := pc_editor c'; pc_setting := pc_setting c; pc_save := settled r;
     pc_success := match r with inl _ => true | inr _ => false end; pc_located := pc_located c; pc_asking := pc_asking c |}.

Inductive Event :=
| types_lat (text : string)
| types_lon (text : string)
| asks_location
| locates (answer : option (num * num))
| submits
| answered (r : unit + Failure)
| refetched (setting : option SettingValue)
| resets.
Definition enabled (c : Card) (e : Event) : bool :=
  match e with
  | types_lat _ | types_lon _ | asks_location => negb (locked c)
  | locates _ => (0 <? pc_asking c)%nat
  | submits => negb (locked c || mt_pending (pc_save c) || negb (dirty c))
  | answered _ => mt_pending (pc_save c)
  | refetched _ => true
  | resets => dirty c
  end.
Definition handle (c : Card) (e : Event) : Card :=
  match e with
  | types_lat text => edit (type_lat text) c
  | types_lon text => edit (type_lon text) c
  | asks_location => if pc_located c then with_asking (S (pc_asking c)) c else c
  | locates answer =>
      let c := with_asking (pc_asking c - 1) c in
      match answer with Some p => edit (located p.1 p.2) c | None => c end
  | submits => onSubmit c
  | answered r => settle r c
  | refetched setting =>
      {| pc_editor := pc_editor c; pc_setting := setting; pc_save := pc_save c; pc_success := pc_success c; pc_located := pc_located c; pc_asking := pc_asking c |}
  | resets => edit reset c
  end.
Definition step (c : Card) (e : Event) : option Card := if enabled c e then Some (handle c e) else None.
Fixpoint run (c : Card) (es : list Event) : option Card :=
  match es with [] => Some c | e :: es => match step c e with Some c => run c es | None => None end end.

(** What the card says above its fields, and its fields and buttons. *)
Record View := {
  vp_alerts : list (string * string * json);
  vp_lat : string; vp_lon : string; vp_disabled : bool;
  vp_button : string; vp_can_save : bool; vp_unsaved : bool
}.
Definition shown_alert (tone title : string) (body : json) : string * string * json := (tone, title, body).
Definition code_text (e : ApiError) : string := match ae_code e with Some v => Pages.js_String v | None => "undefined" end.
Definition view (c : Card) : View := {|
  vp_alerts :=
    (if locked c then [shown_alert "info" "Set by the environment" (JStr "CLASSG_RECEIVER_POSITION takes precedence over this field. Unset it to manage this value here.")] else []) ++
    (match truthy (ed_formError (pc_editor c)) with Some text => [shown_alert "error" "Not saved" (JStr text)] | None => [] end) ++
    (match api_error (pc_save c) with Some e => [shown_alert "error" ("Save failed (" +:+ code_text e +:+ ")") (ae_message e)] | None => [] end) ++
    (if pc_success c && negb (dirty c) then [shown_alert "ok" "Saved" (JStr "Applied immediately — no restart needed.")] else []);
  vp_lat := lat (current c) (pc_editor c); vp_lon := lon (current c) (pc_editor c); vp_disabled := locked c;
  vp_button := if mt_pending (pc_save c) then "Saving…" else "Save";
  vp_can_save := enabled c submits; vp_unsaved := dirty c |}.

(** *** Facts *)

Definition is_answer (e : Event) : bool := match e with answered _ => true | _ => false end.
Definition answers (es : list Event) : nat := List.length (List.filter is_answer es).
Definition env_held (setting : option SettingValue) : bool := match sv_source <$> setting with Some src_env => true | _ => false end.
Definition stays_held (e : Event) : Prop := match e with refetched setting => env_held setting = true | _ => True end.

(** One event sends nothing, or is a submission that sends one value. *)
Lemma handle_sends c e : enabled c e = true ->
  ed_sent (pc_editor (handle c e)) = ed_sent (pc_editor c) /\
    mt_pending (pc_save (handle c e)) = mt_pending (pc_save c) && negb (is_answer e) \/
  e = submits /\ mt_pending (pc_save c) = false /\ mt_pending (pc_save (handle c e)) = true /\
    exists raw, ed_sent (pc_editor (handle c e)) = ed_sent (pc_editor c) ++ [raw].
Proof.
  intros He. destruct e as [text|text| |answer| |r|setting|]; cbn [handle is_answer negb]; rewrite ?andb_true_r, ?andb_false_r; try (left; by split).
  - left. by destruct (pc_located c).
  - left. by destruct answer.
  - unfold onSubmit. destruct (step_sends (current c) (pc_editor c) submit) as [E|[_ [raw E]]]; cbn [edit with_editor pc_editor pc_save]; rewrite E.
    + left. rewrite Nat.ltb_irrefl. by cbn [pc_editor pc_save].
    + right. rewrite length_app, Nat.add_1_r. replace (_ <? S _)%nat with true by (symmetry; apply Nat.ltb_lt; lia). cbn [pc_editor pc_save].
      cbn [enabled] in He. rewrite E. destruct (mt_pending (pc_save c)); [by rewrite orb_true_r in He|]. split_and!; [done..|]. by exists raw.
  - left. by destruct r.
Qed.
Lemma handle_sendable c e : List.Forall sendable (ed_sent (pc_editor c)) -> List.Forall sendable (ed_sent (pc_editor (handle c e))).
Proof.
  intros H. destruct e as [text|text| |answer| |r|setting|]; cbn [handle]; try (by apply step_sendable); try exact H.
  - by destruct (pc_located c).
  - destruct answer; [by apply step_sendable|exact H].
  - unfold onSubmit. by destruct (_ <? _)%nat; apply step_sendable.
  - destruct r; [by apply step_sendable|exact H].
Qed.

(** In every session of the card each value sent unsets the position or is a pair of
    finite numbers, and there is one more of them than answers exactly while a save
    is under way; while the position is held in the environment none is sent. *)
Lemma positions_are_sent_whole setting can_locate es c : run (mount setting can_locate) es = Some c ->
  List.Forall sendable (ed_sent (pc_editor c)) /\
  List.length (ed_sent (pc_editor c)) = (answers es + (if mt_pending (pc_save c) then 1 else 0))%nat /\
  (env_held setting = true -> List.Forall stays_held es -> ed_sent (pc_editor c) = []).
Proof.
  assert (forall c0, List.Forall sendable (ed_sent (pc_editor c0)) -> run c0 es = Some c ->
    List.Forall sendable (ed_sent (pc_editor c)) /\
    (List.length (ed_sent (pc_editor c)) + (if mt_pending (pc_save c0) then 1 else 0) =
      List.length (ed_sent (pc_editor c0)) + (answers es + (if mt_pending (pc_save c) then 1 else 0)))%nat /\
    (locked c0 = true -> List.Forall stays_held es -> ed_sent (pc_editor c) = ed_sent (pc_editor c0))) as H.
  { induction es as [|e es IH]; intros c0 H0; cbn [run]; [intros [= <-]; split_and!; [done|unfold answers; cbn; lia|done]|].
    unfold step. destruct (enabled c0 e) eqn:He; [|done]. intros Hr.
    destruct (IH _ (handle_sendable c0 e H0) Hr) as (J1 & J2 & J3). destruct (handle_sends c0 e He) as [[E1 E2]|(-> & E1 & E2 & raw & E3)].
    - split_and!; [done| |].
      + rewrite E1, E2 in J2. unfold answers in *. cbn [List.filter]. destruct (is_answer e) eqn:Ea; cbn [negb List.length] in *; [|rewrite andb_true_r in J2; lia].
        rewrite andb_false_r in J2. destruct e; try done. cbn [enabled] in He. rewrite He. lia.
      + intros Hl Hh. inversion Hh as [|? ? Hh1 Hh2]; subst. rewrite <- E1. apply J3; [|done].
        destruct e as [text|text| |answer| |r|setting'|]; cbn [handle] in *; try done.
        * by destruct (pc_located c0).
        * by destruct answer.
        * unfold onSubmit. by destruct (_ <? _)%nat.
    - split_and!; [done| |].
      + rewrite E2, E3, length_app in J2. cbn [List.length] in J2. rewrite E1. unfold answers in *. cbn [List.filter is_answer]. lia.
      + intros Hl. cbn [enabled] in He. by rewrite Hl in He. }
  intros Hr. destruct (H (mount setting can_locate)) as (J1 & J2 & J3); [constructor|done|]. split_and!; [done|cbn in J2; lia|exact J3].
Qed.

(** "Saved" is shown only after a success that nothing was typed since, and a
    failure the server did not word leaves the card as it was. *)
Lemma saved_is_so c : In (shown_alert "ok" "Saved" (JStr "Applied immediately — no restart needed.")) (vp_alerts (view c)) ->
  pc_success c = true /\ ed_draft (pc_editor c) = None.
Proof.
  cbn. rewrite !in_app_iff. intros [H|[H|[H|H]]].
  - destruct (locked c); [destruct H as [[=]|[]]|destruct H].
  - destruct (truthy _); [destruct H as [[=]|[]]|destruct H].
  - destruct (api_error _); [destruct H as [[=]|[]]|destruct H].
  - unfold dirty in H. destruct (pc_success c), (ed_draft (pc_editor c)); try destruct H; done.
Qed.
Lemma a_lost_position_is_silent c e : vp_alerts (view (settle (inr (failed_host e)) c)) =
  (if locked c then [shown_alert "info" "Set by the environment" (JStr "CLASSG_RECEIVER_POSITION takes precedence over this field. Unset it to manage this value here.")] else []) ++
  (match truthy (ed_formError (pc_editor c)) with Some text => [shown_alert "error" "Not saved" (JStr text)] | None => [] end).
Proof. cbn. by rewrite app_nil_r. Qed.

(** Where the browser is comes when it comes: what was typed since it was asked is
    replaced, and what was typed while a save was under way is lost with it. *)
Lemma a_late_location_replaces c text a b : locked c = false -> pc_located c = true ->
  exists c', run c [asks_location; types_lat text; locates (Some (a, b))] = Some c' /\
    lat (current c') (pc_editor c') = num_string a /\ lon (current c') (pc_editor c') = num_string b.
Proof.
  intros Hl Hc. cbn [run]. unfold step at 1. cbn [enabled handle]. rewrite Hl, Hc. cbn [negb].
  unfold step at 1. cbn [enabled handle]. replace (locked (with_asking _ c)) with false by (symmetry; exact Hl). cbn [negb].
  unfold step at 1. cbn [enabled edit with_editor with_asking pc_asking]. cbn. by eexists.
Qed.
Lemma typing_while_saving c text c' : locked c = false -> run c [submits; types_lat text; answered (inl tt)] = Some c' ->
  lat (current c') (pc_editor c') = match current c with Some p => num_string (rp_lat p) | None => "" end.
Proof.
  intros Hl. cbn [run]. unfold step at 1. destruct (enabled c submits) eqn:He; [|done]. unfold step at 1. cbn [handle].
  destruct (enabled (onSubmit c) _); [|done]. unfold step.
  destruct (enabled (edit (type_lat text) (onSubmit c)) (answered (inl tt))); [|done]. intros Hc. injection Hc as <-.
  unfold onSubmit. by destruct (_ <? _)%nat.
Qed.
End PositionCard.

(** ** The channel plan: what the receivers loaded, and what is recorded *)
Module PlanCard.
Import ChannelPlan.

(** A line of the receivers' list; a row of the recorded plan. *)
Record LoadedLine := { ll_sensor : string; ll_file : option string; ll_note : option string }.
Definition loaded_line (sensor : SensorHealth) : LoadedLine :=
  let p := loadedPlan sensor in {|
  ll_sensor := sh_sensor_id sensor; ll_file := lo_file p;
  ll_note := if lo_widened p || lo_widenedForPeer p
             then Some (if lo_widened p then "Widened to the full plan — it found itself alone." else "Widened while its peer is busy.")
             else None |}.
Definition wifi_sensors (sensors : option (list SensorHealth)) : list SensorHealth :=
  List.filter (fun sensor => bool_decide (sh_sensor_kind sensor = wifi)) (sensors ?? []).

Record PlanRow := { lr_channel : string; lr_freq : string; lr_weight : string; lr_share : string }.
Definition plan_row (channels : list ChannelPlanEntry) (entry : ChannelPlanEntry) : PlanRow := {|
  lr_channel := num_string (ce_channel entry); lr_freq := num_string (ce_freq_mhz entry) +:+ " MHz";
  lr_weight := num_string (ce_weight entry); lr_share := dwell_share channels entry |}.

(** The copy button: whether there is a clipboard, the tick, the writes under way
    and the timers that will take the tick down. *)
Record Copying := { cy_clipboard : bool; cy_copied : bool; cy_writing : list string; cy_timers : nat }.
Definition mount (clipboard : bool) : Copying := {| cy_clipboard := clipboard; cy_copied := false; cy_writing := []; cy_timers := 0 |}.
Inductive Event := copyAsYaml (plan : option (list ChannelPlanEntry)) | wrote (ok : bool) | timed_out.
Definition step (c : Copying) (e : Event) : option Copying :=
  match e with
  | copyAsYaml None => Some c
  | copyAsYaml (Some plan) =>
      Some (if cy_clipboard c
            then {| cy_clipboard := true; cy_copied := cy_copied c; cy_writing := cy_writing c ++ [channelPlanYaml plan]; cy_timers := cy_timers c |}
            else c)
  | wrote ok =>
      match cy_writing c with
      | [] => None
      | _ :: rest => Some {| cy_clipboard := cy_clipboard c; cy_copied := ok; cy_writing := rest;
                             cy_timers := if ok then S (cy_timers c) else cy_timers c |}
      end
  | timed_out =>
      match cy_timers c with
      | O => None
      | S n => Some {| cy_clipboard := cy_clipboard c; cy_copied := false; cy_writing := cy_writing c; cy_timers := n |}
      end
  end.
Fixpoint run (c : Copying) (es : list Event) : option Copying :=
  match es with [] => Some c | e :: es => match step c e with Some c => run c es | None => None end end.

(** The table and its foot; [None] while there is no plan. *)
Record Recorded := { rc_rows : list PlanRow; rc_button : string; rc_foot : string }.
Record View := { vc_loaded : list LoadedLine; vc_nobody : option string; vc_recorded : option Recorded }.
Definition ChannelPlanView (plan : option (list ChannelPlanEntry)) (sensors : option (list SensorHealth)) (c : Copying) : View := {|
  vc_loaded := map loaded_line (wifi_sensors sensors);
  vc_nobody := match wifi_sensors sensors with
               | [] => Some "No Wi-Fi receiver is heartbeating, so nothing can say which plan is loaded. The Sensors page is where a missing radio shows up."
               | _ => None
               end;
  vc_recorded := match plan with
                 | None => None
                 | Some channels => Some {|
                     rc_rows := map (plan_row channels) channels;
                     rc_button := if cy_copied c then "Copied" else "Copy as YAML";
                     rc_foot := pretty (zlen channels) +:+ " channels · total weight " +:+ toFixed 2 (total channels) |}
                 end |}.

(** A tick has its timer, so it comes down; without a clipboard nothing is written
    and there is none. *)
Lemma the_tick_comes_down clipboard es c : run (mount clipboard) es = Some c ->
  (cy_copied c = true -> (0 < cy_timers c)%nat) /\ (clipboard = false -> cy_writing c = [] /\ cy_copied c = false).
Proof.
  assert (forall c0, (cy_copied c0 = true -> (0 < cy_timers c0)%nat) -> cy_clipboard c0 = clipboard ->
    (clipboard = false -> cy_writing c0 = [] /\ cy_copied c0 = false) -> run c0 es = Some c ->
    (cy_copied c = true -> (0 < cy_timers c)%nat) /\ (clipboard = false -> cy_writing c = [] /\ cy_copied c = false)) as H; [|by apply H].
  induction es as [|e es IH]; intros c0 H1 H2 H3; cbn [run]; [by intros [= <-]|].
  destruct e as [[plan|]|ok|]; cbn [step].
  - destruct (cy_clipboard c0) eqn:E; [|exact (IH c0 H1 (eq_trans E H2) H3)]. apply IH; cbn; [done|congruence|congruence].
  - by apply IH.
  - destruct (cy_writing c0) as [|w rest] eqn:Ew; [done|]. apply IH; cbn; [destruct ok; [lia|done]|done|]. intros Hf. by destruct (H3 Hf).
  - destruct (cy_timers c0) eqn:Et; [done|]. apply IH; cbn; [done|done|]. intros Hf. by destruct (H3 Hf).
Qed.

(** Two copies in a row: the first one's timer takes down the second one's tick. *)
Lemma an_earlier_timer_takes_the_tick plan : exists c, run (mount true)
    [copyAsYaml (Some plan); wrote true; copyAsYaml (Some plan); wrote true; timed_out] = Some c /\ cy_copied c = false /\ cy_timers c = 1%nat.
Proof. by eexists. Qed.

(** Every Wi-Fi receiver has one line, and no other sensor has one. *)
Lemma each_receiver_has_a_line sensors : map ll_sensor (map loaded_line (wifi_sensors sensors)) =
  map sh_sensor_id (List.filter (fun s => bool_decide (sh_sensor_kind s = wifi)) (sensors ?? [])).
Proof. by rewrite map_map. Qed.
End PlanCard.

(** ** The fusion weights, with their save *)
Module WeightsCard.
Import DetectionClasses Weights.

Record Card := { wc_editor : Editor; wc_data : option FusionWeights; wc_save : Mutation; wc_success : bool }.
Definition mount (data : option FusionWeights) : Card :=
  {| wc_editor := opened; wc_data := data; wc_save := idle; wc_success := false |}.

Section Card.
Context {Z : Zod}.

Inductive Event :=
| changes (code : DetectionClass) (text : string)
| submits
| resets
| answered (r : unit + Failure)
| refetched (data : option FusionWeights).

Definition drafted (c : Card) : option FusionWeights := draft (wc_data c) (wc_editor c).
(** A field is there for the classes that have a weight; the buttons are there once
    there are weights. *)
Definition enabled (c : Card) (e : Event) : bool :=
  match e with
  | changes code _ => match drafted c with Some ws => match ws code with Some _ => true | None => false end | None => false end
  | submits => match drafted c with Some _ => negb (mt_pending (wc_save c)) | None => false end
  | resets => match drafted c with Some _ => true | None => false end
  | answered _ => mt_pending (wc_save c)
  | refetched _ => true
  end.
Definition with_editor (e : Editor) (c : Card) : Card :=
  {| wc_editor := e; wc_data := wc_data c; wc_save := wc_save c; wc_success := wc_success c |}.
Definition handle (c : Card) (e : Event) : Card :=
  match e with
  | changes code text => with_editor (onChange code text (wc_editor c)) c
  | submits =>
      let e := onSubmit (wc_data c) (wc_editor c) in
      if (List.length (we_sent (wc_editor c)) <? List.length (we_sent e))%nat
      then {| wc_editor := e; wc_data := wc_data c; wc_save := mutating; wc_success := false |}
      else with_editor e c
  | resets => with_editor (onReset (wc_data c) (wc_editor c)) c
  | answered r =>
      {| wc_editor := wc_editor c; wc_data := wc_data c; wc_save := settled r;
         wc_success := match r with inl _ => true | inr _ => false end |}
  | refetched data => {| wc_editor := wc_editor c; wc_data := data; wc_save := wc_save c; wc_success := wc_success c |}
  end.
Definition step (c : Card) (e : Event) : option Card := if enabled c e then Some (handle c e) else None.
Fixpoint run (c : Card) (es : list Event) : option Card :=
  match es with [] => Some c | e :: es => match step c e with Some c => run c es | None => None end end.

Record WeightRow := { wr_code : DetectionClass; wr_label : string; wr_value : num; wr_hint : string; wr_error : option string }.
Definition weight_row (ws : FusionWeights) (errors : DetectionClass -> option string) (code : DetectionClass) : WeightRow :=
  let why := ci_justification (detectionClassInfo code) in {|
  wr_code := code; wr_label := ci_label (detectionClassInfo code); wr_value := ws code ?? of_Z 0;
  wr_hint := slice 0 64 why +:+ (if 64 <? slen why then "…" else "");
  wr_error := truthy (errors code) |}.
Definition example (digits : nat) (label : string) (value : num) : string := label +:+ " → " +:+ toFixed digits value.
Record View := { vw_alerts : list (string * json * string); vw_rows : list WeightRow; vw_examples : list string; vw_button : string; vw_enabled : bool }.
Definition FusionWeightsEditor (c : Card) : option View :=
  match drafted c with
  | None => None
  | Some ws => Some {|
      vw_alerts :=
        [("Recorded here, compiled into fusion",
          JStr "Fusion runs the weights compiled into it and reads nothing back from here, so editing these records the intended weights rather than changing the confidence of any track on screen — including after a restart.", "")] ++
        (match api_error (wc_save c) with
         | Some e => [("Save failed (" +:+ PositionCard.code_text e +:+ ")", ae_message e,
                       if Pages.js_truthy (ae_field e) then " (field: " +:+ match ae_field e with Some v => Pages.js_String v | None => "" end +:+ ")" else "")]
         | None => []
         end) ++
        (if wc_success c then [("Recorded — not applied", JStr "Stored as the intended weights. The confidence numbers on screen are unchanged.", "")] else []);
      vw_rows := map (weight_row ws (we_errors (wc_editor c))) (present ws);
      vw_examples := [example 2 "A alone" (ws ClsA ?? of_Z 0); example 3 "A + B" (noisyOr (omap ws [ClsA; ClsB]));
                      example 3 "A + B + C" (noisyOr (omap ws [ClsA; ClsB; ClsC])); example 2 "C alone" (ws ClsC ?? of_Z 0)];
      vw_button := if mt_pending (wc_save c) then "Recording…" else "Record intended weights";
      vw_enabled := negb (mt_pending (wc_save c)) |}
  end.

(** Whoever has not pressed Reset has not edited: in every session without a reset
    the weights sent are weights that had been read, whatever was typed. *)
Lemma only_what_was_read_is_sent data es c : run (mount data) es = Some c -> ~ In resets es ->
  forall ws, In ws (we_sent (wc_editor c)) -> data = Some ws \/ In (refetched (Some ws)) es.
Proof.
  assert (forall es c0, we_override (wc_editor c0) = None -> run c0 es = Some c -> ~ In resets es ->
    forall ws, In ws (we_sent (wc_editor c)) -> In ws (we_sent (wc_editor c0)) \/ wc_data c0 = Some ws \/ In (refetched (Some ws)) es) as H.
  { clear es. intros es. induction es as [|e es IH]; intros c0 H0; cbn [run]; [intros [= <-]; auto|]. unfold step.
    destruct (enabled c0 e) eqn:He; [|done]. intros Hr Hn ws Hw.
    assert (we_override (wc_editor (handle c0 e)) = None) as H1.
    { destruct e as [code text| | |r|d]; cbn [handle]; try done.
      - unfold onChange. cbn. by rewrite H0.
      - assert (we_override (onSubmit (wc_data c0) (wc_editor c0)) = None) as E; [|by destruct (_ <? _)%nat].
        unfold onSubmit. destruct (draft _ _); [|done]. by destruct (valid _).
      - by destruct Hn; left. }
    destruct (IH _ H1 Hr (fun H => Hn (or_intror H)) ws Hw) as [J|[J|J]]; [| |by right; right; right].
    - destruct e as [code text| | |r|d]; cbn [handle] in J; try (by left).
      assert (In ws (we_sent (onSubmit (wc_data c0) (wc_editor c0)))) as E by (by destruct (_ <? _)%nat).
      unfold onSubmit, draft in E. rewrite H0 in E. destruct (wc_data c0) as [d|] eqn:Ed; [|by left].
      destruct (valid d); [|by left]. apply in_app_iff in E as [E|[<-|[]]]; [by left|by right; left].
    - destruct e as [code text| | |r|d]; cbn [handle] in J; right; try (by left).
      + left. by destruct (_ <? _)%nat.
      + cbn [wc_data] in J. rewrite J. right. by left. }
  intros Hr Hn ws Hw. destruct (H es (mount data) eq_refl Hr Hn ws Hw) as [[]|J]. exact J.
Qed.

(** A row for each class that has a weight, in the order of the classes, whose
    value is that weight. *)
Lemma rows_are_the_weights c v ws : drafted c = Some ws -> FusionWeightsEditor c = Some v ->
  map wr_code (vw_rows v) = present ws /\ forall r, In r (vw_rows v) -> ws (wr_code r) = Some (wr_value r).
Proof.
  unfold FusionWeightsEditor. intros ->. intros [= <-]. cbn [vw_rows]. split; [rewrite map_map; apply map_id|].
  intros r (code & <- & Hc)%in_map_iff. cbn. apply filter_In in Hc as [_ Hc]. by destruct (ws code).
Qed.
End Card.
End WeightsCard.

(** ** The page *)
Module Whole.
Import ExternalData.

Definition ExpectedSensorsCard : string * list FieldSpec :=
  ("Expected sensors",
   [field_with "sensors.expected" "Declared sensors" kind_text "Reference build: wifi-0:wifi,wifi-1:wifi:optional,sdr-0:sdr:optional"]).
Definition DetectionTimingCard : string * list FieldSpec :=
  ("Timing and limits",
   [field "sensors.stale_after" "Sensor is unhealthy after" kind_text; field "fusion.track_ttl" "Close a track after" kind_text;
    field_with "fusion.resume_within" "Resume a closed flight within" kind_text
      "Heard again airborne inside this window, an aircraft rejoins the track it left. 0 turns it off.";
    field_with "fusion.max_history" "Position history per track" kind_number
      "Points kept per track. The trail on the map and the history table both read this.";
    field_with "spectrum.sweep_timeout" "Abandon a sweep after" kind_text
      "A wedged USB device must not hold the radio away from ADS-B for ever.";
    field_with "capture.analyze_timeout" "Abandon a capture analysis after" kind_text
      "Raise it for large captures; bounded so a wedged parse cannot hold a request open for ever."]).

Record Page := {
  pg_position : PositionCard.Card;
  pg_expected : GroupForm.Form;
  pg_timing : GroupForm.Form;
  pg_plan : option (list ChannelPlan.ChannelPlanEntry);
  pg_sensors : option (list SensorHealth);
  pg_copying : PlanCard.Copying;
  pg_weights : WeightsCard.Card
}.
Record View := {
  vc_position : PositionCard.View; vc_expected : GroupForm.View; vc_timing : GroupForm.View; vc_plan : PlanCard.View; vc_weights : option WeightsCard.View
}.
Definition CalibrationSettings (p : Page) : View := {|
  vc_position := PositionCard.view (pg_position p);
  vc_expected := GroupForm.view "Save" (snd ExpectedSensorsCard) (pg_expected p);
  vc_timing := GroupForm.view "Save" (snd DetectionTimingCard) (pg_timing p);
  vc_plan := PlanCard.ChannelPlanView (pg_plan p) (pg_sensors p) (pg_copying p);
  vc_weights := WeightsCard.FusionWeightsEditor (pg_weights p)
|}.

(** No setting is edited in two places: not on this page, nor here and among the
    external data. *)
Lemma each_setting_has_one_field data :
  List.NoDup (map fd_key (snd ExpectedSensorsCard ++ snd DetectionTimingCard ++ flat_map dc_fields (snd (ExternalDataSettings data)))).
Proof. cbn. repeat (constructor; [cbn; intuition discriminate|]). constructor. Qed.
End Whole.

(** ** Examples *)
Module Examples.

Definition stored (v : json) : SettingsGroup.SettingValue :=
  {| SettingsGroup.sv_value := v; SettingsGroup.sv_source := SettingsGroup.src_db; SettingsGroup.sv_mutable := true |}.
Definition place (a b : num) : option SettingsGroup.SettingValue := Some (stored (JObj [("lat", JNum a); ("lon", JNum b)])).

Definition told (c : PositionCard.Card) : list string * list string :=
  (ReceiverPosition.ed_sent (PositionCard.pc_editor c), map (fun a => snd (fst a)) (PositionCard.vp_alerts (PositionCard.view c))).
Definition session (es : list PositionCard.Event) : option (list string * list string) :=
  told <$> PositionCard.run (PositionCard.mount (place (dec 515 1) (dec (-15) 1)) true) es.

Example one_field_cleared : session [PositionCard.types_lat ""; PositionCard.submits] = Some ([], ["Not saved"]).
Proof. vm_compute. reflexivity. Qed.
Example moved_and_saved :
  session [PositionCard.types_lat "51.25"; PositionCard.submits; PositionCard.answered (inl tt)] = Some (["51.25,-1.5"], ["Saved"]).
Proof. vm_compute. reflexivity. Qed.
(** The unit is out of reach: the save ends and nothing is said. *)
Example moved_and_lost :
  session [PositionCard.types_lat "51.25"; PositionCard.submits; PositionCard.answered (inr (failed_host NetworkError))] = Some (["51.25,-1.5"], []).
Proof. vm_compute. reflexivity. Qed.

Lemma positions_are_sent_whole_witness :
  let c := PositionCard.run (PositionCard.mount (place (dec 515 1) (dec (-15) 1)) true)
    [PositionCard.types_lat "51.25"; PositionCard.submits; PositionCard.answered (inl tt); PositionCard.types_lon "2"; PositionCard.submits] in
  match c with
  | Some c => List.length (ReceiverPosition.ed_sent (PositionCard.pc_editor c)) = 2%nat /\ List.Forall ReceiverPosition.sendable (ReceiverPosition.ed_sent (PositionCard.pc_editor c))
  | None => False
  end.
Proof.
  cbv zeta. destruct (PositionCard.run _ _) as [c|] eqn:E; [|vm_compute in E; discriminate E].
  destruct (PositionCard.positions_are_sent_whole _ _ _ c E) as (H1 & H2 & _). split; [|exact H1].
  rewrite H2. vm_compute in E. injection E as <-. reflexivity.
Defined.

Definition weights_read : Weights.FusionWeights := fun c => match c with ClsA => Some (dec 6 1) | ClsB => Some (dec 5 1) | ClsC => Some (dec 1 1) | _ => None end.
Definition no_zod : Weights.Zod := {| Weights.not_a_number := fun _ => "" |}.
Example what_the_weights_mean :
  option_map WeightsCard.vw_examples (WeightsCard.FusionWeightsEditor (WeightsCard.mount (Some weights_read))) =
  Some ["A alone → 0.60"; "A + B → 0.800"; "A + B + C → 0.820"; "C alone → 0.10"].
Proof. vm_compute. reflexivity. Qed.
(** Typing and recording without a reset: what was read is what is recorded. *)
Lemma only_what_was_read_is_sent_witness :
  match WeightsCard.run (Z := no_zod) (WeightsCard.mount (Some weights_read)) [WeightsCard.changes ClsA "0.9"; WeightsCard.submits] with
  | Some c => forall ws, In ws (Weights.we_sent (WeightsCard.wc_editor c)) -> Some weights_read = Some ws
  | None => False
  end.
Proof.
  destruct (WeightsCard.run _ _) as [c|] eqn:E; [|vm_compute in E; discriminate E]. intros ws Hw.
  destruct (WeightsCard.only_what_was_read_is_sent (Z := no_zod) (Some weights_read) [WeightsCard.changes ClsA "0.9"; WeightsCard.submits] c E) with (ws := ws)
    as [H|[H|[H|[]]]]; [intros [H|[H|[]]]; discriminate H|exact Hw|exact H|discriminate H|discriminate H].
Defined.
End Examples.
