(* ===== verification/ShareDialog.v ===== *)
(** * ShareDialog: the card as it is drawn, and how it leaves the browser

    [features/tracks/share/share-card.tsx], every element of the card as a function of
    the model; [share-card-export.ts], what the browser offers and the name of the
    file; [share-track.tsx], the dialog with its switch and its three buttons, as a
    state machine over what the browser answers.  Drawing the image from the card is
    the browser's: an image stands for the card it was drawn from. *)
From Stdlib Require Import ZArith Bool String Ascii List Lia SpecFloat.
From stdpp Require Import base tactics option list strings pretty.
From S2P Require Import Prelude JsNumber JsString ApiTypes Format ShareCard.

(** ** share-card.tsx *)
Module Drawn.

Definition CARD_WIDTH : Z := 1080.
Definition CARD_HEIGHT : Z := 1440.
Definition PAD : Z := 72.
Definition INNER : Z := CARD_WIDTH - PAD * 2.

Inductive Colour := night | cyan | fog | panel | edge | dim | grid.
Definition C (c : Colour) : string :=
  match c with
  | night => "#061827" | cyan => "#57c8f7" | fog => "#f0f3f5" | panel => "#0c2236" | edge => "#153048" | dim => "#8ba3b8" | grid => "#122d44"
  end.
Inductive Family := SANS | MONO.
Inductive Anchor := at_start | at_middle | at_end.

(** An element of the picture. *)
Inductive Element :=
| mark (x y size : num)
| text (x y : num) (anchor : Anchor) (family : Family) (size : num) (fill : Colour) (body : string)
| rect (x y w h : num) (fill : Colour)
| line (x1 y1 x2 y2 : num) (stroke : Colour)
| polyline (points : string) (stroke : Colour).
Definition z (n : Z) : num := of_Z n.

(** Long identifiers step down in size. *)
Definition fitSize (body : string) (base perChar limit : num) : num :=
  let estimated := ndiv (ndiv limit (nmax (z 1) (z (slen body)))) perChar in
  nmax (z 18) (nmin base estimated).

Definition Label (x y : Z) (body : string) : Element := text (z x) (z y) at_start SANS (z 19) dim (toUpperCase body).
Definition Mark (x y size : Z) : Element := mark (z x) (z y) (z size).
Definition Stat (x y : Z) (label value : string) : list Element :=
  [text (z x) (z y) at_start SANS (z 42) fog value; text (z x) (z (y + 28)) at_start SANS (z 17) dim (toUpperCase label)].
Definition Row (x y width : Z) (label value : string) (mono : bool) : list Element :=
  [text (z x) (z y) at_start SANS (z 21) dim label;
   text (z (x + width)) (z y) at_end (if mono then MONO else SANS)
     (if mono then fitSize value (z 22) (dec 62 2) (nmul (z width) (dec 72 2)) else z 22) fog value;
   line (z x) (z (y + 16)) (z (x + width)) (z (y + 16)) edge].

Definition SignalPlot (m : ShareCardModel) (x y w h : Z) : list Element :=
  let plotTop := z (y + 44) in
  let plotH := z (h - 78) in
  Label x (y + 8) "Signal strength" ::
  text (z (x + w)) (z (y + 8)) at_end SANS (z 19) dim
    (match sc_signal m with Some s => num_string (cs_maxRssi s) +:+ " to " +:+ num_string (cs_minRssi s) +:+ " dBm" | None => "" end) ::
  match sc_signal m with
  | None => [text (nadd (z x) (ndiv (z w) (z 2))) (nadd plotTop (ndiv plotH (z 2))) at_middle SANS (z 21) dim "No signal-strength samples recorded"]
  | Some s =>
      map (fun t => line (z x) (nadd plotTop (nmul plotH t)) (z (x + w)) (nadd plotTop (nmul plotH t)) grid) [z 0; dec 5 1; z 1] ++
      [polyline (join " " (map (fun p => toFixed 1 (nadd (z x) (nmul (cp_x p) (z w))) +:+ "," +:+
                                          toFixed 1 (nadd plotTop (nmul (cp_y p) plotH))) (cs_points s))) cyan;
       text (z x) (z (y + h - 6)) at_start SANS (z 18) dim "Higher is a stronger signal — a rough proxy for how close it was, not a range."]
  end.

Definition summary (m : ShareCardModel) : string :=
  "ClassG detection record. " +:+ sc_headline m +:+ ". Confidence " +:+ sc_confidenceLabel m +:+ ". " +:+
  pretty (sc_detectionCount m) +:+ " detections over " +:+ sc_durationLabel m +:+ "." +:+
  (if sc_redacted m then " Location withheld." else "").

Definition chips (m : ShareCardModel) : list string :=
  TrackState_string (sc_state m) :: (if sc_modelHint m === EMPTY then [] else [sc_modelHint m]).
Definition chip (i : nat) (body : string) : list Element :=
  [rect (z (PAD + Z.of_nat i * 200)) (z 386) (z 184) (z 44) panel;
   text (z (PAD + Z.of_nat i * 200 + 92)) (z (386 + 29)) at_middle SANS (z 20) dim body].
Definition evidence_line (m : ShareCardModel) : string :=
  match sc_evidenceClasses m with
  | [] => "No classified evidence"
  | classes => "Class " +:+ join ", " classes +:+ " evidence · " +:+ join ", " (sc_sensorKinds m)
  end.
Definition position_value (m : ShareCardModel) : string :=
  sc_coordinates m ?? (if sc_redacted m then "Withheld" else "Not reported").

(** The picture: what it is called, and its elements. *)
Record Svg := { sv_label : string; sv_elements : list Element }.
Definition ShareCard (m : ShareCardModel) : Svg :=
  let confidence := nmax (z 0) (nmin (z 1) (sc_confidence m)) in
  let barY := 706 in
  let barW := INNER in {|
  sv_label := summary m;
  sv_elements :=
    [rect (z 0) (z 0) (z CARD_WIDTH) (z CARD_HEIGHT) night; rect (z 0) (z 0) (z CARD_WIDTH) (z 8) cyan;
     Mark PAD 70 76; text (z (PAD + 96)) (z 122) at_start SANS (z 46) fog "ClassG";
     text (z (CARD_WIDTH - PAD)) (z 122) at_end SANS (z 19) dim "DETECTION RECORD";
     line (z PAD) (z 200) (z (CARD_WIDTH - PAD)) (z 200) edge;
     Label PAD 268 "Detected";
     text (z PAD) (z 352) at_start SANS (fitSize (sc_headline m) (z 76) (dec 56 2) (z INNER)) fog (sc_headline m)] ++
    concat (imap chip (chips m)) ++
    Stat PAD 520 "Detections" (pretty (sc_detectionCount m)) ++
    Stat (PAD + 320) 520 "Duration" (sc_durationLabel m) ++
    Stat (PAD + 620) 520 "Peak signal" (sc_peakRssiLabel m) ++
    [Label PAD 640 "Confidence this is a drone";
     text (z PAD) (z 694) at_start SANS (z 60) fog (sc_confidenceLabel m);
     rect (z PAD) (z barY) (z barW) (z 12) panel;
     rect (z PAD) (z barY) (nmax (z 6) (nmul (z barW) confidence)) (z 12) cyan;
     text (z PAD) (z (barY + 44)) at_start SANS (z 20) dim (evidence_line m)] ++
    SignalPlot m PAD 812 INNER 240 ++
    Row PAD 1108 INNER "Seen" (sc_seenLabel m) false ++
    Row PAD 1158 INNER "Position" (position_value m) (match truthy (sc_coordinates m) with Some _ => true | None => false end) ++
    Row PAD 1208 INNER "Height AGL" (match sc_heightAglM m with None => EMPTY | Some h => toFixed 0 h +:+ " m" end) false ++
    Row PAD 1258 INNER "Ground track" (sc_movementLabel m) false ++
    Row PAD 1308 INNER "Serial" (sc_title m) true ++
    [text (z PAD) (z 1360) at_start SANS (z 19) dim "Received passively. ClassG never transmits, and this is not a threat assessment.";
     text (z PAD) (z 1390) at_start MONO (z 17) dim (sc_trackId m)] |}.

(** *** Facts *)

Definition size_of (n : Z) (base perChar limit : num) : num := nmax (z 18) (nmin base (ndiv (ndiv limit (nmax (z 1) (z n))) perChar)).
(** Within the sizes asked for, and either the smallest or narrow enough, to a
    thousandth of a unit. *)
Definition fits (n : Z) (base perChar limit : num) : bool :=
  let size := size_of n base perChar limit in
  nle (z 18) size && nle size base && (neq size (z 18) || nle (nmul (nmul size perChar) (z n)) (nadd limit (dec 1 3))).
Lemma sizes_fit :
  forallb (fun n => fits n (z 76) (dec 56 2) (z INNER) && fits n (z 22) (dec 62 2) (nmul (z INNER) (dec 72 2))) (map Z.of_nat (seq 0 400)) = true.
Proof. vm_compute. reflexivity. Qed.

(** A headline, and an identifier, of fewer than four hundred characters runs off
    the card only at the smallest size. *)
Lemma identifiers_fit body : slen body < 400 ->
  fits (slen body) (z 76) (dec 56 2) (z INNER) = true /\ fits (slen body) (z 22) (dec 62 2) (nmul (z INNER) (dec 72 2)) = true.
Proof.
  intros Hn. pose proof sizes_fit as H. rewrite forallb_forall in H. apply andb_true_iff, H, in_map_iff.
  exists (String.length body). split; [done|]. apply in_seq. unfold slen in Hn. lia.
Qed.

(** The place stands on the card as it is to be said: the coordinates, or that they
    are withheld, or that none was reported. *)
Lemma the_place_is_said m : exists size family,
  In (text (z (PAD + INNER)) (z 1158) at_end family size fog (position_value m)) (sv_elements (ShareCard m)).
Proof.
  do 2 eexists. cbn [ShareCard sv_elements].
  repeat first [apply in_or_app; left; right; left; reflexivity | apply in_or_app; right].
Qed.
End Drawn.

(** ** share-card-export.ts *)
Module Exporting.

(** What the browser has: a page in a secure context or not, the clipboard's
    [write], the share sheet's two functions. *)
Record Host := { ho_secure : bool; ho_clipboard_item : bool; ho_clipboard_write : bool; ho_share : bool; ho_can_share : bool }.
Definition canCopyImages (h : Host) : bool := ho_secure h && ho_clipboard_item h && ho_clipboard_write h.
Definition canShareFiles (h : Host) : bool := ho_secure h && ho_share h && ho_can_share h.
Definition shareBlockedByInsecureContext (h : Host) : bool := negb (ho_secure h) && ho_share h.

(** [replace(/[^a-zA-Z0-9-]+/g, '-')]: a run of other characters is one hyphen. *)
Definition is_word (c : ascii) : bool :=
  let n := N_of_ascii c in
  ((48 <=? n) && (n <=? 57) || (65 <=? n) && (n <=? 90) || (97 <=? n) && (n <=? 122) || (n =? 45))%N.
Fixpoint hyphenated (in_run : bool) (s : string) : string :=
  match s with
  | EmptyString => ""
  | String c s' =>
      if is_word c then String c (hyphenated false s')
      else if in_run then hyphenated true s' else String "-" (hyphenated true s')
  end.
(** [replace(/^-+|-+$/g, '')]. *)
Fixpoint ltrim_hyphens (s : string) : string :=
  match s with String "-" s' => ltrim_hyphens s' | _ => s end.
Fixpoint rtrim_hyphens (s : string) : string :=
  match s with
  | EmptyString => ""
  | String c s' =>
      match rtrim_hyphens s' with
      | EmptyString => if Ascii.eqb c "-" then "" else String c ""
      | r => String c r
      end
  end.
(** [replace(/[:T]/g, '-')]. *)
Fixpoint dashed (s : string) : string :=
  match s with EmptyString => "" | String c s' => String (if Ascii.eqb c ":" || Ascii.eqb c "T" then "-"%char else c) (dashed s') end.
Definition safe_part (title : string) : string := truthy (Some (rtrim_hyphens (ltrim_hyphens (hyphenated false title)))) ?? "track".
Definition stamp_part (lastSeen : option string) : string :=
  match truthy lastSeen with Some s => truthy (Some (dashed (slice 0 19 s))) ?? "unknown" | None => "unknown" end.
Definition cardFilename (title : string) (lastSeen : option string) : string :=
  "classg-" +:+ safe_part title +:+ "-" +:+ stamp_part lastSeen +:+ ".png".

(** *** Facts *)

Fixpoint all_chars (p : ascii -> bool) (s : string) : bool :=
  match s with EmptyString => true | String c s' => p c && all_chars p s' end.
Lemma hyphenated_words b s : all_chars is_word (hyphenated b s) = true.
Proof.
  revert b. induction s as [|c s IH]; intros b; [done|]. cbn. destruct (is_word c) eqn:E; [cbn; by rewrite E, IH|]. destruct b; [done|]. cbn. apply IH.
Qed.
Lemma ltrim_chars p s : all_chars p s = true -> all_chars p (ltrim_hyphens s) = true.
Proof.
  induction s as [|c s IH]; [done|]. intros H. assert (all_chars p s = true) as Hs by (cbn in H; by destruct (p c)).
  destruct c as [[] [] [] [] [] [] [] []]; cbn [ltrim_hyphens]; try exact H. by apply IH.
Qed.
Lemma rtrim_chars p s : all_chars p s = true -> all_chars p (rtrim_hyphens s) = true.
Proof.
  induction s as [|c s IH]; [done|]. cbn. intros [Hc Hs]%andb_true_iff. specialize (IH Hs).
  destruct (rtrim_hyphens s) as [|d r]; [destruct (Ascii.eqb c "-"); cbn; by rewrite ?Hc|]. cbn in *. by rewrite Hc.
Qed.
Definition ends_plain (s : string) : bool := match s with String "-" _ => false | _ => true end.
Lemma ltrim_plain s : ends_plain (ltrim_hyphens s) = true.
Proof. induction s as [|c s IH]; [done|]. by destruct c as [[] [] [] [] [] [] [] []]. Qed.
Fixpoint last_char (s : string) : option ascii :=
  match s with EmptyString => None | String c EmptyString => Some c | String _ s' => last_char s' end.
Lemma rtrim_last s : last_char (rtrim_hyphens s) <> Some "-"%char.
Proof.
  induction s as [|c s IH]; [done|]. cbn. destruct (rtrim_hyphens s) as [|d r] eqn:E; [|exact IH].
  destruct (Ascii.eqb_spec c "-"); [done|]. cbn. congruence.
Qed.
Lemma rtrim_first s : ends_plain s = true -> ends_plain (rtrim_hyphens s) = true.
Proof.
  destruct s as [|c s]; [done|]. cbn [rtrim_hyphens]. intros H.
  destruct (rtrim_hyphens s), (Ascii.eqb c "-"); try done; destruct c as [[] [] [] [] [] [] [] []]; done.
Qed.

(** Whatever the identifier, the name's part made from it is not empty, holds only
    letters, digits and hyphens, and neither begins nor ends with a hyphen: what a
    file system refuses does not reach it. *)
Lemma the_name_is_safe title : let part := safe_part title in
  part <> "" /\ all_chars is_word part = true /\ ends_plain part = true /\ last_char part <> Some "-"%char.
Proof.
  cbv zeta. unfold safe_part. pose proof (hyphenated_words false title) as Hw. set (h := hyphenated false title) in *. clearbody h.
  pose proof (rtrim_chars _ _ (ltrim_chars _ _ Hw)) as H1. pose proof (rtrim_first _ (ltrim_plain h)) as H2.
  pose proof (rtrim_last (ltrim_hyphens h)) as H3. destruct (rtrim_hyphens (ltrim_hyphens h)) as [|c s]; [by split_and!|]. by cbn; split_and!.
Qed.
Example a_mac : cardFilename "26:37:12:aa:bb:cc" (Some "2026-08-16T03:49:30.250Z") = "classg-26-37-12-aa-bb-cc-2026-08-16-03-49-30.png".
Proof. vm_compute. reflexivity. Qed.
Example no_name : cardFilename "::" None = "classg-track-unknown.png".
Proof. vm_compute. reflexivity. Qed.
End Exporting.

(** ** share-track.tsx *)
Module Dialog.
Import Drawn Exporting.

Inductive Button := btn_png | btn_copy | btn_share.
(** What left the browser: the card each image was drawn from. *)
Inductive Sent :=
| downloaded (filename : string) (card : Svg)
| offered (filename : string) (card : Svg) (title body : string)
| to_clipboard (card : Svg).
Definition sent_card (s : Sent) : Svg :=
  match s with downloaded _ card | offered _ card _ _ | to_clipboard card => card end.
Record Toast := { to_title : string; to_description : option string; to_error : bool }.

(** A press under way: the words of the model it was pressed over, the card's
    element once it has left the page, and how far it is. *)
Inductive Stage := waiting_fonts | drawing (card : Svg) | at_sheet | at_clipboard.
Record Job := { jb_button : Button; jb_model : ShareCardModel; jb_left : option Svg; jb_stage : Stage }.

Record Share := {
  sh_track : Track;
  sh_samples : list RssiSample;
  sh_open : bool;
  sh_includeLocation : bool;
  sh_job : option Job;
  sh_sent : list Sent;
  sh_toasts : list Toast
}.
Definition mount (track : Track) (samples : list RssiSample) : Share :=
  {| sh_track := track; sh_samples := samples; sh_open := false; sh_includeLocation := false; sh_job := None; sh_sent := []; sh_toasts := [] |}.

Section Dialog.
Context {T : Trig} {D : CardDates} (host : Host) (takes_files : bool).

Definition model (s : Share) : ShareCardModel := buildShareCardModel (sh_track s) (negb (sh_includeLocation s)) (sh_samples s).
Definition hasPosition (s : Share) : bool := match tr_current (sh_track s) with Some _ => true | None => false end.
Definition busy (s : Share) : option Button := jb_button <$> sh_job s.

Definition share_title (m : ShareCardModel) : string := "ClassG detection — " +:+ sc_headline m.
Definition share_text (m : ShareCardModel) : string :=
  sc_headline m +:+ " detected " +:+ sc_seenLabel m +:+ " · " +:+ pretty (sc_detectionCount m) +:+ " detections · " +:+
  sc_confidenceLabel m +:+ " confidence.".
Definition filename (m : ShareCardModel) : string := cardFilename (sc_title m) (Some (sc_lastSeen m)).

Definition with_job (job : option Job) (s : Share) : Share :=
  {| sh_track := sh_track s; sh_samples := sh_samples s; sh_open := sh_open s; sh_includeLocation := sh_includeLocation s;
     sh_job := job; sh_sent := sh_sent s; sh_toasts := sh_toasts s |}.
Definition send (x : Sent) (s : Share) : Share :=
  {| sh_track := sh_track s; sh_samples := sh_samples s; sh_open := sh_open s; sh_includeLocation := sh_includeLocation s;
     sh_job := sh_job s; sh_sent := sh_sent s ++ [x]; sh_toasts := sh_toasts s |}.
Definition toast (t : Toast) (s : Share) : Share :=
  {| sh_track := sh_track s; sh_samples := sh_samples s; sh_open := sh_open s; sh_includeLocation := sh_includeLocation s;
     sh_job := sh_job s; sh_sent := sh_sent s; sh_toasts := sh_toasts s ++ [t] |}.
(** The catch of [withCard]: the message of an export's own error, or the general one. *)
Definition failed (message : option string) : Toast :=
  {| to_title := "Could not create the image";
     to_description := Some (message ?? "Rendering the card failed. The track itself is unaffected."); to_error := true |}.

Inductive Event :=
| opens (open_ : bool)
| switches (include_ : bool)
| presses (b : Button)
| fonts_ready
| drawn (r : unit + option string)
| sheet_closed (r : bool + option string)
| clipboard_wrote (r : unit + option string)
| shows_track (track : Track) (samples : list RssiSample).

Definition staged (stage : Stage) (j : Job) : Job :=
  {| jb_button := jb_button j; jb_model := jb_model j; jb_left := jb_left j; jb_stage := stage |}.
Definition leave (card : Svg) (j : Job) : Job :=
  {| jb_button := jb_button j; jb_model := jb_model j; jb_left := Some (jb_left j ?? card); jb_stage := jb_stage j |}.

(** The image is there: it goes where the button says. *)
Definition deliver (j : Job) (card : Svg) (s : Share) : Share :=
  let download := with_job None (send (downloaded (filename (jb_model j)) card) s) in
  match jb_button j with
  | btn_png => download
  | btn_share =>
      if canShareFiles host && takes_files
      then with_job (Some (staged at_sheet j)) (send (offered (filename (jb_model j)) card (share_title (jb_model j)) (share_text (jb_model j))) s)
      else download
  | btn_copy => with_job (Some (staged at_clipboard j)) (send (to_clipboard card) s)
  end.

(** [None] where the event cannot happen: a control that is not there or is
    disabled, an answer nobody waits for. *)
Definition step (s : Share) (e : Event) : option Share :=
  match e, sh_job s with
  | opens open_, job =>
      let card := ShareCard (model s) in
      Some {| sh_track := sh_track s; sh_samples := sh_samples s; sh_open := open_; sh_includeLocation := sh_includeLocation s;
              sh_job := if open_ then job else leave card <$> job; sh_sent := sh_sent s; sh_toasts := sh_toasts s |}
  | switches include_, job =>
      if sh_open s && hasPosition s
      then Some {| sh_track := sh_track s; sh_samples := sh_samples s; sh_open := sh_open s; sh_includeLocation := include_;
                   sh_job := job; sh_sent := sh_sent s; sh_toasts := sh_toasts s |}
      else None
  | presses b, None =>
      if sh_open s && match b with btn_png => true | btn_copy => canCopyImages host | btn_share => canShareFiles host end
      then Some (with_job (Some {| jb_button := b; jb_model := model s; jb_left := None; jb_stage := waiting_fonts |}) s)
      else None
  | fonts_ready, Some j =>
      match jb_stage j with waiting_fonts => Some (with_job (Some (staged (drawing (jb_left j ?? ShareCard (model s))) j)) s) | _ => None end
  | drawn r, Some j =>
      match jb_stage j with
      | drawing card => Some (match r with inl _ => deliver j card s | inr message => with_job None (toast (failed message) s) end)
      | _ => None
      end
  | sheet_closed r, Some j =>
      match jb_stage j with
      | at_sheet => Some (with_job None (match r with inl _ => s | inr message => toast (failed message) s end))
      | _ => None
      end
  | clipboard_wrote r, Some j =>
      match jb_stage j with
      | at_clipboard => Some (with_job None (toast (match r with
          | inl _ => {| to_title := "Card copied to the clipboard"; to_description := None; to_error := false |}
          | inr message => failed message end) s))
      | _ => None
      end
  | shows_track track samples, job =>
      Some {| sh_track := track; sh_samples := samples; sh_open := sh_open s; sh_includeLocation := sh_includeLocation s;
              sh_job := job; sh_sent := sh_sent s; sh_toasts := sh_toasts s |}
  | _, _ => None
  end.
Fixpoint run (s : Share) (es : list Event) : option Share :=
  match es with [] => Some s | e :: es => match step s e with Some s => run s es | None => None end end.

(** What the dialog says, and its buttons. *)
Record View := {
  vw_card : Svg; vw_switch : bool * bool; vw_note : string; vw_warns : bool;
  vw_buttons : list (Button * string * bool); vw_insecure : bool
}.
Definition is_busy (b : Button) (s : Share) : bool :=
  match busy s, b with Some btn_png, btn_png | Some btn_copy, btn_copy | Some btn_share, btn_share => true | _, _ => false end.
Definition a_button (b : Button) (text working : string) (s : Share) : Button * string * bool :=
  (b, if is_busy b s then working else text, match busy s with None => true | Some _ => false end).
Definition ShareTrack (s : Share) : View := {|
  vw_card := ShareCard (model s);
  vw_switch := (sh_includeLocation s, hasPosition s);
  vw_note := if negb (hasPosition s) then "This track broadcast no position, so the card carries no coordinates."
             else if sh_includeLocation s then "This card shows the exact coordinates. For an aircraft on the ground that is effectively an address."
             else "Coordinates are removed. The signal trace and the ground-track summary stay — neither places the contact anywhere on earth.";
  vw_warns := sh_includeLocation s && hasPosition s;
  vw_buttons := (if canShareFiles host then [a_button btn_share "Share…" "Preparing…" s] else []) ++
                (if canCopyImages host then [a_button btn_copy "Copy" "Copying…" s] else []) ++
                [a_button btn_png "Download PNG" "Rendering…" s];
  vw_insecure := negb (canShareFiles host) && shareBlockedByInsecureContext host |}.

(** *** Facts *)

Section Among.
(** The tracks shown, with their samples. *)
Context (among : Track -> list RssiSample -> Prop).

(** A card of one of them with the place withheld. *)
Definition withheld (card : Svg) : Prop :=
  exists track samples, among track samples /\ card = ShareCard (buildShareCardModel track true samples).
Definition admits (e : Event) : Prop := match e with shows_track track samples => among track samples | _ => True end.
Record closed_to_place (s : Share) : Prop := {
  cl_switch : sh_includeLocation s = false;
  cl_among : among (sh_track s) (sh_samples s);
  cl_job : forall j, sh_job s = Some j ->
    (forall card, jb_left j = Some card -> withheld card) /\ (forall card, jb_stage j = drawing card -> withheld card);
  cl_sent : List.Forall (fun x => withheld (sent_card x)) (sh_sent s)
}.

Lemma model_withheld s : sh_includeLocation s = false -> among (sh_track s) (sh_samples s) -> withheld (ShareCard (model s)).
Proof. intros H Ha. unfold model. rewrite H. by eexists _, _. Qed.
Lemma sent_more s x : List.Forall (fun x => withheld (sent_card x)) (sh_sent s) -> withheld (sent_card x) ->
  List.Forall (fun x => withheld (sent_card x)) (sh_sent s ++ [x]).
Proof. intros. apply List.Forall_app. split; [done|]. by repeat constructor. Qed.

Lemma deliver_closed j card s : closed_to_place s -> sh_job s = Some j -> withheld card -> closed_to_place (deliver j card s).
Proof.
  intros [H1 H0 H2 H3] Hj Hc. destruct (H2 j Hj) as [Hl _].
  assert (closed_to_place (with_job None (send (downloaded (filename (jb_model j)) card) s))) as Hd.
  { split; cbn; [done|done|done|by apply sent_more]. }
  unfold deliver. destruct (jb_button j); [exact Hd| |].
  - split; cbn; [done|done| |by apply sent_more]. intros j' [= <-]. by split.
  - destruct (canShareFiles host && takes_files); [|exact Hd]. split; cbn; [done|done| |by apply sent_more]. intros j' [= <-]. by split.
Qed.

Lemma step_closed s e s' : closed_to_place s -> admits e /\ e <> switches true -> step s e = Some s' -> closed_to_place s'.
Proof.
  intros Hs [Ha0 He]. pose proof Hs as [H1 H0 H2 H3]. destruct e as [o|i|b| |r|r|r|t ss]; cbn [step]; destruct (sh_job s) as [j|] eqn:Ej; try done.
  - intros [= <-]. split; cbn; [done|done| |done]. destruct (H2 j eq_refl) as [Ha Hb]. destruct o; intros j' [= <-]; [by split|]. split; [|exact Hb].
    cbn. intros card [= <-]. destruct (jb_left j) as [c|] eqn:El; [by apply Ha|by apply model_withheld].
  - intros [= <-]. split; cbn; [done|done| |done]. by destruct o.
  - destruct (sh_open s && hasPosition s); [|done]. intros [= <-]. destruct i; [done|]. by split.
  - destruct (sh_open s && hasPosition s); [|done]. intros [= <-]. destruct i; [done|]. by split.
  - destruct (sh_open s && _); [|done]. intros [= <-]. split; cbn; [done|done| |done]. intros j [= <-]. by split.
  - destruct (jb_stage j) eqn:Es; try done. intros [= <-]. destruct (H2 j eq_refl) as [Ha Hb]. split; cbn; [done|done| |done].
    intros j' [= <-]. cbn. split; [exact Ha|]. intros card [= <-]. destruct (jb_left j) as [c|] eqn:El; [by apply Ha|by apply model_withheld].
  - destruct (jb_stage j) as [|card| |] eqn:Es; try done. destruct (H2 j eq_refl) as [Ha Hb]. destruct r as [u|m]; intros [= <-].
    + by apply deliver_closed; [| |apply Hb].
    + by split.
  - destruct (jb_stage j); try done. intros [= <-]. by destruct r; split.
  - destruct (jb_stage j); try done. intros [= <-]. by split.
  - intros [= <-]. by split.
  - intros [= <-]. by split.
Qed.

(** The words that go with the image: those of the track, whatever the switch says. *)
Definition worded (track : Track) (samples : list RssiSample) (x : Sent) : Prop :=
  match x with
  | offered _ _ title body =>
      title = share_title (buildShareCardModel track true samples) /\ body = share_text (buildShareCardModel track true samples)
  | _ => True
  end.
Definition of_a_track (m : ShareCardModel) : Prop :=
  exists track redacted samples, among track samples /\ m = buildShareCardModel track redacted samples.
Definition worded_as_shown (x : Sent) : Prop := exists track samples, among track samples /\ worded track samples x.
Record worded_job (s : Share) : Prop := {
  wj_job : forall j, sh_job s = Some j -> of_a_track (jb_model j);
  wj_among : among (sh_track s) (sh_samples s);
  wj_sent : List.Forall worded_as_shown (sh_sent s)
}.
Lemma words_of_track m filename card : of_a_track m -> worded_as_shown (offered filename card (share_title m) (share_text m)).
Proof. intros (t & r & ss & Ha & ->). by exists t, ss. Qed.

Lemma step_worded s e s' : worded_job s -> admits e -> step s e = Some s' -> worded_job s'.
Proof.
  intros [H1 H0 H2] Ha. destruct e as [o|i|b| |r|r|r|t ss]; cbn [step]; destruct (sh_job s) as [j|] eqn:Ej; try done.
  - intros [= <-]. split; cbn; [|done|done]. destruct o; intros j' [= <-]; exact (H1 j eq_refl).
  - intros [= <-]. split; cbn; [|done|done]. by destruct o.
  - destruct (_ && _); [|done]. intros [= <-]. by split.
  - destruct (_ && _); [|done]. intros [= <-]. by split.
  - destruct (_ && _); [|done]. intros [= <-]. split; cbn; [|done|done]. intros j [= <-]. by eexists _, _, _.
  - destruct (jb_stage j); try done. intros [= <-]. split; cbn; [|done|done]. intros j' [= <-]. exact (H1 j eq_refl).
  - destruct (jb_stage j) as [|card| |]; try done. specialize (H1 j eq_refl). destruct r as [u|m]; intros [= <-]; [|by split].
    assert (forall x, worded_as_shown x -> List.Forall worded_as_shown (sh_sent s ++ [x])) as Hm.
    { intros x Hx. apply List.Forall_app. split; [done|]. by repeat constructor. }
    unfold deliver. destruct (jb_button j), (canShareFiles host && takes_files); (split; cbn; [by intros j' [= <-]|done|apply Hm]);
      first [by apply words_of_track | by exists (sh_track s), (sh_samples s)].
  - destruct (jb_stage j); try done. intros [= <-]. by destruct r; split.
  - destruct (jb_stage j); try done. intros [= <-]. by split.
  - intros [= <-]. by split.
  - intros [= <-]. by split.
Qed.
End Among.

(** A card with the place withheld does not tell where the flight was heard: at the
    same height and with a path of the same sketch, it is the same card anywhere. *)
Lemma withheld_tells_no_place track samples current history operator :
  current ≫= ps_height_agl_m = tr_current track ≫= ps_height_agl_m ->
  buildPath (history ?? []) = buildPath (tr_history track ?? []) ->
  ShareCard (buildShareCardModel (heard_at track current history operator) true samples) = ShareCard (buildShareCardModel track true samples).
Proof. intros H1 H2. by rewrite (proj1 (redacted_card_hides_the_place track samples current history operator H1 H2)). Qed.

Lemma run_keeps (P : Share -> Prop) (allowed : Event -> Prop) es :
  (forall s e s', P s -> allowed e -> step s e = Some s' -> P s') ->
  forall s s', P s -> List.Forall allowed es -> run s es = Some s' -> P s'.
Proof.
  intros Hstep. induction es as [|e es IH]; intros s s' Hs Ha; cbn [run]; [by intros [= <-]|].
  destruct (step s e) as [s1|] eqn:E; [|done]. inversion Ha; subst. intros Hr. by eapply IH; [eapply Hstep| |].
Qed.

(** The track of a session, and those it went on to. *)
Definition shown (track : Track) (samples : list RssiSample) (es : list Event) (t : Track) (ss : list RssiSample) : Prop :=
  (t = track /\ ss = samples) \/ In (shows_track t ss) es.
Lemma all_admitted track samples es : List.Forall (admits (shown track samples es)) es.
Proof. apply List.Forall_forall. intros e He. destruct e; try done. by right. Qed.

(** C39. The place is opt-in.  In every session of the dialog, over any tracks, in
    which the switch was never put on, every image that left the browser, by
    whichever button and whenever it was drawn, is the card of a track shown with the
    place withheld, which is the same card for the same flight heard anywhere else;
    and in every session, switched on or not, the words given to the share sheet with
    an image are those of such a card. *)
Theorem the_place_is_opt_in (track : Track) (samples : list RssiSample) (es : list Event) (s : Share)
    (Hrun : run (mount track samples) es = Some s) :
  (~ In (switches true) es -> forall x, In x (sh_sent s) -> exists t ss, shown track samples es t ss /\
     sent_card x = ShareCard (buildShareCardModel t true ss) /\
     forall current history operator,
       current ≫= ps_height_agl_m = tr_current t ≫= ps_height_agl_m ->
       buildPath (history ?? []) = buildPath (tr_history t ?? []) ->
       sent_card x = ShareCard (buildShareCardModel (heard_at t current history operator) true ss)) /\
  (forall x, In x (sh_sent s) -> exists t ss, shown track samples es t ss /\ worded t ss x).
Proof.
  pose proof (all_admitted track samples es) as Ha. split.
  - intros Hn x Hx. assert (closed_to_place (shown track samples es) s) as [_ _ _ H3].
    { apply (run_keeps (closed_to_place (shown track samples es)) (fun e => admits (shown track samples es) e /\ e <> switches true) es) with (s := mount track samples);
        [by intros; eapply step_closed|split; [done|by left|done|done]| |done].
      apply List.Forall_and; [done|]. apply List.Forall_forall. by intros e He ->. }
    rewrite List.Forall_forall in H3. destruct (H3 x Hx) as (t & ss & Hs & E). exists t, ss. split_and!; [done|done|].
    intros current history operator H1 H2. rewrite E. symmetry. by apply withheld_tells_no_place.
  - apply List.Forall_forall.
    apply (run_keeps (worded_job (shown track samples es)) (admits (shown track samples es)) es) with (s := mount track samples);
      [by intros; eapply step_worded|split; [done|by left|done]|done|done].
Qed.

(** A press sends at most one image, and the buttons come back when it is over. *)
Lemma one_image_at_a_time s e s' : step s e = Some s' ->
  (List.length (sh_sent s) <= List.length (sh_sent s') <= S (List.length (sh_sent s)))%nat /\
  (forall b, e = presses b -> busy s = None /\ busy s' = Some b).
Proof.
  destruct e as [o|i|b| |r|r|r|t ss]; cbn [step]; destruct (sh_job s) as [j|] eqn:Ej; try done.
  1, 2, 10, 11: intros [= <-]; cbn; split; [lia|done].
  1, 2: destruct (sh_open s && hasPosition s); [|done]; intros [= <-]; cbn; split; [lia|done].
  - destruct (sh_open s && _); [|done]. intros [= <-]. cbn. split; [lia|]. intros b' [= <-]. unfold busy. by rewrite Ej.
  - destruct (jb_stage j); try done. intros [= <-]. cbn. split; [lia|done].
  - destruct (jb_stage j); try done. destruct r; intros [= <-]; [|cbn; split; [lia|done]]. split; [|done].
    unfold deliver. destruct (jb_button j), (canShareFiles host && takes_files); cbn [sh_sent with_job send]; rewrite length_app; cbn; lia.
  - destruct (jb_stage j); try done. intros [= <-]. split; [|done]. destruct r; cbn; lia.
  - destruct (jb_stage j); try done. intros [= <-]. cbn. split; [lia|done].
Qed.
End Dialog.
End Dialog.

(** ** Examples *)
Module Examples.
Import Drawn Exporting Dialog.

Definition phone : Host := {| ho_secure := true; ho_clipboard_item := true; ho_clipboard_write := true; ho_share := true; ho_can_share := true |}.
Definition lan : Host := {| ho_secure := false; ho_clipboard_item := true; ho_clipboard_write := true; ho_share := true; ho_can_share := true |}.
#[local] Instance flat : Trig := {| cos := fun _ => of_Z 1; hypot := fun x y => nmax (nabs x) (nabs y) |}.
#[local] Instance no_dates : CardDates := {| day_label := fun _ => "16 Aug"; clock_label := fun _ => "03:48" |}.
Definition elsewhere : Track := heard_at a_flight (Some (fix_at 21 20)) None None.

Definition places (es : list Event) : option (list bool) :=
  match run phone true (mount a_flight []) es with
  | Some s => Some (map (fun x => existsb (fun e => match e with text _ _ _ _ _ _ body => body === "Withheld" | _ => false end) (sv_elements (sent_card x))) (sh_sent s))
  | None => None
  end.

(** Shared with the switch off, then with it on. *)
Example off_then_on :
  places [opens true; presses btn_share; fonts_ready; drawn (inl tt); sheet_closed (inl true); switches true; presses btn_png; fonts_ready; drawn (inl tt)] =
  Some [true; false].
Proof. vm_compute. reflexivity. Qed.

(** The switch goes with the component, not with the track: put on for one, it is
    on for the next, whose card leaves with its place at the first press. *)
Lemma the_choice_carries_over :
  places [opens true; switches true; opens false; shows_track elsewhere []; opens true; presses btn_png; fonts_ready; drawn (inl tt)] = Some [false].
Proof. vm_compute. reflexivity. Qed.

(** The card is read when the fonts are there, not when the button is pressed: the
    switch put on in between counts. *)
Lemma the_card_is_read_late :
  places [opens true; presses btn_png; switches true; fonts_ready; drawn (inl tt)] = Some [false].
Proof. vm_compute. reflexivity. Qed.

(** Over plain http there is the download alone, and a line that says why. *)
Example over_http : let v := ShareTrack lan (mount a_flight []) in
  (map (fun b => snd (fst b)) (vw_buttons v), vw_insecure v) = (["Download PNG"], true).
Proof. vm_compute. reflexivity. Qed.

Lemma the_place_is_opt_in_witness :
  match run phone true (mount a_flight []) [opens true; presses btn_copy; fonts_ready; drawn (inl tt); clipboard_wrote (inl tt)] with
  | Some s => List.length (sh_sent s) = 1%nat /\
              forall x, In x (sh_sent s) -> sent_card x = ShareCard (buildShareCardModel a_flight true [])
  | None => False
  end.
Proof.
  destruct (run phone true (mount a_flight []) [opens true; presses btn_copy; fonts_ready; drawn (inl tt); clipboard_wrote (inl tt)]) as [s|] eqn:E;
    [|vm_compute in E; discriminate E].
  split; [vm_compute in E; by injection E as <-|]. intros x Hx.
  destruct (proj1 (the_place_is_opt_in phone true a_flight [] _ s E)) with (x := x) as (t & ss & Hs & H & _); [|exact Hx|].
  - intros H. cbn in H. intuition discriminate.
  - destruct Hs as [[-> ->]|Hs]; [exact H|]. cbn in Hs. intuition discriminate.
Defined.
End Examples.
